(* ===== verification/_CoqProject ===== *)
-Q . S2P
Prelude.v
Errors.v
Dtype.v
Bytes.v
Quality.v
Frame.v
Handshake.v
Scatter.v
Selection.v
SelectionSpec.v
Contiguous.v
Gathered.v
GatheredSpec.v
StretchSpec.v
ReadSpec.v
Cast.v
Codec.v
Layout.v
LayoutSpec.v
NumpyIndex.v
Chunks.v
DecodeCache.v
ChunkStore.v
Text.v
Backend.v
Null.v
Npy.v
Reduce.v
ReduceSpec.v
ReduceCorrect.v
ReduceNumpy.v
Paths.v
Zarr.v
ZarrSpec.v
ZarrCorrect.v
ZarrWritten.v
ZarrServes.v
Hdf5.v
Hdf5Spec.v
Hdf5Correct.v
Hdf5Serves.v
Convert.v
Config.v
Session.v
Transfer.v
Reader.v
DataPlane.v
Plan.v
Control.v
ControlSpec.v
ControlServes.v
ControlAnswers.v
Listener.v
Server.v
ServerSpec.v
Regions.v
RegionsSpec.v
RegionsAlone.v
Pool.v
PoolSpec.v
PoolCorrect.v
PoolEnds.v
Endpoint.v
Client.v
ClientSpec.v
Connect.v
ClientFill.v
Python.v
PythonSpec.v
System.v
EndToEnd.v
