(* ===== verification/Prelude.v ===== *)
(** * AEX2, verified

    AEX2 serves slices of large arrays over the network.  A client opens a session on
    the control plane (gRPC), resolves a selection of a dataset into a transfer plan, and
    fetches the plan's logical byte stream in chunks over several data connections, which
    a server thread each answers by reading the storage backend.  This library models the
    Rust code of that path, crate by crate, and proves what it promises: the bytes a
    selection names arrive, whatever is cut, retried, cached, narrowed or compressed on
    the way, and only where they should.

    ** The parts, from storage to client

    - [Errors]: the error enums of the four crates and their classes
      ([aex-core/src/error.rs], [aex-wire/src/error.rs], [aex-server/src/error.rs],
      [aex-client/src/error.rs]).  Diagnostic text is dropped; recovery is decided by the
      class alone.
    - [Dtype], [Quality], [Bytes], [Text]: element types ([dtype.rs]), the quality a
      client may ask for ([quality.rs]), little-endian integers, [f64] bit patterns, UTF-8
      and the string functions the parsers use.
    - [Selection]: [selection.rs] up to a normalised selection ([resolve], [expand],
      [resolve_slice], [contiguous_run]).  [SelectionSpec] says which elements a selection
      names, in C order; [Contiguous] proves the fast path against it.  [NumpyIndex] is
      numpy's own account of a selection, its shape and the source of each of its
      elements, and the proof that [resolve] answers with it.
    - [Gathered]: selections that are not one run ([Gathered::new], [for_each_stretch],
      [read]).  [GatheredSpec] proves that the dimensions name the selected elements,
      [StretchSpec] that the walk ends and hands them all over, [ReadSpec] that spans read
      once and cut up give the same bytes.
    - [Cast], [Layout]: narrowing elements and [SelectionLayout], a selection as a byte
      stream.  [LayoutSpec] proves [read_with]: the stream of the selected elements.
    - [Codec]: [codec/], the header that makes a compressed block describe itself.
    - [Chunks], [DecodeCache], [ChunkStore]: the chunk grid and the cache of decoded chunks
      that the chunked formats share ([backends/chunks.rs], [backends/decode_cache.rs]), and
      the array a format's chunks make up.
    - [Backend]: the traits [ArrayDataset] and [ArrayFile] as classes; the class [Served]
      is what a backend promises its clients: reads of any layout give the contents'
      bytes.  [Null] ([backends/null.rs]) and [Npy] ([backends/npy.rs]) are its instances.
    - [Zarr] ([backends/zarr.rs]): metadata, codec chains, shards, the node tree.
      [ZarrSpec] undoes the codecs, [ZarrCorrect] reads ranges through the cache,
      [ZarrWritten] is a store as the format writes it, [ZarrServes] what is promised.
    - [Hdf5] ([backends/hdf5.rs]): types, layouts, the chunk index, the filters, the node
      tree; [Hdf5Spec], [Hdf5Correct] and [Hdf5Serves] as for Zarr.
    - [Reduce] ([reduce.rs]): the reductions, computed block by block.  [ReduceSpec] has
      the reference of every function, [ReduceCorrect] proves the accumulators cell by
      cell, [ReduceNumpy] is numpy's definition and the refinement of it.
    - [Frame], [Handshake], [Scatter]: [aex-wire], the frames and messages on a data
      connection and the buffer several connections write into.
    - [Convert]: selections and quality as messages ([aex-proto/src/convert.rs]).
    - [Config], [Session], [Transfer], [Paths], [Reader], [DataPlane]: [aex-server]; the
      registries of sessions and plans, the paths a client may open, and a data connection
      from its handshake through its fetches to its end.  [Listener] is the other half of
      [dataplane.rs]: taking the socket, the accept thread, and the shutdown.
    - [Control] ([control.rs]): every RPC as a function over the service's state.
      [ControlSpec] says what a call may change ([touches], composed over [sbind]),
      [ControlServes] and [ControlAnswers] what the calls promise.
    - [Server] ([aex-server/src/lib.rs], [main.rs]): starting up, the command line, the
      sweep, and [serves], the states the shared registries of a running server can be in.
      [ServerSpec] is its invariant.  [Regions] is the same server between its locks: every
      call taken apart into the locked regions and atomic operations of [session.rs] and
      [transfer.rs], which those of other calls come between.  [RegionsSpec] is what holds
      between any two, [RegionsAlone] that a call alone is a step of [Server.perform].
    - [Plan], [Pool], [Connect]: [aex-client]; checking a plan and cutting its chunks
      ([transfer.rs], [client.rs]), the threads of the pool that fetch them, and opening
      and rebuilding their connections ([pool.rs]).  [PoolSpec] is the invariant of the
      pool's threads, [PoolCorrect] what a transfer comes to, [PoolEnds] that it ends.
    - [Endpoint], [Client] ([client.rs], [config.rs], [transfer.rs]): every call of the
      client over the class [Remote], the server it talks to.  [ClientSpec] is what the
      messages carry, [ClientFill] the loop that fills buffers.
    - [Python] ([aex-py/src/lib.rs]): the bindings; [PythonSpec] what they promise.
    - [System]: the pool and the server as one transition system with bytes on the wire
      between them; [EndToEnd] follows a selection from its request into the buffer.

    A file that models a component has its state as a record, its data as the enums of
    the source, one definition per function, named as there, and a [Module] where the
    source has an [impl].  Files named [...Spec], [...Correct], [...Serves] and the like
    hold reference definitions and proofs.

    ** How the code is modelled

    Integers are [Z]; arithmetic that may overflow is written out at its width ([+w],
    [-w], [*w] wrap at 64 bits, [checked_add] and its like answer [None]).  [usize] is 64
    bits.  A fallible function answers [result]: [Ok], [Err] or [Panic], the last for what
    an index out of range, a failed [expect] or an [unreachable!] does; a mutated argument
    is returned.  A buffer is the list of its bytes.  An [f64] is its bit pattern, and a
    [spec_float] of 53 bits where it is computed with.

    Loops that are not structural take fuel: the number of bytes, elements or frames
    still to go, which the caller computes from its arguments.  Running out is [Panic], and
    the theorems prove that it does not happen ([for_each_stretch_exact],
    [chunk_walk_correct], [serve_sends_range], [layout_resolve_total], [reduce_total]).
    [Client.FILL_TURNS] is 2: filling is tried, and once more with the plans that were
    refused prepared again, which is all the source's guard lets it do ([fill_delivers]).
    A transfer of the pool has no fuel: [allowance] bounds its steps by its bytes, chunks,
    retries, credit and threads, those that bring nothing left out ([transfer_ends]).
    [serve_frames] alone has no bound of its own, a peer may send for ever: it answers
    [None] when the fuel is spent, and what is proved of it holds for every amount.

    Concurrency is explicit.  A mutex's locked region, or an atomic operation, is one
    step; what is between two of them is two steps.  So [create_at] is two steps of the
    session registry, [open_data_conn] a load and any number of compare-exchanges, the
    decode cache steps through its methods, and a transfer of the pool is a step function
    over the threads' phases whose events are what the network and the scheduler do.
    [notify_all] is part of the locked region it follows; spurious wake-ups are events.
    The accept thread, the connection threads and the shutdown step through [Plane.move];
    a connection thread looks at [stop], reads, handles what it read or is in a write, and
    may make [most] writes, a parameter, for one message (a fetch's pieces, which
    [max_fetch_bytes] bounds, and an error).
    An RPC is one step of the server in [Server.serves], which interleaves calls with one
    another, with data connections and with the sweep, but not inside.  [Regions.moves] does
    it inside too, a region at a time; sessions and plans that were dropped while a call or
    a connection still uses them are kept beside the tables.  [calls_are_regions] takes each
    step of [serves] to regions with nothing in between, and [regions_consistent] holds
    wherever others come.  The connections counted in and never out, because READY could not
    be written or the thread panicked, are kept there too.

    [System.step] is one act of a pool thread or one turn of a connection of the server;
    a link between them holds the requests sent and the bytes not yet read, which a break
    cuts anywhere.  [System.vouched] says of a plan table that it answers a transfer's tickets,
    if at all, with the plans they were issued for; [EndToEnd] proves that it stays so.

    ** Interfaces and parameters

    Code of other crates is a class of parameters with the documented behaviour as laws:
    [CodecLib] and [CodecLaws] (flate2, sz3, zfp), [HalfLib] and [HalfNum] (half),
    [TypeStrLib] and [NpyLib] (npyz), [ChunkLib] (zstd, flate2, crc32c), [Serde], [JsonNum]
    and [SerdeLaws] (serde_json), [Hdf5Lib] (what libhdf5 answers of an open file),
    [FlateLib] (the inflater HDF5 chunks go through), [Fs] and [FsLaws] (the file
    system's [canonicalize]: its answers hold no [..] and resolve to themselves), [StoreFs] (a directory tree), [OpenFile] and [pread_ok] (positioned
    reads), [PyFloats] (what PyO3 takes for a float).  [Build] is the features compiled in.
    The laws have instances in the witnesses.

    Other classes stand between the components themselves.  [ArrayDataset], [ArrayFile]
    and [Backends] are what the server asks of a format; [Served], [FileLaws] and
    [LayoutKept] what a format promises it.  [Acc], [Elem], [Cellwise] and [ElemLaws] are
    the traits of the reductions.  [Display] is the text of an error, which ERROR frames
    carry.  [Remote] is the server as a client's calls see it and [Honest] what [ClientFill]
    relies on of it: the plan answered to a request brings or names bytes that are an answer
    to it, and says how many, which is what [selection_delivered] proves of the server, and a
    fetch that answers [Ok] filled each buffer with the stream its plan names, which is what
    [pool_delivers] and [selection_arrives] prove of the pool.

    ** What the theorems show

    - Reading: [read_with_correct], [contiguous_run_exact], [gathered_new_exact],
      [for_each_stretch_exact], [slice_like_python], [layout_resolve_total],
      [chunks_reassemble]; storage: [chunk_walk_correct], [cache_sound],
      [npy_open_serves], [npy_read_after_truncation], [null_spec_serves].
    - Stored formats: what was written is served, [zarr_store_serves] and
      [hdf5_store_serves]; a read is its range or the very failure of a chunk,
      [zarr_read_correct] and [hdf5_read_correct]; nothing outside the store is read,
      [store_confined].
    - Reductions: [reduce_refines_numpy], [reduce_total], [axes_like_numpy].
    - Sending: [fetch_delivers], [fetch_refused], [serve_sends_range],
      [read_full_reassembles], [write_frame_order]; blocks and messages come back as they
      were: [codec_roundtrip], [block_header_roundtrip], [frame_header_codec],
      [selection_travels], [item_travels].
    - Indexing: [resolve_like_numpy], which [selection_delivered] and [selection_arrives]
      build on.
    - The control plane: [selection_delivered], [batch_budget], [open_confined],
      [session_required], [calls_isolated].
    - A running server: [regions_consistent] (however calls interleave),
      [calls_are_regions], [server_consistent], [idle_collected], [shutdown_completes].
    - Who may read what: [fetch_authorized], [handshake_admits], [connections_balanced],
      [data_conns_bounded], [paths_confined].
    - Receiving: [pool_admitted] and [reconnect_ends] (the connections), [pool_delivers]
      (an [Ok] means every byte arrived, over every interleaving and every broken
      connection), [transfer_ends], [pool_never_stuck], [pool_consistent],
      [scatter_exclusive].
    - The caller's side: [fill_delivers], [batch_paired], [arrays_filled].
    - All of it: [selection_arrives].

    Some theorems record where the code and what it says of itself part:
    [empty_claim_breaks_exclusion], [num_elements_can_wrap], [block_size_can_wrap],
    [session_limit_race], [sweep_can_orphan], [wrapped_id_drops_other_plan],
    [read_ahead_crosses_transfers],
    [handshake_leaks_stream], [gzip_unaligned_fetch_hangs_up], [split_breaks_elements],
    [checksum_under_gzip_is_lost], [wrapped_total_panics], [accepted_types_sized],
    [missing_codec_not_asked], [exact_asks_for_gzip], [plain_quality_not_read_back],
    [writer_holds_shutdown_up].

    ** Not modelled

    Sockets as such (what they answer is an argument), the async runtime, signals and the
    gRPC channel, the clock (an argument), random identifiers (an argument), TOML (a
    parser that is an argument), logging and debug output, throughput figures, and memory:
    that a scratch buffer is reused is not visible, nor are the views numpy and the
    bindings share.  [half::f16::from_f32] and the compressors are parameters.  What a
    refused block leaves in its place of the receive buffer is not modelled: the transfer
    has failed then.  [backends/mod.rs] and the [lib.rs] of the other crates declare
    modules; the benchmarks and examples are clients of the crates.

    This file is what the others share: outcomes, machine words, slices of lists,
    C order, sums, and the automation ([word] hints, [ok_inv], [word_norm], [div_mod]). *)
From Stdlib Require Export ZArith Lia.
From stdpp Require Export base option numbers list.
Open Scope Z_scope.

(** ** Outcomes *)

(** What a Rust call can come to: a value, an error value, or a panic.
    [Panic] is what an out-of-range index, a failed [expect] or an
    [unreachable!] does, and what a fuelled loop answers when its fuel runs
    out; the theorems about an operation rule it out. *)
Inductive result (E A : Type) : Type :=
  | Ok (a : A)
  | Err (e : E)
  | Panic.
Arguments Ok {E A} a.
Arguments Err {E A} e.
Arguments Panic {E A}.

#[export] Instance result_ret {E} : MRet (result E) := fun A a => Ok a.
#[export] Instance result_bind {E} : MBind (result E) := fun A B f m =>
  match m with Ok a => f a | Err e => Err e | Panic => Panic end.
#[export] Instance result_fmap {E} : FMap (result E) := fun A B f m =>
  match m with Ok a => Ok (f a) | Err e => Err e | Panic => Panic end.

#[export] Instance result_eq_dec {E A} `{EqDecision E, EqDecision A} :
  EqDecision (result E A).
Proof. solve_decision. Defined.

(** [Result::map_err]. *)
Definition map_err {E F A} (f : E -> F) (m : result E A) : result F A :=
  match m with Ok a => Ok a | Err e => Err (f e) | Panic => Panic end.

(** [Option::ok_or]. *)
Definition ok_or {E A} (e : E) (o : option A) : result E A :=
  match o with Some a => Ok a | None => Err e end.

(** Indexing, [Option::expect] and [Option::unwrap]: absent means a panic. *)
Definition expect {E A} (o : option A) : result E A :=
  match o with Some a => Ok a | None => Panic end.

(** A call that also changes a state, in sequence with the rest of its caller: an error
    leaves the state as the call did. *)
Definition sbind {S E A B} (m : S * result E A) (f : S -> A -> S * result E B) : S * result E B :=
  match m with
  | (s, Ok a) => f s a
  | (s, Err e) => (s, Err e)
  | (s, Panic) => (s, Panic)
  end.

(** A call that does not, in such a sequence. *)
Definition pure_step {S E A} (s : S) (m : result E A) : S * result E A := (s, m).

Definition is_ok {E A} (m : result E A) : Prop := exists a, m = Ok a.

Lemma bind_ok {E A B} (m : result E A) (f : A -> result E B) b :
  (m ≫= f) = Ok b <-> exists a, m = Ok a /\ f a = Ok b.
Proof. destruct m; naive_solver. Qed.

Lemma bind_err {E A B} (m : result E A) (f : A -> result E B) e :
  (m ≫= f) = Err e <-> m = Err e \/ exists a, m = Ok a /\ f a = Err e.
Proof. destruct m; naive_solver. Qed.

Lemma fmap_ok {E A B} (m : result E A) (f : A -> B) b :
  f <$> m = Ok b <-> exists a, m = Ok a /\ b = f a.
Proof. destruct m; naive_solver. Qed.

Lemma ok_or_ok {E A} (e : E) (o : option A) a : ok_or e o = Ok a <-> o = Some a.
Proof. destruct o; naive_solver. Qed.

(** Take a successful computation apart, one bind at a time. *)
Ltac ok_inv :=
  repeat match goal with
  | H : (_ ≫= _) = Ok _ |- _ => apply bind_ok in H as (? & ? & ?)
  | H : _ <$> _ = Ok _ |- _ => apply fmap_ok in H as (? & ? & ?)
  | H : ok_or _ _ = Ok _ |- _ => apply ok_or_ok in H
  | H : Ok _ = Ok _ |- _ => injection H as H
  | H : mret _ = Ok _ |- _ => injection H as H
  | H : Err _ = Ok _ |- _ => discriminate H
  | H : Panic = Ok _ |- _ => discriminate H
  end; simplify_eq.

Lemma mapM_ok {E A B} (f : A -> result E B) l k :
  mapM f l = Ok k <-> Forall2 (fun x y => f x = Ok y) l k.
Proof.
  split.
  - revert k. induction l as [|x l IH]; intros k Hk; cbn in Hk.
    + injection Hk as <-. constructor.
    + apply bind_ok in Hk as (y & Hy & Hk). apply bind_ok in Hk as (k' & Hk' & Hk).
      injection Hk as <-. constructor; auto.
  - induction 1 as [|x y l k Hxy _ IH]; cbn; [done|].
    rewrite Hxy. cbn. rewrite IH. done.
Qed.

(** ** Machine integers *)

(** An [u64] (and [usize], on the 64-bit targets the server builds for) is a
    [Z] in [0, 2^64).  The plain operators wrap, as they do in a release build;
    [checked_*] and [saturating_*] are Rust's. *)
Abbreviation two64 := (2 ^ 64).
Abbreviation two63 := (2 ^ 63).
Abbreviation two32 := (2 ^ 32).

Definition u64 (z : Z) : Z := z mod two64.
Definition u32 (z : Z) : Z := z mod two32.
Definition is_u64 (z : Z) : Prop := 0 <= z < two64.
Definition is_i64 (z : Z) : Prop := - two63 <= z < two63.
Definition is_u32 (z : Z) : Prop := 0 <= z < two32.
Definition is_u8 (z : Z) : Prop := 0 <= z < 256.

#[export] Instance is_u64_dec z : Decision (is_u64 z).
Proof. unfold is_u64. apply _. Defined.
#[export] Instance is_i64_dec z : Decision (is_i64 z).
Proof. unfold is_i64. apply _. Defined.
#[export] Instance is_u32_dec z : Decision (is_u32 z).
Proof. unfold is_u32. apply _. Defined.
#[export] Instance is_u8_dec z : Decision (is_u8 z).
Proof. unfold is_u8. apply _. Defined.

Definition wadd (a b : Z) : Z := u64 (a + b).
Definition wsub (a b : Z) : Z := u64 (a - b).
Definition wmul (a b : Z) : Z := u64 (a * b).
Infix "+w" := wadd (at level 50, left associativity) : Z_scope.
Infix "-w" := wsub (at level 50, left associativity) : Z_scope.
Infix "*w" := wmul (at level 40, left associativity) : Z_scope.

Definition checked_add (a b : Z) : option Z :=
  if decide (a + b < two64) then Some (a + b) else None.
Definition checked_sub (a b : Z) : option Z :=
  if decide (b <= a) then Some (a - b) else None.
Definition checked_mul (a b : Z) : option Z :=
  if decide (a * b < two64) then Some (a * b) else None.
Definition saturating_add (a b : Z) : Z := Z.min (a + b) (two64 - 1).
Definition saturating_sub (a b : Z) : Z := Z.max (a - b) 0.
Definition saturating_mul (a b : Z) : Z := Z.min (a * b) (two64 - 1).
(** [u64::div_ceil]. *)
Definition div_ceil (a b : Z) : Z := (a + b - 1) / b.

(** [i64::saturating_add], [i64::try_from(u64)], [i64::checked_mul] and the
    [as u64] cast of a signed value. *)
Definition i64_saturating_add (a b : Z) : Z := Z.max (- two63) (Z.min (a + b) (two63 - 1)).
Definition i64_try_from (a : Z) : option Z :=
  if decide (a < two63) then Some a else None.
Definition i64_checked_mul (a b : Z) : option Z :=
  if decide (is_i64 (a * b)) then Some (a * b) else None.
Definition as_u64 (a : Z) : Z := u64 a.
(** [as i64] of an unsigned value. *)
Definition as_i64 (a : Z) : Z := if decide (u64 a < two63) then u64 a else u64 a - two64.

Create HintDb word.

Lemma u64_range z : is_u64 (u64 z).
Proof. apply Z.mod_pos_bound. lia. Qed.

Lemma u64_id z : is_u64 z -> u64 z = z.
Proof. apply Z.mod_small. Qed.

Lemma u64_u64 z : u64 (u64 z) = u64 z.
Proof. apply u64_id, u64_range. Qed.

Lemma u64_add_l a b : u64 (u64 a + b) = u64 (a + b).
Proof. apply Zplus_mod_idemp_l. Qed.
Lemma u64_add_r a b : u64 (a + u64 b) = u64 (a + b).
Proof. apply Zplus_mod_idemp_r. Qed.
Lemma u64_mul_l a b : u64 (u64 a * b) = u64 (a * b).
Proof. apply Zmult_mod_idemp_l. Qed.
Lemma u64_mul_r a b : u64 (a * u64 b) = u64 (a * b).
Proof. apply Zmult_mod_idemp_r. Qed.
Lemma u64_sub_l a b : u64 (u64 a - b) = u64 (a - b).
Proof. apply Zminus_mod_idemp_l. Qed.
Lemma u64_sub_r a b : u64 (a - u64 b) = u64 (a - b).
Proof. apply Zminus_mod_idemp_r. Qed.
#[export] Hint Rewrite u64_u64 u64_add_l u64_add_r u64_mul_l u64_mul_r u64_sub_l u64_sub_r
  : word.

Lemma wadd_small a b : is_u64 (a + b) -> a +w b = a + b.
Proof. apply u64_id. Qed.
Lemma wsub_small a b : is_u64 (a - b) -> a -w b = a - b.
Proof. apply u64_id. Qed.
Lemma wmul_small a b : is_u64 (a * b) -> a *w b = a * b.
Proof. apply u64_id. Qed.

Lemma wadd_range a b : is_u64 (a +w b).
Proof. apply u64_range. Qed.
Lemma wmul_range a b : is_u64 (a *w b).
Proof. apply u64_range. Qed.
#[export] Hint Resolve u64_range wadd_range wmul_range : word.

(** Push every wrap to the outside: what remains is one exact expression. *)
Ltac word_norm := unfold wadd, wsub, wmul, as_u64 in *; autorewrite with word in *.

Lemma checked_add_some a b c : checked_add a b = Some c <-> c = a + b /\ a + b < two64.
Proof. unfold checked_add. case_decide; naive_solver lia. Qed.
Lemma checked_add_none a b : checked_add a b = None <-> two64 <= a + b.
Proof. unfold checked_add. case_decide; naive_solver lia. Qed.
Lemma checked_mul_some a b c : checked_mul a b = Some c <-> c = a * b /\ a * b < two64.
Proof. unfold checked_mul. case_decide; naive_solver lia. Qed.
Lemma checked_sub_some a b c : checked_sub a b = Some c <-> c = a - b /\ b <= a.
Proof. unfold checked_sub. case_decide; naive_solver lia. Qed.
Lemma i64_checked_mul_some a b c :
  i64_checked_mul a b = Some c <-> c = a * b /\ is_i64 (a * b).
Proof. unfold i64_checked_mul. case_decide; naive_solver lia. Qed.
Lemma i64_try_from_some a c : i64_try_from a = Some c <-> c = a /\ a < two63.
Proof. unfold i64_try_from. case_decide; naive_solver lia. Qed.

(** [a] is covered by [div_ceil a b] pieces of [b], and by no fewer. *)
Lemma div_ceil_spec a b :
  0 < b -> (div_ceil a b - 1) * b < a <= div_ceil a b * b.
Proof.
  intros Hb. unfold div_ceil.
  pose proof (Z.div_mod (a + b - 1) b ltac:(lia)).
  pose proof (Z.mod_pos_bound (a + b - 1) b Hb). nia.
Qed.

Lemma div_ceil_nonneg a b : 0 < b -> 0 <= a -> 0 <= div_ceil a b.
Proof. intros. apply Z.div_pos; lia. Qed.

(** Euclid's equation, with the remainder's range: what [nia] needs. *)
Ltac div_mod a b :=
  pose proof (Z.div_mod a b ltac:(lia)); pose proof (Z.mod_pos_bound a b ltac:(lia)).

(** ** Lists and slices *)

Abbreviation zlen l := (Z.of_nat (length l)).

(** The sublist [off, off + len) of [l]. *)
Definition slice {A} (off len : Z) (l : list A) : list A :=
  take (Z.to_nat len) (drop (Z.to_nat off) l).

(** [&l[off..off + len]]: a panic when it runs past the end. *)
Definition slice_checked {E A} (off len : Z) (l : list A) : result E (list A) :=
  if decide (0 <= off /\ 0 <= len /\ off + len <= zlen l)
  then Ok (slice off len l) else Panic.

(** [l[off..off + b.len()].copy_from_slice(b)], as the list that results. *)
Definition splice {A} (off : Z) (b l : list A) : list A :=
  take (Z.to_nat off) l ++ b ++ drop (Z.to_nat off + length b) l.

Definition splice_checked {E A} (off : Z) (b l : list A) : result E (list A) :=
  if decide (0 <= off /\ off + zlen b <= zlen l) then Ok (splice off b l) else Panic.

Lemma length_slice {A} off len (l : list A) :
  0 <= off -> 0 <= len -> off + len <= zlen l -> zlen (slice off len l) = len.
Proof. intros. unfold slice. rewrite length_take, length_drop. lia. Qed.

Lemma length_splice {A} off (b l : list A) :
  0 <= off -> off + zlen b <= zlen l -> length (splice off b l) = length l.
Proof. intros. unfold splice. rewrite !length_app, length_take, length_drop. lia. Qed.

Lemma lookup_slice {A} off len (l : list A) (i : nat) :
  0 <= off -> (Z.of_nat i < len) -> slice off len l !! i = l !! (Z.to_nat off + i)%nat.
Proof. intros. unfold slice. rewrite lookup_take, decide_True, lookup_drop by lia. done. Qed.

Lemma slice_ok {E A} off len (l : list A) :
  0 <= off -> 0 <= len -> off + len <= zlen l ->
  slice_checked (E:=E) off len l = Ok (slice off len l).
Proof. intros. unfold slice_checked. rewrite decide_True; [done | lia]. Qed.

Lemma splice_ok {E A} off (b l : list A) :
  0 <= off -> off + zlen b <= zlen l ->
  splice_checked (E:=E) off b l = Ok (splice off b l).
Proof. intros. unfold splice_checked. rewrite decide_True; [done | lia]. Qed.

Lemma slice_all {A} (l : list A) : slice 0 (zlen l) l = l.
Proof. unfold slice. rewrite Nat2Z.id, drop_0. apply firstn_all. Qed.

Lemma slice_nil {A} off (l : list A) : slice off 0 l = [].
Proof. done. Qed.

(** A slice of [a + b] elements is the slice of [a] and the slice of [b] after it. *)
Lemma slice_split {A} off a b (l : list A) :
  0 <= off -> 0 <= a -> 0 <= b ->
  slice off (a + b) l = slice off a l ++ slice (off + a) b l.
Proof.
  intros. unfold slice.
  replace (Z.to_nat (a + b)) with (Z.to_nat a + Z.to_nat b)%nat by lia.
  rewrite <- take_take_drop, drop_drop. repeat f_equal. lia.
Qed.

Lemma slice_slice {A} off len off' len' (l : list A) :
  0 <= off -> 0 <= off' -> 0 <= len' -> off' + len' <= len ->
  slice off' len' (slice off len l) = slice (off + off') len' l.
Proof.
  intros. unfold slice.
  replace (Z.to_nat len) with (Z.to_nat off' + Z.to_nat (len - off'))%nat by lia.
  rewrite <- take_drop_commute, drop_drop, take_take.
  f_equal; [lia|]. f_equal. lia.
Qed.

Lemma slice_app_l {A} off len (l k : list A) :
  0 <= off -> 0 <= len -> off + len <= zlen l -> slice off len (l ++ k) = slice off len l.
Proof.
  intros. unfold slice. rewrite drop_app_le, take_app_le; [done | | lia].
  rewrite length_drop. lia.
Qed.

Lemma slice_app_r {A} off len (l k : list A) :
  0 <= off -> slice (zlen l + off) len (l ++ k) = slice off len k.
Proof.
  intros. unfold slice. f_equal.
  rewrite drop_app_ge by lia. f_equal. lia.
Qed.

(** Writing the next piece of a result after the pieces already in place. *)
Lemma splice_next {A} (done b rest : list A) off :
  off = zlen done -> (length b <= length rest)%nat ->
  splice off b (done ++ rest) = (done ++ b) ++ drop (length b) rest.
Proof.
  intros -> Hlen. unfold splice.
  rewrite Nat2Z.id, take_app_length, drop_app_ge by lia.
  rewrite <- app_assoc. repeat f_equal. lia.
Qed.

(** ** Products and C order *)

Fixpoint zprod (l : list Z) : Z :=
  match l with [] => 1 | d :: l' => d * zprod l' end.

Lemma zprod_app l k : zprod (l ++ k) = zprod l * zprod k.
Proof. induction l as [|x l IH]; cbn; [|rewrite IH]; lia. Qed.

Lemma zprod_pos l : Forall (fun d => 0 < d) l -> 0 < zprod l.
Proof. induction 1; cbn; [lia|]. apply Z.mul_pos_pos; done. Qed.

Lemma zprod_nonneg l : Forall (fun d => 0 <= d) l -> 0 <= zprod l.
Proof. induction 1; cbn; [lia|]. apply Z.mul_nonneg_nonneg; done. Qed.

(** [try_fold(init, checked_mul)]. *)
Fixpoint checked_product (init : Z) (l : list Z) : option Z :=
  match l with [] => Some init | n :: l' => acc ← checked_mul init n; checked_product acc l' end.

Lemma checked_product_spec a l p : 0 <= a -> Forall (fun d => 0 <= d) l ->
  checked_product a l = Some p -> p = a * zprod l /\ (a < two64 -> p < two64).
Proof.
  intros Ha Hl. revert a Ha. induction Hl as [|d l Hd _ IH]; intros a Ha; cbn [checked_product].
  - intros [= <-]. cbn. lia.
  - destruct (checked_mul a d) as [b|] eqn:Hm; [|done]. cbn [mbind option_bind].
    apply checked_mul_some in Hm as [-> Hlt]. intros [-> Hp]%IH; [|nia]. cbn. split; [lia|]. intros _. by apply Hp.
Qed.

(** The C-order number of [coords] in an array of [shape]. *)
Fixpoint ravel (shape coords : list Z) : Z :=
  match shape, coords with
  | _ :: shape', c :: coords' => c * zprod shape' + ravel shape' coords'
  | _, _ => 0
  end.

(** Every coordinate is a position on its axis. *)
Definition in_shape (shape coords : list Z) : Prop :=
  Forall2 (fun d c => 0 <= c < d) shape coords.

Lemma in_shape_pos shape coords : in_shape shape coords -> Forall (fun d => 0 < d) shape.
Proof. induction 1; constructor; [lia | done]. Qed.

Lemma in_shape_cons d shape coords :
  in_shape (d :: shape) coords ->
  exists c coords', coords = c :: coords' /\ 0 <= c < d /\ in_shape shape coords'.
Proof. intros Hin. inversion Hin; subst. by eexists _, _. Qed.

Lemma ravel_range shape coords :
  in_shape shape coords -> 0 <= ravel shape coords < zprod shape.
Proof.
  induction 1 as [|d c shape coords Hc Hin IH]; cbn; [lia|].
  pose proof (zprod_pos shape (in_shape_pos _ _ Hin)). nia.
Qed.

Lemma ravel_app s1 c1 s2 c2 :
  length s1 = length c1 -> ravel (s1 ++ s2) (c1 ++ c2) = ravel s1 c1 * zprod s2 + ravel s2 c2.
Proof.
  revert c1. induction s1 as [|d s1 IH]; intros [|c c1] Hl; cbn in *; try lia.
  rewrite IH by lia. rewrite zprod_app. lia.
Qed.

(** Distinct in-range coordinates have distinct numbers. *)
Lemma ravel_inj shape c1 c2 :
  in_shape shape c1 -> in_shape shape c2 -> ravel shape c1 = ravel shape c2 -> c1 = c2.
Proof.
  intros H1. revert c2. induction H1 as [|d c shape coords Hc Hin IH]; intros c2 H2 Heq.
  - inversion H2. done.
  - inversion H2 as [|? c' ? coords' Hc' Hin']; subst. cbn in Heq.
    pose proof (ravel_range _ _ Hin). pose proof (ravel_range _ _ Hin').
    assert (c = c') by nia. subst. f_equal. apply IH; [done | lia].
Qed.

(** The coordinates of element [n], found from the innermost axis outwards: the
    second component is what is left over past the outermost axis. *)
Fixpoint unravel (shape : list Z) (n : Z) : list Z * Z :=
  match shape with
  | [] => ([], n)
  | d :: shape' => let '(coords, rest) := unravel shape' n in (rest mod d :: coords, rest / d)
  end.

Lemma unravel_spec shape n :
  Forall (fun d => 0 < d) shape -> 0 <= n ->
  let '(coords, rest) := unravel shape n in
  in_shape shape coords /\ n = rest * zprod shape + ravel shape coords /\ 0 <= rest.
Proof.
  intros Hs Hn. induction Hs as [|d shape Hd Hs IH]; cbn.
  - split; [constructor | lia].
  - destruct (unravel shape n) as [coords rest]. destruct IH as (Hin & Heq & Hr).
    div_mod rest d.
    split; [constructor; [lia | done]|]. split; [nia|].
    apply Z.div_pos; lia.
Qed.

Lemma unravel_in shape n :
  0 <= n < zprod shape -> Forall (fun d => 0 < d) shape ->
  in_shape shape (unravel shape n).1 /\ ravel shape (unravel shape n).1 = n.
Proof.
  intros Hn Hs. pose proof (unravel_spec shape n Hs ltac:(lia)) as Hu.
  destruct (unravel shape n) as [coords rest]; cbn.
  destruct Hu as (Hin & Heq & Hr). split; [done|].
  pose proof (ravel_range _ _ Hin). assert (rest = 0) as -> by nia. lia.
Qed.

Lemma length_unravel shape n : length (unravel shape n).1 = length shape.
Proof.
  induction shape as [|d shape IH]; [done|]. cbn.
  destruct (unravel shape n). cbn in *. lia.
Qed.

(** ** Sums *)

Definition total {A} (g : A -> Z) (l : list A) : Z := foldr (fun x s => g x + s) 0 l.

Lemma total_cons {A} (g : A -> Z) x l : total g (x :: l) = g x + total g l.
Proof. done. Qed.

Lemma total_app {A} (g : A -> Z) l k : total g (l ++ k) = total g l + total g k.
Proof. induction l as [|x l IH]; [done|]. cbn [app]. rewrite !total_cons, IH. lia. Qed.

Lemma total_insert {A} (g : A -> Z) l i x y : l !! i = Some x -> total g (<[i := y]> l) = total g l - g x + g y.
Proof.
  revert i. induction l as [|z l IH]; intros [|i] Hi; try done.
  - injection Hi as ->. change (<[0%nat := y]> (x :: l)) with (y :: l). rewrite !total_cons. lia.
  - change (<[S i := y]> (z :: l)) with (z :: <[i := y]> l). rewrite !total_cons, (IH i Hi). lia.
Qed.

Lemma total_nonneg {A} (g : A -> Z) l : Forall (fun x => 0 <= g x) l -> 0 <= total g l.
Proof. induction 1 as [|x l Hx _ IH]; [done|]. rewrite total_cons. lia. Qed.

Lemma total_mono {A} (g h : A -> Z) l : (forall x, g x <= h x) -> total g l <= total h l.
Proof. intros Hgh. induction l as [|x l IH]; [done|]. rewrite !total_cons. specialize (Hgh x). lia. Qed.

Lemma total_shift {A} (g : A -> Z) c l : total (fun x => g x + c) l = total g l + c * zlen l.
Proof. induction l as [|x l IH]; [cbn; lia|]. rewrite !total_cons, IH. cbn [length]. lia. Qed.

(** ** Runs of integers *)

Lemma seqZ_split a m n : 0 <= m -> 0 <= n -> seqZ a (m + n) = seqZ a m ++ seqZ (a + m) n.
Proof. intros. apply seqZ_app; lia. Qed.

Lemma fmap_seqZ_shift {A} (f : Z -> A) a n c :
  f <$> seqZ (a + c) n = (fun k => f (k + c)) <$> seqZ a n.
Proof.
  unfold seqZ. rewrite <- !list_fmap_compose. apply list_fmap_ext. intros i x _. cbn.
  f_equal. lia.
Qed.

Lemma zlen_seqZ a n : 0 <= n -> zlen (seqZ a n) = n.
Proof. intros. rewrite length_seqZ. lia. Qed.

(** ** The list monad *)

Lemma fmap_bind_list {A B C} (f : A -> B) (g : B -> list C) l : (f <$> l) ≫= g = l ≫= (fun x => g (f x)).
Proof. induction l as [|x l IH]; [done|]. rewrite fmap_cons, !bind_cons. by rewrite IH. Qed.

Lemma bind_ext_in {A B} (f g : A -> list B) l :
  (forall x, x ∈ l -> f x = g x) -> l ≫= f = l ≫= g.
Proof.
  induction l as [|x l IH]; intros Hfg; [done|]. rewrite !bind_cons, Hfg by left.
  f_equal. apply IH. intros y Hy. apply Hfg. by right.
Qed.

Lemma fmap_of_bind {A B C} (h : B -> C) (f : A -> list B) l : h <$> (l ≫= f) = l ≫= (fun x => h <$> f x).
Proof. induction l as [|x l IH]; [done|]. by rewrite !bind_cons, fmap_app, IH. Qed.

Lemma bind_bind_list {A B C} (f : A -> list B) (g : B -> list C) l :
  (l ≫= f) ≫= g = l ≫= (fun x => f x ≫= g).
Proof. induction l as [|x l IH]; [done|]. by rewrite !bind_cons, bind_app, IH. Qed.

(** Pieces of one size, joined and taken apart. *)
Lemma concat_sizes {A} size (parts : list (list A)) :
  Forall (fun b => zlen b = size) parts -> zlen (concat parts) = zlen parts * size.
Proof. induction 1 as [|b parts Hb _ IH]; [done|]. cbn. rewrite length_app. lia. Qed.

Lemma nth_part {A} size (parts : list (list A)) (c : nat) b :
  Forall (fun b => zlen b = size) parts -> parts !! c = Some b ->
  slice (Z.of_nat c * size) size (concat parts) = b.
Proof.
  intros Hp. revert c. induction Hp as [|p parts Hs _ IH]; intros [|c] Hc; cbn in Hc; try done; cbn [concat].
  - injection Hc as ->. rewrite <- Hs at 2. change (Z.of_nat 0 * size) with 0. rewrite slice_app_l by lia. apply slice_all.
  - rewrite <- (IH c Hc). replace (Z.of_nat (S c) * size) with (zlen p + Z.of_nat c * size) by lia.
    apply slice_app_r. pose proof (Nat2Z.is_nonneg (length p)). nia.
Qed.

(** ** Folds that can fail *)

Fixpoint mfold {E A B} (f : B -> A -> result E B) (b : B) (l : list A) : result E B :=
  match l with
  | [] => Ok b
  | x :: l' => b ← f b x; mfold f b l'
  end.

Lemma mfold_app {E A B} (f : B -> A -> result E B) b l k :
  mfold f b (l ++ k) = (b ← mfold f b l; mfold f b k).
Proof. revert b. induction l as [|x l IH]; intros b; [done|]. cbn. destruct (f b x); cbn; auto. Qed.

(** Folding over the numbers up to [n] keeps what each step keeps. *)
Lemma mfold_seqZ {E B} (f : B -> Z -> result E B) (I : Z -> B -> Prop) b n :
  0 <= n -> I 0 b -> (forall k b, 0 <= k < n -> I k b -> exists b', f b k = Ok b' /\ I (k + 1) b') ->
  exists b', mfold f b (seqZ 0 n) = Ok b' /\ I n b'.
Proof.
  intros Hn H0 Hstep. revert n Hn Hstep. apply (natlike_ind (fun n => (forall k b, 0 <= k < n -> I k b ->
    exists b', f b k = Ok b' /\ I (k + 1) b') -> exists b', mfold f b (seqZ 0 n) = Ok b' /\ I n b')).
  - intros _. by exists b.
  - intros n Hn IH Hstep. destruct IH as (b1 & Hb1 & HI); [intros; apply Hstep; [lia|done]|].
    replace (Z.succ n) with (n + 1) by lia. rewrite seqZ_split, mfold_app, Hb1 by lia. cbn [mbind result_bind].
    destruct (Hstep n b1 ltac:(lia) HI) as (b2 & Hb2 & HI2). exists b2. split; [|done].
    rewrite seqZ_cons by lia. cbn [mfold]. rewrite Z.add_0_l, Hb2. done.
Qed.

Lemma mfold_seq {E B} (f : B -> nat -> result E B) (I : nat -> B -> Prop) b n :
  I 0%nat b -> (forall k b, (k < n)%nat -> I k b -> exists b', f b k = Ok b' /\ I (S k) b') ->
  exists b', mfold f b (seq 0 n) = Ok b' /\ I n b'.
Proof.
  intros H0. induction n as [|n IH]; intros Hstep; [by exists b|].
  destruct IH as (b1 & Hb1 & HI); [intros; apply Hstep; [lia|done]|]. rewrite seq_S, mfold_app, Hb1. cbn [mbind result_bind].
  destruct (Hstep n b1 ltac:(lia) HI) as (b2 & Hb2 & HI2). exists b2. split; [|done]. cbn [mfold Nat.add]. by rewrite Hb2.
Qed.

Lemma slice_fmap {A B} (f : A -> B) off len l : slice off len (f <$> l) = f <$> slice off len l.
Proof. unfold slice. by rewrite <- fmap_drop, <- fmap_take. Qed.

Lemma slice_seqZ off len a n :
  0 <= off -> 0 <= len -> off + len <= n -> slice off len (seqZ a n) = seqZ (a + off) len.
Proof.
  intros. apply list_eq. intros i. destruct (decide (Z.of_nat i < len)).
  - rewrite lookup_slice by lia. rewrite !lookup_seqZ_lt by lia. f_equal. lia.
  - rewrite (lookup_ge_None_2 (seqZ _ len)) by (rewrite length_seqZ; lia).
    apply lookup_ge_None_2. unfold slice. rewrite length_take. lia.
Qed.

(** ** Buffers filled a piece at a time *)

(** The first [w] places of [dst] hold what [target] has there. *)
Definition filled {A} (w : Z) (target dst : list A) : Prop :=
  length dst = length target /\ slice 0 w dst = slice 0 w target.

Lemma filled_start {A} (target dst : list A) : length dst = length target -> filled 0 target dst.
Proof. done. Qed.

Lemma filled_end {A} w (target dst : list A) : filled w target dst -> zlen target <= w -> dst = target.
Proof.
  intros [Hl Hs] Hw. unfold slice in Hs. rewrite !drop_0, !take_ge in Hs by lia. done.
Qed.

Lemma filled_splice {A} w (b target dst : list A) :
  filled w target dst -> 0 <= w -> w + zlen b <= zlen target -> b = slice w (zlen b) target ->
  filled (w + zlen b) target (splice w b dst).
Proof.
  intros [Hl Hs] Hw Hle Hb. split; [rewrite length_splice by lia; done|].
  rewrite (slice_split 0 w (zlen b) target) by lia. rewrite Z.add_0_l, <- Hb, <- Hs.
  unfold slice, splice. rewrite !drop_0, app_assoc, take_app_le.
  - rewrite take_ge; [done|]. rewrite length_app, length_take. lia.
  - rewrite length_app, length_take. lia.
Qed.

(** A write leaves the ranges apart from it alone, and is what is read back. *)
Lemma slice_splice_apart {A} a (b l : list A) off n :
  0 <= a -> 0 <= off -> 0 <= n -> a + zlen b <= zlen l ->
  off + n <= a \/ a + zlen b <= off -> slice off n (splice a b l) = slice off n l.
Proof.
  intros Ha Ho Hn Hle Hap. apply list_eq. intros i. destruct (decide (Z.of_nat i < n)).
  - rewrite !lookup_slice by lia. unfold splice.
    destruct Hap as [Hb|Hb].
    + rewrite lookup_app_l by (rewrite length_take; lia). rewrite lookup_take_lt by lia. done.
    + rewrite lookup_app_r by (rewrite length_take; lia). rewrite length_take.
      rewrite lookup_app_r by lia. rewrite lookup_drop. f_equal. lia.
  - rewrite !lookup_ge_None_2; [done|unfold slice; rewrite length_take; lia..].
Qed.

Lemma slice_splice_same {A} a (b l : list A) :
  0 <= a -> a + zlen b <= zlen l -> slice a (zlen b) (splice a b l) = b.
Proof.
  intros Ha Hle. unfold slice, splice.
  rewrite drop_app_ge by (rewrite length_take; lia). rewrite length_take.
  replace (Z.to_nat a - Z.to_nat a `min` length l)%nat with 0%nat by lia. rewrite drop_0, take_app_le by lia.
  apply take_ge. lia.
Qed.

(** A write inside the middle of a list, and inside a slice of it. *)
Lemma splice_app {A} (a m z b : list A) start :
  0 <= start -> start + zlen b <= zlen m ->
  splice (zlen a + start) b (a ++ m ++ z) = a ++ splice start b m ++ z.
Proof.
  intros. unfold splice. replace (Z.to_nat (zlen a + start)) with (length a + Z.to_nat start)%nat by lia.
  rewrite take_app_add, <- Nat.add_assoc, drop_app_add, take_app_le, drop_app_le by lia. by rewrite <- !app_assoc.
Qed.

Lemma splice_slice {A} (o n start : Z) (b l : list A) :
  0 <= o -> 0 <= start -> start + zlen b <= n -> o + n <= zlen l ->
  splice o (splice start b (slice o n l)) l = splice (o + start) b l.
Proof.
  intros. set (a := take (Z.to_nat o) l). set (m := slice o n l). set (z := drop (Z.to_nat n) (drop (Z.to_nat o) l)).
  assert (l = a ++ m ++ z) as Hl by (unfold a, m, z, slice; by rewrite !take_drop).
  assert (zlen a = o) as Ho by (unfold a; rewrite length_take; lia).
  assert (zlen m = n) as Hn by (apply length_slice; lia).
  assert (length (splice start b m) = length m) as Hlen by (apply length_splice; lia).
  rewrite Hl, <- Ho, splice_app by lia. replace (zlen a) with (zlen a + 0) at 1 by lia. rewrite splice_app by lia.
  f_equal. f_equal. unfold splice at 1. rewrite take_0. cbn [app]. rewrite drop_ge by lia. apply app_nil_r.
Qed.
