(* ===== verification/Errors.v ===== *)
(** Errors and how they are classified: [aex-core/src/error.rs],
    [aex-wire/src/error.rs], [aex-server/src/error.rs] and
    [aex-client/src/error.rs].  Diagnostic text is left out of every
    constructor: recovery is decided by the class alone, and the sources say
    the message is never parsed. *)
From S2P Require Import Prelude.

Inductive ErrorClass : Type :=
  | ClassOk | ClassProtocol | ClassAuth | ClassPlan | ClassRequest | ClassTransient
  | ClassPermanent.

#[export] Instance ErrorClass_eq_dec : EqDecision ErrorClass.
Proof. solve_decision. Defined.

Module ErrorClass.
Definition as_u8 (c : ErrorClass) : Z :=
  match c with
  | ClassOk => 0 | ClassProtocol => 1 | ClassAuth => 2 | ClassPlan => 3
  | ClassRequest => 4 | ClassTransient => 5 | ClassPermanent => 6
  end.

Definition from_u8 (v : Z) : ErrorClass :=
  match v with
  | 0 => ClassOk | 1 => ClassProtocol | 2 => ClassAuth | 3 => ClassPlan
  | 4 => ClassRequest | 5 => ClassTransient | _ => ClassPermanent
  end.
End ErrorClass.

(** The [std::io::ErrorKind]s the sources tell apart; [OtherKind] is any other. *)
Inductive ErrorKind : Type :=
  | KNotFound | KPermissionDenied | KInvalidData | KUnexpectedEof
  | KInterrupted | KWouldBlock | KTimedOut | KWriteZero | OtherKind.

#[export] Instance ErrorKind_eq_dec : EqDecision ErrorKind.
Proof. solve_decision. Defined.

Inductive AexError : Type :=
  | UnsupportedDType | UnsupportedNpy | MalformedNpy | UnsupportedHdf5 | MalformedHdf5
  | UnsupportedZarr | MalformedZarr | BadSelection | UnsupportedSelection | BadFunction
  | NotFound | NotAGroup
  | OutOfRange (offset len total : Z)
  | BadBlock
  | Io (kind : ErrorKind).

#[export] Instance AexError_eq_dec : EqDecision AexError.
Proof. solve_decision. Defined.

Module AexError.
Definition class (e : AexError) : ErrorClass :=
  match e with
  | UnsupportedDType | UnsupportedNpy | UnsupportedHdf5 | UnsupportedZarr | BadSelection
  | UnsupportedSelection | BadFunction | NotFound | NotAGroup | OutOfRange _ _ _ => ClassRequest
  | MalformedNpy | MalformedHdf5 | MalformedZarr => ClassPermanent
  | BadBlock => ClassProtocol
  | Io kind =>
      match kind with
      | KNotFound | KPermissionDenied => ClassRequest
      | KInvalidData | KUnexpectedEof => ClassPermanent
      | _ => ClassTransient
      end
  end.
End AexError.

Inductive WireError : Type :=
  | WProtocol
  | WOutOfRange (offset len capacity : Z)
  | WOverlap (offset len : Z)
  | WIo (kind : ErrorKind).

#[export] Instance WireError_eq_dec : EqDecision WireError.
Proof. solve_decision. Defined.

Module WireError.
Definition class (e : WireError) : ErrorClass :=
  match e with
  | WProtocol => ClassProtocol
  | WOutOfRange _ _ _ | WOverlap _ _ => ClassRequest
  | WIo _ => ClassTransient
  end.
End WireError.

Inductive ServerError : Type :=
  | SConfig | SProtocol | SAuth | SBadRequest | SNoSuchPlan | SPathNotAllowed | SExhausted
  | SRandom
  | SCore (e : AexError)
  | SIo (kind : ErrorKind)
  | STransport.

#[export] Instance ServerError_eq_dec : EqDecision ServerError.
Proof. solve_decision. Defined.

(** The gRPC status codes the two sides name; [OtherCode] is any other. *)
Inductive Code : Type :=
  | CodeOk | CodeInternal | CodeUnauthenticated | CodeFailedPrecondition | CodeInvalidArgument
  | CodeNotFound | CodePermissionDenied | CodeUnavailable | CodeDataLoss | OtherCode.

#[export] Instance Code_eq_dec : EqDecision Code.
Proof. solve_decision. Defined.

Module ServerError.
Definition class (e : ServerError) : ErrorClass :=
  match e with
  | SProtocol => ClassProtocol
  | SAuth => ClassAuth
  | SNoSuchPlan => ClassPlan
  | SBadRequest | SPathNotAllowed => ClassRequest
  | SExhausted => ClassTransient
  | SCore e => AexError.class e
  | SIo kind => AexError.class (Io kind)
  | SConfig | SRandom | STransport => ClassPermanent
  end.

(** [From<ServerError> for Status]: the code a refused call answers with. *)
Definition to_status (err : ServerError) : Code :=
  match err with
  | SPathNotAllowed => CodePermissionDenied
  | SCore NotFound => CodeNotFound
  | SCore (Io KNotFound) => CodeNotFound
  | SCore (Io KPermissionDenied) => CodePermissionDenied
  | other =>
      match class other with
      | ClassOk | ClassProtocol => CodeInternal
      | ClassAuth => CodeUnauthenticated
      | ClassPlan => CodeFailedPrecondition
      | ClassRequest => CodeInvalidArgument
      | ClassTransient => CodeUnavailable
      | ClassPermanent => CodeDataLoss
      end
  end.
End ServerError.

Inductive ClientError : Type :=
  | CServer (class : ErrorClass) (code : Code)
  | CData (class : ErrorClass)
  | CTransport
  | CProtocol
  | CBadRequest
  | CIo (kind : ErrorKind).

#[export] Instance ClientError_eq_dec : EqDecision ClientError.
Proof. solve_decision. Defined.

Module ClientError.
Definition class (e : ClientError) : option ErrorClass :=
  match e with
  | CServer class _ | CData class => Some class
  | _ => None
  end.

Definition needs_reprepare (e : ClientError) : bool := bool_decide (class e = Some ClassPlan).
Definition is_retryable (e : ClientError) : bool := bool_decide (class e = Some ClassTransient).

Definition from_wire (err : WireError) : ClientError :=
  match err with
  | WIo e => CIo e
  | other => CData (WireError.class other)
  end.

Definition class_of (code : Code) : ErrorClass :=
  match code with
  | CodeOk => ClassOk
  | CodeInternal => ClassProtocol
  | CodeUnauthenticated => ClassAuth
  | CodeFailedPrecondition => ClassPlan
  | CodeInvalidArgument | CodeNotFound | CodePermissionDenied => ClassRequest
  | CodeUnavailable => ClassTransient
  | _ => ClassPermanent
  end.

Definition from_status (code : Code) : ClientError := CServer (class_of code) code.
End ClientError.

Lemma from_u8_as_u8 c : ErrorClass.from_u8 (ErrorClass.as_u8 c) = c.
Proof. by destruct c. Qed.

Lemma as_u8_range c : is_u8 (ErrorClass.as_u8 c).
Proof. destruct c; cbv; split; congruence. Qed.

Lemma from_u8_unknown v : 6 <= v -> ErrorClass.from_u8 v = ClassPermanent.
Proof.
  intros Hv. unfold ErrorClass.from_u8. destruct v as [|p|p]; try lia.
  do 3 (destruct p as [p|p|]; try (exfalso; lia)); done.
Qed.

(** The class a server gives an error survives the gRPC code: whatever a control
    plane call fails with, the client recovers the very class the server
    assigned, so its retry and re-prepare decisions are the server's. *)
Theorem class_survives_status (e : ServerError) :
  ClientError.class (ClientError.from_status (ServerError.to_status e))
  = Some (ServerError.class e).
Proof.
  destruct e as [| | | | | | | |e|k|]; try done; [destruct e as [| | | | | | | | | | | |? ? ?| |k]|];
    try done; by destruct k.
Qed.
