(* ===== verification/Dtype.v ===== *)
(** Element types: [aex-core/src/dtype.rs]. *)
From stdpp Require Import strings.
From S2P Require Import Prelude Errors.

Inductive DType : Type :=
  | Int8 | Int16 | Int32 | Int64 | Uint8 | Uint16 | Uint32 | Uint64
  | Float16 | Float32 | Float64 | Complex64 | Complex128 | Bool.

#[export] Instance DType_eq_dec : EqDecision DType.
Proof. solve_decision. Defined.

Module DType.
Definition ALL_DTYPES : list DType :=
  [Int8; Int16; Int32; Int64; Uint8; Uint16; Uint32; Uint64;
   Float16; Float32; Float64; Complex64; Complex128; Bool].

Definition itemsize (d : DType) : Z :=
  match d with
  | Int8 | Uint8 | Bool => 1
  | Int16 | Uint16 | Float16 => 2
  | Int32 | Uint32 | Float32 => 4
  | Int64 | Uint64 | Float64 | Complex64 => 8
  | Complex128 => 16
  end.

Definition descr (d : DType) : string :=
  match d with
  | Bool => "|b1"
  | Int8 => "|i1"
  | Int16 => "<i2"
  | Int32 => "<i4"
  | Int64 => "<i8"
  | Uint8 => "|u1"
  | Uint16 => "<u2"
  | Uint32 => "<u4"
  | Uint64 => "<u8"
  | Float16 => "<f2"
  | Float32 => "<f4"
  | Float64 => "<f8"
  | Complex64 => "<c8"
  | Complex128 => "<c16"
  end.

Definition as_i32 (d : DType) : Z :=
  match d with
  | Int8 => 0 | Int16 => 1 | Int32 => 2 | Int64 => 3
  | Uint8 => 4 | Uint16 => 5 | Uint32 => 6 | Uint64 => 7
  | Float16 => 8 | Float32 => 9 | Float64 => 10
  | Complex64 => 11 | Complex128 => 12 | Bool => 13
  end.

Definition from_i32 (v : Z) : result AexError DType :=
  ok_or UnsupportedDType (snd <$> list_find (fun d => as_i32 d = v) ALL_DTYPES).

Definition from_name (name : string) : option DType :=
  if decide (name = "bool") then Some Bool
  else if decide (name = "int8") then Some Int8
  else if decide (name = "int16") then Some Int16
  else if decide (name = "int32") then Some Int32
  else if decide (name = "int64") then Some Int64
  else if decide (name = "uint8") then Some Uint8
  else if decide (name = "uint16") then Some Uint16
  else if decide (name = "uint32") then Some Uint32
  else if decide (name = "uint64") then Some Uint64
  else if decide (name = "float16") then Some Float16
  else if decide (name = "float32") then Some Float32
  else if decide (name = "float64") then Some Float64
  else if decide (name = "complex64") then Some Complex64
  else if decide (name = "complex128") then Some Complex128
  else None.

(** The [npyz] crate's parsed type string, seen through the accessors the
    source calls: its parser, item size, byte order and type character. *)
Class TypeStrLib := {
  TypeStr : Type;
  TypeChar : Type;
  TypeChar_eq_dec :: EqDecision TypeChar;
  parse : string -> option TypeStr;
  num_bytes : TypeStr -> option Z;
  is_big_endian : TypeStr -> bool;
  type_char : TypeStr -> TypeChar;
  TCBool : TypeChar;
  TCInt : TypeChar;
  TCUint : TypeChar;
  TCFloat : TypeChar;
  TCComplex : TypeChar;
}.

Section type_str.
Context `{TypeStrLib}.

Definition from_type_str (ts : TypeStr) : result AexError DType :=
  size ← ok_or UnsupportedDType (num_bytes ts);
  if (1 <? size) && is_big_endian ts then Err UnsupportedDType
  else
    let tc c n := bool_decide (type_char ts = c) && (size =? n) in
    if tc TCBool 1 then Ok Bool
    else if tc TCInt 1 then Ok Int8
    else if tc TCInt 2 then Ok Int16
    else if tc TCInt 4 then Ok Int32
    else if tc TCInt 8 then Ok Int64
    else if tc TCUint 1 then Ok Uint8
    else if tc TCUint 2 then Ok Uint16
    else if tc TCUint 4 then Ok Uint32
    else if tc TCUint 8 then Ok Uint64
    else if tc TCFloat 2 then Ok Float16
    else if tc TCFloat 4 then Ok Float32
    else if tc TCFloat 8 then Ok Float64
    else if tc TCComplex 8 then Ok Complex64
    else if tc TCComplex 16 then Ok Complex128
    else Err UnsupportedDType.

Definition from_descr (s : string) : result AexError DType :=
  ts ← ok_or UnsupportedDType (parse s); from_type_str ts.
End type_str.
End DType.

Lemma itemsize_pos d : 0 < DType.itemsize d <= 16.
Proof. destruct d; cbn; lia. Qed.
#[export] Hint Resolve itemsize_pos : core.

Lemma from_i32_as_i32 d : DType.from_i32 (DType.as_i32 d) = Ok d.
Proof. by destruct d. Qed.

(** [from_i32] inverts [as_i32] and refuses every value no element type has. *)
Theorem dtype_from_i32_spec v d :
  DType.from_i32 v = Ok d <-> DType.as_i32 d = v.
Proof.
  split; [|intros <-; apply from_i32_as_i32].
  unfold DType.from_i32. destruct (list_find _ _) as [[i d']|] eqn:Hf; cbn; [|done].
  intros [= ->]. by apply list_find_Some in Hf as (_ & ? & _).
Qed.

(** An accepted type string names an element type of the same size, and no
    multi-byte one in big-endian order is accepted. *)
Theorem from_type_str_sound `{DType.TypeStrLib} ts d :
  DType.from_type_str ts = Ok d ->
  DType.num_bytes ts = Some (DType.itemsize d) /\
  (DType.itemsize d = 1 \/ DType.is_big_endian ts = false).
Proof.
  unfold DType.from_type_str. intros Hd. apply bind_ok in Hd as (size & Hsz & Hd).
  apply ok_or_ok in Hsz. destruct ((1 <? size) && _) eqn:Hbe; [done|].
  rewrite Hsz.
  enough (size = DType.itemsize d) as ->.
  { split; [done|]. destruct (1 <? DType.itemsize d) eqn:Hgt.
    - right. by destruct (DType.is_big_endian ts).
    - left. pose proof (itemsize_pos d). lia. }
  repeat match type of Hd with
  | (if bool_decide ?P && (size =? ?n) then _ else _) = _ =>
      destruct (bool_decide P && (size =? n)) eqn:Hcase;
      [apply andb_true_iff in Hcase as [_ Hcase%Z.eqb_eq]; by injection Hd as <- | clear Hcase]
  end.
  done.
Qed.
