(* ===== verification/Bytes.v ===== *)
(** Bytes on the wire: little-endian integers, the bit pattern of an [f64] and
    UTF-8, which the frames, blocks and handshakes are built from.  A byte is a
    [Z] in [0, 256). *)
From S2P Require Import Prelude.

Abbreviation bytes := (list Z).
Definition is_bytes (b : bytes) : Prop := Forall is_u8 b.

(** [to_le_bytes] of an [n]-byte unsigned integer. *)
Fixpoint to_le_bytes (n : nat) (z : Z) : bytes :=
  match n with
  | O => []
  | S n' => z mod 256 :: to_le_bytes n' (z / 256)
  end.

(** [from_le_bytes]. *)
Fixpoint from_le_bytes (b : bytes) : Z :=
  match b with
  | [] => 0
  | x :: b' => x + 256 * from_le_bytes b'
  end.

Lemma length_to_le_bytes n z : length (to_le_bytes n z) = n.
Proof. revert z. induction n as [|n IH]; intros z; cbn; [done | by rewrite IH]. Qed.

Lemma to_le_bytes_bytes n z : is_bytes (to_le_bytes n z).
Proof.
  revert z. induction n as [|n IH]; intros z; cbn; constructor; [|apply IH].
  apply Z.mod_pos_bound. lia.
Qed.

Lemma pow256_succ n : 256 ^ Z.of_nat (S n) = 256 * 256 ^ Z.of_nat n.
Proof. rewrite Nat2Z.inj_succ, Z.pow_succ_r; lia. Qed.

Lemma from_to_le_bytes n z : 0 <= z < 256 ^ Z.of_nat n -> from_le_bytes (to_le_bytes n z) = z.
Proof.
  revert z. induction n as [|n IH]; intros z Hz; cbn [to_le_bytes from_le_bytes].
  - change (256 ^ Z.of_nat 0) with 1 in Hz. lia.
  - rewrite pow256_succ in Hz. div_mod z 256. rewrite IH; [lia|].
    split; [apply Z.div_pos; lia | apply Z.div_lt_upper_bound; lia].
Qed.

Lemma to_from_le_bytes b : is_bytes b -> to_le_bytes (length b) (from_le_bytes b) = b.
Proof.
  unfold is_bytes, is_u8. induction 1 as [|x b Hx Hb IH]; cbn; [done|].
  rewrite Z.mul_comm, Z.mod_add, Z.div_add, Z.mod_small, Z.div_small by lia.
  by rewrite Z.add_0_l, IH.
Qed.

Lemma from_le_bytes_range b : is_bytes b -> 0 <= from_le_bytes b < 256 ^ zlen b.
Proof.
  unfold is_bytes, is_u8. induction 1 as [|x b Hx Hb IH]; cbn [length from_le_bytes].
  - change (256 ^ Z.of_nat 0) with 1. lia.
  - rewrite pow256_succ. lia.
Qed.

Lemma from_to_le_u64 z : is_u64 z -> from_le_bytes (to_le_bytes 8 z) = z.
Proof. intros. apply from_to_le_bytes. done. Qed.
Lemma from_to_le_u32 z : is_u32 z -> from_le_bytes (to_le_bytes 4 z) = z.
Proof. intros. apply from_to_le_bytes. done. Qed.

#[export] Hint Resolve to_le_bytes_bytes from_to_le_u64 from_to_le_u32 : core.

Lemma is_bytes_app a b : is_bytes (a ++ b) <-> is_bytes a /\ is_bytes b.
Proof. apply Forall_app. Qed.

Lemma is_bytes_slice off len b : is_bytes b -> is_bytes (slice off len b).
Proof. intros. by apply Forall_take, Forall_drop. Qed.

(** ** [f64] as its 64-bit pattern *)

Module F64.
Definition exponent (bits : Z) : Z := Z.land (Z.shiftr bits 52) 0x7ff.
Definition mantissa (bits : Z) : Z := Z.land bits (2 ^ 52 - 1).
Definition sign (bits : Z) : bool := Z.testbit bits 63.
Definition is_finite (bits : Z) : bool := negb (exponent bits =? 0x7ff).
Definition is_nan (bits : Z) : bool := (exponent bits =? 0x7ff) && negb (mantissa bits =? 0).
Definition is_zero (bits : Z) : bool := (exponent bits =? 0) && (mantissa bits =? 0).
(** [x > 0.0] and [x < 0.0]: false of both zeros and of a NaN. *)
Definition gt_zero (bits : Z) : bool := negb (sign bits) && negb (is_zero bits) && negb (is_nan bits).
Definition lt_zero (bits : Z) : bool := sign bits && negb (is_zero bits) && negb (is_nan bits).
Definition zero : Z := 0.
End F64.

Lemma gt_zero_not_lt bits : F64.gt_zero bits = true -> F64.lt_zero bits = false.
Proof. unfold F64.gt_zero, F64.lt_zero. by destruct (F64.sign bits). Qed.

(** ** UTF-8 *)

Module Utf8.
Definition is_cont (b : Z) : bool := (0x80 <=? b) && (b <=? 0xBF).

(** How many bytes after the lead byte [b] a sequence has, and the range of the
    first of them: the table of well-formed sequences. *)
Definition lead (b : Z) : option (nat * Z * Z) :=
  if (0 <=? b) && (b <=? 0x7F) then Some (0%nat, 0, 0)
  else if (0xC2 <=? b) && (b <=? 0xDF) then Some (1%nat, 0x80, 0xBF)
  else if b =? 0xE0 then Some (2%nat, 0xA0, 0xBF)
  else if ((0xE1 <=? b) && (b <=? 0xEC)) || ((0xEE <=? b) && (b <=? 0xEF))
       then Some (2%nat, 0x80, 0xBF)
  else if b =? 0xED then Some (2%nat, 0x80, 0x9F)
  else if b =? 0xF0 then Some (3%nat, 0x90, 0xBF)
  else if (0xF1 <=? b) && (b <=? 0xF3) then Some (3%nat, 0x80, 0xBF)
  else if b =? 0xF4 then Some (3%nat, 0x80, 0x8F)
  else None.

(** How many of the next [n] bytes continue the sequence, the first of them
    being in [lo, hi]. *)
Fixpoint run (n : nat) (lo hi : Z) (b : bytes) : nat :=
  match n, b with
  | S n', x :: b' => if (lo <=? x) && (x <=? hi) then S (run n' 0x80 0xBF b') else O
  | _, _ => O
  end.

(** The next character: how many bytes it takes and whether they are well
    formed.  An ill-formed one takes its longest valid prefix, as
    [String::from_utf8_lossy] replaces it. *)
Definition next (b : bytes) : option (nat * bool) :=
  match b with
  | [] => None
  | x :: b' =>
      match lead x with
      | None => Some (1%nat, false)
      | Some (n, lo, hi) => let k := run n lo hi b' in Some (S k, Nat.eqb k n)
      end
  end.

Definition REPLACEMENT : bytes := [0xEF; 0xBF; 0xBD].

Fixpoint lossy_fuel (fuel : nat) (b : bytes) : bytes :=
  match fuel, next b with
  | S fuel', Some (n, ok) =>
      (if ok then take n b else REPLACEMENT) ++ lossy_fuel fuel' (drop n b)
  | _, _ => []
  end.

(** [String::from_utf8_lossy]: a character takes a byte at least, so the length
    is fuel enough. *)
Definition from_utf8_lossy (b : bytes) : bytes := lossy_fuel (length b) b.

Fixpoint valid_fuel (fuel : nat) (b : bytes) : bool :=
  match fuel, next b with
  | S fuel', Some (n, ok) => ok && valid_fuel fuel' (drop n b)
  | _, _ => true
  end.

(** What a Rust [String] always is. *)
Definition valid (b : bytes) : bool := valid_fuel (length b) b.

Lemma lossy_valid_fuel fuel b :
  (length b <= fuel)%nat -> valid_fuel fuel b = true -> lossy_fuel fuel b = b.
Proof.
  revert b. induction fuel as [|fuel IH]; intros b Hl Hv.
  - destruct b; [done | cbn in Hl; lia].
  - cbn in *. destruct (next b) as [[n ok]|] eqn:Hn.
    + apply andb_true_iff in Hv as [-> Hv]. rewrite IH; [apply take_drop | | done].
      destruct b as [|x b]; [done|]. rewrite length_drop. cbn in *.
      destruct (lead x) as [[[m lo] hi]|]; injection Hn; intros; subst; lia.
    + by destruct b as [|x b]; [|cbn in Hn; destruct (lead x) as [[[]]|]].
Qed.

Lemma from_utf8_lossy_valid b : valid b = true -> from_utf8_lossy b = b.
Proof. by apply lossy_valid_fuel. Qed.
End Utf8.
