(* ===== verification/Quality.v ===== *)
(** Adaptive quality and the codec: [aex-core/src/quality.rs]. *)
From S2P Require Import Prelude Errors Dtype Bytes.

(** The cargo features a build was made with. *)
Class Build := { feature_sz : bool; feature_zfp : bool }.

Inductive Encoding : Type := Exact | DtypeCast | ErrorBound.
Inductive Codec : Type := Raw | Sz | Zfp | Gzip.

#[export] Instance Encoding_eq_dec : EqDecision Encoding.
Proof. solve_decision. Defined.
#[export] Instance Codec_eq_dec : EqDecision Codec.
Proof. solve_decision. Defined.

Module Encoding.
Definition as_u8 (e : Encoding) : Z :=
  match e with Exact => 0 | DtypeCast => 1 | ErrorBound => 2 end.
Definition as_i32 (e : Encoding) : Z := as_u8 e.

Definition from_u8 (v : Z) : option Encoding :=
  match v with
  | 0 => Some Exact | 1 => Some DtypeCast | 2 => Some ErrorBound | _ => None
  end.

Definition from_i32 (v : Z) : option Encoding :=
  if (v <? 0) || (255 <? v) then None else from_u8 v.

Definition is_supported `{Build} (e : Encoding) : bool :=
  match e with
  | Exact => true
  | ErrorBound => feature_sz || feature_zfp
  | DtypeCast => true
  end.

Definition ALL_ENCODINGS : list Encoding := [Exact; DtypeCast; ErrorBound].
End Encoding.

Module Codec.
Definition as_u8 (c : Codec) : Z := match c with Raw => 0 | Sz => 1 | Zfp => 2 | Gzip => 3 end.
Definition as_u32 (c : Codec) : Z := as_u8 c.

Definition from_u8 (v : Z) : option Codec :=
  match v with
  | 0 => Some Raw | 1 => Some Sz | 2 => Some Zfp | 3 => Some Gzip | _ => None
  end.

Definition from_u32 (v : Z) : option Codec := if 255 <? v then None else from_u8 v.

Definition is_error_bounded (c : Codec) : bool :=
  match c with Sz | Zfp => true | _ => false end.

Definition is_supported `{Build} (c : Codec) : bool :=
  match c with Raw | Gzip => true | Sz => feature_sz | Zfp => feature_zfp end.

Definition ALL_CODECS : list Codec := [Raw; Sz; Zfp; Gzip].

Definition DEFAULT_LOSSY `{Build} : Codec := if feature_sz then Sz else Zfp.
End Codec.

Definition supported_codecs `{Build} : Z :=
  foldl (fun mask c => Z.lor mask (Z.shiftl 1 (Codec.as_u32 c))) 0
    (filter (fun c => Codec.is_supported c = true) Codec.ALL_CODECS).

Definition supported_encodings `{Build} : Z :=
  foldl (fun mask e => Z.lor mask (Z.shiftl 1 (Encoding.as_u8 e))) 0
    (filter (fun e => Encoding.is_supported e = true) Encoding.ALL_ENCODINGS).

(** Error bounds are [f64]s, held as their bit patterns. *)
Record QualitySpec : Type := {
  encoding : Encoding;
  cast_dtype : option DType;
  abs_error_bound : option Z;
  rel_error_bound : option Z;
  spec_codec : option Codec;
}.

#[export] Instance QualitySpec_eq_dec : EqDecision QualitySpec.
Proof. solve_decision. Defined.

Module QualitySpec.
Definition exact : QualitySpec :=
  {| encoding := Exact; cast_dtype := None; abs_error_bound := None;
     rel_error_bound := None; spec_codec := None |}.

Definition is_exact (q : QualitySpec) : bool := bool_decide (encoding q = Exact).

Section build.
Context `{Build}.

Definition codec (q : QualitySpec) : Codec :=
  match encoding q with
  | ErrorBound =>
      default Codec.DEFAULT_LOSSY
        (c ← spec_codec q; if Codec.is_error_bounded c then Some c else None)
  | _ =>
      default Raw
        (c ← spec_codec q;
         if negb (Codec.is_error_bounded c) && Codec.is_supported c then Some c else None)
  end.

Definition can_apply (q : QualitySpec) (dtype : DType) : bool :=
  match encoding q with
  | Exact => true
  | ErrorBound =>
      Codec.is_supported (codec q)
      && bool_decide (dtype = Float32 \/ dtype = Float64)
      && bool_decide (rel_error_bound q = None)
      && match abs_error_bound q with
         | Some bound => F64.is_finite bound && F64.gt_zero bound
         | None => false
         end
  | DtypeCast =>
      match dtype, cast_dtype q with
      | Float64, Some Float32 | Float32, Some Float16 => true
      | _, _ => false
      end
  end.

Definition applied (q : QualitySpec) (dtype : DType) : QualitySpec :=
  if can_apply q dtype then q else exact.

Definition wire_dtype (q : QualitySpec) (dtype : DType) : DType :=
  match encoding q with
  | DtypeCast => if can_apply q dtype then default dtype (cast_dtype q) else dtype
  | _ => dtype
  end.
End build.

Definition eps (q : QualitySpec) : option Z :=
  if bool_decide (encoding q = ErrorBound) then abs_error_bound q else None.
End QualitySpec.

Lemma encoding_roundtrip e : Encoding.from_u8 (Encoding.as_u8 e) = Some e.
Proof. by destruct e. Qed.
Lemma codec_tag_roundtrip c : Codec.from_u8 (Codec.as_u8 c) = Some c.
Proof. by destruct c. Qed.
Lemma codec_from_u8_inv v c : Codec.from_u8 v = Some c -> Codec.as_u8 c = v.
Proof.
  unfold Codec.from_u8. destruct v as [|p|p]; try by intros [= <-].
  do 2 (destruct p as [p|p|]; try by intros [= <-]).
Qed.
Lemma encoding_from_u8_inv v e : Encoding.from_u8 v = Some e -> Encoding.as_u8 e = v.
Proof.
  unfold Encoding.from_u8. destruct v as [|p|p]; try by intros [= <-].
  do 2 (destruct p as [p|p|]; try by intros [= <-]).
Qed.

Lemma exact_raw `{Build} : QualitySpec.codec QualitySpec.exact = Raw.
Proof. done. Qed.

(** What the server applies is something it can produce: applying twice is
    applying once, the codec it picks is one this build has, and a lossy codec
    is only ever picked under an error bound. *)
Theorem applied_spec `{Build} q dtype :
  let a := QualitySpec.applied q dtype in
  QualitySpec.applied a dtype = a /\
  Codec.is_supported (QualitySpec.codec a) = true /\
  (Codec.is_error_bounded (QualitySpec.codec a) = true <-> encoding a = ErrorBound) /\
  (encoding a = DtypeCast -> QualitySpec.wire_dtype a dtype <> dtype).
Proof.
  cbn zeta. unfold QualitySpec.applied.
  destruct (QualitySpec.can_apply q dtype) eqn:Hca.
  - rewrite Hca. split; [done|].
    unfold QualitySpec.wire_dtype. rewrite Hca.
    unfold QualitySpec.can_apply, QualitySpec.codec in *.
    destruct (encoding q) eqn:He.
    + destruct (spec_codec q) as [[]|]; cbn; destruct feature_sz, feature_zfp; cbn; naive_solver.
    + destruct (spec_codec q) as [[]|], dtype, (cast_dtype q) as [[]|];
        try done; cbn; destruct feature_sz, feature_zfp; cbn; naive_solver.
    + rewrite !andb_true_iff in Hca. destruct Hca as (((Hs & _) & _) & _).
      split; [done|]. split; [|done]. split; [done|]. intros _.
      unfold Codec.DEFAULT_LOSSY. destruct (spec_codec q) as [[]|]; cbn; by destruct feature_sz.
  - cbn. naive_solver.
Qed.

(** The capability mask has bit [n] set exactly for the codecs (and encodings)
    this build can produce, which is what a client reads from it. *)
Theorem capability_masks `{Build} :
  (forall c, Z.testbit supported_codecs (Codec.as_u8 c) = Codec.is_supported c) /\
  (forall e, Z.testbit supported_encodings (Encoding.as_u8 e) = Encoding.is_supported e).
Proof.
  split; intros []; unfold supported_codecs, supported_encodings; cbn;
    destruct feature_sz, feature_zfp; done.
Qed.

(** A cast halves the element and nothing else changes its width. *)
Lemma wire_dtype_cases `{Build} q dtype :
  QualitySpec.wire_dtype q dtype = dtype \/
  (dtype = Float64 /\ QualitySpec.wire_dtype q dtype = Float32) \/
  (dtype = Float32 /\ QualitySpec.wire_dtype q dtype = Float16).
Proof.
  unfold QualitySpec.wire_dtype, QualitySpec.can_apply.
  destruct (encoding q); auto. destruct dtype, (cast_dtype q) as [[]|]; auto.
Qed.
