(* ===== verification/Frame.v ===== *)
(** The 32-byte frame header and the frames built on it: [aex-wire/src/frame.rs]. *)
From S2P Require Import Prelude Errors Bytes Dtype Quality.

Definition HEADER_LEN : Z := 32.
Definition TICKET_LEN : Z := 16.

Inductive FrameType : Type := Fetch | Data | Error | Ping | Pong.

#[export] Instance FrameType_eq_dec : EqDecision FrameType.
Proof. solve_decision. Defined.

Module FrameType.
Definition as_u8 (t : FrameType) : Z :=
  match t with Fetch => 0x01 | Data => 0x02 | Error => 0x03 | Ping => 0x05 | Pong => 0x06 end.

Definition from_u8 (v : Z) : option FrameType :=
  match v with
  | 0x01 => Some Fetch | 0x02 => Some Data | 0x03 => Some Error
  | 0x05 => Some Ping | 0x06 => Some Pong | _ => None
  end.
End FrameType.

Record FrameHeader : Type := {
  frame_type : FrameType;
  codec : Codec;
  frame_encoding : Encoding;
  flags : Z;
  request_id : Z;
  offset : Z;
  wire_len : Z;
  logical_len : Z;
}.

#[export] Instance FrameHeader_eq_dec : EqDecision FrameHeader.
Proof. solve_decision. Defined.

(** Every field is of its width. *)
Definition header_wf (h : FrameHeader) : Prop :=
  is_u8 (flags h) /\ is_u32 (request_id h) /\ is_u64 (offset h) /\ is_u64 (wire_len h) /\
  is_u64 (logical_len h).

Module FrameHeader.
Definition fetch (request_id offset logical_len : Z) : FrameHeader :=
  {| frame_type := Fetch; codec := Raw; frame_encoding := Exact; flags := 0;
     request_id := request_id; offset := offset; wire_len := TICKET_LEN;
     logical_len := logical_len |}.

Definition data (request_id offset len : Z) : FrameHeader :=
  {| frame_type := Data; codec := Raw; frame_encoding := Exact; flags := 0;
     request_id := request_id; offset := offset; wire_len := len; logical_len := len |}.

Definition data_encoded (request_id offset : Z) (c : Codec) (e : Encoding)
    (wire_len logical_len : Z) : FrameHeader :=
  {| frame_type := Data; codec := c; frame_encoding := e; flags := 0;
     request_id := request_id; offset := offset; wire_len := wire_len;
     logical_len := logical_len |}.

Definition error (request_id offset logical_len payload_len : Z) : FrameHeader :=
  {| frame_type := Error; codec := Raw; frame_encoding := Exact; flags := 0;
     request_id := request_id; offset := offset; wire_len := payload_len;
     logical_len := logical_len |}.

Definition bare (frame_type : FrameType) : FrameHeader :=
  {| frame_type := frame_type; codec := Raw; frame_encoding := Exact; flags := 0;
     request_id := 0; offset := 0; wire_len := 0; logical_len := 0 |}.

Definition encode (h : FrameHeader) : bytes :=
  [FrameType.as_u8 (frame_type h); Codec.as_u8 (codec h); Encoding.as_u8 (frame_encoding h);
   flags h]
  ++ to_le_bytes 4 (request_id h)
  ++ to_le_bytes 8 (offset h)
  ++ to_le_bytes 8 (wire_len h)
  ++ to_le_bytes 8 (logical_len h).

(** [b] is the 32-byte array the source takes. *)
Definition decode (b : bytes) : result WireError FrameHeader :=
  frame_type ← ok_or WProtocol (FrameType.from_u8 (b !!! 0%nat));
  codec ← ok_or WProtocol (Codec.from_u8 (b !!! 1%nat));
  encoding ← ok_or WProtocol (Encoding.from_u8 (b !!! 2%nat));
  Ok {| frame_type := frame_type; codec := codec; frame_encoding := encoding;
        flags := b !!! 3%nat;
        request_id := from_le_bytes (slice 4 4 b);
        offset := from_le_bytes (slice 8 8 b);
        wire_len := from_le_bytes (slice 16 8 b);
        logical_len := from_le_bytes (slice 24 8 b) |}.
End FrameHeader.

Record ErrorPayload : Type := { payload_class : ErrorClass; message : bytes }.

Module ErrorPayload.
Definition encode (p : ErrorPayload) : bytes :=
  ErrorClass.as_u8 (payload_class p) :: message p.

Definition decode (b : bytes) : result WireError ErrorPayload :=
  match b with
  | [] => Err WProtocol
  | class :: message =>
      Ok {| payload_class := ErrorClass.from_u8 class; message := Utf8.from_utf8_lossy message |}
  end.
End ErrorPayload.

(** ** Writing *)

(** What one [write_vectored] call answers. *)
Inductive WriteReply : Type := Wrote (n : nat) | WriteFailed (kind : ErrorKind).

(** [IoSlice::advance_slices]: drop the buffers [n] bytes cover and the front of
    the next one; [None] is its panic when they run out. *)
Fixpoint advance_slices (bufs : list bytes) (n : nat) : option (list bytes) :=
  match bufs with
  | [] => if Nat.eqb n 0 then Some [] else None
  | b :: bufs' =>
      if (length b <=? n)%nat then advance_slices bufs' (n - length b)
      else Some (drop n b :: bufs')
  end.

(** The write loop against the socket's [replies], with what the peer has been
    handed so far.  [None] is a loop that is still waiting for a reply. *)
Fixpoint write_loop (replies : list WriteReply) (remaining : list bytes) (sent : bytes)
    : option (result ErrorKind unit) * bytes :=
  match remaining with
  | [] => (Some (Ok tt), sent)
  | _ :: _ =>
      match replies with
      | [] => (None, sent)
      | Wrote 0 :: _ => (Some (Err KWriteZero), sent)
      | Wrote n :: replies' =>
          match advance_slices remaining n with
          | Some rest => write_loop replies' rest (sent ++ take n (concat remaining))
          | None => (Some Panic, sent)
          end
      | WriteFailed KInterrupted :: replies' => write_loop replies' remaining sent
      | WriteFailed kind :: _ => (Some (Err kind), sent)
      end
  end.

Definition write_frame (replies : list WriteReply) (header : FrameHeader) (payload : bytes)
    : option (result ErrorKind unit) * bytes :=
  write_loop replies [FrameHeader.encode header; payload] [].

(** ** Reading *)

(** [Read::read_exact] on what a connection will deliver: the bytes and the rest. *)
Definition read_exact (n : Z) (stream : bytes) : result ErrorKind (bytes * bytes) :=
  if decide (n <= zlen stream) then Ok (slice 0 n stream, drop (Z.to_nat n) stream)
  else Err KUnexpectedEof.

Definition read_frame_header (stream : bytes) : result WireError (FrameHeader * bytes) :=
  '(b, rest) ← map_err WIo (read_exact HEADER_LEN stream);
  h ← FrameHeader.decode b;
  Ok (h, rest).

(** ** Properties *)

Lemma frame_type_roundtrip t : FrameType.from_u8 (FrameType.as_u8 t) = Some t.
Proof. by destruct t. Qed.

Lemma frame_type_from_u8_inv v t : FrameType.from_u8 v = Some t -> FrameType.as_u8 t = v.
Proof.
  unfold FrameType.from_u8. destruct v as [|p|p]; try by intros [= <-].
  do 3 (destruct p as [p|p|]; try by intros [= <-]).
Qed.

Lemma length_encode h : length (FrameHeader.encode h) = 32%nat.
Proof. unfold FrameHeader.encode. rewrite !length_app, !length_to_le_bytes. done. Qed.

Lemma encode_bytes h : header_wf h -> is_bytes (FrameHeader.encode h).
Proof.
  intros (Hf & _). unfold FrameHeader.encode. rewrite !is_bytes_app.
  repeat split; auto. unfold is_bytes, is_u8 in *.
  repeat constructor; try lia; destruct (frame_type h), (codec h), (frame_encoding h); cbn; lia.
Qed.

(** A list of 32 bytes is its four tag bytes and four little-endian fields. *)
Lemma header_bytes_split (b : bytes) :
  length b = 32%nat ->
  b = [b !!! 0%nat; b !!! 1%nat; b !!! 2%nat; b !!! 3%nat]
      ++ slice 4 4 b ++ slice 8 8 b ++ slice 16 8 b ++ slice 24 8 b.
Proof.
  intros Hl. do 32 (destruct b as [|? b]; [done|]). by destruct b.
Qed.

Lemma decode_encode h : header_wf h -> FrameHeader.decode (FrameHeader.encode h) = Ok h.
Proof.
  intros (Hf & Hr & Ho & Hw & Hl). destruct h as [t c e f r o w l].
  cbn in Hf, Hr, Ho, Hw, Hl. unfold FrameHeader.decode.
  set (b := FrameHeader.encode _).
  assert (slice 4 4 b = to_le_bytes 4 r) as -> by done.
  assert (slice 8 8 b = to_le_bytes 8 o) as -> by done.
  assert (slice 16 8 b = to_le_bytes 8 w) as -> by done.
  assert (slice 24 8 b = to_le_bytes 8 l) as -> by done.
  rewrite !from_to_le_u64, from_to_le_u32 by done.
  subst b. cbn. by rewrite frame_type_roundtrip, codec_tag_roundtrip, encoding_roundtrip.
Qed.

Lemma le_field_range off n b :
  is_bytes b -> 0 <= off -> 0 <= n -> off + n <= zlen b ->
  to_le_bytes (Z.to_nat n) (from_le_bytes (slice off n b)) = slice off n b /\
  0 <= from_le_bytes (slice off n b) < 256 ^ n.
Proof.
  intros Hb Ho Hn Hl. pose proof (length_slice off n b Ho Hn Hl) as Hlen.
  pose proof (from_le_bytes_range _ (is_bytes_slice off n b Hb)) as Hr.
  rewrite Hlen in Hr. split; [|done].
  rewrite <- Hlen at 1. rewrite Nat2Z.id. apply to_from_le_bytes. by apply is_bytes_slice.
Qed.

Lemma encode_decode b h :
  length b = 32%nat -> is_bytes b -> FrameHeader.decode b = Ok h ->
  header_wf h /\ FrameHeader.encode h = b.
Proof.
  intros Hl Hb. unfold FrameHeader.decode. intros Hd.
  apply bind_ok in Hd as (t & Ht%ok_or_ok & Hd).
  apply bind_ok in Hd as (c & Hc%ok_or_ok & Hd).
  apply bind_ok in Hd as (e & He%ok_or_ok & Hd). injection Hd as <-.
  destruct (le_field_range 4 4 b) as [E4 R4]; [done | lia..|].
  destruct (le_field_range 8 8 b) as [E8 R8]; [done | lia..|].
  destruct (le_field_range 16 8 b) as [E16 R16]; [done | lia..|].
  destruct (le_field_range 24 8 b) as [E24 R24]; [done | lia..|].
  split.
  - assert (is_u8 (b !!! 3%nat)).
    { eapply (Forall_lookup_1 is_u8 b 3%nat); [done|]. apply list_lookup_lookup_total_lt. lia. }
    repeat split; cbn; unfold is_u8 in *; lia.
  - unfold FrameHeader.encode. cbn [frame_type codec frame_encoding flags request_id offset
      wire_len logical_len].
    change 8%nat with (Z.to_nat 8). change 4%nat with (Z.to_nat 4).
    rewrite E4, E8, E16, E24.
    rewrite (frame_type_from_u8_inv _ _ Ht), (codec_from_u8_inv _ _ Hc),
      (encoding_from_u8_inv _ _ He).
    symmetry. by apply header_bytes_split.
Qed.

(** A header that fits its fields comes back from the wire as it was
    sent, and every 32 bytes that decode are the encoding of what they decode
    to: the codec is a bijection between headers and the byte strings whose three
    tag bytes this build knows.  Nothing else is refused. *)
Theorem frame_header_codec :
  (forall h, header_wf h -> FrameHeader.decode (FrameHeader.encode h) = Ok h) /\
  (forall b h, length b = 32%nat -> is_bytes b -> FrameHeader.decode b = Ok h ->
     header_wf h /\ FrameHeader.encode h = b) /\
  (forall b, FrameHeader.decode b = Err WProtocol <->
     FrameType.from_u8 (b !!! 0%nat) = None \/ Codec.from_u8 (b !!! 1%nat) = None \/
     Encoding.from_u8 (b !!! 2%nat) = None).
Proof.
  split; [exact decode_encode|]. split; [exact encode_decode|].
  intros b. unfold FrameHeader.decode.
  destruct (FrameType.from_u8 _), (Codec.from_u8 _), (Encoding.from_u8 _); cbn; naive_solver.
Qed.

(** An error payload keeps its class and its text, and a class or text this build
    cannot read never costs the other half. *)
Theorem error_payload_codec :
  (forall p, Utf8.valid (message p) = true ->
     ErrorPayload.decode (ErrorPayload.encode p) = Ok p) /\
  (forall class msg, exists text,
     ErrorPayload.decode (class :: msg)
     = Ok {| payload_class := ErrorClass.from_u8 class; message := text |}) /\
  ErrorPayload.decode [] = Err WProtocol.
Proof.
  split; [|split; [by eexists | done]].
  intros [c m] Hm. unfold ErrorPayload.decode, ErrorPayload.encode.
  cbn [payload_class message] in *. by rewrite from_u8_as_u8, Utf8.from_utf8_lossy_valid.
Qed.

Lemma advance_slices_spec bufs n rest :
  advance_slices bufs n = Some rest -> concat rest = drop n (concat bufs).
Proof.
  revert n. induction bufs as [|b bufs IH]; intros n Ha; cbn in *.
  - destruct (Nat.eqb n 0); [|done]. injection Ha as <-. by rewrite drop_nil.
  - destruct (length b <=? n)%nat eqn:Hle.
    + apply Nat.leb_le in Hle. rewrite drop_app_ge by done. by apply IH.
    + apply Nat.leb_gt in Hle. injection Ha as <-. cbn. rewrite drop_app_le; [done | lia].
Qed.

Lemma advance_slices_total bufs n :
  (n <= length (concat bufs))%nat -> is_Some (advance_slices bufs n).
Proof.
  revert n. induction bufs as [|b bufs IH]; intros n Hn; cbn in *.
  - replace n with 0%nat by lia. by eexists.
  - destruct (length b <=? n)%nat eqn:Hle; [|by eexists].
    apply IH. rewrite length_app in Hn. lia.
Qed.

Lemma advance_slices_done bufs : advance_slices bufs (length (concat bufs)) = Some [].
Proof.
  induction bufs as [|b bufs IH]; cbn; [done|].
  rewrite length_app. rewrite (proj2 (Nat.leb_le _ _)) by lia.
  replace (_ + _ - _)%nat with (length (concat bufs)) by lia. done.
Qed.

(** A reply the socket may give while [left] bytes are still to go. *)
Definition reply_ok (left : nat) (r : WriteReply) : Prop :=
  match r with Wrote n => (n <= left)%nat | WriteFailed _ => True end.

(** Every reply is one the socket may give at its point of the loop. *)
Fixpoint replies_ok (left : nat) (replies : list WriteReply) : Prop :=
  match replies with
  | [] => True
  | r :: replies' =>
      reply_ok left r /\
      replies_ok (match r with Wrote n => left - n | WriteFailed _ => left end)%nat replies'
  end.

Lemma write_loop_spec replies remaining sent :
  replies_ok (length (concat remaining)) replies ->
  let '(out, sent') := write_loop replies remaining sent in
  sent' `prefix_of` sent ++ concat remaining /\
  out <> Some Panic /\
  (out = Some (Ok tt) -> sent' = sent ++ concat remaining).
Proof.
  revert remaining sent. induction replies as [|r replies IH]; intros remaining sent Hok.
  - destruct remaining as [|b remaining]; cbn.
    + rewrite app_nil_r. naive_solver.
    + split; [by apply prefix_app_r | naive_solver].
  - destruct remaining as [|b remaining].
    { cbn. rewrite app_nil_r. naive_solver. }
    destruct Hok as [Hr Hok]. destruct r as [[|n]|k].
    + cbn. split; [by apply prefix_app_r | naive_solver].
    + cbn [write_loop]. destruct (advance_slices_total _ _ Hr) as [rest Hrest].
      rewrite Hrest. pose proof (advance_slices_spec _ _ _ Hrest) as Hc.
      specialize (IH rest (sent ++ take (S n) (concat (b :: remaining)))).
      rewrite Hc in IH. rewrite length_drop in IH. specialize (IH Hok).
      by rewrite <- app_assoc, take_drop in IH.
    + assert (k = KInterrupted \/ k <> KInterrupted) as [->|Hk] by (destruct k; auto).
      * cbn [write_loop]. by apply IH.
      * cbn [write_loop]. destruct k; try done; (split; [by apply prefix_app_r | naive_solver]).
Qed.

Lemma write_frame_spec replies header payload :
  replies_ok (32 + length payload) replies ->
  let '(out, sent) := write_frame replies header payload in
  sent `prefix_of` FrameHeader.encode header ++ payload /\
  out <> Some Panic /\
  (out = Some (Ok tt) -> sent = FrameHeader.encode header ++ payload).
Proof.
  intros Hok. unfold write_frame.
  pose proof (write_loop_spec replies [FrameHeader.encode header; payload] []) as H.
  cbn [concat] in H. rewrite app_nil_r in H. apply H.
  by rewrite length_app, length_encode.
Qed.

(** However the socket splits the write up, what the peer has been handed is
    always a prefix of the header followed by its payload, and the call answers
    [Ok] only once it has been handed all of it: no header reaches the peer
    without the bytes it describes following it. *)
Theorem write_frame_order replies header payload :
  replies_ok (32 + length payload) replies ->
  let '(out, sent) := write_frame replies header payload in
  sent `prefix_of` FrameHeader.encode header ++ payload /\
  out <> Some Panic /\
  (out = Some (Ok tt) -> sent = FrameHeader.encode header ++ payload).
Proof. apply write_frame_spec. Qed.

Lemma write_frame_order_witness :
  let '(out, sent) := write_frame [Wrote 10; WriteFailed KInterrupted; Wrote 25] (FrameHeader.data 7 0 3) [1; 2; 3] in
  out = Some (Ok tt) /\ sent `prefix_of` FrameHeader.encode (FrameHeader.data 7 0 3) ++ [1; 2; 3] /\ out <> Some Panic /\
  (out = Some (Ok tt) -> sent = FrameHeader.encode (FrameHeader.data 7 0 3) ++ [1; 2; 3]).
Proof.
  split; [reflexivity|].
  refine (write_frame_order [Wrote 10; WriteFailed KInterrupted; Wrote 25] (FrameHeader.data 7 0 3) [1; 2; 3] _).
  vm_compute. repeat split; lia.
Defined.

Lemma write_loop_terminates replies remaining sent :
  replies_ok (length (concat remaining)) replies ->
  Forall (fun r => exists n, r = Wrote (S n)) replies ->
  (length (concat remaining) <= length replies)%nat ->
  remaining = [] \/ (0 < length (concat remaining))%nat ->
  (write_loop replies remaining sent).1 = Some (Ok tt).
Proof.
  revert remaining sent. induction replies as [|r replies IH]; intros remaining sent Hok Hp Hl Hn.
  - destruct remaining; [done|]. cbn in Hl, Hn. naive_solver lia.
  - destruct remaining as [|b remaining]; [done|].
    apply Forall_cons in Hp as [[n Hn'] Hp]. subst r. destruct Hok as [Hr Hok]. cbn [write_loop].
    destruct (decide (S n = length (concat (b :: remaining)))) as [Hall|Hsome].
    + rewrite Hall, advance_slices_done. by destruct replies.
    + destruct (advance_slices_total _ _ Hr) as [rest Hrest]. rewrite Hrest.
      pose proof (advance_slices_spec _ _ _ Hrest) as Hc.
      assert (length (concat rest) = (length (concat (b :: remaining)) - S n)%nat) as Hlen.
      { by rewrite Hc, length_drop. }
      cbn [reply_ok] in Hr. cbn [length] in Hl.
      apply IH; [by rewrite Hlen | done | lia | right; lia].
Qed.

(** A socket that takes a byte at least at every call takes the whole frame. *)
Theorem write_frame_completes replies header payload :
  replies_ok (32 + length payload) replies ->
  Forall (fun r => exists n, r = Wrote (S n)) replies ->
  (32 + length payload <= length replies)%nat ->
  write_frame replies header payload
  = (Some (Ok tt), FrameHeader.encode header ++ payload).
Proof.
  intros Hok Hp Hl.
  pose proof (write_frame_spec replies header payload Hok) as H.
  pose proof (write_loop_terminates replies [FrameHeader.encode header; payload] []) as Ht.
  unfold write_frame in *. cbn [concat] in Ht. rewrite app_nil_r, length_app, length_encode in Ht.
  destruct (write_loop _ _ _) as [out sent]. cbn [fst] in Ht.
  rewrite Ht in H |- * by (done || right; lia). destruct H as (_ & _ & Hs). by rewrite Hs.
Qed.

(** A frame written is a frame read: the header comes back and the payload is
    what is left in the stream. *)
Theorem read_written_header h payload rest :
  header_wf h ->
  read_frame_header (FrameHeader.encode h ++ payload ++ rest) = Ok (h, payload ++ rest).
Proof.
  intros Hwf. unfold read_frame_header, read_exact, HEADER_LEN.
  rewrite decide_True by (rewrite length_app, length_encode; lia). cbn [map_err mbind result_bind].
  rewrite slice_app_l, drop_app_length' by (rewrite ?length_encode; lia).
  replace 32 with (zlen (FrameHeader.encode h)) by by rewrite length_encode.
  rewrite slice_all. by rewrite decode_encode.
Qed.
