(* ===== verification/Handshake.v ===== *)
(** Opening a data connection: [aex-wire/src/handshake.rs]. *)
From S2P Require Import Prelude Errors Bytes.

(** [b"AEXDATA\x01"]. *)
Definition MAGIC : bytes := [0x41; 0x45; 0x58; 0x44; 0x41; 0x54; 0x41; 0x01].
Definition PROTOCOL_VERSION : Z := 2.
Definition HELLO_LEN : Z := 48.
Definition READY_LEN : Z := 16.

Record Hello : Type := {
  hello_version : Z;
  hello_flags : Z;
  session_id : bytes;
  session_token : bytes;
}.

Definition is_u16 (z : Z) : Prop := 0 <= z < 65536.

(** Sixteen bytes: a session id, a token or a ticket. *)
Definition is_id (b : bytes) : Prop := length b = 16%nat /\ is_bytes b.

Definition hello_wf (h : Hello) : Prop :=
  is_u16 (hello_version h) /\ is_u32 (hello_flags h) /\ is_id (session_id h) /\
  is_id (session_token h).

Definition check_magic (b : bytes) : result WireError unit :=
  if decide (b = MAGIC) then Ok tt else Err WProtocol.

Module Hello.
Definition new (id token : bytes) : Hello :=
  {| hello_version := PROTOCOL_VERSION; hello_flags := 0; session_id := id;
     session_token := token |}.

Definition encode (h : Hello) : bytes :=
  MAGIC ++ to_le_bytes 2 (hello_version h) ++ [0; 0] ++ to_le_bytes 4 (hello_flags h)
  ++ session_id h ++ session_token h.

Definition decode (b : bytes) : result WireError Hello :=
  _ ← check_magic (slice 0 8 b);
  Ok {| hello_version := from_le_bytes (slice 8 2 b);
        hello_flags := from_le_bytes (slice 12 4 b);
        session_id := slice 16 16 b;
        session_token := slice 32 16 b |}.
End Hello.

Record Ready : Type := {
  status : ErrorClass;
  ready_version : Z;
  ready_flags : Z;
}.

Definition ready_wf (r : Ready) : Prop := is_u16 (ready_version r) /\ is_u32 (ready_flags r).

Module Ready.
Definition accepted : Ready :=
  {| status := ClassOk; ready_version := PROTOCOL_VERSION; ready_flags := 0 |}.

Definition refused (status : ErrorClass) : Ready :=
  {| status := status; ready_version := PROTOCOL_VERSION; ready_flags := 0 |}.

Definition is_accepted (r : Ready) : bool := bool_decide (status r = ClassOk).

Definition encode (r : Ready) : bytes :=
  MAGIC ++ to_le_bytes 2 (ErrorClass.as_u8 (status r)) ++ to_le_bytes 2 (ready_version r)
  ++ to_le_bytes 4 (ready_flags r).

Definition decode (b : bytes) : result WireError Ready :=
  _ ← check_magic (slice 0 8 b);
  let status := from_le_bytes (slice 8 2 b) in
  status ← (if decide (is_u8 status) then Ok status else Err WProtocol);
  Ok {| status := ErrorClass.from_u8 status;
        ready_version := from_le_bytes (slice 10 2 b);
        ready_flags := from_le_bytes (slice 12 4 b) |}.
End Ready.

(** ** Properties *)

Lemma slice_mid {A} off len (l1 l2 l3 : list A) :
  zlen l1 = off -> zlen l2 = len -> slice off len (l1 ++ l2 ++ l3) = l2.
Proof.
  intros <- <-. replace (zlen l1) with (zlen l1 + 0) by lia.
  rewrite slice_app_r, slice_app_l by lia. apply slice_all.
Qed.

Lemma length_hello_encode h : hello_wf h -> zlen (Hello.encode h) = HELLO_LEN.
Proof.
  intros (_ & _ & [Hi _] & [Ht _]). unfold Hello.encode, HELLO_LEN.
  rewrite !length_app, !length_to_le_bytes, Hi, Ht. done.
Qed.

Lemma length_ready_encode r : zlen (Ready.encode r) = READY_LEN.
Proof. unfold Ready.encode. rewrite !length_app, !length_to_le_bytes. done. Qed.

Lemma hello_decode_encode h : hello_wf h -> Hello.decode (Hello.encode h) = Ok h.
Proof.
  intros (Hv & Hf & [Hi _] & [Ht _]). destruct h as [v f i t].
  cbn [hello_version hello_flags session_id session_token] in *.
  unfold Hello.decode. set (b := Hello.encode _).
  assert (slice 0 8 b = MAGIC) as -> by done.
  assert (slice 8 2 b = to_le_bytes 2 v) as -> by done.
  assert (slice 12 4 b = to_le_bytes 4 f) as -> by done.
  assert (slice 16 16 b = i) as ->.
  { apply (slice_mid 16 16 (MAGIC ++ to_le_bytes 2 v ++ [0; 0] ++ to_le_bytes 4 f) i t);
      [done | lia]. }
  assert (slice 32 16 b = t) as ->.
  { rewrite <- (slice_mid 32 16
      (MAGIC ++ to_le_bytes 2 v ++ [0; 0] ++ to_le_bytes 4 f ++ i) t []); [|cbn; lia|lia].
    subst b. unfold Hello.encode. cbn [hello_version hello_flags session_id session_token].
    by rewrite app_nil_r, <- !app_assoc. }
  unfold check_magic. rewrite decide_True by done. cbn [mbind result_bind].
  by rewrite (from_to_le_bytes 2), from_to_le_u32.
Qed.

Lemma ready_decode_encode r : ready_wf r -> Ready.decode (Ready.encode r) = Ok r.
Proof.
  intros (Hv & Hf). destruct r as [s v f]. cbn [ready_version ready_flags] in *.
  unfold Ready.decode. set (b := Ready.encode _).
  assert (slice 0 8 b = MAGIC) as -> by done.
  assert (slice 8 2 b = to_le_bytes 2 (ErrorClass.as_u8 s)) as -> by done.
  assert (slice 10 2 b = to_le_bytes 2 v) as -> by done.
  assert (slice 12 4 b = to_le_bytes 4 f) as -> by done.
  pose proof (as_u8_range s) as Hs. unfold is_u8 in Hs.
  rewrite !(from_to_le_bytes 2), from_to_le_u32 by (done || change (256 ^ Z.of_nat 2) with 65536; lia).
  unfold check_magic. rewrite decide_True by done. cbn [mbind result_bind].
  rewrite decide_True by done. cbn. by rewrite from_u8_as_u8.
Qed.

(** Both handshake messages survive the wire, and a refusal keeps the class the
    client acts on; a status outside the classes this build knows never reads
    as an acceptance. *)
Theorem handshake_codec :
  (forall h, hello_wf h -> Hello.decode (Hello.encode h) = Ok h) /\
  (forall r, ready_wf r -> Ready.decode (Ready.encode r) = Ok r) /\
  (forall c, Ready.decode (Ready.encode (Ready.refused c)) = Ok (Ready.refused c)) /\
  (forall b r, Ready.decode b = Ok r -> Ready.is_accepted r = true ->
     from_le_bytes (slice 8 2 b) = 0).
Proof.
  split; [exact hello_decode_encode|]. split; [exact ready_decode_encode|]. split.
  - intros c. apply ready_decode_encode. by repeat split.
  - intros b r Hd Ha. unfold Ready.decode in Hd.
    apply bind_ok in Hd as (_ & _ & Hd). cbn zeta in Hd.
    apply bind_ok in Hd as (s & Hs & Hd). case_decide as Hu; [|done].
    injection Hs as <-. injection Hd as <-.
    unfold Ready.is_accepted in Ha. apply bool_decide_eq_true in Ha. cbn [status] in Ha.
    unfold is_u8 in Hu. revert Ha Hu. generalize (from_le_bytes (slice 8 2 b)) as z.
    intros z Ha Hu. destruct (decide (6 <= z)) as [H6|H6].
    { by rewrite from_u8_unknown in Ha. }
    assert (z = 0 \/ z = 1 \/ z = 2 \/ z = 3 \/ z = 4 \/ z = 5) as Hz by lia.
    naive_solver.
Qed.
