(* ===== verification/Scatter.v ===== *)
(** The receive buffer several connections write into at once:
    [aex-wire/src/scatter.rs].  The mutex makes [claim] and the drop of a slice
    atomic, so a history of the buffer is a sequence of these two steps. *)
From S2P Require Import Prelude Errors.

(** A half-open range [start, end). *)
Abbreviation range := (Z * Z)%type.

Record ScatterBuffer : Type := { buffer_len : Z; claimed : list range }.

(** A claimed range: the pointer is the buffer's at [slice_offset]. *)
Record ScatterSlice : Type := { slice_offset : Z; slice_len : Z }.

#[export] Instance ScatterSlice_eq_dec : EqDecision ScatterSlice.
Proof. solve_decision. Defined.

(** [Vec::swap_remove]: the last element takes the removed one's place. *)
Definition swap_remove {A} (l : list A) (i : nat) : list A :=
  match last l with
  | Some x => take (length l - 1) (<[i := x]> l)
  | None => l
  end.

Module ScatterBuffer.
Definition new (len : Z) : ScatterBuffer := {| buffer_len := len; claimed := [] |}.

Definition overlaps (offset end_ : Z) (held : range) : bool :=
  (held.1 <? end_) && (offset <? held.2).

Definition claim (b : ScatterBuffer) (offset len : Z)
    : result WireError (ScatterSlice * ScatterBuffer) :=
  match (end_ ← checked_add offset len; if end_ <=? buffer_len b then Some end_ else None) with
  | None => Err (WOutOfRange offset len (buffer_len b))
  | Some end_ =>
      if (0 <? len) && existsb (overlaps offset end_) (claimed b)
      then Err (WOverlap offset len)
      else Ok ({| slice_offset := offset; slice_len := len |},
               {| buffer_len := buffer_len b; claimed := claimed b ++ [(offset, end_)] |})
  end.

(** [Drop for ScatterSlice]: release the first claim that starts where it does. *)
Definition drop_slice (b : ScatterBuffer) (s : ScatterSlice) : ScatterBuffer :=
  match list_find (fun held => held.1 = slice_offset s) (claimed b) with
  | Some (index, _) => {| buffer_len := buffer_len b; claimed := swap_remove (claimed b) index |}
  | None => b
  end.
End ScatterBuffer.

(** ** Histories *)

Definition range_of (s : ScatterSlice) : range :=
  (slice_offset s, slice_offset s + slice_len s).

(** The bytes two slices may both write. *)
Definition disjoint_slices (s t : ScatterSlice) : Prop :=
  slice_offset s + slice_len s <= slice_offset t \/
  slice_offset t + slice_len t <= slice_offset s.

(** What a buffer and the slices alive on it can come to, the claims being of
    lengths that satisfy [P]. *)
Inductive history (P : Z -> Prop) (cap : Z) : ScatterBuffer -> list ScatterSlice -> Prop :=
  | history_new : history P cap (ScatterBuffer.new cap) []
  | history_claim b live offset len s b' :
      history P cap b live -> is_u64 offset -> is_u64 len -> P len ->
      ScatterBuffer.claim b offset len = Ok (s, b') -> history P cap b' (s :: live)
  | history_drop b live1 s live2 :
      history P cap b (live1 ++ s :: live2) ->
      history P cap (ScatterBuffer.drop_slice b s) (live1 ++ live2).

Definition nonempty (len : Z) : Prop := 0 < len.

Lemma swap_remove_perm {A} (l : list A) i x :
  l !! i = Some x -> l ≡ₚ x :: swap_remove l i.
Proof.
  intros Hi. unfold swap_remove. destruct (last l) as [y|] eqn:Hy.
  - apply last_Some in Hy as [l' ->]. rewrite length_app, Nat.add_sub.
    destruct (decide (i = length l')) as [->|Hne].
    + rewrite list_lookup_middle in Hi by done. injection Hi as ->.
      rewrite insert_app_r_alt, Nat.sub_diag by lia. cbn. rewrite take_app_length.
      by rewrite Permutation_app_comm.
    + pose proof (lookup_lt_Some _ _ _ Hi) as Hlt. rewrite length_app in Hlt. cbn in Hlt.
      rewrite lookup_app_l in Hi by lia. rewrite insert_app_l by lia.
      rewrite take_app_length' by (by rewrite length_insert).
      rewrite insert_take_drop by (by apply lookup_lt_Some in Hi).
      rewrite <- (take_drop_middle l' i x Hi) at 1.
      rewrite <- app_assoc. cbn. rewrite <- Permutation_middle. constructor.
      apply Permutation_app_head. by rewrite Permutation_app_comm.
  - apply last_None in Hy as ->. done.
Qed.

(** The invariant of a history whose claims are not empty. *)
Definition scatter_inv (cap : Z) (b : ScatterBuffer) (live : list ScatterSlice) : Prop :=
  buffer_len b = cap /\
  claimed b ≡ₚ range_of <$> live /\
  Forall (fun s => 0 <= slice_offset s /\ 0 < slice_len s /\
                   slice_offset s + slice_len s <= cap) live /\
  ForallOrdPairs disjoint_slices live.

Lemma claim_inv b offset len s b' :
  ScatterBuffer.claim b offset len = Ok (s, b') ->
  s = {| slice_offset := offset; slice_len := len |} /\
  offset + len <= buffer_len b /\
  b' = {| buffer_len := buffer_len b; claimed := claimed b ++ [range_of s] |} /\
  (0 < len -> Forall (fun r => r.2 <= offset \/ offset + len <= r.1) (claimed b)).
Proof.
  unfold ScatterBuffer.claim. destruct (_ ≫= _) as [end_|] eqn:He; [|done].
  apply bind_Some in He as (e & [-> Hlt]%checked_add_some & He).
  destruct (Z.leb_spec (offset + len) (buffer_len b)); [|done]. injection He as <-.
  destruct ((0 <? len) && _) eqn:Ho; [done|]. intros [= <- <-].
  split; [done|]. split; [done|]. split; [done|]. intros Hlen.
  apply andb_false_iff in Ho as [Ho|Ho]; [lia|].
  apply Forall_forall. intros r Hr.
  assert (ScatterBuffer.overlaps offset (offset + len) r = false) as Hov.
  { apply not_true_is_false. intros Ht. rewrite <- not_true_iff_false in Ho. apply Ho.
    apply existsb_exists. exists r. split; [by apply list_elem_of_In | done]. }
  unfold ScatterBuffer.overlaps in Hov. lia.
Qed.

Lemma scatter_inv_claim cap b live offset len s b' :
  scatter_inv cap b live -> is_u64 offset -> 0 < len ->
  ScatterBuffer.claim b offset len = Ok (s, b') -> scatter_inv cap b' (s :: live).
Proof.
  intros (Hl & Hp & Hf & Hd) Ho Hlen Hc.
  apply claim_inv in Hc as (-> & Hend & -> & Hall). specialize (Hall Hlen).
  unfold is_u64 in Ho. split; [done|]. split; [|split].
  - cbn [claimed fmap list_fmap]. rewrite Hp. by rewrite Permutation_app_comm.
  - constructor; [cbn in *; lia | done].
  - constructor; [|done]. rewrite Hp in Hall. apply Forall_fmap in Hall.
    eapply Forall_impl; [exact Hall|]. cbn. unfold disjoint_slices. cbn. lia.
Qed.

Lemma disjoint_middle live1 s live2 :
  ForallOrdPairs disjoint_slices (live1 ++ s :: live2) ->
  Forall (disjoint_slices s) (live1 ++ live2) /\ ForallOrdPairs disjoint_slices (live1 ++ live2).
Proof.
  induction live1 as [|t live1 IH]; cbn; intros Hd; inversion Hd as [|? ? Ht Hd']; subst.
  - done.
  - destruct (IH Hd') as [Hs Hr]. apply Forall_app in Ht as [Ht1 Ht2].
    apply Forall_cons in Ht2 as [Hts Ht2]. split.
    + constructor; [|done]. unfold disjoint_slices in *. lia.
    + constructor; [|done]. by apply Forall_app.
Qed.

Lemma scatter_inv_drop cap b live1 s live2 :
  scatter_inv cap b (live1 ++ s :: live2) ->
  scatter_inv cap (ScatterBuffer.drop_slice b s) (live1 ++ live2).
Proof.
  intros (Hl & Hp & Hf & Hd). apply disjoint_middle in Hd as [Hs Hd].
  assert (live1 ++ s :: live2 ≡ₚ s :: live1 ++ live2) as Hperm by by rewrite Permutation_middle.
  rewrite Hperm in Hf. apply Forall_cons in Hf as [Hsb Hf].
  rewrite Hperm in Hp. cbn [fmap list_fmap] in Hp.
  unfold ScatterBuffer.drop_slice. destruct (list_find _ _) as [[i r]|] eqn:Hfind.
  - apply list_find_Some in Hfind as (Hi & Hr & _).
    assert (r = range_of s) as ->.
    { assert (r ∈ range_of s :: (range_of <$> live1 ++ live2)) as Hin.
      { rewrite <- Hp. by eapply list_elem_of_lookup_2. }
      apply elem_of_cons in Hin as [?|Hin]; [done|].
      apply list_elem_of_fmap in Hin as (t & -> & Hin). cbn in Hr.
      rewrite Forall_forall in Hs, Hf. specialize (Hs t Hin). specialize (Hf t Hin).
      cbn in Hf. unfold disjoint_slices in Hs. lia. }
    split; [done|]. split; [|done]. cbn [claimed].
    apply (Permutation_cons_inv (a := range_of s)).
    by rewrite <- (swap_remove_perm _ _ _ Hi).
  - exfalso. apply list_find_None in Hfind. rewrite Hp in Hfind.
    apply Forall_cons in Hfind as [Hne _]. done.
Qed.

Lemma scatter_history_inv cap b live :
  0 <= cap -> history nonempty cap b live -> scatter_inv cap b live.
Proof.
  intros Hcap. induction 1 as [|b live offset len s b' _ IH Ho _ Hlen Hc|b live1 s live2 _ IH].
  - split; [done|]. cbn. split; [done|]. split; constructor.
  - by eapply scatter_inv_claim.
  - by apply scatter_inv_drop.
Qed.

(** C35: Whatever the connections claim and drop, in whatever order, the slices alive
    at once are inside the buffer and share no byte, provided no claim is empty. *)
Theorem scatter_exclusive cap b live :
  0 <= cap -> history nonempty cap b live ->
  ForallOrdPairs disjoint_slices live /\
  Forall (fun s => 0 <= slice_offset s /\ slice_offset s + slice_len s <= cap) live.
Proof.
  intros Hcap Hh. destruct (scatter_history_inv cap b live Hcap Hh) as (_ & _ & Hf & Hd).
  split; [done|]. eapply Forall_impl; [exact Hf|]. cbn. lia.
Qed.

Lemma scatter_exclusive_witness :
  let s1 := {| slice_offset := 4; slice_len := 8 |} in
  let s2 := {| slice_offset := 12; slice_len := 4 |} in
  ForallOrdPairs disjoint_slices [s2; s1] /\
  Forall (fun s => 0 <= slice_offset s /\ slice_offset s + slice_len s <= 16) [s2; s1].
Proof.
  cbv zeta. apply (scatter_exclusive 16 {| buffer_len := 16; claimed := [(4, 12); (12, 16)] |}); [lia|].
  apply (history_claim _ _ {| buffer_len := 16; claimed := [(4, 12)] |} _ 12 4); try (by cbv).
  apply (history_claim _ _ (ScatterBuffer.new 16) [] 4 8); try (by cbv). constructor.
Defined.

(** A claim of something is refused exactly when it runs past the end or meets a
    slice that is alive, so that a released range can be claimed again. *)
Theorem claim_complete cap b live offset len :
  is_u64 cap -> history nonempty cap b live -> is_u64 offset -> 0 < len ->
  (is_ok (ScatterBuffer.claim b offset len) <->
   offset + len <= cap /\
   Forall (disjoint_slices {| slice_offset := offset; slice_len := len |}) live).
Proof.
  intros Hcap Hh Ho Hlen. unfold is_u64 in *.
  destruct (scatter_history_inv cap b live) as (Hl & Hp & Hf & Hd); [lia | done |]. split.
  - intros [[s b'] Hc]. apply claim_inv in Hc as (-> & Hend & -> & Hall).
    split; [lia|]. specialize (Hall Hlen). rewrite Hp in Hall. apply Forall_fmap in Hall.
    eapply Forall_impl; [exact Hall|]. unfold disjoint_slices. cbn. lia.
  - intros [Hend Hall]. unfold ScatterBuffer.claim, checked_add.
    rewrite decide_True by lia. cbn. rewrite Hl, (proj2 (Z.leb_le _ _)) by done.
    destruct ((0 <? len) && _) eqn:Hov; [|by eexists]. exfalso.
    apply andb_true_iff in Hov as [_ Hov]. apply existsb_exists in Hov as (r & Hin & Hr).
    apply list_elem_of_In in Hin. rewrite Hp in Hin.
    apply list_elem_of_fmap in Hin as (t & -> & Hin). rewrite Forall_forall in Hall, Hf.
    specialize (Hall t Hin). specialize (Hf t Hin). cbn in Hf.
    unfold disjoint_slices, ScatterBuffer.overlaps in *. cbn in *. lia.
Qed.

(** An empty claim breaks the exclusion.  It may start where a claim that is not empty
    starts, and dropping it then releases the other one's range while its slice
    is still alive: the two slices left share every byte. *)
Theorem empty_claim_breaks_exclusion :
  exists b s, history (fun _ => True) 16 b [s; s] /\ 0 < slice_len s.
Proof.
  set (s := {| slice_offset := 4; slice_len := 8 |}).
  set (e := {| slice_offset := 4; slice_len := 0 |}).
  set (b1 := {| buffer_len := 16; claimed := [(4, 12)] |}).
  set (b2 := {| buffer_len := 16; claimed := [(4, 12); (4, 4)] |}).
  set (b3 := {| buffer_len := 16; claimed := [(4, 4)] |}).
  set (b4 := {| buffer_len := 16; claimed := [(4, 4); (4, 12)] |}).
  exists b4, s. split; [|done].
  apply (history_claim _ _ b3 [s] 4 8); [|done..].
  apply (history_drop _ _ b2 [] e [s]).
  apply (history_claim _ _ b1 [s] 4 0); [|done..].
  apply (history_claim _ _ (ScatterBuffer.new 16) [] 4 8); [|done..].
  constructor.
Qed.

(** An empty claim held strictly inside a range stops the range from being
    claimed, although an empty range overlaps nothing. *)
Theorem empty_claim_blocks :
  exists b, history (fun _ => True) 16 b [{| slice_offset := 5; slice_len := 0 |}] /\
    ScatterBuffer.claim b 4 4 = Err (WOverlap 4 4).
Proof.
  exists {| buffer_len := 16; claimed := [(5, 5)] |}. split; [|done].
  apply (history_claim _ _ (ScatterBuffer.new 16) [] 5 0); [|done..]. constructor.
Qed.
