(* ===== verification/Selection.v ===== *)
(** Selections and their normalisation: the first half of
    [aex-core/src/selection.rs] ([Index] to [resolve_slice], and the test for one
    contiguous run). *)
From S2P Require Import Prelude Errors.

(** ** Data *)

Inductive Index : Type :=
  | Single (i : Z)
  | Slice (start stop step : option Z)
  | Fancy (list : list Z)
  | Ellipsis
  | NewAxis.

#[export] Instance Index_eq_dec : EqDecision Index.
Proof. solve_decision. Defined.

(** The integers a client sends are [i64]s. *)
Definition is_opt_i64 (o : option Z) : Prop :=
  match o with Some z => is_i64 z | None => True end.
Definition index_wf (i : Index) : Prop :=
  match i with
  | Single i => is_i64 i
  | Slice start stop step => is_opt_i64 start /\ is_opt_i64 stop /\ is_opt_i64 step
  | Fancy l => Forall is_i64 l
  | Ellipsis | NewAxis => True
  end.

Module Index.
Definition full : Index := Slice None None None.
Definition range (start stop : Z) : Index := Slice (Some start) (Some stop) None.
Definition consumes_axis (i : Index) : bool :=
  match i with Ellipsis | NewAxis => false | _ => true end.
End Index.

Inductive AxisSel : Type :=
  | Point (i : Z)
  | Range (start len step : Z)
  | FancyAxis (list : list Z).

#[export] Instance AxisSel_eq_dec : EqDecision AxisSel.
Proof. solve_decision. Defined.

Module AxisSel.
Definition whole (dim : Z) : AxisSel := Range 0 dim 1.

Definition len (s : AxisSel) : Z :=
  match s with Point _ => 1 | Range _ len _ => len | FancyAxis l => zlen l end.

Definition is_empty (s : AxisSel) : bool := len s =? 0.

Definition out_len (s : AxisSel) : option Z :=
  match s with Point _ => None | other => Some (len other) end.

(** The run of consecutive ascending indices [s] selects, as (start, len). *)
Definition as_run (s : AxisSel) : option (Z * Z) :=
  match s with
  | Point index => Some (index, 1)
  | Range start len step =>
      if len =? 0 then Some (0, 0)
      else if len =? 1 then Some (start, 1)
      else if step =? 1 then Some (start, len)
      else None
  | FancyAxis [] => Some (0, 0)
  | FancyAxis (first :: rest) =>
      if forallb (fun '(i, index) => bool_decide (checked_add first (Z.of_nat i + 1) = Some index))
           (imap pair rest)
      then Some (first, zlen (first :: rest)) else None
  end.
End AxisSel.

Record Advanced : Type := {
  group_axes : list nat;
  group_len : Z;
  adjacent : bool;
}.

Record ResolvedSelection : Type := {
  axes : list AxisSel;
  out_shape : list Z;
  advanced : option Advanced;
}.

(** [out_shape.iter().product()]. *)
Definition num_elements (r : ResolvedSelection) : Z := foldl wmul 1 (out_shape r).

Inductive Entry : Type :=
  | EAxis (sel : AxisSel) (advanced : bool)
  | ENew.

(** ** Normalising one index *)

Definition normalize_index (i dim : Z) : result AexError Z :=
  let folded := if i <? 0 then i64_saturating_add i dim else i in
  if (folded <? 0) || (dim <=? folded) then Err BadSelection else Ok folded.

(** [i128] intermediates are exact: their operands are [i64]s. *)
Definition resolve_slice (start stop step : option Z) (dim : Z) : result AexError AxisSel :=
  let step := default 1 step in
  if step =? 0 then Err BadSelection
  else
    let '(lower, upper) := if 0 <? step then (0, dim) else (-1, dim - 1) in
    let clamp bound :=
      let folded := if bound <? 0 then i64_saturating_add bound dim else bound in
      Z.max lower (Z.min folded upper) in
    let start :=
      match start with
      | Some bound => clamp bound
      | None => if 0 <? step then 0 else dim - 1
      end in
    let stop :=
      match stop with
      | Some bound => clamp bound
      | None => if 0 <? step then dim else -1
      end in
    let distance := if 0 <? step then stop - start else start - stop in
    let len := if 0 <? distance then 1 + (distance - 1) / Z.abs step else 0 in
    if len =? 0 then Ok (Range 0 0 step)
    else Ok (Range (as_u64 start) (as_u64 len) step).

Definition resolve_axis (index : Index) (dim : Z) : result AexError AxisSel :=
  dim_i64 ← ok_or BadSelection (i64_try_from dim);
  match index with
  | Single i => Point <$> normalize_index i dim_i64
  | Fancy list => FancyAxis <$> mapM (fun i => normalize_index i dim_i64) list
  | Slice start stop step => resolve_slice start stop step dim_i64
  | Ellipsis | NewAxis => Panic
  end.

(** ** Normalising a selection *)

Record Scan : Type := { consuming : nat; has_ellipsis : bool; has_array : bool }.

(** The first pass of [expand]: count, and refuse a second ellipsis. *)
Fixpoint scan (indices : list Index) (st : Scan) : result AexError Scan :=
  match indices with
  | [] => Ok st
  | Ellipsis :: indices' =>
      if has_ellipsis st then Err BadSelection
      else scan indices' {| consuming := consuming st; has_ellipsis := true;
                            has_array := has_array st |}
  | other :: indices' =>
      scan indices'
        {| consuming := if Index.consumes_axis other then S (consuming st) else consuming st;
           has_ellipsis := has_ellipsis st;
           has_array := match other with Fancy _ => true | _ => has_array st end |}
  end.

(** The axes [axis .. axis + n) taken whole. *)
Definition whole_axes (shape : list Z) (axis n : nat) : result AexError (list Entry) :=
  mapM (fun a => dim ← expect (shape !! a); Ok (EAxis (AxisSel.whole dim) false)) (seq axis n).

(** Whether an index joins the advanced group. *)
Definition joins_group (has_array : bool) (index : Index) : bool :=
  has_array && match index with Single _ | Fancy _ => true | _ => false end.

(** The second pass of [expand], from [axis] on: the entries, and the axis reached. *)
Fixpoint expand_entries (shape : list Z) (implied : nat) (has_array : bool)
    (indices : list Index) (axis : nat) : result AexError (list Entry * nat) :=
  match indices with
  | [] => Ok ([], axis)
  | NewAxis :: indices' =>
      '(entries, axis) ← expand_entries shape implied has_array indices' axis;
      Ok (ENew :: entries, axis)
  | Ellipsis :: indices' =>
      whole ← whole_axes shape axis implied;
      '(entries, axis) ← expand_entries shape implied has_array indices' (axis + implied);
      Ok (whole ++ entries, axis)
  | other :: indices' =>
      dim ← expect (shape !! axis);
      sel ← resolve_axis other dim;
      '(entries, axis) ← expand_entries shape implied has_array indices' (S axis);
      Ok (EAxis sel (joins_group has_array other) :: entries, axis)
  end.

Definition expand (shape : list Z) (indices : list Index) : result AexError (list Entry) :=
  st ← scan indices {| consuming := 0; has_ellipsis := false; has_array := false |};
  if (length shape <? consuming st)%nat then Err BadSelection
  else
    let implied := (length shape - consuming st)%nat in
    '(entries, axis) ← expand_entries shape implied (has_array st) indices 0;
    if has_ellipsis st then Ok entries
    else rest ← whole_axes shape axis implied; Ok (entries ++ rest).

(** Broadcast the lengths of the index arrays; [acc] is the length so far. *)
Fixpoint broadcast_from (acc : Z) (lengths : list Z) : result AexError Z :=
  match lengths with
  | [] => Ok acc
  | len :: lengths' =>
      if len =? 1 then broadcast_from acc lengths'
      else if negb (acc =? 1) && negb (acc =? len) then Err BadSelection
      else broadcast_from len lengths'
  end.
Definition broadcast_len (lengths : list Z) : result AexError Z := broadcast_from 1 lengths.

Definition out_shape_of (entries : list Entry) (advanced : option Advanced) (first : option nat)
    : list Z :=
  match advanced with
  | Some g => if adjacent g then [] else [group_len g]
  | None => []
  end ++
  concat (imap (fun position entry =>
    match entry with
    | ENew => [1]
    | EAxis _ true =>
        match advanced with
        | Some g => if adjacent g && bool_decide (Some position = first) then [group_len g] else []
        | None => []
        end
    | EAxis sel false => match AxisSel.out_len sel with Some len => [len] | None => [] end
    end) entries).

(** What [resolve]'s loop over the entries gathers. *)
Record Collected : Type := {
  c_axes : list AxisSel;
  c_group : list nat;
  c_positions : list nat;
  c_lengths : list Z;
}.

(** The loop from [position] on, with [naxes] axes already pushed. *)
Fixpoint collect (entries : list Entry) (position naxes : nat) : Collected :=
  match entries with
  | [] => {| c_axes := []; c_group := []; c_positions := []; c_lengths := [] |}
  | ENew :: entries' => collect entries' (S position) naxes
  | EAxis sel advanced :: entries' =>
      let c := collect entries' (S position) (S naxes) in
      {| c_axes := sel :: c_axes c;
         c_group := if advanced then naxes :: c_group c else c_group c;
         c_positions := if advanced then position :: c_positions c else c_positions c;
         c_lengths :=
           match sel with
           | FancyAxis l => if advanced then zlen l :: c_lengths c else c_lengths c
           | _ => c_lengths c
           end |}
  end.

(** [positions.windows(2).all(|pair| pair[1] == pair[0] + 1)]. *)
Fixpoint consecutive (positions : list nat) : bool :=
  match positions with
  | p :: ((q :: _) as rest) => Nat.eqb q (S p) && consecutive rest
  | _ => true
  end.

Definition resolve (shape : list Z) (indices : list Index) : result AexError ResolvedSelection :=
  entries ← expand shape indices;
  let c := collect entries 0 0 in
  advanced ←
    (if bool_decide (c_group c = []) then Ok None
     else
       len ← broadcast_len (c_lengths c);
       Ok (Some {| group_axes := c_group c; group_len := len;
                   adjacent := consecutive (c_positions c) |}));
  Ok {| axes := c_axes c;
        out_shape := out_shape_of entries advanced (head (c_positions c));
        advanced := advanced |}.

(** ** One contiguous run *)

Definition walks_independently (r : ResolvedSelection) : result AexError bool :=
  match advanced r with
  | None => Ok true
  | Some g =>
      sels ← mapM (fun axis => expect (axes r !! axis)) (group_axes g);
      let walked := length (filter (fun s => 1 < AxisSel.len s) sels) in
      Ok (adjacent g && (walked <=? 1)%nat)
  end.

Definition u128 (z : Z) : Z := z mod 2 ^ 128.

(** Every axis past the first that takes more than one index takes all of its own. *)
Definition rest_whole (shape : list Z) (runs : list (Z * Z)) : bool :=
  match list_find (fun r : Z * Z => 1 < r.2) runs with
  | Some (first_multi, _) =>
      forallb (fun '(d, r) => (r.1 =? 0) && (r.2 =? d))
        (drop (S first_multi) (zip shape runs))
  | None => true
  end.

Definition contiguous_run (shape : list Z) (axes : list AxisSel) : option (Z * Z) :=
  runs ← mapM AxisSel.as_run axes;
  if existsb (fun r => r.2 =? 0) runs then Some (0, 0)
  else if rest_whole shape runs then
    let '(offset, len) :=
      foldl (fun '(offset, len) '(d, (start, run_len)) =>
               (u128 (u128 (offset * d) + start), u128 (len * run_len)))
        (0, 1) (zip shape runs) in
    if (offset <? two64) && (len <? two64) then Some (offset, len) else None
  else None.

(** ** What a slice selects *)

(** The positions one axis selection names, in order. *)
Definition positions (s : AxisSel) : list Z :=
  match s with
  | Point i => [i]
  | Range start len step => (fun k => start + k * step) <$> seqZ 0 len
  | FancyAxis l => l
  end.

(** Python's [range(start, stop, step)], counted out: a walk of at most [fuel] steps. *)
Fixpoint py_range (fuel : nat) (start stop step : Z) : list Z :=
  match fuel with
  | O => []
  | S fuel' =>
      if (if 0 <? step then start <? stop else stop <? start)
      then start :: py_range fuel' (start + step) stop step else []
  end.

(** The bounds Python's [slice.indices] computes on an axis of [dim] elements. *)
Definition py_bound (dim lower upper bound : Z) : Z :=
  if bound <? 0 then Z.max (bound + dim) lower else Z.min bound upper.
Definition py_slice (start stop step : option Z) (dim : Z) : list Z :=
  let step := default 1 step in
  let lower := if 0 <? step then 0 else -1 in
  let upper := if 0 <? step then dim else dim - 1 in
  let s := match start with
           | Some b => py_bound dim lower upper b
           | None => if 0 <? step then lower else upper end in
  let e := match stop with
           | Some b => py_bound dim lower upper b
           | None => if 0 <? step then upper else lower end in
  py_range (Z.to_nat (dim + 1)) s e step.

(** A step is an [i64], and never 0. *)
Definition step_ok (s : AxisSel) : Prop :=
  match s with Range _ _ step => is_i64 step /\ step <> 0 | _ => True end.

(** Every position a selection names is one its axis has. *)
Definition sel_ok (dim : Z) (s : AxisSel) : Prop :=
  Forall (fun i => 0 <= i < dim) (positions s) /\ 0 <= AxisSel.len s /\ step_ok s.

Lemma length_positions s : 0 <= AxisSel.len s -> zlen (positions s) = AxisSel.len s.
Proof. destruct s; cbn; intros; rewrite ?length_fmap, ?length_seqZ; lia. Qed.

Lemma normalize_index_ok i dim j :
  is_i64 i -> 0 <= dim < two63 ->
  (normalize_index i dim = Ok j <-> - dim <= i < dim /\ j = (if i <? 0 then i + dim else i)).
Proof.
  intros Hi Hd. unfold normalize_index, i64_saturating_add, is_i64 in *.
  destruct (Z.ltb_spec i 0); cbn zeta;
    destruct (_ || _) eqn:Hb; apply orb_true_iff in Hb || apply orb_false_iff in Hb;
    rewrite ?Z.ltb_lt, ?Z.ltb_ge, ?Z.leb_le, ?Z.leb_gt in Hb;
    (split; [intros [=]; lia | intros [? ->]]); try (f_equal; lia); exfalso; lia.
Qed.

Lemma normalize_index_no_panic i dim : normalize_index i dim <> Panic.
Proof. unfold normalize_index. cbn zeta. by destruct (_ || _). Qed.

(** How many steps of [step] a walk over [distance] makes. *)
Definition steps (distance step : Z) : Z :=
  if 0 <? distance then 1 + (distance - 1) / Z.abs step else 0.

Lemma steps_bound distance step :
  step <> 0 -> 0 <= steps distance step <= Z.max distance 0 /\
  (0 < steps distance step -> 0 < distance /\ (steps distance step - 1) * Z.abs step <= distance - 1).
Proof.
  intros Hs. unfold steps. destruct (Z.ltb_spec 0 distance); [|lia].
  div_mod (distance - 1) (Z.abs step).
  assert (0 <= (distance - 1) / Z.abs step) by (apply Z.div_pos; lia). nia.
Qed.

Lemma steps_succ distance step :
  step <> 0 -> 0 < distance -> steps distance step = 1 + steps (distance - Z.abs step) step.
Proof.
  intros Hs Hd. unfold steps. destruct (Z.ltb_spec 0 distance); [|lia].
  destruct (Z.ltb_spec 0 (distance - Z.abs step)).
  - replace (distance - 1) with ((distance - Z.abs step - 1) + 1 * Z.abs step) by lia.
    rewrite Z.div_add by lia. lia.
  - rewrite (Z.div_small (distance - 1)) by lia. lia.
Qed.

Lemma fmap_seqZ_succ {A} (f : Z -> A) n :
  0 <= n -> f <$> seqZ 0 (1 + n) = f 0 :: ((fun k => f (k + 1)) <$> seqZ 0 n).
Proof.
  intros Hn. rewrite seqZ_cons by lia. cbn [fmap list_fmap]. f_equal.
  replace (Z.succ 0) with (0 + 1) by lia. rewrite fmap_seqZ_shift. do 2 f_equal. lia.
Qed.

Lemma py_range_steps fuel s e step :
  step <> 0 ->
  let n := steps (if 0 <? step then e - s else s - e) step in
  n <= Z.of_nat fuel -> py_range fuel s e step = (fun k => s + k * step) <$> seqZ 0 n.
Proof.
  intros Hs. cbn zeta. revert s. induction fuel as [|fuel IH]; intros s Hn; cbn [py_range].
  - pose proof (proj1 (steps_bound (if 0 <? step then e - s else s - e) step Hs)).
    by rewrite seqZ_nil by lia.
  - destruct (if 0 <? step then s <? e else e <? s) eqn:Hgo.
    + assert (0 < (if 0 <? step then e - s else s - e)) as Hd by (destruct (0 <? step); lia).
      rewrite steps_succ in Hn |- * by done.
      replace ((if 0 <? step then e - s else s - e) - Z.abs step)
        with (if 0 <? step then e - (s + step) else (s + step) - e) in *
        by (destruct (Z.ltb_spec 0 step); lia).
      pose proof (proj1 (steps_bound (if 0 <? step then e - (s + step) else s + step - e) step Hs)).
      rewrite fmap_seqZ_succ, IH by lia. f_equal; [lia|].
      apply list_fmap_ext. intros; lia.
    + unfold steps. replace (0 <? _) with false by (destruct (0 <? step); lia). done.
Qed.

Lemma resolve_slice_spec start stop step dim :
  is_opt_i64 start -> is_opt_i64 stop -> is_opt_i64 step -> 0 <= dim < two63 ->
  match resolve_slice start stop step dim with
  | Ok s => default 1 step <> 0 /\ positions s = py_slice start stop step dim /\ sel_ok dim s /\
            exists a n, s = Range a n (default 1 step)
  | Err _ => default 1 step = 0
  | Panic => False
  end.
Proof.
  intros Ha Ho Hst Hdim. unfold resolve_slice, py_slice. cbn zeta.
  assert (is_i64 (default 1 step)) as Hsti by (destruct step; [done|cbn; unfold is_i64; lia]).
  set (st := default 1 step) in *. destruct (Z.eqb_spec st 0) as [|Hst0]; [done|].
  set (lower := if 0 <? st then 0 else -1). set (upper := if 0 <? st then dim else dim - 1).
  replace (if 0 <? st then (0, dim) else (-1, dim - 1)) with (lower, upper)
    by (unfold lower, upper; by destruct (0 <? st)).
  assert (forall b, is_i64 b ->
    Z.max lower (Z.min (if b <? 0 then i64_saturating_add b dim else b) upper)
    = py_bound dim lower upper b) as Hclamp.
  { intros b Hb. unfold py_bound, i64_saturating_add, is_i64, lower, upper in *.
    destruct (Z.ltb_spec b 0), (Z.ltb_spec 0 st); lia. }
  set (s := match start with Some b => py_bound dim lower upper b
            | None => if 0 <? st then lower else upper end).
  set (e := match stop with Some b => py_bound dim lower upper b
            | None => if 0 <? st then upper else lower end).
  replace (match start with Some bound => _ | None => _ end) with s; last first.
  { subst s. destruct start; [by rewrite Hclamp|]. unfold lower, upper. by destruct (0 <? st). }
  replace (match stop with Some bound => _ | None => _ end) with e; last first.
  { subst e. destruct stop; [by rewrite Hclamp|]. unfold lower, upper. by destruct (0 <? st). }
  assert (lower <= s <= upper /\ lower <= e <= upper) as [Hsr Her].
  { subst s e. unfold py_bound, lower, upper. destruct start, stop, (0 <? st); repeat case_match; lia. }
  clearbody s e. clear Hclamp.
  set (distance := if 0 <? st then e - s else s - e). fold (steps distance st).
  destruct (steps_bound distance st Hst0) as [Hn Hn1].
  assert (distance <= dim) by (unfold distance, lower, upper in *; destruct (0 <? st); lia).
  rewrite (py_range_steps (Z.to_nat (dim + 1)) s e st) by (done || fold distance; lia).
  fold distance. set (n := steps distance st) in *. clearbody n.
  assert (forall k, 0 <= k < n -> 0 <= s + k * st < dim) as Hin.
  { intros k Hk. destruct Hn1 as [Hd Hn1]; [lia|].
    unfold distance, lower, upper in *. destruct (Z.ltb_spec 0 st); nia. }
  destruct (Z.eqb_spec n 0) as [->|Hn0].
  - split; [done|]. split; [done|]. split; [|by eexists _, _].
    split; [constructor|]. split; [cbn; lia | by split].
  - assert (as_u64 s = s) as ->.
    { unfold as_u64. rewrite u64_id; [done|]. specialize (Hin 0). unfold is_u64. lia. }
    assert (as_u64 n = n) as ->.
    { unfold as_u64. rewrite u64_id; [done|]. unfold is_u64. lia. }
    split; [done|]. split; [done|]. split; [|by eexists _, _].
    split; [|split; [cbn; lia | by split]].
    cbn [positions]. apply Forall_fmap, Forall_forall. intros k [Hk1 Hk2]%elem_of_seqZ.
    cbn. apply Hin. lia.
Qed.

Lemma mapM_no_panic {E A B} (f : A -> result E B) l :
  (forall x, x ∈ l -> f x <> Panic) -> mapM f l <> Panic.
Proof.
  induction l as [|x l IH]; intros Hf; cbn; [done|].
  pose proof (Hf x ltac:(left)). destruct (f x); [|done..]. cbn.
  destruct (mapM f l) eqn:Hm; cbn; [done..|]. exfalso.
  apply IH; [|done]. intros y Hy. apply Hf. by right.
Qed.

Lemma resolve_axis_spec index dim :
  index_wf index -> Index.consumes_axis index = true -> 0 <= dim ->
  match resolve_axis index dim with
  | Ok s => sel_ok dim s /\
      match index, s with
      | Single _, Point _ | Slice _ _ _, Range _ _ _ | Fancy _, FancyAxis _ => True
      | _, _ => False
      end
  | Err _ => True
  | Panic => False
  end.
Proof.
  intros Hwf Hc Hdim. unfold resolve_axis, i64_try_from.
  case_decide as Hlt; [|done]. cbn [ok_or mbind result_bind].
  destruct index as [i|start stop step|l| |]; try done.
  - destruct (normalize_index i dim) as [j| |] eqn:Hn; cbn; [|done|by apply normalize_index_no_panic in Hn].
    apply normalize_index_ok in Hn as [Hi ->]; [|done|lia].
    split; [|done]. split; [|split; [cbn; lia|done]]. constructor; [|done].
    destruct (Z.ltb_spec i 0); lia.
  - destruct Hwf as (? & ? & ?).
    pose proof (resolve_slice_spec start stop step dim ltac:(done) ltac:(done) ltac:(done) ltac:(lia)) as H'.
    destruct (resolve_slice _ _ _ _) as [sel| |]; [|done..]. destruct H' as (_ & _ & Hok & a & n & ->). done.
  - destruct (mapM _ l) as [k| |] eqn:Hm; cbn; [|done|].
    + split; [|done]. split; [|split; [cbn; lia|done]]. apply mapM_ok in Hm. cbn [positions].
      cbn in Hwf. revert Hwf. induction Hm as [|i j l k Hij _ IH]; [constructor|].
      intros [Hi Hl]%Forall_cons. constructor; [|by apply IH].
      apply normalize_index_ok in Hij as [Hb ->]; [|done|lia]. destruct (Z.ltb_spec i 0); lia.
    + apply mapM_no_panic in Hm; [done|]. intros. apply normalize_index_no_panic.
Qed.

(** ** What [expand] yields *)

(** The entries that consume an axis, in axis order. *)
Fixpoint axis_entries (entries : list Entry) : list (AxisSel * bool) :=
  match entries with
  | [] => []
  | EAxis sel adv :: entries' => (sel, adv) :: axis_entries entries'
  | ENew :: entries' => axis_entries entries'
  end.

Lemma axis_entries_app e1 e2 : axis_entries (e1 ++ e2) = axis_entries e1 ++ axis_entries e2.
Proof. induction e1 as [|[sel adv|] e1 IH]; cbn; by rewrite ?IH. Qed.

(** One axis of an expanded selection: a valid selection of it, which belongs to
    the advanced group exactly when it is an index array or a plain integer
    alongside one. *)
Definition entry_ok (has_array : bool) (dim : Z) (e : AxisSel * bool) : Prop :=
  sel_ok dim e.1 /\
  match e.1 with
  | Range _ _ _ => e.2 = false
  | Point _ => e.2 = has_array
  | FancyAxis _ => e.2 = true /\ has_array = true
  end.

(** How many axes an index stands for. *)
Definition needed (implied : nat) (i : Index) : nat :=
  match i with NewAxis => 0 | Ellipsis => implied | _ => 1 end.
Fixpoint total_needed (implied : nat) (l : list Index) : nat :=
  match l with [] => 0 | i :: l' => needed implied i + total_needed implied l' end.

Lemma sel_ok_whole dim : 0 <= dim -> sel_ok dim (AxisSel.whole dim).
Proof.
  intros. split; [|by repeat split]. cbn. apply Forall_fmap, Forall_forall.
  intros k Hk%elem_of_seqZ. cbn. lia.
Qed.

Lemma drop_lookup {A} (l : list A) i x :
  l !! i = Some x -> drop i l = x :: drop (S i) l.
Proof. intros Hi. by rewrite <- (drop_S l x i). Qed.

Lemma whole_axes_spec ha shape axis n :
  Forall (fun d => 0 <= d) shape -> (axis + n <= length shape)%nat ->
  exists es seg, whole_axes shape axis n = Ok es /\
    drop axis shape = seg ++ drop (axis + n) shape /\ length seg = n /\
    Forall2 (entry_ok ha) seg (axis_entries es) /\ length es = n.
Proof.
  intros Hs. revert axis. induction n as [|n IH]; intros axis Hn.
  - exists [], []. rewrite Nat.add_0_r. repeat split; constructor.
  - destruct (lookup_lt_is_Some_2 shape axis) as [d Hd]; [lia|].
    destruct (IH (S axis)) as (es & seg & Hes & Hdrop & Hlen & Hf & Hle); [lia|].
    exists (EAxis (AxisSel.whole d) false :: es), (d :: seg).
    split.
    { unfold whole_axes in *. cbn [seq mapM]. rewrite Hd. cbn [expect mbind result_bind].
      by rewrite Hes. }
    split; [|split; [|split]]; cbn; [|lia| |lia].
    + rewrite (drop_lookup _ _ _ Hd), Hdrop. do 3 f_equal. lia.
    + constructor; [|done]. split; [|done]. apply sel_ok_whole.
      by eapply (Forall_lookup_1 (fun d => 0 <= d)).
Qed.

Lemma expand_entries_spec shape implied ha indices axis :
  Forall (fun d => 0 <= d) shape -> Forall index_wf indices ->
  (forall l, Fancy l ∈ indices -> ha = true) ->
  (axis + total_needed implied indices <= length shape)%nat ->
  match expand_entries shape implied ha indices axis with
  | Ok (es, axis') =>
      axis' = (axis + total_needed implied indices)%nat /\
      exists seg, drop axis shape = seg ++ drop axis' shape /\
        Forall2 (entry_ok ha) seg (axis_entries es)
  | Err _ => True
  | Panic => False
  end.
Proof.
  intros Hs. revert axis. induction indices as [|i indices IH]; intros axis Hwf Hfancy Hn.
  - cbn. split; [lia|]. exists []. by split; [|constructor].
  - apply Forall_cons in Hwf as [Hi Hwf]. cbn [total_needed] in Hn |- *.
    assert (forall l, Fancy l ∈ indices -> ha = true) as Hfancy'.
    { intros l Hl. apply (Hfancy l). by right. }
    specialize (fun axis => IH axis Hwf Hfancy').
    assert (Index.consumes_axis i = true ->
      match (dim ← expect (shape !! axis); sel ← resolve_axis i dim;
             '(entries, axis) ← expand_entries shape implied ha indices (S axis);
             Ok (EAxis sel (joins_group ha i) :: entries, axis)) with
      | Ok (es, axis') => axis' = (axis + (1 + total_needed implied indices))%nat /\
          exists seg, drop axis shape = seg ++ drop axis' shape /\
            Forall2 (entry_ok ha) seg (axis_entries es)
      | Err _ => True
      | Panic => False
      end) as Hother.
    { intros Hc. assert (needed implied i = 1%nat) as Hne by by destruct i.
      destruct (lookup_lt_is_Some_2 shape axis) as [d Hd]; [lia|].
      rewrite Hd. cbn [expect mbind result_bind].
      pose proof (Forall_lookup_1 _ _ _ _ Hs Hd) as Hd0. cbn in Hd0.
      pose proof (resolve_axis_spec i d Hi Hc Hd0) as Hr.
      destruct (resolve_axis i d) as [sel| |]; [|done..]. cbn [mbind result_bind].
      specialize (IH (S axis) ltac:(lia)).
      destruct (expand_entries _ _ _ _ (S axis)) as [[es axis']| |]; [|done..].
      destruct IH as (-> & seg & Hdrop & Hf). cbn. split; [lia|].
      exists (d :: seg). split; [by rewrite (drop_lookup _ _ _ Hd), Hdrop|].
      constructor; [|done]. destruct Hr as [Hok Hkind]. split; [done|]. cbn.
      unfold joins_group. destruct i, sel; try done; try (by rewrite andb_false_r || by rewrite andb_true_r).
      rewrite (Hfancy list) by left. done. }
    destruct i as [i|start stop step|l| |]; cbn [needed] in *; try (by apply Hother).
    + cbn [expand_entries].
      destruct (whole_axes_spec ha shape axis implied) as (es & seg & Hes & Hdrop & Hlen & Hf & _);
        [done | lia |]. rewrite Hes. cbn [mbind result_bind].
      specialize (IH (axis + implied)%nat ltac:(lia)).
      destruct (expand_entries _ _ _ _ _) as [[es' axis']| |]; [|done..].
      destruct IH as (-> & seg' & Hdrop' & Hf'). cbn. split; [lia|].
      exists (seg ++ seg'). rewrite <- app_assoc, <- Hdrop'. split; [done|].
      rewrite axis_entries_app. by apply Forall2_app.
    + cbn [expand_entries]. specialize (IH axis ltac:(lia)).
      destruct (expand_entries _ _ _ _ _) as [[es' axis']| |]; [|done..].
      destruct IH as (-> & seg' & Hdrop' & Hf'). cbn. split; [lia|]. by exists seg'.
Qed.

Lemma scan_spec indices st :
  match scan indices st with
  | Ok st' =>
      (forall implied, (consuming st' + (if has_ellipsis st' then implied else 0) =
        consuming st + (if has_ellipsis st then implied else 0) + total_needed implied indices)%nat) /\
      (has_array st = true -> has_array st' = true) /\
      (forall l, Fancy l ∈ indices -> has_array st' = true)
  | Err e => e = BadSelection
  | Panic => False
  end.
Proof.
  revert st. induction indices as [|i indices IH]; intros st; cbn [scan].
  - cbn. split; [lia|]. split; [done|]. intros l Hl. by apply not_elem_of_nil in Hl.
  - destruct i as [i|start stop step|l| |]; try (destruct (has_ellipsis st) eqn:He; [done|]);
      match goal with |- context [scan indices ?s] => specialize (IH s) end;
      (destruct (scan indices _) as [st'| |]; [|done..]); destruct IH as (H1 & H2 & H3);
      cbn [consuming has_ellipsis has_array Index.consumes_axis total_needed needed] in *;
      (split; [intros implied; specialize (H1 implied); rewrite ?He; lia|]);
      (split; [auto|]); intros l' [?|Hl]%elem_of_cons; simplify_eq; eauto.
Qed.

Lemma expand_spec shape indices :
  Forall (fun d => 0 <= d) shape -> Forall index_wf indices ->
  match expand shape indices with
  | Ok es => exists ha, Forall2 (entry_ok ha) shape (axis_entries es)
  | Err _ => True
  | Panic => False
  end.
Proof.
  intros Hs Hwf. unfold expand.
  pose proof (scan_spec indices {| consuming := 0; has_ellipsis := false; has_array := false |}) as Hscan.
  destruct (scan _ _) as [st| |]; [|done..]. cbn [mbind result_bind].
  destruct Hscan as (Hcount & _ & Hfancy). cbn [consuming has_ellipsis] in Hcount.
  destruct (Nat.ltb_spec (length shape) (consuming st)); [done|].
  set (implied := (length shape - consuming st)%nat). specialize (Hcount implied).
  pose proof (expand_entries_spec shape implied (has_array st) indices 0 Hs Hwf Hfancy) as He.
  destruct (has_ellipsis st).
  - specialize (He ltac:(lia)). destruct (expand_entries _ _ _ _ _) as [[es axis]| |]; [|done..].
    destruct He as (-> & seg & Hdrop & Hf). cbn. exists (has_array st).
    rewrite drop_0, (drop_ge shape), app_nil_r in Hdrop by lia. by subst.
  - specialize (He ltac:(lia)). destruct (expand_entries _ _ _ _ _) as [[es axis]| |]; [|done..].
    destruct He as (-> & seg & Hdrop & Hf). cbn [mbind result_bind].
    destruct (whole_axes_spec (has_array st) shape (0 + total_needed implied indices) implied)
      as (es' & seg' & -> & Hdrop' & _ & Hf' & _); [done | lia |].
    cbn [mbind result_bind]. exists (has_array st).
    rewrite axis_entries_app, <- (drop_0 shape), Hdrop, Hdrop', (drop_ge shape), app_nil_r by lia.
    by apply Forall2_app.
Qed.

(** C21: a slice selects what Python's does.  For any bounds and step a client can
    send, [resolve_slice] names exactly the positions [slice.indices] enumerates on the
    axis, each of them in range; the only slice refused has step 0. *)
Theorem slice_like_python start stop step dim :
  is_opt_i64 start -> is_opt_i64 stop -> is_opt_i64 step -> 0 <= dim < two63 ->
  match resolve_slice start stop step dim with
  | Ok s => default 1 step <> 0 /\ positions s = py_slice start stop step dim /\ sel_ok dim s
  | Err e => default 1 step = 0
  | Panic => False
  end.
Proof.
  intros Ha Ho Hst Hd. pose proof (resolve_slice_spec start stop step dim Ha Ho Hst Hd) as Hs.
  destruct (resolve_slice _ _ _ _); [|done..]. by destruct Hs as (? & ? & ? & _).
Qed.

Lemma slice_like_python_witness :
  default 1 (Some (-3)) <> 0 /\
  positions (Range 9 4 (-3)) = py_slice (Some 100) None (Some (-3)) 10 /\ sel_ok 10 (Range 9 4 (-3)).
Proof.
  refine (slice_like_python (Some 100) None (Some (-3)) 10 _ _ _ _); cbn; unfold is_i64; lia || done.
Defined.
