(* ===== verification/SelectionSpec.v ===== *)
(** What a resolved selection selects: the coordinates numpy visits, in result order,
    as a reference definition, and the facts about [resolve] the read path relies on. *)
From S2P Require Import Prelude Errors Selection.

(** ** The reference *)

Definition in_group (r : ResolvedSelection) (a : nat) : bool :=
  match advanced r with Some g => bool_decide (a ∈ group_axes g) | None => false end.

(** Each axis' selection, and whether it is walked in step with the advanced group. *)
Definition flags (r : ResolvedSelection) : list (AxisSel * bool) :=
  imap (fun a s => (s, in_group r a)) (axes r).

Definition glen (r : ResolvedSelection) : Z :=
  match advanced r with Some g => group_len g | None => 1 end.

(** The index a member of the group contributes at position [k] of the group: a
    scalar, or an array of one, is the same at every position. *)
Definition pick (s : AxisSel) (k : Z) : Z :=
  match s with
  | Point i => i
  | FancyAxis [i] => i
  | FancyAxis l => l !!! Z.to_nat k
  | Range start _ _ => start
  end.

(** The coordinates visited on the axes [fs], in C order of the result.  A free
    axis is a loop of its own; the first axis of the group opens the group's one
    loop, and the others follow its counter [k]. *)
Fixpoint walk (L : Z) (fs : list (AxisSel * bool)) (k : option Z) : list (list Z) :=
  match fs with
  | [] => [[]]
  | (s, false) :: fs' => i ← positions s; cons i <$> walk L fs' k
  | (s, true) :: fs' =>
      match k with
      | Some k => cons (pick s k) <$> walk L fs' (Some k)
      | None => k ← seqZ 0 L; cons (pick s k) <$> walk L fs' (Some k)
      end
  end.

(** A group whose members are not next to each other is the outermost loop. *)
Definition selected (r : ResolvedSelection) : list (list Z) :=
  match advanced r with
  | Some g =>
      if adjacent g then walk (group_len g) (flags r) None
      else k ← seqZ 0 (group_len g); walk (group_len g) (flags r) (Some k)
  | None => walk 1 (flags r) None
  end.

(** The source elements selected, in result order. *)
Definition elements (shape : list Z) (r : ResolvedSelection) : list Z :=
  ravel shape <$> selected r.

Fixpoint has_group (fs : list (AxisSel * bool)) : bool :=
  match fs with [] => false | f :: fs' => f.2 || has_group fs' end.

(** How many positions the axes outside the group make between them. *)
Fixpoint free_len (fs : list (AxisSel * bool)) : Z :=
  match fs with
  | [] => 1
  | (s, false) :: fs' => AxisSel.len s * free_len fs'
  | (_, true) :: fs' => free_len fs'
  end.

(** The numbers of the group's axes, the first of [fs] being axis [n]. *)
Fixpoint true_axes (fs : list (AxisSel * bool)) (n : nat) : list nat :=
  match fs with
  | [] => []
  | (_, true) :: fs' => n :: true_axes fs' (S n)
  | (_, false) :: fs' => true_axes fs' (S n)
  end.

(** What [resolve] guarantees to those who read through its result. *)
Record resolved_wf (shape : list Z) (r : ResolvedSelection) : Prop := {
  wf_axes : exists ha, Forall2 (entry_ok ha) shape (flags r);
  wf_len : 0 <= glen r;
  wf_fancy : forall l, (FancyAxis l, true) ∈ flags r -> zlen l = 1 \/ zlen l = glen r;
  wf_glen : glen r = 1 \/ (exists l, (FancyAxis l, true) ∈ flags r /\ zlen l = glen r);
  wf_group : has_group (flags r) = bool_decide (advanced r <> None);
  wf_group_axes : forall g, advanced r = Some g -> group_axes g = true_axes (flags r) 0;
  wf_adjacent : forall g, advanced r = Some g -> adjacent g = true ->
    exists f1 f2 f3, flags r = f1 ++ f2 ++ f3 /\
      has_group f1 = false /\ Forall (fun f => f.2 = true) f2 /\ has_group f3 = false;
  wf_shape : zprod (out_shape r) = glen r * free_len (flags r);
  wf_shape_pos : Forall (fun d => 0 <= d) (out_shape r);
}.

(** ** How many elements *)

Lemma length_mbind_const {A B} (f : A -> list B) (l : list A) c :
  (forall x, x ∈ l -> zlen (f x) = c) -> zlen (l ≫= f) = zlen l * c.
Proof.
  induction l as [|x l IH]; intros Hf; [done|].
  rewrite bind_cons, length_app, Nat2Z.inj_add, IH, Hf; [cbn; lia | left |].
  intros y Hy. apply Hf. by right.
Qed.

Definition lens_ok (fs : list (AxisSel * bool)) : Prop := Forall (fun f => 0 <= AxisSel.len f.1) fs.

Lemma entry_lens_ok ha shape fs : Forall2 (entry_ok ha) shape fs -> lens_ok fs.
Proof. induction 1 as [|d f shape fs [(_ & ? & _) _] _ IH]; constructor; done. Qed.

Lemma free_len_nonneg fs : lens_ok fs -> 0 <= free_len fs.
Proof. induction 1 as [|[s []] fs ? _ IH]; cbn in *; nia. Qed.

Lemma length_walk L fs k :
  0 <= L -> lens_ok fs ->
  zlen (walk L fs k) = match k with
                       | Some _ => free_len fs
                       | None => (if has_group fs then L else 1) * free_len fs
                       end.
Proof.
  intros HL Hfs. revert k. induction Hfs as [|[s b] fs Hs _ IH]; intros k; cbn in *.
  - by destruct k.
  - destruct b; cbn.
    + destruct k as [k|].
      * rewrite length_fmap. apply IH.
      * erewrite length_mbind_const; [|intros x _; rewrite length_fmap; apply IH].
        rewrite zlen_seqZ by done. cbn. lia.
    + erewrite length_mbind_const; [|intros x _; rewrite length_fmap; apply IH].
      rewrite length_positions by done. destruct k; cbn; [done|]. destruct (has_group fs); cbn; lia.
Qed.

Lemma length_selected shape r :
  resolved_wf shape r -> zlen (selected r) = zprod (out_shape r).
Proof.
  intros Hw. rewrite (wf_shape _ _ Hw). destruct (wf_axes _ _ Hw) as [ha Ha].
  pose proof (entry_lens_ok _ _ _ Ha) as Hl. pose proof (wf_len _ _ Hw) as HL.
  pose proof (wf_group _ _ Hw) as Hg.
  unfold selected, glen in *. destruct (advanced r) as [g|].
  - rewrite bool_decide_true in Hg by done. destruct (adjacent g).
    + by rewrite length_walk, Hg.
    + erewrite length_mbind_const; [|intros x _; by apply length_walk].
      rewrite zlen_seqZ; lia.
  - rewrite bool_decide_false in Hg by naive_solver. by rewrite length_walk, Hg by done || lia.
Qed.

(** ** What the loop of [resolve] gathers *)

Fixpoint fancy_lens (fs : list (AxisSel * bool)) : list Z :=
  match fs with
  | [] => []
  | (FancyAxis l, true) :: fs' => zlen l :: fancy_lens fs'
  | _ :: fs' => fancy_lens fs'
  end.

Lemma collect_spec es p n :
  c_axes (collect es p n) = (axis_entries es).*1 /\
  c_group (collect es p n) = true_axes (axis_entries es) n /\
  c_lengths (collect es p n) = fancy_lens (axis_entries es).
Proof.
  revert p n. induction es as [|[s b|] es IH]; intros p n; cbn; [done| |apply IH].
  destruct (IH (S p) (S n)) as (-> & -> & ->). split; [done|]. split; [by destruct b|].
  destruct s, b; done.
Qed.

Lemma elem_of_true_axes fs n a :
  a ∈ true_axes fs n <-> exists i s, a = (n + i)%nat /\ fs !! i = Some (s, true).
Proof.
  revert n. induction fs as [|[s b] fs IH]; intros n; cbn.
  - rewrite elem_of_nil. split; [done|]. by intros (i & s & _ & ?).
  - assert ((exists i s0, a = (S n + i)%nat /\ fs !! i = Some (s0, true)) <->
            exists i s0, a = (n + S i)%nat /\ ((s, b) :: fs) !! (S i) = Some (s0, true)) as Hsh.
    { cbn. split; intros (i & s0 & -> & ?); exists i, s0; (split; [lia|done]). }
    destruct b; rewrite ?elem_of_cons, IH, Hsh; clear IH Hsh.
    + split.
      * intros [->|(i & s0 & ? & ?)]; [exists 0%nat, s; split; [lia|done] | by exists (S i), s0].
      * intros ([|i] & s0 & -> & ?); [left; lia | right; by exists i, s0].
    + split.
      * intros (i & s0 & ? & ?). by exists (S i), s0.
      * intros ([|i] & s0 & -> & ?); [done | by exists i, s0].
Qed.

Lemma imap_fmap_fst fs (q : nat -> bool) :
  (forall i s b, fs !! i = Some (s, b) -> q i = b) ->
  imap (fun a (s : AxisSel) => (s, q a)) fs.*1 = fs.
Proof.
  intros Hq. apply list_eq. intros i. rewrite list_lookup_imap, list_lookup_fmap.
  destruct (fs !! i) as [[s b]|] eqn:Hi; cbn; [|done]. by rewrite (Hq _ _ _ Hi).
Qed.

Lemma true_axes_nil fs n : true_axes fs n = [] <-> has_group fs = false.
Proof.
  revert n. induction fs as [|[s b] fs IH]; intros n; cbn; [done|]. destruct b; cbn; [|apply IH].
  split; intros [=].
Qed.

Lemma broadcast_from_spec acc lens L :
  broadcast_from acc lens = Ok L ->
  (acc = 1 \/ acc = L) /\ Forall (fun n => n = 1 \/ n = L) lens /\ (L = acc \/ L ∈ lens).
Proof.
  revert acc. induction lens as [|n lens IH]; intros acc; cbn [broadcast_from].
  - intros [= ->]. split; [by right|]. split; [constructor | by left].
  - destruct (Z.eqb_spec n 1) as [->|Hn].
    + intros H. apply IH in H as (Ha & Hf & HL). split; [done|]. split; [constructor; [by left|done]|].
      destruct HL; [by left|right; by right].
    + destruct (Z.eqb_spec acc 1) as [->|Ha]; cbn [negb andb].
      * intros H. apply IH in H as (Ha & Hf & HL). split; [by left|].
        split; [constructor; [naive_solver|done]|]. right.
        destruct HL as [->|]; [left | by right].
      * destruct (Z.eqb_spec acc n) as [->|Hb]; cbn [negb]; [|done].
        intros H. apply IH in H as (Hc & Hf & HL). split; [naive_solver|].
        split; [constructor; [naive_solver|done]|]. destruct HL; [by left | right; by right].
Qed.

Lemma broadcast_from_no_panic acc lens : broadcast_from acc lens <> Panic.
Proof.
  revert acc. induction lens as [|n lens IH]; intros acc; cbn [broadcast_from]; [done|].
  destruct (n =? 1); [done|]. by destruct (_ && _).
Qed.

(** ** The shape of the result *)

(** What one entry adds to the output shape. *)
Definition entry_shape (advanced : option Advanced) (first : option nat) (position : nat)
    (entry : Entry) : list Z :=
  match entry with
  | ENew => [1]
  | EAxis _ true =>
      match advanced with
      | Some g => if adjacent g && bool_decide (Some position = first) then [group_len g] else []
      | None => []
      end
  | EAxis sel false => match AxisSel.out_len sel with Some len => [len] | None => [] end
  end.

Definition entries_shape advanced first (p : nat) (es : list Entry) : list Z :=
  concat (imap (fun i => entry_shape advanced first (p + i)) es).

Lemma entries_shape_cons advanced first p e es :
  entries_shape advanced first p (e :: es) =
  entry_shape advanced first p e ++ entries_shape advanced first (S p) es.
Proof.
  unfold entries_shape. rewrite imap_cons. cbn. rewrite Nat.add_0_r. do 2 f_equal.
  apply imap_ext. intros i x _. cbn. f_equal. lia.
Qed.

Lemma zprod_out_len s : zprod (match AxisSel.out_len s with Some len => [len] | None => [] end) = AxisSel.len s.
Proof. destruct s; cbn; lia. Qed.

Lemma entries_shape_after advanced q p es :
  (q < p)%nat -> zprod (entries_shape advanced (Some q) p es) = free_len (axis_entries es).
Proof.
  revert p. induction es as [|[s []|] es IH]; intros p Hq; [done|..];
    rewrite entries_shape_cons, zprod_app, IH by lia; cbn.
  - destruct advanced as [g|]; [|cbn; lia].
    rewrite bool_decide_false, andb_false_r by (intros [=]; lia). cbn; lia.
  - rewrite zprod_out_len. done.
  - lia.
Qed.

Lemma entries_shape_prod g p n es :
  zprod (entries_shape (Some g) (head (c_positions (collect es p n))) p es) =
  (if adjacent g && has_group (axis_entries es) then group_len g else 1) * free_len (axis_entries es).
Proof.
  revert p n. induction es as [|[s []|] es IH]; intros p n.
  - cbn. by rewrite andb_false_r.
  - rewrite entries_shape_cons, zprod_app. cbn. rewrite entries_shape_after by lia.
    rewrite bool_decide_true by done. rewrite !andb_true_r. destruct (adjacent g); cbn; lia.
  - rewrite entries_shape_cons, zprod_app. cbn. rewrite IH, zprod_out_len.
    destruct (adjacent g && has_group _); lia.
  - rewrite entries_shape_cons, zprod_app. cbn. rewrite IH. lia.
Qed.

Lemma entries_shape_none first p es :
  zprod (entries_shape None first p es) = free_len (axis_entries es).
Proof.
  revert p. induction es as [|[s []|] es IH]; intros p; [done|..];
    rewrite entries_shape_cons, zprod_app, IH; cbn; rewrite ?zprod_out_len; lia.
Qed.

Lemma entries_shape_nonneg advanced first p es :
  (forall g, advanced = Some g -> 0 <= group_len g) -> lens_ok (axis_entries es) ->
  Forall (fun d => 0 <= d) (entries_shape advanced first p es).
Proof.
  intros Hg. revert p. induction es as [|[s b|] es IH]; intros p Hl; [constructor|..];
    rewrite entries_shape_cons; apply Forall_app; cbn in Hl.
  - apply Forall_cons in Hl as [Hs Hl]. split; [|by apply IH]. destruct b; cbn.
    + destruct advanced as [g|]; [|done]. destruct (_ && _); [|done].
      constructor; [by apply Hg | done].
    + destruct s; cbn in *; by repeat constructor.
  - split; [cbn; by repeat constructor | by apply IH].
Qed.

(** ** Next to each other *)

Lemma c_positions_ge es p n : Forall (fun q => (p <= q)%nat) (c_positions (collect es p n)).
Proof.
  revert p n. induction es as [|[s b|] es IH]; intros p n; cbn; [done|..].
  - specialize (IH (S p) (S n)).
    assert (Forall (fun q => (p <= q)%nat) (c_positions (collect es (S p) (S n)))).
    { eapply Forall_impl; [exact IH|]. cbn. lia. }
    destruct b; [constructor; [lia|]|]; done.
  - eapply Forall_impl; [apply IH|]. cbn. lia.
Qed.

Lemma c_positions_nil es p n : c_positions (collect es p n) = [] -> has_group (axis_entries es) = false.
Proof.
  revert p n. induction es as [|[s b|] es IH]; intros p n; cbn; [done|..|apply IH].
  destruct b; [done|apply IH].
Qed.

Lemma adjacent_after es p n :
  consecutive (p :: c_positions (collect es (S p) n)) = true ->
  exists f2 f3, axis_entries es = f2 ++ f3 /\ Forall (fun f => f.2 = true) f2 /\ has_group f3 = false.
Proof.
  revert p n. induction es as [|e es IH]; intros p n Hc; [by exists [], []|].
  assert (match e with EAxis _ true => False | _ => True end ->
    c_positions (collect (e :: es) (S p) n) = [] ->
    exists f2 f3, axis_entries (e :: es) = f2 ++ f3 /\ Forall (fun f => f.2 = true) f2 /\
      has_group f3 = false) as Hnone.
  { intros _ Hn. exists [], (axis_entries (e :: es)). split; [done|]. split; [done|].
    by apply c_positions_nil in Hn. }
  destruct e as [s [] |]; cbn [collect c_positions] in *.
  - change (Nat.eqb (S p) (S p) &&
      consecutive (S p :: c_positions (collect es (S (S p)) (S n))) = true) in Hc.
    apply andb_true_iff in Hc as [_ Hc]. apply IH in Hc as (f2 & f3 & He & Hf2 & Hf3).
    exists ((s, true) :: f2), f3. cbn. rewrite He. split; [done|]. split; [by constructor|done].
  - pose proof (c_positions_ge es (S (S p)) (S n)) as Hge.
    destruct (c_positions (collect es (S (S p)) (S n))) as [|q l] eqn:Hl; [by apply Hnone|].
    apply Forall_cons in Hge as [Hq _]. exfalso.
    change (Nat.eqb q (S p) && consecutive (q :: l) = true) in Hc.
    apply andb_true_iff in Hc as [Hc%Nat.eqb_eq _]. lia.
  - pose proof (c_positions_ge es (S (S p)) n) as Hge.
    destruct (c_positions (collect es (S (S p)) n)) as [|q l] eqn:Hl; [by apply Hnone|].
    apply Forall_cons in Hge as [Hq _]. exfalso.
    change (Nat.eqb q (S p) && consecutive (q :: l) = true) in Hc.
    apply andb_true_iff in Hc as [Hc%Nat.eqb_eq _]. lia.
Qed.

Lemma adjacent_split es p n :
  consecutive (c_positions (collect es p n)) = true ->
  exists f1 f2 f3, axis_entries es = f1 ++ f2 ++ f3 /\
    has_group f1 = false /\ Forall (fun f => f.2 = true) f2 /\ has_group f3 = false.
Proof.
  revert p n. induction es as [|[s [] |] es IH]; intros p n Hc; cbn in Hc |- *.
  - by exists [], [], [].
  - apply adjacent_after in Hc as (f2 & f3 & -> & ? & ?).
    exists [], ((s, true) :: f2), f3. split; [done|]. split; [done|]. split; [by constructor|done].
  - apply IH in Hc as (f1 & f2 & f3 & -> & ? & ? & ?). by exists ((s, false) :: f1), f2, f3.
  - by eapply IH.
Qed.

(** ** What [resolve] guarantees *)

Lemma elem_of_fancy_lens fs l : (FancyAxis l, true) ∈ fs -> zlen l ∈ fancy_lens fs.
Proof.
  induction fs as [|f fs IH]; [by intros ?%elem_of_nil|].
  intros [<-|Hin]%elem_of_cons; [left|]. apply IH in Hin.
  destruct f as [[i|a n st|l'] []]; cbn; try done. by right.
Qed.

Lemma fancy_lens_elem fs n : n ∈ fancy_lens fs -> exists l, (FancyAxis l, true) ∈ fs /\ zlen l = n.
Proof.
  induction fs as [|f fs IH]; [by intros ?%elem_of_nil|].
  assert (n ∈ fancy_lens fs -> exists l, (FancyAxis l, true) ∈ f :: fs /\ zlen l = n) as Hrec.
  { intros (l & ? & ?)%IH. exists l. split; [by right|done]. }
  destruct f as [[i|a m st|l'] []]; cbn; try done.
  intros [->|Hin]%elem_of_cons; [exists l'; split; [left|done] | by apply Hrec].
Qed.

Lemma in_group_flags (fs : list (AxisSel * bool)) :
  imap (fun a s => (s, bool_decide (a ∈ true_axes fs 0))) fs.*1 = fs.
Proof.
  apply imap_fmap_fst. intros i s b Hi. destruct b.
  - apply bool_decide_true, elem_of_true_axes. by exists i, s.
  - apply bool_decide_false. rewrite elem_of_true_axes. intros (j & s' & -> & Hj). cbn in *. congruence.
Qed.

Lemma flags_none (fs : list (AxisSel * bool)) :
  has_group fs = false -> imap (fun _ s => (s, false)) fs.*1 = fs.
Proof.
  intros Hg. apply (imap_fmap_fst fs (fun _ => false)). intros i s b Hi. revert i Hi.
  induction fs as [|[s' b'] fs IH]; intros i Hi; [done|]. cbn in Hg. apply orb_false_iff in Hg as [-> Hg].
  destruct i as [|i]; cbn in Hi; [by simplify_eq | by eapply IH].
Qed.

Lemma out_shape_of_eq es adv first :
  out_shape_of es adv first =
  match adv with Some g => if adjacent g then [] else [group_len g] | None => [] end ++
  entries_shape adv first 0 es.
Proof. done. Qed.

Lemma resolve_spec shape indices :
  Forall (fun d => 0 <= d) shape -> Forall index_wf indices ->
  match resolve shape indices with
  | Ok r => resolved_wf shape r
  | Err _ => True
  | Panic => False
  end.
Proof.
  intros Hs Hwf. unfold resolve. pose proof (expand_spec shape indices Hs Hwf) as He.
  destruct (expand shape indices) as [es| |]; [|done..]. destruct He as [ha Hes].
  cbn [mbind result_bind]. destruct (collect_spec es 0 0) as (Hax & Hgr & Hle).
  pose proof (entry_lens_ok _ _ _ Hes) as Hlens.
  set (fs := axis_entries es) in *. case_bool_decide as Hnil.
  - (* no group *)
    rewrite Hgr, true_axes_nil in Hnil. cbn [mbind result_bind].
    match goal with |- resolved_wf _ ?r => assert (flags r = fs) as Hfl end.
    { unfold flags, in_group. cbn. rewrite Hax. by apply flags_none. }
    split; rewrite ?Hfl; cbn [advanced glen]; try done.
    + by exists ha.
    + intros l Hl. exfalso. clear -Hl Hnil. induction fs as [|f fs IH]; [by apply elem_of_nil in Hl|].
      cbn in Hnil. apply orb_false_iff in Hnil as [Hf Hnil].
      apply elem_of_cons in Hl as [<-|Hl]; [done|]. by apply IH.
    + by left.
    + cbn [out_shape]. rewrite out_shape_of_eq. cbn. rewrite entries_shape_none. unfold glen. cbn. fold fs. lia.
    + cbn [out_shape]. rewrite out_shape_of_eq. cbn. by apply entries_shape_nonneg.
  - (* a group *)
    destruct (broadcast_len _) as [L| |] eqn:HL; [|done|by apply broadcast_from_no_panic in HL].
    cbn [mbind result_bind].
    match goal with |- resolved_wf _ ?r => assert (flags r = fs) as Hfl end.
    { unfold flags, in_group. cbn. rewrite Hax, Hgr. apply in_group_flags. }
    apply broadcast_from_spec in HL as (_ & Hall & HL). rewrite Hle in Hall, HL.
    assert (0 <= L) as HL0.
    { destruct HL as [->|HL]; [lia|]. apply fancy_lens_elem in HL as (l & _ & <-). lia. }
    assert (has_group fs = true) as Hgt.
    { destruct (has_group fs) eqn:Hg; [done|]. rewrite Hgr, true_axes_nil in Hnil. congruence. }
    split; rewrite ?Hfl; unfold glen; cbn [advanced group_len group_axes adjacent]; try done.
    + by exists ha.
    + intros l Hl. apply elem_of_fancy_lens in Hl. rewrite Forall_forall in Hall. by apply Hall.
    + destruct HL as [HL|HL]; [by left|right]. by apply fancy_lens_elem.
    + by intros g [= <-].
    + intros g [= <-]. cbn. intros Hadj. by apply adjacent_split in Hadj.
    + cbn [out_shape]. rewrite out_shape_of_eq, zprod_app, entries_shape_prod. cbn. fold fs. rewrite Hgt, andb_true_r.
      destruct (consecutive _); cbn; lia.
    + cbn [out_shape]. rewrite out_shape_of_eq. apply Forall_app. split.
      * cbn. destruct (consecutive _); by repeat constructor.
      * apply entries_shape_nonneg; [|done]. by intros g [= <-].
Qed.

(** ** Every element selected is one the array has *)

Lemma elem_positions_bound ha d f x : entry_ok ha d f -> x ∈ positions f.1 -> 0 <= x < d.
Proof. intros [[Hf _] _] Hx. rewrite Forall_forall in Hf. by apply Hf. Qed.

Lemma pick_elem ha d s L k :
  entry_ok ha d (s, true) ->
  (forall l, s = FancyAxis l -> zlen l = 1 \/ zlen l = L) -> 0 <= k < L -> pick s k ∈ positions s.
Proof.
  intros [_ Hk] Hl Hkl. destruct s as [i|a n st|l]; [by left|done|]. cbn.
  assert (l !!! Z.to_nat k ∈ l \/ zlen l = 1) as Hor.
  { destruct (Hl l eq_refl) as [?|Hlen]; [by right|left].
    apply list_elem_of_lookup_total_2. lia. }
  destruct l as [|x [|y l]]; cbn in Hor |- *; [|by left|].
  - by destruct Hor.
  - destruct Hor as [|]; [done|lia].
Qed.

Lemma walk_in_shape ha shape L fs k c :
  Forall2 (entry_ok ha) shape fs ->
  (forall l, (FancyAxis l, true) ∈ fs -> zlen l = 1 \/ zlen l = L) ->
  (forall j, k = Some j -> 0 <= j < L) ->
  c ∈ walk L fs k -> in_shape shape c.
Proof.
  intros Hf. revert k c. induction Hf as [|d [s b] shape fs Hd _ IH]; intros k c Hl Hk Hc; cbn in Hc.
  - apply list_elem_of_singleton in Hc as ->. constructor.
  - assert (forall l, (FancyAxis l, true) ∈ fs -> zlen l = 1 \/ zlen l = L) as Hl'.
    { intros l ?. apply Hl. by right. }
    assert (forall j c, b = true -> 0 <= j < L -> c ∈ cons (pick s j) <$> walk L fs (Some j) ->
      in_shape (d :: shape) c) as Hpick.
    { intros j c' -> Hj (c0 & -> & Hc0)%list_elem_of_fmap. constructor.
      - apply (elem_positions_bound ha d (s, true)); [done|]. cbn.
        apply (pick_elem ha d s L j Hd); [|done]. intros l ->. apply Hl. left.
      - eapply (IH (Some j)); [done| |done]. by intros ? [= <-]. }
    destruct b.
    + destruct k as [j|].
      * eapply Hpick; [done| |done]. by apply Hk.
      * apply list_elem_of_bind in Hc as (j & Hc & Hj%elem_of_seqZ).
        eapply Hpick; [done| |done]. lia.
    + apply list_elem_of_bind in Hc as (i & (c0 & -> & Hc0)%list_elem_of_fmap & Hi). constructor.
      * by eapply (elem_positions_bound ha d (s, false)).
      * by eapply IH.
Qed.

Lemma selected_in_shape shape r c : resolved_wf shape r -> c ∈ selected r -> in_shape shape c.
Proof.
  intros Hw Hc. destruct (wf_axes _ _ Hw) as [ha Ha]. pose proof (wf_fancy _ _ Hw) as Hfa.
  unfold selected, glen in *. destruct (advanced r) as [g|].
  - destruct (adjacent g).
    + by eapply (walk_in_shape ha _ _ _ None).
    + apply list_elem_of_bind in Hc as (k & Hc & Hk%elem_of_seqZ).
      eapply walk_in_shape; [done..| |done]. intros j [= <-]. lia.
  - by eapply (walk_in_shape ha _ _ _ None).
Qed.

Lemma elements_range shape r x :
  resolved_wf shape r -> x ∈ elements shape r -> 0 <= x < zprod shape.
Proof.
  intros Hw (c & -> & Hc)%list_elem_of_fmap. apply ravel_range. by eapply selected_in_shape.
Qed.

Lemma length_elements shape r : resolved_wf shape r -> zlen (elements shape r) = zprod (out_shape r).
Proof. intros. unfold elements. rewrite length_fmap. by apply (length_selected shape). Qed.

Lemma free_len_zero fs s : (s, false) ∈ fs -> AxisSel.len s = 0 -> free_len fs = 0.
Proof.
  intros Hin Hs. induction fs as [|[s' b] fs IH]; [by apply elem_of_nil in Hin|].
  apply elem_of_cons in Hin as [[= <- <-]|Hin]; cbn.
  - rewrite Hs. lia.
  - rewrite IH by done. destruct b; lia.
Qed.

Lemma flags_fst r : (flags r).*1 = axes r.
Proof.
  unfold flags. apply list_eq. intros i. rewrite list_lookup_fmap, list_lookup_imap.
  by destruct (axes r !! i).
Qed.
