(* ===== verification/Contiguous.v ===== *)
(** One contiguous run: when [contiguous_run] answers, the run it names is exactly the
    elements the selection visits, in order. *)
From S2P Require Import Prelude Errors Selection SelectionSpec.

(** ** Axes walked independently *)

(** Every axis a loop of its own. *)
Fixpoint product (sels : list AxisSel) : list (list Z) :=
  match sels with
  | [] => [[]]
  | s :: sels' => i ← positions s; cons i <$> product sels'
  end.

Lemma walk_no_group L fs k : has_group fs = false -> walk L fs k = product fs.*1.
Proof.
  induction fs as [|[s b] fs IH]; intros Hg; [done|]. cbn in Hg.
  apply orb_false_iff in Hg as [-> Hg]. cbn. by rewrite (IH Hg).
Qed.

Lemma walk_free_prefix L f1 f2 k :
  has_group f1 = false -> walk L f2 k = product f2.*1 -> walk L (f1 ++ f2) k = product (f1 ++ f2).*1.
Proof.
  intros Hg H2. induction f1 as [|[s b] f1 IH]; [done|]. cbn in Hg.
  apply orb_false_iff in Hg as [-> Hg]. cbn. by rewrite (IH Hg).
Qed.

(** How many of [fs] take more than one index. *)
Definition walked (fs : list (AxisSel * bool)) : nat :=
  length (filter (fun f => 1 < AxisSel.len f.1) fs).

Definition group_ok (L : Z) (fs : list (AxisSel * bool)) : Prop :=
  Forall (fun f => f.2 = true /\ match f.1 with
                                 | Range _ _ _ => False
                                 | Point _ => True
                                 | FancyAxis l => zlen l = 1 \/ zlen l = L
                                 end) fs.

Lemma pick_single s k :
  AxisSel.len s = 1 -> match s with Range _ _ _ => False | _ => True end -> positions s = [pick s k].
Proof. destruct s as [i|a n st|[|x [|y l]]]; cbn; intros ??; done || lia. Qed.

Lemma walk_singles L f2 f3 k :
  group_ok L f2 -> Forall (fun f => AxisSel.len f.1 = 1) f2 -> has_group f3 = false ->
  walk L (f2 ++ f3) (Some k) = product (f2 ++ f3).*1.
Proof.
  intros Hg Hone H3. induction Hg as [|[s b] f2 [Hb Hs] Hg IH]; cbn in *; [by apply walk_no_group|].
  subst b. apply Forall_cons in Hone as [Hone1 Hone]. rewrite (IH Hone).
  rewrite (pick_single s k); [|done|by destruct s]. cbn. by rewrite app_nil_r.
Qed.

Lemma list_as_lookups (l : list Z) : l = (fun k => l !!! Z.to_nat k) <$> seqZ 0 (zlen l).
Proof.
  apply list_eq. intros i. rewrite list_lookup_fmap.
  destruct (decide (i < length l)%nat) as [Hi|Hi].
  - rewrite lookup_seqZ_lt by lia. cbn. rewrite Z.add_0_l, Nat2Z.id.
    by apply list_lookup_lookup_total_lt.
  - rewrite lookup_ge_None_2, lookup_seqZ_ge by lia. done.
Qed.

Lemma walk_group_loop L f2 f3 :
  group_ok L f2 -> Forall (fun f => 1 <= AxisSel.len f.1) f2 -> has_group f3 = false ->
  (walked f2 <= 1)%nat -> (walked f2 = 0%nat -> L = 1) ->
  (k ← seqZ 0 L; walk L (f2 ++ f3) (Some k)) = product (f2 ++ f3).*1.
Proof.
  intros Hg Hpos H3 Hw1 Hw0. induction Hg as [|[s b] f2 [Hb Hs] Hg IH].
  - rewrite Hw0 by done. change (seqZ 0 1) with [0]. rewrite bind_cons, app_nil_r.
    by apply walk_no_group.
  - unfold walked in *. rewrite filter_cons in Hw1, Hw0. cbn [fst snd] in *. subst b. apply Forall_cons in Hpos as [Hs1 Hpos]. cbn [fst snd] in Hs1. cbn [app walk fmap list_fmap product fst].
    case_decide as Hgt; cbn in Hgt, Hw1, Hw0.
    + (* the one axis walked *)
      assert (Forall (fun f => AxisSel.len f.1 = 1) f2) as Hone.
      { apply Forall_forall. intros f Hf. rewrite Forall_forall in Hpos.
        pose proof (Hpos f Hf). destruct (decide (1 < AxisSel.len f.1)) as [Hlt|]; [|lia].
        exfalso. assert (f ∈ filter (fun f => 1 < AxisSel.len f.1) f2) as Hin
          by by apply list_elem_of_filter.
        destruct (filter _ f2); [by apply elem_of_nil in Hin | cbn in Hw1; lia]. }
      destruct s as [i|a n st|l]; cbn in Hgt; [lia|done|]. cbn [positions].
      assert (zlen l = L) as <- by lia.
      match goal with |- _ = mbind ?F l => rewrite (f_equal (mbind F) (list_as_lookups l)) end.
      rewrite fmap_bind_list. apply bind_ext_in. intros k _. rewrite walk_singles by done. unfold pick.
      by destruct l as [|x [|y l]]; cbn in Hgt; try lia.
    + assert (AxisSel.len s = 1) as Hs2 by lia.
      rewrite (pick_single s 0); [|done|by destruct s]. cbn. rewrite app_nil_r.
      rewrite <- (IH Hpos Hw1 Hw0). clear IH.
      induction (seqZ 0 L) as [|k ks IHk]; [done|]. rewrite !bind_cons, fmap_app, IHk. f_equal.
      f_equal. f_equal. destruct s as [i|a n st|[|x [|y l]]]; cbn in *; done || lia.
Qed.

Lemma group_ok_of ha shape fs L :
  Forall2 (entry_ok ha) shape fs -> Forall (fun f => f.2 = true) fs ->
  (forall l, (FancyAxis l, true) ∈ fs -> zlen l = 1 \/ zlen l = L) -> group_ok L fs.
Proof.
  intros Hf Ht Hl. induction Hf as [|d [s b] shape fs Hd _ IH]; [constructor|].
  apply Forall_cons in Ht as [Hb Ht]. cbn in Hb. subst b. constructor.
  - split; [done|]. destruct Hd as [_ Hk]. cbn in *. destruct s; [done..|]. apply Hl. left.
  - apply IH; [done|]. intros l ?. apply Hl. by right.
Qed.

Lemma walked_app f1 f2 : walked (f1 ++ f2) = (walked f1 + walked f2)%nat.
Proof. unfold walked. by rewrite filter_app, length_app. Qed.

(** What [walks_independently] counts is the axes of the group that take more than one. *)
Lemma group_sels fs pre :
  mapM (fun a => expect (E:=AexError) ((pre ++ fs.*1) !! a)) (true_axes fs (length pre))
  = Ok (filter (fun f => f.2 = true) fs).*1.
Proof.
  revert pre. induction fs as [|[s b] fs IH]; intros pre; [done|]. cbn [fmap list_fmap fst].
  specialize (IH (pre ++ [s])). rewrite <- app_assoc in IH. cbn [app] in IH.
  rewrite length_app, Nat.add_1_r in IH. rewrite filter_cons. cbn [true_axes snd].
  destruct b.
  - rewrite decide_True by done. cbn [mapM]. rewrite lookup_app_r, Nat.sub_diag by lia. cbn.
    by rewrite IH.
  - rewrite decide_False by done. apply IH.
Qed.

Lemma walked_group f1 f2 f3 :
  has_group f1 = false -> Forall (fun f => f.2 = true) f2 -> has_group f3 = false ->
  (filter (fun f => f.2 = true) (f1 ++ f2 ++ f3)) = f2.
Proof.
  intros H1 H2 H3.
  assert (forall fs, has_group fs = false -> filter (fun f : AxisSel * bool => f.2 = true) fs = []) as Hn.
  { induction fs as [|[s b] fs IH]; [done|]. cbn. intros [-> Hg]%orb_false_iff. by apply IH. }
  rewrite !filter_app, (Hn f1 H1), (Hn f3 H3), app_nil_r. cbn.
  induction H2 as [|f fs Hf _ IH]; [done|]. by rewrite filter_cons, decide_True, IH.
Qed.

Lemma length_filter_fst {A B} (P : A -> Prop) `{!forall x, Decision (P x)} (fs : list (A * B)) :
  length (filter P fs.*1) = length (filter (fun f => P f.1) fs).
Proof.
  induction fs as [|f fs IH]; [done|]. rewrite fmap_cons, !filter_cons.
  destruct (decide (P f.1)); cbn; by rewrite IH.
Qed.

Lemma walks_independently_ok shape r :
  resolved_wf shape r ->
  walks_independently r = Ok (match advanced r with
    | None => true
    | Some g => adjacent g && (walked (filter (fun f => f.2 = true) (flags r)) <=? 1)%nat
    end).
Proof.
  intros Hw. unfold walks_independently. destruct (advanced r) as [g|] eqn:Hg; [|done].
  rewrite (wf_group_axes _ _ Hw g Hg). pose proof (group_sels (flags r) []) as Hs.
  cbn [app length] in Hs. rewrite flags_fst in Hs. rewrite Hs. cbn [mbind result_bind].
  by rewrite length_filter_fst.
Qed.

Lemma selected_product shape r :
  resolved_wf shape r -> walks_independently r = Ok true ->
  Forall (fun s => 1 <= AxisSel.len s) (axes r) -> selected r = product (axes r).
Proof.
  intros Hw Hi Hpos. rewrite (walks_independently_ok _ _ Hw) in Hi.
  destruct (wf_axes _ _ Hw) as [ha Ha]. pose proof (wf_group _ _ Hw) as Hgr.
  pose proof (wf_fancy _ _ Hw) as Hfa. pose proof (wf_glen _ _ Hw) as Hgl.
  rewrite <- flags_fst. unfold selected, glen in *. destruct (advanced r) as [g|] eqn:Hg.
  - injection Hi as [Hadj Hwk]%andb_true_iff. rewrite Hadj.
    destruct (wf_adjacent _ _ Hw g Hg Hadj) as (f1 & f2 & f3 & Hf & H1 & H2 & H3).
    rewrite Hf, walked_group in Hwk by done. apply Nat.leb_le in Hwk.
    rewrite <- flags_fst, Hf in Hpos. rewrite Hf in Ha, Hfa, Hgl, Hgr |- *.
    rewrite !fmap_app, !Forall_app in Hpos. destruct Hpos as (_ & Hp2 & _).
    rewrite Forall_fmap in Hp2. change (Forall (fun f : AxisSel * bool => 1 <= AxisSel.len f.1) f2) in Hp2.
    apply Forall2_app_inv_r in Ha as (s1 & s23 & _ & Ha & ->).
    apply Forall2_app_inv_r in Ha as (s2 & s3 & Ha2 & _ & ->).
    apply walk_free_prefix; [done|].
    assert (group_ok (group_len g) f2) as Hgo.
    { eapply group_ok_of; [done..|]. intros l Hl. apply Hfa. apply elem_of_app. right.
      apply elem_of_app. by left. }
    assert (forall f, f ∈ f1 ++ f2 ++ f3 -> f.2 = true -> f ∈ f2) as Hin.
    { intros f Hf12 Hft. rewrite <- (walked_group f1 f2 f3) by done.
      by apply list_elem_of_filter. }
    rewrite <- (walk_group_loop (group_len g)); try done.
    + destruct f2 as [|[s b] f2].
      * (* a group has a member *)
        exfalso. revert Hgr. rewrite bool_decide_true by done. cbn.
        clear -H1 H3. induction f1 as [|f f1 IH]; cbn in *; [by rewrite H3|].
        apply orb_false_iff in H1 as [-> H1]. by apply IH.
      * apply Forall_cons in H2 as [Hb _]. cbn in Hb. by subst b.
    + (* nothing walked: every member is a scalar or an array of one *)
      intros Hz. destruct Hgl as [|(l & Hl & Hll)]; [done|].
      apply Hin in Hl; [|done]. rewrite Forall_forall in Hp2. specialize (Hp2 _ Hl). cbn in Hp2.
      destruct (decide (1 < zlen l)) as [Hlt|]; [|lia].
      assert ((FancyAxis l, true) ∈ filter (fun f => 1 < AxisSel.len f.1) f2) as Hx
        by by apply list_elem_of_filter.
      unfold walked in Hz. destruct (filter _ f2); [by apply elem_of_nil in Hx | done].
  - rewrite bool_decide_false in Hgr by naive_solver. by apply walk_no_group.
Qed.

(** ** Runs *)

Lemma forallb_consecutive first rest k :
  forallb (fun '(i, index) => bool_decide (checked_add first (Z.of_nat i + 1) = Some index))
    (imap (fun i => pair (k + i)%nat) rest) = true ->
  rest = seqZ (first + Z.of_nat k + 1) (zlen rest).
Proof.
  revert k. induction rest as [|x rest IH]; intros k; [done|]. rewrite imap_cons. cbn [forallb].
  intros [Hx%bool_decide_eq_true Hr]%andb_true_iff.
  apply checked_add_some in Hx as [-> _]. cbn [length]. rewrite seqZ_cons by lia.
  rewrite Nat.add_0_r. f_equal; [lia|].
  rewrite (IH (S k)) at 1; [f_equal; lia|].
  erewrite imap_ext in Hr; [exact Hr|]. intros i y _. cbn. f_equal. lia.
Qed.

Lemma unit_walk a n st :
  st = 1 \/ n = 1 -> (fun k => a + k * st) <$> seqZ 0 n = seqZ a n.
Proof.
  intros Hst. transitivity ((fun k => k) <$> seqZ (0 + a) n); [|by rewrite list_fmap_id, Z.add_0_l].
  rewrite fmap_seqZ_shift. apply list_fmap_ext. intros i k Hk. apply list_elem_of_lookup_2, elem_of_seqZ in Hk.
  destruct Hst as [-> | ->]; [lia|]. assert (k = 0) as -> by lia. lia.
Qed.

Lemma as_run_spec s a n :
  0 <= AxisSel.len s -> AxisSel.as_run s = Some (a, n) -> n = AxisSel.len s /\ positions s = seqZ a n.
Proof.
  intros Hl. destruct s as [i|b len st|l]; cbn in *.
  - intros [= -> <-]. done.
  - destruct (Z.eqb_spec len 0) as [->|]; [by intros [= <- <-]|].
    destruct (Z.eqb_spec len 1) as [->|].
    + intros [= -> <-]. split; [done|]. apply unit_walk. by right.
    + destruct (Z.eqb_spec st 1) as [->|]; [|done]. intros [= -> ->]. split; [done|].
      apply unit_walk. by left.
  - destruct l as [|x l]; [by intros [= <- <-]|]. destruct (forallb _ _) eqn:Hf; [|done].
    intros [= -> <-]. split; [done|]. cbn [positions length]. rewrite seqZ_cons by lia. f_equal.
    rewrite (forallb_consecutive a l 0) at 1 by (rewrite <- Hf; done). f_equal; lia.
Qed.

(** Every axis taken whole. *)
Definition all_whole (shape : list Z) (runs : list (Z * Z)) : bool :=
  forallb (fun '(d, r) => (r.1 =? 0) && (r.2 =? d)) (zip shape runs).

Lemma rest_whole_cons d shape r runs :
  rest_whole (d :: shape) (r :: runs) =
  if decide (1 < r.2) then all_whole shape runs else rest_whole shape runs.
Proof.
  unfold rest_whole, all_whole. cbn [list_find]. case_decide; [done|].
  destruct (list_find _ runs) as [[i q]|]; done.
Qed.

Lemma seqZ_shift a b n : (fun k => b + k) <$> seqZ a n = seqZ (b + a) n.
Proof. rewrite (Z.add_comm b a). rewrite <- (list_fmap_id (seqZ (a + b) n)), fmap_seqZ_shift.
  apply list_fmap_ext. intros; cbn; lia. Qed.

(** Consecutive blocks of [p] consecutive numbers. *)
Lemma seqZ_blocks a n p :
  0 <= n -> 0 <= p -> (i ← seqZ a n; seqZ (i * p) p) = seqZ (a * p) (n * p).
Proof.
  intros Hn Hp. revert a. pattern n. apply natlike_ind; [|intros m Hm IH a|done].
  - intros a. done.
  - rewrite seqZ_cons by lia. rewrite bind_cons, Z.pred_succ, IH.
    replace (Z.succ m * p) with (p + m * p) by lia. rewrite seqZ_split by lia.
    do 2 f_equal. lia.
Qed.

Lemma ravel_product_cons d shape s sels :
  ravel (d :: shape) <$> product (s :: sels) =
  (i ← positions s; (fun k => i * zprod shape + k) <$> (ravel shape <$> product sels)).
Proof.
  cbn [product]. rewrite fmap_of_bind. apply bind_ext_in. intros i _.
  rewrite <- !list_fmap_compose. done.
Qed.

(** One axis' run, inside the axis. *)
Definition run_ok (d : Z) (s : AxisSel) (r : Z * Z) : Prop :=
  positions s = seqZ r.1 r.2 /\ 0 <= r.1 /\ 1 <= r.2 /\ r.1 + r.2 <= d.

Inductive runs_ok : list Z -> list AxisSel -> list (Z * Z) -> Prop :=
  | runs_ok_nil : runs_ok [] [] []
  | runs_ok_cons d s r shape sels runs :
      run_ok d s r -> runs_ok shape sels runs -> runs_ok (d :: shape) (s :: sels) (r :: runs).

Lemma runs_ok_pos shape sels runs : runs_ok shape sels runs -> Forall (fun d => 0 < d) shape.
Proof. induction 1 as [|d s r shape sels runs (_ & ? & ? & ?)]; constructor; [lia|done]. Qed.

Lemma runs_product shape sels runs :
  runs_ok shape sels runs ->
  (all_whole shape runs = true -> ravel shape <$> product sels = seqZ 0 (zprod shape) /\
                                  ravel shape runs.*1 = 0 /\ zprod runs.*2 = zprod shape) /\
  (rest_whole shape runs = true ->
    ravel shape <$> product sels = seqZ (ravel shape runs.*1) (zprod runs.*2)).
Proof.
  induction 1 as [|d s [a n] shape sels runs (Hp & Ha & Hn & Hd) Hr [IH1 IH2]]; [done|].
  cbn [fst snd] in *. pose proof (zprod_pos _ (runs_ok_pos _ _ _ Hr)) as Hpos.
  assert (all_whole shape runs = true ->
    ravel (d :: shape) <$> product (s :: sels) = seqZ (a * zprod shape) (n * zprod shape)) as Hblk.
  { intros (He & _ & _)%IH1. rewrite ravel_product_cons, Hp, He.
    rewrite <- seqZ_blocks by lia. apply bind_ext_in. intros i _.
    by rewrite seqZ_shift, Z.add_0_r. }
  split.
  - intros [Hw1 Hw]%andb_true_iff. apply andb_true_iff in Hw1 as [Ha0 Hnd].
    apply Z.eqb_eq in Ha0, Hnd. cbn [fst snd] in Ha0, Hnd. subst a n.
    rewrite (Hblk Hw). apply IH1 in Hw as (_ & Hz & Hq). cbn.
    rewrite Hz, Hq. split; [f_equal; lia | split; [lia|done]].
  - rewrite rest_whole_cons. cbn [snd]. case_decide.
    + intros Hw. rewrite (Hblk Hw). apply IH1 in Hw as (_ & Hz & Hq). cbn. rewrite Hz, Hq.
      f_equal; lia.
    + intros He%IH2. assert (n = 1) as -> by lia. rewrite ravel_product_cons, Hp, He.
      change (seqZ a 1) with [Z.add (Z.of_nat 0) a]. rewrite bind_cons, app_nil_r, seqZ_shift.
      cbn. f_equal; lia.
Qed.

Lemma u128_id z : 0 <= z < 2 ^ 128 -> u128 z = z.
Proof. apply Z.mod_small. Qed.

Lemma horner_runs shape sels runs o l :
  runs_ok shape sels runs -> 0 <= o -> 0 < l -> (o + 1) * zprod shape <= two64 ->
  l * zprod shape <= two64 ->
  foldl (fun '(offset, len) '(d, (start, run_len)) =>
           (u128 (u128 (offset * d) + start), u128 (len * run_len))) (o, l) (zip shape runs)
  = (o * zprod shape + ravel shape runs.*1, l * zprod runs.*2).
Proof.
  intros Hr. revert o l. induction Hr as [|d s [a n] shape sels runs (_ & Ha & Hn & Hd) Hr IH];
    intros o l Ho Hl Hb1 Hb2; cbn [fst snd] in *.
  - cbn. f_equal; lia.
  - cbn [zip_with foldl]. pose proof (zprod_pos _ (runs_ok_pos _ _ _ Hr)) as Hpos.
    cbn [zprod] in *.
    assert ((o + 1) * d <= two64) by nia. assert (l * d <= two64) by nia.
    rewrite (u128_id (o * d)), (u128_id (o * d + a)), (u128_id (l * n)) by nia.
    rewrite IH by nia. cbn. f_equal; lia.
Qed.

Lemma mapM_option_cons {A B} (f : A -> option B) x l k :
  mapM f (x :: l) = Some k <-> exists y k', f x = Some y /\ mapM f l = Some k' /\ k = y :: k'.
Proof.
  cbn [mapM]. destruct (f x) as [y|]; cbn [mbind option_bind]; [|naive_solver].
  destruct (mapM f l) as [k'|]; cbn [mbind option_bind]; [|naive_solver].
  split; [intros [= <-]; by eexists _, _ | by intros (? & ? & [= ->] & [= ->] & ->)].
Qed.

Lemma runs_ok_of shape sels runs :
  Forall2 sel_ok shape sels -> mapM AxisSel.as_run sels = Some runs ->
  existsb (fun r => r.2 =? 0) runs = false -> runs_ok shape sels runs.
Proof.
  intros Hf. revert runs. induction Hf as [|d s shape sels (Hin & Hl & _) _ IH]; intros runs Hm He.
  - injection Hm as <-. constructor.
  - apply mapM_option_cons in Hm as ([a n] & runs' & Hs & Hm & ->).
    cbn in He. apply orb_false_iff in He as [Hn%Z.eqb_neq He]. cbn in Hn.
    constructor; [|by apply IH]. apply as_run_spec in Hs as [-> Hp]; [|done].
    assert (0 <= a < d) as Ha.
    { rewrite Forall_forall in Hin. apply Hin. rewrite Hp. apply elem_of_seqZ. lia. }
    assert (0 <= a + (AxisSel.len s - 1) < d).
    { rewrite Forall_forall in Hin. apply Hin. rewrite Hp. apply elem_of_seqZ. lia. }
    split; [done|]. cbn. lia.
Qed.

Lemma product_empty shape sels runs :
  Forall2 sel_ok shape sels -> mapM AxisSel.as_run sels = Some runs ->
  existsb (fun r => r.2 =? 0) runs = true -> exists s, s ∈ sels /\ AxisSel.len s = 0.
Proof.
  intros Hf. revert runs. induction Hf as [|d s shape sels (Hin & Hl & _) _ IH]; intros runs Hm He.
  - by injection Hm as <-.
  - apply mapM_option_cons in Hm as ([a n] & runs' & Hs & Hm & ->).
    cbn in He. apply orb_true_iff in He as [Hn%Z.eqb_eq|He].
    + apply as_run_spec in Hs as [-> _]; [|done]. exists s. split; [left|done].
    + destruct (IH _ Hm He) as (s' & ? & ?). exists s'. split; [by right|done].
Qed.

Lemma sel_ok_axes shape r : resolved_wf shape r -> Forall2 sel_ok shape (axes r).
Proof.
  intros Hw. destruct (wf_axes _ _ Hw) as [ha Ha]. rewrite <- flags_fst.
  apply Forall2_fmap_r. eapply Forall2_impl; [exact Ha|]. by intros d f [? _].
Qed.

(** Nothing on one axis is nothing at all. *)
Lemma elements_empty shape r s :
  resolved_wf shape r -> s ∈ axes r -> AxisSel.len s = 0 -> elements shape r = [].
Proof.
  intros Hw Hs Hl. rewrite <- flags_fst in Hs.
  apply list_elem_of_fmap in Hs as ([s' b] & -> & Hs). cbn in Hl.
  assert (zlen (elements shape r) = 0) as Hz; [|by destruct (elements shape r)].
  rewrite (length_elements _ _ Hw), (wf_shape _ _ Hw). destruct b.
  - assert (glen r = 0) as ->; [|lia].
    destruct (wf_axes _ _ Hw) as [ha Ha]. apply list_elem_of_lookup in Hs as [i Hi].
    destruct (Forall2_lookup_r _ _ _ _ _ Ha Hi) as (d & _ & _ & Hk). cbn in *.
    destruct s' as [|a n st|l]; cbn in Hl; [lia|done|].
    apply list_elem_of_lookup_2 in Hi. destruct (wf_fancy _ _ Hw _ Hi); lia.
  - rewrite (free_len_zero _ _ Hs) by done. lia.
Qed.

(** The run found is the selection. *)
Lemma contiguous_run_elements shape r off len :
  Forall (fun d => 0 <= d) shape -> zprod shape < two64 ->
  resolved_wf shape r -> walks_independently r = Ok true ->
  contiguous_run shape (axes r) = Some (off, len) ->
  0 <= off /\ 0 <= len /\ off + len <= zprod shape /\ elements shape r = seqZ off len.
Proof.
  intros Hs HN Hw Hi. pose proof (sel_ok_axes _ _ Hw) as Hok. unfold contiguous_run.
  destruct (mapM AxisSel.as_run (axes r)) as [runs|] eqn:Hm; [|done]. cbn [mbind option_bind].
  destruct (existsb _ runs) eqn:He.
  { intros [= <- <-]. pose proof (zprod_nonneg shape Hs).
    destruct (product_empty _ _ _ Hok Hm He) as (s & Hin & Hl).
    rewrite (elements_empty _ _ _ Hw Hin Hl). done. }
  pose proof (runs_ok_of _ _ _ Hok Hm He) as Hr.
  destruct (rest_whole shape runs) eqn:Hrw; [|done].
  rewrite (horner_runs _ _ _ 0 1 Hr) by lia. rewrite Z.mul_0_l, Z.add_0_l, Z.mul_1_l.
  destruct (_ && _); [|done]. intros [= <- <-].
  assert (elements shape r = seqZ (ravel shape runs.*1) (zprod runs.*2)) as Hel.
  { unfold elements. rewrite (selected_product shape r Hw Hi).
    - by apply (runs_product _ _ _ Hr).
    - clear -Hr. induction Hr as [|d s [a n] shape sels runs (Hp & Ha & Hn & Hd) _ IH]; constructor; [|done].
      cbn in *. destruct s as [|b m st|l]; cbn in *; [lia| |].
      + apply (f_equal length) in Hp. rewrite length_fmap, !length_seqZ in Hp. lia.
      + apply (f_equal length) in Hp. rewrite length_seqZ in Hp. lia. }
  assert (0 < zprod runs.*2) as Hlen.
  { apply zprod_pos. clear -Hr. induction Hr as [|d s [a n] shape sels runs (_ & _ & Hn & _) _ IH];
      constructor; [cbn in *; lia | done]. }
  assert (forall x, x ∈ seqZ (ravel shape runs.*1) (zprod runs.*2) -> 0 <= x < zprod shape) as Hx.
  { intros x Hx. rewrite <- Hel in Hx. by apply (elements_range shape r). }
  pose proof (Hx (ravel shape runs.*1) ltac:(apply elem_of_seqZ; lia)).
  pose proof (Hx (ravel shape runs.*1 + zprod runs.*2 - 1) ltac:(apply elem_of_seqZ; lia)).
  repeat split; [lia..|done].
Qed.

(** The fast path is exact.  When the axes may be walked independently and
    [contiguous_run] finds one run, that run of source elements is, element for element,
    what the selection visits, and it lies inside the array. *)
Theorem contiguous_run_exact shape indices r off len :
  Forall (fun d => 0 <= d) shape -> zprod shape < two64 -> Forall index_wf indices ->
  resolve shape indices = Ok r -> walks_independently r = Ok true ->
  contiguous_run shape (axes r) = Some (off, len) ->
  0 <= off /\ 0 <= len /\ off + len <= zprod shape /\ elements shape r = seqZ off len.
Proof.
  intros Hs HN Hi Hr Hind Hrun. apply contiguous_run_elements; try done.
  pose proof (resolve_spec shape indices Hs Hi) as Hw. by rewrite Hr in Hw.
Qed.

Lemma contiguous_run_exact_witness :
  0 <= 4 /\ 0 <= 8 /\ 4 + 8 <= zprod [3; 4] /\
  elements [3; 4] {| axes := [FancyAxis [1; 2]; Range 0 4 1]; out_shape := [2; 4];
    advanced := Some {| group_axes := [0%nat]; group_len := 2; adjacent := true |} |} = seqZ 4 8.
Proof.
  apply (contiguous_run_exact [3; 4] [Fancy [1; -1]]).
  - repeat constructor; lia.
  - reflexivity.
  - repeat constructor; cbn; unfold is_i64; lia.
  - reflexivity.
  - reflexivity.
  - reflexivity.
Defined.
