(* ===== verification/Gathered.v ===== *)
(** Gathered selections: the second half of [aex-core/src/selection.rs].  A selection
    that is not one run is a base element and a list of output dimensions; a read
    walks them as stretches of source elements, joins the stretches that lie close
    together into spans, reads each span once and cuts the stretches out of it. *)
From S2P Require Import Prelude Errors Selection.

(** ** Data *)

Inductive Dim : Type :=
  | Stride (len step : Z)
  | List (offsets : list Z).

Module Dim.
Definition len (d : Dim) : Z :=
  match d with Stride len _ => len | List offsets => zlen offsets end.

(** The term for index [k], wrapping. *)
Definition term (d : Dim) (k : Z) : result AexError Z :=
  match d with
  | Stride _ step => Ok (k *w as_u64 step)
  | List offsets => expect (offsets !! Z.to_nat k)
  end.
End Dim.

Record Gathered : Type := { base : Z; dims : list Dim }.

(** ** Building one *)

(** Source elements per step along each axis, innermost axis first. *)
Fixpoint strides_of (shape : list Z) : result AexError (list Z) :=
  match shape with
  | [] => Ok []
  | _ :: shape' =>
      strides ← strides_of shape';
      match shape', strides with
      | d :: _, s :: _ => stride ← ok_or BadSelection (checked_mul s d); Ok (stride :: strides)
      | _, _ => Ok [1]
      end
  end.

Definition in_advanced (group : option Advanced) (axis : nat) : bool :=
  match group with Some g => bool_decide (axis ∈ group_axes g) | None => false end.

(** The loop over the axes, from [axis] on. *)
Fixpoint free_axes (group : option Advanced) (strides : list Z) (axis : nat) (sels : list AxisSel)
    (base : Z) (dims : list Dim) (group_at : option nat)
    : result AexError (Z * list Dim * option nat) :=
  match sels with
  | [] => Ok (base, dims, group_at)
  | sel :: sels' =>
      stride ← expect (strides !! axis);
      if in_advanced group axis then
        let group_at := match group_at with Some at_ => Some at_ | None => Some (length dims) end in
        free_axes group strides (S axis) sels' base dims group_at
      else
        match sel with
        | Point index =>
            free_axes group strides (S axis) sels' (base +w (index *w stride)) dims group_at
        | Range start len step =>
            let base := base +w (start *w stride) in
            if 1 <? len then
              step ← ok_or BadSelection
                (i64_try_from stride ≫= fun stride => i64_checked_mul stride step);
              free_axes group strides (S axis) sels' base (dims ++ [Stride len step]) group_at
            else free_axes group strides (S axis) sels' base dims group_at
        | FancyAxis _ => Panic
        end
  end.

(** [for (offset, index) in offsets.iter_mut().zip(list)]. *)
Fixpoint add_indices (stride : Z) (offsets indices : list Z) : list Z :=
  match offsets, indices with
  | offset :: offsets', index :: indices' =>
      (offset +w (index *w stride)) :: add_indices stride offsets' indices'
  | _, _ => offsets
  end.

(** One axis of the group. *)
Definition group_axis (strides : list Z) (sels : list AxisSel) (st : Z * list Z) (axis : nat)
    : result AexError (Z * list Z) :=
  let '(base, offsets) := st in
  stride ← expect (strides !! axis);
  sel ← expect (sels !! axis);
  match sel with
  | Point index => Ok (base +w (index *w stride), offsets)
  | FancyAxis [index] => Ok (base +w (index *w stride), offsets)
  | FancyAxis list => Ok (base, add_indices stride offsets list)
  | Range _ _ _ => Panic
  end.

(** [Vec::insert]. *)
Definition vec_insert {E A} (at_ : nat) (x : A) (l : list A) : result E (list A) :=
  if (at_ <=? length l)%nat then Ok (take at_ l ++ x :: drop at_ l) else Panic.

(** [Gathered::new]. *)
Definition new (shape : list Z) (resolved : ResolvedSelection) : result AexError Gathered :=
  strides ← strides_of shape;
  '(base, dims, group_at) ← free_axes (advanced resolved) strides 0 (axes resolved) 0 [] None;
  match advanced resolved with
  | None => Ok {| base := base; dims := dims |}
  | Some group =>
      '(base, offsets) ← mfold (group_axis strides (axes resolved))
        (base, replicate (Z.to_nat (group_len group)) 0) (group_axes group);
      if 1 <? group_len group then
        let at_ := if adjacent group then default 0%nat group_at else 0%nat in
        dims ← vec_insert at_ (List offsets) dims;
        Ok {| base := base; dims := dims |}
      else Ok {| base := base; dims := dims |}
  end.

(** ** Stretches *)

Record Stretch : Type := { src : Z; step : Z; count : Z }.

#[export] Instance Stretch_eq_dec : EqDecision Stretch.
Proof. solve_decision. Defined.

Definition SPAN_GAP_BYTES : Z := 4096.
Definition SPAN_MAX_BYTES : Z := 2 ^ 20.

Module Stretch.
(** The source elements it touches, as [lo, hi). *)
Definition extent (s : Stretch) : Z * Z :=
  let last := src s +w ((count s -w 1) *w as_u64 (step s)) in
  (Z.min (src s) last, Z.max (src s) last +w 1).
End Stretch.

Section Walk.
Context {St : Type} (f : St -> Stretch -> result AexError St).

(** [hold]: the stretch held back, and what [f] has made of those before it. *)
Definition hold (pending : option Stretch) (st : St) (s : Stretch)
    : result AexError (option Stretch * St) :=
  let s := if count s =? 1 then {| src := src s; step := 1; count := count s |} else s in
  match pending with
  | Some p =>
      if (step p =? 1) && (step s =? 1) && (src p +w count p =? src s)
      then Ok (Some {| src := src p; step := step p; count := count p +w count s |}, st)
      else st ← f st p; Ok (Some s, st)
  | None => Ok (Some s, st)
  end.

(** [while i < take]: one row's stretches, at most [per] elements each. *)
Fixpoint row_stretches (fuel : nat) (inner : Dim) (row k take per i : Z)
    (pending : option Stretch) (st : St) : result AexError (option Stretch * St) :=
  if i <? take then
    match fuel with
    | O => Panic
    | S fuel' =>
        let n := Z.min per (take - i) in
        term ← Dim.term inner (k + i);
        let s := {| src := row +w term;
                    step := match inner with Stride _ step => step | List _ => 1 end;
                    count := n |} in
        '(pending, st) ← hold pending st s;
        row_stretches fuel' inner row k take per (i + n) pending st
    end
  else Ok (pending, st).

(** How many elements of a row one stretch may take. *)
Definition per_stretch (inner : Dim) (itemsize take : Z) : result AexError Z :=
  match inner with
  | Stride _ step =>
      if step =? 1 then Ok take
      else
        let stride := Z.abs step *w itemsize in
        if stride <=? SPAN_GAP_BYTES then
          if stride =? 0 then Panic else Ok (Z.max (SPAN_MAX_BYTES / stride) 1)
        else Ok 1
  | List _ => Ok 1
  end.

(** What [refresh] fills in behind [p]: the source element with each further
    dimension's term added. *)
Fixpoint prefixes (dims : list Dim) (index : list Z) (p : Z) : result AexError (list Z) :=
  match dims, index with
  | [], _ => Ok []
  | d :: dims', k :: index' =>
      term ← Dim.term d k;
      rest ← prefixes dims' index' (p +w term);
      Ok ((p +w term) :: rest)
  | _ :: _, [] => Panic
  end.

(** [refresh(&mut prefix, &index, from)]. *)
Definition refresh (dims : list Dim) (prefix index : list Z) (from : nat)
    : result AexError (list Z) :=
  p ← expect (prefix !! from);
  rest ← prefixes (drop from dims) (drop from index) p;
  Ok (take (S from) prefix ++ rest).

(** [while i > 0]: carry into the dimensions above [i]; the index, and the
    outermost dimension that changed. *)
Fixpoint carry (dims : list Dim) (index : list Z) (i : nat) : result AexError (list Z * nat) :=
  match i with
  | O => Ok (index, O)
  | S i' =>
      k ← expect (index !! i');
      d ← expect (dims !! i');
      if k + 1 <? Dim.len d then Ok (<[i' := k + 1]> index, i')
      else carry dims (<[i' := 0]> index) i'
  end.

(** [while done < count]: row after row.  [ndim] is [S last], and [inner] the
    dimension at [last]. *)
Fixpoint rows (fuel : nat) (dims : list Dim) (last : nat) (inner : Dim) (itemsize count : Z)
    (done : Z) (index prefix : list Z) (pending : option Stretch) (st : St)
    : result AexError (option Stretch * St) :=
  if done <? count then
    match fuel with
    | O => Panic
    | S fuel' =>
        k ← expect (index !! last);
        let take := Z.min (Dim.len inner - k) (count - done) in
        row ← expect (prefix !! last);
        per ← per_stretch inner itemsize take;
        '(pending, st) ← row_stretches (Z.to_nat take) inner row k take per 0 pending st;
        '(index, i) ← carry dims (<[last := 0]> index) last;
        prefix ← refresh dims prefix index i;
        rows fuel' dims last inner itemsize count (done + take) index prefix pending st
    end
  else Ok (pending, st).

(** The index of output element [n], innermost dimension first: [rest % len], [rest /= len]. *)
Fixpoint index_of (dims : list Dim) (n : Z) : result AexError (list Z * Z) :=
  match dims with
  | [] => Ok ([], n)
  | d :: dims' =>
      '(index, rest) ← index_of dims' n;
      if Dim.len d =? 0 then Panic else Ok (rest mod Dim.len d :: index, rest / Dim.len d)
  end.

(** Call [f] on the stretches of output elements [first, first + count), in order. *)
Definition for_each_stretch (g : Gathered) (itemsize first count : Z) (st : St)
    : result AexError St :=
  if count =? 0 then Ok st
  else
    match last (dims g) with
    | None => f st {| src := base g; step := 1; count := 1 |}
    | Some inner =>
        '(index, _) ← index_of (dims g) first;
        prefix ← refresh (dims g) (replicate (S (length (dims g))) (base g)) index 0;
        '(pending, st) ← rows (Z.to_nat count) (dims g) (length (dims g) - 1) inner itemsize
          count 0 index prefix None st;
        match pending with
        | Some s => f st s
        | None => Ok st
        end
    end.
End Walk.

(** ** Spans *)

Record Span : Type := { lo : Z; hi : Z; out_at : Z; out_count : Z }.

Module Span.
(** The span that takes in [lo', hi') too, if it lies close enough. *)
Definition join (w : Span) (lo' hi' count itemsize : Z) : option Span :=
  let gap := SPAN_GAP_BYTES / itemsize in
  let new_lo := Z.min (lo w) lo' in
  let new_hi := Z.max (hi w) hi' in
  let near := (lo w <=? hi' +w gap) && (lo' <=? hi w +w gap) in
  if negb near || (SPAN_MAX_BYTES <? (new_hi -w new_lo) *w itemsize) then None
  else Some {| lo := new_lo; hi := new_hi; out_at := out_at w; out_count := out_count w +w count |}.
End Span.

(** [strided::<N>] and the general arm of [take_strided]: element [i] of [dst]
    comes from [from + i * step * n], [dst.chunks_exact_mut(n)] being [left]
    elements from [i] on. *)
Fixpoint strided (left : nat) (n : Z) (dst source : list Z) (from step i : Z)
    : result AexError (list Z) :=
  match left with
  | O => Ok dst
  | S left' =>
      let at_ := from +w (i *w (as_u64 step *w n)) in
      piece ← slice_checked at_ n source;
      strided left' n (splice (i * n) piece dst) source from step (i + 1)
  end.

Definition take_strided (dst source : list Z) (from step itemsize : Z) : result AexError (list Z) :=
  if itemsize =? 0 then Panic
  else strided (Z.to_nat (zlen dst / itemsize)) itemsize dst source from step 0.

Section Read.
(** [read_src(offset, &mut buf)]: the [len] bytes at [offset] of the source. *)
Context (read_src : Z -> Z -> result AexError (list Z)).

(** [read_src(offset, &mut out[at..at + n])]. *)
Definition read_src_into (offset at_ n : Z) (out : list Z) : result AexError (list Z) :=
  _ ← slice_checked at_ n out;
  bytes ← read_src offset n;
  splice_checked at_ bytes out.

(** The loop that cuts [stretches] out of [scratch], from [pos] on. *)
Fixpoint cut (span : Span) (itemsize : Z) (stretches : list Stretch) (scratch : list Z)
    (pos : Z) (out : list Z) : result AexError (list Z) :=
  match stretches with
  | [] => Ok out
  | s :: stretches' =>
      let n := count s *w itemsize in
      let from := (src s -w lo span) *w itemsize in
      dst ← slice_checked pos n out;
      piece ← (if step s =? 1 then slice_checked from n scratch
               else take_strided dst scratch from (step s) itemsize);
      out ← splice_checked pos piece out;
      cut span itemsize stretches' scratch (pos + n) out
  end.

Definition copy_span (span : Span) (itemsize : Z) (stretches : list Stretch) (out : list Z)
    : result AexError (list Z) :=
  let at_ := out_at span *w itemsize in
  let bytes := out_count span *w itemsize in
  let aside :=
    scratch ← read_src (lo span *w itemsize) ((hi span -w lo span) *w itemsize);
    cut span itemsize stretches scratch at_ out in
  match stretches with
  | [only] =>
      if step only =? 1 then read_src_into (lo span *w itemsize) at_ bytes out else aside
  | _ => aside
  end.

(** What the read keeps between stretches. *)
Record Reading : Type := {
  r_span : option Span;
  r_held : list Stretch;
  r_out_at : Z;
  r_out : list Z;
}.

(** The closure [read] hands to [for_each_stretch]. *)
Definition on_stretch (itemsize : Z) (r : Reading) (s : Stretch) : result AexError Reading :=
  let '(lo, hi) := Stretch.extent s in
  let fresh := {| lo := lo; hi := hi; out_at := r_out_at r; out_count := count s |} in
  '(span, held, out) ←
    match r_span r with
    | Some w =>
        match Span.join w lo hi (count s) itemsize with
        | Some w => Ok (w, r_held r, r_out r)
        | None => out ← copy_span w itemsize (r_held r) (r_out r); Ok (fresh, [], out)
        end
    | None => Ok (fresh, r_held r, r_out r)
    end;
  Ok {| r_span := Some span; r_held := held ++ [s]; r_out_at := r_out_at r +w count s;
        r_out := out |}.

(** Whole elements into [out], span by span. *)
Definition read_elements (g : Gathered) (itemsize first count : Z) (out : list Z)
    : result AexError (list Z) :=
  r ← for_each_stretch (on_stretch itemsize) g itemsize first count
        {| r_span := None; r_held := []; r_out_at := 0; r_out := out |};
  match r_span r with
  | Some w => copy_span w itemsize (r_held r) (r_out r)
  | None => Ok (r_out r)
  end.

(** [Gathered::read]: the bytes [offset, offset + dst.len()) of the logical stream. *)
Definition read (g : Gathered) (itemsize offset : Z) (dst : list Z) : result AexError (list Z) :=
  let end_ := offset +w zlen dst in
  let first := offset / itemsize in
  let count := div_ceil end_ itemsize -w first in
  let skip := offset -w (first *w itemsize) in
  if (skip =? 0) && (end_ mod itemsize =? 0)
  then read_elements g itemsize first count dst
  else
    aside ← read_elements g itemsize first count (replicate (Z.to_nat (count *w itemsize)) 0);
    slice_checked skip (zlen dst) aside.
End Read.
