(* ===== verification/GatheredSpec.v ===== *)
(** [Gathered::new] against the reference: the base and the dimensions it computes
    name exactly the selected elements, in order. *)
From S2P Require Import Prelude Errors Selection SelectionSpec Gathered.

(** ** Sums of offsets *)

(** Equal as machine words. *)
Definition eqw (a b : Z) : Prop := u64 a = u64 b.
#[export] Instance eqw_equiv : Equivalence eqw.
Proof. unfold eqw. split; [by intros ?| by intros ???|]. intros x y z; congruence. Qed.
#[export] Instance eqw_add : Proper (eqw ==> eqw ==> eqw) Z.add.
Proof.
  intros a a' Ha b b' Hb. unfold eqw in *.
  rewrite <- (u64_add_l a), <- (u64_add_r _ b), Ha, Hb, u64_add_l, u64_add_r. done.
Qed.
#[export] Instance eqw_mul : Proper (eqw ==> eqw ==> eqw) Z.mul.
Proof.
  intros a a' Ha b b' Hb. unfold eqw in *.
  rewrite <- (u64_mul_l a), <- (u64_mul_r _ b), Ha, Hb, u64_mul_l, u64_mul_r. done.
Qed.
#[export] Instance eqw_sub : Proper (eqw ==> eqw ==> eqw) Z.sub.
Proof.
  intros a a' Ha b b' Hb. unfold eqw in *.
  rewrite <- (u64_sub_l a), <- (u64_sub_r _ b), Ha, Hb, u64_sub_l, u64_sub_r. done.
Qed.

Lemma eqw_u64 a : eqw (u64 a) a.
Proof. apply u64_u64. Qed.
Lemma eqw_wadd a b : eqw (a +w b) (a + b).
Proof. apply u64_u64. Qed.
Lemma eqw_wmul a b : eqw (a *w b) (a * b).
Proof. apply u64_u64. Qed.
Lemma eqw_wsub a b : eqw (a -w b) (a - b).
Proof. apply u64_u64. Qed.
Lemma eqw_as_u64 a : eqw (as_u64 a) a.
Proof. apply u64_u64. Qed.

(** Two words are equal when the exact sums behind them are. *)
Ltac eqw_solve :=
  match goal with |- u64 ?a = u64 ?b => change (eqw a b) | _ => idtac end;
  repeat first [rewrite eqw_wadd | rewrite eqw_wsub | rewrite eqw_wmul
               | rewrite eqw_as_u64 | rewrite eqw_u64];
  unfold eqw; f_equal; lia.

(** Equal words in range are equal. *)
Lemma eqw_eq a b : eqw a b -> is_u64 a -> is_u64 b -> a = b.
Proof. unfold eqw. intros. rewrite <- (u64_id a), <- (u64_id b) by done. done. Qed.

(** Every sum of [b] and one offset of each list, the last list varying fastest. *)
Fixpoint sums (b : Z) (ds : list (list Z)) : list Z :=
  match ds with
  | [] => [b]
  | d :: ds' => o ← d; sums (b + o) ds'
  end.

Lemma sums_shift b c ds : sums (b + c) ds = Z.add b <$> sums c ds.
Proof.
  revert c. induction ds as [|d ds IH]; intros c; [done|]. cbn [sums].
  rewrite fmap_of_bind. apply bind_ext_in. intros o _. by rewrite <- Z.add_assoc, IH.
Qed.

Lemma sums_app b d1 d2 : sums b (d1 ++ d2) = (p ← sums b d1; sums p d2).
Proof.
  revert b. induction d1 as [|d d1 IH]; intros b.
  - cbn [sums app]. by rewrite bind_cons, app_nil_r.
  - cbn [sums app]. rewrite bind_bind_list. apply bind_ext_in. intros o _. apply IH.
Qed.

(** A list of one offset is part of the base. *)
Lemma sums_single b l1 x l2 : sums b (l1 ++ [x] :: l2) = sums (b + x) (l1 ++ l2).
Proof.
  rewrite !sums_app, (Z.add_comm b x), sums_shift, fmap_bind_list. apply bind_ext_in. intros p _.
  cbn [sums]. rewrite bind_cons, app_nil_r. f_equal; lia.
Qed.

(** So is what the offsets of one list have in common. *)
Lemma sums_common b l1 c d l2 : sums b (l1 ++ (Z.add c <$> d) :: l2) = sums (b + c) (l1 ++ d :: l2).
Proof.
  rewrite !sums_app, (Z.add_comm b c), sums_shift, fmap_bind_list. apply bind_ext_in. intros p _.
  cbn [sums]. rewrite fmap_bind_list. apply bind_ext_in. intros o _. f_equal. lia.
Qed.

Lemma sums_cong b b' ds ds' :
  eqw b b' -> Forall2 (Forall2 eqw) ds ds' -> u64 <$> sums b ds = u64 <$> sums b' ds'.
Proof.
  intros Hb Hds. revert b b' Hb. induction Hds as [|d d' ds ds' Hd _ IH]; intros b b' Hb.
  - cbn. by rewrite Hb.
  - cbn [sums]. rewrite !fmap_of_bind. induction Hd as [|o o' d d' Ho _ IHd]; [done|].
    rewrite !bind_cons, IHd. f_equal. apply IH. by rewrite Hb, Ho.
Qed.

Lemma eqw_lists_refl (ds : list (list Z)) : Forall2 (Forall2 eqw) ds ds.
Proof. induction ds as [|d ds IH]; constructor; [|done]. by induction d; constructor. Qed.

(** ** The reference as sums *)

Fixpoint cstrides (shape : list Z) : list Z :=
  match shape with [] => [] | _ :: shape' => zprod shape' :: cstrides shape' end.

(** The offsets of the axes outside the group. *)
Fixpoint free_dims (ss : list Z) (fs : list (AxisSel * bool)) : list (list Z) :=
  match ss, fs with
  | s :: ss', (sel, false) :: fs' => ((fun i => i * s) <$> positions sel) :: free_dims ss' fs'
  | _ :: ss', (_, true) :: fs' => free_dims ss' fs'
  | _, _ => []
  end.

(** The same, with the offsets [G] of the group where its first axis is. *)
Fixpoint group_dims (G : list Z) (ss : list Z) (fs : list (AxisSel * bool)) : list (list Z) :=
  match ss, fs with
  | s :: ss', (sel, false) :: fs' => ((fun i => i * s) <$> positions sel) :: group_dims G ss' fs'
  | _ :: ss', (_, true) :: fs' => G :: free_dims ss' fs'
  | _, _ => []
  end.

(** What the group's axes add at position [k]: the scalars, and the arrays. *)
Fixpoint scalars (ss : list Z) (fs : list (AxisSel * bool)) : Z :=
  match ss, fs with
  | s :: ss', (Point i, true) :: fs' => i * s + scalars ss' fs'
  | s :: ss', (FancyAxis [i], true) :: fs' => i * s + scalars ss' fs'
  | _ :: ss', _ :: fs' => scalars ss' fs'
  | _, _ => 0
  end.
Fixpoint arrays (ss : list Z) (fs : list (AxisSel * bool)) (k : Z) : Z :=
  match ss, fs with
  | _ :: ss', (FancyAxis [_], true) :: fs' => arrays ss' fs' k
  | s :: ss', (FancyAxis l, true) :: fs' => l !!! Z.to_nat k * s + arrays ss' fs' k
  | _ :: ss', _ :: fs' => arrays ss' fs' k
  | _, _ => 0
  end.

Section Reference.
Context (ha : bool).

Lemma walk_some shape L fs k :
  Forall2 (entry_ok ha) shape fs ->
  ravel shape <$> walk L fs (Some k) =
  sums (scalars (cstrides shape) fs + arrays (cstrides shape) fs k) (free_dims (cstrides shape) fs).
Proof.
  induction 1 as [|d [s b] shape fs Hd _ IH]; [done|]. cbn [walk cstrides]. destruct b.
  - rewrite <- list_fmap_compose.
    transitivity (Z.add (pick s k * zprod shape) <$> (ravel shape <$> walk L fs (Some k)));
      [by rewrite <- list_fmap_compose|].
    rewrite IH, <- sums_shift. destruct Hd as [_ Hk].
    destruct s as [i|a n st|[|x [|y l]]]; cbn in Hk |- *; try done; f_equal; lia.
  - rewrite fmap_of_bind.
    replace (scalars _ _ + arrays _ _ k)
      with (scalars (cstrides shape) fs + arrays (cstrides shape) fs k)
      by (destruct s as [i|a n st|[|x [|y l]]]; done).
    cbn [free_dims sums]. rewrite fmap_bind_list. apply bind_ext_in. intros i _.
    rewrite Z.add_comm, sums_shift, <- IH, <- !list_fmap_compose. done.
Qed.

Definition group_offsets (L : Z) (ss : list Z) (fs : list (AxisSel * bool)) : list Z :=
  (fun k => scalars ss fs + arrays ss fs k) <$> seqZ 0 L.

Lemma walk_outer shape L fs :
  Forall2 (entry_ok ha) shape fs ->
  ravel shape <$> (k ← seqZ 0 L; walk L fs (Some k)) =
  sums 0 (group_offsets L (cstrides shape) fs :: free_dims (cstrides shape) fs).
Proof.
  intros Hf. rewrite fmap_of_bind. cbn [sums]. unfold group_offsets. rewrite fmap_bind_list.
  apply bind_ext_in. intros k _. by apply walk_some.
Qed.

Lemma walk_none shape L fs :
  Forall2 (entry_ok ha) shape fs -> has_group fs = true ->
  ravel shape <$> walk L fs None =
  sums 0 (group_dims (group_offsets L (cstrides shape) fs) (cstrides shape) fs).
Proof.
  induction 1 as [|d [s b] shape fs Hd Hf IH]; [done|]. cbn [has_group snd]. destruct b; cbn [orb].
  - intros _. pose proof (walk_outer (d :: shape) L ((s, true) :: fs) ltac:(by constructor)) as Ho.
    cbn [walk] in *. exact Ho.
  - intros Hg. specialize (IH Hg). cbn [walk cstrides group_dims]. rewrite fmap_of_bind.
    cbn [sums]. rewrite fmap_bind_list. apply bind_ext_in. intros i _.
    rewrite Z.add_comm, sums_shift.
    replace (group_offsets L (zprod shape :: cstrides shape) ((s, false) :: fs))
      with (group_offsets L (cstrides shape) fs)
      by (unfold group_offsets; by destruct s as [?|? ? ?|[|? [|? ?]]]).
    rewrite <- IH, <- !list_fmap_compose. done.
Qed.

Lemma walk_free shape L fs :
  Forall2 (entry_ok ha) shape fs -> has_group fs = false ->
  ravel shape <$> walk L fs None = sums 0 (free_dims (cstrides shape) fs).
Proof.
  induction 1 as [|d [s b] shape fs Hd Hf IH]; [done|]. cbn [has_group snd].
  intros [-> Hg]%orb_false_iff. specialize (IH Hg). cbn [walk cstrides free_dims].
  rewrite fmap_of_bind. cbn [sums]. rewrite fmap_bind_list. apply bind_ext_in. intros i _.
  rewrite Z.add_comm, sums_shift, <- IH, <- !list_fmap_compose. done.
Qed.
End Reference.

(** ** What [new] computes *)

Definition offs (d : Dim) : list Z :=
  match d with
  | Stride len step => (fun k => k * step) <$> seqZ 0 len
  | List offsets => offsets
  end.

(** The source elements behind the output, in order, as the walk computes them. *)
Definition output (g : Gathered) : list Z := u64 <$> sums (base g) (offs <$> dims g).

(** A dimension worth walking. *)
Definition dim_ok (d : Dim) : Prop :=
  match d with
  | Stride len step => 1 < len /\ is_i64 step /\ step <> 0
  | List offsets => 1 < zlen offsets
  end.

Definition sane (shape : list Z) : Prop := Forall (fun d => 0 < d) shape /\ zprod shape < two63.

Lemma strides_of_spec shape :
  Forall (fun d => 0 <= d) shape ->
  match strides_of shape with
  | Ok ss => ss = cstrides shape
  | Err _ => ~ sane shape
  | Panic => False
  end.
Proof.
  induction 1 as [|d shape Hd Hs IH]; [done|]. cbn [strides_of].
  assert (sane (d :: shape) -> sane shape) as Hsane.
  { unfold sane. cbn. intros [[Hd0 Hp]%Forall_cons Hlt]. split; [done|].
    pose proof (zprod_pos _ Hp). nia. }
  destruct (strides_of shape) as [ss| |]; [|by intros ?%Hsane|done]. subst ss. cbn [mbind result_bind].
  destruct shape as [|d' shape]; [done|]. cbn [cstrides].
  destruct (checked_mul _ _) as [s|] eqn:Hc; cbn [ok_or mbind result_bind].
  - apply checked_mul_some in Hc as [-> _]. f_equal. cbn. lia.
  - intros Hsn%Hsane. destruct Hsn as [_ Hlt]. unfold checked_mul in Hc. case_decide; [done|]. cbn in *. lia.
Qed.

Lemma length_cstrides shape : length (cstrides shape) = length shape.
Proof. induction shape; cbn; auto. Qed.

(** One free axis: what it adds to the base, and the dimension it makes. *)
Lemma range_offsets start len step s :
  (fun i => i * s) <$> positions (Range start len step) =
  Z.add (start * s) <$> ((fun k => k * (step * s)) <$> seqZ 0 len).
Proof.
  cbn [positions]. rewrite <- !list_fmap_compose. apply list_fmap_ext. intros; cbn; lia.
Qed.

(** No axis selects nothing. *)
Definition nonempty_axes (fs : list (AxisSel * bool)) : Prop :=
  Forall (fun f => AxisSel.len f.1 <> 0) fs.

Section FreeAxes.
Context (ha : bool) (group : option Advanced).

(** The dims a walk over [fs] adds: an equation between sums, whatever comes
    before; [n] is where the group's dimension would go. *)
Definition adds (ss : list Z) (fs : list (AxisSel * bool)) (new : list Dim) (c : Z) : Prop :=
  nonempty_axes fs -> forall b pre, sums b (pre ++ free_dims ss fs) = sums (b + c) (pre ++ (offs <$> new)).
Definition adds_at (ss : list Z) (fs : list (AxisSel * bool)) (new : list Dim) (c : Z) (n : nat) : Prop :=
  nonempty_axes fs -> forall b pre G, sums b (pre ++ group_dims G ss fs) =
    sums (b + c) (pre ++ (offs <$> take n new) ++ G :: (offs <$> drop n new)).

(** The step a range makes in its source, when the code computes it. *)
Lemma range_step d shape start len step :
  entry_ok ha d (Range start len step, false) -> 1 < len ->
  match ok_or BadSelection (i64_try_from (zprod shape) ≫= fun stride => i64_checked_mul stride step) with
  | Ok s => s = step * zprod shape /\ is_i64 s
  | Err _ => ~ sane (d :: shape)
  | Panic => False
  end.
Proof.
  intros [(Hin & _ & Hst) _] Hlen. cbn in Hin, Hst.
  destruct (_ ≫= _) as [s|] eqn:Hs; cbn [ok_or].
  - destruct (i64_try_from _) as [t|] eqn:Ht; [|done]. cbn in Hs.
    apply i64_try_from_some in Ht as [-> _]. apply i64_checked_mul_some in Hs as [-> ?].
    split; [lia|done].
  - intros [[Hd Hp]%Forall_cons Hlt]. pose proof (zprod_pos _ Hp). cbn in Hlt.
    rewrite Forall_fmap, Forall_forall in Hin.
    pose proof (Hin 0 ltac:(apply elem_of_seqZ; lia)) as H0.
    pose proof (Hin 1 ltac:(apply elem_of_seqZ; lia)) as H1. cbn in H0, H1.
    assert (- d < step < d) by lia.
    unfold i64_try_from, i64_checked_mul in Hs. rewrite decide_True in Hs by nia.
    cbn in Hs. rewrite decide_True in Hs; [done|]. unfold is_i64. nia.
Qed.

Definition flagged (axis : nat) (fs : list (AxisSel * bool)) : Prop :=
  forall i f, fs !! i = Some f -> in_advanced group (axis + i) = f.2.

Lemma flagged_cons axis f fs :
  flagged axis (f :: fs) -> in_advanced group axis = f.2 /\ flagged (S axis) fs.
Proof.
  intros Hf. split; [rewrite <- (Nat.add_0_r axis); by apply (Hf 0%nat)|].
  intros i f' Hi. rewrite <- (Hf (S i) f' Hi). f_equal. lia.
Qed.

(** What the loop leaves behind, having started from [bs], [ds] and [at_]. *)
Definition axes_post (shape : list Z) (fs : list (AxisSel * bool)) (bs : Z) (ds : list Dim)
    (at_ : option nat) (r : result AexError (Z * list Dim * option nat)) : Prop :=
  match r with
  | Ok (bs', ds', at') => exists new c, ds' = ds ++ new /\ eqw bs' (bs + c) /\
      (sane shape -> Forall dim_ok new) /\ adds (cstrides shape) fs new c /\
      (if has_group fs
       then exists n, (n <= length new)%nat /\
            at' = Some (match at_ with Some a => a | None => (length ds + n)%nat end) /\
            adds_at (cstrides shape) fs new c n
       else at' = at_)
  | Err _ => ~ sane shape
  | Panic => False
  end.

Lemma sane_tail d shape : sane (d :: shape) -> sane shape.
Proof.
  intros [[Hd Hp]%Forall_cons Hlt]. split; [done|]. cbn in Hlt. pose proof (zprod_pos _ Hp). nia.
Qed.

(** A free axis whose offsets are [c0] and the dimensions [hd]. *)
Lemma free_axis_post d shape sel fs bs ds at_ bs1 c0 hd r :
  axes_post shape fs bs1 (ds ++ hd) at_ r ->
  eqw bs1 (bs + c0) -> (sane (d :: shape) -> Forall dim_ok hd) ->
  (AxisSel.len sel <> 0 -> forall b pre rest, sums b (pre ++ ((fun i => i * zprod shape) <$> positions sel) :: rest) =
    sums (b + c0) (pre ++ (offs <$> hd) ++ rest)) ->
  axes_post (d :: shape) ((sel, false) :: fs) bs ds at_ r.
Proof.
  intros Hr Hbs Hok Hsums. destruct r as [[[bs' ds'] at']|e|]; cbn in *;
    [|by intros ?%sane_tail|done].
  destruct Hr as (new & c & -> & Hb' & Hnew & Ha & Hg).
  exists (hd ++ new), (c0 + c). split; [by rewrite app_assoc|]. split.
  { rewrite Hb', Hbs. f_equal. lia. }
  split; [intros Hsn; apply Forall_app; split; [by apply Hok | by eapply Hnew, sane_tail]|].
  split.
  { intros [Hsel Hne]%Forall_cons b pre. cbn [cstrides free_dims].
    rewrite Hsums, app_assoc, Ha by done. rewrite fmap_app, app_assoc.
    f_equal. lia. }
  destruct (has_group fs); [|done]. destruct Hg as (n & Hn & -> & Hat).
  exists (length hd + n)%nat. split; [rewrite length_app; lia|]. split.
  { destruct at_; [done|]. rewrite length_app. f_equal. lia. }
  intros [Hsel Hne]%Forall_cons b pre G. cbn [cstrides group_dims].
  rewrite Hsums, app_assoc, Hat by done. rewrite take_app_add, drop_app_add, fmap_app, !app_assoc. f_equal. lia.
Qed.

Lemma group_member_post d shape sel fs bs ds at_ r :
  axes_post shape fs bs ds (Some (default (length ds) at_)) r ->
  axes_post (d :: shape) ((sel, true) :: fs) bs ds at_ r.
Proof.
  intros Hr. destruct r as [[[bs' ds'] at']|e|]; cbn in *; [|by intros ?%sane_tail|done].
  destruct Hr as (new & c & -> & Hb' & Hnew & Ha & Hg).
  exists new, c. split; [done|]. split; [done|]. split; [by intros ?%sane_tail; apply Hnew|].
  split; [intros [_ Hne]%Forall_cons; exact (Ha Hne)|]. exists 0%nat. split; [lia|]. split.
  { assert (at' = Some (default (length ds) at_)) as -> by (destruct (has_group fs); naive_solver).
    destruct at_; cbn; f_equal; lia. }
  intros [_ Hne]%Forall_cons b pre G. cbn [cstrides group_dims take drop fmap list_fmap app].
  change (G :: free_dims (cstrides shape) fs) with ([G] ++ free_dims (cstrides shape) fs).
  rewrite app_assoc, Ha, <- app_assoc by done. done.
Qed.

Lemma free_axes_spec shape fs pss axis bs ds at_ :
  Forall2 (entry_ok ha) shape fs -> flagged axis fs -> length pss = axis ->
  axes_post shape fs bs ds at_ (free_axes group (pss ++ cstrides shape) axis fs.*1 bs ds at_).
Proof.
  intros Hf. revert pss axis bs ds at_. induction Hf as [|d [s b] shape fs Hd Hf IH];
    intros pss axis bs ds at_ Hfl Hpss.
  - exists [], 0. cbn. rewrite app_nil_r. split; [done|]. split; [f_equal; lia|].
    split; [constructor|]. split; [|done]. intros _ b pre. cbn. f_equal. lia.
  - apply flagged_cons in Hfl as [Hb Hfl]. cbn in Hb.
    assert (forall bs ds at_, axes_post shape fs bs ds at_
      (free_axes group (pss ++ zprod shape :: cstrides shape) (S axis) fs.*1 bs ds at_)) as IH'.
    { intros bs' ds' at'. specialize (IH (pss ++ [zprod shape]) (S axis) bs' ds' at' Hfl).
      rewrite <- app_assoc in IH. apply IH. rewrite length_app; cbn; lia. }
    clear IH. cbn [cstrides fmap list_fmap free_axes fst].
    rewrite lookup_app_r, Hpss, Nat.sub_diag by lia. cbn [lookup list_lookup expect mbind result_bind].
    rewrite Hb. destruct b.
    + apply group_member_post. destruct at_; apply IH'.
    + destruct s as [i|start len step|l].
      * eapply (free_axis_post _ _ _ _ _ _ _ _ (i * zprod shape) []); [rewrite app_nil_r; apply IH'|..].
        -- by rewrite eqw_wadd, eqw_wmul.
        -- intros _. constructor.
        -- intros _ b pre rest. apply sums_single.
      * destruct (Z.ltb_spec 1 len) as [Hlen|Hlen].
        -- pose proof (range_step d shape start len step Hd Hlen) as Hst.
           destruct (ok_or _ _) as [st| |]; [|done..]. destruct Hst as [-> Hi64].
           cbn [mbind result_bind].
           eapply (free_axis_post _ _ _ _ _ _ _ _ (start * zprod shape)); [apply IH'|..].
           ++ by rewrite eqw_wadd, eqw_wmul.
           ++ intros [[Hd0 Hp]%Forall_cons _]. pose proof (zprod_pos _ Hp).
              destruct Hd as [(_ & _ & _ & Hst0) _]. repeat constructor; [done|apply Hi64|apply Hi64|nia].
           ++ intros _ b pre rest. rewrite range_offsets, sums_common. done.
        -- destruct Hd as [(Hin & Hlen0 & _) _]. cbn in Hlen0.
           eapply (free_axis_post _ _ _ _ _ _ _ _ (start * zprod shape) []); [rewrite app_nil_r; apply IH'|..].
           ++ by rewrite eqw_wadd, eqw_wmul.
           ++ intros _. constructor.
           ++ cbn. intros Hne b pre rest. assert (len = 1) as -> by lia.
              change ((fun k => start + k * step) <$> _) with (positions (Range start 1 step)).
              rewrite range_offsets, sums_common.
              change (_ <$> seqZ 0 1) with [0 * (step * zprod shape)]. rewrite sums_single.
              cbn. f_equal; lia.
      * by destruct Hd as [_ [? _]].
Qed.
End FreeAxes.

(** ** The group *)

Lemma add_indices_zip stride offsets l :
  length l = length offsets ->
  add_indices stride offsets l = zip_with (fun o i => o +w (i *w stride)) offsets l.
Proof.
  revert l. induction offsets as [|o offsets IH]; intros [|i l] Hl; cbn in *; try done.
  f_equal. apply IH. lia.
Qed.

(** Offsets that stand for [o k] at position [k]. *)
Definition offsets_are (L : Z) (offsets : list Z) (o : Z -> Z) : Prop :=
  Forall2 eqw offsets (o <$> seqZ 0 L).

Lemma offsets_are_ext L offsets o o' :
  (forall k, 0 <= k < L -> o k = o' k) -> offsets_are L offsets o -> offsets_are L offsets o'.
Proof.
  intros Ho. unfold offsets_are. replace (o' <$> seqZ 0 L) with (o <$> seqZ 0 L); [done|].
  apply list_fmap_ext. intros i k Hk%list_elem_of_lookup_2%elem_of_seqZ. apply Ho. lia.
Qed.

Lemma add_indices_spec L stride offsets l o :
  zlen l = L -> offsets_are L offsets o ->
  offsets_are L (add_indices stride offsets l) (fun k => o k + l !!! Z.to_nat k * stride).
Proof.
  intros Hl Ho. unfold offsets_are in *.
  assert (length l = length offsets) as Hlen.
  { apply Forall2_length in Ho. rewrite length_fmap, length_seqZ in Ho. lia. }
  rewrite add_indices_zip by done. apply Forall2_same_length_lookup in Ho as [Hlo Ho].
  apply Forall2_same_length_lookup. split.
  - rewrite length_zip_with, length_fmap, length_seqZ. lia.
  - intros i x y Hx Hy. rewrite lookup_zip_with in Hx. rewrite list_lookup_fmap in Hy.
    destruct (offsets !! i) as [a|] eqn:Ha; [|done]. cbn in Hx.
    destruct (l !! i) as [b|] eqn:Hb; [|done]. injection Hx as <-.
    destruct (seqZ 0 L !! i) as [k|] eqn:Hk; [|done]. injection Hy as <-.
    assert (eqw a (o k)) as Hak by (apply (Ho i); [done|]; by rewrite list_lookup_fmap, Hk).
    apply lookup_seqZ in Hk as [-> _]. rewrite eqw_wadd, eqw_wmul, Hak, Z.add_0_l, Nat2Z.id.
    by rewrite (list_lookup_total_correct _ _ _ Hb).
Qed.

Section Group.
Context (ha : bool) (L : Z).

Lemma group_fold_spec shape fs pss psel bs offsets o :
  Forall2 (entry_ok ha) shape fs -> length pss = length psel ->
  (forall l, (FancyAxis l, true) ∈ fs -> zlen l = 1 \/ zlen l = L) ->
  offsets_are L offsets o ->
  exists bs' offsets',
    mfold (group_axis (pss ++ cstrides shape) (psel ++ fs.*1)) (bs, offsets)
      (true_axes fs (length pss)) = Ok (bs', offsets') /\
    eqw bs' (bs + scalars (cstrides shape) fs) /\
    offsets_are L offsets' (fun k => o k + arrays (cstrides shape) fs k).
Proof.
  intros Hf. revert pss psel bs offsets o.
  induction Hf as [|d [s b] shape fs Hd Hf IH]; intros pss psel bs offsets o Hps Hl Ho.
  - exists bs, offsets. split; [done|]. split; [cbn; f_equal; lia|].
    eapply offsets_are_ext; [|done]. intros; cbn; lia.
  - assert (forall bs offsets o, offsets_are L offsets o -> exists bs' offsets',
      mfold (group_axis (pss ++ zprod shape :: cstrides shape) (psel ++ s :: fs.*1)) (bs, offsets)
        (true_axes fs (S (length pss))) = Ok (bs', offsets') /\
      eqw bs' (bs + scalars (cstrides shape) fs) /\
      offsets_are L offsets' (fun k => o k + arrays (cstrides shape) fs k)) as IH'.
    { intros bs0 of0 o0 Ho0. specialize (IH (pss ++ [zprod shape]) (psel ++ [s]) bs0 of0 o0).
      rewrite <- !app_assoc, !length_app in IH. cbn [app length] in IH.
      replace (length pss + 1)%nat with (S (length pss)) in IH by lia.
      apply IH; [lia| |done]. intros l ?. apply Hl. by right. }
    clear IH. cbn [fmap list_fmap cstrides true_axes fst]. destruct b.
    + assert (forall m, (st ← group_axis (pss ++ zprod shape :: cstrides shape) (psel ++ s :: fs.*1)
                   (bs, offsets) (length pss); m st) =
        (st ← (match s with
          | Point index => Ok (bs +w (index *w zprod shape), offsets)
          | FancyAxis [index] => Ok (bs +w (index *w zprod shape), offsets)
          | FancyAxis list => Ok (bs, add_indices (zprod shape) offsets list)
          | Range _ _ _ => Panic
          end); m st : result AexError (Z * list Z))) as Hax.
      { intros m. unfold group_axis. rewrite (lookup_app_r pss), (lookup_app_r psel) by lia.
        by rewrite <- Hps, Nat.sub_diag. }
      cbn [mfold]. rewrite Hax. clear Hax. cbn [scalars arrays].
      assert (forall i, exists bs' offsets',
        mfold (group_axis (pss ++ zprod shape :: cstrides shape) (psel ++ s :: fs.*1))
          (bs +w (i *w zprod shape), offsets) (true_axes fs (S (length pss))) = Ok (bs', offsets') /\
        eqw bs' (bs + (i * zprod shape + scalars (cstrides shape) fs)) /\
        offsets_are L offsets' (fun k => o k + arrays (cstrides shape) fs k)) as Hscalar.
      { intros i. destruct (IH' (bs +w (i *w zprod shape)) offsets o Ho) as (bs' & of' & -> & Hb & Ho').
        exists bs', of'. split; [done|]. split; [|done].
        rewrite Hb, eqw_wadd, eqw_wmul. f_equal. lia. }
      assert (forall l, zlen l = L -> exists bs' offsets',
        mfold (group_axis (pss ++ zprod shape :: cstrides shape) (psel ++ s :: fs.*1))
          (bs, add_indices (zprod shape) offsets l) (true_axes fs (S (length pss))) = Ok (bs', offsets') /\
        eqw bs' (bs + scalars (cstrides shape) fs) /\
        offsets_are L offsets'
          (fun k => o k + (l !!! Z.to_nat k * zprod shape + arrays (cstrides shape) fs k))) as Harray.
      { intros l Hll.
        destruct (IH' bs _ _ (add_indices_spec L (zprod shape) offsets l o Hll Ho)) as (bs' & of' & -> & Hb & Ho').
        exists bs', of'. split; [done|]. split; [done|].
        eapply offsets_are_ext; [|exact Ho']. intros; cbn; lia. }
      destruct Hd as [_ Hk]. cbn in Hk.
      destruct s as [i|? ? ?|[|x [|y l]]]; cbn [mbind result_bind]; [apply Hscalar|done| |apply Hscalar|];
        apply Harray; destruct (Hl _ ltac:(left)); done || cbn in *; lia.
    + destruct (IH' bs offsets o Ho) as (bs' & of' & -> & Hb & Ho').
      exists bs', of'. split; [done|]. destruct s as [?|? ? ?|[|? [|? ?]]]; done.
Qed.

(** With one position there are only scalars. *)
Lemma arrays_single ss fs k :
  (forall l, (FancyAxis l, true) ∈ fs -> zlen l = 1 \/ zlen l = L) -> L = 1 -> arrays ss fs k = 0.
Proof.
  intros Hl HL. revert ss. induction fs as [|[s b] fs IH]; intros [|s' ss]; [done..|].
  assert (forall l, (FancyAxis l, true) ∈ fs -> zlen l = 1 \/ zlen l = L) as Hl'
    by (intros l ?; apply Hl; by right).
  specialize (IH Hl' ss). cbn. destruct s as [?|? ? ?|[|x [|y l]]], b; try done;
    destruct (Hl _ ltac:(left)); cbn in *; lia.
Qed.
End Group.

(** ** [new] *)

Lemma u64_elements shape r :
  resolved_wf shape r -> zprod shape <= two64 -> u64 <$> elements shape r = elements shape r.
Proof.
  intros Hw HN. rewrite <- (list_fmap_id (elements shape r)) at 2. apply list_fmap_ext.
  intros i x Hx%list_elem_of_lookup_2%(elements_range shape r); [|done].
  cbn. apply u64_id. unfold is_u64. lia.
Qed.

Lemma flagged_flags r : flagged (advanced r) 0 (flags r).
Proof.
  intros i f Hi. unfold flags in Hi. rewrite list_lookup_imap in Hi.
  apply fmap_Some in Hi as (s & _ & ->). done.
Qed.

Lemma nonempty_flags shape r :
  resolved_wf shape r -> zprod (out_shape r) <> 0 -> 0 < glen r /\ nonempty_axes (flags r).
Proof.
  intros Hw Hne. rewrite (wf_shape _ _ Hw) in Hne. pose proof (wf_len _ _ Hw).
  assert (glen r <> 0) by (intros Hz; rewrite Hz in Hne; lia).
  split; [lia|]. apply Forall_forall. intros [s b] Hs Hl. cbn in Hl. destruct b.
  - destruct (wf_axes _ _ Hw) as [ha Ha]. apply list_elem_of_lookup in Hs as [i Hi].
    destruct (Forall2_lookup_r _ _ _ _ _ Ha Hi) as (d & _ & _ & Hk). cbn in *.
    destruct s as [|a n st|l]; cbn in Hl; [lia|done|].
    apply list_elem_of_lookup_2 in Hi. destruct (wf_fancy _ _ Hw _ Hi); nia.
  - rewrite (free_len_zero _ _ Hs) in Hne by done. lia.
Qed.

(** The reference, as sums, when there is a group. *)
Lemma selected_group shape r g :
  resolved_wf shape r -> advanced r = Some g ->
  let G := group_offsets (group_len g) (cstrides shape) (flags r) in
  elements shape r =
    sums 0 (if adjacent g then group_dims G (cstrides shape) (flags r)
            else G :: free_dims (cstrides shape) (flags r)).
Proof.
  intros Hw Hg. destruct (wf_axes _ _ Hw) as [ha Ha]. pose proof (wf_group _ _ Hw) as Hgr.
  rewrite Hg, bool_decide_true in Hgr by done. unfold elements, selected. rewrite Hg.
  destruct (adjacent g); [by apply (walk_none ha) | by apply (walk_outer ha)].
Qed.

(** The group's dimension among the others: its scalars go to the base, and an
    array of one to nothing at all. *)
Lemma group_output L ss fs c bs offsets nw m :
  0 < L -> (forall l, (FancyAxis l, true) ∈ fs -> zlen l = 1 \/ zlen l = L) ->
  eqw bs (c + scalars ss fs) -> offsets_are L offsets (arrays ss fs) ->
  u64 <$> sums c ((offs <$> take m nw) ++ group_offsets L ss fs :: (offs <$> drop m nw)) =
  output {| base := bs;
            dims := if 1 <? L then take m nw ++ List offsets :: drop m nw else nw |}.
Proof.
  intros HL Hl Hbs Hof. unfold output, group_offsets. cbn [base dims].
  replace ((fun k => scalars ss fs + arrays ss fs k) <$> seqZ 0 L)
    with (Z.add (scalars ss fs) <$> (arrays ss fs <$> seqZ 0 L)) by by rewrite <- list_fmap_compose.
  rewrite sums_common. destruct (Z.ltb_spec 1 L).
  - apply sums_cong; [by rewrite Hbs|]. rewrite fmap_app, fmap_cons.
    apply Forall2_app; [apply eqw_lists_refl|]. constructor; [|apply eqw_lists_refl].
    cbn [offs]. apply Forall2_flip. eapply Forall2_impl; [exact Hof|]. done.
  - assert (L = 1) as -> by lia. change (arrays ss fs <$> seqZ 0 1) with [arrays ss fs 0].
    rewrite (arrays_single 1 ss fs 0 Hl eq_refl), sums_single, <- fmap_app, take_drop.
    apply sums_cong; [by rewrite Hbs, Z.add_0_r|].
    apply eqw_lists_refl.
Qed.

Lemma zeros_are L : offsets_are L (replicate (Z.to_nat L) 0) (fun _ => 0).
Proof.
  unfold offsets_are. apply Forall2_same_length_lookup.
  rewrite length_replicate, length_fmap, length_seqZ. split; [done|].
  intros i x y [-> _]%lookup_replicate. rewrite list_lookup_fmap.
  destruct (_ !! i); [|done]. by intros [= <-].
Qed.

Lemma vec_insert_ok {E A} m (x : A) l :
  (m <= length l)%nat -> vec_insert (E:=E) m x l = Ok (take m l ++ x :: drop m l).
Proof. intros Hm. unfold vec_insert. by rewrite (proj2 (Nat.leb_le _ _) Hm). Qed.

Lemma dims_ok_insert shape m L offsets nw :
  (sane shape -> Forall dim_ok nw) -> zlen offsets = L ->
  sane shape -> Forall dim_ok (if 1 <? L then take m nw ++ List offsets :: drop m nw else nw).
Proof.
  intros Hok HL Hsn. destruct (Z.ltb_spec 1 L); [|by apply Hok].
  apply Forall_app. split; [by apply Forall_take, Hok|].
  constructor; [cbn; lia | by apply Forall_drop, Hok].
Qed.

Lemma new_group_spec shape r g bs nw n c :
  resolved_wf shape r -> zprod shape <= two64 -> advanced r = Some g -> eqw bs c ->
  (sane shape -> Forall dim_ok nw) -> adds (cstrides shape) (flags r) nw c ->
  adds_at (cstrides shape) (flags r) nw c n -> (n <= length nw)%nat ->
  exists g', (
    '(base, offsets) ← mfold (group_axis (cstrides shape) (axes r))
        (bs, replicate (Z.to_nat (group_len g)) 0) (group_axes g);
    (if 1 <? group_len g then
      let at_ := if adjacent g then default 0%nat (Some n) else 0%nat in
      dims ← vec_insert at_ (List offsets) nw;
      Ok {| base := base; dims := dims |}
     else Ok {| base := base; dims := nw |})) = Ok g' /\
  (zprod (out_shape r) <> 0 -> output g' = elements shape r) /\ (sane shape -> Forall dim_ok (dims g')).
Proof.
  intros Hw HN Hg Hbs Hok Hadds Hat Hn. destruct (wf_axes _ _ Hw) as [ha Ha].
  pose proof (wf_fancy _ _ Hw) as Hfancy. pose proof (wf_len _ _ Hw) as HL.
  pose proof (nonempty_flags _ _ Hw) as Hne. unfold glen in *. rewrite Hg in *.
  rewrite (wf_group_axes _ _ Hw g Hg).
  destruct (group_fold_spec ha (group_len g) shape (flags r) [] [] bs _ _ Ha eq_refl Hfancy
    (zeros_are (group_len g))) as (bs' & offsets & Hfold & Hbs' & Hoffs).
  cbn [app length] in Hfold. rewrite flags_fst in Hfold. rewrite Hfold. cbn [mbind result_bind].
  set (m := if adjacent g then n else 0%nat).
  exists {| base := bs'; dims := if 1 <? group_len g then take m nw ++ List offsets :: drop m nw else nw |}.
  assert (zlen offsets = group_len g) as Hlen.
  { apply Forall2_length in Hoffs. rewrite length_fmap, length_seqZ in Hoffs. lia. }
  split; [|split; [|by apply dims_ok_insert]].
  - change (default 0%nat (Some n)) with n. cbn zeta. fold m. rewrite vec_insert_ok by (subst m; destruct (adjacent g); lia).
    by destruct (1 <? group_len g).
  - intros [HL0 Hnef]%Hne. rewrite <- (u64_elements shape r), (selected_group shape r g) by done.
    rewrite <- (group_output _ (cstrides shape) (flags r) c); [|done..| |].
    + subst m. destruct (adjacent g).
      * pose proof (Hat Hnef 0 [] (group_offsets (group_len g) (cstrides shape) (flags r))) as H'.
        cbn [app] in H'. by rewrite H'.
      * pose proof (Hadds Hnef 0 [group_offsets (group_len g) (cstrides shape) (flags r)]) as H'.
        cbn [app] in H'. by rewrite H'.
    + by rewrite Hbs', Hbs.
    + eapply offsets_are_ext; [|exact Hoffs]. intros; cbn; lia.
Qed.

(** The result of [new] names the selected elements, in order; it answers whenever
    the array has elements and fewer than [2^63] of them. *)
Lemma new_spec shape r :
  Forall (fun d => 0 <= d) shape -> zprod shape <= two64 -> resolved_wf shape r ->
  match new shape r with
  | Ok g => (zprod (out_shape r) <> 0 -> output g = elements shape r) /\
            (sane shape -> Forall dim_ok (dims g))
  | Err _ => ~ sane shape
  | Panic => False
  end.
Proof.
  intros Hs HN Hw. unfold new. pose proof (strides_of_spec shape Hs) as Hss.
  destruct (strides_of shape) as [ss| |]; [subst ss|done..]. cbn [mbind result_bind].
  destruct (wf_axes _ _ Hw) as [ha Ha].
  pose proof (free_axes_spec ha (advanced r) shape (flags r) [] 0 0 [] None Ha (flagged_flags r) eq_refl) as Hfa.
  cbn [app] in Hfa. rewrite flags_fst in Hfa.
  destruct (free_axes _ _ _ _ _ _ _) as [[[bs ds] at_]| |]; [|done..]. cbn [mbind result_bind].
  destruct Hfa as (nw & c & -> & Hbs & Hok & Hadds & Hat). cbn [app length Nat.add] in *.
  pose proof (wf_group _ _ Hw) as Hg. destruct (advanced r) as [g|] eqn:Hadv.
  - rewrite bool_decide_true in Hg by done. rewrite Hg in Hat. destruct Hat as (n & Hn & -> & Hadds_at).
    destruct (new_group_spec shape r g bs nw n c) as (g' & He & H'); [done..|].
    match type of He with ?l = _ => match goal with |- match ?e with _ => _ end =>
      change e with l end end. by rewrite He.
  - rewrite bool_decide_false in Hg by naive_solver.
    split; [|done]. intros [_ Hnef]%(nonempty_flags _ _ Hw).
    rewrite <- (u64_elements shape r) by done. unfold elements, selected, output. rewrite Hadv.
    rewrite (walk_free ha) by done. pose proof (Hadds Hnef 0 []) as H'. cbn [app] in H'.
    rewrite H'. apply sums_cong; [done|]. apply eqw_lists_refl.
Qed.

(** ** The base is a word *)

Lemma free_axes_base group strides axis sels bs ds at_ bs' ds' at' :
  is_u64 bs -> free_axes group strides axis sels bs ds at_ = Ok (bs', ds', at') -> is_u64 bs'.
Proof.
  revert axis bs ds at_. induction sels as [|s sels IH]; intros axis bs ds at_ Hbs; cbn [free_axes].
  - by intros [= <- <- <-].
  - intros H. apply bind_ok in H as (stride & _ & H). destruct (in_advanced _ _); [by eapply IH in H|].
    destruct s as [i|start len st|l]; [by eapply IH in H; [|auto with word]| |done].
    destruct (1 <? len); [apply bind_ok in H as (? & _ & H)|]; by eapply IH in H; [|auto with word].
Qed.

Lemma group_fold_base strides sels l bs offsets bs' offsets' :
  is_u64 bs -> mfold (group_axis strides sels) (bs, offsets) l = Ok (bs', offsets') -> is_u64 bs'.
Proof.
  revert bs offsets. induction l as [|axis l IH]; intros bs offsets Hbs; cbn [mfold].
  - by intros [= <- <-].
  - intros H. apply bind_ok in H as ([bs1 of1] & H1 & H). eapply IH in H; [done|].
    unfold group_axis in H1. apply bind_ok in H1 as (stride & _ & H1).
    apply bind_ok in H1 as (s & _ & H1).
    destruct s as [?|? ? ?|[|? [|? ?]]]; try done; injection H1 as <- <-; auto with word.
Qed.

Lemma new_base shape r g : new shape r = Ok g -> is_u64 (base g).
Proof.
  unfold new. intros H. apply bind_ok in H as (ss & _ & H).
  apply bind_ok in H as ([[bs ds] at_] & Hf & H). apply free_axes_base in Hf; [|unfold is_u64; lia].
  destruct (advanced r) as [a|]; [|by injection H as <-].
  apply bind_ok in H as ([bs' offsets] & Hg & H). apply group_fold_base in Hg; [|done].
  destruct (1 <? group_len a); [apply bind_ok in H as (? & _ & H)|]; by injection H as <-.
Qed.

(** C18: a gathered layout names the selection.  The base and the dimensions
    [Gathered::new] computes enumerate exactly the selected elements, in result order,
    with every index array walked in step; it never panics, and fails only on an array
    that is empty or has 2^63 elements. *)
Theorem gathered_new_exact shape indices r :
  Forall (fun d => 0 <= d) shape -> zprod shape <= two64 -> Forall index_wf indices ->
  resolve shape indices = Ok r ->
  match new shape r with
  | Ok g => zprod (out_shape r) <> 0 -> output g = elements shape r
  | Err _ => ~ sane shape
  | Panic => False
  end.
Proof.
  intros Hs HN Hi Hr. pose proof (resolve_spec shape indices Hs Hi) as Hw. rewrite Hr in Hw.
  pose proof (new_spec shape r Hs HN Hw) as Hn. destruct (new shape r); [|done..]. by destruct Hn.
Qed.

Definition demo_group : ResolvedSelection :=
  {| axes := [FancyAxis [1; 0]; FancyAxis [1; 1]; Range 1 2 (-1)]; out_shape := [2; 2];
     advanced := Some {| group_axes := [0%nat; 1%nat]; group_len := 2; adjacent := true |} |}.

Lemma gathered_new_exact_witness :
  output {| base := 1; dims := [List [12; 3]; Stride 2 (-1)] |} = elements [2; 3; 3] demo_group.
Proof.
  assert (Forall index_wf [Fancy [1; 0]; Fancy [1; 1]; Slice (Some 1) None (Some (-1))]) as Hi
    by (repeat constructor; cbn; unfold is_i64; lia).
  exact (gathered_new_exact [2; 3; 3] [Fancy [1; 0]; Fancy [1; 1]; Slice (Some 1) None (Some (-1))]
    demo_group ltac:(repeat constructor; lia) ltac:(cbn; lia) Hi eq_refl ltac:(cbn; lia)).
Defined.

