(* ===== verification/StretchSpec.v ===== *)
(** The walk over stretches: whatever is done with each stretch, [for_each_stretch]
    does it to a sequence of stretches whose elements are, in order, exactly the
    output elements asked for. *)
From S2P Require Import Prelude Errors Selection SelectionSpec Gathered GatheredSpec.

(** ** Elements of a stretch *)

Definition stretch_elems (s : Stretch) : list Z :=
  (fun j => u64 (src s + j * step s)) <$> seqZ 0 (count s).

Definition held_elems (p : option Stretch) : list Z :=
  match p with Some s => stretch_elems s | None => [] end.

Definition all_elems (l : list Stretch) : list Z := l ≫= stretch_elems.

(** What every stretch handed over satisfies: it is not empty, and unless it is a
    run it spans no more than one scratch buffer. *)
Definition stretch_ok (itemsize : Z) (s : Stretch) : Prop :=
  1 <= count s /\ is_u64 (src s) /\ is_i64 (step s) /\
  (step s = 1 \/ (count s - 1) * (Z.abs (step s) * itemsize) + itemsize <= SPAN_MAX_BYTES).

Lemma length_stretch_elems s : 0 <= count s -> zlen (stretch_elems s) = count s.
Proof. intros. unfold stretch_elems. rewrite length_fmap, length_seqZ. lia. Qed.

Lemma all_elems_app l k : all_elems (l ++ k) = all_elems l ++ all_elems k.
Proof. apply bind_app. Qed.

(** ** Holding a stretch back *)

(** [m] hands [out] to its callback and keeps [kept] back. *)
Definition emits (m : forall St, (St -> Stretch -> result AexError St) -> St ->
                        result AexError (option Stretch * St))
    (out : list Stretch) (kept : option Stretch) : Prop :=
  forall St f st, m St f st = (st' ← mfold f st out; Ok (kept, st')).

Section Hold.
Context (itemsize : Z).

Lemma normal_elems s :
  stretch_ok itemsize s ->
  let s' := if count s =? 1 then {| src := src s; step := 1; count := count s |} else s in
  stretch_elems s' = stretch_elems s /\ stretch_ok itemsize s'.
Proof.
  intros Hs. cbn zeta. destruct (Z.eqb_spec (count s) 1) as [Hc|]; [|done].
  unfold stretch_elems. cbn [src step count]. rewrite Hc. split; [done|].
  split; [cbn; lia|]. split; [apply Hs|]. split; [cbn; unfold is_i64; lia|]. by left.
Qed.

Lemma hold_spec pending s :
  stretch_ok itemsize s -> (forall p, pending = Some p -> stretch_ok itemsize p) ->
  zlen (held_elems pending) + count s < two64 ->
  exists out kept, emits (fun St f st => hold f pending st s) out (Some kept) /\
    all_elems out ++ stretch_elems kept = held_elems pending ++ stretch_elems s /\
    Forall (stretch_ok itemsize) (out ++ [kept]).
Proof.
  intros Hs Hp Hlen. destruct (normal_elems s Hs) as [He Hok]. unfold emits, hold.
  assert (count (if count s =? 1 then {| src := src s; step := 1; count := count s |} else s) = count s) as Hc
    by by destruct (count s =? 1).
  set (s' := if count s =? 1 then _ else s) in *. clearbody s'. cbn zeta in *.
  destruct pending as [p|].
  - destruct (_ && _) eqn:Hj.
    + (* the one held back carries on *)
      apply andb_true_iff in Hj as [[Hp1 Hs1]%andb_true_iff Hsrc].
      apply Z.eqb_eq in Hp1, Hs1, Hsrc. destruct (Hp p eq_refl) as (Hpc & Hpu & _ & _).
      destruct Hs as (Hsc & _). cbn [held_elems] in Hlen. rewrite length_stretch_elems in Hlen by lia.
      exists [], {| src := src p; step := step p; count := count p +w count s' |}.
      split; [done|]. rewrite wadd_small by (unfold is_u64; lia). split.
      * transitivity (stretch_elems p ++ stretch_elems s'); [|by rewrite He].
        change (all_elems [] ++ ?x) with x. unfold stretch_elems. cbn [src step count].
        rewrite Hp1, Hs1, seqZ_split, fmap_app by lia. f_equal.
        rewrite fmap_seqZ_shift, <- Hsrc.
        apply list_fmap_ext. intros i j _. cbn. eqw_solve.
      * constructor; [|done]. split; [cbn; lia|]. split; [done|].
        split; [cbn; unfold is_i64; lia|]. by left.
    + exists [p], s'. split; [|split].
      * intros St f st. cbn. by destruct (f st p).
      * unfold all_elems. cbn. rewrite app_nil_r. by rewrite He.
      * constructor; [by apply Hp|]. by constructor.
  - exists [], s'. split; [done|]. split; [done|]. by constructor.
Qed.
End Hold.

(** ** One row *)

(** The elements of the row whose outer terms add up to [row]. *)
Definition row_elems (row : Z) (inner : Dim) : list Z := (fun o => u64 (row + o)) <$> offs inner.

Lemma length_offs d : 0 <= Dim.len d -> zlen (offs d) = Dim.len d.
Proof. destruct d; cbn; [|done]. intros. rewrite length_fmap, length_seqZ. lia. Qed.

(** The stretch of [n] elements from [k] on. *)
Definition row_stretch (row : Z) (inner : Dim) (term n : Z) : Stretch :=
  {| src := row +w term; step := match inner with Stride _ step => step | List _ => 1 end; count := n |}.

Lemma slice_one {A} (l : list A) k x : 0 <= k -> l !! Z.to_nat k = Some x -> slice k 1 l = [x].
Proof. intros Hk Hx. unfold slice. by rewrite (drop_lookup _ _ _ Hx). Qed.

Lemma row_stretch_elems row inner k n :
  0 <= k -> 0 < n -> k + n <= Dim.len inner ->
  match inner with List _ => n = 1 | _ => True end ->
  exists term, Dim.term inner k = Ok term /\
    stretch_elems (row_stretch row inner term n) = slice k n (row_elems row inner).
Proof.
  intros Hk Hn Hle Hl. unfold row_elems, stretch_elems. destruct inner as [len st|l]; cbn in Hle |- *.
  - eexists. split; [done|]. rewrite <- list_fmap_compose, slice_fmap, slice_seqZ by lia.
    rewrite fmap_seqZ_shift. apply list_fmap_ext. intros i j _. cbn. eqw_solve.
  - subst n. destruct (lookup_lt_is_Some_2 l (Z.to_nat k)) as [o Ho]; [lia|]. rewrite Ho. eexists. split; [done|].
    rewrite (slice_one _ _ (u64 (row + o))); [|done|by rewrite list_lookup_fmap, Ho].
    cbn [src step count row_stretch]. change (_ <$> seqZ 0 1) with [u64 ((row +w o) + 0 * 1)]. f_equal. eqw_solve.
Qed.

Section Row.
Context (itemsize : Z).

(** How large a stretch of this dimension may be. *)
Definition per_ok (inner : Dim) (per take : Z) : Prop :=
  1 <= per /\
  match inner with
  | Stride _ st => is_i64 st /\ (st = 1 \/ per = 1 \/
      (per - 1) * (Z.abs st * itemsize) + itemsize <= SPAN_MAX_BYTES)
  | List _ => per = 1
  end.

Lemma row_stretch_ok row inner term n per take :
  0 < itemsize <= SPAN_MAX_BYTES -> per_ok inner per take -> 1 <= n <= per ->
  stretch_ok itemsize (row_stretch row inner term n).
Proof.
  intros Hi [Hp Hin] Hn. split; [cbn; lia|]. split; [apply wadd_range|]. destruct inner as [len st|l]; cbn.
  - destruct Hin as [Hst Hper]. split; [done|]. destruct Hper as [->|[->|Hper]]; [by left| |].
    + right. assert (n = 1) as -> by lia. lia.
    + right. nia.
  - split; [unfold is_i64; lia|by left].
Qed.

Lemma row_stretches_spec fuel inner row k take per i pending :
  0 < itemsize <= SPAN_MAX_BYTES -> per_ok inner per take ->
  0 <= k -> 0 <= i <= take -> k + take <= Dim.len inner -> take - i <= Z.of_nat fuel ->
  (forall p, pending = Some p -> stretch_ok itemsize p) ->
  zlen (held_elems pending) + (take - i) < two64 ->
  exists out kept,
    emits (fun St f st => row_stretches f fuel inner row k take per i pending st) out kept /\
    all_elems out ++ held_elems kept =
      held_elems pending ++ slice (k + i) (take - i) (row_elems row inner) /\
    Forall (stretch_ok itemsize) out /\ (forall p, kept = Some p -> stretch_ok itemsize p).
Proof.
  intros Hisz Hper Hk. revert i pending.
  induction fuel as [|fuel IH]; intros i pending Hi Hle Hfuel Hp Hlen; unfold emits; cbn [row_stretches].
  - exists [], pending. assert (i = take) as -> by lia. rewrite Z.ltb_irrefl, Z.sub_diag.
    split; [done|]. rewrite slice_nil, app_nil_r. done.
  - destruct (Z.ltb_spec i take) as [Hlt|]; last first.
    { exists [], pending. assert (i = take) as -> by lia. rewrite Z.sub_diag, slice_nil, app_nil_r. done. }
    set (n := Z.min per (take - i)). assert (1 <= n <= per /\ n <= take - i) as [Hn1 Hn2].
    { destruct Hper. lia. }
    destruct (row_stretch_elems row inner (k + i) n) as (term & Hterm & Hel); [lia..| |].
    { destruct inner; [done|]. destruct Hper as [_ ->]. lia. }
    destruct (hold_spec itemsize pending (row_stretch row inner term n)) as (out1 & kept1 & Hem1 & Hel1 & Hok1);
      [by eapply row_stretch_ok | done | cbn; lia |].
    apply Forall_app in Hok1 as [Hok1 Hkept1]. rewrite Forall_singleton in Hkept1.
    assert (zlen (stretch_elems kept1) <= zlen (held_elems pending) + n) as Hkl.
    { apply (f_equal length) in Hel1. rewrite !length_app, Hel in Hel1.
      assert (zlen (slice (k + i) n (row_elems row inner)) = n) as Hsl; [|lia].
      apply length_slice; [lia..|]. unfold row_elems. rewrite length_fmap, length_offs; lia. }
    destruct (IH (i + n) (Some kept1)) as (out2 & kept2 & Hem2 & Hel2 & Hok2 & Hkept2);
      [lia..|by intros ? [= <-]|cbn [held_elems]; lia|].
    exists (out1 ++ out2), kept2. split; [|split; [|split; [by apply Forall_app|done]]].
    + intros St f st. rewrite Hterm. cbn [mbind result_bind]. unfold emits in Hem1.
      fold (row_stretch row inner term n). rewrite Hem1, mfold_app.
      destruct (mfold f st out1); cbn [mbind result_bind]; [|done..]. apply Hem2.
    + rewrite all_elems_app, <- app_assoc, Hel2. cbn [held_elems]. rewrite app_assoc, Hel1, Hel, <- app_assoc.
      f_equal. replace (take - i) with (n + (take - (i + n))) by lia.
      rewrite slice_split by lia. do 2 f_equal; lia.
Qed.

Lemma per_stretch_spec inner take :
  0 < itemsize <= SPAN_GAP_BYTES -> dim_ok inner -> 1 <= take ->
  match inner with Stride _ st => Z.abs st * itemsize < two64 | List _ => True end ->
  exists per, per_stretch inner itemsize take = Ok per /\ per_ok inner per take.
Proof.
  intros Hi Hd Ht Hw. unfold per_stretch, per_ok, SPAN_GAP_BYTES, SPAN_MAX_BYTES in *.
  destruct inner as [len st|l]; [|by eexists].
  destruct Hd as (_ & Hi64 & Hst0). destruct (Z.eqb_spec st 1) as [->|Hst1].
  { eexists. split; [done|]. split; [lia|]. split; [done|]. by left. }
  rewrite wmul_small by (unfold is_u64; nia). set (stride := Z.abs st * itemsize) in *.
  assert (itemsize <= stride) by (unfold stride; nia).
  destruct (Z.leb_spec stride 4096) as [Hg|]; [|eexists; split; [done|]; split; [lia|]; split; [done|]; right; by left].
  destruct (Z.eqb_spec stride 0); [lia|]. eexists. split; [done|].
  div_mod 1048576 stride. split; [lia|]. split; [done|]. right. right.
  change (2 ^ 20) with 1048576. assert (1 <= 1048576 / stride) by nia. nia.
Qed.
End Row.

(** ** Rows of the output *)

Lemma bind_uniform_split {A B} (f : A -> list B) (l : list A) (n : nat) x c :
  (forall y, y ∈ l -> zlen (f y) = c) -> l !! n = Some x ->
  exists pre post, l ≫= f = pre ++ f x ++ post /\ zlen pre = Z.of_nat n * c.
Proof.
  intros Hc. revert n. induction l as [|y l IH]; intros [|n] Hx; [done..| |].
  - injection Hx as ->. exists [], (l ≫= f). done.
  - destruct (IH ltac:(intros z Hz; apply Hc; by right) n Hx) as (pre & post & He & Hl).
    exists (f y ++ pre), post. rewrite bind_cons, He, <- app_assoc. split; [done|].
    rewrite length_app, Nat2Z.inj_add, Hl, Hc by left. lia.
Qed.

Lemma slice_bind_uniform {A B} (f : A -> list B) (l : list A) n x c k len :
  (forall y, y ∈ l -> zlen (f y) = c) -> 0 <= n -> l !! Z.to_nat n = Some x ->
  0 <= k -> 0 <= len -> k + len <= c -> slice (n * c + k) len (l ≫= f) = slice k len (f x).
Proof.
  intros Hc Hn Hx Hk Hlen Hle.
  destruct (bind_uniform_split f l _ x c Hc Hx) as (pre & post & -> & Hpre).
  rewrite Z2Nat.id in Hpre by done. rewrite <- Hpre, slice_app_r by lia.
  apply slice_app_l; [lia..|]. rewrite Hc; [lia|]. by eapply list_elem_of_lookup_2.
Qed.

(** The term index [k] adds, exactly. *)
Definition term_val (d : Dim) (k : Z) : Z :=
  match d with Stride _ st => k * st | List l => l !!! Z.to_nat k end.

Fixpoint psum (ds : list Dim) (idx : list Z) : Z :=
  match ds, idx with d :: ds', k :: idx' => term_val d k + psum ds' idx' | _, _ => 0 end.

Abbreviation lens ds := (Dim.len <$> ds).

Lemma term_ok d k :
  0 <= k < Dim.len d -> exists t, Dim.term d k = Ok t /\ eqw t (term_val d k) /\ offs d !! Z.to_nat k = Some (term_val d k).
Proof.
  intros Hk. destruct d as [len st|l]; cbn in Hk |- *.
  - eexists. split; [done|]. split; [by rewrite eqw_wmul, eqw_as_u64|].
    rewrite list_lookup_fmap, lookup_seqZ_lt by lia. cbn [fmap option_fmap option_map]. by rewrite Z2Nat.id, Z.add_0_l by lia.
  - destruct (lookup_lt_is_Some_2 l (Z.to_nat k)) as [o Ho]; [lia|]. exists o.
    by rewrite (list_lookup_total_correct _ _ _ Ho), Ho.
Qed.

Lemma length_sums b ds :
  Forall (fun d => 0 < Dim.len d) ds -> zlen (sums b (offs <$> ds)) = zprod (lens ds).
Proof.
  intros Hd. revert b. induction Hd as [|d ds Hd _ IH]; intros b; [done|]. cbn [fmap list_fmap sums].
  rewrite (length_mbind_const _ _ (zprod (lens ds))); [|intros o _; apply IH].
  rewrite length_offs by lia. done.
Qed.

Lemma in_shape_lens ds idx : in_shape (lens ds) idx -> Forall (fun d => 0 < Dim.len d) ds.
Proof. intros Hi%in_shape_pos. by rewrite Forall_fmap in Hi. Qed.

Lemma sums_lookup b ds idx :
  in_shape (lens ds) idx -> sums b (offs <$> ds) !! Z.to_nat (ravel (lens ds) idx) = Some (b + psum ds idx).
Proof.
  intros Hin. pose proof (in_shape_lens _ _ Hin) as Hpos. revert b idx Hin.
  induction Hpos as [|d ds Hd Hds IH]; intros b idx Hin.
  - cbn [psum fmap list_fmap sums ravel]. by rewrite Z.add_0_r.
  - rewrite fmap_cons in Hin. apply in_shape_cons in Hin as (k & idx' & -> & Hk & Hin').
    rewrite !fmap_cons. cbn [sums ravel psum]. destruct (term_ok d k Hk) as (_ & _ & _ & Ho).
    destruct (bind_uniform_split (fun o => sums (b + o) (offs <$> ds)) (offs d) _ _ (zprod (lens ds))
      ltac:(intros o _; by apply length_sums) Ho) as (pre & post & He & Hpre).
    pose proof (ravel_range _ _ Hin') as Hr. pose proof (zprod_pos _ (in_shape_pos _ _ Hin')).
    rewrite Z2Nat.id, (Z.mul_comm k) in Hpre by lia. rewrite (Z.mul_comm k), <- Hpre, He.
    rewrite lookup_app_r by lia. replace (_ - length pre)%nat with (Z.to_nat (ravel (lens ds) idx')) by lia.
    rewrite lookup_app_l.
    + rewrite IH by done. f_equal. lia.
    + pose proof (length_sums (b + term_val d k) ds Hds). lia.
Qed.

(** The part of a row that a walk takes at once. *)
Lemma output_row_slice b hs inner hidx k len p :
  in_shape (lens hs) hidx -> 0 <= k -> 0 <= len -> k + len <= Dim.len inner ->
  eqw p (b + psum hs hidx) ->
  slice (ravel (lens hs) hidx * Dim.len inner + k) len (u64 <$> sums b (offs <$> (hs ++ [inner]))) =
  slice k len (row_elems p inner).
Proof.
  intros Hin Hk Hl Hle Hp. rewrite fmap_app, sums_app. pose proof (ravel_range _ _ Hin).
  rewrite !fmap_of_bind.
  assert (forall y, u64 <$> sums y [offs inner] = row_elems y inner) as Hrow.
  { intros y. unfold row_elems. cbn [sums]. rewrite fmap_of_bind. generalize (offs inner). intros l.
    induction l as [|o l IH]; [done|]. by rewrite bind_cons, IH. }
  rewrite (slice_bind_uniform _ _ _ (b + psum hs hidx) (Dim.len inner)); try done; [| |lia|by apply sums_lookup].
  - cbn [fmap list_fmap]. rewrite Hrow. unfold row_elems. f_equal. apply list_fmap_ext. intros i o _.
    cbn. symmetry. change (eqw (p + o) (b + psum hs hidx + o)). by rewrite Hp.
  - intros y _. cbn [fmap list_fmap]. rewrite Hrow. unfold row_elems. rewrite length_fmap, length_offs; lia.
Qed.

(** ** The odometer *)

Lemma prefixes_spec ds idx p :
  in_shape (lens ds) idx ->
  exists l, prefixes ds idx p = Ok l /\ length l = length ds /\
    forall i, (i < length ds)%nat ->
      exists q, l !! i = Some q /\ eqw q (p + psum (take (S i) ds) (take (S i) idx)).
Proof.
  revert idx p. induction ds as [|d ds IH]; intros idx p Hin.
  - exists []. split; [by destruct idx|]. split; [done|]. intros i Hi. cbn in Hi. lia.
  - rewrite fmap_cons in Hin. apply in_shape_cons in Hin as (k & idx' & -> & Hk & Hin).
    destruct (term_ok d k Hk) as (t & Ht & Hte & _). cbn [prefixes]. rewrite Ht. cbn [mbind result_bind].
    destruct (IH idx' (p +w t) Hin) as (l & -> & Hl & Hq). eexists. split; [done|]. split; [cbn; lia|].
    intros [|i] Hi.
    + exists (p +w t). split; [done|]. cbn. by rewrite eqw_wadd, Hte, Z.add_0_r.
    + cbn in Hi. destruct (Hq i ltac:(lia)) as (q & Hq1 & Hq2). exists q. split; [done|].
      rewrite Hq2, eqw_wadd, Hte. cbn. eqw_solve.
Qed.

(** Every prefix is the source element with the dimensions further in at 0. *)
Definition prefix_ok (b : Z) (ds : list Dim) (prefix idx : list Z) (upto : nat) : Prop :=
  length prefix = S (length ds) /\
  forall i, (i <= upto)%nat -> exists q, prefix !! i = Some q /\ eqw q (b + psum (take i ds) (take i idx)).

Lemma psum_app d1 d2 i1 i2 :
  length d1 = length i1 -> psum (d1 ++ d2) (i1 ++ i2) = psum d1 i1 + psum d2 i2.
Proof.
  revert i1. induction d1 as [|d d1 IH]; intros [|k i1] Hl; cbn in *; try lia. rewrite IH; lia.
Qed.

Lemma in_shape_length shape idx : in_shape shape idx -> length idx = length shape.
Proof. intros Hl%Forall2_length. lia. Qed.

Lemma refresh_spec b ds prefix idx from :
  in_shape (lens ds) idx -> (from <= length ds)%nat ->
  prefix_ok b ds prefix idx from ->
  exists prefix', refresh ds prefix idx from = Ok prefix' /\ prefix_ok b ds prefix' idx (length ds).
Proof.
  intros Hin Hfrom [Hlen Hpre]. unfold refresh.
  destruct (Hpre from (le_n _)) as (p & Hp & Hpe). rewrite Hp. cbn [expect mbind result_bind].
  assert (in_shape (lens (drop from ds)) (drop from idx)) as Hin'.
  { rewrite fmap_drop. by apply Forall2_drop. }
  destruct (prefixes_spec _ _ p Hin') as (l & -> & Hl & Hq). cbn [mbind result_bind].
  rewrite length_drop in Hl, Hq.
  pose proof (in_shape_length _ _ Hin) as Hil. rewrite length_fmap in Hil.
  eexists. split; [done|]. split; [rewrite length_app, length_take; lia|]. intros i Hi.
  destruct (decide (i <= from)%nat) as [Hif|Hif].
  - destruct (Hpre i Hif) as (q & Hq1 & Hq2). exists q. split; [|done].
    rewrite lookup_app_l by (rewrite length_take; lia). rewrite lookup_take, decide_True by lia. done.
  - destruct (Hq (i - S from)%nat ltac:(lia)) as (q & Hq1 & Hq2). exists q. split.
    + rewrite lookup_app_r by (rewrite length_take; lia). rewrite length_take.
      replace (i - S from `min` length prefix)%nat with (i - S from)%nat by lia. done.
    + rewrite Hq2, Hpe, <- Z.add_assoc.
      rewrite <- psum_app by (rewrite !length_take; lia).
      replace (S (i - S from)) with (i - from)%nat by lia.
      rewrite !take_take_drop. by replace (from + (i - from))%nat with i by lia.
Qed.

Lemma in_shape_lookup shape idx i d k :
  in_shape shape idx -> shape !! i = Some d -> idx !! i = Some k -> 0 <= k < d.
Proof. intros Hin Hd Hk. by eapply (Forall2_lookup_lr _ _ _ _ _ _ Hin). Qed.

Lemma in_shape_insert shape idx i k :
  in_shape shape idx -> (forall d, shape !! i = Some d -> 0 <= k < d) -> in_shape shape (<[i := k]> idx).
Proof.
  intros Hin Hk. destruct (decide (i < length shape)%nat) as [Hi|Hi].
  - destruct (lookup_lt_is_Some_2 shape i Hi) as [d Hd].
    rewrite <- (list_insert_id shape i d) by done. apply Forall2_insert; [done|]. by apply Hk.
  - rewrite list_insert_ge; [done|]. rewrite (in_shape_length _ _ Hin). lia.
Qed.

Lemma carry_spec ds idx i :
  in_shape (lens ds) idx -> (i <= length ds)%nat ->
  exists idx' j, carry ds idx i = Ok (idx', j) /\ (j <= i)%nat /\ in_shape (lens ds) idx' /\
    take j idx' = take j idx /\ drop i idx' = drop i idx /\
    (ravel (take i (lens ds)) (take i idx) + 1 < zprod (take i (lens ds)) ->
     ravel (take i (lens ds)) (take i idx') = ravel (take i (lens ds)) (take i idx) + 1).
Proof.
  revert idx. induction i as [|i IH]; intros idx Hin Hi; cbn [carry].
  - exists idx, 0%nat. split; [done|]. split; [lia|]. split; [done|]. split; [done|]. split; [done|].
    rewrite !take_0. intros Hlt. exfalso. cbn in Hlt. lia.
  - pose proof (in_shape_length _ _ Hin) as Hil. rewrite length_fmap in Hil.
    destruct (lookup_lt_is_Some_2 idx i) as [k Hk]; [lia|].
    destruct (lookup_lt_is_Some_2 ds i) as [d Hd]; [lia|]. rewrite Hk, Hd. cbn [expect mbind result_bind].
    assert (lens ds !! i = Some (Dim.len d)) as Hld by by rewrite list_lookup_fmap, Hd.
    pose proof (in_shape_lookup _ _ _ _ _ Hin Hld Hk) as Hkd.
    assert (forall idx' x, idx' !! i = Some x -> length idx' = length ds ->
      ravel (take (S i) (lens ds)) (take (S i) idx') =
      ravel (take i (lens ds)) (take i idx') * Dim.len d + x) as Hrav.
    { intros idx' x Hx Hx'. rewrite (take_S_r _ _ _ Hld), (take_S_r _ _ _ Hx).
      rewrite ravel_app by (rewrite !length_take, length_fmap; lia). cbn. lia. }
    assert (zprod (take (S i) (lens ds)) = zprod (take i (lens ds)) * Dim.len d) as Hzp.
    { rewrite (take_S_r _ _ _ Hld), zprod_app. cbn. lia. }
    destruct (Z.ltb_spec (k + 1) (Dim.len d)).
    + exists (<[i := k + 1]> idx), i. split; [done|]. split; [lia|].
      split. { apply in_shape_insert; [done|]. intros d'. rewrite Hld. intros [= <-]. lia. }
      split; [by rewrite take_insert_ge|]. split; [rewrite drop_insert_lt by lia; done|]. intros _.
      rewrite (Hrav idx k), (Hrav _ (k + 1)); [|by apply list_lookup_insert_eq; lia|by rewrite length_insert|done|lia].
      rewrite take_insert_ge by lia. lia.
    + assert (k + 1 = Dim.len d) as Hlast by lia.
      assert (in_shape (lens ds) (<[i := 0]> idx)) as Hin0.
      { apply in_shape_insert; [done|]. intros d'. rewrite Hld. intros [= <-]. lia. }
      destruct (IH _ Hin0 ltac:(lia)) as (idx' & j & -> & Hj & Hin' & Htake & Hdrop & Hr).
      rewrite take_insert_ge in Htake, Hr by lia.
      exists idx', j. split; [done|]. split; [lia|]. split; [done|]. split; [done|]. split.
      * replace (S i) with (i + 1)%nat by lia. rewrite <- !drop_drop, Hdrop.
        rewrite !drop_drop, drop_insert_lt by lia. done.
      * assert (idx' !! i = Some 0) as Hi0.
        { rewrite <- (Nat.add_0_r i), <- lookup_drop, Hdrop, lookup_drop, Nat.add_0_r.
          apply list_lookup_insert_eq. lia. }
        pose proof (in_shape_length _ _ Hin') as Hl'. rewrite length_fmap in Hl'.
        rewrite (Hrav idx k), (Hrav idx' 0), Hzp by (done || lia). intros Hlt.
        rewrite Hr by nia. lia.
Qed.

Lemma index_of_spec ds n :
  Forall (fun d => 0 < Dim.len d) ds -> index_of ds n = Ok (unravel (lens ds) n).
Proof.
  induction 1 as [|d ds Hd _ IH]; [done|]. cbn [index_of fmap list_fmap unravel]. rewrite IH.
  cbn [mbind result_bind]. destruct (unravel _ n) as [idx rest].
  destruct (Z.eqb_spec (Dim.len d) 0); [lia|done].
Qed.

(** ** The whole walk *)

Section Rows.
Context (itemsize b : Z) (hs : list Dim) (inner : Dim) (first count : Z).
Context (Hitem : 0 < itemsize <= SPAN_GAP_BYTES).
Context (Hds : Forall dim_ok (hs ++ [inner])).
Context (Hwrap : match inner with Stride _ st => Z.abs st * itemsize < two64 | List _ => True end).
Context (Hfirst : 0 <= first) (Hcount : 0 <= count < two64).
Context (Hin : first + count <= zprod (lens (hs ++ [inner]))).

#[local] Notation ds := (hs ++ [inner]).
#[local] Notation out_elems := (u64 <$> sums b (offs <$> ds)).

Lemma dim_ok_len d : dim_ok d -> 1 < Dim.len d.
Proof. destruct d; cbn; lia. Qed.

Lemma lens_pos : Forall (fun d => 0 < Dim.len d) ds.
Proof. eapply Forall_impl; [exact Hds|]. intros d Hd%dim_ok_len. lia. Qed.

Lemma split_index idx :
  in_shape (lens ds) idx ->
  exists hidx k, idx = hidx ++ [k] /\ in_shape (lens hs) hidx /\ 0 <= k < Dim.len inner /\
    length hidx = length hs /\ ravel (lens ds) idx = ravel (lens hs) hidx * Dim.len inner + k.
Proof.
  intros Hi. rewrite fmap_app in Hi. apply Forall2_app_inv_l in Hi as (hidx & i2 & Hh & Hi2 & ->).
  apply in_shape_cons in Hi2 as (k & i3 & -> & Hk & Hn). apply Forall2_nil_inv_l in Hn as ->.
  pose proof (in_shape_length _ _ Hh) as Hl. rewrite length_fmap in Hl.
  exists hidx, k. split; [done|]. split; [done|]. split; [done|]. split; [done|].
  rewrite fmap_app, ravel_app by (rewrite length_fmap; lia). cbn. lia.
Qed.

(** On to the next row. *)
Lemma next_row hidx k done take prefix :
  in_shape (lens hs) hidx -> 0 <= k < Dim.len inner -> length hidx = length hs ->
  ravel (lens hs) hidx * Dim.len inner + k = first + done ->
  take = Z.min (Dim.len inner - k) (count - done) -> done < count ->
  prefix_ok b ds prefix (hidx ++ [k]) (length ds) ->
  exists idx' i prefix', carry ds (<[length hs := 0]> (hidx ++ [k])) (length hs) = Ok (idx', i) /\
    refresh ds prefix idx' i = Ok prefix' /\ in_shape (lens ds) idx' /\
    prefix_ok b ds prefix' idx' (length ds) /\
    (done + take < count -> ravel (lens ds) idx' = first + (done + take)).
Proof.
  intros Hh Hk Hl Hrav -> Hdone Hpre. rewrite <- Hl.
  replace (<[length hidx := 0]> (hidx ++ [k])) with (hidx ++ [0])
    by (rewrite <- (Nat.add_0_r (length hidx)); by rewrite insert_app_r).
  assert (in_shape (lens ds) (hidx ++ [0])) as Hin0.
  { rewrite fmap_app. apply Forall2_app; [done|]. constructor; [lia|constructor]. }
  destruct (carry_spec ds (hidx ++ [0]) (length hidx) Hin0) as (idx' & i & -> & Hi & Hin' & Htake & Hdrop & Hr).
  { rewrite length_app. lia. }
  rewrite fmap_app, !take_app_length in Hr. rewrite drop_app_length in Hdrop.
  assert (length hidx = length (lens hs)) as Hl' by by rewrite length_fmap.
  rewrite Hl' in Hr. rewrite take_app_length in Hr. rewrite <- Hl' in Hr.
  destruct (refresh_spec b ds prefix idx' i Hin') as (prefix' & Hrefresh & Hpre').
  { rewrite length_app. lia. }
  { destruct Hpre as [Hpl Hpre]. split; [done|]. intros i' Hi'.
    destruct (Hpre i') as (q & Hq1 & Hq2); [rewrite length_app; lia|]. exists q. split; [done|].
    assert (take i' (hidx ++ [k]) = take i' idx') as <-; [|done].
    transitivity (take i' hidx); [by rewrite take_app_le by lia|].
    transitivity (take i' (take i idx')); [|rewrite take_take; f_equal; lia].
    rewrite Htake, take_take, take_app_le by lia. f_equal; lia. }
  exists idx', i, prefix'. split; [done|]. split; [done|]. split; [done|]. split; [done|].
  intros Hlt. destruct (split_index idx' Hin') as (hidx' & k' & -> & Hh' & Hk' & Hlh & ->).
  rewrite Hl, <- Hlh, drop_app_length in Hdrop. injection Hdrop as ->.
  rewrite Hl, <- Hlh, take_app_length in Hr. rewrite fmap_app, zprod_app in Hin. cbn in Hin.
  rewrite Hr by nia. nia.
Qed.

Lemma rows_spec fuel done idx prefix pending :
  count - done <= Z.of_nat fuel -> 0 <= done <= count ->
  in_shape (lens ds) idx -> prefix_ok b ds prefix idx (length ds) ->
  (done < count -> ravel (lens ds) idx = first + done) ->
  (forall p, pending = Some p -> stretch_ok itemsize p) -> zlen (held_elems pending) <= done ->
  exists out kept,
    emits (fun St f st => rows f fuel ds (length hs) inner itemsize count done idx prefix pending st) out kept /\
    all_elems out ++ held_elems kept = held_elems pending ++ slice (first + done) (count - done) out_elems /\
    Forall (stretch_ok itemsize) out /\ (forall p, kept = Some p -> stretch_ok itemsize p).
Proof.
  revert done idx prefix pending.
  induction fuel as [|fuel IH]; intros done idx prefix pending Hf Hd Hi Hpre Hrav Hp Hlen;
    unfold emits; cbn [rows].
  - exists [], pending. assert (done = count) as -> by lia. rewrite Z.ltb_irrefl, Z.sub_diag.
    rewrite slice_nil, app_nil_r. done.
  - destruct (Z.ltb_spec done count) as [Hlt|]; last first.
    { exists [], pending. assert (done = count) as -> by lia. rewrite Z.sub_diag, slice_nil, app_nil_r. done. }
    specialize (Hrav Hlt). destruct (split_index idx Hi) as (hidx & k & -> & Hh & Hk & Hl & Hri).
    rewrite lookup_app_r, Hl, Nat.sub_diag by lia. cbn [lookup list_lookup expect mbind result_bind].
    set (take := Z.min (Dim.len inner - k) (count - done)).
    destruct Hpre as [Hpl Hpre]. destruct (Hpre (length hs)) as (row & Hrow & Hrowe); [rewrite length_app; lia|].
    rewrite take_app_length in Hrowe. rewrite <- Hl, take_app_length in Hrowe.
    rewrite Hrow. cbn [expect mbind result_bind].
    pose proof Hds as [_ Hinner]%Forall_app. rewrite Forall_singleton in Hinner.
    destruct (per_stretch_spec itemsize inner take Hitem Hinner ltac:(lia) Hwrap) as (per & -> & Hper).
    cbn [mbind result_bind].
    destruct (row_stretches_spec itemsize (Z.to_nat take) inner row k take per 0 pending)
      as (out1 & kept1 & Hem1 & Hel1 & Hok1 & Hkept1);
      [unfold SPAN_GAP_BYTES, SPAN_MAX_BYTES in *; lia|done|lia|lia|lia|lia|done|lia|].
    destruct (next_row hidx k done take prefix Hh Hk Hl) as (idx' & i & prefix' & Hcarry & Hrefresh & Hi' & Hpre' & Hr');
      [lia|done|done|done|].
    rewrite Z.sub_0_r, Z.add_0_r in Hel1.
    rewrite <- (output_row_slice b hs inner hidx k take row) in Hel1 by (done || lia).
    replace (ravel (lens hs) hidx * Dim.len inner + k) with (first + done) in Hel1 by lia.
    assert (zlen (held_elems kept1) <= done + take) as Hkl.
    { apply (f_equal length) in Hel1. rewrite !length_app in Hel1.
      assert (zlen (slice (first + done) take out_elems) = take) as Hsl; [|lia].
      apply length_slice; [lia..|]. rewrite length_fmap, length_sums by apply lens_pos. lia. }
    destruct (IH (done + take) idx' prefix' kept1) as (out2 & kept2 & Hem2 & Hel2 & Hok2 & Hkept2);
      [lia|lia|done|done|done|done|lia|].
    exists (out1 ++ out2), kept2. split; [|split; [|split; [by apply Forall_app|done]]].
    + intros St f st. unfold emits in Hem1. rewrite Hem1, mfold_app.
      destruct (mfold f st out1); cbn [mbind result_bind]; [|done..].
      rewrite Hcarry. cbn [mbind result_bind]. rewrite Hrefresh. cbn [mbind result_bind]. apply Hem2.
    + rewrite all_elems_app, <- app_assoc, Hel2, app_assoc, Hel1, <- app_assoc. f_equal.
      replace (count - done) with (take + (count - (done + take))) by lia.
      rewrite slice_split by lia. do 2 f_equal. lia.
Qed.
End Rows.

(** A gathered layout the walk can handle: every dimension is worth walking, and the
    elements of the innermost one are not a whole address space apart. *)
Definition walkable (itemsize : Z) (g : Gathered) : Prop :=
  is_u64 (base g) /\ Forall dim_ok (dims g) /\
  match last (dims g) with Some (Stride _ st) => Z.abs st * itemsize < two64 | _ => True end.

Lemma length_output g : Forall dim_ok (dims g) -> zlen (output g) = zprod (lens (dims g)).
Proof.
  intros Hd. unfold output. rewrite length_fmap. apply length_sums.
  eapply Forall_impl; [exact Hd|]. intros d Hdim%dim_ok_len. lia.
Qed.

Lemma prefix_ok_init b ds idx : prefix_ok b ds (replicate (S (length ds)) b) idx 0.
Proof.
  split; [by rewrite length_replicate|]. intros i Hi. assert (i = 0%nat) as -> by lia.
  exists b. split; [done|]. cbn. by rewrite Z.add_0_r.
Qed.

Lemma for_each_stretch_spec g itemsize first count :
  0 < itemsize <= SPAN_GAP_BYTES -> walkable itemsize g ->
  0 <= first -> 0 <= count < two64 -> first + count <= zlen (output g) ->
  exists out, (forall St (f : St -> Stretch -> result AexError St) st,
      for_each_stretch f g itemsize first count st = mfold f st out) /\
    all_elems out = slice first count (output g) /\ Forall (stretch_ok itemsize) out.
Proof.
  intros Hitem (Hbase & Hds & Hwrap) Hfirst Hcount Hle. rewrite length_output in Hle by done.
  unfold for_each_stretch. destruct (Z.eqb_spec count 0) as [->|Hne].
  { exists []. by rewrite slice_nil. }
  destruct g as [b ds]. cbn [base dims] in *.
  destruct (decide (ds = [])) as [->|Hnil].
  - exists [{| src := b; step := 1; count := 1 |}]. cbn in Hle.
    assert (first = 0) as -> by lia. assert (count = 1) as -> by lia. split; [|split].
    + intros St f st. cbn. by destruct (f st _).
    + change (all_elems _) with [u64 (b + 0 * 1)]. change (slice 0 1 _) with [u64 b].
      do 2 f_equal. lia.
    + constructor; [|done]. split; [cbn; lia|]. split; [done|]. split; [cbn; unfold is_i64; lia|]. by left. 
  - destruct (exists_last Hnil) as (hs & inner & ->). rewrite last_snoc in *.
    assert (Forall (fun d => 0 < Dim.len d) (hs ++ [inner])) as Hpos.
    { eapply Forall_impl; [exact Hds|]. intros d Hdim%dim_ok_len. lia. }
    rewrite index_of_spec by done.
    destruct (unravel_in (lens (hs ++ [inner])) first) as [Hin Hrav]; [lia|by apply Forall_fmap|].
    destruct (unravel (lens (hs ++ [inner])) first) as [idx rest]. cbn [fst] in Hin, Hrav.
    cbn [mbind result_bind].
    destruct (refresh_spec b (hs ++ [inner]) (replicate (S (length (hs ++ [inner]))) b) idx 0 Hin)
      as (prefix & -> & Hpre); [lia|apply prefix_ok_init|]. cbn [mbind result_bind].
    destruct (rows_spec itemsize b hs inner first count Hitem Hds Hwrap Hfirst Hcount Hle
      (Z.to_nat count) 0 idx prefix None) as (out & kept & Hem & Hel & Hok & Hkept);
      [lia|lia|done|done|lia|done|cbn; lia|].
    replace (length (hs ++ [inner]) - 1)%nat with (length hs) by (rewrite length_app; cbn; lia).
    rewrite Z.add_0_r, Z.sub_0_r in Hel. change (held_elems None) with (@nil Z) in Hel. cbn [app] in Hel.
    destruct kept as [s|].
    + exists (out ++ [s]). split; [|split].
      * intros St f st. unfold emits in Hem. rewrite Hem, mfold_app.
        destruct (mfold f st out); cbn; [|done..]. by destruct (f _ s).
      * rewrite all_elems_app. unfold output. cbn [base dims]. rewrite <- Hel.
        unfold all_elems. cbn [mbind list_bind held_elems]. by rewrite app_nil_r.
      * apply Forall_app. split; [done|]. constructor; [by apply Hkept|done].
    + exists out. split; [|split; [|done]].
      * intros St f st. unfold emits in Hem. rewrite Hem. by destruct (mfold f st out).
      * cbn [held_elems] in Hel. by rewrite app_nil_r in Hel.
Qed.

(** C19: the walk hands over what was asked for.  Whatever is done with each
    stretch, [for_each_stretch] does it, in order, to stretches that are never empty,
    never wider than a scratch buffer unless they are one run, and whose elements are
    exactly output elements [first .. first + count). *)
Theorem for_each_stretch_exact g itemsize first count :
  0 < itemsize <= SPAN_GAP_BYTES -> walkable itemsize g ->
  0 <= first -> 0 <= count < two64 -> first + count <= zlen (output g) ->
  exists out, (forall St (f : St -> Stretch -> result AexError St) st,
      for_each_stretch f g itemsize first count st = mfold f st out) /\
    all_elems out = slice first count (output g) /\ Forall (stretch_ok itemsize) out.
Proof. apply for_each_stretch_spec. Qed.

Lemma for_each_stretch_exact_witness :
  exists out, (forall St (f : St -> Stretch -> result AexError St) st,
      for_each_stretch f {| base := 5; dims := [Stride 3 10; Stride 4 (-1)] |} 2 2 7 st = mfold f st out) /\
    all_elems out = slice 2 7 [5; 4; 3; 2; 15; 14; 13; 12; 25; 24; 23; 22] /\
    Forall (stretch_ok 2) out.
Proof.
  apply (for_each_stretch_exact {| base := 5; dims := [Stride 3 10; Stride 4 (-1)] |}).
  - unfold SPAN_GAP_BYTES. lia.
  - split; [unfold is_u64; cbn; lia|]. split; [repeat constructor; unfold is_i64; lia|]. cbn. lia.
  - lia.
  - lia.
  - vm_compute. discriminate.
Defined.
