(* ===== verification/ReadSpec.v ===== *)
(** [Gathered::read] against the reference: whatever the range, aligned to elements or
    not, the bytes it produces are that range of the logical stream. *)
From S2P Require Import Prelude Errors Selection SelectionSpec Gathered GatheredSpec StretchSpec.

(** ** Streams of equal pieces *)

(** A slice of pieces is a slice of the stream. *)
Lemma slice_bind {A B} (f : A -> list B) c off len (l : list A) :
  (forall x, x ∈ l -> zlen (f x) = c) ->
  0 <= c -> 0 <= off -> 0 <= len -> off + len <= zlen l ->
  slice off len l ≫= f = slice (off * c) (len * c) (l ≫= f).
Proof.
  intros Hc Hc0 Ho Hl Hle.
  assert (l = take (Z.to_nat off) l ++ slice off len l ++ drop (Z.to_nat len) (drop (Z.to_nat off) l)) as He.
  { unfold slice. by rewrite take_drop, take_drop. }
  assert (zlen (take (Z.to_nat off) l ≫= f) = off * c) as H1.
  { rewrite (length_mbind_const _ _ c); [rewrite length_take, Nat.min_l, Z2Nat.id by lia; done|].
    intros x Hx. apply Hc. rewrite He. apply elem_of_app. by left. }
  assert (zlen (slice off len l ≫= f) = len * c) as H2.
  { rewrite (length_mbind_const _ _ c); [by rewrite length_slice by lia|].
    intros x Hx. apply Hc. rewrite He. apply elem_of_app. right. apply elem_of_app. by left. }
  rewrite He at 2. rewrite !bind_app, <- H1, <- (Z.add_0_r (zlen _)), slice_app_r by lia.
  rewrite slice_app_l by lia. rewrite <- H2, slice_all. done.
Qed.

Section Source.
Context (data : list Z) (isz N : Z).
Context (Hisz : 0 < isz <= SPAN_GAP_BYTES).
Context (Hdata : zlen data = N * isz) (HN : N * isz < two63).
Context (read_src : Z -> Z -> result AexError (list Z)).
Context (Hread : forall off len, 0 <= off -> 0 <= len -> off + len <= zlen data ->
  read_src off len = Ok (slice off len data)).

(** The bytes of element [e]. *)
Definition elem_bytes (e : Z) : list Z := slice (e * isz) isz data.
Definition valid (e : Z) : Prop := 0 <= e < N.

Lemma length_elem_bytes e : valid e -> zlen (elem_bytes e) = isz.
Proof. intros He. unfold valid in He. apply length_slice; nia. Qed.

Lemma length_elems_bytes l : Forall valid l -> zlen (l ≫= elem_bytes) = zlen l * isz.
Proof.
  intros Hl. apply length_mbind_const. intros x Hx. rewrite Forall_forall in Hl.
  by apply length_elem_bytes, Hl.
Qed.

(** Consecutive elements are consecutive bytes. *)
Lemma run_bytes e n :
  0 <= e -> 0 <= n -> e + n <= N -> seqZ e n ≫= elem_bytes = slice (e * isz) (n * isz) data.
Proof.
  intros He Hn. revert e He. pattern n. apply natlike_ind; [|intros m Hm IH e He Hle|done].
  - intros e He _. by rewrite Z.mul_0_l, slice_nil.
  - rewrite seqZ_cons by lia. rewrite bind_cons, Z.pred_succ, IH by lia.
    replace (Z.succ m * isz) with (isz + m * isz) by lia. rewrite slice_split by nia.
    unfold elem_bytes. do 2 f_equal. lia.
Qed.

(** A stretch whose elements the source has. *)
Definition stretch_in (s : Stretch) : Prop :=
  stretch_ok isz s /\ forall j, 0 <= j < count s -> valid (src s + j * step s).

Lemma stretch_exact s : stretch_ok isz s -> Forall valid (stretch_elems s) -> stretch_in s.
Proof.
  intros Hs Hv. split; [done|]. destruct Hs as (Hc & Hsrc & Hst & _). unfold valid, is_u64, is_i64 in *.
  assert (N < two63) as HN' by nia.
  assert (forall j, 0 <= j < count s -> 0 <= u64 (src s + j * step s) < N) as Hj.
  { intros j Hj. rewrite Forall_forall in Hv. apply Hv. apply list_elem_of_fmap.
    exists j. split; [done|]. apply elem_of_seqZ. lia. }
  intros j [Hj0 Hjc]. revert Hjc. pattern j. apply natlike_ind; [|intros i Hi IH Hjc|done].
  - intros Hjc. specialize (Hj 0 ltac:(lia)). rewrite Z.mul_0_l, Z.add_0_r in *.
    rewrite u64_id in Hj; [done|]. unfold is_u64. lia.
  - specialize (IH ltac:(lia)). pose proof (Hj (Z.succ i) ltac:(lia)) as H1.
    replace (src s + Z.succ i * step s) with ((src s + i * step s) + step s) in * by lia.
    unfold u64 in H1. set (e := src s + i * step s) in *.
    pose proof (Z.div_mod (e + step s) two64 ltac:(lia)).
    pose proof (Z.mod_pos_bound (e + step s) two64 ltac:(lia)).
    assert ((e + step s) / two64 = 0 \/ (e + step s) / two64 <> 0) as [|] by lia; nia.
Qed.

Lemma stretch_elems_exact s : stretch_in s -> stretch_elems s = (fun j => src s + j * step s) <$> seqZ 0 (count s).
Proof.
  intros [_ Hv]. apply list_fmap_ext. intros i j Hj%list_elem_of_lookup_2%elem_of_seqZ.
  apply u64_id. specialize (Hv j ltac:(lia)). unfold valid, is_u64 in *. nia.
Qed.

Lemma stretch_run s : stretch_in s -> step s = 1 -> stretch_elems s = seqZ (src s) (count s).
Proof.
  intros Hs H1. rewrite stretch_elems_exact, H1 by done.
  rewrite <- (list_fmap_id (seqZ (src s) (count s))), <- (Z.add_0_l (src s)) at 1.
  rewrite fmap_seqZ_shift. apply list_fmap_ext. intros; cbn; lia.
Qed.

(** [extent] bounds every element, and is tight for a run. *)
Lemma extent_spec s :
  stretch_in s -> exists lo hi, Stretch.extent s = (lo, hi) /\ 0 <= lo /\ lo < hi <= N /\
    (forall j, 0 <= j < count s -> lo <= src s + j * step s < hi) /\
    (step s = 1 -> lo = src s) /\
    (step s = 1 \/ (hi - lo) * isz <= SPAN_MAX_BYTES).
Proof.
  intros Hs. destruct Hs as [(Hc & Hsrc & Hst & Hspan) Hv] eqn:Heq. clear Heq.
  unfold Stretch.extent. set (l := src s + (count s - 1) * step s).
  pose proof (Hv 0 ltac:(lia)) as H0. pose proof (Hv (count s - 1) ltac:(lia)) as Hl. fold l in Hl.
  rewrite Z.mul_0_l, Z.add_0_r in H0. unfold valid in *.
  assert (src s +w ((count s -w 1) *w as_u64 (step s)) = l) as ->.
  { apply eqw_eq; [|apply wadd_range|unfold is_u64; nia]. unfold l. eqw_solve. }
  rewrite wadd_small by (unfold is_u64; nia).
  eexists _, _. split; [done|]. split; [lia|]. split; [lia|]. split.
  - intros j Hj. destruct (Z.le_ge_cases 0 (step s)); unfold l in *; nia.
  - split; [intros H1; unfold l in *; nia|]. destruct Hspan as [|Hspan]; [by left|right].
    assert (Z.max (src s) l + 1 - Z.min (src s) l = (count s - 1) * Z.abs (step s) + 1) as ->.
    { unfold l. destruct (Z.le_ge_cases 0 (step s)).
      - rewrite Z.abs_eq by lia. nia.
      - rewrite Z.abs_neq by lia. nia. }
    lia.
Qed.
(** ** Cutting a span *)

(** The bytes of the source elements [lo, hi). *)
Definition window (lo hi : Z) : list Z := slice (lo * isz) ((hi - lo) * isz) data.

Lemma window_slice lo hi e n :
  0 <= lo -> lo <= e -> 0 <= n -> e + n <= hi -> hi <= N ->
  slice_checked (E:=AexError) ((e - lo) * isz) (n * isz) (window lo hi) =
  Ok (slice (e * isz) (n * isz) data).
Proof.
  intros. unfold window. rewrite slice_ok; [|nia..|].
  - rewrite slice_slice by nia. f_equal. f_equal. lia.
  - rewrite length_slice by nia. nia.
Qed.

Lemma window_elem lo hi e :
  0 <= lo -> lo <= e < hi -> hi <= N ->
  slice_checked (E:=AexError) ((e - lo) * isz) isz (window lo hi) = Ok (elem_bytes e).
Proof.
  intros. pose proof (window_slice lo hi e 1) as Hw. rewrite Z.mul_1_l in Hw. apply Hw; lia.
Qed.

Lemma strided_spec s lo hi left i done rest :
  stretch_in s -> 0 <= lo -> hi <= N -> (forall j, 0 <= j < count s -> lo <= src s + j * step s < hi) ->
  0 <= i -> i + Z.of_nat left = count s -> zlen done = i * isz -> zlen rest = Z.of_nat left * isz ->
  strided left isz (done ++ rest) (window lo hi) ((src s - lo) * isz) (step s) i =
  Ok (done ++ (((fun j => src s + j * step s) <$> seqZ i (Z.of_nat left)) ≫= elem_bytes)).
Proof.
  intros Hs Hlo Hhi Hj. revert i done rest. induction left as [|left IH]; intros i done rest Hi Hil Hd Hr.
  - cbn. destruct rest; [done|]. cbn in Hr. lia.
  - cbn [strided]. pose proof (Hj i ltac:(lia)) as Hji.
    assert (((src s - lo) * isz) +w (i *w (as_u64 (step s) *w isz)) = (src s + i * step s - lo) * isz) as ->.
    { apply eqw_eq; [|apply wadd_range|unfold is_u64; nia]. eqw_solve. }
    rewrite window_elem by lia. cbn [mbind result_bind].
    assert (zlen (elem_bytes (src s + i * step s)) = isz) as Hl by (apply length_elem_bytes; unfold valid; lia).
    rewrite splice_next by lia. rewrite IH; [|lia|lia| |].
    + rewrite <- app_assoc, (seqZ_cons i) by lia. rewrite fmap_cons, bind_cons.
      replace (Z.pred (Z.of_nat (S left))) with (Z.of_nat left) by lia. done.
    + rewrite length_app. lia.
    + rewrite length_drop. lia.
Qed.

Definition bytes_of (l : list Stretch) : list Z := all_elems l ≫= elem_bytes.

Lemma stretch_valid s : stretch_in s -> Forall valid (stretch_elems s).
Proof.
  intros Hs. rewrite stretch_elems_exact by done. apply Forall_fmap, Forall_forall.
  intros j Hj%elem_of_seqZ. apply Hs. lia.
Qed.

Lemma length_stretch_bytes s : stretch_in s -> zlen (stretch_elems s ≫= elem_bytes) = count s * isz.
Proof.
  intros Hs. rewrite length_elems_bytes by by apply stretch_valid.
  rewrite length_stretch_elems; [done|]. destruct Hs as [[? _] _]. lia.
Qed.

Lemma bytes_of_cons s l : bytes_of (s :: l) = (stretch_elems s ≫= elem_bytes) ++ bytes_of l.
Proof. unfold bytes_of, all_elems. by rewrite bind_cons, bind_app. Qed.

Lemma bytes_of_app l k : bytes_of (l ++ k) = bytes_of l ++ bytes_of k.
Proof. unfold bytes_of. by rewrite all_elems_app, bind_app. Qed.

(** One stretch, cut out of the window. *)
Lemma piece_spec s lo hi dst :
  stretch_in s -> 0 <= lo -> hi <= N -> (forall j, 0 <= j < count s -> lo <= src s + j * step s < hi) ->
  zlen dst = count s * isz ->
  (if step s =? 1 then slice_checked ((src s - lo) * isz) (count s * isz) (window lo hi)
   else take_strided dst (window lo hi) ((src s - lo) * isz) (step s) isz) =
  Ok (stretch_elems s ≫= elem_bytes).
Proof.
  intros Hs Hlo Hhi Hj Hd. assert (1 <= count s) as Hc by apply Hs.
  destruct (Z.eqb_spec (step s) 1) as [H1|H1].
  - pose proof (Hj (count s - 1) ltac:(lia)). pose proof (Hj 0 ltac:(lia)). rewrite H1 in *.
    rewrite window_slice by lia. f_equal.
    rewrite stretch_run, run_bytes by (done || lia). done.
  - unfold take_strided. destruct (Z.eqb_spec isz 0); [lia|]. rewrite Hd, Z.div_mul by lia.
    pose proof (strided_spec s lo hi (Z.to_nat (count s)) 0 [] dst Hs Hlo Hhi Hj) as Hst.
    cbn [app] in Hst. rewrite Hst by (cbn; lia). rewrite stretch_elems_exact by done.
    by rewrite Z2Nat.id by lia.
Qed.

(** Everything held lies in the span. *)
Definition covers (lo hi : Z) (l : list Stretch) : Prop :=
  Forall (fun s => stretch_in s /\ forall j, 0 <= j < count s -> lo <= src s + j * step s < hi) l.

Lemma cut_spec w l pos pre rest :
  0 <= lo w -> lo w <= hi w -> hi w <= N -> covers (lo w) (hi w) l ->
  pos = zlen pre -> (length (bytes_of l) <= length rest)%nat -> zlen (pre ++ rest) < two64 ->
  cut w isz l (window (lo w) (hi w)) pos (pre ++ rest) =
  Ok (pre ++ bytes_of l ++ drop (length (bytes_of l)) rest).
Proof.
  intros Hlo Hlh Hhi Hc. unfold covers in Hc. revert pos pre rest. induction Hc as [|s l [Hs Hj] _ IH];
    intros pos pre rest Hpos Hlen Hb; [done|].
  cbn [cut]. assert (1 <= count s) as Hcs by apply Hs. rewrite bytes_of_cons, length_app in Hlen.
  pose proof (length_stretch_bytes s Hs) as Hlb. rewrite length_app in Hb.
  pose proof (Hj 0 ltac:(lia)) as Hj0. rewrite Z.mul_0_l, Z.add_0_r in Hj0.
  rewrite (wmul_small (count s)) by (unfold is_u64; lia).
  rewrite (wsub_small (src s)) by (unfold is_u64; nia).
  rewrite (wmul_small (src s - lo w)) by (unfold is_u64; nia).
  rewrite (slice_ok pos) by (rewrite ?length_app; lia). cbn [mbind result_bind].
  rewrite piece_spec; [|done|lia|lia|done|apply length_slice; rewrite ?length_app; lia].
  cbn [mbind result_bind]. rewrite splice_ok by (rewrite ?length_app; lia). cbn [mbind result_bind].
  rewrite splice_next by lia. rewrite IH.
  - rewrite bytes_of_cons, <- !app_assoc, length_app, drop_drop. done.
  - rewrite length_app. lia.
  - rewrite length_drop. lia.
  - rewrite !length_app, length_drop. lia.
Qed.
(** ** Span by span *)

Lemma covers_in lo hi l : covers lo hi l -> Forall stretch_in l.
Proof. intros Hc. eapply Forall_impl; [exact Hc|]. by intros s [? _]. Qed.

Lemma length_bytes_of l : Forall stretch_in l -> zlen (bytes_of l) = zlen (all_elems l) * isz.
Proof.
  intros Hl. apply length_elems_bytes. unfold all_elems.
  induction Hl as [|s l Hs _ IH]; [constructor|]. rewrite bind_cons. apply Forall_app.
  split; [by apply stretch_valid|done].
Qed.

(** What is known of the span being put together from the stretches [held]. *)
Record span_ok (w : Span) (D held : list Stretch) : Prop := {
  sp_some : held <> [];
  sp_lo : 0 <= lo w;
  sp_lt : lo w < hi w;
  sp_hi : hi w <= N;
  sp_held : covers (lo w) (hi w) held;
  sp_at : out_at w = zlen (all_elems D);
  sp_count : out_count w = zlen (all_elems held);
  sp_run : forall s, held = [s] -> step s = 1 -> lo w = src s;
  sp_size : (exists s, held = [s] /\ step s = 1) \/ (hi w - lo w) * isz <= SPAN_MAX_BYTES;
}.

Lemma copy_span_spec w D H out :
  span_ok w D H -> Forall stretch_in D ->
  zlen (bytes_of (D ++ H)) <= zlen out < two64 ->
  copy_span read_src w isz H (bytes_of D ++ drop (length (bytes_of D)) out) =
  Ok (bytes_of (D ++ H) ++ drop (length (bytes_of (D ++ H))) out).
Proof.
  intros [] HD Hlen. rewrite bytes_of_app, length_app in *.
  pose proof (covers_in _ _ _ sp_held0) as HH.
  pose proof (length_bytes_of D HD) as HlD. pose proof (length_bytes_of H HH) as HlH.
  unfold copy_span. rewrite sp_at0, sp_count0.
  rewrite (wmul_small (zlen (all_elems D))), (wmul_small (zlen (all_elems H))) by (unfold is_u64; lia).
  rewrite (wmul_small (lo w)), (wsub_small (hi w)) by (unfold is_u64; nia).
  rewrite (wmul_small (hi w - lo w)) by (unfold is_u64; nia).
  rewrite <- HlD, <- HlH.
  assert ((scratch ← read_src (lo w * isz) ((hi w - lo w) * isz);
          cut w isz H scratch (zlen (bytes_of D)) (bytes_of D ++ drop (length (bytes_of D)) out)) =
        Ok ((bytes_of D ++ bytes_of H) ++ drop (length (bytes_of D) + length (bytes_of H)) out)) as Haside.
  { rewrite Hread by nia. cbn [mbind result_bind]. fold (window (lo w) (hi w)).
    rewrite cut_spec; [|done|lia|done|done|done|rewrite length_drop; lia|rewrite length_app, length_drop; lia].
    by rewrite <- app_assoc, drop_drop. }
  destruct H as [|s [|s' H]]; [done| |done]. destruct (Z.eqb_spec (step s) 1) as [H1|]; [|done].
  apply Forall_inv in HH. pose proof (sp_run0 s eq_refl H1) as Hlo.
  assert (1 <= count s) as Hcs by apply HH.
  pose proof (proj2 HH 0 ltac:(lia)) as Hv0. pose proof (proj2 HH (count s - 1) ltac:(lia)) as Hv1.
  rewrite H1 in Hv0, Hv1. unfold valid in *.
  assert (bytes_of [s] = slice (lo w * isz) (count s * isz) data) as Hb.
  { unfold bytes_of, all_elems. rewrite bind_cons, app_nil_r, stretch_run, run_bytes by (done || lia). by rewrite Hlo. }
  unfold read_src_into.
  rewrite slice_ok by (rewrite ?length_app, ?length_drop; lia). cbn [mbind result_bind].
  assert (zlen (bytes_of [s]) = count s * isz) as Hbl by (rewrite Hb, length_slice; nia).
  rewrite Hbl, Hread by nia. cbn [mbind result_bind]. rewrite <- Hb.
  rewrite splice_ok by (rewrite ?length_app, ?length_drop; lia).
  rewrite splice_next by (rewrite ?length_drop; lia). by rewrite drop_drop.
Qed.

(** Between stretches: those in [D] are in place, those in [H] are held. *)
Definition reading_ok (out0 : list Z) (D H : list Stretch) (r : Reading) : Prop :=
  Forall stretch_in (D ++ H) /\ r_out_at r = zlen (all_elems (D ++ H)) /\ r_held r = H /\
  r_out r = bytes_of D ++ drop (length (bytes_of D)) out0 /\
  match r_span r with
  | Some w => span_ok w D H
  | None => D = [] /\ H = []
  end.

Lemma all_elems_snoc l s : stretch_in s -> zlen (all_elems (l ++ [s])) = zlen (all_elems l) + count s.
Proof.
  intros Hs. rewrite all_elems_app, length_app. unfold all_elems at 2. rewrite bind_cons, app_nil_r.
  rewrite Nat2Z.inj_add, length_stretch_elems; [done|]. destruct Hs as [[? _] _]. lia.
Qed.

(** A span of one stretch. *)
Lemma span_fresh s D lo hi :
  stretch_in s -> Stretch.extent s = (lo, hi) ->
  span_ok {| lo := lo; hi := hi; out_at := zlen (all_elems D); out_count := count s |} D [s].
Proof.
  intros Hs He. destruct (extent_spec s Hs) as (lo' & hi' & He' & ? & ? & ? & Hrun & Hspan).
  rewrite He in He'. injection He' as <- <-. split; cbn [Gathered.lo Gathered.hi out_at out_count]; try lia.
  - done.
  - by constructor.
  - pose proof (all_elems_snoc [] s Hs) as Ha. cbn [app] in Ha. rewrite Ha. done.
  - intros s' [= <-]. done.
  - destruct Hspan; [left; by exists s | by right].
Qed.

Lemma covers_mono lo hi lo' hi' l : lo' <= lo -> hi <= hi' -> covers lo hi l -> covers lo' hi' l.
Proof.
  intros. eapply Forall_impl; [done|]. intros s [Hs Hj]. split; [done|].
  intros j Hjj. specialize (Hj j Hjj). lia.
Qed.

(** A span that takes one more stretch in. *)
Lemma span_join w w' D H s lo' hi' :
  span_ok w D H -> stretch_in s -> Stretch.extent s = (lo', hi') ->
  zlen (all_elems (H ++ [s])) < two64 ->
  Span.join w lo' hi' (count s) isz = Some w' -> span_ok w' D (H ++ [s]).
Proof.
  intros [] Hs He Hlen. destruct (extent_spec s Hs) as (lo'' & hi'' & He' & Hlo' & Hlt' & Hb & _ & _).
  rewrite He in He'. injection He' as <- <-. unfold Span.join. cbn zeta.
  destruct (_ || _) eqn:Hj; [done|]. intros [= <-]. apply orb_false_iff in Hj as [_ Hj].
  rewrite wsub_small, wmul_small in Hj by (unfold is_u64; nia). apply Z.ltb_ge in Hj.
  rewrite all_elems_snoc in Hlen by done.
  split; cbn [lo hi out_at out_count]; try lia.
  - by destruct H.
  - apply Forall_app. split; [eapply covers_mono; [..|done]; lia|].
    constructor; [|done]. split; [done|]. intros j Hjj. specialize (Hb j Hjj). lia.
  - rewrite all_elems_snoc by done. rewrite wadd_small by (unfold is_u64; destruct Hs as [[? _] _]; lia). lia.
  - intros s' Hs'. destruct H as [|h [|]]; done.
Qed.

Lemma on_stretch_spec out0 D H r s :
  reading_ok out0 D H r -> stretch_in s -> zlen (bytes_of (D ++ H ++ [s])) <= zlen out0 < two64 ->
  exists D' H' r', on_stretch read_src isz r s = Ok r' /\ D' ++ H' = D ++ H ++ [s] /\
    reading_ok out0 D' H' r'.
Proof.
  intros (Hin & Hat & Hheld & Hout & Hspan) Hs Hlen. pose proof Hin as [HD HH]%Forall_app.
  assert (Forall stretch_in ((D ++ H) ++ [s])) as Hin' by (apply Forall_app; split; [done|by constructor]).
  rewrite length_bytes_of in Hlen by by rewrite app_assoc. rewrite app_assoc, all_elems_snoc in Hlen by done.
  assert (1 <= count s) as Hc by apply Hs.
  unfold on_stretch. destruct (Stretch.extent s) as [lo' hi'] eqn:He. rewrite Hheld, Hout, Hat.
  rewrite wadd_small by (unfold is_u64; nia). rewrite <- all_elems_snoc by done.
  assert (forall E out, Forall stretch_in (E ++ [s]) -> all_elems (E ++ [s]) = all_elems ((D ++ H) ++ [s]) ->
    out = bytes_of E ++ drop (length (bytes_of E)) out0 ->
    reading_ok out0 E [s]
      {| r_span := Some {| lo := lo'; hi := hi'; out_at := zlen (all_elems E); out_count := count s |};
         r_held := [s]; r_out_at := zlen (all_elems ((D ++ H) ++ [s])); r_out := out |}) as Hfresh.
  { intros D1 out HD1 Hal ->. split; [done|]. cbn [r_out_at r_held r_out r_span].
    split; [by rewrite Hal|]. split; [done|]. split; [done|]. by apply span_fresh. }
  destruct (r_span r) as [w|].
  - destruct (Span.join w lo' hi' (count s) isz) as [w'|] eqn:Hj; cbn [mbind result_bind].
    + exists D, (H ++ [s]). eexists. split; [done|]. split; [done|].
      split; [by rewrite app_assoc|]. cbn [r_out_at r_held r_out r_span]. split; [by rewrite app_assoc|].
      split; [done|]. split; [done|]. eapply span_join; [done..| |done].
      rewrite all_elems_app, length_app in Hlen. rewrite all_elems_snoc by done. nia.
    + rewrite copy_span_spec; [|done|done|]; last first.
      { rewrite length_bytes_of by done. nia. }
      cbn [mbind result_bind app]. exists (D ++ H), [s]. eexists. split; [done|].
      split; [by rewrite <- app_assoc|]. by apply (Hfresh (D ++ H)).
  - destruct Hspan as [-> ->]. cbn [mbind result_bind app] in *. exists [], [s]. eexists. split; [done|].
    split; [done|]. by apply (Hfresh []).
Qed.

Lemma fold_spec out0 D H r l :
  reading_ok out0 D H r -> Forall stretch_in l -> zlen (bytes_of (D ++ H ++ l)) <= zlen out0 < two64 ->
  exists D' H' r', mfold (on_stretch read_src isz) r l = Ok r' /\ D' ++ H' = D ++ H ++ l /\
    reading_ok out0 D' H' r'.
Proof.
  intros Hr Hl. revert D H r Hr. induction Hl as [|s l Hs Hl IH]; intros D H r Hr Hlen.
  - exists D, H, r. by rewrite app_nil_r.
  - replace (D ++ H ++ s :: l) with ((D ++ H ++ [s]) ++ l) in * by by rewrite <- !app_assoc.
    destruct (on_stretch_spec out0 D H r s Hr Hs) as (D1 & H1 & r1 & Hon & He & Hr1).
    { rewrite bytes_of_app, length_app in Hlen. lia. }
    cbn [mfold]. rewrite Hon. cbn [mbind result_bind]. rewrite <- He, <- app_assoc in *.
    by apply IH.
Qed.

(** ** The read *)

Definition stream (g : Gathered) : list Z := output g ≫= elem_bytes.

Section Stream.
Context (g : Gathered) (Hwalk : walkable isz g) (Hvalid : Forall valid (output g)).

Lemma length_stream : zlen (stream g) = zlen (output g) * isz.
Proof. by apply length_elems_bytes. Qed.

Lemma stretches_in l : Forall (stretch_ok isz) l -> Forall valid (all_elems l) -> Forall stretch_in l.
Proof.
  intros Hl. induction Hl as [|s l Hs _ IH]; intros Hv; [constructor|].
  unfold all_elems in Hv. rewrite bind_cons, Forall_app in Hv. destruct Hv.
  constructor; [by apply stretch_exact | by apply IH].
Qed.

Lemma slice_stream first count :
  0 <= first -> 0 <= count -> first + count <= zlen (output g) ->
  slice first count (output g) ≫= elem_bytes = slice (first * isz) (count * isz) (stream g).
Proof.
  intros. apply slice_bind; try lia. intros x Hx. rewrite Forall_forall in Hvalid.
  by apply length_elem_bytes, Hvalid.
Qed.

Lemma length_slice_stream first count :
  0 <= first -> 0 <= count -> first + count <= zlen (output g) ->
  zlen (slice (first * isz) (count * isz) (stream g)) = count * isz.
Proof. intros. apply length_slice; rewrite ?length_stream; nia. Qed.

Lemma read_elements_spec first count out :
  0 <= first -> 0 <= count -> first + count <= zlen (output g) ->
  zlen out = count * isz -> count * isz < two64 ->
  read_elements read_src g isz first count out = Ok (slice (first * isz) (count * isz) (stream g)).
Proof.
  intros Hf Hc Hle Hout Hlt. unfold read_elements.
  destruct (for_each_stretch_spec g isz first count Hisz Hwalk) as (l & Hfe & Hel & Hok); [lia|nia|lia|].
  rewrite Hfe. clear Hfe.
  assert (Forall stretch_in l) as Hin.
  { apply stretches_in; [done|]. rewrite Hel. unfold slice. by apply Forall_take, Forall_drop. }
  assert (bytes_of l = slice (first * isz) (count * isz) (stream g)) as Hb.
  { unfold bytes_of. rewrite Hel. by apply slice_stream. }
  pose proof (length_slice_stream first count Hf Hc Hle) as Hbl. rewrite <- Hb in Hbl.
  destruct (fold_spec out [] [] {| r_span := None; r_held := []; r_out_at := 0; r_out := out |} l)
    as (D & H & r & Hfold & HDH & Hr).
  { split; [constructor|]. done. }
  { done. }
  { cbn [app]. lia. }
  rewrite Hfold. cbn [mbind result_bind app] in *. destruct Hr as (Hin' & _ & Hheld & Hro & Hspan).
  rewrite Hheld, Hro. rewrite <- Hb, <- HDH in *. destruct (r_span r) as [w|].
  - rewrite copy_span_spec; [|done|by apply Forall_app in Hin' as [? _]|lia].
    rewrite drop_ge, app_nil_r by lia. done.
  - destruct Hspan as [-> ->]. cbn [app]. cbn in Hbl. f_equal. destruct out; [done|]. cbn in Hout. lia.
Qed.

(** Every byte range of the stream is read as it is. *)
Lemma read_spec offset dst :
  0 <= offset -> offset + zlen dst <= zlen (stream g) -> offset + zlen dst + isz <= two64 ->
  Gathered.read read_src g isz offset dst = Ok (slice offset (zlen dst) (stream g)).
Proof.
  intros Ho Hle Hlt. rewrite length_stream in Hle. unfold Gathered.read.
  rewrite (wadd_small offset) by (unfold is_u64; lia).
  set (end_ := offset + zlen dst) in *. set (first := offset / isz).
  div_mod offset isz. fold first in H. pose proof (div_ceil_spec end_ isz ltac:(lia)) as Hce.
  assert (0 <= first) by (apply Z.div_pos; lia).
  assert (first <= div_ceil end_ isz <= zlen (output g)) as [Hc1 Hc2] by (unfold end_ in *; nia).
  rewrite (wsub_small (div_ceil _ _)) by (unfold is_u64; nia).
  set (count := div_ceil end_ isz - first) in *.
  rewrite (wmul_small first), (wmul_small count) by (unfold is_u64; nia).
  rewrite (wsub_small offset) by (unfold is_u64; nia).
  destruct (_ && _) eqn:Hal.
  - apply andb_true_iff in Hal as [Hs%Z.eqb_eq He%Z.eqb_eq].
    div_mod end_ isz. assert (div_ceil end_ isz = end_ / isz) as Hq by nia.
    assert (count * isz = zlen dst) as Hd by (unfold count, end_ in *; rewrite Hq; lia).
    rewrite read_elements_spec by (done || lia || nia). rewrite Hd. do 2 f_equal. lia.
  - rewrite read_elements_spec; [|lia|lia|lia| |nia].
    + cbn [mbind result_bind]. pose proof (length_slice_stream first count ltac:(lia) ltac:(lia) ltac:(lia)) as Hsl.
      rewrite slice_ok; [|lia|lia|rewrite Hsl; unfold count, end_ in *; lia].
      rewrite slice_slice; [|nia|lia|lia|unfold count, end_ in *; lia]. do 2 f_equal. lia.
    + rewrite length_replicate. nia.
Qed.
End Stream.
End Source.

(** Valid elements keep the innermost step inside the address space. *)
Lemma inner_step_bound g isz N len st :
  0 < isz -> N * isz < two63 -> Forall dim_ok (dims g) -> last (dims g) = Some (Stride len st) ->
  Forall (fun e => 0 <= e < N) (output g) -> Z.abs st * isz < two64.
Proof.
  intros Hi HN Hd Hl Hv. destruct g as [b ds]. cbn [dims] in *.
  apply last_Some in Hl as [hs ->]. pose proof Hd as [Hhs Hin]%Forall_app.
  rewrite Forall_singleton in Hin. destruct Hin as (Hlen & Hst & _).
  set (hidx := (fun _ => 0) <$> hs).
  assert (in_shape (lens hs) hidx) as Hh.
  { subst hidx. clear -Hhs. induction Hhs as [|d hs Hd _ IH]; [constructor|].
    rewrite !fmap_cons. constructor; [|done]. apply dim_ok_len in Hd. lia. }
  pose proof (output_row_slice b hs (Stride len st) hidx 0 2 _ Hh ltac:(lia) ltac:(lia) ltac:(cbn; lia)
    (reflexivity _)) as Hs.
  unfold row_elems in Hs. cbn [offs] in Hs. rewrite !slice_fmap, slice_seqZ in Hs by lia.
  set (p := b + psum hs hidx) in *.
  assert (forall e, e ∈ [u64 (p + 0 * st); u64 (p + 1 * st)] -> 0 <= e < N) as He.
  { intros e He. rewrite Forall_forall in Hv. apply Hv. unfold output. cbn [base dims].
    change [u64 (p + 0 * st); u64 (p + 1 * st)] with
      ((fun o => u64 (p + o)) <$> ((fun k => k * st) <$> seqZ (0 + 0) 2)) in He.
    rewrite <- Hs, <- slice_fmap in He. unfold slice in He.
    apply elem_of_take in He as (i & He & _). rewrite lookup_drop in He.
    by eapply list_elem_of_lookup_2. }
  pose proof (He _ (list_elem_of_here _ _)) as H0.
  pose proof (He _ (list_elem_of_further _ _ _ (list_elem_of_here _ _))) as H1.
  unfold u64, is_i64 in *. rewrite Z.mul_0_l, Z.add_0_r, Z.mul_1_l in *.
  div_mod p (2 ^ 64). div_mod (p + st) (2 ^ 64).
  assert (Z.abs st < N); [|nia].
  assert ((p + st) / two64 = p / two64 \/ (p + st) / two64 <> p / two64) as [|] by lia; nia.
Qed.

Lemma new_walkable shape r g isz N :
  0 < isz -> N * isz < two63 -> new shape r = Ok g -> Forall dim_ok (dims g) ->
  Forall (fun e => 0 <= e < N) (output g) -> walkable isz g.
Proof.
  intros Hi HN Hg Hd Hv. split; [by eapply new_base|]. split; [done|].
  destruct (last (dims g)) as [[len st|l]|] eqn:Hl; [|done..]. by eapply inner_step_bound.
Qed.
