(* ===== verification/Cast.v ===== *)
(** Narrowing elements on the way out: [cast_into] of [aex-core/src/selection.rs].
    [f64 as f32] is Rust's round-to-nearest-even, computed on bit patterns with the
    Standard Library's [SpecFloat]; [half::f16::from_f32] is another crate's. *)
From Stdlib Require Import Floats.SpecFloat.
From S2P Require Import Prelude Errors Dtype Bytes.

(** What the [half] crate supplies, on bit patterns. *)
Class HalfLib := { f16_from_f32 : Z -> Z }.

Module Ieee.
(** An [f64] from its bits. *)
Definition f64_decode (bits : Z) : spec_float :=
  let s := F64.sign bits in
  let e := F64.exponent bits in
  let m := F64.mantissa bits in
  if e =? 0x7ff then (if m =? 0 then S754_infinity s else S754_nan)
  else
    let (m, e) := if e =? 0 then (m, -1074) else (m + 2 ^ 52, e - 1075) in
    match m with Zpos p => S754_finite s p e | _ => S754_zero s end.

Definition f32_sign (s : bool) : Z := if s then 2 ^ 31 else 0.

(** The bits of an [f32] of 24 significant bits. *)
Definition f32_encode (f : spec_float) : Z :=
  match f with
  | S754_zero s => f32_sign s
  | S754_infinity s => f32_sign s + 0x7f800000
  | S754_nan => 0x7fc00000
  | S754_finite s m e =>
      f32_sign s +
      (if Zpos m <? 2 ^ 23 then Zpos m else (e + 150) * 2 ^ 23 + (Zpos m - 2 ^ 23))
  end.

(** Rounded to [f32]'s precision and range; a NaN stays one, quietened, with the
    top of its payload. *)
Definition f64_to_f32 (bits : Z) : Z :=
  match f64_decode bits with
  | S754_nan =>
      f32_sign (F64.sign bits) + Z.lor 0x7fc00000 (Z.shiftr (F64.mantissa bits) 29)
  | S754_finite s m e =>
      f32_encode (binary_normalize 24 128 (if s then Zneg m else Zpos m) e s)
  | f => f32_encode f
  end.
End Ieee.

Example f64_to_f32_one : Ieee.f64_to_f32 0x3ff0000000000000 = 0x3f800000.
Proof. vm_compute. reflexivity. Qed.
Example f64_to_f32_third : Ieee.f64_to_f32 0xbfd5555555555555 = 0xbeaaaaab.
Proof. vm_compute. reflexivity. Qed.
Example f64_to_f32_subnormal : Ieee.f64_to_f32 0x36a0000000000001 = 1.
Proof. vm_compute. reflexivity. Qed.
Example f64_to_f32_overflow : Ieee.f64_to_f32 0x7fe0000000000000 = 0x7f800000.
Proof. vm_compute. reflexivity. Qed.

(** [src.chunks_exact(wide).zip(dst.chunks_exact_mut(narrow))], the body applied to
    each pair; what neither divides evenly is left as it was. *)
Fixpoint cast_chunks (wide narrow : nat) (f : list Z -> list Z) (left : nat)
    (source dst : list Z) : list Z :=
  match left with
  | O => dst
  | S left' =>
      f (take wide source) ++
      cast_chunks wide narrow f left' (drop wide source) (drop narrow dst)
  end.

Section cast.
Context `{HalfLib}.

(** One element narrowed, on its bytes; [None] for a pair that is not a cast. *)
Definition narrow_elem (from to : DType) : option (list Z -> list Z) :=
  match from, to with
  | Float64, Float32 =>
      Some (fun b => to_le_bytes 4 (Ieee.f64_to_f32 (from_le_bytes b)))
  | Float32, Float16 =>
      Some (fun b => to_le_bytes 2 (f16_from_f32 (from_le_bytes b)))
  | _, _ => None
  end.

Definition cast_into (from to : DType) (source dst : list Z) : result AexError (list Z) :=
  match narrow_elem from to with
  | Some f =>
      let wide := Z.to_nat (DType.itemsize from) in
      let narrow := Z.to_nat (DType.itemsize to) in
      let left := Nat.min (length source / wide) (length dst / narrow) in
      Ok (cast_chunks wide narrow f left source dst)
  | None => Err UnsupportedSelection
  end.
End cast.

(** A cast of whole elements is the cast of each. *)
Lemma cast_chunks_spec wide narrow f (eb : Z -> list Z) l dst :
  (forall e, e ∈ l -> length (eb e) = wide) -> length dst = (length l * narrow)%nat ->
  cast_chunks wide narrow f (length l) (l ≫= eb) dst = l ≫= (fun e => f (eb e)).
Proof.
  revert dst. induction l as [|e l IH]; intros dst He Hd.
  - cbn in *. by destruct dst.
  - cbn [length cast_chunks]. rewrite !bind_cons. pose proof (He e ltac:(left)) as Hl.
    rewrite take_app_le, take_ge, <- Hl, drop_app_length by lia. rewrite Hl. f_equal.
    apply IH; [intros x ?; apply He; by right|]. rewrite length_drop. cbn in Hd. lia.
Qed.
