(* ===== verification/Codec.v ===== *)
(** Compressed blocks: [aex-core/src/codec].  The compressors themselves are other
    crates ([flate2], [sz3], [zfp-sys]); what the code wraps around them is here. *)
From S2P Require Import Prelude Errors Dtype Bytes Quality.

(** What the compression crates supply.  A stream is bytes; elements are the bytes of
    typed values, which is how [load] and [store] move them.  [None] is the crate's own
    refusal. *)
Class CodecLib := {
  (** [DeflateEncoder] at level 6, and [DeflateDecoder] writing into a buffer of the
      given size: the bytes it wrote. *)
  deflate : bytes -> option bytes;
  inflate : bytes -> Z -> option bytes;
  (** [sz3]: element type, axes (slowest first), error bound, elements. *)
  sz3_compress : DType -> list Z -> Z -> bytes -> option bytes;
  (** ... and expanding a stream into that many elements of those axes. *)
  sz3_decompress : DType -> list Z -> bytes -> option bytes;
  (** [zfp]: element type, axes (fastest first), error bound, elements; no bytes is
      its refusal. *)
  zfp_compress : DType -> list Z -> Z -> bytes -> bytes;
  (** The stream comes padded to whole words. *)
  zfp_decompress : DType -> list Z -> Z -> bytes -> option bytes;
}.

Definition BLOCK_HEADER_LEN : Z := 24.
Definition MAX_BLOCK_DIMS : nat := 3.
Definition VERSION : Z := 1.

(** [dims] holds [MAX_BLOCK_DIMS] axes, of which the first [ndim] mean something. *)
Record BlockSpec : Type := {
  block_dtype : DType;
  all_dims : list Z;
  ndim : nat;
  block_eps : Z;
}.

#[export] Instance BlockSpec_eq_dec : EqDecision BlockSpec.
Proof. solve_decision. Defined.

(** The block's axes, when the range is a slab of whole innermost rows. *)
Definition slab_axes (out_shape : list Z) (itemsize offset len : Z) : option (list Z) :=
  inner ← last out_shape;
  row ← checked_mul inner itemsize;
  if (row =? 0) || negb (offset mod row =? 0) || negb (len mod row =? 0) then None
  else
    let rows := len / row in
    let first := offset / row in
    let plane := if (2 <=? length out_shape)%nat
                 then out_shape !!! (length out_shape - 2)%nat else 1 in
    let axes := if (1 <? plane) && (rows mod plane =? 0) && (first mod plane =? 0)
                then [rows / plane; plane; inner] else [rows; inner] in
    let axes := filter (fun axis => 1 < axis) axes in
    match axes with [] => None | _ => Some axes end.

Definition u32_try_from (z : Z) : option Z := if z <? two32 then Some z else None.

Module BlockSpec.
Definition for_range (out_shape : list Z) (dtype : DType) (eps offset len : Z)
    : result AexError BlockSpec :=
  let itemsize := DType.itemsize dtype in
  if (len =? 0) || negb (len mod itemsize =? 0) then Err BadBlock
  else
    let count := len / itemsize in
    let axes := default [count] (slab_axes out_shape itemsize offset len) in
    dims ← mapM (fun axis => ok_or BadBlock (u32_try_from axis)) (take MAX_BLOCK_DIMS axes);
    Ok {| block_dtype := dtype;
          all_dims := dims ++ replicate (MAX_BLOCK_DIMS - length dims) 0;
          ndim := length axes; block_eps := eps |}.

Definition dims (s : BlockSpec) : list Z := take (ndim s) (all_dims s).
Definition count (s : BlockSpec) : Z := foldl wmul 1 (dims s).
Definition bytes (s : BlockSpec) : Z := count s *w DType.itemsize (block_dtype s).

Definition encode (s : BlockSpec) : Bytes.bytes :=
  [VERSION; DType.as_i32 (block_dtype s) mod 256; Z.of_nat (ndim s); 0]
  ++ to_le_bytes 8 (block_eps s)
  ++ concat (to_le_bytes 4 <$> all_dims s).

(** A length-1 axis is folded away, so an axis in use is longer than 1, unless it is
    the only one. *)
Definition axis_agrees (n i : nat) (dim : Z) : bool :=
  let want_used := (i <? n)%nat in
  negb (negb (eqb want_used (1 <? dim)) && negb (want_used && (n =? 1)%nat && (dim =? 1))).

Definition decode (src : Bytes.bytes) : result AexError BlockSpec :=
  if zlen src <? BLOCK_HEADER_LEN then Err BadBlock
  else if negb (src !!! 0%nat =? VERSION) then Err BadBlock
  else
    dtype ← DType.from_i32 (src !!! 1%nat);
    let n := Z.to_nat (src !!! 2%nat) in
    if (n =? 0)%nat || (MAX_BLOCK_DIMS <? n)%nat then Err BadBlock
    else
      let eps := from_le_bytes (slice 4 8 src) in
      if negb (F64.is_finite eps) || F64.lt_zero eps then Err BadBlock
      else
        dims ← mapM (fun i =>
            let dim := from_le_bytes (slice (12 + Z.of_nat i * 4) 4 src) in
            if axis_agrees n i dim then Ok dim else Err BadBlock)
          (seq 0 MAX_BLOCK_DIMS);
        Ok {| block_dtype := dtype; all_dims := dims; ndim := n; block_eps := eps |}.
End BlockSpec.

(** [load]: whole elements only. *)
Definition load (size : Z) (src : bytes) : bytes := slice 0 (zlen src / size * size) src.

Module gzip.
Definition compress `{CodecLib} (src dst : bytes) : result AexError bytes :=
  stream ← ok_or BadBlock (deflate src); Ok (dst ++ stream).

Definition decompress_into `{CodecLib} (src dst : bytes) : result AexError bytes :=
  written ← ok_or BadBlock (inflate src (zlen dst));
  if zlen written <? zlen dst then Err BadBlock else Ok written.
End gzip.

Definition is_float (d : DType) : bool :=
  match d with Float32 | Float64 => true | _ => false end.

Module sz.
Definition compress `{CodecLib} (spec : BlockSpec) (src dst : bytes) : result AexError bytes :=
  if is_float (block_dtype spec) then
    stream ← ok_or BadBlock (sz3_compress (block_dtype spec) (BlockSpec.dims spec) (block_eps spec)
               (load (DType.itemsize (block_dtype spec)) src));
    Ok (dst ++ stream)
  else Err BadBlock.

Definition decompress_into `{CodecLib} (spec : BlockSpec) (src : bytes) : result AexError bytes :=
  if is_float (block_dtype spec)
  then ok_or BadBlock (sz3_decompress (block_dtype spec) (BlockSpec.dims spec) src)
  else Err BadBlock.
End sz.

Module zfp.
(** The received bytes, copied onto a word boundary. *)
Definition words (src : bytes) : bytes :=
  src ++ replicate (Z.to_nat (div_ceil (zlen src) 8 * 8 - zlen src)) 0.

Definition compress `{CodecLib} (spec : BlockSpec) (src dst : bytes) : result AexError bytes :=
  if is_float (block_dtype spec) then
    match zfp_compress (block_dtype spec) (reverse (BlockSpec.dims spec)) (block_eps spec)
            (load (DType.itemsize (block_dtype spec)) src) with
    | [] => Err BadBlock
    | stream => Ok (dst ++ stream)
    end
  else Err BadBlock.

Definition decompress_into `{CodecLib} (spec : BlockSpec) (src : bytes) : result AexError bytes :=
  if is_float (block_dtype spec)
  then ok_or BadBlock (zfp_decompress (block_dtype spec) (reverse (BlockSpec.dims spec))
         (block_eps spec) (words src))
  else Err BadBlock.
End zfp.

Section codecs.
Context `{Build} `{CodecLib}.

(** [compress]: what it answers, and what [dst] is left holding. *)
Definition compress (codec : Codec) (spec : BlockSpec) (src : bytes) (dst : bytes)
    : result AexError bool * bytes :=
  if negb (BlockSpec.bytes spec =? zlen src) then (Err BadBlock, dst)
  else
    let head := BlockSpec.encode spec in
    let written :=
      match codec with
      | Gzip => gzip.compress src head
      | Sz => if feature_sz then sz.compress spec src head else Err BadBlock
      | Zfp => if feature_zfp then zfp.compress spec src head else Err BadBlock
      | Raw => Err BadBlock
      end in
    match written with
    | Ok dst => if zlen src <=? zlen dst then (Ok false, []) else (Ok true, dst)
    | Err e => (Err e, [])
    | Panic => (Panic, [])
    end.

(** [decompress_into]: what it puts into [dst]. *)
Definition decompress_into (codec : Codec) (src dst : bytes) : result AexError bytes :=
  spec ← BlockSpec.decode src;
  if negb (BlockSpec.bytes spec =? zlen dst) then Err BadBlock
  else
    let body := drop (Z.to_nat BLOCK_HEADER_LEN) src in
    match codec with
    | Gzip => gzip.decompress_into body dst
    | Sz => if feature_sz then sz.decompress_into spec body else Err BadBlock
    | Zfp => if feature_zfp then zfp.decompress_into spec body else Err BadBlock
    | Raw => Err BadBlock
    end.
End codecs.

(** ** Describing a block *)

(** What [for_range] makes and [decode] accepts: up to three axes, each longer than 1
    unless it is the only one. *)
Definition spec_ok (s : BlockSpec) : Prop :=
  exists axes, all_dims s = axes ++ replicate (MAX_BLOCK_DIMS - length axes) 0 /\
    ndim s = length axes /\ (1 <= length axes <= MAX_BLOCK_DIMS)%nat /\
    Forall (fun a => 1 <= a < two32) axes /\ (Forall (fun a => 1 < a) axes \/ axes = [1]).

Lemma zprod_filter l : Forall (fun a => 1 <= a) l -> zprod (filter (fun a => 1 < a) l) = zprod l.
Proof.
  induction 1 as [|a l Ha _ IH]; [done|]. rewrite filter_cons. case_decide; cbn; rewrite IH; [done|].
  assert (a = 1) as -> by lia. lia.
Qed.

(** The axes of a slab multiply to its length, and none of them is 1. *)
Lemma slab_axes_spec out_shape isz offset len axes :
  Forall (fun d => 0 <= d) out_shape -> 0 < isz -> 0 < len ->
  slab_axes out_shape isz offset len = Some axes ->
  Forall (fun a => 1 < a) axes /\ (1 <= length axes <= MAX_BLOCK_DIMS)%nat /\ zprod axes * isz = len.
Proof.
  intros Hs Hi Hl. unfold slab_axes. destruct (last out_shape) as [inner|] eqn:Hlast; [|done].
  cbn [mbind option_bind]. destruct (checked_mul inner isz) as [row|] eqn:Hrow; [|done].
  cbn [mbind option_bind]. apply checked_mul_some in Hrow as [-> _].
  assert (0 <= inner) as Hin.
  { apply last_Some in Hlast as [k ->]. apply Forall_app in Hs as [_ Hs]. by apply Forall_inv in Hs. }
  destruct (_ || _) eqn:Hbad; [done|]. apply orb_false_iff in Hbad as [[Hr0%Z.eqb_neq _]%orb_false_iff Hlr].
  apply negb_false_iff, Z.eqb_eq in Hlr. set (row := inner * isz) in *.
  div_mod len row. set (rows := len / row) in *. assert (0 < inner) by (unfold row in *; nia).
  assert (0 < rows) by (unfold row in *; nia).
  set (plane := if (2 <=? length out_shape)%nat then _ else 1). cbn zeta.
  set (all := if _ && _ && _ then _ else _).
  assert (Forall (fun a => 1 <= a) all /\ zprod all * isz = len /\ (length all <= 3)%nat) as (Hge1 & Hp & Hn).
  { unfold all. destruct (_ && _) eqn:Hplane.
    - apply andb_true_iff in Hplane as [[Hgt%Z.ltb_lt Hmod%Z.eqb_eq]%andb_true_iff _].
      div_mod rows plane. assert (rows = plane * (rows / plane)) as Hrp by lia.
      assert (0 < rows / plane) by nia. split; [repeat constructor; lia|]. cbn.
      split; [|lia]. unfold row in *. nia.
    - split; [repeat constructor; lia|]. cbn. split; [|lia]. unfold row in *. nia. }
  clearbody all. destruct (filter _ all) as [|a l] eqn:Hf; [done|]. intros [= <-]. rewrite <- Hf.
  split; [apply Forall_forall; intros x [Hx _]%list_elem_of_filter; exact Hx|]. split; [|by rewrite zprod_filter].
  pose proof (length_filter (fun a => 1 < a) all). rewrite Hf in *. unfold MAX_BLOCK_DIMS. cbn in *. lia.
Qed.

Lemma u32_axes l k :
  mapM (fun axis => ok_or BadBlock (u32_try_from axis)) l = Ok k -> k = l /\ Forall (fun a => a < two32) l.
Proof.
  intros Hm%mapM_ok. induction Hm as [|a b l k Hab _ [-> IH]]; [done|].
  unfold u32_try_from in Hab. destruct (Z.ltb_spec a two32); [|done]. cbn in Hab. injection Hab as ->.
  split; [done|]. by constructor.
Qed.

Lemma count_exact s :
  spec_ok s -> zprod (BlockSpec.dims s) < two64 -> BlockSpec.count s = zprod (BlockSpec.dims s).
Proof.
  intros (axes & Hall & Hn & _ & Hax & _). unfold BlockSpec.count, BlockSpec.dims.
  rewrite Hall, Hn, take_app_length. clear -Hax.
  assert (forall a, 1 <= a -> a * zprod axes < two64 -> foldl wmul a axes = a * zprod axes) as Hg.
  { induction Hax as [|d axes Hd Hax IH]; intros a Ha Hlt; cbn in *; [lia|].
    assert (0 < zprod axes).
    { apply zprod_pos. eapply Forall_impl; [exact Hax|]. cbn. lia. }
    rewrite wmul_small by (unfold is_u64; nia). rewrite IH by nia. lia. }
  intros Hlt. rewrite Hg; lia.
Qed.

Lemma for_range_spec out_shape dtype eps offset len s :
  Forall (fun d => 0 <= d) out_shape -> 0 <= len < two64 ->
  BlockSpec.for_range out_shape dtype eps offset len = Ok s ->
  spec_ok s /\ block_dtype s = dtype /\ block_eps s = eps /\
  zprod (BlockSpec.dims s) * DType.itemsize dtype = len /\ BlockSpec.bytes s = len.
Proof.
  intros Hs Hlen. pose proof (itemsize_pos dtype) as Hi. unfold BlockSpec.for_range.
  destruct (_ || _) eqn:Hbad; [done|]. apply orb_false_iff in Hbad as [Hl0%Z.eqb_neq Hmod].
  apply negb_false_iff, Z.eqb_eq in Hmod. set (isz := DType.itemsize dtype) in *.
  div_mod len isz. set (count := len / isz) in *.
  set (axes := default [count] _).
  assert ((1 <= length axes <= MAX_BLOCK_DIMS)%nat /\ zprod axes * isz = len /\
    (Forall (fun a => 1 < a) axes \/ axes = [1]) /\ Forall (fun a => 1 <= a) axes) as (Hn & Hp & Hax & Hax1).
  { unfold axes. destruct (slab_axes _ _ _ _) as [ax|] eqn:Hslab; cbn [default].
    - apply slab_axes_spec in Hslab as (? & ? & ?); [|done|lia|lia].
      split; [done|]. split; [done|]. split; [by left|]. eapply Forall_impl; [done|]. cbn. lia.
    - split; [cbn; unfold MAX_BLOCK_DIMS; lia|]. split; [cbn; lia|].
      assert (1 <= count) by (unfold count in *; nia). split; [|repeat constructor; lia].
      destruct (decide (count = 1)) as [->|]; [by right|left]. repeat constructor. lia. }
  clearbody axes. rewrite take_ge by lia. intros Hm. apply bind_ok in Hm as (dims & Hd & Hm).
  apply u32_axes in Hd as [-> Hd]. injection Hm as <-.
  match goal with |- spec_ok ?s /\ _ => set (sp := s) end.
  assert (spec_ok sp) as Hok.
  { exists axes. split; [done|]. split; [done|]. split; [done|]. split; [|done].
    rewrite Forall_forall in *. intros a Ha. specialize (Hd a Ha). specialize (Hax1 a Ha). cbn in *. lia. }
  assert (BlockSpec.dims sp = axes) as Hdims.
  { unfold BlockSpec.dims, sp. cbn. apply take_app_length. }
  split; [done|]. split; [done|]. split; [done|]. rewrite Hdims. split; [done|].
  unfold BlockSpec.bytes. cbn [block_dtype sp]. fold isz.
  rewrite count_exact by (rewrite ?Hdims; done || nia). rewrite Hdims, wmul_small by (unfold is_u64; lia). done.
Qed.

(** Every range of whole elements short enough for 32-bit axes is described. *)
Lemma for_range_total out_shape dtype eps offset len :
  Forall (fun d => 0 <= d) out_shape -> 0 < len < two32 -> (DType.itemsize dtype | len) ->
  exists s, BlockSpec.for_range out_shape dtype eps offset len = Ok s.
Proof.
  intros Hs Hl Hd. pose proof (itemsize_pos dtype). unfold BlockSpec.for_range.
  rewrite (proj2 (Z.eqb_neq len 0)) by lia. rewrite (proj2 (Z.mod_divide len (DType.itemsize dtype) ltac:(lia)) Hd). cbn [orb negb Z.eqb].
  set (axes := default _ _). assert (Forall (fun a => 0 <= a < two32) axes) as Hax.
  { unfold axes. destruct (slab_axes _ _ _ _) as [ax|] eqn:Hslab; cbn [default].
    - apply slab_axes_spec in Hslab as (Hgt & _ & Hp); [|done|lia|lia]. clear -Hgt Hp Hl H.
      assert (zprod ax <= len) as Hle by nia. assert (zprod ax < two32) as Hlt by lia. clear Hp Hle.
      induction Hgt as [|a l Ha Hgt IH]; constructor; cbn in Hlt.
      + assert (0 < zprod l) by (apply zprod_pos; eapply Forall_impl; [exact Hgt|]; cbn; lia). nia.
      + apply IH. assert (0 < zprod l) by (apply zprod_pos; eapply Forall_impl; [exact Hgt|]; cbn; lia). nia.
    - repeat constructor; [apply Z.div_pos; lia|]. apply Z.div_lt_upper_bound; nia. }
  clearbody axes. assert (mapM (fun axis => ok_or BadBlock (u32_try_from axis)) (take MAX_BLOCK_DIMS axes) = Ok (take MAX_BLOCK_DIMS axes)) as ->.
  { apply mapM_ok. apply Forall_take with (n := MAX_BLOCK_DIMS) in Hax. induction Hax as [|a l Ha _ IH]; constructor; [|done].
    unfold u32_try_from. destruct (Z.ltb_spec a two32); [done|lia]. }
  eexists. reflexivity.
Qed.

(** ** The header on the wire *)

Lemma length_block_encode s : length (all_dims s) = MAX_BLOCK_DIMS -> zlen (BlockSpec.encode s) = BLOCK_HEADER_LEN.
Proof.
  intros Hl. unfold BlockSpec.encode. rewrite !length_app, length_to_le_bytes.
  destruct s as [d [|a [|b [|c [|]]]] n e]; cbn in Hl; try done.
Qed.

Lemma spec_ok_length s : spec_ok s -> length (all_dims s) = MAX_BLOCK_DIMS.
Proof. intros (axes & -> & _ & Hl & _). rewrite length_app, length_replicate. lia. Qed.

Lemma as_i32_byte d : DType.as_i32 d mod 256 = DType.as_i32 d.
Proof. by destruct d. Qed.

Lemma block_decode_encode s rest :
  spec_ok s -> is_u64 (block_eps s) -> F64.is_finite (block_eps s) = true ->
  F64.lt_zero (block_eps s) = false -> BlockSpec.decode (BlockSpec.encode s ++ rest) = Ok s.
Proof.
  intros Hok He Hfin Hneg. pose proof (spec_ok_length s Hok) as Hl3.
  pose proof (length_block_encode s Hl3) as Hlen.
  destruct Hok as (axes & Hall & Hn & Hax & Hr & Hgt). destruct s as [d dims n eps]. cbn in Hall, Hn, He, Hfin, Hneg, Hl3.
  destruct dims as [|x [|y [|z [|]]]]; try done.
  assert (Forall is_u32 [x; y; z]) as Hu.
  { rewrite Hall. apply Forall_app. split; [eapply Forall_impl; [exact Hr|]; unfold is_u32; cbn; lia|].
    apply Forall_replicate. unfold is_u32. lia. }
  rewrite !Forall_cons in Hu. destruct Hu as (Hx & Hy & Hz & _).
  unfold BlockSpec.decode. rewrite length_app. unfold BLOCK_HEADER_LEN in *.
  destruct (Z.ltb_spec (Z.of_nat (length (BlockSpec.encode {| block_dtype := d; all_dims := [x; y; z]; ndim := n; block_eps := eps |}) + length rest)) 24); [lia|].
  set (b := BlockSpec.encode _ ++ rest).
  assert (b !!! 0%nat = VERSION) as -> by done.
  assert (b !!! 1%nat = DType.as_i32 d) as -> by (cbn; apply as_i32_byte).
  assert (b !!! 2%nat = Z.of_nat n) as -> by done.
  assert (slice 4 8 b = to_le_bytes 8 eps) as -> by done.
  assert (mapM (fun i => let dim := from_le_bytes (slice (12 + Z.of_nat i * 4) 4 b) in
      if BlockSpec.axis_agrees n i dim then Ok dim else Err BadBlock) (seq 0 MAX_BLOCK_DIMS) = Ok [x; y; z]) as Hm.
  { apply mapM_ok. cbn [seq MAX_BLOCK_DIMS].
    assert (slice 12 4 b = to_le_bytes 4 x) as Hx' by done.
    assert (slice 16 4 b = to_le_bytes 4 y) as Hy' by done.
    assert (slice 20 4 b = to_le_bytes 4 z) as Hz' by done.
    repeat constructor; cbn zeta; [change (12 + Z.of_nat 0 * 4) with 12; rewrite Hx'
      |change (12 + Z.of_nat 1 * 4) with 16; rewrite Hy'|change (12 + Z.of_nat 2 * 4) with 20; rewrite Hz'];
      rewrite from_to_le_u32 by done; (replace (BlockSpec.axis_agrees _ _ _) with true; [done|]);
      clear -Hall Hn Hax Hgt; unfold BlockSpec.axis_agrees, MAX_BLOCK_DIMS in *;
      destruct axes as [|a [|b [|c [|]]]]; cbn in Hn, Hax, Hall; try lia; subst n; simplify_eq; cbn;
      destruct Hgt as [Hgt|Hgt]; try done; try (rewrite !Forall_cons in Hgt);
      try (destruct (Z.ltb_spec 1 a); [|lia]); try (destruct (Z.ltb_spec 1 b); [|lia]);
      try (destruct (Z.ltb_spec 1 c); [|lia]); simplify_eq; done. }
  cbn [Z.eqb VERSION negb]. change (negb (VERSION =? VERSION)) with false.
  rewrite from_i32_as_i32. cbn [mbind result_bind]. rewrite Nat2Z.id, from_to_le_u64 by done.
  destruct (_ || _) eqn:Hb.
  { exfalso. unfold MAX_BLOCK_DIMS in *. apply orb_true_iff in Hb as [Hb%Nat.eqb_eq|Hb%Nat.ltb_lt]; lia. }
  rewrite Hfin, Hneg. cbn [negb orb]. apply bind_ok. eexists. split; [exact Hm|done].
Qed.

(** A block describes itself.  For any range of any output array,
    [for_range] either refuses it or gives a block whose axes hold exactly the range's
    elements and whose header, followed by anything at all, decodes to the same block. *)
Theorem block_header_roundtrip out_shape dtype eps offset len s rest :
  Forall (fun d => 0 <= d) out_shape -> 0 <= len < two64 ->
  is_u64 eps -> F64.is_finite eps = true -> F64.lt_zero eps = false ->
  BlockSpec.for_range out_shape dtype eps offset len = Ok s ->
  zprod (BlockSpec.dims s) * DType.itemsize dtype = len /\ BlockSpec.bytes s = len /\
  zlen (BlockSpec.encode s) = BLOCK_HEADER_LEN /\ BlockSpec.decode (BlockSpec.encode s ++ rest) = Ok s.
Proof.
  intros Hs Hlen He Hf Hn Hr. apply for_range_spec in Hr as (Hok & _ & <- & Hp & Hb); [|done..].
  split; [done|]. split; [done|]. split; [|by apply block_decode_encode].
  by apply length_block_encode, spec_ok_length.
Qed.

Lemma block_header_roundtrip_witness :
  let s := {| block_dtype := Float32; all_dims := [2; 5; 6]; ndim := 3; block_eps := 0 |} in
  zprod (BlockSpec.dims s) * DType.itemsize Float32 = 240 /\ BlockSpec.bytes s = 240 /\
  zlen (BlockSpec.encode s) = BLOCK_HEADER_LEN /\ BlockSpec.decode (BlockSpec.encode s ++ [7]) = Ok s.
Proof.
  apply (block_header_roundtrip [4; 5; 6] Float32 0 120 240).
  - repeat constructor; lia.
  - lia.
  - unfold is_u64. lia.
  - reflexivity.
  - reflexivity.
  - reflexivity.
Defined.

(** ** Compressing and expanding *)

(** What the compression crates document: [flate2] is lossless, and the other two give
    back elements within the bound, which [close eps] says of two runs of elements. *)
Class CodecLaws `{CodecLib} (close : DType -> Z -> bytes -> bytes -> Prop) := {
  inflate_deflate b z : deflate b = Some z -> inflate z (zlen b) = Some b;
  sz3_bound d dims eps v z : sz3_compress d dims eps v = Some z ->
    exists v', sz3_decompress d dims z = Some v' /\ close d eps v v';
  zfp_bound d dims eps v : zfp_compress d dims eps v <> [] ->
    exists v', zfp_decompress d dims eps (zfp.words (zfp_compress d dims eps v)) = Some v' /\
      close d eps v v';
}.

Lemma load_whole size src n : 0 < size -> zlen src = n * size -> load size src = src.
Proof. intros Hs Hl. unfold load. rewrite Hl, Z.div_mul, <- Hl by lia. apply slice_all. Qed.

Section Roundtrip.
Context `{Build} `{CodecLib} (close : DType -> Z -> bytes -> bytes -> Prop) `{!CodecLaws close}.

(** What [compress] leaves behind a block that shrank. *)
Lemma compress_true codec s src dst out :
  compress codec s src dst = (Ok true, out) ->
  BlockSpec.bytes s = zlen src /\ zlen out < zlen src /\
  match codec with
  | Raw => False
  | Gzip => exists z, deflate src = Some z /\ out = BlockSpec.encode s ++ z
  | Sz => feature_sz = true /\ is_float (block_dtype s) = true /\
      exists z, sz3_compress (block_dtype s) (BlockSpec.dims s) (block_eps s)
                  (load (DType.itemsize (block_dtype s)) src) = Some z /\ out = BlockSpec.encode s ++ z
  | Zfp => feature_zfp = true /\ is_float (block_dtype s) = true /\
      exists z, zfp_compress (block_dtype s) (reverse (BlockSpec.dims s)) (block_eps s)
                  (load (DType.itemsize (block_dtype s)) src) = z /\ z <> [] /\
                out = BlockSpec.encode s ++ z
  end.
Proof.
  unfold compress. destruct (Z.eqb_spec (BlockSpec.bytes s) (zlen src)) as [Hb|]; [|done]. cbn [negb].
  intros Hc. split; [done|].
  set (written := match codec with Raw => _ | Sz => _ | Zfp => _ | Gzip => _ end) in Hc.
  assert (written = Ok out /\ zlen out < zlen src) as [Hw Hlt].
  { destruct written as [d| |]; [|done..]. destruct (Z.leb_spec (zlen src) (zlen d)); [done|].
    injection Hc as ->. split; [done|lia]. }
  split; [done|]. unfold written in Hw. destruct codec; [done|..].
  - destruct feature_sz; [|done]. unfold sz.compress in Hw. destruct (is_float _); [|done].
    apply bind_ok in Hw as (z & Hz%ok_or_ok & [= <-]). split; [done|]. split; [done|]. by exists z.
  - destruct feature_zfp; [|done]. unfold zfp.compress in Hw. destruct (is_float _); [|done].
    split; [done|]. split; [done|]. eexists. split; [done|].
    destruct (zfp_compress _ _ _ _); [done|]. by injection Hw as <-.
  - apply bind_ok in Hw as (z & Hz%ok_or_ok & [= <-]). by exists z.
Qed.

(** Any block of whole elements that [compress] shrinks comes back. *)
Lemma compress_roundtrip codec out_shape dtype eps offset src s dst out buf :
  Forall (fun d => 0 <= d) out_shape -> zlen src < two64 ->
  is_u64 eps -> F64.is_finite eps = true -> F64.lt_zero eps = false ->
  BlockSpec.for_range out_shape dtype eps offset (zlen src) = Ok s ->
  compress codec s src dst = (Ok true, out) -> zlen buf = zlen src ->
  zlen out < zlen src /\
  exists v, decompress_into codec out buf = Ok v /\
    match codec with Gzip => v = src | _ => close dtype eps src v end.
Proof.
  intros Hs Hlen He Hf Hn Hr Hc Hbuf.
  apply for_range_spec in Hr as (Hok & Hd & <- & Hp & Hb); [|done|lia].
  apply compress_true in Hc as (_ & Hlt & Hcase). split; [done|].
  pose proof (length_block_encode s (spec_ok_length s Hok)) as Hhead.
  assert (forall z, drop (Z.to_nat BLOCK_HEADER_LEN) (BlockSpec.encode s ++ z) = z) as Hdrop.
  { intros z. rewrite <- Hhead, Nat2Z.id. apply drop_app_length. }
  pose proof (itemsize_pos dtype).
  assert (load (DType.itemsize (block_dtype s)) src = src) as Hload.
  { rewrite Hd. eapply load_whole; [lia|]. by rewrite <- Hp. }
  unfold decompress_into.
  destruct codec; [done|destruct Hcase as (Hfe & Hfl & z & Hz & ->)|destruct Hcase as (Hfe & Hfl & z & Hz & Hz0 & ->)|
    destruct Hcase as (z & Hz & ->)];
    rewrite block_decode_encode by done; cbn [mbind result_bind];
    rewrite Hb, Hbuf, Z.eqb_refl; cbn [negb]; rewrite Hdrop.
  - rewrite Hfe. unfold sz.decompress_into. rewrite Hfl. rewrite Hload in Hz.
    destruct (sz3_bound _ _ _ _ _ Hz) as (v & -> & Hv). exists v. by rewrite <- Hd.
  - rewrite Hfe. unfold zfp.decompress_into. rewrite Hfl. rewrite Hload in Hz. subst z.
    destruct (zfp_bound _ _ _ _ Hz0) as (v & -> & Hv). exists v. by rewrite <- Hd.
  - unfold gzip.decompress_into. rewrite Hbuf, (inflate_deflate _ _ Hz). cbn [ok_or mbind result_bind].
    rewrite Z.ltb_irrefl. by exists src.
Qed.

(** C20: a compressed block comes back.  Whatever block of whole elements
    [compress] shrinks, it is smaller than the bytes it stands for, and
    [decompress_into] a buffer of the block's size gives those bytes back: exactly
    through the lossless codec, within the block's error bound through the others. *)
Theorem codec_roundtrip codec out_shape dtype eps offset src s dst out buf :
  Forall (fun d => 0 <= d) out_shape -> zlen src < two64 ->
  is_u64 eps -> F64.is_finite eps = true -> F64.lt_zero eps = false ->
  BlockSpec.for_range out_shape dtype eps offset (zlen src) = Ok s ->
  compress codec s src dst = (Ok true, out) -> zlen buf = zlen src ->
  zlen out < zlen src /\
  exists v, decompress_into codec out buf = Ok v /\
    match codec with Gzip => v = src | _ => close dtype eps src v end.
Proof. apply compress_roundtrip. Qed.
End Roundtrip.

(** A codec library of concrete functions: runs of zeros shrink to their length. *)
Definition demo_deflate (b : bytes) : bytes :=
  if forallb (Z.eqb 0) b then 0 :: to_le_bytes 8 (zlen b) else 1 :: b.
Definition demo_inflate (z : bytes) : option bytes :=
  match z with
  | 0 :: n => Some (replicate (Z.to_nat (from_le_bytes n)) 0)
  | 1 :: b => Some b
  | _ => None
  end.
Definition demo_lib : CodecLib := {|
  deflate := fun b => if decide (zlen b < two64) then Some (demo_deflate b) else None;
  inflate := fun z _ => demo_inflate z;
  sz3_compress := fun _ _ _ b => if decide (zlen b < two64) then Some (demo_deflate b) else None;
  sz3_decompress := fun _ _ z => demo_inflate z;
  zfp_compress := fun _ _ _ b => [];
  zfp_decompress := fun _ _ _ z => demo_inflate z;
|}.

Lemma demo_inflate_deflate b : zlen b < two64 -> demo_inflate (demo_deflate b) = Some b.
Proof.
  intros Hb. unfold demo_deflate. destruct (forallb _ b) eqn:Hz; [|done]. cbn [demo_inflate].
  rewrite from_to_le_u64 by (unfold is_u64; lia). rewrite Nat2Z.id. f_equal.
  apply replicate_as_Forall. split; [done|]. apply Forall_forall. intros x Hx.
  rewrite forallb_forall in Hz. apply Z.eqb_eq, Hz. by apply list_elem_of_In.
Qed.

#[local] Instance demo_laws : @CodecLaws demo_lib (fun _ _ v v' => v = v').
Proof.
  split.
  - intros b z. cbn. case_decide; [|done]. intros [= <-]. by apply demo_inflate_deflate.
  - intros d dims eps v z. cbn. case_decide; [|done]. intros [= <-]. exists v.
    split; [by apply demo_inflate_deflate | done].
  - intros d dims eps v. cbn. done.
Qed.

Lemma codec_roundtrip_witness :
  let out := [1; 9; 2; 0; 0; 0; 0; 0; 0; 0; 0; 0; 4; 0; 0; 0; 4; 0; 0; 0; 0; 0; 0; 0; 0; 64; 0; 0; 0; 0; 0; 0; 0] in
  zlen out < zlen (replicate 64 0) /\
  exists v, @decompress_into {| feature_sz := true; feature_zfp := false |} demo_lib Sz out (replicate 64 1) = Ok v /\
    replicate 64 0 = v.
Proof.
  refine (@codec_roundtrip {| feature_sz := true; feature_zfp := false |} demo_lib
    (fun _ _ v v' => v = v') demo_laws Sz [4; 4] Float32 0 0 (replicate 64 0)
    {| block_dtype := Float32; all_dims := [4; 4; 0]; ndim := 2; block_eps := 0 |} [] _ (replicate 64 1)
    _ _ _ _ _ _ _ _).
  - repeat constructor; lia.
  - cbn. lia.
  - unfold is_u64. lia.
  - reflexivity.
  - reflexivity.
  - reflexivity.
  - vm_compute. reflexivity.
  - reflexivity.
Defined.

(** The size of a received block can wrap.  A header of three axes whose
    product is 2^64 + 2^20 is accepted as a block of 4 MiB, so the check against the
    destination passes although the axes name far more elements. *)
Theorem block_size_can_wrap :
  let s := {| block_dtype := Float32; all_dims := [2 ^ 20; 6001; 2931542417]; ndim := 3; block_eps := 0 |} in
  BlockSpec.decode (BlockSpec.encode s) = Ok s /\ BlockSpec.bytes s = 2 ^ 22 /\
  zprod (BlockSpec.dims s) = 2 ^ 64 + 2 ^ 20.
Proof. split; [vm_compute; reflexivity|]. split; reflexivity. Qed.
