(* ===== verification/Layout.v ===== *)
(** A selection resolved into a logical byte stream: [SelectionLayout] of
    [aex-core/src/selection.rs]. *)
From S2P Require Import Prelude Errors Dtype Bytes Quality Codec Selection Gathered Cast.

Inductive LayoutKind : Type :=
  | Contiguous (src_offset len : Z)
  | LGathered (g : Gathered).

Record SelectionLayout : Type := {
  l_out_shape : list Z;
  l_dtype : DType;
  l_src_dtype : DType;
  total_bytes : Z;
  l_quality : QualitySpec;
  kind : LayoutKind;
}.

Module SelectionLayout.
Section Resolve.
Context `{Build}.

Definition resolve (shape : list Z) (dtype : DType) (indices : list Index) (quality : QualitySpec)
    : result AexError SelectionLayout :=
  let wire := QualitySpec.wire_dtype quality dtype in
  let understood := match encoding quality with
                    | Exact | ErrorBound => true
                    | DtypeCast => negb (bool_decide (wire = dtype))
                    end in
  if negb understood then Err UnsupportedSelection
  else
    resolved ← Selection.resolve shape indices;
    let n := num_elements resolved in
    total ← ok_or BadSelection (checked_mul n (DType.itemsize wire));
    independent ← walks_independently resolved;
    let run := if independent : bool then contiguous_run shape (axes resolved) else None in
    kind ← match run with
           | Some (offset_elements, _) =>
               Ok (Contiguous (offset_elements *w DType.itemsize dtype) total)
           | None => LGathered <$> Gathered.new shape resolved
           end;
    Ok {| l_out_shape := out_shape resolved; l_dtype := wire; l_src_dtype := dtype;
          total_bytes := total; l_quality := quality; kind := kind |}.
End Resolve.

(** Bytes of one innermost row of the output array. *)
Definition row_bytes (l : SelectionLayout) : option Z :=
  inner ← last (l_out_shape l);
  row ← checked_mul inner (DType.itemsize (l_dtype l));
  if 0 <? row then Some row else None.

(** How the block covering a range is described to a codec; [None] when the bytes go
    as they are. *)
Definition block `{Build} (l : SelectionLayout) (offset len : Z)
    : result AexError (option BlockSpec) :=
  if bool_decide (QualitySpec.codec (l_quality l) = Raw) then Ok None
  else
    let eps := default F64.zero (QualitySpec.eps (l_quality l)) in
    Some <$> BlockSpec.for_range (l_out_shape l) (l_dtype l) eps offset len.

(** Reject a range that falls outside the logical byte stream. *)
Definition check_range (l : SelectionLayout) (offset len : Z) : result AexError unit :=
  match checked_add offset len with
  | Some end_ =>
      if total_bytes l <? end_ then Err (OutOfRange offset len (total_bytes l)) else Ok ()
  | None => Err (OutOfRange offset len (total_bytes l))
  end.

(** Where a range lies in the source, when the selection is one run. *)
Definition source_run (l : SelectionLayout) (offset len : Z) : option (Z * Z) :=
  match kind l with
  | Contiguous src_offset _ =>
      rest ← checked_sub (total_bytes l) offset;
      let len := Z.min len rest in
      if len =? 0 then None
      else
        let wide := DType.itemsize (l_src_dtype l) in
        let narrow := DType.itemsize (l_dtype l) in
        let first := offset / narrow in
        let count := div_ceil (offset +w len) narrow -w first in
        Some (src_offset +w (first *w wide), count *w wide)
  | LGathered _ => None
  end.

Section Read.
Context `{HalfLib}.
(** [read_src(offset, &mut buf)], as the bytes it puts in a buffer of [len]. *)
Context (read_src : Z -> Z -> result AexError (list Z)).

Definition read_source (l : SelectionLayout) (itemsize offset : Z) (dst : list Z)
    : result AexError (list Z) :=
  match kind l with
  | Contiguous src_offset _ => read_src (src_offset +w offset) (zlen dst)
  | LGathered gathered => Gathered.read read_src gathered itemsize offset dst
  end.

Definition read_cast (l : SelectionLayout) (offset : Z) (dst : list Z) : result AexError (list Z) :=
  let wide := DType.itemsize (l_src_dtype l) in
  let narrow := DType.itemsize (l_dtype l) in
  let first := offset / narrow in
  let count := div_ceil (offset +w zlen dst) narrow -w first in
  let skip := offset -w (first *w narrow) in
  source ← read_source l wide (first *w wide) (replicate (Z.to_nat (count *w wide)) 0);
  narrowed ← cast_into (l_src_dtype l) (l_dtype l) source
               (replicate (Z.to_nat (count *w narrow)) 0);
  slice_checked skip (zlen dst) narrowed.

(** Read [offset, offset + dst.len()) of the logical byte stream. *)
Definition read_with (l : SelectionLayout) (offset : Z) (dst : list Z) : result AexError (list Z) :=
  _ ← check_range l offset (zlen dst);
  if bool_decide (l_dtype l = l_src_dtype l)
  then read_source l (DType.itemsize (l_dtype l)) offset dst
  else read_cast l offset dst.
End Read.
End SelectionLayout.
