(* ===== verification/LayoutSpec.v ===== *)
(** A layout read back: any range of the logical stream comes out of the source as the
    selection says, through every path ([Contiguous], [Gathered], cast or not). *)
From S2P Require Import Prelude Errors Dtype Bytes Quality Selection SelectionSpec Contiguous.
From S2P Require Import Gathered GatheredSpec StretchSpec ReadSpec Cast Layout.

Lemma num_elements_wraps r : num_elements r = u64 (zprod (out_shape r)).
Proof.
  unfold num_elements. rewrite <- (Z.mul_1_l (zprod _)).
  assert (is_u64 1) as H1 by (unfold is_u64; lia). revert H1. generalize 1. generalize (out_shape r).
  intros l. induction l as [|d l IH]; intros a Ha; cbn [foldl zprod].
  - by rewrite Z.mul_1_r, u64_id.
  - rewrite IH by apply wmul_range. unfold wmul. rewrite u64_mul_l. f_equal. lia.
Qed.

Lemma resolved_count_nonneg shape r : resolved_wf shape r -> 0 <= zprod (out_shape r).
Proof. intros Hw. apply zprod_nonneg, (wf_shape_pos _ _ Hw). Qed.

Lemma num_elements_le shape r : resolved_wf shape r -> 0 <= num_elements r <= zprod (out_shape r).
Proof.
  intros Hw. rewrite num_elements_wraps. pose proof (resolved_count_nonneg _ _ Hw).
  pose proof (u64_range (zprod (out_shape r))) as Hu. split; [apply Hu|]. apply Z.mod_le; lia.
Qed.

(** A multiple of an element size that fits has room for one element more. *)
Lemma multiple_room isz n : 0 < isz -> (isz | two64) -> n * isz < two64 -> n * isz + isz <= two64.
Proof. intros Hi [k Hk] Hn. rewrite Hk in *. assert (n < k) by nia. nia. Qed.

Lemma itemsize_divides d : (DType.itemsize d | two64).
Proof.
  destruct d; cbn; [exists (2^64)|exists (2^63)|exists (2^62)|exists (2^61)|exists (2^64)|exists (2^63)|
    exists (2^62)|exists (2^61)|exists (2^63)|exists (2^62)|exists (2^61)|exists (2^61)|exists (2^60)|exists (2^64)];
    reflexivity.
Qed.

(** A storage read that answers every range the array has. *)
Definition reads (data : list Z) (read_src : Z -> Z -> result AexError (list Z)) : Prop :=
  forall off len, 0 <= off -> 0 <= len -> off + len <= zlen data -> read_src off len = Ok (slice off len data).

(** The elements selected, as the array's own bytes. *)
Definition source_stream (data : list Z) (isz : Z) (shape : list Z) (r : ResolvedSelection) : list Z :=
  elements shape r ≫= elem_bytes data isz.

Section Kinds.
Context (data : list Z) (shape : list Z) (isz : Z) (read_src : Z -> Z -> result AexError (list Z)).
Context (Hshape : Forall (fun d => 0 <= d) shape) (Hisz : 0 < isz <= 16).
Context (Hdata : zlen data = zprod shape * isz) (Hfits : zprod shape * isz < two63).
Context (Hread : reads data read_src).
Context (r : ResolvedSelection) (Hw : resolved_wf shape r).

Lemma shape_lt : zprod shape < two63.
Proof. pose proof (zprod_nonneg _ Hshape). nia. Qed.

Lemma valid_elements : Forall (fun e => 0 <= e < zprod shape) (elements shape r).
Proof. apply Forall_forall. intros x. by apply elements_range. Qed.

Lemma length_source_stream : zlen (source_stream data isz shape r) = zprod (out_shape r) * isz.
Proof.
  unfold source_stream.
  rewrite (length_elems_bytes data isz (zprod shape)) by
    (apply valid_elements || unfold SPAN_GAP_BYTES; lia).
  by rewrite (length_elements _ _ Hw).
Qed.

(** A contiguous layout reads the one run. *)
Lemma contiguous_read off n offset (dst : list Z) :
  walks_independently r = Ok true -> contiguous_run shape (axes r) = Some (off, n) ->
  0 <= offset -> offset + zlen dst <= zprod (out_shape r) * isz ->
  read_src ((off *w isz) +w offset) (zlen dst) = Ok (slice offset (zlen dst) (source_stream data isz shape r)).
Proof.
  intros Hi Hrun Ho Hle. pose proof shape_lt.
  destruct (contiguous_run_elements shape r off n) as (H0 & Hn & Hend & He); [done|lia|done..|].
  pose proof (length_elements _ _ Hw) as Hlen. rewrite He, zlen_seqZ in Hlen by done.
  unfold source_stream. rewrite He.
  rewrite (run_bytes data isz (zprod shape)) by (done || unfold SPAN_GAP_BYTES; lia).
  rewrite wmul_small, wadd_small by (unfold is_u64; nia).
  rewrite Hread by nia. rewrite slice_slice by nia. done.
Qed.

(** The elements of an array that has any make it sane. *)
Lemma sane_shape : zprod (out_shape r) <> 0 -> sane shape.
Proof.
  intros Hne. split; [|apply shape_lt].
  pose proof (length_elements _ _ Hw) as Hlen.
  destruct (selected r) as [|c l] eqn:Hs; unfold elements in Hlen; rewrite Hs in Hlen; [cbn in Hlen; lia|].
  apply (in_shape_pos shape c). apply (selected_in_shape shape r); [done|]. rewrite Hs. left.
Qed.

Lemma gathered_read g offset (dst : list Z) :
  new shape r = Ok g -> 0 <= offset -> offset + zlen dst <= zprod (out_shape r) * isz ->
  offset + zlen dst + isz <= two64 ->
  Gathered.read read_src g isz offset dst = Ok (slice offset (zlen dst) (source_stream data isz shape r)).
Proof.
  intros Hg Ho Hle Hroom. pose proof shape_lt as Hlt.
  pose proof (new_spec shape r Hshape ltac:(lia) Hw) as Hn. rewrite Hg in Hn. destruct Hn as [Hout Hok].
  destruct (decide (zprod (out_shape r) = 0)) as [Hz|Hne].
  - rewrite Hz in Hle. destruct dst as [|]; [|cbn in Hle; lia]. cbn in Hle. assert (offset = 0) as -> by lia.
    assert (div_ceil 0 isz = 0) as Hc by (unfold div_ceil; apply Z.div_small; lia).
    unfold Gathered.read. cbn [length]. change (Z.of_nat 0) with 0. change (0 +w 0) with 0.
    rewrite Z.div_0_l, Hc, Zmod_0_l by lia. unfold wmul. rewrite Z.mul_0_l. done.
  - specialize (Hout Hne). pose proof (sane_shape Hne) as Hsane. unfold source_stream. rewrite <- Hout.
    assert (Forall (fun e => 0 <= e < zprod shape) (output g)) as Hv by (rewrite Hout; apply valid_elements).
    apply (read_spec data isz (zprod shape)); try done.
    + unfold SPAN_GAP_BYTES. lia.
    + eapply new_walkable; [lia|exact Hfits|exact Hg|by apply Hok|done].
    + rewrite (length_stream data isz (zprod shape)) by (done || unfold SPAN_GAP_BYTES; lia).
      by rewrite Hout, (length_elements _ _ Hw).
Qed.
End Kinds.

(** What [SelectionLayout::resolve] amounts to. *)
Lemma layout_resolve_inv `{Build} shape dtype indices q l :
  SelectionLayout.resolve shape dtype indices q = Ok l ->
  exists r, Selection.resolve shape indices = Ok r /\ l_out_shape l = out_shape r /\
    l_src_dtype l = dtype /\ l_dtype l = QualitySpec.wire_dtype q dtype /\
    total_bytes l = num_elements r * DType.itemsize (l_dtype l) /\
    num_elements r * DType.itemsize (l_dtype l) < two64 /\
    ((exists off n, kind l = Contiguous (off *w DType.itemsize dtype) (total_bytes l) /\
        walks_independently r = Ok true /\ contiguous_run shape (axes r) = Some (off, n)) \/
     (exists g, kind l = LGathered g /\ new shape r = Ok g)).
Proof.
  unfold SelectionLayout.resolve. intros Hl. destruct (negb _); [done|].
  apply bind_ok in Hl as (r & Hr & Hl). exists r. split; [done|].
  apply bind_ok in Hl as (total & Ht & Hl). apply ok_or_ok, checked_mul_some in Ht as [-> Hlt].
  apply bind_ok in Hl as (ind & Hi & Hl). apply bind_ok in Hl as (k & Hk & Hl). injection Hl as <-. cbn.
  do 5 (split; [done|]).
  destruct ind; [destruct (contiguous_run _ _) as [[off n]|] eqn:Hrun|].
  - injection Hk as <-. left. by exists off, n.
  - apply fmap_ok in Hk as (g & Hg & ->). right. by exists g.
  - apply fmap_ok in Hk as (g & Hg & ->). right. by exists g.
Qed.

(** ** The logical stream *)

Section Stream.
Context `{Build} `{HalfLib}.

(** What a cast, if there is one, makes of one element. *)
Definition narrowed (src dst : DType) (b : list Z) : list Z :=
  if bool_decide (dst = src) then b
  else match narrow_elem src dst with Some f => f b | None => b end.

(** The bytes the client is to receive: the selected elements, in order, each as
    it travels. *)
Definition logical_stream (data shape : list Z) (src dst : DType) (r : ResolvedSelection) : list Z :=
  elements shape r ≫= (fun e => narrowed src dst (elem_bytes data (DType.itemsize src) e)).

Lemma logical_exact data shape d r :
  logical_stream data shape d d r = source_stream data (DType.itemsize d) shape r.
Proof.
  unfold logical_stream, source_stream, narrowed. rewrite bool_decide_true by done. done.
Qed.

(** The casts there are: one half as wide as the other. *)
Lemma wire_narrow q dtype :
  QualitySpec.wire_dtype q dtype <> dtype ->
  DType.itemsize dtype = 2 * DType.itemsize (QualitySpec.wire_dtype q dtype) /\
  exists f, narrow_elem dtype (QualitySpec.wire_dtype q dtype) = Some f /\
    forall b, length (f b) = Z.to_nat (DType.itemsize (QualitySpec.wire_dtype q dtype)).
Proof.
  intros Hne. destruct (wire_dtype_cases q dtype) as [|[[-> ->]|[-> ->]]]; [done|..];
    (split; [done|]); eexists; (split; [done|]); intros b; apply length_to_le_bytes.
Qed.

(** A cast of whole elements. *)
Lemma cast_into_elems q dtype data (es : list Z) dst :
  let wire := QualitySpec.wire_dtype q dtype in
  wire <> dtype -> zlen dst = zlen es * DType.itemsize wire ->
  (forall e, e ∈ es -> zlen (elem_bytes data (DType.itemsize dtype) e) = DType.itemsize dtype) ->
  cast_into dtype wire (es ≫= elem_bytes data (DType.itemsize dtype)) dst =
  Ok (es ≫= (fun e => narrowed dtype wire (elem_bytes data (DType.itemsize dtype) e))).
Proof.
  intros wire Hne Hd Heb. destruct (wire_narrow q dtype Hne) as (_ & f & Hf & _). fold wire in Hf.
  pose proof (itemsize_pos wire). pose proof (itemsize_pos dtype).
  unfold cast_into. rewrite Hf.
  assert (zlen (es ≫= elem_bytes data (DType.itemsize dtype)) = zlen es * DType.itemsize dtype) as Hlen
    by by apply length_mbind_const.
  replace (Nat.min _ _) with (length es); last first.
  { replace (length (es ≫= _)) with (length es * Z.to_nat (DType.itemsize dtype))%nat by lia.
    replace (length dst) with (length es * Z.to_nat (DType.itemsize wire))%nat by lia.
    rewrite !Nat.div_mul by lia. lia. }
  rewrite cast_chunks_spec; [|intros e He; specialize (Heb e He); lia|lia].
  f_equal. apply bind_ext_in. intros e _. unfold narrowed. rewrite bool_decide_false by done. by rewrite Hf.
Qed.

Lemma length_narrowed q dtype b :
  let wire := QualitySpec.wire_dtype q dtype in
  wire <> dtype -> zlen (narrowed dtype wire b) = DType.itemsize wire.
Proof.
  intros wire Hne. destruct (wire_narrow q dtype Hne) as (_ & f & Hf & Hl). fold wire in Hf, Hl.
  unfold narrowed. rewrite bool_decide_false by done. rewrite Hf, Hl.
  pose proof (itemsize_pos wire). lia.
Qed.

Section Reading.
Context (data shape : list Z) (indices : list Index) (dtype : DType) (q : QualitySpec).
Context (l : SelectionLayout) (r : ResolvedSelection) (read_src : Z -> Z -> result AexError (list Z)).
Context (Hshape : Forall (fun d => 0 <= d) shape) (Hidx : Forall index_wf indices).
Context (Hdata : zlen data = zprod shape * DType.itemsize dtype).
Context (Hfits : zprod shape * DType.itemsize dtype < two63).
Context (Hread : reads data read_src).
Context (Hl : SelectionLayout.resolve shape dtype indices q = Ok l).
Context (Hr : Selection.resolve shape indices = Ok r).

Lemma resolved_ok : resolved_wf shape r.
Proof. pose proof (resolve_spec shape indices Hshape Hidx) as Hs. by rewrite Hr in Hs. Qed.

Lemma read_source_spec offset (dst : list Z) :
  0 <= offset -> offset + zlen dst <= num_elements r * DType.itemsize dtype ->
  offset + zlen dst + DType.itemsize dtype <= two64 ->
  SelectionLayout.read_source read_src l (DType.itemsize dtype) offset dst =
  Ok (slice offset (zlen dst) (source_stream data (DType.itemsize dtype) shape r)).
Proof.
  intros Ho Hle Hroom. pose proof resolved_ok as Hw. pose proof (itemsize_pos dtype).
  pose proof (num_elements_le _ _ Hw).
  destruct (layout_resolve_inv _ _ _ _ _ Hl) as (r' & Hr' & _ & _ & _ & _ & _ & Hk).
  rewrite Hr in Hr'. injection Hr' as <-. unfold SelectionLayout.read_source.
  destruct Hk as [(off & n & -> & Hi & Hrun)|(g & -> & Hg)].
  - by eapply contiguous_read; try done; nia.
  - by apply gathered_read; try done; nia.
Qed.

Lemma elem_bytes_wide e :
  e ∈ elements shape r -> zlen (elem_bytes data (DType.itemsize dtype) e) = DType.itemsize dtype.
Proof.
  intros He. pose proof (itemsize_pos dtype).
  apply (length_elem_bytes data _ (zprod shape)); [unfold SPAN_GAP_BYTES; lia|done|].
  by apply (elements_range shape r), He; apply resolved_ok.
Qed.

Lemma read_cast_spec offset (dst : list Z) :
  l_dtype l <> l_src_dtype l -> 2 * total_bytes l < two64 ->
  0 <= offset -> offset + zlen dst <= total_bytes l ->
  SelectionLayout.read_cast read_src l offset dst =
  Ok (slice offset (zlen dst) (logical_stream data shape dtype (l_dtype l) r)).
Proof.
  intros Hne Hbig Ho Hle. pose proof resolved_ok as Hw.
  pose proof read_source_spec as Hrs. pose proof elem_bytes_wide as Hebw. pose proof (num_elements_le _ _ Hw) as Hn.
  destruct (layout_resolve_inv _ _ _ _ _ Hl) as (r' & Hr' & _ & Hsrc & Hdt & Htot & _ & _).
  rewrite Hr in Hr'. injection Hr' as <-. rewrite Hsrc, Hdt in Hne.
  pose proof (wire_narrow q dtype Hne) as (Hwide & _). pose proof (length_narrowed q dtype) as Hnl.
  pose proof (cast_into_elems q dtype data) as Hcast. cbn zeta in Hnl, Hcast.
  unfold SelectionLayout.read_cast. rewrite Hsrc, Hdt in *.
  set (wire := QualitySpec.wire_dtype q dtype) in *.
  pose proof (itemsize_pos wire) as Hn0. pose proof (itemsize_pos dtype) as Hw0.
  set (narrow := DType.itemsize wire) in *. set (wide := DType.itemsize dtype) in *.
  rewrite (wadd_small offset) by (unfold is_u64; lia). set (end_ := offset + zlen dst) in *.
  div_mod offset narrow. set (first := offset / narrow) in *.
  pose proof (div_ceil_spec end_ narrow ltac:(lia)) as Hce.
  assert (0 <= first) by (apply Z.div_pos; lia).
  assert (first <= div_ceil end_ narrow <= num_elements r) as [Hc1 Hc2] by (unfold end_ in *; nia).
  rewrite (wsub_small (div_ceil _ _)) by (unfold is_u64; nia).
  set (count := div_ceil end_ narrow - first) in *.
  assert (0 <= first * narrow /\ 0 <= count * narrow) as [Hfn Hcn] by (split; apply Z.mul_nonneg_nonneg; lia).
  assert ((first + count) * narrow <= num_elements r * narrow) as Hend
    by (apply Z.mul_le_mono_nonneg_r; lia).
  assert (num_elements r * wide + wide <= two64) as Hroom
    by (apply multiple_room; [lia|apply itemsize_divides|lia]).
  rewrite Hwide in *. rewrite !wmul_small by (unfold is_u64; lia).
  rewrite wsub_small by (unfold is_u64; lia).
  assert (forall z, 0 <= z -> zlen (replicate (Z.to_nat z) 0) = z) as Hrep
    by (intros; rewrite length_replicate; lia).
  rewrite <- Hwide in *.
  rewrite Hrs; rewrite ?Hrep by lia; [|lia|lia|lia]. cbn [mbind result_bind].
  assert (first + count <= zlen (elements shape r)) as Hfc by (rewrite (length_elements _ _ Hw); lia).
  unfold source_stream. fold wide. rewrite <- (slice_bind _ wide) by (apply Hebw || lia).
  set (es := slice first count (elements shape r)).
  assert (zlen es = count) as Hes by (apply length_slice; lia).
  rewrite Hcast; [|done|rewrite Hrep by lia; by rewrite Hes|]; last first.
  { intros e He. apply Hebw. unfold es, slice in He. apply elem_of_take in He as (i & He & _).
    rewrite lookup_drop in He. by eapply list_elem_of_lookup_2. }
  cbn [mbind result_bind]. fold wide.
  assert (zlen (logical_stream data shape dtype wire r) = zlen (elements shape r) * narrow) as Hls
    by (apply length_mbind_const; intros e _; by apply Hnl).
  assert ((first + count) * narrow <= zlen (elements shape r) * narrow) as Hend3
    by (apply Z.mul_le_mono_nonneg_r; lia).
  assert (end_ <= (first + count) * narrow) as Hend2 by (unfold count; lia).
  unfold es. rewrite (slice_bind _ narrow) by (intros; (by apply Hnl) || lia).
  change (elements shape r ≫= _) with (logical_stream data shape dtype wire r).
  rewrite slice_ok; [|lia|lia|rewrite length_slice by lia; unfold end_ in *; lia].
  rewrite slice_slice by (unfold end_ in *; lia). do 2 f_equal. lia.
Qed.

Lemma read_with_spec offset (dst : list Z) :
  is_u64 offset -> is_u64 (zlen dst) ->
  (l_dtype l <> l_src_dtype l -> 2 * total_bytes l < two64) ->
  SelectionLayout.read_with read_src l offset dst =
  if decide (offset + zlen dst <= total_bytes l)
  then Ok (slice offset (zlen dst) (logical_stream data shape dtype (l_dtype l) r))
  else Err (OutOfRange offset (zlen dst) (total_bytes l)).
Proof.
  intros Ho Hd Hbig. unfold is_u64 in *.
  destruct (layout_resolve_inv _ _ _ _ _ Hl) as (r' & Hr' & _ & Hsrc & Hdt & Htot & Hlt & _).
  rewrite Hr in Hr'. injection Hr' as <-.
  unfold SelectionLayout.read_with, SelectionLayout.check_range, checked_add. case_decide as Hsum.
  - destruct (Z.ltb_spec (total_bytes l) (offset + zlen dst)).
    + rewrite decide_False by lia. done.
    + rewrite decide_True by lia. cbn [mbind result_bind]. case_bool_decide as Hsame.
      * rewrite Hsrc in Hsame. rewrite Hsame, logical_exact. apply read_source_spec; [lia| |].
        -- rewrite Htot, Hsame in *. lia.
        -- rewrite Hsame in *.
           pose proof (multiple_room _ _ ltac:(apply itemsize_pos) (itemsize_divides dtype) Hlt). lia.
      * apply read_cast_spec; [done|by apply Hbig|lia|lia].
  - rewrite decide_False by lia. done.
Qed.
Lemma length_logical :
  zlen (logical_stream data shape dtype (l_dtype l) r) = zprod (out_shape r) * DType.itemsize (l_dtype l).
Proof.
  pose proof resolved_ok as Hw. destruct (layout_resolve_inv _ _ _ _ _ Hl) as (r' & _ & _ & _ & Hdt & _).
  rewrite <- (length_elements _ _ Hw). apply length_mbind_const. intros e He.
  destruct (decide (l_dtype l = dtype)) as [He'|Hne].
  - rewrite He'. unfold narrowed. rewrite bool_decide_true by done. by apply elem_bytes_wide.
  - rewrite Hdt in *. by apply length_narrowed.
Qed.

Lemma total_within : total_bytes l <= zlen (logical_stream data shape dtype (l_dtype l) r).
Proof.
  pose proof resolved_ok as Hw. rewrite length_logical. pose proof (num_elements_le _ _ Hw).
  destruct (layout_resolve_inv _ _ _ _ _ Hl) as (r' & Hr' & _ & _ & _ & -> & _).
  rewrite Hr in Hr'. injection Hr' as <-. pose proof (itemsize_pos (l_dtype l)). nia.
Qed.
End Reading.
End Stream.

(** ** Ranges read apart *)

Section Pieces.
Context (read : Z -> list Z -> result AexError (list Z)) (stream : list Z) (total : Z).
Context (Hread : forall off (dst : list Z), 0 <= off -> off + zlen dst <= total ->
  read off dst = Ok (slice off (zlen dst) stream)).

(** Read the buffers [bufs] one after the other, from [off] on. *)
Fixpoint read_pieces (off : Z) (bufs : list (list Z)) : result AexError (list Z) :=
  match bufs with
  | [] => Ok []
  | b :: bufs' => bytes ← read off b; rest ← read_pieces (off + zlen b) bufs'; Ok (bytes ++ rest)
  end.

Lemma read_pieces_spec off bufs :
  0 <= off -> off + zlen (concat bufs) <= total ->
  read_pieces off bufs = Ok (slice off (zlen (concat bufs)) stream).
Proof.
  revert off. induction bufs as [|b bufs IH]; intros off Ho Hle; [done|].
  cbn [read_pieces concat]. cbn [concat] in Hle. rewrite length_app in *.
  rewrite Hread by lia. cbn [mbind result_bind]. rewrite IH by lia. cbn [mbind result_bind].
  f_equal. rewrite Nat2Z.inj_add, slice_split by lia. done.
Qed.
End Pieces.

(** A source that is the bytes it holds. *)
Definition from_bytes (data : list Z) (off len : Z) : result AexError (list Z) := slice_checked off len data.
Lemma reads_from_bytes data : reads data (from_bytes data).
Proof. intros off len ???. by apply slice_ok. Qed.

Section Properties.
Context `{Build} `{HalfLib}.

(** C1: a read of the logical byte stream.  Whatever the selection, the layout
    it resolved to and the cast that travels with it, [read_with] puts into the
    buffer exactly the asked range of the selected elements' bytes, in numpy's order,
    for any offset and length; a range past the end is refused, and nothing panics. *)
Theorem read_with_correct data shape indices dtype q l r read_src offset (dst : list Z) :
  Forall (fun d => 0 <= d) shape -> Forall index_wf indices ->
  zlen data = zprod shape * DType.itemsize dtype -> zlen data < two63 -> reads data read_src ->
  SelectionLayout.resolve shape dtype indices q = Ok l -> Selection.resolve shape indices = Ok r ->
  is_u64 offset -> is_u64 (zlen dst) ->
  (l_dtype l <> l_src_dtype l -> 2 * total_bytes l < two64) ->
  SelectionLayout.read_with read_src l offset dst =
  if decide (offset + zlen dst <= total_bytes l)
  then Ok (slice offset (zlen dst) (logical_stream data shape dtype (l_dtype l) r))
  else Err (OutOfRange offset (zlen dst) (total_bytes l)).
Proof. intros ?? Hd Hf ?????. rewrite Hd in Hf. by eapply read_with_spec. Qed.

(** Chunks read apart make up the whole.  However the stream is cut into
    consecutive buffers, reading each on its own and joining the results gives the
    stream itself. *)
Theorem chunks_reassemble data shape indices dtype q l r read_src bufs :
  Forall (fun d => 0 <= d) shape -> Forall index_wf indices ->
  zlen data = zprod shape * DType.itemsize dtype -> zlen data < two63 -> reads data read_src ->
  SelectionLayout.resolve shape dtype indices q = Ok l -> Selection.resolve shape indices = Ok r ->
  zprod (out_shape r) * DType.itemsize dtype < two64 ->
  zlen (concat bufs) = total_bytes l ->
  read_pieces (SelectionLayout.read_with read_src l) 0 bufs =
  Ok (logical_stream data shape dtype (l_dtype l) r).
Proof.
  intros Hs Hi Hd Hf Hread Hl Hr Hexact Hbufs. rewrite Hd in Hf.
  pose proof (resolved_ok shape indices r Hs Hi Hr) as Hw.
  destruct (layout_resolve_inv _ _ _ _ _ Hl) as (r' & Hr' & _ & Hsrc & Hdt & Htot & Hlt & _).
  rewrite Hr in Hr'. injection Hr' as <-. pose proof (itemsize_pos dtype).
  pose proof (resolved_count_nonneg _ _ Hw). pose proof (itemsize_pos (l_dtype l)) as Hpos.
  assert (num_elements r = zprod (out_shape r)) as Hn.
  { rewrite num_elements_wraps. apply u64_id. unfold is_u64. nia. }
  assert (l_dtype l <> l_src_dtype l -> 2 * total_bytes l < two64) as Hbig.
  { rewrite Hsrc, Hdt. intros Hne. destruct (wire_narrow q dtype Hne) as [Hwide _].
    rewrite Htot, Hn, Hdt. lia. }
  assert (0 <= total_bytes l) by lia.
  rewrite (read_pieces_spec _ (logical_stream data shape dtype (l_dtype l) r) (total_bytes l)); [| |lia|lia].
  - f_equal. rewrite Hbufs, Htot, Hn, <- (length_elements _ _ Hw).
    rewrite (length_elements _ _ Hw), <- (length_logical data shape indices dtype q l r) by done. apply slice_all.
  - intros off dst Ho Hle. assert (zlen dst < two64) by lia.
    rewrite (read_with_spec data shape indices dtype q l r read_src) by (done || unfold is_u64; lia).
    by rewrite decide_True.
Qed.

(** Resolving a selection never panics, whatever the client sent, on an
    array the file may hold: the answer is a layout or a refusal of the request. *)
Theorem layout_resolve_total shape dtype indices q :
  Forall (fun d => 0 <= d) shape -> zprod shape <= two64 -> Forall index_wf indices ->
  match SelectionLayout.resolve shape dtype indices q with
  | Ok l => exists r, Selection.resolve shape indices = Ok r /\ resolved_wf shape r /\
              l_out_shape l = out_shape r
  | Err _ => True
  | Panic => False
  end.
Proof.
  intros Hs HN Hi. destruct (SelectionLayout.resolve _ _ _ _) as [l| |] eqn:Hl; [|done|].
  - destruct (layout_resolve_inv _ _ _ _ _ Hl) as (r & Hr & Ho & _). exists r.
    split; [done|]. split; [by eapply resolved_ok|done].
  - unfold SelectionLayout.resolve in Hl. destruct (negb _); [done|].
    pose proof (resolve_spec shape indices Hs Hi) as Hw.
    destruct (Selection.resolve shape indices) as [r| |]; [|done..]. cbn [mbind result_bind] in Hl.
    destruct (checked_mul _ _); [|done]. cbn [ok_or mbind result_bind] in Hl.
    rewrite (walks_independently_ok _ _ Hw) in Hl. cbn [mbind result_bind] in Hl.
    pose proof (new_spec shape r Hs HN Hw) as Hn.
    destruct (new shape r); [| |done]; by repeat case_match.
Qed.
End Properties.

(** ** At concrete inputs *)

Definition demo_build : Build := {| feature_sz := true; feature_zfp := false |}.
(** A stand-in for the [half] crate's conversion: the top half of the pattern. *)
Definition demo_half : HalfLib := {| f16_from_f32 := fun z => Z.shiftr z 16 |}.
(** Three rows of four two-byte integers: row 2, then row 0, from the second column on. *)
Definition demo_data : list Z := seqZ 0 24.
Definition demo_indices : list Index := [Fancy [2; -3]; Slice (Some 1) None None].
Definition demo_resolved : ResolvedSelection :=
  {| axes := [FancyAxis [2; 0]; Range 1 3 1]; out_shape := [2; 3];
     advanced := Some {| group_axes := [0%nat]; group_len := 2; adjacent := true |} |}.
Definition demo_layout : SelectionLayout :=
  {| l_out_shape := [2; 3]; l_dtype := Int16; l_src_dtype := Int16; total_bytes := 12;
     l_quality := QualitySpec.exact;
     kind := LGathered {| base := 1; dims := [List [8; 0]; Stride 3 1] |} |}.

Lemma demo_shape_ok : Forall (fun d => 0 <= d) [3; 4].
Proof. repeat constructor; lia. Qed.
Lemma demo_indices_ok : Forall index_wf demo_indices.
Proof. repeat constructor; cbn; unfold is_i64; lia. Qed.

Lemma read_with_correct_witness :
  @SelectionLayout.read_with demo_half (from_bytes demo_data) demo_layout 3 [0; 0; 0; 0; 0]
  = Ok [21; 22; 23; 2; 3].
Proof.
  rewrite (@read_with_correct demo_build demo_half demo_data [3; 4] demo_indices Int16
    QualitySpec.exact demo_layout demo_resolved (from_bytes demo_data) 3 [0; 0; 0; 0; 0]).
  - vm_compute. reflexivity.
  - apply demo_shape_ok.
  - apply demo_indices_ok.
  - reflexivity.
  - reflexivity.
  - apply reads_from_bytes.
  - reflexivity.
  - reflexivity.
  - unfold is_u64. lia.
  - unfold is_u64. cbn. lia.
  - intros Hne. by destruct Hne.
Defined.

Lemma chunks_reassemble_witness :
  read_pieces (@SelectionLayout.read_with demo_half (from_bytes demo_data) demo_layout) 0
    [[0; 0; 0; 0; 0]; [0]; [0; 0; 0; 0; 0; 0]] = Ok [18; 19; 20; 21; 22; 23; 2; 3; 4; 5; 6; 7].
Proof.
  rewrite (@chunks_reassemble demo_build demo_half demo_data [3; 4] demo_indices Int16
    QualitySpec.exact demo_layout demo_resolved (from_bytes demo_data)).
  - vm_compute. reflexivity.
  - apply demo_shape_ok.
  - apply demo_indices_ok.
  - reflexivity.
  - reflexivity.
  - apply reads_from_bytes.
  - reflexivity.
  - reflexivity.
  - reflexivity.
  - reflexivity.
Defined.

Lemma layout_resolve_total_witness :
  exists r, Selection.resolve [3; 4] demo_indices = Ok r /\ resolved_wf [3; 4] r /\ [2; 3] = out_shape r.
Proof.
  exact (@layout_resolve_total demo_build [3; 4] Int16 demo_indices QualitySpec.exact
    demo_shape_ok ltac:(cbn; lia) demo_indices_ok).
Defined.

(** The element count wraps before the check meant to guard it.  A whole
    array of 2^64 elements resolves to an empty byte stream although its shape is not
    empty: [checked_mul] never sees the product that overflowed. *)
Theorem num_elements_can_wrap :
  exists l, @SelectionLayout.resolve demo_build [2 ^ 62; 4] Float64 [] QualitySpec.exact = Ok l /\
    l_out_shape l = [2 ^ 62; 4] /\ total_bytes l = 0.
Proof. eexists. split; [vm_compute; reflexivity|]. split; reflexivity. Qed.
