(* ===== verification/NumpyIndex.v ===== *)
(** numpy's basic and advanced indexing, as its manual states it: which shape a selection
    has and which element of the array each of its coordinates is, for the indices a client
    can send, index arrays having one dimension.  The definition knows nothing of
    [resolve], whose answers are shown to be its: axes by axes [expand] and [collect] meet
    the items here ([entries_like]), and the walk over them the coordinates ([walk_like]). *)
From Stdlib Require Import FunctionalExtensionality.
From S2P Require Import Prelude Errors Dtype Bytes Quality Selection SelectionSpec ReadSpec Cast Layout LayoutSpec.

(** ** numpy's definition *)

Definition is_ellipsis (i : Index) : bool := match i with Ellipsis => true | _ => false end.
Definition is_array (i : Index) : bool := match i with Fancy _ => true | _ => false end.

(** An ellipsis stands for as many full slices as the other indices leave axes, and the end
    of the selection for an ellipsis where there is none.  One that stands for no axis is
    not there at all, and parts no index arrays. *)
Definition spelled (ndim : nat) (indices : list Index) : option (list Index) :=
  let given := length (filter (fun i => Index.consumes_axis i = true) indices) in
  let full := replicate (ndim - given) Index.full in
  if (ndim <? given)%nat then None
  else match length (filter (fun i => is_ellipsis i = true) indices) with
       | O => Some (indices ++ full)
       | S O => Some (indices ≫= fun i => if is_ellipsis i then full else [i])
       | _ => None
       end.

(** What one index makes of its axis: an axis of length 1 that the array has not, the
    positions a slice walks, the position a number takes, or the positions of an index
    array.  Next to an index array a number is one too, of one element. *)
Inductive Item : Type :=
  | Added
  | Loop (l : list Z)
  | Fixed (i : Z)
  | Group (l : list Z).

Definition is_group (it : Item) : bool := match it with Group _ => true | _ => false end.

(** A number counts from the end when it is negative. *)
Definition on_axis (dim i : Z) : option Z :=
  if decide (- dim <= i < dim) then Some (if i <? 0 then i + dim else i) else None.

Definition item_of (arrays : bool) (dim : Z) (i : Index) : option Item :=
  match i with
  | Single i => j ← on_axis dim i; Some (if arrays then Group [j] else Fixed j)
  | Slice start stop step => if decide (step = Some 0) then None else Some (Loop (py_slice start stop step dim))
  | Fancy l => l ← mapM (on_axis dim) l; Some (Group l)
  | Ellipsis | NewAxis => None
  end.

(** The items of a selection on the axes [shape], and the axes it leaves. *)
Fixpoint items (arrays : bool) (indices : list Index) (shape : list Z) : option (list Item * list Z) :=
  match indices with
  | [] => Some ([], shape)
  | NewAxis :: indices => '(its, shape) ← items arrays indices shape; Some (Added :: its, shape)
  | i :: indices =>
      match shape with
      | [] => None
      | dim :: shape => it ← item_of arrays dim i; '(its, shape) ← items arrays indices shape; Some (it :: its, shape)
      end
  end.

(** Index arrays are broadcast: those of more or less than one element agree. *)
Definition broadcast (its : list Item) : option Z :=
  let lengths := its ≫= (fun it => match it with Group l => [zlen l] | _ => [] end) in
  match filter (fun n => n <> 1) lengths with
  | [] => Some 1
  | n :: ns => if decide (Forall (fun m => m = n) ns) then Some n else None
  end.

Fixpoint drop_while {A} (p : A -> bool) (l : list A) : list A :=
  match l with [] => [] | x :: l' => if p x then drop_while p l' else l end.

(** Whether something stands between two index arrays. *)
Definition apart (its : list Item) : bool :=
  existsb is_group (drop_while is_group (drop_while (fun it => negb (is_group it)) its)).

(** The lengths of the result's axes; the index arrays have one between them, where the
    first of them stands unless it has been given a place already. *)
Fixpoint dims_in (len : Z) (placed : bool) (its : list Item) : list Z :=
  match its with
  | [] => []
  | Added :: its => 1 :: dims_in len placed its
  | Loop l :: its => zlen l :: dims_in len placed its
  | Fixed _ :: its => dims_in len placed its
  | Group _ :: its => if placed then dims_in len placed its else len :: dims_in len true its
  end.

(** An index array of one element is that element everywhere. *)
Definition at_array (l : list Z) (k : Z) : Z := match l with [i] => i | _ => l !!! Z.to_nat k end.

(** The array's coordinates for the result's coordinates [o]; [k] is the coordinate of
    the index arrays' axis, once it is known. *)
Fixpoint source_in (k : option Z) (its : list Item) (o : list Z) : list Z :=
  match its with
  | [] => []
  | Added :: its => source_in k its (tail o)
  | Loop l :: its => l !!! Z.to_nat (default 0 (head o)) :: source_in k its (tail o)
  | Fixed i :: its => i :: source_in k its o
  | Group l :: its =>
      match k with
      | Some j => at_array l j :: source_in k its o
      | None => let j := default 0 (head o) in at_array l j :: source_in (Some j) its (tail o)
      end
  end.

(** A view of an array: its shape, and where each of its elements comes from. *)
Record View : Type := { v_shape : list Z; v_source : list Z -> list Z }.

(** The index arrays' axis comes first when they are apart. *)
Definition view_of (its : list Item) (len : Z) : View :=
  if apart its
  then {| v_shape := len :: dims_in len true its;
          v_source o := source_in (Some (default 0 (head o))) its (tail o) |}
  else {| v_shape := dims_in len false its; v_source := source_in None its |}.

Definition numpy_index (shape : list Z) (indices : list Index) : option View :=
  indices' ← spelled (length shape) indices;
  '(its, _) ← items (existsb is_array indices) indices' shape;
  len ← broadcast its;
  Some (view_of its len).

(** The coordinates of an array, in C order. *)
Fixpoint coords (shape : list Z) : list (list Z) :=
  match shape with [] => [[]] | d :: shape => i ← seqZ 0 d; cons i <$> coords shape end.

(** The array's elements a view shows, in C order. *)
Definition shown (shape : list Z) (v : View) : list Z := (fun o => ravel shape (v_source v o)) <$> coords (v_shape v).

(** ** Entries and items *)

(** What [expand] makes of an item. *)
Inductive entered : Item -> Entry -> Prop :=
  | entered_added : entered Added ENew
  | entered_loop start len step : 0 <= len -> entered (Loop (positions (Range start len step))) (EAxis (Range start len step) false)
  | entered_fixed i : entered (Fixed i) (EAxis (Point i) false)
  | entered_number i : entered (Group [i]) (EAxis (Point i) true)
  | entered_array l : entered (Group l) (EAxis (FancyAxis l) true).

Lemma on_axis_like dim i :
  is_i64 i -> 0 <= dim < two63 ->
  match normalize_index i dim with Ok j => on_axis dim i = Some j | Err e => e = BadSelection /\ on_axis dim i = None | Panic => False end.
Proof.
  intros Hi Hd. pose proof (fun j => normalize_index_ok i dim j Hi Hd) as Hn. unfold on_axis.
  assert (forall e, normalize_index i dim = Err e -> e = BadSelection) as Herr
    by (intros e; unfold normalize_index; cbv zeta; destruct (_ || _); congruence).
  destruct (normalize_index i dim) as [j|e|] eqn:He; [|split; [by apply Herr|]|by apply normalize_index_no_panic in He].
  - destruct (proj1 (Hn j) eq_refl) as [Hr ->]. by rewrite decide_True.
  - case_decide; [|done]. destruct (Hn (if i <? 0 then i + dim else i)) as [_ H']. by discriminate H'.
Qed.

Lemma mapM_like {A B} (f : A -> result AexError B) (g : A -> option B) l :
  (forall x, x ∈ l -> match f x with Ok y => g x = Some y | Err e => e = BadSelection /\ g x = None | Panic => False end) ->
  match mapM f l with Ok k => mapM g l = Some k | Err e => e = BadSelection /\ mapM g l = None | Panic => False end.
Proof.
  induction l as [|x l IH]; intros Hf; [done|]. cbn. pose proof (Hf x ltac:(left)) as Hx.
  destruct (f x) as [y|e|]; cbn [mbind result_bind option_bind]; [|by destruct Hx as [-> ->]|done]. rewrite Hx. cbn [mbind option_bind].
  specialize (IH (fun z Hz => Hf z ltac:(by right))).
  destruct (mapM f l) as [k|e|]; cbn [mbind result_bind]; [by rewrite IH|by destruct IH as [-> ->]|done].
Qed.

Lemma item_of_like arrays dim i :
  index_wf i -> Index.consumes_axis i = true -> 0 <= dim -> (is_array i = true -> arrays = true) ->
  match resolve_axis i dim with
  | Ok s => exists it, item_of arrays dim i = Some it /\ entered it (EAxis s (joins_group arrays i))
  | Err e => e = BadSelection /\ (dim < two63 -> item_of arrays dim i = None)
  | Panic => False
  end.
Proof.
  intros Hwf Hc Hd0 Harr. unfold resolve_axis, i64_try_from. case_decide as Hd; [|by split; [done|lia]].
  assert (0 <= dim < two63) as Hd' by lia. clear Hd. rename Hd' into Hd. cbn [ok_or mbind result_bind].
  destruct i as [i|start stop step|l| |]; try done; cbn [item_of joins_group].
  - pose proof (on_axis_like dim i Hwf Hd) as Hi. destruct (normalize_index i dim) as [j|e|]; cbn; [|by destruct Hi as [-> ->]|done].
    rewrite Hi. cbn. eexists. split; [done|]. destruct arrays; constructor.
  - destruct Hwf as (? & ? & ?). pose proof (resolve_slice_spec start stop step dim ltac:(done) ltac:(done) ltac:(done) Hd) as Hs.
    destruct (resolve_slice start stop step dim) as [s|e|] eqn:He; [|split|done].
    + destruct Hs as (Hne & Hp & (_ & Hlen & _) & a & n & ->). rewrite decide_False by (by intros ->). rewrite <- Hp. replace (joins_group arrays (Slice start stop step)) with false by (by destruct arrays).
      eexists. split; [done|]. by apply entered_loop.
    + revert He. unfold resolve_slice. cbv zeta. case_match; [congruence|]. repeat case_match; done.
    + rewrite decide_True; [done|]. destruct step as [z|]; [|done]. by rewrite <- Hs.
  - pose proof (mapM_like (fun i => normalize_index i dim) (on_axis dim) l) as Hl.
    assert (forall x, x ∈ l -> is_i64 x) as Hx by (by apply Forall_forall).
    specialize (Hl (fun x Hin => on_axis_like dim x (Hx x Hin) Hd)).
    destruct (mapM (fun i => normalize_index i dim) l) as [k|e|]; cbn; [|by destruct Hl as [-> ->]|done].
    rewrite Hl. cbn. eexists. split; [done|]. rewrite Harr by done. constructor.
Qed.

Lemma items_app arrays is1 is2 shape :
  items arrays (is1 ++ is2) shape =
  '(its1, shape1) ← items arrays is1 shape; '(its2, shape2) ← items arrays is2 shape1; Some (its1 ++ its2, shape2).
Proof.
  revert shape. induction is1 as [|i is1 IH]; intros shape; cbn [app items mbind option_bind].
  - by destruct (items arrays is2 shape) as [[? ?]|].
  - destruct i; cbn [app items]; try (destruct shape as [|dim shape]; [done|]; destruct (item_of _ _ _); [cbn [mbind option_bind]|done]);
      rewrite IH; (destruct (items arrays is1 shape) as [[its1 s1]|]; cbn; [|done]); by destruct (items arrays is2 s1) as [[its2 s2]|].
Qed.

(** An axis taken whole. *)
Lemma full_item arrays dim : 0 <= dim -> exists it, item_of arrays dim Index.full = Some it /\ entered it (EAxis (AxisSel.whole dim) false).
Proof.
  intros Hd. cbn [item_of Index.full]. rewrite decide_False by done. replace (py_slice None None None dim) with (positions (AxisSel.whole dim)).
  { eexists. split; [done|]. by apply entered_loop. }
  unfold py_slice. change (0 <? default 1 None) with true. cbv iota zeta. change (default 1 None) with 1.
  assert (steps (dim - 0) 1 = dim) as Hst.
  { unfold steps. change (Z.abs 1) with 1. rewrite Z.div_1_r. destruct (Z.ltb_spec 0 (dim - 0)); lia. }
  rewrite py_range_steps; change (0 <? 1) with true; cbv iota; rewrite ?Hst; done || lia.
Qed.

Lemma whole_items arrays shape axis n es :
  Forall (fun d => 0 <= d) shape -> whole_axes shape axis n = Ok es ->
  exists its, items arrays (replicate n Index.full) (drop axis shape) = Some (its, drop (axis + n) shape) /\ Forall2 entered its es.
Proof.
  intros Hs. unfold whole_axes. revert axis es. induction n as [|n IH]; intros axis es; cbn [seq mapM replicate].
  - intros [= <-]. exists []. rewrite Nat.add_0_r. by split.
  - destruct (shape !! axis) as [dim|] eqn:Hd; cbn [expect mbind result_bind]; [|done].
    destruct (mapM _ (seq (S axis) n)) as [es'| |] eqn:Hm; cbn [mbind result_bind]; intros [= <-].
    destruct (IH _ _ Hm) as (its & Hits & Hf). rewrite (drop_lookup _ _ _ Hd).
    destruct (full_item arrays dim) as (it & Hit & He); [by apply (Forall_lookup_1 _ _ _ _ Hs Hd)|].
    exists (it :: its). cbn [items Index.full]. fold Index.full. change (Slice None None None) with Index.full. rewrite Hit. cbn [mbind option_bind]. rewrite Hits. cbn.
    rewrite Nat.add_succ_r. split; [done|by constructor].
Qed.

Lemma whole_axes_no_err shape axis n e : whole_axes shape axis n <> Err e.
Proof.
  unfold whole_axes. generalize (seq axis n) as l. induction l as [|a l IH]; [done|]. cbn. destruct (shape !! a); cbn; [|done].
  destruct (mapM _ l) eqn:Hm; cbn; solve [done|congruence].
Qed.

Lemma entries_like shape implied arrays indices axis :
  Forall (fun d => 0 <= d) shape -> Forall index_wf indices -> (existsb is_array indices = true -> arrays = true) ->
  match expand_entries shape implied arrays indices axis with
  | Ok (es, axis') => exists its,
      items arrays (indices ≫= fun i => if is_ellipsis i then replicate implied Index.full else [i]) (drop axis shape) =
        Some (its, drop axis' shape) /\ Forall2 entered its es
  | Err e => e = BadSelection /\ (Forall (fun d => d < two63) shape ->
      items arrays (indices ≫= fun i => if is_ellipsis i then replicate implied Index.full else [i]) (drop axis shape) = None)
  | Panic => True
  end.
Proof.
  intros Hs. revert axis. induction indices as [|i indices IH]; intros axis Hwf Harr; [by exists []|].
  apply Forall_cons in Hwf as [Hi Hwf]. cbn [existsb] in Harr. rewrite orb_true_iff in Harr.
  specialize (fun axis => IH axis Hwf (fun H => Harr (or_intror H))).
  set (spell := fun i => if is_ellipsis i then replicate implied Index.full else [i]) in *.
  rewrite bind_cons. destruct (decide (i = Ellipsis)) as [->|Hne].
  { cbn [spell is_ellipsis expand_entries]. rewrite items_app. destruct (whole_axes shape axis implied) as [es|e|] eqn:Hw; [| |done].
    - destruct (whole_items arrays _ _ _ _ Hs Hw) as (its & -> & Hf). cbn [mbind option_bind result_bind].
      specialize (IH (axis + implied)%nat). destruct (expand_entries _ _ _ _ _) as [[es' axis']|e|]; cbn [mbind result_bind]; [| |done].
      + destruct IH as (its' & -> & Hf'). eexists. split; [done|by apply Forall2_app].
      + destruct IH as [-> IH]; split; [done|intros Hb; by rewrite IH].
    - by apply whole_axes_no_err in Hw. }
  assert (spell i = [i]) as -> by (by destruct i). rewrite items_app.
  destruct (decide (i = NewAxis)) as [->|Hnn].
  { cbn. specialize (IH axis). destruct (expand_entries _ _ _ _ _) as [[es' axis']|e|]; cbn; [| |done].
    - destruct IH as (its' & -> & Hf'). eexists. split; [done|]. by repeat constructor.
    - destruct IH as [-> IH]; split; [done|intros Hb; by rewrite IH]. }
  assert (Index.consumes_axis i = true) as Hc by (by destruct i).
  assert (expand_entries shape implied arrays (i :: indices) axis =
    (dim ← expect (shape !! axis); sel ← resolve_axis i dim;
     '(entries, axis) ← expand_entries shape implied arrays indices (S axis);
     Ok (EAxis sel (joins_group arrays i) :: entries, axis))) as -> by (by destruct i).
  destruct (shape !! axis) as [dim|] eqn:Hd; cbn [expect mbind result_bind]; [|done].
  rewrite (drop_lookup _ _ _ Hd).
  assert (items arrays [i] (dim :: drop (S axis) shape) = (it ← item_of arrays dim i; Some ([it], drop (S axis) shape))) as -> by (by destruct i).
  pose proof (item_of_like arrays dim i Hi Hc (Forall_lookup_1 _ _ _ _ Hs Hd) (fun H => Harr (or_introl H))) as Hit.
  destruct (resolve_axis i dim) as [sel|e|]; cbn [mbind result_bind]; [|destruct Hit as [-> Hit]; split; [done|intros Hb; rewrite Hit; [done|by apply (Forall_lookup_1 _ _ _ _ Hb Hd)]]|done].
  destruct Hit as (it & -> & He). cbn [mbind option_bind]. specialize (IH (S axis)).
  destruct (expand_entries _ _ _ _ _) as [[es' axis']|e|]; cbn [mbind result_bind]; [| |done].
  - destruct IH as (its' & -> & Hf'). eexists. split; [done|]. by constructor.
  - destruct IH as [-> IH]; split; [done|intros Hb; by rewrite IH].
Qed.

Definition ellipses (indices : list Index) : nat := length (filter (fun i => is_ellipsis i = true) indices).
Definition taken (indices : list Index) : nat := length (filter (fun i => Index.consumes_axis i = true) indices).

Lemma ellipses_cons i l : ellipses (i :: l) = ((if is_ellipsis i then 1 else 0) + ellipses l)%nat.
Proof. unfold ellipses. rewrite filter_cons. by destruct i. Qed.
Lemma taken_cons i l : taken (i :: l) = ((if Index.consumes_axis i then 1 else 0) + taken l)%nat.
Proof. unfold taken. rewrite filter_cons. by destruct i. Qed.

Lemma scan_like indices st :
  match scan indices st with
  | Ok st' => ((if has_ellipsis st then 1 else 0) + ellipses indices <= 1)%nat /\ consuming st' = (consuming st + taken indices)%nat /\
      has_ellipsis st' = has_ellipsis st || (0 <? ellipses indices)%nat /\ has_array st' = has_array st || existsb is_array indices
  | Err e => e = BadSelection /\ ((if has_ellipsis st then 1 else 0) + ellipses indices > 1)%nat
  | Panic => False
  end.
Proof.
  revert st. induction indices as [|i indices IH]; intros st; cbn [scan existsb].
  - cbn. rewrite !orb_false_r. destruct (has_ellipsis st); lia || (split_and!; done || lia).
  - rewrite ellipses_cons, taken_cons. destruct i; cbn [is_ellipsis Index.consumes_axis is_array orb];
      try (destruct (has_ellipsis st) eqn:He; [split; [done|lia]|]);
      match goal with |- context [scan indices ?s] => specialize (IH s) end;
      (destruct (scan indices _) as [st'|e|]; [|destruct IH as [-> IH]; split; [done|]|done]);
      cbn [has_ellipsis consuming has_array Index.consumes_axis] in IH;
      rewrite ?He in IH; try lia; destruct IH as (H1 & H2 & H3 & H4); split_and!; try lia; try done;
      rewrite ?H3, ?H4, ?orb_true_r, ?orb_false_l; try done; by rewrite ?orb_true_r.
Qed.

Lemma expand_like shape indices :
  Forall (fun d => 0 <= d) shape -> Forall index_wf indices ->
  let numpy := indices' ← spelled (length shape) indices; items (existsb is_array indices) indices' shape in
  match expand shape indices with
  | Ok es => exists its left, numpy = Some (its, left) /\ Forall2 entered its es
  | Err e => e = BadSelection /\ (Forall (fun d => d < two63) shape -> numpy = None)
  | Panic => True
  end.
Proof.
  intros Hs Hwf. cbv zeta. unfold expand, spelled. fold (ellipses indices) (taken indices).
  pose proof (scan_like indices {| consuming := 0; has_ellipsis := false; has_array := false |}) as Hscan.
  destruct (scan indices _) as [st|e|]; cbn [mbind result_bind]; [|destruct Hscan as [-> Hn]; split; [done|]|done].
  2: { destruct (_ <? _)%nat; [done|]. cbn in Hn. destruct (ellipses indices) as [|[]]; lia || done. }
  cbn [consuming has_ellipsis has_array orb Nat.add] in Hscan. destruct Hscan as (Hn & -> & -> & ->).
  destruct (Nat.ltb_spec (length shape) (taken indices)) as [|Hle]; [done|].
  set (implied := (length shape - taken indices)%nat). set (arrays := existsb is_array indices).
  pose proof (entries_like shape implied arrays indices 0 Hs Hwf (fun H => H)) as He. rewrite drop_0 in He.
  destruct (ellipses indices) as [|[|n]] eqn:Hel; [| |lia].
  - assert (indices ≫= (fun i => if is_ellipsis i then replicate implied Index.full else [i]) = indices) as Hsame.
    { clearbody implied. clear -Hel. induction indices as [|i indices IH]; [done|]. rewrite ellipses_cons in Hel. rewrite bind_cons, IH by lia. by destruct i. }
    rewrite Hsame in He. cbn [Nat.ltb Nat.leb]. cbn [mbind option_bind]. rewrite items_app.
    destruct (expand_entries _ _ _ _ _) as [[es axis]|e|]; cbn [mbind result_bind]; [|destruct He as [-> He]; split; [done|intros Hb; by rewrite He]|done].
    destruct He as (its & -> & Hf). cbn [mbind option_bind].
    destruct (whole_axes shape axis implied) as [es'|e|] eqn:Hw; cbn [mbind result_bind]; [| |done].
    + destruct (whole_items arrays _ _ _ _ Hs Hw) as (its' & -> & Hf'). eexists _, _. split; [done|by apply Forall2_app].
    + by apply whole_axes_no_err in Hw.
  - cbn [Nat.ltb Nat.leb mbind option_bind].
    destruct (expand_entries _ _ _ _ _) as [[es axis]|e|]; cbn [mbind result_bind]; [|destruct He as [-> He]; split; [done|intros Hb; by rewrite He]|done].
    destruct He as (its & -> & Hf). by eexists _, _.
Qed.

(** ** What [resolve] makes of them *)

Lemma resolve_inv shape indices :
  match resolve shape indices with
  | Ok r => exists es, expand shape indices = Ok es /\ flags r = axis_entries es /\
      if has_group (axis_entries es)
      then exists g, advanced r = Some g /\ broadcast_len (fancy_lens (axis_entries es)) = Ok (group_len g) /\
        adjacent g = consecutive (c_positions (collect es 0 0)) /\
        out_shape r = (if adjacent g then [] else [group_len g]) ++ entries_shape (Some g) (head (c_positions (collect es 0 0))) 0 es
      else advanced r = None /\ out_shape r = entries_shape None (head (c_positions (collect es 0 0))) 0 es
  | Err e => expand shape indices = Err e \/
      exists es, expand shape indices = Ok es /\ broadcast_len (fancy_lens (axis_entries es)) = Err e
  | Panic => True
  end.
Proof.
  unfold resolve. destruct (expand shape indices) as [es|e|]; cbn [mbind result_bind]; [|by left|done].
  destruct (collect_spec es 0 0) as (Hax & Hgr & Hle). case_bool_decide as Hnil.
  - rewrite Hgr, true_axes_nil in Hnil. cbn [mbind result_bind]. exists es. split; [done|]. rewrite Hnil.
    split; [|done]. unfold flags, in_group. cbn. rewrite Hax. by apply flags_none.
  - rewrite Hle. destruct (broadcast_len _) as [len|e|] eqn:Hl; cbn [mbind result_bind]; [|right; by exists es|done].
    exists es. split; [done|]. split; [unfold flags, in_group; cbn; rewrite Hax, Hgr; apply in_group_flags|].
    destruct (has_group (axis_entries es)) eqn:Hg; [|rewrite Hgr, true_axes_nil in Hnil; congruence]. by eexists.
Qed.

Section Entered.
Implicit Types (its : list Item) (es : list Entry).

Lemma entered_groups its es : Forall2 entered its es -> existsb is_group its = has_group (axis_entries es).
Proof. induction 1 as [|it e its es He _ IH]; [done|]. by destruct He; cbn; rewrite ?IH. Qed.

Lemma broadcast_from_like acc lens :
  broadcast_from acc lens =
  match filter (fun n => n <> 1) (if decide (acc = 1) then lens else acc :: lens) with
  | [] => Ok 1
  | n :: ns => if decide (Forall (fun m => m = n) ns) then Ok n else Err BadSelection
  end.
Proof.
  revert acc. induction lens as [|n lens IH]; intros acc; cbn [broadcast_from].
  - destruct (decide (acc = 1)) as [->|Ha]; [done|]. rewrite filter_cons, decide_True by done. cbn [filter list_filter].
    by rewrite decide_True by constructor.
  - destruct (Z.eqb_spec n 1) as [->|Hn].
    { rewrite IH. destruct (decide (acc = 1)); rewrite !filter_cons; repeat (rewrite (decide_True (P := _ <> _)) by done || rewrite (decide_False (P := _ <> _)) by tauto); done. }
    destruct (Z.eqb_spec acc 1) as [->|Ha]; cbn [negb andb].
    { rewrite IH, decide_False by done. by rewrite decide_True by done. }
    rewrite decide_False by done. rewrite !filter_cons, !(decide_True (P := _ <> _)) by done.
    destruct (Z.eqb_spec acc n) as [->|Hne]; cbn [negb].
    + rewrite IH, decide_False by done. rewrite filter_cons, decide_True by done.
      destruct (decide (Forall (fun m => m = n) (filter _ lens))) as [Hf|Hf].
      * by rewrite decide_True by by constructor.
      * rewrite decide_False; [done|]. by intros [_ ?]%Forall_cons.
    + rewrite decide_False; [done|]. intros [? _]%Forall_cons. by subst.
Qed.

Lemma broadcast_like its es :
  Forall2 entered its es ->
  match broadcast_len (fancy_lens (axis_entries es)) with
  | Ok len => broadcast its = Some len
  | Err e => e = BadSelection /\ broadcast its = None
  | Panic => False
  end.
Proof.
  intros He. unfold broadcast_len, broadcast. rewrite broadcast_from_like. rewrite decide_True by done.
  replace (filter (fun n => n <> 1) (fancy_lens (axis_entries es)))
    with (filter (fun n => n <> 1) (its ≫= (fun it => match it with Group l => [zlen l] | _ => [] end))).
  - destruct (filter _ _) as [|n ns]; [done|]. by case_decide.
  - induction He as [|it e its es He _ IH]; [done|].
    destruct He; cbn [axis_entries fancy_lens]; rewrite bind_cons; cbn [app]; try done.
    by rewrite !filter_cons, IH.
Qed.

Lemma no_positions its es p n : Forall2 entered its es -> (c_positions (collect es p n) = [] <-> existsb is_group its = false).
Proof. intros He. revert p n. induction He as [|it e its es He _ IH]; intros p n; [done|]. by destruct He; cbn. Qed.

Lemma consecutive_like its es p n :
  Forall2 entered its es ->
  consecutive (p :: c_positions (collect es (S p) n)) = negb (existsb is_group (drop_while is_group its)) /\
  consecutive (c_positions (collect es p n)) = negb (apart its).
Proof.
  intros He. revert p n. induction He as [|it e its es He Hes IH]; intros p n; [done|].
  assert (forall n', c_positions (collect (e :: es) (S p) n) = c_positions (collect es (S (S p)) n') -> is_group it = false ->
    consecutive (p :: c_positions (collect (e :: es) (S p) n)) = negb (existsb is_group (it :: its))) as Hfar.
  { intros n' -> Hit. cbn [existsb]. rewrite Hit. cbn [orb]. pose proof (no_positions its es (S (S p)) n' Hes) as Hno.
    pose proof (c_positions_ge es (S (S p)) n') as Hge. destruct (c_positions (collect es (S (S p)) n')) as [|q l].
    - by rewrite (proj1 Hno).
    - apply Forall_cons in Hge as [Hq _]. change (Nat.eqb q (S p) && consecutive (q :: l) = negb (existsb is_group its)).
      rewrite (proj2 (Nat.eqb_neq _ _)) by lia. destruct (existsb is_group its); [done|]. by discriminate (proj2 Hno eq_refl). }
  unfold apart in *. destruct He; cbn [drop_while is_group negb].
  - split; [by apply (Hfar n)|]. apply IH.
  - split; [by apply (Hfar (S n))|]. apply IH.
  - split; [by apply (Hfar (S n))|]. apply IH.
  - split; [|apply (IH p (S n))]. change (Nat.eqb (S p) (S p) && consecutive (S p :: c_positions (collect es (S (S p)) (S n))) =
      negb (existsb is_group (drop_while is_group its))). rewrite Nat.eqb_refl. apply IH.
  - split; [|apply (IH p (S n))]. change (Nat.eqb (S p) (S p) && consecutive (S p :: c_positions (collect es (S (S p)) (S n))) =
      negb (existsb is_group (drop_while is_group its))). rewrite Nat.eqb_refl. apply IH.
Qed.

Lemma no_group_shape its es adv first len placed p :
  Forall2 entered its es -> existsb is_group its = false -> entries_shape adv first p es = dims_in len placed its.
Proof.
  intros He. revert p. induction He as [|it e its es He _ IH]; intros p Hno; [done|]. rewrite entries_shape_cons. cbn [existsb] in Hno.
  destruct He; cbn [is_group orb] in Hno; try done; cbn [dims_in]; rewrite <- (IH (S p)) by done; try done.
  cbn [entry_shape AxisSel.out_len AxisSel.len app]. by rewrite (length_positions (Range start len0 step)).
Qed.

Lemma placed_shape its es g first p :
  Forall2 entered its es -> (adjacent g = false \/ exists q, first = Some q /\ (q < p)%nat) ->
  entries_shape (Some g) first p es = dims_in (group_len g) true its.
Proof.
  intros He. revert p. induction He as [|it e its es He _ IH]; intros p Hg; [done|]. rewrite entries_shape_cons.
  assert (adjacent g && bool_decide (Some p = first) = false) as Hnot.
  { destruct Hg as [->|(q & -> & Hq)]; [done|]. apply andb_false_iff. right. apply bool_decide_false. intros [= ->]. lia. }
  assert (adjacent g = false \/ exists q, first = Some q /\ (q < S p)%nat) as Hg'.
  { destruct Hg as [|(q & -> & Hq)]; [by left|right]. exists q. split; [done|lia]. }
  destruct He; cbn [dims_in]; rewrite <- (IH (S p) Hg'); cbn [entry_shape AxisSel.out_len AxisSel.len app]; rewrite ?Hnot; try done.
  by rewrite (length_positions (Range start len step)).
Qed.

Lemma open_shape its es g p n :
  Forall2 entered its es -> adjacent g = true ->
  entries_shape (Some g) (head (c_positions (collect es p n))) p es = dims_in (group_len g) false its.
Proof.
  intros He Hg. revert p n. induction He as [|it e its es He Hes IH]; intros p n; [done|]. rewrite entries_shape_cons.
  destruct He; cbn [dims_in collect c_positions head].
  - by rewrite <- (IH (S p) n).
  - rewrite <- (IH (S p) (S n)). cbn [entry_shape AxisSel.out_len AxisSel.len app]. by rewrite (length_positions (Range start len step)).
  - by rewrite <- (IH (S p) (S n)).
  - rewrite (placed_shape its es) by (done || (right; exists p; split; [done|lia])). cbn. by rewrite Hg, bool_decide_true.
  - rewrite (placed_shape its es) by (done || (right; exists p; split; [done|lia])). cbn. by rewrite Hg, bool_decide_true.
Qed.

Lemma mbind_positions (l : list Z) {A} (f : Z -> list A) : (l ≫= f) = (seqZ 0 (zlen l) ≫= fun j => f (l !!! Z.to_nat j)).
Proof.
  assert (l = (fun j => l !!! Z.to_nat j) <$> seqZ 0 (zlen l)) as Hl.
  { apply list_eq. intros i. rewrite list_lookup_fmap. destruct (decide (i < length l)%nat) as [Hi|Hi].
    - rewrite lookup_seqZ_lt by lia. cbn. rewrite Z.add_0_l, Nat2Z.id. by apply list_lookup_lookup_total_lt.
    - rewrite lookup_ge_None_2 by lia. by rewrite lookup_seqZ_ge by lia. }
  rewrite Hl at 1. clear Hl. generalize (seqZ 0 (zlen l)) as js. induction js as [|j js IH]; [done|]. rewrite fmap_cons, !bind_cons. by rewrite IH.
Qed.

Lemma fmap_bind_cons (f : list Z -> list Z) (g : Z -> list Z -> list Z) d (os : list (list Z)) :
  (forall j o, f (j :: o) = g j o) -> f <$> (i ← seqZ 0 d; cons i <$> os) = (seqZ 0 d ≫= fun j => g j <$> os).
Proof.
  intros Hf. generalize (seqZ 0 d) as js. induction js as [|j js IH]; [done|]. rewrite !bind_cons, fmap_app, IH. f_equal.
  rewrite <- list_fmap_compose. apply list_fmap_ext. intros i o _. cbn. by rewrite Hf.
Qed.

Lemma pick_at s l k : entered (Group l) (EAxis s true) -> pick s k = at_array l k.
Proof. inversion 1; done. Qed.

Lemma walk_like its es len k :
  Forall2 entered its es ->
  walk len (axis_entries es) k = source_in k its <$> coords (dims_in len (bool_decide (k <> None)) its).
Proof.
  intros He. revert k. induction He as [|it e its es He Hes IH]; intros k; [done|].
  assert (forall s l, entered (Group l) (EAxis s true) ->
    walk len ((s, true) :: axis_entries es) k = source_in k (Group l :: its) <$> coords (dims_in len (bool_decide (k <> None)) (Group l :: its))) as Hgroup.
  { intros s l Hsl. cbn [walk dims_in]. destruct k as [j|].
    - rewrite bool_decide_true by done. rewrite IH, bool_decide_true by done. rewrite <- list_fmap_compose.
      apply list_fmap_ext. intros i o _. cbn. by rewrite (pick_at s l).
    - rewrite bool_decide_false by naive_solver. cbn [coords].
      rewrite (fmap_bind_cons _ (fun j o => at_array l j :: source_in (Some j) its o)) by done.
      f_equal. apply functional_extensionality. intros j. rewrite IH, bool_decide_true by done. rewrite <- list_fmap_compose.
      apply list_fmap_ext. intros i o _. cbn. by rewrite (pick_at s l). }
  destruct He as [|start n step Hn|i|i|l]; cbn [axis_entries walk dims_in coords].
  - rewrite (fmap_bind_cons _ (fun _ => source_in k its)) by done. change (seqZ 0 1) with [0]. by rewrite (bind_cons _ 0 []), app_nil_r, IH.
  - rewrite (mbind_positions (positions (Range start n step))).
    rewrite (fmap_bind_cons _ (fun j o => (positions (Range start n step)) !!! Z.to_nat j :: source_in k its o)) by done.
    f_equal. apply functional_extensionality. intros j. rewrite IH. by rewrite <- list_fmap_compose.
  - cbn [positions]. rewrite (bind_cons _ i []), app_nil_r, IH. by rewrite <- list_fmap_compose.
  - apply Hgroup. constructor.
  - apply Hgroup. constructor.
Qed.
End Entered.

(** What [resolve] answers is numpy's: the shape of the selection and the source of each of
    its elements, or a refusal of what numpy refuses, or of
    an axis of 2^63 positions or more. *)
Lemma resolve_like_numpy shape indices :
  Forall (fun d => 0 <= d) shape -> Forall index_wf indices ->
  match resolve shape indices with
  | Ok r => exists v, numpy_index shape indices = Some v /\ out_shape r = v_shape v /\
      selected r = v_source v <$> coords (v_shape v)
  | Err e => e = BadSelection /\ (Forall (fun d => d < two63) shape -> numpy_index shape indices = None)
  | Panic => False
  end.
Proof.
  intros Hs Hwf. pose proof (expand_like shape indices Hs Hwf) as He. pose proof (resolve_inv shape indices) as Hr.
  pose proof (resolve_spec shape indices Hs Hwf) as Hno. cbv zeta in He.
  assert (numpy_index shape indices = '(its, _) ← (indices' ← spelled (length shape) indices; items (existsb is_array indices) indices' shape);
    len ← broadcast its; Some (view_of its len)) as ->.
  { unfold numpy_index. by destruct (spelled _ _). }
  destruct (resolve shape indices) as [r|e|]; [| |done].
  - destruct Hr as (es & Hex & Hfl & Hr). rewrite Hex in He. destruct He as (its & left_ & -> & Hent). cbn [mbind option_bind].
    pose proof (broadcast_like its es Hent) as Hb. pose proof (entered_groups its es Hent) as Hgr. unfold selected. rewrite Hfl.
    destruct (consecutive_like its es 0 0 Hent) as [_ Hadj].
    destruct (has_group (axis_entries es)) eqn:Hg.
    + destruct Hr as (g & Hg' & Hbl & Hga & Hsh). rewrite Hbl in Hb. rewrite Hb, Hg', Hsh. cbn [mbind option_bind]. eexists. split; [done|].
      unfold view_of. rewrite Hadj in Hga. destruct (apart its); cbn [negb] in Hga; rewrite Hga; cbn [v_shape v_source app].
      * rewrite (placed_shape its es) by (done || by left). split; [done|]. cbn [coords].
        rewrite (fmap_bind_cons _ (fun k => source_in (Some k) its)) by done. f_equal. apply functional_extensionality. intros k.
        by rewrite (walk_like its es).
      * rewrite (open_shape its es) by done. split; [done|]. by rewrite (walk_like its es).
    + destruct Hr as [Hadv Hsh]. rewrite Hadv, Hsh.
      assert (fancy_lens (axis_entries es) = []) as Hnil.
      { clear -Hg. induction (axis_entries es) as [|[s b] fs IH]; [done|]. cbn in Hg. apply orb_false_iff in Hg as [-> Hg]. by destruct s; apply IH. }
      rewrite Hnil in Hb. cbn in Hb. rewrite Hb. cbn [mbind option_bind]. eexists. split; [done|].
      assert (apart its = false) as Hap.
      { unfold apart. clear -Hgr. induction its as [|it its IH]; [done|]. cbn [existsb] in Hgr. apply orb_false_iff in Hgr as [Hit Hgr].
        cbn [drop_while]. rewrite Hit. cbn [negb]. by apply IH. }
      unfold view_of. rewrite Hap. cbn [v_shape v_source]. rewrite (no_group_shape its es _ _ 1 false) by done. split; [done|].
      by rewrite (walk_like its es).
  - destruct Hr as [Hex|(es & Hex & Hbl)]; rewrite Hex in He; [destruct He as [-> He]; split; [done|intros Hb; by rewrite He]|].
    destruct He as (its & left_ & -> & Hent). pose proof (broadcast_like its es Hent) as Hb. rewrite Hbl in Hb. destruct Hb as [-> Hb].
    cbn [mbind option_bind]. by rewrite Hb.
Qed.

(** The elements a resolved selection reads are those numpy's view shows. *)
Lemma elements_like_numpy shape indices r :
  Forall (fun d => 0 <= d) shape -> Forall index_wf indices -> resolve shape indices = Ok r ->
  exists v, numpy_index shape indices = Some v /\ out_shape r = v_shape v /\ elements shape r = shown shape v.
Proof.
  intros Hs Hwf Hr. pose proof (resolve_like_numpy shape indices Hs Hwf) as H. rewrite Hr in H. destruct H as (v & Hv & Hsh & Hsel).
  exists v. split; [done|]. split; [done|]. unfold elements, shown. by rewrite Hsel, <- list_fmap_compose.
Qed.

(** The bytes of numpy's view of an array, each element as it travels. *)
Definition numpy_stream `{Build, HalfLib} (data : bytes) (shape : list Z) (src dst : DType) (v : View) : bytes :=
  shown shape v ≫= (fun e => narrowed src dst (elem_bytes data (DType.itemsize src) e)).

Lemma stream_like_numpy `{Build, HalfLib} data shape src dst indices r :
  Forall (fun d => 0 <= d) shape -> Forall index_wf indices -> resolve shape indices = Ok r ->
  exists v, numpy_index shape indices = Some v /\ out_shape r = v_shape v /\
    logical_stream data shape src dst r = numpy_stream data shape src dst v.
Proof.
  intros Hs Hwf Hr. destruct (elements_like_numpy shape indices r Hs Hwf Hr) as (v & Hv & Hsh & He).
  exists v. split; [done|]. split; [done|]. unfold logical_stream, numpy_stream. by rewrite He.
Qed.

(** Two index arrays with a slice between them: their axis comes first.  An integer next to
    an index array is one too. *)
Example view_apart : numpy_index [4; 5; 6] [Fancy [0; -1]; Slice None None (Some 3); Single 2] <> None /\
  (shown [4; 5; 6] <$> numpy_index [4; 5; 6] [Fancy [0; -1]; Slice None None (Some 3); Single 2]) = Some [2; 20; 92; 110].
Proof. split; [done|]. vm_compute. reflexivity. Qed.

Example view_new : v_shape <$> numpy_index [4; 5; 6] [NewAxis; Single 1; Ellipsis; Fancy [1; 2; 3]] = Some [3; 1; 5].
Proof. vm_compute. reflexivity. Qed.
