(* ===== verification/Chunks.v ===== *)
(** A regular grid of chunks over a C-order array: [aex-core/src/backends/chunks.rs]. *)
From S2P Require Import Prelude Errors Selection Gathered GatheredSpec StretchSpec ReadSpec.

Definition MAX_CHUNKS : Z := 2 ^ 26.

Record ChunkGrid : Type := {
  g_shape : list Z;
  chunk_shape : list Z;
  grid : list Z;
  g_itemsize : Z;
  chunk_bytes : Z;
  run_axis : nat;
}.

(** The C-order number of [coords] in a grid of [dims], if it lies inside. *)
Fixpoint linear_from (n : Z) (coords dims : list Z) : option Z :=
  match coords, dims with
  | c :: coords', d :: dims' =>
      if d <=? c then None else linear_from ((n *w d) +w c) coords' dims'
  | _, _ => Some n
  end.
Definition linear (coords dims : list Z) : option Z := linear_from 0 coords dims.

(** [linear] for coordinates known to be inside. *)
Definition linear_unchecked (coords dims : list Z) : Z :=
  foldl (fun n '(c, d) => (n *w d) +w c) 0 (zip coords dims).

(** Fill with the bytes at [at_, at_ + len) of an array of nothing but [pattern]. *)
Definition fill_from (pattern : list Z) (at_ : Z) (len : nat) : result AexError (list Z) :=
  let n := zlen pattern in
  if n =? 0 then Panic
  else
    let start := at_ mod n in
    mapM (fun i => expect (pattern !! Z.to_nat ((start + Z.of_nat i) mod n))) (seq 0 len).

Module ChunkGrid.
(** [while run_axis > 0 && chunk_shape[run_axis] == shape[run_axis]]. *)
Fixpoint find_run_axis (shape chunk_shape : list Z) (axis : nat) : nat :=
  match axis with
  | O => O
  | S axis' =>
      if bool_decide (chunk_shape !! axis = shape !! axis)
      then find_run_axis shape chunk_shape axis' else axis
  end.

Definition new (shape chunk_shape : list Z) (itemsize : Z) : option ChunkGrid :=
  if negb (length chunk_shape =? length shape)%nat || bool_decide (0 ∈ chunk_shape) then None
  else
    let grid := zip_with div_ceil shape chunk_shape in
    _ ← checked_product 1 grid;
    chunk_bytes ← checked_product itemsize chunk_shape;
    Some {| g_shape := shape; chunk_shape := chunk_shape; grid := grid; g_itemsize := itemsize;
            chunk_bytes := chunk_bytes;
            run_axis := find_run_axis shape chunk_shape (length shape - 1) |}.

Definition chunks (g : ChunkGrid) : Z := foldl wmul 1 (grid g).

Definition chunk_of (g : ChunkGrid) (coords : list Z) : option Z := linear coords (grid g).

(** The per-axis coordinates of chunk [n]: a panic where an axis is empty. *)
Fixpoint coords_from (dims : list Z) (n : Z) : result AexError (list Z * Z) :=
  match dims with
  | [] => Ok ([], n)
  | d :: dims' =>
      '(out, rest) ← coords_from dims' n;
      if d =? 0 then Panic else Ok (rest mod d :: out, rest / d)
  end.
Definition coords_of (g : ChunkGrid) (n : Z) : result AexError (list Z) :=
  fst <$> coords_from (grid g) n.

Section Walk.
(** [read(chunk, start, out)]: the bytes it fills [out] with, [out] being [len] long, and
    the state it captures. *)
Context {St : Type} (read : St -> Z -> Z -> Z -> St * result AexError (list Z)).

(** One turn of the loop at byte [at_] with [left] bytes to go: the run it reads. *)
Definition run_at (g : ChunkGrid) (at_ left : Z) : result AexError (Z * Z * Z) :=
  let element := at_ / g_itemsize g in
  let skip := at_ mod g_itemsize g in
  '(pos, _) ← coords_from (g_shape g) element;
  chunk ← expect (linear (zip_with Z.div pos (chunk_shape g)) (grid g));
  let within := linear_unchecked (zip_with Z.modulo pos (chunk_shape g)) (chunk_shape g) in
  let j := run_axis g in
  let trailing := foldl wmul 1 (drop (S j) (g_shape g)) in
  let behind := linear_unchecked (drop (S j) pos) (drop (S j) (g_shape g)) in
  c ← expect (chunk_shape g !! j);
  p ← expect (pos !! j);
  n ← expect (g_shape g !! j);
  let along := Z.min (c -w (p mod c)) (n -w p) in
  let run := (along *w trailing) -w behind in
  let start := (within *w g_itemsize g) +w skip in
  let len := Z.min ((run *w g_itemsize g) -w skip) left in
  Ok (chunk, start, len).

Fixpoint walk_loop (fuel : nat) (g : ChunkGrid) (s : St) (at_ left : Z) : St * result AexError (list Z) :=
  if left =? 0 then (s, Ok [])
  else
    match fuel with
    | O => (s, Panic)
    | S fuel' =>
        sbind (pure_step s (run_at g at_ left)) (fun s '(chunk, start, len) =>
        sbind (read s chunk start len) (fun s out =>
        sbind (walk_loop fuel' g s (at_ +w len) (left - len)) (fun s tail =>
        (s, Ok (out ++ tail)))))
    end.

(** [walk(at, dst, read)]: what [dst], [len] bytes long, is filled with. *)
Definition walk (g : ChunkGrid) (s : St) (at_ len : Z) : St * result AexError (list Z) :=
  if bool_decide (g_shape g = []) then read s 0 at_ len
  else if g_itemsize g =? 0 then (s, Panic)
  else walk_loop (Z.to_nat len) g s at_ len.
End Walk.
End ChunkGrid.

(** ** Numbering *)

Lemma linear_from_spec n coords dims :
  in_shape dims coords -> 0 <= n -> (n + 1) * zprod dims <= two64 ->
  linear_from n coords dims = Some (n * zprod dims + ravel dims coords).
Proof.
  intros Hin. revert n. induction Hin as [|d c dims coords Hc Hin IH]; intros n Hn Hb.
  - cbn. f_equal. lia.
  - cbn [linear_from zprod ravel] in *. destruct (Z.leb_spec d c); [lia|].
    pose proof (zprod_pos _ (in_shape_pos _ _ Hin)). assert ((n + 1) * d <= two64) by nia.
    rewrite (wmul_small n) by (unfold is_u64; nia). rewrite wadd_small by (unfold is_u64; nia).
    rewrite IH by nia. f_equal. lia.
Qed.

Lemma linear_spec coords dims :
  in_shape dims coords -> zprod dims <= two64 -> linear coords dims = Some (ravel dims coords).
Proof. intros. unfold linear. rewrite linear_from_spec by (done || lia). f_equal. Qed.

Lemma linear_unchecked_from n coords dims :
  in_shape dims coords -> 0 <= n -> (n + 1) * zprod dims <= two64 ->
  foldl (fun n '(c, d) => (n *w d) +w c) n (zip coords dims) = n * zprod dims + ravel dims coords.
Proof.
  intros Hin. revert n. induction Hin as [|d c dims coords Hc Hin IH]; intros n Hn Hb.
  - cbn. lia.
  - cbn [zip_with foldl zprod ravel] in *.
    pose proof (zprod_pos _ (in_shape_pos _ _ Hin)). assert ((n + 1) * d <= two64) by nia.
    rewrite (wmul_small n) by (unfold is_u64; nia). rewrite wadd_small by (unfold is_u64; nia).
    rewrite IH by nia. lia.
Qed.

Lemma linear_unchecked_spec coords dims :
  in_shape dims coords -> zprod dims <= two64 -> linear_unchecked coords dims = ravel dims coords.
Proof. intros. unfold linear_unchecked. rewrite linear_unchecked_from by (done || lia). lia. Qed.

Lemma foldl_wmul a l : 0 <= a -> Forall (fun d => 0 < d) l -> a * zprod l < two64 -> foldl wmul a l = a * zprod l.
Proof.
  intros Ha Hl. revert a Ha. induction Hl as [|d l Hd Hl IH]; intros a Ha Hlt; cbn in *; [lia|].
  pose proof (zprod_pos _ Hl). rewrite wmul_small by (unfold is_u64; nia). rewrite IH by nia. lia.
Qed.

Lemma coords_from_spec dims n :
  Forall (fun d => 0 < d) dims -> ChunkGrid.coords_from dims n = Ok (unravel dims n).
Proof.
  induction 1 as [|d dims Hd _ IH]; [done|]. cbn [ChunkGrid.coords_from unravel]. rewrite IH.
  cbn [mbind result_bind]. destruct (unravel dims n). destruct (Z.eqb_spec d 0); [lia|done].
Qed.

Lemma find_run_axis_spec shape cs a :
  (ChunkGrid.find_run_axis shape cs a <= a)%nat /\
  forall i, (ChunkGrid.find_run_axis shape cs a < i <= a)%nat -> cs !! i = shape !! i.
Proof.
  induction a as [|a [IHl IH]]; cbn [ChunkGrid.find_run_axis]; [split; [lia|intros; lia]|].
  case_bool_decide as He; [|split; [lia|intros; lia]].
  split; [lia|]. intros i Hi. destruct (decide (i = S a)) as [->|]; [done|]. apply IH. lia.
Qed.

(** A grid laid over an array that has elements. *)
Record grid_ok (g : ChunkGrid) : Prop := {
  go_shape : Forall (fun d => 0 < d) (g_shape g);
  go_chunk : Forall (fun c => 0 < c) (chunk_shape g);
  go_len : length (chunk_shape g) = length (g_shape g);
  go_grid : grid g = zip_with div_ceil (g_shape g) (chunk_shape g);
  go_item : 0 < g_itemsize g;
  go_grid_fits : zprod (grid g) < two64;
  go_bytes : chunk_bytes g = g_itemsize g * zprod (chunk_shape g) /\ chunk_bytes g < two64;
  go_run : g_shape g <> [] -> (run_axis g < length (g_shape g))%nat;
  go_trailing : drop (S (run_axis g)) (chunk_shape g) = drop (S (run_axis g)) (g_shape g);
}.

Lemma new_grid_ok shape cs isz g :
  Forall (fun d => 0 < d) shape -> Forall (fun c => 0 <= c) cs -> 0 < isz < two64 ->
  ChunkGrid.new shape cs isz = Some g -> grid_ok g /\ g_shape g = shape /\ g_itemsize g = isz /\ chunk_shape g = cs.
Proof.
  intros Hs Hc Hi. unfold ChunkGrid.new. destruct (_ || _) eqn:Hbad; [done|].
  apply orb_false_iff in Hbad as [Hl%negb_false_iff H0%bool_decide_eq_false]. apply Nat.eqb_eq in Hl.
  assert (Forall (fun c => 0 < c) cs) as Hc'.
  { rewrite Forall_forall in *. intros c Hin. specialize (Hc c Hin).
    assert (c <> 0) by (intros ->; done). lia. }
  assert (Forall (fun d => 0 <= d) (zip_with div_ceil shape cs)) as Hg.
  { apply Forall_forall. intros x Hx. apply elem_of_lookup_zip_with_1 in Hx as (i & a & b & -> & Ha & Hb).
    pose proof (Forall_lookup_1 _ _ _ _ Hs Ha). pose proof (Forall_lookup_1 _ _ _ _ Hc' Hb). cbn in *.
    apply div_ceil_nonneg; lia. }
  destruct (checked_product 1 _) as [p|] eqn:Hp; [|done]. cbn [mbind option_bind].
  apply checked_product_spec in Hp as [-> Hp]; [|lia|done].
  destruct (checked_product isz cs) as [q|] eqn:Hq; [|done]. cbn [mbind option_bind].
  apply checked_product_spec in Hq as [-> Hq]; [|lia|done]. intros [= <-].
  destruct (find_run_axis_spec shape cs (length shape - 1)) as [Hra Hrt].
  split; [|done]. split; cbn [g_shape chunk_shape grid g_itemsize chunk_bytes run_axis]; try done.
  - lia.
  - lia.
  - split; [lia|]. apply Hq. lia.
  - intros Hne. destruct shape; [done|]. cbn [length] in *. lia.
  - apply list_eq. intros i. rewrite !lookup_drop.
    destruct (decide (ChunkGrid.find_run_axis shape cs (length shape - 1) + S i < length shape)%nat) as [|Hge].
    + apply Hrt. lia.
    + rewrite !lookup_ge_None_2; [done|lia|lia].
Qed.

(** ** Coordinates and chunks *)

Definition chunk_coords (cs pos : list Z) : list Z := zip_with Z.div pos cs.
Definition inner_coords (cs pos : list Z) : list Z := zip_with Z.modulo pos cs.

Lemma chunk_coords_in shape cs pos :
  in_shape shape pos -> Forall (fun c => 0 < c) cs -> length cs = length shape ->
  in_shape (zip_with div_ceil shape cs) (chunk_coords cs pos).
Proof.
  intros Hin. revert cs. induction Hin as [|d p shape pos Hp _ IH]; intros [|c cs] Hc Hl; cbn in Hl; try done; [constructor|].
  apply Forall_cons in Hc as [Hc Hcs]. constructor; [|apply IH; [done|lia]].
  pose proof (div_ceil_spec d c Hc). div_mod p c. assert (0 <= p / c) by (apply Z.div_pos; lia). nia.
Qed.

Lemma inner_coords_in shape cs pos :
  in_shape shape pos -> Forall (fun c => 0 < c) cs -> length cs = length shape ->
  in_shape cs (inner_coords cs pos).
Proof.
  intros Hin. revert cs. induction Hin as [|d p shape pos Hp _ IH]; intros [|c cs] Hc Hl; cbn in Hl; try done; [constructor|].
  apply Forall_cons in Hc as [Hc Hcs]. constructor; [apply Z.mod_pos_bound; lia|apply IH; [done|lia]].
Qed.

(** An axis one chunk covers has one chunk coordinate, and every position is its own. *)
Lemma whole_coords s r : in_shape s r -> chunk_coords s r = replicate (length s) 0 /\ inner_coords s r = r.
Proof.
  induction 1 as [|d p s r Hp _ [IH1 IH2]]; [done|]. unfold chunk_coords, inner_coords in *. cbn.
  rewrite IH1, IH2, Z.div_small, Z.mod_small by lia. done.
Qed.

Lemma zip_with_mid {A B C} (f : A -> B -> C) a1 a a2 b1 b b2 :
  length a1 = length b1 -> zip_with f (a1 ++ a :: a2) (b1 ++ b :: b2) = zip_with f a1 b1 ++ f a b :: zip_with f a2 b2.
Proof. intros Hl. rewrite zip_with_app by done. done. Qed.

(** How far a run goes: along the run axis to the end of the chunk or of the array,
    less what of the trailing axes is already behind. *)
Definition run_len (s2 p2 : list Z) (sj cj pj : Z) : Z :=
  Z.min (cj - pj mod cj) (sj - pj) * zprod s2 - ravel s2 p2.

Lemma run_len_pos s2 p2 sj cj pj :
  0 < cj -> in_shape s2 p2 -> 0 <= pj < sj -> 1 <= run_len s2 p2 sj cj pj.
Proof.
  intros Hcj Hin2 Hpj. pose proof (ravel_range _ _ Hin2). pose proof (Z.mod_pos_bound pj cj Hcj).
  unfold run_len. nia.
Qed.

Lemma zprod_factor a x b :
  Forall (fun d => 0 < d) (a ++ x :: b) -> x * zprod b <= zprod (a ++ x :: b) /\ x <= x * zprod b.
Proof.
  intros [Ha [Hx Hb]%Forall_cons]%Forall_app. pose proof (zprod_pos _ Ha). pose proof (zprod_pos _ Hb).
  rewrite zprod_app. cbn. split; [|nia]. assert (0 < x * zprod b) by nia. nia.
Qed.

Section Run.
Context (s1 s2 c1 p1 p2 : list Z) (sj cj pj : Z).
Context (Hc1 : length c1 = length s1) (Hp1 : length p1 = length s1) (Hcj : 0 < cj).
Context (Hin2 : in_shape s2 p2) (Hpj : 0 <= pj < sj).
#[local] Notation shape := (s1 ++ sj :: s2).
#[local] Notation cs := (c1 ++ cj :: s2).
#[local] Notation pos := (p1 ++ pj :: p2).
#[local] Notation T := (zprod s2).
#[local] Notation behind := (ravel s2 p2).

(** Where element [i] of the run is: still in the same chunk, [i] places on. *)
Lemma run_element i :
  0 <= i < run_len s2 p2 sj cj pj -> in_shape s1 p1 ->
  exists pos', in_shape shape pos' /\ ravel shape pos' = ravel shape pos + i /\
    chunk_coords cs pos' = chunk_coords cs pos /\
    ravel cs (inner_coords cs pos') = ravel cs (inner_coords cs pos) + i.
Proof.
  intros Hi Hin1. pose proof (ravel_range _ _ Hin2) as Hb. set (t := behind + i).
  assert (0 < T) as HT by lia. div_mod t (zprod s2). set (q := t / T) in *.
  assert (0 <= q) by (apply Z.div_pos; unfold t; lia).
  assert (q < Z.min (cj - pj mod cj) (sj - pj)) as Hq by (unfold t, run_len in *; nia).
  destruct (unravel_in s2 (t mod T)) as [Hr Hrv]; [lia|by apply in_shape_pos in Hin2|].
  set (r := (unravel s2 (t mod T)).1) in *.
  pose proof (Z.mod_pos_bound pj cj Hcj). div_mod pj cj.
  assert ((pj + q) / cj = pj / cj /\ (pj + q) mod cj = pj mod cj + q) as [Hdiv Hmod].
  { replace (pj + q) with ((pj mod cj + q) + pj / cj * cj) by lia.
    rewrite Z.div_add, Z.mod_add, Z.div_small, Z.mod_small by lia. lia. }
  exists (p1 ++ (pj + q) :: r). split.
  { apply Forall2_app; [done|]. constructor; [lia|done]. }
  destruct (whole_coords s2 r Hr) as [Hw1 Hw2]. destruct (whole_coords s2 p2 Hin2) as [Hw3 Hw4].
  unfold chunk_coords, inner_coords in *.
  split; [|split].
  - rewrite !ravel_app by lia. cbn [ravel]. rewrite Hrv. unfold t in *. nia.
  - rewrite !zip_with_mid by lia. by rewrite Hw1, Hw3, Hdiv.
  - rewrite !zip_with_mid by lia. rewrite Hw2, Hw4, Hmod.
    rewrite !ravel_app by (rewrite length_zip_with; lia). cbn [ravel]. rewrite Hrv. unfold t in *. nia.
Qed.
End Run.

(** ** The walk *)

Section Walk.
Context (g : ChunkGrid) (Hg : grid_ok g) (Hne : g_shape g <> []).
Context (data : list Z) (chunk : Z -> list Z).
#[local] Notation isz := (g_itemsize g).
#[local] Notation shape := (g_shape g).
#[local] Notation cs := (chunk_shape g).
Context (Hsmall : isz <= SPAN_GAP_BYTES) (Hdata : zlen data = zprod shape * isz) (Hfits : zlen data < two63).

(** The chunks hold the array, each padded to a whole chunk. *)
Definition tiled : Prop :=
  (forall n, 0 <= n < zprod (grid g) -> zlen (chunk n) = chunk_bytes g) /\
  forall pos, in_shape shape pos ->
    elem_bytes data isz (ravel shape pos) =
    elem_bytes (chunk (ravel (grid g) (chunk_coords cs pos))) isz (ravel cs (inner_coords cs pos)).
Context (Htiled : tiled).

Lemma split_at {A} (l : list A) j : (j < length l)%nat -> exists a x b, l = a ++ x :: b /\ length a = j.
Proof.
  intros Hj. destruct (lookup_lt_is_Some_2 l j Hj) as [x Hx].
  exists (take j l), x, (drop (S j) l). split; [by rewrite take_drop_middle|]. rewrite length_take. lia.
Qed.

Lemma drop_mid {A} (a : list A) x b j : length a = j -> drop (S j) (a ++ x :: b) = b.
Proof.
  intros <-. change (a ++ x :: b) with (a ++ [x] ++ b). rewrite app_assoc.
  apply drop_app_length'. rewrite length_app. cbn. lia.
Qed.

Lemma lookup_mid {A} (a : list A) x b j : length a = j -> (a ++ x :: b) !! j = Some x.
Proof. intros <-. by apply list_lookup_middle. Qed.

(** Equal elements, one after the other, are equal bytes. *)
Lemma run_slices (d1 d2 : list Z) N1 N2 e1 e2 n :
  zlen d1 = N1 * isz -> zlen d2 = N2 * isz -> 0 <= e1 -> 0 <= e2 -> 0 <= n ->
  e1 + n <= N1 -> e2 + n <= N2 -> 0 < isz ->
  (forall i, 0 <= i < n -> elem_bytes d1 isz (e1 + i) = elem_bytes d2 isz (e2 + i)) ->
  slice (e1 * isz) (n * isz) d1 = slice (e2 * isz) (n * isz) d2.
Proof.
  intros H1 H2 ?????? Heq.
  rewrite <- (run_bytes d1 isz N1), <- (run_bytes d2 isz N2) by (done || lia).
  rewrite <- (Z.add_0_l e1), <- (Z.add_0_l e2).
  replace (seqZ (0 + e1) n) with ((fun k => k + e1) <$> seqZ 0 n)
    by (rewrite <- (list_fmap_id (seqZ (0 + e1) n)), fmap_seqZ_shift; done).
  replace (seqZ (0 + e2) n) with ((fun k => k + e2) <$> seqZ 0 n)
    by (rewrite <- (list_fmap_id (seqZ (0 + e2) n)), fmap_seqZ_shift; done).
  rewrite !fmap_bind_list. apply bind_ext_in. intros k Hk%elem_of_seqZ.
  rewrite (Z.add_comm k), (Z.add_comm k). apply Heq. lia.
Qed.

(** What the run computed is the run there is. *)
Lemma run_at_value s1 sj s2 c1 cj p1 pj p2 at_ left :
  shape = s1 ++ sj :: s2 -> cs = c1 ++ cj :: s2 -> length s1 = run_axis g -> length c1 = length s1 ->
  length p1 = length s1 -> 0 <= at_ -> in_shape shape (p1 ++ pj :: p2) ->
  (unravel shape (at_ / isz)).1 = p1 ++ pj :: p2 ->
  let pos := p1 ++ pj :: p2 in
  let within := ravel cs (inner_coords cs pos) in
  within + run_len s2 p2 sj cj pj <= zprod cs ->
  ChunkGrid.run_at g at_ left =
  Ok (ravel (grid g) (chunk_coords cs pos), within * isz + at_ mod isz,
      Z.min (run_len s2 p2 sj cj pj * isz - at_ mod isz) left).
Proof.
  intros Hs Hc Hs1 Hc1 Hp1 Ha Hin Hun pos within Hw. pose proof Hg as [].
  destruct go_bytes0 as [Hcb Hcbl]. unfold ChunkGrid.run_at. rewrite coords_from_spec by done.
  destruct (unravel shape _) as [u rest]. cbn [fst] in Hun. subst u. fold pos. fold pos in Hin.
  cbn [mbind result_bind].
  pose proof (chunk_coords_in _ _ _ Hin go_chunk0 go_len0) as Hcin. rewrite <- go_grid0 in Hcin.
  pose proof (inner_coords_in _ _ _ Hin go_chunk0 go_len0) as Hiin.
  fold (chunk_coords cs pos) (inner_coords cs pos).
  rewrite linear_spec by (done || lia). cbn [expect mbind result_bind].
  assert (zprod cs < two64) as Hcs by (pose proof (zprod_pos _ go_chunk0); nia).
  rewrite linear_unchecked_spec by (done || lia). fold within.
  pose proof (ravel_range _ _ Hiin) as Hwi. fold within in Hwi.
  assert (drop (S (run_axis g)) pos = p2) as -> by (apply drop_mid; lia).
  assert (pos !! run_axis g = Some pj) as -> by (apply lookup_mid; lia).
  assert (drop (S (run_axis g)) shape = s2) as -> by (rewrite Hs; by apply drop_mid).
  assert (shape !! run_axis g = Some sj) as -> by (rewrite Hs; by apply lookup_mid).
  assert (cs !! run_axis g = Some cj) as -> by (rewrite Hc; apply lookup_mid; lia).
  cbn [expect mbind result_bind].
  unfold pos in Hin. rewrite Hs in Hin. apply Forall2_app_inv in Hin as [_ Hin]; [|lia].
  apply in_shape_cons in Hin as (? & ? & [= <- <-] & Hpj & Hin2).
  rewrite Hc in go_chunk0. apply Forall_app in go_chunk0 as [_ [Hcj Hs2]%Forall_cons].
  pose proof (zprod_pos _ Hs2) as HT. pose proof (ravel_range _ _ Hin2) as Hb.
  pose proof (run_len_pos s2 p2 sj cj pj Hcj Hin2 Hpj) as Hrl.
  pose proof (Z.mod_pos_bound pj cj Hcj). pose proof (Z.mod_pos_bound at_ isz go_item0).
  set (along := Z.min (cj - pj mod cj) (sj - pj)).
  pose proof (go_chunk _ Hg) as Hc0. rewrite Hc in Hc0. pose proof go_shape0 as Hs0. rewrite Hs in Hs0.
  destruct (zprod_factor _ _ _ Hc0) as [Hcf1 Hcf2]. destruct (zprod_factor _ _ _ Hs0) as [Hsf1 Hsf2].
  rewrite <- Hc in Hcf1. rewrite <- Hs in Hsf1.
  assert (along * zprod s2 <= cj * zprod s2) as Hal by (apply Z.mul_le_mono_nonneg_r; unfold along; lia).
  assert (zprod shape <= zprod shape * isz) as Hsi by nia.
  assert (0 <= along * zprod s2) by (apply Z.mul_nonneg_nonneg; unfold along; lia).
  rewrite (foldl_wmul 1) by (done || lia). rewrite Z.mul_1_l, linear_unchecked_spec by (done || lia).
  rewrite (wsub_small cj), (wsub_small sj) by (unfold is_u64; lia). fold along.
  rewrite (wmul_small along) by (unfold is_u64; lia).
  fold (run_len s2 p2 sj cj pj) in Hrl. change (along * zprod s2 - ravel s2 p2) with (run_len s2 p2 sj cj pj) in *.
  rewrite (wsub_small (along * _)) by (unfold is_u64, run_len in *; fold along in Hrl; lia).
  change (along * zprod s2 - ravel s2 p2) with (run_len s2 p2 sj cj pj).
  set (run := run_len _ _ _ _ _) in *.
  assert ((within + run) * isz <= zprod cs * isz) by (apply Z.mul_le_mono_nonneg_r; lia).
  assert (1 * isz <= run * isz) by (apply Z.mul_le_mono_nonneg_r; lia).
  assert (0 <= within * isz) by (apply Z.mul_nonneg_nonneg; lia).
  rewrite (wmul_small within), (wmul_small run) by (unfold is_u64; lia).
  by rewrite wadd_small, wsub_small by (unfold is_u64; lia).
Qed.

Lemma run_at_spec at_ left :
  0 <= at_ -> 0 < left -> at_ + left <= zlen data ->
  exists k start len, ChunkGrid.run_at g at_ left = Ok (k, start, len) /\
    0 < len <= left /\ 0 <= k < zprod (grid g) /\ 0 <= start /\ start + len <= chunk_bytes g /\
    slice start len (chunk k) = slice at_ len data.
Proof.
  intros Ha Hl Hle. destruct Hg. destruct go_bytes0 as [Hcb Hcbl].
  assert (0 < zprod shape) as HN by by apply zprod_pos.
  div_mod at_ (g_itemsize g). set (e := at_ / isz) in *. set (skip := at_ mod isz) in *.
  assert (0 <= e < zprod shape) as He by (split; [apply Z.div_pos; lia | nia]).
  destruct (unravel_in shape e He go_shape0) as [Hin Hrav].
  pose proof (chunk_coords_in _ _ _ Hin go_chunk0 go_len0) as Hcin. rewrite <- go_grid0 in Hcin.
  pose proof (inner_coords_in _ _ _ Hin go_chunk0 go_len0) as Hiin.
  destruct (unravel shape e) as [pos rest] eqn:Hun. cbn [fst] in *.
  (* the axes before, at and after the one the run goes along *)
  specialize (go_run0 Hne). pose proof (in_shape_length _ _ Hin) as Hpl.
  destruct (split_at shape (run_axis g) go_run0) as (s1 & sj & s2 & Hs & Hs1).
  destruct (split_at cs (run_axis g)) as (c1 & cj & c2 & Hc & Hc1); [lia|].
  destruct (split_at pos (run_axis g)) as (p1 & pj & p2 & Hp & Hp1); [lia|].
  assert (c2 = s2) as ->.
  { rewrite Hc, Hs, (drop_mid c1), (drop_mid s1) in go_trailing0 by done. done. }
  pose proof Hin as Hin'. rewrite Hs, Hp in Hin'. apply Forall2_app_inv in Hin' as [Hin1 Hin']; [|lia].
  apply in_shape_cons in Hin' as (? & ? & [= <- <-] & Hpj & Hin2).
  pose proof go_chunk0 as Hcp. rewrite Hc in Hcp. apply Forall_app in Hcp as [_ [Hcj _]%Forall_cons].
  pose proof (run_len_pos s2 p2 sj cj pj Hcj Hin2 Hpj) as Hrl.
  set (run := run_len s2 p2 sj cj pj) in *. rewrite Hp in *.
  set (within := ravel cs (inner_coords cs (p1 ++ pj :: p2))).
  set (k := ravel (grid g) (chunk_coords cs (p1 ++ pj :: p2))).
  pose proof (ravel_range _ _ Hcin) as Hk. fold k in Hk.
  pose proof (ravel_range _ _ Hiin) as Hwi. fold within in Hwi.
  destruct Htiled as [Hlen Htile].
  assert (forall i, 0 <= i < run -> within + i < zprod cs /\ e + i < zprod shape /\ elem_bytes (chunk k) isz (within + i) = elem_bytes data isz (e + i)) as Hrun.
  { intros i Hi. destruct (run_element s1 s2 c1 p1 p2 sj cj pj ltac:(lia) ltac:(lia) Hcj Hin2 Hpj i Hi Hin1)
      as (pos' & Hpi & Hri & Hci & Hii). rewrite <- Hs in Hpi, Hri. rewrite <- Hc in Hci, Hii.
    specialize (Htile pos' Hpi). rewrite Hri, Hci, Hii, Hrav in Htile.
    pose proof (ravel_range _ _ (inner_coords_in _ _ _ Hpi go_chunk0 go_len0)) as Hr1. rewrite Hii in Hr1.
    pose proof (ravel_range _ _ Hpi) as Hr2. rewrite Hri, Hrav in Hr2.
    split; [unfold within; lia|]. split; [lia|]. by rewrite Htile. }
  destruct (Hrun (run - 1) ltac:(lia)) as (Hw1 & He1 & _).
  rewrite (run_at_value s1 sj s2 c1 cj p1 pj p2) by (done || lia || (fold e; rewrite Hun; done)).
  fold within k run skip.
  eexists _, _, _. split; [done|].
  assert (isz <= run * isz) by nia. split; [lia|]. split; [done|].
  assert (0 <= within * isz) by nia. assert (within * isz + run * isz <= zprod cs * isz) by nia.
  split; [lia|]. split; [lia|].
  assert (slice (within * isz) (run * isz) (chunk k) = slice (e * isz) (run * isz) data) as Hsl.
  { apply (run_slices _ _ (zprod cs) (zprod shape)); try lia.
    - rewrite Hlen; lia.
    - intros i Hi. by apply Hrun. }
  set (len := Z.min _ left). assert (skip + len <= run * isz) by (unfold len; lia).
  rewrite <- (slice_slice (within * isz) (run * isz) skip len) by (unfold len in *; lia).
  rewrite Hsl, slice_slice by (unfold len in *; nia). f_equal. lia.
Qed.
End Walk.

(** A store that answers every range of every chunk, and keeps [I] of its state. *)
Definition chunk_reads {St} (I : St -> Prop) (g : ChunkGrid) (chunk : Z -> list Z)
    (read : St -> Z -> Z -> Z -> St * result AexError (list Z)) : Prop :=
  forall s k start len, I s ->
    0 <= k < zprod (grid g) -> 0 <= start -> 0 <= len -> start + len <= chunk_bytes g ->
    exists s', read s k start len = (s', Ok (slice start len (chunk k))) /\ I s'.

(** A store that may fail to answer a range of a chunk, in a way [E] names, and keeps [I]
    of its state when it does. *)
Definition answers {St} (I : St -> Prop) (E : result AexError (list Z) -> Prop) (out : list Z)
    (r : St * result AexError (list Z)) : Prop :=
  I r.1 /\ (r.2 = Ok out \/ (forall x, r.2 <> Ok x) /\ E r.2).

Definition chunk_answers {St} (I : St -> Prop) (E : result AexError (list Z) -> Prop) (g : ChunkGrid)
    (chunk : Z -> list Z) (read : St -> Z -> Z -> Z -> St * result AexError (list Z)) : Prop :=
  forall s k start len, I s ->
    0 <= k < zprod (grid g) -> 0 <= start -> 0 <= len -> start + len <= chunk_bytes g ->
    answers I E (slice start len (chunk k)) (read s k start len).

Lemma answers_bind {St} (I : St -> Prop) E out out' r f :
  answers I E out r -> (forall s, I s -> answers I E out' (f s out)) -> answers I E out' (sbind r f).
Proof.
  destruct r as [s [x|e|]]; intros [HI [Ho|[Hf He]]] Hf'; cbn in *; try discriminate;
    [injection Ho as ->; by apply Hf'|by destruct (Hf x)|by split; [|right]..].
Qed.

Lemma answers_impl {St} (I : St -> Prop) (E1 E2 : result AexError (list Z) -> Prop) out r :
  (forall x, E1 x -> E2 x) -> answers I E1 out r -> answers I E2 out r.
Proof. intros Himp [HI [Ho|[Hf He]]]; (split; [done|]); [by left|right]. split; [done|by apply Himp]. Qed.

Lemma reads_answer {St} (I : St -> Prop) g chunk read :
  chunk_reads I g chunk read -> chunk_answers I (fun _ => False) g chunk read.
Proof. intros Hr s k start len HI ????. destruct (Hr s k start len HI) as (s' & -> & HI'); [done..|]. split; [done|by left]. Qed.

Lemma answers_ok {St} (I : St -> Prop) out (r : St * result AexError (list Z)) :
  answers I (fun _ => False) out r -> exists s', r = (s', Ok out) /\ I s'.
Proof. destruct r as [s r]. intros [HI [Ho|[_ []]]]. cbn in *. subst r. by exists s. Qed.

Lemma walk_loop_answers {St} (I : St -> Prop) E g data chunk read fuel s at_ left :
  grid_ok g -> g_shape g <> [] -> g_itemsize g <= SPAN_GAP_BYTES ->
  zlen data = zprod (g_shape g) * g_itemsize g -> zlen data < two63 -> tiled g data chunk ->
  chunk_answers I E g chunk read -> I s ->
  0 <= at_ -> 0 <= left -> left <= Z.of_nat fuel -> at_ + left <= zlen data ->
  answers I E (slice at_ left data) (ChunkGrid.walk_loop read fuel g s at_ left).
Proof.
  intros Hg Hne Hs Hd Hf Ht Hr. revert s at_ left. induction fuel as [|fuel IH]; intros s at_ left HI Ha Hl Hfuel Hle;
    cbn [ChunkGrid.walk_loop].
  - assert (left = 0) as -> by lia. split; [done|by left].
  - destruct (Z.eqb_spec left 0) as [->|Hn]; [split; [done|by left]|].
    destruct (run_at_spec g Hg Hne data chunk Hs Hd Hf Ht at_ left) as (k & start & len & -> & Hlen & Hk & Hst & Hend & Hsl);
      [lia..|].
    cbn [pure_step sbind]. eapply answers_bind; [apply (Hr s k start len HI); lia|]. cbn beta. intros s1 HI1.
    rewrite wadd_small by (unfold is_u64; lia).
    eapply answers_bind; [apply (IH s1 (at_ + len) (left - len) HI1); lia|]. intros s2 HI2.
    split; [done|]. left. cbn [snd]. f_equal. rewrite Hsl. replace left with (len + (left - len)) at 2 by lia.
    by rewrite slice_split by lia.
Qed.

Lemma scalar_tiled g data chunk :
  grid_ok g -> g_shape g = [] -> g_itemsize g <= SPAN_GAP_BYTES -> zlen data = g_itemsize g ->
  tiled g data chunk -> chunk 0 = data.
Proof.
  intros Hg He Hs Hd [Hl Ht]. pose proof Hg as []. rewrite He in *.
  assert (chunk_shape g = []) as Hc by by destruct (chunk_shape g). rewrite Hc in *.
  specialize (Ht [] ltac:(constructor)). cbn in go_grid0. rewrite go_grid0 in *. cbn in Ht.
  specialize (Hl 0 ltac:(cbn; lia)). destruct go_bytes0 as [Hcb _]. cbn in Hcb. unfold elem_bytes in Ht.
  rewrite Z.mul_0_l in Ht.
  rewrite <- (slice_all data), <- (slice_all (chunk 0)), Hl, Hcb, Z.mul_1_r, Hd. done.
Qed.

(** The walk of a store that may fail: the range of the array, or a failure of a chunk. *)
Lemma walk_answers {St} (I : St -> Prop) E g data chunk read s at_ len :
  grid_ok g -> g_itemsize g <= SPAN_GAP_BYTES ->
  zlen data = zprod (g_shape g) * g_itemsize g -> zlen data < two63 -> tiled g data chunk ->
  chunk_answers I E g chunk read -> I s -> 0 <= at_ -> 0 <= len -> at_ + len <= zlen data ->
  answers I E (slice at_ len data) (ChunkGrid.walk read g s at_ len).
Proof.
  intros Hg Hi Hd Hf Ht Hr HI Ha Hl Hle. pose proof (go_item g Hg).
  unfold ChunkGrid.walk. case_bool_decide as He.
  - rewrite He in Hd. cbn [zprod] in Hd. rewrite Z.mul_1_l in Hd.
    rewrite <- (scalar_tiled g data chunk Hg He) by done.
    pose proof Hg as []. apply Hr; try lia; [done| |].
    + rewrite go_grid0, He. cbn. lia.
    + destruct go_bytes0 as [-> _]. assert (chunk_shape g = []) as -> by (rewrite He in go_len0; by destruct (chunk_shape g)).
      cbn [zprod]. lia.
  - destruct (Z.eqb_spec (g_itemsize g) 0); [lia|]. apply (walk_loop_answers I E g data chunk); (done || lia).
Qed.

Lemma walk_spec {St} (I : St -> Prop) g data chunk read s at_ len :
  grid_ok g -> g_itemsize g <= SPAN_GAP_BYTES ->
  zlen data = zprod (g_shape g) * g_itemsize g -> zlen data < two63 -> tiled g data chunk ->
  chunk_reads I g chunk read -> I s -> 0 <= at_ -> 0 <= len -> at_ + len <= zlen data ->
  exists s', ChunkGrid.walk read g s at_ len = (s', Ok (slice at_ len data)) /\ I s'.
Proof. intros. by apply answers_ok, (walk_answers I _ g data chunk); [done..|apply reads_answer|done|done|done|]. Qed.

(** C12: the chunk walk reads the array.  Over any grid [ChunkGrid::new] lays, if
    the stored chunks hold the array, edge chunks padded, then walking any byte range,
    aligned to elements or not, asks only for bytes inside chunks and joins them into
    exactly that range of the array's C-order bytes, whatever state [read] carries along;
    it always finishes. *)
Theorem chunk_walk_correct {St} (I : St -> Prop) shape cs isz g data chunk read s at_ len :
  Forall (fun d => 0 < d) shape -> Forall (fun c => 0 <= c) cs -> 0 < isz <= SPAN_GAP_BYTES ->
  ChunkGrid.new shape cs isz = Some g ->
  zlen data = zprod shape * isz -> zlen data < two63 -> tiled g data chunk -> chunk_reads I g chunk read ->
  I s -> 0 <= at_ -> 0 <= len -> at_ + len <= zlen data ->
  exists s', ChunkGrid.walk read g s at_ len = (s', Ok (slice at_ len data)) /\ I s'.
Proof.
  intros Hs Hc Hi Hnew Hd Hf Ht Hr HI Ha Hl Hle.
  destruct (new_grid_ok shape cs isz g Hs Hc ltac:(unfold SPAN_GAP_BYTES in Hi; lia) Hnew) as (Hg & <- & <- & <-).
  apply (walk_spec I g data chunk); (done || lia).
Qed.

(** A one-dimensional array of five elements in chunks of two, the last one padded. *)
Definition demo_grid : ChunkGrid :=
  {| g_shape := [5]; chunk_shape := [2]; grid := [3]; g_itemsize := 2; chunk_bytes := 4; run_axis := 0 |}.
Definition demo_chunk (n : Z) : list Z :=
  match n with 0 => [10; 11; 12; 13] | 1 => [14; 15; 16; 17] | _ => [18; 19; 0; 0] end.

Lemma chunk_walk_correct_witness :
  exists n, ChunkGrid.walk (fun calls k start len => (calls + 1, slice_checked start len (demo_chunk k))) demo_grid 0 1 8 =
    (n, Ok (slice 1 8 [10; 11; 12; 13; 14; 15; 16; 17; 18; 19])) /\ 0 <= n.
Proof.
  assert (forall n, 0 <= n < 3 -> zlen (demo_chunk n) = 4) as Hl.
  { intros n Hn. assert (n = 0 \/ n = 1 \/ n = 2) as [->|[->| ->]] by lia; done. }
  apply (chunk_walk_correct (fun n => 0 <= n) [5] [2] 2 demo_grid _ demo_chunk).
  - repeat constructor; lia.
  - repeat constructor; lia.
  - unfold SPAN_GAP_BYTES. lia.
  - reflexivity.
  - reflexivity.
  - reflexivity.
  - split; [exact Hl|]. intros pos Hin. apply in_shape_cons in Hin as (p & pos' & -> & Hp & Hn).
    apply Forall2_nil_inv_l in Hn as ->.
    assert (p = 0 \/ p = 1 \/ p = 2 \/ p = 3 \/ p = 4) as [->|[->|[->|[->| ->]]]] by lia; reflexivity.
  - intros n k start len Hn Hk Hs0 Hl0 Hle. cbn in Hk, Hle. exists (n + 1). split; [|lia]. f_equal.
    apply slice_ok; [lia..|]. rewrite Hl; lia.
  - lia.
  - lia.
  - lia.
  - cbn. lia.
Defined.

(** Chunk numbers and chunk coordinates are inverses, so a chunk's key names
    it and nothing else. *)
Theorem chunk_numbering g :
  grid_ok g ->
  (forall n, 0 <= n < zprod (grid g) ->
    exists c, ChunkGrid.coords_of g n = Ok c /\ in_shape (grid g) c /\ ChunkGrid.chunk_of g c = Some n) /\
  (forall c, in_shape (grid g) c ->
    exists n, ChunkGrid.chunk_of g c = Some n /\ 0 <= n < zprod (grid g) /\ ChunkGrid.coords_of g n = Ok c).
Proof.
  intros [].
  assert (Forall (fun d => 0 < d) (grid g)) as Hpos.
  { rewrite go_grid0. apply Forall_forall. intros x Hx.
    apply elem_of_lookup_zip_with_1 in Hx as (i & a & b & -> & Ha & Hb).
    pose proof (Forall_lookup_1 _ _ _ _ go_shape0 Ha). pose proof (Forall_lookup_1 _ _ _ _ go_chunk0 Hb). cbn in *.
    pose proof (div_ceil_spec a b ltac:(lia)). nia. }
  assert (forall n, 0 <= n < zprod (grid g) -> ChunkGrid.coords_of g n = Ok (unravel (grid g) n).1 /\
    in_shape (grid g) (unravel (grid g) n).1 /\ ChunkGrid.chunk_of g (unravel (grid g) n).1 = Some n) as Hn.
  { intros n Hn. destruct (unravel_in (grid g) n Hn Hpos) as [Hin Hrav].
    split; [unfold ChunkGrid.coords_of; by rewrite coords_from_spec|]. split; [done|].
    unfold ChunkGrid.chunk_of. rewrite linear_spec by (done || lia). by rewrite Hrav. }
  split.
  - intros n Hr. exists (unravel (grid g) n).1. by apply Hn.
  - intros c Hin. pose proof (ravel_range _ _ Hin) as Hr. exists (ravel (grid g) c).
    split; [unfold ChunkGrid.chunk_of; by rewrite linear_spec by (done || lia)|]. split; [done|].
    destruct (Hn _ Hr) as (-> & Hin' & Hof). f_equal. apply (ravel_inj (grid g)); [done..|].
    unfold ChunkGrid.chunk_of in Hof. rewrite linear_spec in Hof by (done || lia). congruence.
Qed.

Lemma chunk_numbering_witness :
  exists c, ChunkGrid.coords_of demo_grid 2 = Ok c /\ in_shape (grid demo_grid) c /\
    ChunkGrid.chunk_of demo_grid c = Some 2.
Proof.
  refine (proj1 (chunk_numbering demo_grid _) 2 _); [|cbn; lia].
  refine (proj1 (new_grid_ok [5] [2] 2 demo_grid _ _ _ _)); [repeat constructor; lia..|lia|reflexivity].
Defined.
