(* ===== verification/DecodeCache.v ===== *)
(** Decompressed storage chunks, shared by every connection:
    [aex-core/src/backends/decode_cache.rs].  Each method holds the lock once, so a
    method is one step of the cache whatever the threads interleave. *)
From stdpp Require Import relations.
From S2P Require Import Prelude Errors Bytes.

(** Which dataset, and which chunk of it. *)
Abbreviation ChunkKey := (Z * Z)%type.

Definition MAX_SPARES : nat := 32.

(** Least recently used first. *)
Record Lru : Type := { entries : list (ChunkKey * bytes); lru_bytes : Z; spare : list bytes }.

Record Counts : Type := { hits : Z; misses : Z; races : Z }.

Record DecodeCache : Type := { capacity : Z; lru : Lru; counts : Counts; next_key : Z }.

Module DecodeCache.
Definition new (capacity : Z) : DecodeCache :=
  {| capacity := capacity; lru := {| entries := []; lru_bytes := 0; spare := [] |};
     counts := {| hits := 0; misses := 0; races := 0 |}; next_key := 0 |}.

Definition with_lru (c : DecodeCache) (l : Lru) : DecodeCache :=
  {| capacity := capacity c; lru := l; counts := counts c; next_key := next_key c |}.
Definition with_counts (c : DecodeCache) (n : Counts) : DecodeCache :=
  {| capacity := capacity c; lru := lru c; counts := n; next_key := next_key c |}.

(** [fetch_add(1)], which wraps: the key before it. *)
Definition new_key (c : DecodeCache) : Z * DecodeCache :=
  (next_key c, {| capacity := capacity c; lru := lru c; counts := counts c;
                  next_key := next_key c +w 1 |}).

Definition hit (c : DecodeCache) : DecodeCache :=
  with_counts c {| hits := hits (counts c) +w 1; misses := misses (counts c); races := races (counts c) |}.
Definition miss (c : DecodeCache) : DecodeCache :=
  with_counts c {| hits := hits (counts c); misses := misses (counts c) +w 1; races := races (counts c) |}.
Definition race (c : DecodeCache) : DecodeCache :=
  with_counts c {| hits := hits (counts c); misses := misses (counts c); races := races (counts c) +w 1 |}.

(** A buffer for the next decode: the last one spared, or a new one. *)
Definition take_spare (c : DecodeCache) : bytes * DecodeCache :=
  let l := lru c in
  match last (spare l) with
  | Some buffer =>
      (buffer, with_lru c {| entries := entries l; lru_bytes := lru_bytes l;
                             spare := take (length (spare l) - 1) (spare l) |})
  | None => ([], c)
  end.

(** The chunk at [key], which becomes the most recently used. *)
Definition get (c : DecodeCache) (key : ChunkKey) : option bytes * DecodeCache :=
  let l := lru c in
  match list_find (fun e => e.1 = key) (entries l) with
  | Some (at_, entry) =>
      (Some entry.2,
       with_lru c {| entries := delete at_ (entries l) ++ [entry]; lru_bytes := lru_bytes l;
                     spare := spare l |})
  | None => (None, c)
  end.

(** [while lru.bytes > self.capacity]; [shared] says of which evicted chunks someone is
    still reading, so that [Arc::into_inner] gives no buffer back. *)
Fixpoint evict (fuel : nat) (cap : Z) (shared : ChunkKey -> bool) (l : Lru) : result AexError Lru :=
  if cap <? lru_bytes l then
    match fuel, entries l with
    | S fuel', (key, evicted) :: rest =>
        let spare' :=
          if (length (spare l) <? MAX_SPARES)%nat && negb (shared key)
          then spare l ++ [evicted] else spare l in
        evict fuel' cap shared
          {| entries := rest; lru_bytes := lru_bytes l -w zlen evicted; spare := spare' |}
    | _, _ => Panic
    end
  else Ok l.

Definition insert (c : DecodeCache) (shared : ChunkKey -> bool) (key : ChunkKey) (chunk : bytes)
    : result AexError DecodeCache :=
  let len := zlen chunk in
  if (capacity c =? 0) || (capacity c <? len) then Ok c
  else
    let l := lru c in
    if existsb (fun e => bool_decide (e.1 = key)) (entries l) then Ok (race c)
    else
      l ← evict (S (length (entries l))) (capacity c) shared
            {| entries := entries l ++ [(key, chunk)]; lru_bytes := lru_bytes l +w len;
               spare := spare l |};
      Ok (with_lru c l).

(** [get_or_decode] run on its own: what it answers, and the cache it leaves. *)
Definition get_or_decode (c : DecodeCache) (shared : ChunkKey -> bool) (key : ChunkKey)
    (decode : bytes -> result AexError bytes) : result AexError bytes * DecodeCache :=
  match get c key with
  | (Some chunk, c) => (Ok chunk, hit c)
  | (None, c) =>
      let '(buffer, c) := take_spare (miss c) in
      match decode buffer with
      | Ok chunk =>
          match insert c shared key chunk with
          | Ok c => (Ok chunk, c)
          | Err e => (Err e, c)
          | Panic => (Panic, c)
          end
      | Err e => (Err e, c)
      | Panic => (Panic, c)
      end
  end.

(** The [len] bytes from [start] of the decoded chunk. *)
Definition read_into (c : DecodeCache) (shared : ChunkKey -> bool) (key : ChunkKey) (start len : Z)
    (decode : bytes -> result AexError bytes) : result AexError bytes * DecodeCache :=
  let '(decoded, c) := get_or_decode c shared key decode in
  (decoded ≫= slice_checked start len, c).
End DecodeCache.

(** ** What holds of the cache *)

Definition total_len (l : list (ChunkKey * bytes)) : Z := foldr (fun e n => zlen e.2 + n) 0 l.

Lemma total_len_app l k : total_len (l ++ k) = total_len l + total_len k.
Proof. induction l as [|e l IH]; cbn; [done|]. unfold total_len in *. lia. Qed.

Lemma total_len_nonneg l : 0 <= total_len l.
Proof. induction l as [|e l IH]; cbn; unfold total_len in *; lia. Qed.

Lemma total_len_perm l k : l ≡ₚ k -> total_len l = total_len k.
Proof. induction 1; cbn in *; unfold total_len in *; cbn; lia. Qed.

Lemma insert_capacity c shared key chunk c' :
  DecodeCache.insert c shared key chunk = Ok c' -> capacity c' = capacity c.
Proof.
  unfold DecodeCache.insert. destruct (_ || _); [naive_solver|].
  destruct (existsb _ _); intros; ok_inv; done.
Qed.

Lemma evict_entries fuel cap shared l l' :
  DecodeCache.evict fuel cap shared l = Ok l' -> entries l' ⊆ entries l.
Proof.
  revert l. induction fuel as [|fuel IH]; intros l; cbn [DecodeCache.evict]; destruct (cap <? _); try (intros [= <-]; done);
    destruct (entries l) as [|[key ev] rest] eqn:He; try done. intros Hev%IH. cbn [entries] in Hev. set_solver.
Qed.

(** Only what was put in is held. *)
Lemma insert_entries c shared key chunk c' :
  DecodeCache.insert c shared key chunk = Ok c' -> entries (lru c') ⊆ (key, chunk) :: entries (lru c).
Proof.
  unfold DecodeCache.insert. destruct (_ || _); [intros [= <-]; set_solver|].
  destruct (existsb _ _); [intros [= <-]; cbn; set_solver|]. intros (l & Hl%evict_entries & [= <-])%bind_ok.
  cbn [entries DecodeCache.with_lru lru] in *. set_solver.
Qed.

Section Content.
(** What each chunk decodes to. *)
Context (content : ChunkKey -> bytes).

Record cache_ok (c : DecodeCache) : Prop := {
  co_cap : 0 <= capacity c < two63;
  co_bytes : lru_bytes (lru c) = total_len (entries (lru c));
  co_bound : lru_bytes (lru c) <= capacity c;
  co_keys : NoDup (entries (lru c)).*1;
  co_content : Forall (fun e => e.2 = content e.1) (entries (lru c));
  co_spare : (length (spare (lru c)) <= MAX_SPARES)%nat;
}.

(** The steps threads make on the cache: a lookup, a buffer taken, a decoded chunk
    put in, a key handed out. *)
Inductive cache_step : DecodeCache -> DecodeCache -> Prop :=
  | step_key c : cache_step c (DecodeCache.new_key c).2
  | step_hit c key chunk c' :
      DecodeCache.get c key = (Some chunk, c') -> cache_step c (DecodeCache.hit c')
  | step_miss c key c' : DecodeCache.get c key = (None, c') -> cache_step c (DecodeCache.miss c')
  | step_spare c : cache_step c (DecodeCache.take_spare c).2
  | step_insert c shared key c' :
      DecodeCache.insert c shared key (content key) = Ok c' -> cache_step c c'.

Lemma lru_evict_spec fuel cap shared l :
  0 <= cap < two63 -> (length (entries l) <= fuel)%nat ->
  lru_bytes l = total_len (entries l) -> total_len (entries l) < two64 ->
  (length (spare l) <= MAX_SPARES)%nat ->
  exists l' n, DecodeCache.evict fuel cap shared l = Ok l' /\ entries l' = drop n (entries l) /\
    lru_bytes l' = total_len (entries l') /\ lru_bytes l' <= cap /\
    (length (spare l') <= MAX_SPARES)%nat /\
    forall m, (m < n)%nat -> cap < total_len (drop m (entries l)).
Proof.
  intros Hcap. revert l. induction fuel as [|fuel IH]; intros l Hf Hb Hlt Hs;
    cbn [DecodeCache.evict]; destruct (Z.ltb_spec cap (lru_bytes l)) as [Hgt|].
  - destruct (entries l); [|cbn in Hf; lia]. change (total_len []) with 0 in Hb. lia.
  - exists l, 0%nat. repeat split; try done. intros m Hm. lia.
  - destruct (entries l) as [|[key ev] rest] eqn:He; [change (total_len []) with 0 in Hb; lia|].
    assert (total_len ((key, ev) :: rest) = zlen ev + total_len rest) as Htot by done.
    pose proof (total_len_nonneg rest).
    destruct (IH {| entries := rest; lru_bytes := lru_bytes l -w zlen ev;
      spare := if (length (spare l) <? MAX_SPARES)%nat && negb (shared key) then spare l ++ [ev] else spare l |})
      as (l' & n & Hev & He' & Hb' & Hc' & Hs' & Hm).
    + cbn in *. lia.
    + cbn [lru_bytes entries]. rewrite wsub_small by (unfold is_u64; lia). lia.
    + cbn [entries]. lia.
    + cbn [spare]. destruct (Nat.ltb_spec (length (spare l)) MAX_SPARES); cbn [andb]; [|lia].
      destruct (negb _); [rewrite length_app; cbn [length]; lia|lia].
    + exists l', (S n). split; [done|]. split; [done|]. split; [done|]. split; [done|]. split; [done|].
      intros [|m] Hlm; [cbn [drop]; lia|]. apply Hm. lia.
  - exists l, 0%nat. repeat split; try done. intros m Hm. lia.
Qed.

(** A chunk that fits is there after it is put in, most recently used, and only as
    much as had to go is gone, the oldest first. *)
Lemma insert_spec c shared key :
  cache_ok c ->
  exists c', DecodeCache.insert c shared key (content key) = Ok c' /\ cache_ok c' /\
    (capacity c <> 0 -> zlen (content key) <= capacity c -> key ∉ (entries (lru c)).*1 ->
     exists n, entries (lru c') = drop n (entries (lru c)) ++ [(key, content key)] /\
       forall m, (m < n)%nat -> capacity c < total_len (drop m (entries (lru c))) + zlen (content key)).
Proof.
  intros []. unfold DecodeCache.insert. destruct (_ || _) eqn:Hsmall.
  { exists c. split; [done|]. split; [done|]. intros Hz Hl.
    apply orb_true_iff in Hsmall as [?%Z.eqb_eq|?%Z.ltb_lt]; lia. }
  apply orb_false_iff in Hsmall as [Hz%Z.eqb_neq Hl%Z.ltb_ge].
  destruct (existsb _ _) eqn:Hex.
  { exists (DecodeCache.race c). split; [done|]. split; [done|]. intros _ _ Hk. exfalso. apply Hk.
    apply existsb_exists in Hex as (e & Hin & <-%bool_decide_eq_true).
    apply list_elem_of_fmap. exists e. split; [done|]. by apply list_elem_of_In. }
  assert (key ∉ (entries (lru c)).*1) as Hk.
  { intros ((k & v) & Hke & Hin)%list_elem_of_fmap. cbn in Hke. subst k.
    apply Bool.not_true_iff_false in Hex. apply Hex, existsb_exists. exists (key, v).
    split; [by apply list_elem_of_In|]. by apply bool_decide_eq_true. }
  set (l0 := {| entries := _; lru_bytes := _; spare := _ |}).
  assert (total_len (entries l0) = total_len (entries (lru c)) + zlen (content key)) as Htot.
  { cbn. rewrite total_len_app. cbn. lia. }
  destruct (lru_evict_spec (S (length (entries (lru c)))) (capacity c) shared l0) as (l' & n & Hev & He & Hb & Hc & Hs & Hm).
  - done.
  - cbn. rewrite length_app. cbn. lia.
  - rewrite Htot. cbn [lru_bytes l0]. rewrite co_bytes0. apply wadd_small. unfold is_u64.
    pose proof (total_len_nonneg (entries (lru c))). lia.
  - lia.
  - done.
  - rewrite Hev. cbn [mbind result_bind]. exists (DecodeCache.with_lru c l'). split; [done|].
    cbn [entries l0] in He.
    assert (n <= length (entries (lru c)))%nat as Hn.
    { destruct (decide (n <= length (entries (lru c)))%nat) as [|Hgt]; [done|]. exfalso.
      specialize (Hm (length (entries (lru c))) ltac:(lia)). cbn [entries l0] in Hm.
      rewrite drop_app_length in Hm. cbn in Hm. lia. }
    rewrite drop_app_le in He by lia.
    assert (Forall (fun e => e.2 = content e.1) (entries l')) as Hcont.
    { rewrite He. apply Forall_app. split; [by apply Forall_drop|by constructor]. }
    assert (NoDup (entries l').*1) as Hnd.
    { rewrite He, fmap_app, fmap_drop. apply NoDup_app. split; [|split].
      - eapply sublist_NoDup; [done|apply sublist_drop].
      - intros x Hx Hx'. apply list_elem_of_singleton in Hx' as ->. apply Hk.
        eapply elem_of_submseteq; [exact Hx|]. apply sublist_submseteq, sublist_drop.
      - apply NoDup_singleton. }
    split; [by split|]. intros _ _ _. exists n. split; [done|]. intros m Hlt.
    specialize (Hm m Hlt). cbn [entries l0] in Hm. rewrite drop_app_le, total_len_app in Hm by lia.
    cbn in Hm. lia.
Qed.

Lemma cache_new_ok cap : 0 <= cap < two63 -> cache_ok (DecodeCache.new cap).
Proof. intros. split; cbn; try done; try lia; constructor. Qed.

(** A lookup answers the content, and only reorders what is held. *)
Lemma get_spec c key :
  cache_ok c ->
  let '(answer, c') := DecodeCache.get c key in
  cache_ok c' /\ capacity c' = capacity c /\ entries (lru c') ≡ₚ entries (lru c) /\
  spare (lru c') = spare (lru c) /\
  match answer with
  | Some chunk => chunk = content key /\ last (entries (lru c')) = Some (key, chunk)
  | None => c' = c /\ key ∉ (entries (lru c)).*1
  end.
Proof.
  intros []. unfold DecodeCache.get. destruct (list_find _ _) as [[i [k v]]|] eqn:Hfind.
  - apply list_find_Some in Hfind as (Hi & Hk & _). cbn in Hk. subst k.
    assert (entries (lru c) ≡ₚ delete i (entries (lru c)) ++ [(key, v)]) as Hperm.
    { rewrite <- Permutation_cons_append. by apply delete_Permutation. }
    assert (v = content key) as Hv by (rewrite Forall_lookup in co_content0; exact (co_content0 _ _ Hi)).
    split; [split; cbn|split; [done|split; [by symmetry|split; [done|split; [done|]]]]]; cbn; try done.
    + rewrite co_bytes0. apply total_len_perm. done.
    + by rewrite <- Hperm.
    + by rewrite <- Hperm.
    + by rewrite last_snoc.
  - apply list_find_None in Hfind. split; [done|]. repeat split; try done.
    intros ((k & v) & Hke & Hin)%list_elem_of_fmap. cbn in Hke. subst k.
    rewrite Forall_forall in Hfind. by apply (Hfind _ Hin).
Qed.

Lemma spare_spec c :
  cache_ok c ->
  let '(buffer, c') := DecodeCache.take_spare c in
  cache_ok c' /\ capacity c' = capacity c /\ entries (lru c') = entries (lru c).
Proof.
  intros []. unfold DecodeCache.take_spare. destruct (last _); [|done].
  split; [split; cbn; try done|done]. rewrite length_take. lia.
Qed.

Lemma counts_ok c n : cache_ok c -> cache_ok (DecodeCache.with_counts c n).
Proof. intros []. by split. Qed.

Lemma step_ok c c' : cache_ok c -> cache_step c c' -> cache_ok c' /\ capacity c' = capacity c.
Proof.
  intros Hok Hstep. destruct Hstep.
  - destruct Hok. by split.
  - pose proof (get_spec c key Hok) as Hg. rewrite H in Hg. destruct Hg as (Hg & ? & _).
    split; [by apply counts_ok|done].
  - pose proof (get_spec c key Hok) as Hg. rewrite H in Hg. destruct Hg as (Hg & ? & _).
    split; [by apply counts_ok|done].
  - pose proof (spare_spec c Hok) as Hs. destruct (DecodeCache.take_spare c). destruct Hs as (? & ? & _). cbn. by split.
  - destruct (insert_spec c shared key Hok) as (c'' & Hins & Hok' & _). rewrite H in Hins. injection Hins as <-. split; [done|].
    by eapply insert_capacity.
Qed.

(** C39: whatever order the threads' steps come in, the cache never counts a byte it
    does not hold, never holds more than its capacity, never holds a chunk twice, keeps
    at most [MAX_SPARES] buffers, and every lookup answers the chunk's own content. *)
Theorem cache_sound cap c :
  0 <= cap < two63 -> rtc cache_step (DecodeCache.new cap) c ->
  lru_bytes (lru c) = total_len (entries (lru c)) /\ lru_bytes (lru c) <= cap /\
  NoDup (entries (lru c)).*1 /\ (length (spare (lru c)) <= MAX_SPARES)%nat /\
  forall key chunk c', DecodeCache.get c key = (Some chunk, c') -> chunk = content key.
Proof.
  intros Hcap Hr.
  assert (cache_ok c /\ capacity c = cap) as [Hok Hc].
  { remember (DecodeCache.new cap) as c0 eqn:H0.
    assert (cache_ok c0 /\ capacity c0 = cap) as H by (subst c0; split; [by apply cache_new_ok|done]).
    clear H0. induction Hr as [|c0 c1 c Hs Hr IH]; [done|]. apply IH.
    destruct (step_ok c0 c1) as [? Hc]; [by destruct H|done|]. split; [done|]. rewrite Hc. by destruct H. }
  destruct (Hok) as []. repeat split; try done; [lia|].
  intros key chunk c' Hg. pose proof (get_spec c key Hok) as H. rewrite Hg in H. naive_solver.
Qed.

Lemma get_or_decode_spec c shared key decode :
  cache_ok c ->
  (forall buffer, decode buffer = Ok (content key)) \/
  (exists e, forall buffer, decode buffer = Err e) ->
  let '(answer, c') := DecodeCache.get_or_decode c shared key decode in
  cache_ok c' /\
  (answer = Ok (content key) /\
     (capacity c <> 0 -> zlen (content key) <= capacity c ->
      last (entries (lru c')) = Some (key, content key)) \/
   (exists e, answer = Err e /\ decode [] = Err e) /\ entries (lru c') = entries (lru c)).
Proof.
  intros Hok Hdec. unfold DecodeCache.get_or_decode.
  pose proof (get_spec c key Hok) as Hg. destruct (DecodeCache.get c key) as [[chunk|] c1].
  { destruct Hg as (? & _ & _ & _ & -> & Hlast). split; [by apply counts_ok|]. left. by split. }
  destruct Hg as (_ & _ & _ & _ & -> & Hk).
  pose proof (spare_spec (DecodeCache.miss c) (counts_ok _ _ Hok)) as Hs.
  destruct (DecodeCache.take_spare _) as [buffer c2]. destruct Hs as (Hok2 & Hcap & Hent). cbn in Hcap, Hent.
  destruct Hdec as [Hdec|[e Hdec]]; rewrite Hdec.
  - destruct (insert_spec c2 shared key Hok2) as (c3 & -> & Hok3 & Hlast). split; [done|]. left.
    split; [done|]. intros. destruct Hlast as (n & -> & _); [lia|lia|by rewrite Hent|]. by rewrite last_snoc.
  - split; [done|]. right. split; [by exists e|done].
Qed.

(** [get_or_decode] answers the chunk's content whether it was held or had to be
    decoded (into whatever buffer it was lent), and when the chunk fits the cache it is
    the most recently used entry afterwards; a failing decode leaves what is held as it
    was and its error is the answer. *)
Theorem get_or_decode_correct c shared key decode :
  cache_ok c ->
  (forall buffer, decode buffer = Ok (content key)) \/
  (exists e, forall buffer, decode buffer = Err e) ->
  let '(answer, c') := DecodeCache.get_or_decode c shared key decode in
  cache_ok c' /\
  (answer = Ok (content key) /\
     (capacity c <> 0 -> zlen (content key) <= capacity c ->
      last (entries (lru c')) = Some (key, content key)) \/
   (exists e, answer = Err e /\ decode [] = Err e) /\ entries (lru c') = entries (lru c)).
Proof. exact (get_or_decode_spec c shared key decode). Qed.
End Content.

(** *** A cache of four bytes *)

Definition demo_content (key : ChunkKey) : bytes := [key.2; key.2; key.2].

Lemma demo_cache_ok : cache_ok demo_content (DecodeCache.new 4).
Proof. apply cache_new_ok. lia. Qed.

Lemma cache_sound_witness :
  let c := DecodeCache.with_lru (DecodeCache.new 4) {| entries := [((0, 7), [7; 7; 7])]; lru_bytes := 3; spare := [] |} in
  lru_bytes (lru c) <= 4 /\ [7; 7; 7] = demo_content (0, 7).
Proof.
  set (c := DecodeCache.with_lru _ _). cbv zeta.
  assert (rtc (cache_step demo_content) (DecodeCache.new 4) c) as Hr.
  { apply rtc_once, (step_insert _ _ (fun _ => false) (0, 7)). vm_compute. reflexivity. }
  destruct (cache_sound demo_content 4 c ltac:(lia) Hr) as (_ & Hb & _ & _ & Hget). split; [exact Hb|].
  exact (Hget (0, 7) [7; 7; 7] c eq_refl).
Defined.

Lemma get_or_decode_correct_witness :
  last (entries (lru (DecodeCache.get_or_decode (DecodeCache.new 4) (fun _ => false) (0, 9)
                        (fun _ => Ok [9; 9; 9])).2)) = Some ((0, 9), [9; 9; 9]).
Proof.
  destruct (get_or_decode_correct demo_content (DecodeCache.new 4) (fun _ => false) (0, 9)
    (fun _ => Ok [9; 9; 9]) demo_cache_ok (or_introl (fun _ => eq_refl))) as [_ [[_ H]|[[e [H _]] _]]].
  - apply H; [discriminate|vm_compute; discriminate].
  - discriminate H.
Defined.
