(* ===== verification/ChunkStore.v ===== *)
(** A chunked array as its readers see it, whatever format stores the chunks: the array the
    chunks make up, the fill value, and a range of a chunk read through the cache. *)
From S2P Require Import Prelude Errors Dtype Bytes Selection Gathered GatheredSpec StretchSpec ReadSpec Chunks DecodeCache.

(** ** An array put together from its chunks *)

Definition assemble (g : ChunkGrid) (chunk : Z -> bytes) : bytes :=
  concat ((fun k => let pos := (unravel (g_shape g) k).1 in
    elem_bytes (chunk (ravel (Chunks.grid g) (chunk_coords (Chunks.chunk_shape g) pos))) (g_itemsize g)
      (ravel (Chunks.chunk_shape g) (inner_coords (Chunks.chunk_shape g) pos)))
    <$> seqZ 0 (zprod (g_shape g))).

Lemma grid_positive g : grid_ok g -> Forall (fun d => 0 < d) (Chunks.grid g).
Proof.
  intros []. rewrite go_grid. apply Forall_forall. intros x Hx.
  apply elem_of_lookup_zip_with_1 in Hx as (i & a & b & -> & Ha & Hb).
  pose proof (Forall_lookup_1 _ _ _ _ go_shape Ha). pose proof (Forall_lookup_1 _ _ _ _ go_chunk Hb). cbn in *.
  pose proof (div_ceil_spec a b ltac:(lia)). nia.
Qed.

(** What [new] lays over an array that may have no elements. *)
Lemma new_grid_outer shape cs isz g :
  Forall (fun c => 0 <= c) cs -> ChunkGrid.new shape cs isz = Some g ->
  g_shape g = shape /\ g_itemsize g = isz /\ Chunks.grid g = zip_with div_ceil shape (Chunks.chunk_shape g) /\
  length (Chunks.chunk_shape g) = length shape /\ Forall (fun c => 0 < c) (Chunks.chunk_shape g).
Proof.
  intros Hc. unfold ChunkGrid.new. destruct (_ || _) eqn:Hbad; [done|].
  apply orb_false_iff in Hbad as [Hl%negb_false_iff Hz%bool_decide_eq_false]. apply Nat.eqb_eq in Hl.
  destruct (checked_product 1 _); [|done]. destruct (checked_product isz cs); [|done]. intros [= <-]. cbn.
  repeat split; try done. rewrite Forall_forall in *. intros c Hin. specialize (Hc c Hin).
  assert (c <> 0) by (intros ->; done). lia.
Qed.

Lemma chunks_spec g : grid_ok g -> ChunkGrid.chunks g = zprod (Chunks.grid g).
Proof.
  intros Hg. unfold ChunkGrid.chunks. pose proof (go_grid_fits g Hg).
  rewrite foldl_wmul by (lia || by apply grid_positive). lia.
Qed.

(** A grid with an axis of no positions has no chunks. *)
Lemma no_chunks l : 0 ∈ l -> forall n, foldl wmul n l = 0.
Proof.
  assert (forall k, foldl wmul 0 k = 0) as Hz by (induction k as [|x k IH]; [done|exact IH]).
  induction l as [|x l IH]; [by intros ?%elem_of_nil|]. intros [<-|Hin]%elem_of_cons n; cbn; [|by apply IH].
  unfold wmul. rewrite Z.mul_0_r. apply Hz.
Qed.

Lemma zprod_zero l : 0 ∈ l -> zprod l = 0.
Proof.
  induction l as [|x l IH]; [by intros ?%elem_of_nil|]. intros [<-|Hin]%elem_of_cons; cbn; [done|].
  rewrite IH by done. lia.
Qed.

Lemma itemsize_small d : 0 < DType.itemsize d <= SPAN_GAP_BYTES.
Proof. unfold SPAN_GAP_BYTES. destruct d; cbn; lia. Qed.

Lemma some_or_none shape : Forall (fun d => 0 <= d) shape -> 0 ∈ shape \/ Forall (fun d => 0 < d) shape.
Proof.
  intros Hs. destruct (decide (0 ∈ shape)) as [|Hn]; [by left|right]. apply Forall_forall. intros d Hd.
  rewrite Forall_forall in Hs. specialize (Hs d Hd). assert (d <> 0) by (intros ->; done). lia.
Qed.

Section Assemble.
Context (g : ChunkGrid) (Hg : grid_ok g) (chunk : Z -> bytes).
Context (Hchunk : forall n, 0 <= n < zprod (Chunks.grid g) -> zlen (chunk n) = chunk_bytes g).
#[local] Abbreviation shape := (g_shape g).
#[local] Abbreviation isz := (g_itemsize g).
#[local] Abbreviation cs := (Chunks.chunk_shape g).

Lemma piece_size pos :
  in_shape shape pos ->
  zlen (elem_bytes (chunk (ravel (Chunks.grid g) (chunk_coords cs pos))) isz (ravel cs (inner_coords cs pos))) = isz.
Proof.
  intros Hin. pose proof Hg as []. pose proof (chunk_coords_in shape cs pos Hin go_chunk go_len) as Hc.
  pose proof (inner_coords_in shape cs pos Hin go_chunk go_len) as Hi.
  pose proof (ravel_range _ _ Hi) as Hr. rewrite <- go_grid in Hc. pose proof (ravel_range _ _ Hc).
  unfold elem_bytes. rewrite length_slice; [done|nia|lia|]. rewrite Hchunk by done. destruct go_bytes as [-> _]. nia.
Qed.

Lemma pieces_sized :
  Forall (fun b => zlen b = isz) ((fun k => let pos := (unravel shape k).1 in
    elem_bytes (chunk (ravel (Chunks.grid g) (chunk_coords cs pos))) isz (ravel cs (inner_coords cs pos)))
    <$> seqZ 0 (zprod shape)).
Proof.
  apply Forall_fmap, Forall_forall. intros k Hk%elem_of_seqZ. cbn. apply piece_size.
  apply unravel_in; [lia|]. apply Hg.
Qed.

Lemma length_assemble : zlen (assemble g chunk) = zprod shape * isz.
Proof.
  unfold assemble. rewrite (concat_sizes isz) by apply pieces_sized. rewrite length_fmap, zlen_seqZ; [done|].
  pose proof (zprod_pos _ (go_shape g Hg)). lia.
Qed.

Lemma assemble_tiled : tiled g (assemble g chunk) chunk.
Proof.
  split; [done|]. intros pos Hin. pose proof (ravel_range _ _ Hin) as Hr.
  set (k := ravel shape pos) in *. unfold elem_bytes at 1.
  replace (k * isz) with (Z.of_nat (Z.to_nat k) * isz) by (rewrite Z2Nat.id; lia). unfold assemble.
  rewrite (nth_part isz _ (Z.to_nat k) (elem_bytes (chunk (ravel (Chunks.grid g) (chunk_coords cs pos))) isz
    (ravel cs (inner_coords cs pos)))); [done|apply pieces_sized|].
  rewrite list_lookup_fmap, lookup_seqZ_lt by lia. cbn. rewrite Z2Nat.id, Z.add_0_l by lia.
  destruct (unravel_in shape k Hr (go_shape g Hg)) as [Hin' Hrav].
  by rewrite (ravel_inj _ _ _ Hin' Hin Hrav).
Qed.
End Assemble.

(** ** A chunk that was never written *)

(** [elements] of the fill value. *)
Definition fill_pattern (fill : bytes) (elements : Z) : bytes := concat (replicate (Z.to_nat elements) fill).

Lemma lookup_pattern (fill : bytes) n i :
  (i < n * length fill)%nat -> concat (replicate n fill) !! i = fill !! (i mod length fill)%nat.
Proof.
  revert i. induction n as [|n IH]; intros i Hi; [lia|]. cbn [replicate concat].
  destruct (decide (i < length fill)%nat) as [Hlt|Hge].
  - by rewrite lookup_app_l, Nat.mod_small by done.
  - rewrite lookup_app_r, IH by lia. f_equal. replace i with (i - length fill + 1 * length fill)%nat at 2 by lia.
    by rewrite Nat.Div0.mod_add.
Qed.

Lemma length_pattern (fill : bytes) n : length (concat (replicate n fill)) = (n * length fill)%nat.
Proof. induction n as [|n IH]; cbn; [done|]. rewrite length_app, IH. lia. Qed.

Lemma fill_from_spec (fill : bytes) n :
  fill <> [] -> fill_from fill 0 (n * length fill) = Ok (concat (replicate n fill)).
Proof.
  intros Hne. unfold fill_from. assert (0 < length fill)%nat by (destruct fill; [done|cbn; lia]).
  destruct (Z.eqb_spec (zlen fill) 0); [lia|]. rewrite Z.mod_0_l by lia.
  apply mapM_ok, Forall2_same_length_lookup_2; [by rewrite length_seq, length_pattern|]. intros i x y Hx Hy.
  apply lookup_seq in Hx as [-> Hi]. rewrite lookup_pattern in Hy by done. rewrite Z.add_0_l, <- Nat2Z.inj_mod, Nat2Z.id, Nat.add_0_l, Hy.
  done.
Qed.

Lemma length_fill_from pattern at_ n b : fill_from pattern at_ n = Ok b -> length b = n.
Proof.
  unfold fill_from. destruct (_ =? 0); [done|]. intros Hm. apply mapM_ok in Hm. apply Forall2_length in Hm.
  by rewrite length_seq in Hm.
Qed.

(** Any stretch of an array of nothing but the fill value; a whole number of elements
    before it makes no difference. *)
Lemma fill_from_slice (fill : bytes) at_ shift len n :
  fill <> [] -> 0 <= at_ -> 0 <= len -> at_ + len <= Z.of_nat (n * length fill) -> shift mod zlen fill = at_ mod zlen fill ->
  fill_from fill shift (Z.to_nat len) = Ok (slice at_ len (concat (replicate n fill))).
Proof.
  intros Hne Ha Hl Hle Hs. unfold fill_from. assert (0 < length fill)%nat by (destruct fill; [done|cbn; lia]).
  destruct (Z.eqb_spec (zlen fill) 0); [lia|]. rewrite Hs.
  assert (zlen (slice at_ len (concat (replicate n fill))) = len) as Hlen by (apply length_slice; rewrite ?length_pattern; lia).
  apply mapM_ok, Forall2_same_length_lookup_2; [rewrite length_seq; lia|]. intros i x y Hx Hy.
  apply lookup_seq in Hx as [-> Hi]. rewrite lookup_slice in Hy by lia. rewrite lookup_pattern in Hy by lia.
  rewrite Nat.add_0_l, Zplus_mod_idemp_l. replace (at_ + Z.of_nat i) with (Z.of_nat (Z.to_nat at_ + i)) by lia.
  by rewrite <- Nat2Z.inj_mod, Nat2Z.id, Hy.
Qed.

(** ** A cache of chunks some of which do not decode *)

Section Holding.
(** What decoding each chunk gives. *)
Context (decodes : ChunkKey -> result AexError bytes).

Definition loaded (key : ChunkKey) : bytes := match decodes key with Ok b => b | _ => [] end.

Record holds (c : DecodeCache) : Prop := {
  h_cache : cache_ok loaded c;
  h_keys : Forall (fun e => decodes e.1 = Ok e.2) (entries (lru c));
}.

Lemma holds_empty cap : 0 <= cap < two63 -> holds (DecodeCache.new cap).
Proof. intros. split; [by apply cache_new_ok|constructor]. Qed.

Lemma get_or_decode_holds c shared key decode :
  holds c -> (forall spare, decode spare = decodes key) ->
  let '(answer, c') := DecodeCache.get_or_decode c shared key decode in holds c' /\ answer = decodes key.
Proof.
  intros [Hok Hkeys] Hd. unfold DecodeCache.get_or_decode.
  pose proof (get_spec loaded c key Hok) as Hg. destruct (DecodeCache.get c key) as [[chunk|] c1].
  - destruct Hg as (Hok1 & _ & Hperm & _ & _ & Hlast).
    assert (Forall (fun e => decodes e.1 = Ok e.2) (entries (lru c1))) as Hk1 by by rewrite Hperm.
    split; [by split; [apply counts_ok|]|].
    apply last_Some in Hlast as [l Hl]. rewrite Hl, Forall_app, Forall_singleton in Hk1. by destruct Hk1.
  - destruct Hg as (_ & _ & _ & _ & -> & _).
    pose proof (spare_spec loaded (DecodeCache.miss c) (counts_ok _ _ _ Hok)) as Hs.
    destruct (DecodeCache.take_spare _) as [buffer c2]. destruct Hs as (Hok2 & _ & Hent). cbn in Hent.
    rewrite <- Hent in Hkeys. rewrite Hd. destruct (decodes key) as [b|e|] eqn:Hb; [|done..].
    assert (loaded key = b) as Hl by (unfold loaded; by rewrite Hb).
    destruct (insert_spec loaded c2 shared key Hok2) as (c3 & Hins & Hok3 & _). rewrite Hl in Hins. rewrite Hins.
    split; [|done]. split; [done|]. apply insert_entries in Hins. apply Forall_forall. intros e He.
    apply Hins, elem_of_cons in He as [->|He]; [done|]. rewrite Forall_forall in Hkeys. by apply Hkeys.
Qed.

(** A range of a chunk, through the cache. *)
Lemma read_into_answers shared key start len decode chunk c :
  holds c -> (forall spare, decode spare = decodes key) -> (forall b, decodes key = Ok b -> b = chunk) ->
  0 <= start -> 0 <= len -> start + len <= zlen chunk ->
  answers holds (fun r => r = decodes key) (slice start len chunk)
    (let '(answer, c) := DecodeCache.read_into c shared key start len decode in (c, answer)).
Proof.
  intros Hc Hd Hb Hs Hl Hle. unfold DecodeCache.read_into.
  pose proof (get_or_decode_holds c shared key decode Hc Hd) as Hg.
  destruct (DecodeCache.get_or_decode _ _ _ _) as [answer c']. destruct Hg as [Hok ->]. split; [done|]. cbn [snd].
  destruct (decodes _) as [b|e|]; [|right; cbn; by split..]. left. rewrite (Hb b eq_refl). by apply slice_ok.
Qed.
End Holding.

