(* ===== verification/Text.v ===== *)
(** The string operations of Rust's standard library the sources use, on lists of
    characters: [split_once], [split], [parse::<u64>], sorting by name. *)
From Stdlib Require Import Ascii.
From stdpp Require Import strings.
From S2P Require Import Prelude.

(** [str::split_once]. *)
Fixpoint split_once (sep : ascii) (s : list ascii) : option (list ascii * list ascii) :=
  match s with
  | [] => None
  | c :: s' =>
      if Ascii.eqb c sep then Some ([], s')
      else '(before, after) ← split_once sep s'; Some (c :: before, after)
  end.

(** [str::split]: never empty. *)
Fixpoint split (sep : ascii) (s : list ascii) : list (list ascii) :=
  match s with
  | [] => [[]]
  | c :: s' =>
      if Ascii.eqb c sep then [] :: split sep s'
      else match split sep s' with piece :: rest => (c :: piece) :: rest | [] => [[c]] end
  end.

(** The bytes of a string, and back. *)
Definition string_bytes (s : string) : list Z := (fun c => Z.of_N (N_of_ascii c)) <$> String.list_ascii_of_string s.
Definition bytes_string (b : list Z) : string := String.string_of_list_ascii ((fun z => ascii_of_N (Z.to_N z)) <$> b).

(** [sort_by(|a, b| key(a).cmp(key(b)))] on strings, which is stable. *)
Fixpoint insert_by {A} (key : A -> string) (x : A) (l : list A) : list A :=
  match l with
  | [] => [x]
  | y :: l' => if String.leb (key x) (key y) then x :: l else y :: insert_by key x l'
  end.
Definition sort_by {A} (key : A -> string) (l : list A) : list A := foldr (insert_by key) [] l.

Definition digit (c : ascii) : option Z :=
  let n := Z.of_N (N_of_ascii c) in
  if (48 <=? n) && (n <=? 57) then Some (n - 48) else None.

Fixpoint parse_digits (acc : Z) (s : list ascii) : option Z :=
  match s with
  | [] => Some acc
  | c :: s' =>
      d ← digit c; shifted ← checked_mul acc 10; acc ← checked_add shifted d; parse_digits acc s'
  end.

(** [str::parse::<u64>]: digits, at least one, an optional plus before them. *)
Definition parse_u64 (s : list ascii) : option Z :=
  match s with
  | [] => None
  | c :: s' =>
      if Ascii.eqb c "+" then (if decide (s' = []) then None else parse_digits 0 s')
      else parse_digits 0 s
  end.

Lemma digit_range c d : digit c = Some d -> 0 <= d < 10.
Proof.
  unfold digit. destruct (Z.leb_spec 48 (Z.of_N (N_of_ascii c))); [|done].
  destruct (Z.leb_spec (Z.of_N (N_of_ascii c)) 57); [|done]. intros [= <-]. lia.
Qed.

Lemma parse_digits_range acc s n : is_u64 acc -> parse_digits acc s = Some n -> is_u64 n.
Proof.
  revert acc. induction s as [|c s IH]; intros acc Ha; cbn; [by intros [= <-]|].
  destruct (digit c) as [d|] eqn:Hd; [|done]. apply digit_range in Hd. cbn.
  destruct (checked_mul acc 10) as [m|] eqn:Hm; [|done]. apply checked_mul_some in Hm as [-> Hm]. cbn.
  destruct (checked_add _ d) as [m|] eqn:Hm'; [|done]. apply checked_add_some in Hm' as [-> Hm']. cbn.
  unfold is_u64 in *. apply IH. lia.
Qed.

Lemma parse_u64_range s n : parse_u64 s = Some n -> is_u64 n.
Proof.
  assert (is_u64 0) as H0 by (unfold is_u64; lia).
  destruct s as [|c s]; [done|]. unfold parse_u64. destruct (Ascii.eqb _ _); [case_decide; [done|]|];
    by apply parse_digits_range.
Qed.
