(* ===== verification/Backend.v ===== *)
(** What a backend provides, [aex-core/src/backend.rs]: the two traits as an interface
    ([ArrayDataset], [ArrayFile]) with the laws the send path relies on ([Served]), and
    the path forms every backend agrees on. *)
From Stdlib Require Import Ascii.
From stdpp Require Import strings.
From S2P Require Import Prelude Errors Dtype Bytes Quality Selection SelectionSpec Cast Layout LayoutSpec.

Definition MAX_ATTR_BYTES : Z := Z.shiftl 64 10.

Inductive AttrValue : Type :=
  | AText (text : string)
  | AArray (dtype : DType) (shape : list Z) (data : bytes).

(** What lives at a path in a file. *)
Inductive Item (D : Type) : Type :=
  | Dataset (d : D)
  | Group.
Arguments Dataset {D} d.
Arguments Group {D}.

(** [read_exact_at(buf, offset)] of a file, [buf] being [len] long. *)
Definition read_exact (file : bytes) (offset len : Z) : result ErrorKind bytes :=
  if decide (len = 0 \/ offset + len <= zlen file) then Ok (slice offset len file) else Err KUnexpectedEof.

(** One array within a file. *)
Class ArrayDataset (D : Type) := {
  ds_dtype : D -> DType;
  ds_shape : D -> list Z;
  ds_read_range : D -> SelectionLayout -> Z -> bytes -> result AexError bytes;
}.

(** The default [layout], which the backends but Zarr and HDF5 keep. *)
Definition layout `{Build, ArrayDataset D} (d : D) (indices : list Index) (quality : QualitySpec)
    : result AexError SelectionLayout :=
  SelectionLayout.resolve (ds_shape d) (ds_dtype d) indices quality.

(** An open file, seen as a hierarchy. *)
Class ArrayFile (F D : Type) := {
  get_item : F -> string -> result AexError (Item D);
  list_children : F -> string -> result AexError (list (string * Item D));
}.

(** ** Paths *)

Fixpoint trim_start (l : list Ascii.ascii) : list Ascii.ascii :=
  match l with
  | c :: l' => if Ascii.eqb c "/"%char then trim_start l' else l
  | [] => []
  end.

Definition trim_slashes (l : list Ascii.ascii) : list Ascii.ascii :=
  reverse (trim_start (reverse (trim_start l))).

(** [path.trim_matches('/')]. *)
Definition normalize_path (path : string) : string :=
  String.string_of_list_ascii (trim_slashes (String.list_ascii_of_string path)).

Definition no_slash_ends (l : list Ascii.ascii) : Prop :=
  head l <> Some "/"%char /\ last l <> Some "/"%char.

Lemma trim_start_slashes n l : head l <> Some "/"%char -> trim_start (replicate n "/"%char ++ l) = l.
Proof.
  intros Hl. induction n as [|n IH]; cbn; [|done].
  destruct l as [|c l]; cbn; [done|]. destruct (Ascii.eqb_spec c "/"%char); [naive_solver|done].
Qed.

Lemma reverse_replicate {A} n (x : A) : reverse (replicate n x) = replicate n x.
Proof. induction n; [done|]. cbn [replicate]. rewrite reverse_cons, IHn. symmetry. apply replicate_cons_app. Qed.

Lemma trim_slashes_spec m n l :
  no_slash_ends l -> trim_slashes (replicate m "/"%char ++ l ++ replicate n "/"%char) = l.
Proof.
  intros [Hh Hl]. unfold trim_slashes. destruct l as [|c l].
  - cbn. assert (forall k, trim_start (replicate k "/"%char) = []) as Hr.
    { intros k. pose proof (trim_start_slashes k []) as H. rewrite app_nil_r in H. by apply H. }
    rewrite <- replicate_add, Hr. done.
  - rewrite trim_start_slashes by done. rewrite reverse_app, reverse_replicate, trim_start_slashes.
    + apply reverse_involutive.
    + by rewrite head_reverse.
Qed.

(** Clients may write a path with any slashes around it, [a/b], [/a/b] or [//a/b/],
    and every spelling reduces to the one without, in a single pass. *)
Theorem path_forms_reduce_to_one m n core :
  no_slash_ends (String.list_ascii_of_string core) ->
  let spelled := String.string_of_list_ascii
    (replicate m "/"%char ++ String.list_ascii_of_string core ++ replicate n "/"%char) in
  normalize_path spelled = core /\ normalize_path (normalize_path spelled) = normalize_path spelled.
Proof.
  intros Hc. assert (forall i j, normalize_path (String.string_of_list_ascii
    (replicate i "/"%char ++ String.list_ascii_of_string core ++ replicate j "/"%char)) = core) as H.
  { intros i j. unfold normalize_path. rewrite String.list_ascii_of_string_of_list_ascii, trim_slashes_spec by done.
    apply String.string_of_list_ascii_of_string. }
  cbn zeta. rewrite H. split; [done|]. specialize (H 0%nat 0%nat). cbn in H.
  by rewrite app_nil_r, String.string_of_list_ascii_of_string in H.
Qed.

Lemma path_forms_reduce_to_one_witness : normalize_path "//group/data/" = "group/data"%string.
Proof.
  apply (path_forms_reduce_to_one 2 1 "group/data"). split; vm_compute; discriminate.
Defined.

(** ** The promise of a dataset *)

(** The bytes [data] of the array, answered to every range of every layout. *)
Definition serves `{Build, HalfLib, ArrayDataset D} (d : D) (data : bytes) : Prop :=
  forall indices q l r offset (dst : bytes),
    Forall index_wf indices -> layout d indices q = Ok l ->
    Selection.resolve (ds_shape d) indices = Ok r ->
    is_u64 offset -> is_u64 (zlen dst) ->
    (l_dtype l <> l_src_dtype l -> 2 * total_bytes l < two64) ->
    ds_read_range d l offset dst =
    if decide (offset + zlen dst <= total_bytes l)
    then Ok (slice offset (zlen dst) (logical_stream data (ds_shape d) (ds_dtype d) (l_dtype l) r))
    else Err (OutOfRange offset (zlen dst) (total_bytes l)).

(** A backend that hands [read_with] a storage read keeps the promise when that read
    answers what the storage holds. *)
Lemma serves_read_with `{Build, HalfLib, ArrayDataset D} (d : D) data read_src :
  Forall (fun n => 0 <= n) (ds_shape d) ->
  zlen data = zprod (ds_shape d) * DType.itemsize (ds_dtype d) -> zlen data < two63 ->
  reads data read_src ->
  (forall l offset dst, ds_read_range d l offset dst = SelectionLayout.read_with read_src l offset dst) ->
  serves d data.
Proof.
  intros Hs Hd Hf Hread Hrr indices q l r offset dst Hi Hl Hr Ho Hn Hb. rewrite Hrr. rewrite Hd in Hf.
  by eapply read_with_spec.
Qed.

(** What a dataset kind promises once it is open. *)
Class Served (D : Type) `{Build, HalfLib, ArrayDataset D} := {
  ds_open : D -> Prop;
  contents : D -> bytes;
  served_shape d : ds_open d -> Forall (fun n => 0 <= n) (ds_shape d);
  served_len d : ds_open d ->
    zlen (contents d) = zprod (ds_shape d) * DType.itemsize (ds_dtype d) /\ zlen (contents d) < two63;
  served_reads d : ds_open d -> serves d (contents d);
}.

(** What a hierarchy promises: exactly the groups list, and what is listed is found
    under the group's own path. *)
Class FileLaws (F D : Type) `{ArrayFile F D} := {
  groups_list f path : get_item f path = Ok Group <-> exists l, list_children f path = Ok l;
  children_found f path l name item :
    list_children f path = Ok l -> (name, item) ∈ l ->
    get_item f (path ++ "/" ++ name) = Ok item;
}.

Lemma trim_start_nil l : trim_start l = [] -> l = replicate (length l) "/"%char.
Proof.
  induction l as [|c l IH]; cbn; [done|]. destruct (Ascii.eqb_spec c "/"%char) as [->|]; [|done].
  intros H. by rewrite <- IH.
Qed.

Lemma trim_start_suffix l : exists n, l = replicate n "/"%char ++ trim_start l.
Proof.
  induction l as [|c l [n IH]]; [by exists 0%nat|]. cbn. destruct (Ascii.eqb_spec c "/"%char) as [->|].
  - exists (S n). cbn. by rewrite <- IH.
  - by exists 0%nat.
Qed.

Lemma trim_start_head l : head (trim_start l) <> Some "/"%char.
Proof. induction l as [|c l IH]; cbn; [done|]. destruct (Ascii.eqb_spec c "/"%char); [done|cbn; congruence]. Qed.

(** A path that normalizes to nothing is slashes only. *)
Lemma normalize_root path :
  normalize_path path = ""%string ->
  String.list_ascii_of_string path = replicate (String.length path) "/"%char.
Proof.
  unfold normalize_path, trim_slashes. intros H.
  assert (length (String.list_ascii_of_string path) = String.length path) as <-.
  { clear. induction path; cbn; congruence. }
  apply trim_start_nil. set (l := String.list_ascii_of_string path) in *.
  apply (f_equal String.list_ascii_of_string) in H. rewrite String.list_ascii_of_string_of_list_ascii in H. cbn in H.
  apply (f_equal reverse) in H. rewrite reverse_involutive in H. cbn in H. apply trim_start_nil in H.
  apply (f_equal reverse) in H. rewrite reverse_involutive, reverse_replicate, length_reverse in H.
  pose proof (trim_start_head l) as Hh. destruct (trim_start l) as [|c t]; [done|]. cbn in H, Hh.
  injection H as -> _. done.
Qed.

Lemma list_ascii_app s t :
  String.list_ascii_of_string (s ++ t) = String.list_ascii_of_string s ++ String.list_ascii_of_string t.
Proof. induction s as [|c s IH]; cbn; [done|]. by rewrite <- IH. Qed.

(** A child's name under any spelling of the root. *)
Lemma normalize_child path name :
  normalize_path path = ""%string -> no_slash_ends (String.list_ascii_of_string name) ->
  normalize_path (path ++ "/" ++ name) = name.
Proof.
  intros Hp Hn. unfold normalize_path. rewrite !list_ascii_app, (normalize_root path) by done. cbn.
  change ("/"%char :: String.list_ascii_of_string name) with (replicate 1 "/"%char ++ String.list_ascii_of_string name).
  rewrite app_assoc, <- replicate_add, <- (app_nil_r (String.list_ascii_of_string name)).
  rewrite (trim_slashes_spec _ 0) by done. apply String.string_of_list_ascii_of_string.
Qed.
