(* ===== verification/Null.v ===== *)
(** A dataset with nothing behind it: [aex-core/src/backends/null.rs]. *)
From Stdlib Require Import Ascii.
From stdpp Require Import strings.
From S2P Require Import Prelude Errors Dtype Bytes Quality Selection Cast Layout LayoutSpec Text Backend.

Definition DATASET_NAME : string := "array".
Definition DEFAULT_PERIOD : Z := 64 * 1024.
Definition PERIOD_MULTIPLE : Z := 256.

Record NullDataset : Type := {
  n_dtype : DType;
  n_shape : list Z;
  n_data_len : Z;
  n_pattern : bytes;
}.

Module NullDataset.
(** Build one whose reads come from a pattern of the given length. *)
Definition with_period (dtype : DType) (shape : list Z) (period : Z) : result AexError NullDataset :=
  data_len ← ok_or BadSelection
    (elements ← checked_product 1 shape; checked_mul elements (DType.itemsize dtype));
  Ok {| n_dtype := dtype; n_shape := shape; n_data_len := data_len;
        n_pattern := (fun i => i mod 256) <$> seqZ 0 period |}.

Definition new (dtype : DType) (shape : list Z) : result AexError NullDataset :=
  with_period dtype shape DEFAULT_PERIOD.

(** [<dtype>:<dim>[x<dim>...][@<period>]]. *)
Definition from_spec (spec : string) : result AexError NullDataset :=
  '(spec, period) ←
    match split_once "@" (String.list_ascii_of_string spec) with
    | Some (spec, period) => period ← ok_or BadSelection (parse_u64 period); Ok (spec, period)
    | None => Ok (String.list_ascii_of_string spec, DEFAULT_PERIOD)
    end;
  if (period =? 0) || negb (period mod PERIOD_MULTIPLE =? 0) then Err BadSelection
  else
    '(dtype, shape) ← ok_or BadSelection (split_once ":" spec);
    dtype ← ok_or BadSelection (DType.from_name (String.string_of_list_ascii dtype));
    shape ← mapM (fun dim => ok_or BadSelection (parse_u64 dim)) (split "x" shape);
    with_period dtype shape period.

(** [while written < dst.len()]. *)
Fixpoint fill_loop (fuel : nat) (pattern : bytes) (at_ written : Z) (dst : bytes) : result AexError bytes :=
  if written <? zlen dst then
    match fuel with
    | O => Panic
    | S fuel' =>
        let period := zlen pattern in
        if period =? 0 then Panic
        else
          let start := (at_ +w written) mod period in
          let run := Z.min (period - start) (zlen dst - written) in
          piece ← slice_checked start run pattern;
          dst ← splice_checked written piece dst;
          fill_loop fuel' pattern at_ (written + run) dst
    end
  else Ok dst.

(** Fill [dst] with what stands at [at_] in the stream. *)
Definition fill (d : NullDataset) (at_ : Z) (dst : bytes) : result AexError bytes :=
  fill_loop (length dst) (n_pattern d) at_ 0 dst.

Definition read_src (d : NullDataset) (at_ len : Z) : result AexError bytes :=
  fill d at_ (replicate (Z.to_nat len) 0).

Section Read.
Context `{HalfLib}.
Definition read_range (d : NullDataset) (layout : SelectionLayout) (offset : Z) (dst : bytes)
    : result AexError bytes :=
  SelectionLayout.read_with (read_src d) layout offset dst.
End Read.
End NullDataset.

#[export] Instance null_dataset `{HalfLib} : ArrayDataset NullDataset :=
  {| ds_dtype := n_dtype; ds_shape := n_shape; ds_read_range := NullDataset.read_range |}.

(** A synthetic dataset presented as a one-array file. *)
Record NullFile : Type := { nf_dataset : NullDataset }.

Module NullFile.
Definition from_spec (spec : string) : result AexError NullFile :=
  dataset ← NullDataset.from_spec spec; Ok {| nf_dataset := dataset |}.

Definition get_item (f : NullFile) (path : string) : result AexError (Item NullDataset) :=
  let path := normalize_path path in
  if decide (path = "") then Ok Group
  else if decide (path = DATASET_NAME) then Ok (Dataset (nf_dataset f))
  else Err NotFound.

Definition list_children (f : NullFile) (path : string)
    : result AexError (list (string * Item NullDataset)) :=
  let path := normalize_path path in
  if decide (path = "") then Ok [(DATASET_NAME, Dataset (nf_dataset f))]
  else if decide (path = DATASET_NAME) then Err NotAGroup
  else Err NotFound.
End NullFile.

#[export] Instance null_file : ArrayFile NullFile NullDataset :=
  {| get_item := NullFile.get_item; list_children := NullFile.list_children |}.

(** ** What it answers *)

(** The low byte of every position. *)
Definition position_bytes (at_ len : Z) : bytes := (fun p => p mod 256) <$> seqZ at_ len.

Record null_ok (d : NullDataset) : Prop := {
  no_shape : Forall (fun n => 0 <= n) (n_shape d);
  no_len : n_data_len d = zprod (n_shape d) * DType.itemsize (n_dtype d) /\ n_data_len d < two64;
  no_pattern : exists k, 0 < k /\ n_pattern d = position_bytes 0 (256 * k);
}.

Lemma length_position_bytes at_ len : 0 <= len -> zlen (position_bytes at_ len) = len.
Proof. intros. unfold position_bytes. rewrite length_fmap. by apply zlen_seqZ. Qed.

(** A run of the pattern is what stands in the stream there. *)
Lemma pattern_run k at_ w run :
  0 < k -> 0 <= run ->
  ((at_ +w w) mod (256 * k)) + run <= 256 * k ->
  slice ((at_ +w w) mod (256 * k)) run (position_bytes 0 (256 * k)) = position_bytes (at_ + w) run.
Proof.
  intros Hk Hr Hle. pose proof (Z.mod_pos_bound (at_ +w w) (256 * k) ltac:(lia)) as Hb.
  unfold position_bytes. rewrite slice_fmap, slice_seqZ by lia.
  apply list_eq. intros i. rewrite !list_lookup_fmap. destruct (decide (Z.of_nat i < run)).
  - rewrite !lookup_seqZ_lt by lia. cbn. f_equal.
    set (x := at_ +w w) in *. assert ((x mod (256 * k)) mod 256 = (at_ + w) mod 256) as H.
    { rewrite <- Znumtheory.Zmod_div_mod; [|lia|lia|by exists k; lia].
      unfold x, wadd, u64. rewrite <- Znumtheory.Zmod_div_mod; [done|lia|lia|]. by exists (2 ^ 56). }
    rewrite Z.add_0_l, Z.add_mod, H, <- Z.add_mod by lia. done.
  - by rewrite !lookup_ge_None_2 by (rewrite length_seqZ; lia).
Qed.

Lemma fill_loop_spec k at_ fuel w (dst : bytes) :
  0 < k -> 0 <= w -> zlen dst - w <= Z.of_nat fuel ->
  filled w (position_bytes at_ (zlen dst)) dst ->
  NullDataset.fill_loop fuel (position_bytes 0 (256 * k)) at_ w dst = Ok (position_bytes at_ (zlen dst)).
Proof.
  intros Hk. revert w dst. induction fuel as [|fuel IH]; intros w dst Hw Hf Hp;
    cbn [NullDataset.fill_loop]; destruct (Z.ltb_spec w (zlen dst)) as [Hlt|]; try lia;
    try (f_equal; apply (filled_end w); [done|rewrite length_position_bytes; lia]).
  rewrite length_position_bytes by lia. rewrite (proj2 (Z.eqb_neq _ _)) by lia.
  pose proof (Z.mod_pos_bound (at_ +w w) (256 * k) ltac:(lia)) as Hb.
  set (run := Z.min _ _). assert (0 < run) as Hrun by (unfold run; lia).
  rewrite slice_ok by (rewrite ?length_position_bytes; lia). cbn [mbind result_bind].
  rewrite pattern_run by lia.
  assert (zlen (position_bytes (at_ + w) run) = run) as Hlen by (apply length_position_bytes; lia).
  rewrite splice_ok by lia. cbn [mbind result_bind].
  assert (length (splice w (position_bytes (at_ + w) run) dst) = length dst) as Hl by (apply length_splice; lia).
  rewrite <- Hl. apply IH; [lia|lia|]. rewrite Hl.
  replace (w + run) with (w + zlen (position_bytes (at_ + w) run)) by lia. apply filled_splice; [done|lia| |].
  - rewrite Hlen, length_position_bytes; lia.
  - rewrite Hlen. unfold position_bytes. rewrite slice_fmap, slice_seqZ by lia. done.
Qed.

Lemma null_fill d at_ dst : null_ok d -> NullDataset.fill d at_ dst = Ok (position_bytes at_ (zlen dst)).
Proof.
  intros [_ _ (k & Hk & Hpat)]. unfold NullDataset.fill. rewrite Hpat. apply fill_loop_spec; [lia|lia|lia|].
  apply filled_start. apply Nat2Z.inj. by rewrite length_position_bytes by lia.
Qed.

Lemma null_reads d : null_ok d -> reads (position_bytes 0 (n_data_len d)) (NullDataset.read_src d).
Proof.
  intros Hd off len Ho Hl Hle. unfold NullDataset.read_src. rewrite null_fill by done.
  assert (0 <= n_data_len d).
  { destruct (no_len d Hd) as [-> _]. pose proof (zprod_nonneg _ (no_shape d Hd)).
    pose proof (itemsize_pos (n_dtype d)). nia. }
  rewrite length_position_bytes in Hle by done. rewrite length_replicate.
  unfold position_bytes. rewrite slice_fmap, slice_seqZ by lia. do 2 f_equal. rewrite Z2Nat.id by lia. done.
Qed.

Lemma with_period_ok dtype shape period d :
  Forall is_u64 shape -> 0 < period -> period mod 256 = 0 ->
  NullDataset.with_period dtype shape period = Ok d -> null_ok d.
Proof.
  unfold NullDataset.with_period. intros Hs Hp Hm Hd. ok_inv.
  destruct (checked_product 1 shape) as [n|] eqn:Hn; [|done]. cbn in *.
  assert (Forall (fun n => 0 <= n) shape) as Hnn by (eapply Forall_impl; [exact Hs|]; unfold is_u64; lia).
  apply checked_product_spec in Hn as [-> _]; [|lia|done].
  match goal with H : checked_mul _ _ = Some _ |- _ => apply checked_mul_some in H as [-> ?] end.
  split; cbn; [done|split; [lia|done]|].
  exists (period / 256). pose proof (Z.div_mod period 256 ltac:(lia)). split; [lia|].
  unfold position_bytes. by replace (256 * (period / 256)) with period by lia.
Qed.

Lemma from_spec_ok spec d : NullDataset.from_spec spec = Ok d -> null_ok d.
Proof.
  unfold NullDataset.from_spec. intros Hd. apply bind_ok in Hd as ([s period] & Hsp & Hd).
  assert (is_u64 period) as Hper.
  { destruct (split_once _ _) as [[s' p]|]; ok_inv; [by eapply parse_u64_range|].
    unfold DEFAULT_PERIOD, is_u64. lia. }
  destruct (Z.eqb_spec period 0); [done|]. destruct (Z.eqb_spec (period mod PERIOD_MULTIPLE) 0); [|done].
  cbn [orb negb] in Hd. apply bind_ok in Hd as ([dt sh] & _ & Hd).
  apply bind_ok in Hd as (dtype & _ & Hd). apply bind_ok in Hd as (shape & Hshape & Hd).
  apply (with_period_ok dtype shape period); [|unfold is_u64 in *; lia|done|done].
  apply mapM_ok in Hshape. clear -Hshape. induction Hshape as [|x y l k Hxy _ IH]; constructor; [|done].
  apply ok_or_ok in Hxy. by eapply parse_u64_range.
Qed.

#[export] Instance null_served `{Build, HalfLib} : Served NullDataset.
Proof.
  refine {| ds_open d := null_ok d /\ n_data_len d < two63; contents d := position_bytes 0 (n_data_len d) |}.
  - by intros d [[] _].
  - intros d [[Hs [Hl Hl64] _] Hf]. pose proof (zprod_nonneg _ Hs). pose proof (itemsize_pos (n_dtype d)).
    rewrite length_position_bytes by nia. by split.
  - intros d [Hd Hf]. destruct (Hd) as [Hs [Hl Hl64] _].
    pose proof (zprod_nonneg _ Hs). pose proof (itemsize_pos (n_dtype d)).
    apply (serves_read_with d _ (NullDataset.read_src d)); try done.
    + rewrite length_position_bytes; [done|nia].
    + rewrite length_position_bytes; [done|nia].
    + by apply null_reads.
Defined.

(** Every dataset a specification describes serves, to any selection and any
    range of it, the bytes of an array whose byte [p] is the low byte of [p], whatever
    pattern length the specification chose. *)
Theorem null_spec_serves `{Build, HalfLib} spec d :
  NullDataset.from_spec spec = Ok d -> n_data_len d < two63 ->
  n_data_len d = zprod (n_shape d) * DType.itemsize (n_dtype d) /\
  serves d (position_bytes 0 (n_data_len d)).
Proof.
  intros Hd Hl. apply from_spec_ok in Hd. split; [apply Hd|]. exact (served_reads d (conj Hd Hl)).
Qed.

Lemma null_spec_serves_witness :
  exists d, NullDataset.from_spec "uint8:8x100@512" = Ok d /\
    @serves demo_build demo_half _ (@null_dataset demo_half) d (position_bytes 0 800).
Proof.
  eexists. split; [vm_compute; reflexivity|].
  exact (proj2 (@null_spec_serves demo_build demo_half "uint8:8x100@512" _
    ltac:(vm_compute; reflexivity) ltac:(vm_compute; reflexivity))).
Defined.

Lemma single_array_laws {F D} `{ArrayFile F D} (ds : F -> D) (f : F) :
  (forall path, get_item f path =
     if decide (normalize_path path = "") then Ok Group
     else if decide (normalize_path path = DATASET_NAME) then Ok (Dataset (ds f)) else Err NotFound) ->
  (forall path, list_children f path =
     if decide (normalize_path path = "") then Ok [(DATASET_NAME, Dataset (ds f))]
     else if decide (normalize_path path = DATASET_NAME) then Err NotAGroup else Err NotFound) ->
  (forall path, get_item f path = Ok Group <-> exists l, list_children f path = Ok l) /\
  (forall path l name item, list_children f path = Ok l -> (name, item) ∈ l ->
     get_item f (path ++ "/" ++ name) = Ok item).
Proof.
  intros Hg Hc. split.
  - intros path. rewrite Hg, Hc. repeat case_decide; naive_solver.
  - intros path l name item. rewrite Hc. case_decide as Hroot; [|case_decide; done].
    intros [= <-] [= -> ->]%list_elem_of_singleton. rewrite Hg, normalize_child; [|done|split; vm_compute; congruence].
    rewrite decide_False by done. by rewrite decide_True.
Qed.

#[export] Instance null_file_laws : FileLaws NullFile NullDataset.
Proof.
  assert (forall f : NullFile, _) as H by (intros f; exact (single_array_laws nf_dataset f (fun _ => eq_refl) (fun _ => eq_refl))).
  split; intros f; apply (H f).
Qed.
