(* ===== verification/Npy.v ===== *)
(** The [.npy] backend: [aex-core/src/backends/npy.rs], over the header reader of the
    [npyz] crate and the positioned reads of the operating system. *)
From Stdlib Require Import Ascii.
From stdpp Require Import strings.
From S2P Require Import Prelude Errors Dtype Bytes Quality Selection Cast Layout LayoutSpec Backend Null.

(** What [npyz::NpyHeader] answers; [plain] is the type string of an unstructured one. *)
Record NpyHeader `{DType.TypeStrLib} : Type := {
  order_c : bool;
  uses_pickled_array : bool;
  plain : option DType.TypeStr;
  h_shape : list Z;
}.

(** [npyz::NpyHeader::from_reader]: the header, and the file position after it. *)
Class NpyLib `{DType.TypeStrLib} := {
  from_reader : bytes -> result ErrorKind (NpyHeader * Z);
}.

(** An open file: what it holds, and [read_at(buf, at)] for a buffer of [len], which
    may give fewer bytes than asked. *)
Record OpenFile : Type := { f_bytes : bytes; read_at : Z -> Z -> result ErrorKind bytes }.

(** What [pread] documents: some of the bytes asked for, at least one unless the
    position is at or past the end. *)
Definition pread_ok (f : OpenFile) : Prop :=
  forall at_ len, 0 <= at_ -> 0 < len ->
    exists n, read_at f at_ len = Ok (slice at_ n (f_bytes f)) /\ 0 <= n <= len /\
      (at_ < zlen (f_bytes f) -> 0 < n /\ at_ + n <= zlen (f_bytes f)) /\
      (zlen (f_bytes f) <= at_ -> n = 0).

Record NpyDataset : Type := {
  y_file : OpenFile;
  data_offset : Z;
  file_len : Z;
  y_num_elements : Z;
  y_data_len : Z;
  y_dtype : DType;
  y_shape : list Z;
}.

(** Product of the shape, without overflowing. *)
Definition checked_num_elements (shape : list Z) : result AexError Z :=
  ok_or MalformedNpy (checked_product 1 shape).

Module NpyDataset.
Definition open `{NpyLib} (file : result ErrorKind OpenFile) : result AexError NpyDataset :=
  file ← map_err Io file;
  '(header, data_offset) ← map_err Io (from_reader (f_bytes file));
  if negb (order_c header) then Err UnsupportedNpy
  else if uses_pickled_array header then Err UnsupportedDType
  else
    dtype ← match plain header with
            | Some ts => DType.from_type_str ts
            | None => Err UnsupportedDType
            end;
    let shape := h_shape header in
    num_elements ← checked_num_elements shape;
    data_len ← ok_or MalformedNpy (checked_mul num_elements (DType.itemsize dtype));
    let file_len := zlen (f_bytes file) in
    declared_end ← ok_or MalformedNpy (checked_add data_offset data_len);
    if file_len <? declared_end then Err MalformedNpy
    else Ok {| y_file := file; data_offset := data_offset; file_len := file_len;
               y_num_elements := num_elements; y_data_len := data_len; y_dtype := dtype;
               y_shape := shape |}.

(** [while filled < dst.len()]: [pread] may return short. *)
Fixpoint read_loop (fuel : nat) (d : NpyDataset) (offset filled : Z) (dst : bytes) : result AexError bytes :=
  if filled <? zlen dst then
    match fuel with
    | O => Panic
    | S fuel' =>
        let at_ := data_offset d +w offset +w filled in
        got ← map_err Io (read_at (y_file d) at_ (zlen dst - filled));
        if zlen got =? 0 then Err MalformedNpy
        else
          dst ← splice_checked filled got dst;
          read_loop fuel' d offset (filled + zlen got) dst
    end
  else Ok dst.

(** Read [offset, offset + dst.len()) of the array's own bytes. *)
Definition read_bytes_at (d : NpyDataset) (offset : Z) (dst : bytes) : result AexError bytes :=
  let len := zlen dst in
  let out_of_range := OutOfRange offset len (y_data_len d) in
  end_ ← ok_or out_of_range (checked_add offset len);
  if y_data_len d <? end_ then Err out_of_range
  else read_loop (length dst) d offset 0 dst.

Definition read_src (d : NpyDataset) (at_ len : Z) : result AexError bytes :=
  read_bytes_at d at_ (replicate (Z.to_nat len) 0).

Section Read.
Context `{HalfLib}.
Definition read_range (d : NpyDataset) (layout : SelectionLayout) (offset : Z) (dst : bytes)
    : result AexError bytes :=
  SelectionLayout.read_with (read_src d) layout offset dst.
End Read.

(** The range of the file the kernel is asked to start reading. *)
Definition will_need (d : NpyDataset) (layout : SelectionLayout) (offset len : Z) : option (Z * Z) :=
  '(at_, len) ← SelectionLayout.source_run layout offset len; Some (data_offset d +w at_, len).
End NpyDataset.

#[export] Instance npy_dataset `{HalfLib} : ArrayDataset NpyDataset :=
  {| ds_dtype := y_dtype; ds_shape := y_shape; ds_read_range := NpyDataset.read_range |}.

Record NpyFile : Type := { yf_dataset : NpyDataset }.

Module NpyFile.
Definition open `{NpyLib} (file : result ErrorKind OpenFile) : result AexError NpyFile :=
  dataset ← NpyDataset.open file; Ok {| yf_dataset := dataset |}.

Definition get_item (f : NpyFile) (path : string) : result AexError (Item NpyDataset) :=
  let path := normalize_path path in
  if decide (path = "") then Ok Group
  else if decide (path = DATASET_NAME) then Ok (Dataset (yf_dataset f))
  else Err NotFound.

Definition list_children (f : NpyFile) (path : string)
    : result AexError (list (string * Item NpyDataset)) :=
  let path := normalize_path path in
  if decide (path = "") then Ok [(DATASET_NAME, Dataset (yf_dataset f))]
  else if decide (path = DATASET_NAME) then Err NotAGroup
  else Err NotFound.
End NpyFile.

#[export] Instance npy_file : ArrayFile NpyFile NpyDataset :=
  {| get_item := NpyFile.get_item; list_children := NpyFile.list_children |}.

#[export] Instance npy_file_laws : FileLaws NpyFile NpyDataset.
Proof.
  assert (forall f : NpyFile, _) as H by (intros f; exact (single_array_laws yf_dataset f (fun _ => eq_refl) (fun _ => eq_refl))).
  split; intros f; apply (H f).
Qed.

(** ** What it answers *)

(** A dataset as [open] leaves it; the file may have changed since. *)
Record npy_ok (d : NpyDataset) : Prop := {
  yo_shape : Forall (fun n => 0 <= n) (y_shape d);
  yo_len : y_data_len d = zprod (y_shape d) * DType.itemsize (y_dtype d);
  yo_end : 0 <= data_offset d /\ data_offset d + y_data_len d < two64;
}.

Lemma npy_len_nonneg d : npy_ok d -> 0 <= y_data_len d.
Proof.
  intros [Hs -> _]. pose proof (zprod_nonneg _ Hs). pose proof (itemsize_pos (y_dtype d)). nia.
Qed.

Section Loop.
Context (d : NpyDataset) (offset : Z) (Hd : npy_ok d) (Hf : pread_ok (y_file d)) (Ho : 0 <= offset).
Let file := f_bytes (y_file d).
Let start := data_offset d + offset.

Lemma read_loop_spec fuel w (dst : bytes) :
  start + zlen dst < two64 -> 0 <= w -> zlen dst - w <= Z.of_nat fuel ->
  (start + zlen dst <= zlen file -> filled w (slice start (zlen dst) file) dst) ->
  NpyDataset.read_loop fuel d offset w dst =
  if decide (w < zlen dst /\ zlen file < start + zlen dst) then Err MalformedNpy
  else if decide (w < zlen dst) then Ok (slice start (zlen dst) file) else Ok dst.
Proof.
  destruct (yo_end d Hd) as [H0 _]. subst start.
  revert w dst. induction fuel as [|fuel IH]; intros w dst Hlt Hw Hfu Hp;
    cbn [NpyDataset.read_loop]; destruct (Z.ltb_spec w (zlen dst)) as [Hgt|]; try lia;
    try (rewrite !decide_False by lia; done).
  rewrite (wadd_small (data_offset d)), wadd_small by (unfold is_u64; lia).
  destruct (Hf (data_offset d + offset + w) (zlen dst - w)) as (n & -> & Hn & Hin & Hout); [lia|lia|].
  cbn [map_err mbind result_bind]. fold file in Hin, Hout |- *.
  destruct (decide (data_offset d + offset + w < zlen file)) as [Hlt'|Hge].
  - destruct (Hin Hlt') as [Hpos Hle]. rewrite length_slice, (proj2 (Z.eqb_neq _ _)) by lia.
    rewrite splice_ok by (rewrite ?length_slice; lia). cbn [mbind result_bind].
    set (dst' := splice _ _ _). assert (length dst' = length dst) as Hl by (apply length_splice; rewrite ?length_slice; lia).
    rewrite IH; rewrite ?Hl; try lia.
    + case_decide as H1; [rewrite decide_True by lia; done|].
      case_decide as H2; [rewrite decide_False, decide_True by lia; done|].
      rewrite decide_False, decide_True by lia. f_equal.
      apply (filled_end (w + n)).
      * specialize (Hp ltac:(lia)). unfold dst'.
        replace (w + n) with (w + zlen (slice (data_offset d + offset + w) n file)) by (rewrite length_slice; lia).
        apply filled_splice; rewrite ?length_slice by lia; try lia; [done|].
        rewrite slice_slice by lia. done.
      * rewrite length_slice; lia.
    + intros Hfit. specialize (Hp Hfit). unfold dst'.
      replace (w + n) with (w + zlen (slice (data_offset d + offset + w) n file)) by (rewrite length_slice; lia).
      apply filled_splice; rewrite ?length_slice by lia; try lia; [done|].
      rewrite slice_slice by lia. done.
  - rewrite (Hout ltac:(lia)), slice_nil. cbn. rewrite decide_True by lia. done.
Qed.
End Loop.

(** A read of a range of the array: refused when the range is not the array's, and
    when the file no longer has it. *)
Lemma read_bytes_at_spec d offset (dst : bytes) :
  npy_ok d -> pread_ok (y_file d) -> is_u64 offset -> is_u64 (zlen dst) ->
  NpyDataset.read_bytes_at d offset dst =
  if decide (y_data_len d < offset + zlen dst) then Err (OutOfRange offset (zlen dst) (y_data_len d))
  else if decide (0 < zlen dst /\ zlen (f_bytes (y_file d)) < data_offset d + offset + zlen dst) then Err MalformedNpy
  else Ok (slice (data_offset d + offset) (zlen dst) (f_bytes (y_file d))).
Proof.
  intros Hd Hf Ho Hn. unfold is_u64 in *. destruct (yo_end d Hd) as [H0 Hend]. pose proof (npy_len_nonneg d Hd).
  unfold NpyDataset.read_bytes_at, checked_add. case_decide as Hs; cbn.
  - destruct (Z.ltb_spec (y_data_len d) (offset + zlen dst)).
    + by rewrite decide_True.
    + rewrite decide_False by lia. rewrite read_loop_spec; try done; try lia.
      * case_decide; [done|]. case_decide; [done|]. destruct dst; [done|cbn in *; lia].
      * intros Hle. apply filled_start. apply Nat2Z.inj. rewrite length_slice; lia.
  - rewrite decide_True by lia. done.
Qed.

(** A file as the array was declared in it, unchanged since. *)
Definition npy_intact (d : NpyDataset) : Prop :=
  npy_ok d /\ pread_ok (y_file d) /\ data_offset d + y_data_len d <= zlen (f_bytes (y_file d)) /\
  zlen (f_bytes (y_file d)) < two63.

Definition npy_contents (d : NpyDataset) : bytes := slice (data_offset d) (y_data_len d) (f_bytes (y_file d)).

Lemma npy_reads d : npy_intact d -> reads (npy_contents d) (NpyDataset.read_src d).
Proof.
  intros (Hd & Hf & Hin & Hlt) off len Ho Hl Hle. destruct (yo_end d Hd). pose proof (npy_len_nonneg d Hd).
  unfold npy_contents in *. rewrite length_slice in Hle by lia. unfold NpyDataset.read_src.
  assert (zlen (replicate (Z.to_nat len) 0) = len) as Hr by (rewrite length_replicate; lia).
  rewrite read_bytes_at_spec, Hr by (done || unfold is_u64; lia). rewrite decide_False, decide_False by lia.
  rewrite slice_slice by lia. done.
Qed.

#[export] Instance npy_served `{Build, HalfLib} : Served NpyDataset.
Proof.
  refine {| ds_open := npy_intact; contents := npy_contents |}.
  - intros d [Hd _]. apply Hd.
  - intros d (Hd & Hf & Hin & Hlt). destruct (yo_end d Hd). pose proof (npy_len_nonneg d Hd).
    unfold npy_contents. rewrite length_slice by lia. split; [apply Hd|lia].
  - intros d Hi. destruct (Hi) as (Hd & Hf & Hin & Hlt). destruct (yo_end d Hd). pose proof (npy_len_nonneg d Hd).
    apply (serves_read_with d _ (NpyDataset.read_src d)); [apply Hd| | |by apply npy_reads|done].
    + unfold npy_contents. rewrite length_slice by lia. apply Hd.
    + unfold npy_contents. rewrite length_slice by lia. lia.
Defined.

Section Open.
Context `{NpyLib}.

(** The header reader reports lengths and a position, which are not negative. *)
Definition header_typed : Prop :=
  forall b h at_, from_reader b = Ok (h, at_) -> Forall (fun n => 0 <= n) (h_shape h) /\ 0 <= at_.

Lemma npy_open_ok f d :
  header_typed -> zlen (f_bytes f) < two63 -> NpyDataset.open (Ok f) = Ok d ->
  y_file d = f /\ npy_ok d /\ data_offset d + y_data_len d <= zlen (f_bytes f) /\
  exists h ts, from_reader (f_bytes f) = Ok (h, data_offset d) /\ order_c h = true /\
    uses_pickled_array h = false /\ plain h = Some ts /\ DType.from_type_str ts = Ok (y_dtype d) /\
    y_shape d = h_shape h.
Proof.
  intros Ht Hlt. unfold NpyDataset.open. cbn [map_err mbind result_bind].
  destruct (from_reader (f_bytes f)) as [[h at_]| |] eqn:Hh; [|done..]. cbn.
  destruct (Ht _ _ _ Hh) as [Hs Ha]. destruct (order_c h) eqn:Hc; [|done]. destruct (uses_pickled_array h) eqn:Hp; [done|].
  cbn. destruct (plain h) as [ts|] eqn:Hts; [|done]. destruct (DType.from_type_str ts) as [dt| |] eqn:Hdt; [|done..].
  cbn. unfold checked_num_elements. destruct (checked_product 1 _) as [n|] eqn:Hn; [|done]. cbn.
  apply checked_product_spec in Hn as [-> _]; [|lia|done]. rewrite Z.mul_1_l.
  destruct (checked_mul _ _) as [m|] eqn:Hm; [|done]. apply checked_mul_some in Hm as [-> Hm]. cbn.
  destruct (checked_add _ _) as [e|] eqn:He; [|done]. apply checked_add_some in He as [-> He]. cbn.
  destruct (Z.ltb_spec (zlen (f_bytes f)) (at_ + zprod (h_shape h) * DType.itemsize dt)); [done|]. intros [= <-].
  split; [done|]. split; [by split|]. split; [done|]. exists h, ts. done.
Qed.

(** A [.npy] that opens is served as it is.  [open] accepts only a C-order,
    unpickled, plain array whose declared data lies inside the file, and then any range
    of any selection is answered with the selected elements of the file's bytes after
    the header. *)
Theorem npy_open_serves `{Build, HalfLib} f d :
  header_typed -> pread_ok f -> zlen (f_bytes f) < two63 -> NpyDataset.open (Ok f) = Ok d ->
  data_offset d + zprod (y_shape d) * DType.itemsize (y_dtype d) <= zlen (f_bytes f) /\
  (exists h ts, from_reader (f_bytes f) = Ok (h, data_offset d) /\ order_c h = true /\
     uses_pickled_array h = false /\ plain h = Some ts /\ DType.from_type_str ts = Ok (y_dtype d)) /\
  serves d (slice (data_offset d) (zprod (y_shape d) * DType.itemsize (y_dtype d)) (f_bytes f)).
Proof.
  intros Ht Hf Hlt Hop. destruct (npy_open_ok f d Ht Hlt Hop) as (Hfile & Hd & Hin & h & ts & ? & ? & ? & ? & ? & _).
  pose proof (yo_len d Hd) as Hlen. split; [lia|]. split; [eauto 10|]. rewrite <- Hlen, <- Hfile.
  assert (npy_intact d) as Hi by (unfold npy_intact; by rewrite Hfile).
  exact (served_reads d Hi).
Qed.
End Open.

(** A file that shrinks after it was opened.  Whatever short reads the system
    gives, a read of a range the array has answers the file's bytes when they are still
    there and [MalformedNpy] when they are not, never other bytes and never a panic. *)
Theorem npy_read_after_truncation d offset (dst : bytes) :
  npy_ok d -> pread_ok (y_file d) -> is_u64 offset -> is_u64 (zlen dst) -> dst <> [] ->
  offset + zlen dst <= y_data_len d ->
  NpyDataset.read_bytes_at d offset dst =
  if decide (zlen (f_bytes (y_file d)) < data_offset d + offset + zlen dst) then Err MalformedNpy
  else Ok (slice (data_offset d + offset) (zlen dst) (f_bytes (y_file d))).
Proof.
  intros Hd Hf Ho Hn Hne Hle. rewrite read_bytes_at_spec by done. rewrite decide_False by lia.
  assert (0 < zlen dst) by (destruct dst; [done|cbn; lia]).
  repeat case_decide; try done; lia.
Qed.

(** *** A file of six two-byte integers after a four-byte header *)

#[local] Instance demo_types : DType.TypeStrLib := {|
  DType.TypeStr := (ascii * Z); DType.TypeChar := ascii; DType.parse := fun _ => None;
  DType.num_bytes := fun t => Some t.2; DType.is_big_endian := fun _ => false; DType.type_char := fst;
  DType.TCBool := "b"%char; DType.TCInt := "i"%char; DType.TCUint := "u"%char;
  DType.TCFloat := "f"%char; DType.TCComplex := "c"%char |}.

#[local] Instance demo_npy : NpyLib := {|
  from_reader := fun b =>
    Ok ({| order_c := true; uses_pickled_array := false; plain := Some ("i"%char, 2); h_shape := [3; 2] |}, 4) |}.

(** Reads that stop short at every third byte. *)
Definition demo_file (b : bytes) : OpenFile :=
  {| f_bytes := b; read_at := fun at_ len => Ok (slice at_ (Z.max 0 (Z.min (Z.min len 3) (zlen b - at_))) b) |}.

Lemma demo_pread b : pread_ok (demo_file b).
Proof. intros at_ len Ha Hl. eexists. split; [reflexivity|]. cbn. lia. Qed.

Lemma npy_open_serves_witness :
  exists d, NpyDataset.open (Ok (demo_file (seqZ 0 16))) = Ok d /\
    @serves demo_build demo_half _ (@npy_dataset demo_half) d (slice 4 12 (seqZ 0 16)).
Proof.
  eexists. split; [vm_compute; reflexivity|].
  refine (proj2 (proj2 (@npy_open_serves _ _ demo_build demo_half (demo_file (seqZ 0 16)) _ _ (demo_pread _) _ _))).
  - intros b h at_ [= <- <-]. split; [repeat constructor; lia|lia].
  - vm_compute. reflexivity.
  - vm_compute. reflexivity.
Defined.

Lemma npy_read_after_truncation_witness :
  let d b := {| y_file := demo_file b; data_offset := 4; file_len := 16; y_num_elements := 6;
                y_data_len := 12; y_dtype := Int16; y_shape := [3; 2] |} in
  NpyDataset.read_bytes_at (d (seqZ 0 16)) 4 [0; 0; 0; 0; 0] = Ok [8; 9; 10; 11; 12] /\
  NpyDataset.read_bytes_at (d (seqZ 0 12)) 4 [0; 0; 0; 0; 0] = Err MalformedNpy.
Proof.
  cbn zeta. split; (rewrite npy_read_after_truncation;
    [vm_compute; reflexivity|split; cbn; [repeat constructor; lia|lia|lia]|apply demo_pread|
     unfold is_u64; lia|unfold is_u64; cbn; lia|done|cbn; lia]).
Defined.
