(* ===== verification/Reduce.v ===== *)
(** numpy reductions computed where the data is: [aex-core/src/reduce.rs].  A selection is
    read in blocks and folded into one accumulator per output cell.

    An [f64] that is computed with is a [spec_float] of 53 bits here: the sign and payload
    of a NaN that arithmetic made, which Rust leaves unspecified, are not kept.  An element
    stays its bit pattern.  [half::f16] is another crate's. *)
From Stdlib Require Import Floats.SpecFloat.
From stdpp Require Import strings.
From S2P Require Import Prelude Errors Dtype Bytes Quality Selection Cast Layout Backend.

Inductive Function : Type :=
  | Sum | Prod | Mean | Max | Min | Std | Var | All | Any | Argmax | Argmin
  | NanSum | NanMean | NanMax | NanMin.

#[export] Instance Function_eq_dec : EqDecision Function.
Proof. solve_decision. Defined.

Module Function.
(** The numpy name, such as [nanmax]. *)
Definition from_name (name : string) : option Function :=
  if decide (name = "sum") then Some Sum
  else if decide (name = "prod") then Some Prod
  else if decide (name = "mean") then Some Mean
  else if decide (name = "max" \/ name = "amax") then Some Max
  else if decide (name = "min" \/ name = "amin") then Some Min
  else if decide (name = "std") then Some Std
  else if decide (name = "var") then Some Var
  else if decide (name = "all") then Some All
  else if decide (name = "any") then Some Any
  else if decide (name = "argmax") then Some Argmax
  else if decide (name = "argmin") then Some Argmin
  else if decide (name = "nansum") then Some NanSum
  else if decide (name = "nanmean") then Some NanMean
  else if decide (name = "nanmax") then Some NanMax
  else if decide (name = "nanmin") then Some NanMin
  else None.

Definition integral (d : DType) : bool :=
  match d with
  | Bool | Int8 | Int16 | Int32 | Int64 | Uint8 | Uint16 | Uint32 | Uint64 => true
  | _ => false
  end.

(** The dtype numpy gives the result. *)
Definition result_dtype (f : Function) (input : DType) : DType :=
  match f with
  | Sum | Prod | NanSum =>
      match input with
      | Bool | Int8 | Int16 | Int32 | Int64 => Int64
      | Uint8 | Uint16 | Uint32 | Uint64 => Uint64
      | other => other
      end
  | Mean | NanMean => if integral input then Float64 else input
  | Std | Var =>
      match input with
      | Float16 | Float32 | Float64 => input
      | Complex64 => Float32
      | _ => Float64
      end
  | Max | Min | NanMax | NanMin => input
  | All | Any => Bool
  | Argmax | Argmin => Int64
  end.

(** Whether an empty reduction has no answer. *)
Definition needs_an_element (f : Function) : bool :=
  match f with
  | Max | Min | NanMax | NanMin | Argmax | Argmin => true
  | _ => false
  end.
End Function.

(** numpy's [axis] argument. *)
Inductive Axis : Type :=
  | AllAxes
  | One (a : Z)
  | Many (axes : list Z).

Record ReduceArgs : Type := { axis : Axis; keepdims : bool; ddof : Z }.

Record Reduced : Type := { r_dtype : DType; r_shape : list Z; r_data : bytes }.

Definition BLOCK_BYTES : Z := Z.shiftl 4 20.

(** ** Axes *)

(** The body of the loop over [axes]: [std::mem::replace] reads the flag and sets it. *)
Definition mark_axis (ndim : nat) (reduced : list bool) (a : Z) : result AexError (list bool) :=
  let d := if a <? 0 then a + Z.of_nat ndim else a in
  if (d <? 0) || (Z.of_nat ndim <=? d) then Err BadFunction
  else
    was ← expect (reduced !! Z.to_nat d);
    if was : bool then Err BadFunction else Ok (<[Z.to_nat d := true]> reduced).

(** Which axes [axis] reduces, checked as numpy checks them. *)
Definition reduced_axes (ndim : nat) (axis : Axis) (function : Function)
    : result AexError (list bool) :=
  let mark axes := mfold (mark_axis ndim) (replicate ndim false) axes in
  match axis with
  | AllAxes => Ok (replicate ndim true)
  | One a => mark [a]
  | Many axes =>
      match function with
      | Argmax | Argmin => Err BadFunction
      | _ => mark axes
      end
  end.

(** [for d in (0..shape.len()).rev()]: per axis how far a step moves the output cell, and
    the number of cells. *)
Fixpoint strides (shape : list Z) (reduced : list bool) : list Z * Z :=
  match shape, reduced with
  | n :: shape', r :: reduced' =>
      let '(stride, cells) := strides shape' reduced' in
      if r then (0 :: stride, cells) else (cells :: stride, cells *w n)
  | _, _ => ([], 1)
  end.

Fixpoint reduced_shape (keepdims : bool) (shape : list Z) (reduced : list bool) : list Z :=
  match shape, reduced with
  | n :: shape', r :: reduced' =>
      let rest := reduced_shape keepdims shape' reduced' in
      if r then (if keepdims then 1 :: rest else rest) else n :: rest
  | _, _ => []
  end.

(** The lengths of the axes [keep] names. *)
Fixpoint lengths (keep : bool -> bool) (shape : list Z) (reduced : list bool) : list Z :=
  match shape, reduced with
  | n :: shape', r :: reduced' =>
      let rest := lengths keep shape' reduced' in if keep r then n :: rest else rest
  | _, _ => []
  end.

(** How elements map to output cells. *)
Record Walk : Type := {
  w_shape : list Z;
  stride : list Z;
  pos_axis : option nat;
  cells : Z;
  w_ddof : Z;
  out : DType;
}.

(** ** Floating point *)

Module Float.
Abbreviation f64 := spec_float.
Definition add : f64 -> f64 -> f64 := SFadd 53 1024.
Definition sub : f64 -> f64 -> f64 := SFsub 53 1024.
Definition mul : f64 -> f64 -> f64 := SFmul 53 1024.
Definition div : f64 -> f64 -> f64 := SFdiv 53 1024.
Definition sqrt : f64 -> f64 := SFsqrt 53 1024.
Definition zero : f64 := S754_zero false.
(** [as f64] of an integer. *)
Definition of_int (z : Z) : f64 := binary_normalize 53 1024 z 0 false.

(** [f64::to_le_bytes]. *)
Definition f64_encode (f : f64) : Z :=
  let sign (s : bool) := if s then 2 ^ 63 else 0 in
  match f with
  | S754_zero s => sign s
  | S754_infinity s => sign s + 0x7ff0000000000000
  | S754_nan => 0x7ff8000000000000
  | S754_finite s m e =>
      sign s +
      (if Zpos m <? 2 ^ 52 then Zpos m else (e + 1075) * 2 ^ 52 + (Zpos m - 2 ^ 52))
  end.

(** [as f32], as bits. *)
Definition f64_as_f32 (f : f64) : Z :=
  match f with
  | S754_finite s m e =>
      Ieee.f32_encode (binary_normalize 24 128 (if s then Zneg m else Zpos m) e s)
  | f => Ieee.f32_encode f
  end.

(** An [f32] from its bits, of 24 bits. *)
Definition f32_decode (bits : Z) : spec_float :=
  let s := Z.testbit bits 31 in
  let e := Z.land (Z.shiftr bits 23) 0xff in
  let m := Z.land bits (2 ^ 23 - 1) in
  if e =? 0xff then (if m =? 0 then S754_infinity s else S754_nan)
  else
    let (m, e) := if e =? 0 then (m, -149) else (m + 2 ^ 23, e - 150) in
    match m with Zpos p => S754_finite s p e | _ => S754_zero s end.

(** [f64::from] of an [f32]: the same number, of 53 bits. *)
Definition widen (f : spec_float) : f64 :=
  match f with
  | S754_finite s m e => binary_normalize 53 1024 (if s then Zneg m else Zpos m) e s
  | f => f
  end.

Definition is_nan (f : spec_float) : bool := match f with S754_nan => true | _ => false end.
(** The comparisons, false of a NaN. *)
Definition ge (x y : spec_float) : bool := SFleb y x.
Definition le (x y : spec_float) : bool := SFleb x y.
Definition gt (x y : spec_float) : bool := SFltb y x.
Definition lt (x y : spec_float) : bool := SFltb x y.
Definition eq (x y : spec_float) : bool := SFeqb x y.
End Float.
Import Float (f64).

(** What the [half] crate supplies besides, on bit patterns. *)
Class HalfNum := {
  f16_to_f64 : Z -> f64;
  f16_from_f64 : f64 -> Z;
  f16_from_u8 : Z -> Z;
  f16_is_nan : Z -> bool;
  f16_ge : Z -> Z -> bool;
  f16_le : Z -> Z -> bool;
  f16_eq : Z -> Z -> bool;
}.

(** ** Elements *)

(** An element as the reductions see it. *)
Class Elem (T : Type) := {
  SIZE : nat;
  FLOAT : bool;
  (** of [SIZE] bytes *)
  e_read : bytes -> T;
  e_write : T -> bytes;
  (** Real and imaginary parts. *)
  parts : T -> f64 * f64;
  (** Sign-extended bits, for the integer types. *)
  int_bits : T -> result AexError Z;
  is_nan : T -> bool;
  truthy : T -> bool;
  e_ge : T -> T -> bool;
  e_le : T -> T -> bool;
  arg_gt : T -> T -> bool;
  arg_lt : T -> T -> bool;
}.

(** [int_elem!]: an integer of [n] bytes. *)
Definition int_of_bits (n : nat) (signed : bool) (bits : Z) : Z :=
  if signed && (2 ^ (8 * Z.of_nat n - 1) <=? bits) then bits - 2 ^ (8 * Z.of_nat n) else bits.

Definition int_elem (n : nat) (signed : bool) : Elem Z := {|
  SIZE := n;
  FLOAT := false;
  e_read b := int_of_bits n signed (from_le_bytes b);
  e_write x := to_le_bytes n x;
  parts x := (Float.of_int x, Float.zero);
  int_bits x := Ok (as_u64 (as_i64 x));
  is_nan _ := false;
  truthy x := negb (x =? 0);
  e_ge x y := y <=? x;
  e_le x y := x <=? y;
  arg_gt x y := y <? x;
  arg_lt x y := x <? y;
|}.

Definition bool_elem : Elem bool := {|
  SIZE := 1;
  FLOAT := false;
  e_read b := match b with x :: _ => negb (x =? 0) | [] => false end;
  e_write x := [if x then 1 else 0];
  parts x := (Float.of_int (if x then 1 else 0), Float.zero);
  int_bits x := Ok (if x then 1 else 0);
  is_nan _ := false;
  truthy x := x;
  e_ge x y := x || negb y;
  e_le x y := negb x || y;
  arg_gt x y := x && negb y;
  arg_lt x y := negb x && y;
|}.

(** [float_elem!]: [!(self <= best)] makes a NaN count as an extreme. *)
Definition ieee_elem (n : nat) (decode : Z -> spec_float) : Elem Z := {|
  SIZE := n;
  FLOAT := true;
  e_read b := from_le_bytes b;
  e_write x := to_le_bytes n x;
  parts x := (Float.widen (decode x), Float.zero);
  int_bits _ := Panic;
  is_nan x := Float.is_nan (decode x);
  truthy x := negb (Float.eq (decode x) Float.zero);
  e_ge x y := Float.ge (decode x) (decode y);
  e_le x y := Float.le (decode x) (decode y);
  arg_gt x y := negb (Float.le (decode x) (decode y));
  arg_lt x y := negb (Float.ge (decode x) (decode y));
|}.

Definition f16_elem `{HalfNum} : Elem Z := {|
  SIZE := 2;
  FLOAT := true;
  e_read b := from_le_bytes b;
  e_write x := to_le_bytes 2 x;
  parts x := (f16_to_f64 x, Float.zero);
  int_bits _ := Panic;
  is_nan x := f16_is_nan x;
  truthy x := negb (f16_eq x (f16_from_u8 0));
  e_ge x y := f16_ge x y;
  e_le x y := f16_le x y;
  arg_gt x y := negb (f16_le x y);
  arg_lt x y := negb (f16_ge x y);
|}.

(** [complex_elem!]: ordered by the real part, then the imaginary one. *)
Definition complex_elem (half : nat) (decode : Z -> spec_float) : Elem (Z * Z) :=
  let re (x : Z * Z) := decode x.1 in
  let im (x : Z * Z) := decode x.2 in
  let nan x := Float.is_nan (re x) || Float.is_nan (im x) in
  let ordered x y := negb (Float.is_nan (im x)) && negb (Float.is_nan (im y)) in
  {|
    SIZE := 2 * half;
    FLOAT := true;
    e_read b := (from_le_bytes (take half b), from_le_bytes (drop half b));
    e_write x := to_le_bytes half x.1 ++ to_le_bytes half x.2;
    parts x := (Float.widen (re x), Float.widen (im x));
    int_bits _ := Panic;
    is_nan x := nan x;
    truthy x := negb (Float.eq (re x) Float.zero) || negb (Float.eq (im x) Float.zero);
    e_ge x y := (Float.gt (re x) (re y) && ordered x y)
                || (Float.eq (re x) (re y) && Float.ge (im x) (im y));
    e_le x y := (Float.lt (re x) (re y) && ordered x y)
                || (Float.eq (re x) (re y) && Float.le (im x) (im y));
    arg_gt x y := Float.gt (re x) (re y)
                  || (Float.eq (re x) (re y) && Float.gt (im x) (im y)) || nan x;
    arg_lt x y := Float.lt (re x) (re y)
                  || (Float.eq (re x) (re y) && Float.lt (im x) (im y)) || nan x;
  |}.

Definition f32_elem : Elem Z := ieee_elem 4 Float.f32_decode.
Definition f64_elem : Elem Z := ieee_elem 8 Ieee.f64_decode.
Definition c32_elem : Elem (Z * Z) := complex_elem 4 Float.f32_decode.
Definition c64_elem : Elem (Z * Z) := complex_elem 8 Ieee.f64_decode.

(** ** Accumulators *)

(** [trait Acc]: element [x] of output cell [cell], at [pos]. *)
Class Acc (T A : Type) := push : A -> nat -> Z -> T -> result AexError A.

(** [l\[cell\]] replaced by [f] of it. *)
Definition update {A} (cell : nat) (f : A -> A) (l : list A) : result AexError (list A) :=
  x ← expect (l !! cell); Ok (<[cell := f x]> l).

Definition write_float `{HalfNum} (dtype : DType) (re im : f64) : result AexError bytes :=
  match dtype with
  | Float16 => Ok (to_le_bytes 2 (f16_from_f64 re))
  | Float32 => Ok (to_le_bytes 4 (Float.f64_as_f32 re))
  | Float64 => Ok (to_le_bytes 8 (Float.f64_encode re))
  | Complex64 => Ok (to_le_bytes 4 (Float.f64_as_f32 re) ++ to_le_bytes 4 (Float.f64_as_f32 im))
  | Complex128 => Ok (to_le_bytes 8 (Float.f64_encode re) ++ to_le_bytes 8 (Float.f64_encode im))
  | _ => Panic
  end.

(** Sums, products and means. *)
Module SumAcc.
Record t : Type := {
  ints : list Z;
  floats : list (f64 * f64);
  counts : list Z;
  float : bool;
  prod : bool;
  skip_nan : bool;
}.

Definition new (FLOAT : bool) (cells : nat) (function : Function) : t :=
  let prod := bool_decide (function = Prod) in
  let float := FLOAT || bool_decide (function = Mean \/ function = NanMean) in
  let one := if prod then 1 else 0 in
  {| ints := replicate (if float then 0%nat else cells) one;
     floats := replicate (if float then cells else 0%nat) (Float.of_int one, Float.zero);
     counts := replicate cells 0;
     float := float; prod := prod;
     skip_nan := bool_decide (function = NanSum \/ function = NanMean) |}.

Definition add_float (prod : bool) (re im : f64) (acc : f64 * f64) : f64 * f64 :=
  if prod
  then (Float.sub (Float.mul acc.1 re) (Float.mul acc.2 im),
        Float.add (Float.mul acc.1 im) (Float.mul acc.2 re))
  else (Float.add acc.1 re, Float.add acc.2 im).

Definition add_int (prod : bool) (v acc : Z) : Z := if prod then acc *w v else acc +w v.

Definition push `{Elem T} (a : t) (cell : nat) (pos : Z) (x : T) : result AexError t :=
  let counted ints floats :=
    counts ← update cell (fun n => n +w 1) (counts a);
    Ok {| ints := ints; floats := floats; counts := counts;
          float := float a; prod := prod a; skip_nan := skip_nan a |} in
  if float a then
    if skip_nan a && is_nan x then Ok a
    else
      floats ← update cell (add_float (prod a) (parts x).1 (parts x).2) (floats a);
      counted (ints a) floats
  else
    v ← int_bits x;
    ints ← update cell (add_int (prod a) v) (ints a);
    counted ints (floats a).

Definition finish `{HalfNum} (a : t) (out : DType) : result AexError bytes :=
  fs ← mapM (fun '(re, im) => write_float out re im) (floats a);
  Ok (concat fs ++ (ints a ≫= to_le_bytes 8)).

Definition finish_mean `{HalfNum} (a : t) (out : DType) : result AexError bytes :=
  @concat Z <$> mapM (fun '((re, im), n) =>
    write_float out (Float.div re (Float.of_int n)) (Float.div im (Float.of_int n)))
    (zip (floats a) (counts a)).
End SumAcc.
#[export] Instance sum_acc `{Elem T} : Acc T SumAcc.t := SumAcc.push.

(** Variance by Welford's update. *)
Module VarAcc.
Definition t : Type := list (Z * f64 * f64 * f64).

Definition new (cells : nat) : t := replicate cells (0, Float.zero, Float.zero, Float.zero).

Definition welford (re im : f64) (s : Z * f64 * f64 * f64) : Z * f64 * f64 * f64 :=
  let '(n, mr, mi, m2) := s in
  let n := n +w 1 in
  let dr := Float.sub re mr in
  let di := Float.sub im mi in
  let mr := Float.add mr (Float.div dr (Float.of_int n)) in
  let mi := Float.add mi (Float.div di (Float.of_int n)) in
  (n, mr, mi,
   Float.add m2 (Float.add (Float.mul dr (Float.sub re mr)) (Float.mul di (Float.sub im mi)))).

Definition push `{Elem T} (a : t) (cell : nat) (pos : Z) (x : T) : result AexError t :=
  update cell (welford (parts x).1 (parts x).2) a.

Definition finish `{HalfNum} (a : t) (walk : Walk) (sqrt : bool) : result AexError bytes :=
  @concat Z <$> mapM (fun '(n, _, _, m2) =>
    let dof := Float.of_int (Z.max (as_i64 (as_i64 n - w_ddof walk)) 0) in
    let var := Float.div m2 dof in
    write_float (out walk) (if sqrt then Float.sqrt var else var) Float.zero) a.
End VarAcc.
#[export] Instance var_acc `{Elem T} : Acc T VarAcc.t := VarAcc.push.

(** max, min and their NaN-ignoring forms. *)
Module Extreme.
Record t (T : Type) : Type := { best : list (option T); max : bool; skip_nan : bool }.
Arguments best {T} _.
Arguments max {T} _.
Arguments skip_nan {T} _.

Definition new {T} (cells : nat) (function : Function) : t T :=
  {| best := replicate cells None;
     max := bool_decide (function = Max \/ function = NanMax);
     skip_nan := bool_decide (function = NanMax \/ function = NanMin) |}.

Definition better `{Elem T} (max skip_nan : bool) (x : T) (slot : option T) : option T :=
  match slot with
  | None => Some x
  | Some acc =>
      let keep := if max then e_ge acc x else e_le acc x in
      let keep := if skip_nan then is_nan x || keep else is_nan acc || keep in
      if keep then slot else Some x
  end.

Definition push `{Elem T} (a : t T) (cell : nat) (pos : Z) (x : T) : result AexError (t T) :=
  best ← update cell (better (max a) (skip_nan a) x) (best a);
  Ok {| best := best; max := max a; skip_nan := skip_nan a |}.

Definition finish `{Elem T} (a : t T) : result AexError bytes :=
  @concat Z <$> mapM (fun slot => x ← expect slot; Ok (e_write x)) (best a).
End Extreme.
#[export] Instance extreme_acc `{Elem T} : Acc T (Extreme.t T) := Extreme.push.

(** argmax and argmin: the first extreme, or the first NaN. *)
Module Arg.
Record t (T : Type) : Type := { best : list (option (T * Z * bool)); max : bool }.
Arguments best {T} _.
Arguments max {T} _.

Definition new {T} (cells : nat) (max : bool) : t T :=
  {| best := replicate cells None; max := max |}.

Definition better `{Elem T} (max : bool) (pos : Z) (x : T) (slot : option (T * Z * bool))
    : option (T * Z * bool) :=
  match slot with
  | None => Some (x, pos, is_nan x)
  | Some (_, _, true) => slot
  | Some (best, _, false) =>
      if (if max then arg_gt x best else arg_lt x best) then Some (x, pos, is_nan x) else slot
  end.

Definition push `{Elem T} (a : t T) (cell : nat) (pos : Z) (x : T) : result AexError (t T) :=
  best ← update cell (better (max a) pos x) (best a);
  Ok {| best := best; max := max a |}.

Definition finish {T} (a : t T) : result AexError bytes :=
  @concat Z <$> mapM (fun slot => '(_, pos, _) ← expect slot; Ok (to_le_bytes 8 pos)) (best a).
End Arg.
#[export] Instance arg_acc `{Elem T} : Acc T (Arg.t T) := Arg.push.

Module Logic.
Definition t : Type := list bool * bool.

Definition new (cells : nat) (all : bool) : t := (replicate cells all, all).

Definition push `{Elem T} (a : t) (cell : nat) (pos : Z) (x : T) : result AexError t :=
  done ← update cell (fun b => if a.2 then b && truthy x else b || truthy x) a.1;
  Ok (done, a.2).

(** [u8::from] of each cell. *)
Definition finish (a : t) : bytes := (fun b : bool => if b then 1 else 0) <$> a.1.
End Logic.
#[export] Instance logic_acc `{Elem T} : Acc T Logic.t := Logic.push.

(** ** The walk *)

(** [buf.chunks_exact(size)]: [n] chunks of them. *)
Fixpoint chunks_exact (size n : nat) (b : bytes) : list bytes :=
  match n with
  | O => []
  | S n' => take size b :: chunks_exact size n' (drop size b)
  end.

(** [for d in (0..ndim).rev()]: the index moved to the next element, the cell with it. *)
Fixpoint advance (walk : Walk) (d : nat) (idx : list Z) (cell : Z)
    : result AexError (list Z * Z) :=
  match d with
  | O => Ok (idx, cell)
  | S d =>
      i ← expect (idx !! d);
      step ← expect (stride walk !! d);
      len ← expect (w_shape walk !! d);
      let cell := cell +w step in
      if i +w 1 <? len then Ok (<[d := i +w 1]> idx, cell)
      else advance walk d (<[d := 0]> idx) (cell -w (step *w len))
  end.

Section Fold.
Context `{Elem T, Acc T A, ArrayDataset D}.

Record FoldState : Type := { acc : A; idx : list Z; cell : Z; flat : Z }.

(** One element fed to the accumulator. *)
Definition feed (walk : Walk) (s : FoldState) (b : bytes) : result AexError FoldState :=
  pos ← match pos_axis walk with None => Ok (flat s) | Some a => expect (idx s !! a) end;
  acc ← push (acc s) (Z.to_nat (cell s)) pos (e_read b);
  '(idx, cell) ← advance walk (length (w_shape walk)) (idx s) (cell s);
  Ok {| acc := acc; idx := idx; cell := cell; flat := flat s +w 1 |}.

(** [while offset < layout.total_bytes]. *)
Fixpoint fold_loop (fuel : nat) (dataset : D) (layout : SelectionLayout) (walk : Walk) (block : Z)
    (buf : bytes) (offset : Z) (s : FoldState) : result AexError FoldState :=
  if offset <? total_bytes layout then
    match fuel with
    | O => Panic
    | S fuel' =>
        let len := Z.min (total_bytes layout - offset) block in
        dst ← slice_checked 0 len buf;
        got ← ds_read_range dataset layout offset dst;
        s ← mfold (feed walk) s (chunks_exact SIZE (length got / SIZE) got);
        fold_loop fuel' dataset layout walk block (splice 0 got buf) (offset +w len) s
    end
  else Ok s.

(** Feed every element of the selection to [acc]. *)
Definition fold (dataset : D) (layout : SelectionLayout) (walk : Walk) (a : A)
    : result AexError A :=
  let block := BLOCK_BYTES / Z.of_nat SIZE * Z.of_nat SIZE in
  let buf := replicate (Z.to_nat (Z.min block (total_bytes layout))) 0 in
  let start := {| acc := a; idx := replicate (length (w_shape walk)) 0; cell := 0; flat := 0 |} in
  s ← fold_loop (Z.to_nat (div_ceil (total_bytes layout) block)) dataset layout walk block buf 0 start;
  Ok (acc s).
End Fold.
Arguments FoldState : clear implicits.

Section Reduce.
Context `{HalfNum, ArrayDataset D}.

Definition run {T} (E : Elem T) (dataset : D) (layout : SelectionLayout) (function : Function)
    (walk : Walk) : result AexError bytes :=
  let cells := Z.to_nat (cells walk) in
  match function with
  | Sum | Prod | NanSum =>
      a ← fold (T:=T) dataset layout walk (SumAcc.new (FLOAT (T:=T)) cells function); SumAcc.finish a (out walk)
  | Mean | NanMean =>
      a ← fold (T:=T) dataset layout walk (SumAcc.new (FLOAT (T:=T)) cells function); SumAcc.finish_mean a (out walk)
  | Var | Std =>
      a ← fold (T:=T) dataset layout walk (VarAcc.new cells);
      VarAcc.finish a walk (bool_decide (function = Std))
  | Max | Min | NanMax | NanMin =>
      a ← fold (T:=T) dataset layout walk (Extreme.new (T:=T) cells function); Extreme.finish (T:=T) a
  | Argmax | Argmin =>
      a ← fold (T:=T) dataset layout walk (Arg.new (T:=T) cells (bool_decide (function = Argmax)));
      Arg.finish (T:=T) a
  | All | Any =>
      a ← fold (T:=T) dataset layout walk (Logic.new cells (bool_decide (function = All)));
      Ok (Logic.finish a)
  end.

(** [by_dtype!]. *)
Definition by_dtype (dataset : D) (layout : SelectionLayout) (function : Function) (walk : Walk)
    : result AexError bytes :=
  match l_dtype layout with
  | Bool => run bool_elem dataset layout function walk
  | Int8 => run (int_elem 1 true) dataset layout function walk
  | Int16 => run (int_elem 2 true) dataset layout function walk
  | Int32 => run (int_elem 4 true) dataset layout function walk
  | Int64 => run (int_elem 8 true) dataset layout function walk
  | Uint8 => run (int_elem 1 false) dataset layout function walk
  | Uint16 => run (int_elem 2 false) dataset layout function walk
  | Uint32 => run (int_elem 4 false) dataset layout function walk
  | Uint64 => run (int_elem 8 false) dataset layout function walk
  | Float16 => run f16_elem dataset layout function walk
  | Float32 => run f32_elem dataset layout function walk
  | Float64 => run f64_elem dataset layout function walk
  | Complex64 => run c32_elem dataset layout function walk
  | Complex128 => run c64_elem dataset layout function walk
  end.

(** Reduce the selection [layout] of [dataset], refusing a result over [max_bytes]. *)
Definition reduce (dataset : D) (layout : SelectionLayout) (function : Function)
    (args : ReduceArgs) (max_bytes : Z) : result AexError Reduced :=
  let shape := l_out_shape layout in
  reduced ← reduced_axes (length shape) (axis args) function;
  let '(stride, cells) := strides shape reduced in
  let out_shape := reduced_shape (keepdims args) shape reduced in
  let per_cell := foldl wmul 1 (lengths id shape reduced) in
  let dtype := Function.result_dtype function (l_dtype layout) in
  let bytes := saturating_mul cells (DType.itemsize dtype) in
  if max_bytes <? bytes then Err BadFunction
  else if (per_cell =? 0) && (0 <? cells) && Function.needs_an_element function then Err BadFunction
  else
    let walk :=
      {| w_shape := shape; stride := stride;
         pos_axis := match axis args with
                     | One _ => fst <$> list_find Is_true reduced
                     | _ => None
                     end;
         cells := cells; w_ddof := ddof args; out := dtype |} in
    data ← by_dtype dataset layout function walk;
    Ok {| r_dtype := dtype; r_shape := out_shape; r_data := data |}.
End Reduce.
