(* ===== verification/ReduceSpec.v ===== *)
(** What a reduction computes: the axes as numpy takes them, the cell of each element, and
    the result of every function as a reference over the elements of a cell in C order. *)
From stdpp Require Import sets.
From S2P Require Import Prelude Errors Dtype Bytes Quality Selection SelectionSpec Cast Layout LayoutSpec Backend Reduce.

(** ** Axes *)

(** An axis counted from the end when negative. *)
Definition norm_axis (ndim : nat) (a : Z) : Z := if a <? 0 then a + Z.of_nat ndim else a.

Definition axis_ok (ndim : nat) (a : Z) : Prop := 0 <= norm_axis ndim a < Z.of_nat ndim.
#[export] Instance axis_ok_dec ndim a : Decision (axis_ok ndim a).
Proof. unfold axis_ok. apply _. Defined.

(** What numpy makes of a tuple of axes. *)
Definition numpy_axes (ndim : nat) (axes : list Z) : result AexError (list bool) :=
  if decide (Forall (axis_ok ndim) axes /\ NoDup (norm_axis ndim <$> axes))
  then Ok ((fun d => bool_decide (d ∈ norm_axis ndim <$> axes)) <$> seqZ 0 (Z.of_nat ndim))
  else Err BadFunction.

Lemma lookup_flags {A} (f : Z -> A) (n i : nat) :
  (i < n)%nat -> (f <$> seqZ 0 (Z.of_nat n)) !! i = Some (f (Z.of_nat i)).
Proof. intros. rewrite list_lookup_fmap, lookup_seqZ_lt by lia. cbn. do 2 f_equal. Qed.

(** The flags after [done] was marked. *)
Definition marks (ndim : nat) (done : list Z) : list bool :=
  (fun d => bool_decide (d ∈ done)) <$> seqZ 0 (Z.of_nat ndim).

Lemma marks_insert ndim done d :
  0 <= d < Z.of_nat ndim -> <[Z.to_nat d := true]> (marks ndim done) = marks ndim (done ++ [d]).
Proof.
  intros Hd. apply list_eq. intros i. destruct (decide (i < ndim)%nat).
  - unfold marks. rewrite (lookup_flags _ _ i) by done. destruct (decide (i = Z.to_nat d)) as [->|].
    + rewrite list_lookup_insert_eq by (rewrite length_fmap, length_seqZ; lia).
      rewrite Z2Nat.id by lia. symmetry. f_equal. apply bool_decide_eq_true. set_solver.
    + rewrite list_lookup_insert_ne, lookup_flags by done. f_equal. apply bool_decide_ext.
      rewrite elem_of_app, list_elem_of_singleton. intuition lia.
  - unfold marks. rewrite !lookup_ge_None_2; [done|..]; rewrite ?length_insert, ?length_fmap, ?length_seqZ; lia.
Qed.

Lemma mark_axis_spec ndim done a :
  mark_axis ndim (marks ndim done) a =
  if decide (axis_ok ndim a /\ norm_axis ndim a ∉ done)
  then Ok (marks ndim (done ++ [norm_axis ndim a])) else Err BadFunction.
Proof.
  unfold mark_axis, axis_ok. fold (norm_axis ndim a). set (d := norm_axis ndim a). cbv zeta.
  destruct (Z.ltb_spec d 0); [by rewrite decide_False by lia|].
  destruct (Z.leb_spec (Z.of_nat ndim) d); [by rewrite decide_False by lia|]. cbn [orb].
  assert (marks ndim done !! Z.to_nat d = Some (bool_decide (d ∈ done))) as ->.
  { unfold marks. rewrite lookup_flags by lia. by rewrite Z2Nat.id by lia. }
  cbn [expect mbind result_bind]. case_bool_decide as Hin.
  - by rewrite decide_False by tauto.
  - rewrite decide_True by (split; [lia|done]). by rewrite marks_insert by lia.
Qed.

Lemma mark_axes_spec ndim done axes :
  NoDup done ->
  mfold (mark_axis ndim) (marks ndim done) axes =
  if decide (Forall (axis_ok ndim) axes /\ NoDup (done ++ (norm_axis ndim <$> axes)))
  then Ok (marks ndim (done ++ (norm_axis ndim <$> axes))) else Err BadFunction.
Proof.
  revert done. induction axes as [|a axes IH]; intros done Hnd; cbn [mfold].
  - cbn. rewrite app_nil_r, decide_True by done. done.
  - rewrite mark_axis_spec, fmap_cons. set (d := norm_axis ndim a) in *.
    case_decide as Hok; cbn [mbind result_bind].
    + rewrite IH by (apply NoDup_app; split; [done|]; split; [set_solver|apply NoDup_singleton]).
      rewrite <- app_assoc. apply decide_ext. rewrite Forall_cons. tauto.
    + rewrite decide_False; [done|]. rewrite Forall_cons. intros [[Ha _] Hn]. apply Hok. split; [done|]. intros Hin.
      apply NoDup_app in Hn as (_ & Hn & _). apply (Hn d); [done|by left].
Qed.

(** The axes a reduction takes are numpy's: all of them when none is named; one or
    several counted from either end, refused when out of bounds, named twice, or a tuple
    for argmax and argmin. *)
Theorem axes_like_numpy ndim ax f :
  reduced_axes ndim ax f =
  match ax with
  | AllAxes => Ok (replicate ndim true)
  | One a => numpy_axes ndim [a]
  | Many axes => if decide (f = Argmax \/ f = Argmin) then Err BadFunction else numpy_axes ndim axes
  end.
Proof.
  assert (forall axes, mfold (mark_axis ndim) (replicate ndim false) axes = numpy_axes ndim axes) as Hm.
  { intros axes. replace (replicate ndim false) with (marks ndim []).
    - by apply (mark_axes_spec ndim []), NoDup_nil.
    - symmetry. apply replicate_as_elem_of. unfold marks. split; [rewrite length_fmap, length_seqZ; lia|].
      intros b (d & -> & _)%list_elem_of_fmap. done. }
  unfold reduced_axes. destruct ax as [|a|axes]; [done|apply Hm|]. rewrite Hm.
  by destruct f.
Qed.

(** ** Cells *)

(** The cell an element of these coordinates belongs to: the number of its kept ones. *)
Definition cell_of (shape : list Z) (reduced : list bool) (idx : list Z) : Z :=
  ravel (lengths negb shape reduced) (lengths negb idx reduced).

Fixpoint dot (stride idx : list Z) : Z :=
  match stride, idx with s :: stride', i :: idx' => s * i + dot stride' idx' | _, _ => 0 end.

Lemma in_shape_kept shape reduced idx :
  in_shape shape idx -> in_shape (lengths negb shape reduced) (lengths negb idx reduced).
Proof.
  intros Hin. revert reduced. induction Hin as [|n i shape idx Hi Hin IH]; intros [|r reduced]; cbn; try constructor.
  destruct r; cbn; [apply IH|constructor; [done|apply IH]].
Qed.

Lemma kept_zprod shape reduced :
  Forall (fun n => 0 < n) shape -> 0 < zprod (lengths negb shape reduced) <= zprod shape.
Proof.
  intros Hs. revert reduced. induction Hs as [|n shape Hn Hs IH]; intros [|r reduced]; cbn [lengths zprod]; try lia.
  - pose proof (zprod_pos _ Hs). cbn. nia.
  - pose proof (zprod_pos _ Hs). destruct r; cbn; specialize (IH reduced); nia.
Qed.

Lemma length_strides shape reduced : length reduced = length shape -> length (strides shape reduced).1 = length shape.
Proof.
  revert reduced. induction shape as [|n shape IH]; intros [|r reduced] Hl; cbn in *; try lia.
  specialize (IH reduced ltac:(lia)). destruct (strides shape reduced) as [st c]. cbn in IH.
  destruct r; cbn; lia.
Qed.

Lemma strides_cells shape reduced :
  (strides shape reduced).2 = u64 (zprod (lengths negb shape reduced)).
Proof.
  revert reduced. induction shape as [|n shape IH]; intros [|r reduced]; try done. cbn.
  specialize (IH reduced). destruct (strides shape reduced) as [st c]. cbn in IH. subst c.
  destruct r; cbn; [done|]. word_norm. by rewrite Z.mul_comm.
Qed.

(** The strides number the cells, as long as the numbers fit. *)
Lemma dot_strides shape reduced idx :
  length reduced = length shape -> in_shape shape idx -> zprod shape < two64 ->
  dot (strides shape reduced).1 idx = cell_of shape reduced idx.
Proof.
  intros Hl Hin. revert reduced Hl. induction Hin as [|n i shape idx Hi Hin IH]; intros [|r reduced] Hl Hlt; try done.
  cbn in Hl, Hlt. pose proof (in_shape_pos _ _ Hin) as Hpos. pose proof (zprod_pos _ Hpos).
  specialize (IH reduced ltac:(lia) ltac:(nia)). pose proof (kept_zprod _ reduced Hpos).
  pose proof (strides_cells shape reduced) as Hc. unfold cell_of. cbn.
  destruct (strides shape reduced) as [st c]. cbn in IH, Hc. rewrite u64_id in Hc by (unfold is_u64; nia).
  unfold cell_of in IH. destruct r; cbn; lia.
Qed.

(** ** The odometer *)

(** The coordinates after [idx], and whether they started over. *)
Fixpoint next (shape idx : list Z) : list Z * bool :=
  match shape, idx with
  | n :: shape', i :: idx' =>
      let '(idx', carry) := next shape' idx' in
      if carry then (if i + 1 <? n then (i + 1 :: idx', false) else (0 :: idx', true))
      else (i :: idx', false)
  | _, _ => ([], true)
  end.

Lemma next_snoc shape n idx i :
  length shape = length idx ->
  next (shape ++ [n]) (idx ++ [i]) =
  if i + 1 <? n then (idx ++ [i + 1], false)
  else ((next shape idx).1 ++ [0], (next shape idx).2).
Proof.
  revert idx. induction shape as [|m shape IH]; intros [|j idx] Hl; cbn in Hl; try lia; cbn.
  - by destruct (i + 1 <? n).
  - rewrite IH by lia. destruct (i + 1 <? n); [done|]. destruct (next shape idx) as [idx' carry]. cbn.
    destruct carry; [|done]. by destruct (j + 1 <? m).
Qed.

Lemma next_unravel shape k :
  Forall (fun n => 0 < n) shape ->
  let '(idx, rest) := unravel shape k in
  let '(idx', rest') := unravel shape (k + 1) in
  let '(idx'', carry) := next shape idx in
  idx' = idx'' /\ rest' = rest + (if carry then 1 else 0).
Proof.
  induction 1 as [|n shape Hn _ IH]; cbn; [done|].
  destruct (unravel shape k) as [idx r], (unravel shape (k + 1)) as [idx' r'].
  destruct (next shape idx) as [idx'' carry]. destruct IH as [-> ->].
  destruct carry; [|by rewrite !Z.add_0_r].
  div_mod r n. destruct (Z.ltb_spec (r mod n + 1) n) as [Hlt|Hge].
  - assert (r + 1 = n * (r / n) + (r mod n + 1)) as E by lia.
    assert ((r + 1) / n = r / n) as -> by (symmetry; apply (Z.div_unique_pos _ n _ (r mod n + 1)); lia).
    assert ((r + 1) mod n = r mod n + 1) as -> by (symmetry; apply (Z.mod_unique_pos _ n (r / n)); lia).
    split; [done|lia].
  - assert ((r + 1) / n = r / n + 1) as -> by (symmetry; apply (Z.div_unique_pos _ n _ 0); lia).
    assert ((r + 1) mod n = 0) as -> by (symmetry; apply (Z.mod_unique_pos _ n (r / n + 1)); lia). done.
Qed.

Lemma dot_snoc st s idx i : length st = length idx -> dot (st ++ [s]) (idx ++ [i]) = dot st idx + s * i.
Proof. revert idx. induction st as [|x st IH]; intros [|j idx] Hl; cbn in *; try lia. rewrite IH; lia. Qed.

Lemma lookup_snoc_app {A} (l : list A) x k d : length l = d -> ((l ++ [x]) ++ k) !! d = Some x.
Proof. intros <-. rewrite <- app_assoc. cbn [app]. by rewrite list_lookup_middle. Qed.

Lemma insert_mid {A} (l : list A) x y k d : length l = d -> <[d := y]> ((l ++ [x]) ++ k) = (l ++ [y]) ++ k.
Proof.
  intros <-. rewrite <- !app_assoc. rewrite <- (Nat.add_0_r (length l)) at 1. by rewrite insert_app_r.
Qed.

Lemma advance_spec walk shape idx st ks ki kt c :
  w_shape walk = shape ++ ks -> stride walk = st ++ kt -> length st = length shape ->
  in_shape shape idx -> Forall is_u64 shape ->
  advance walk (length shape) (idx ++ ki) c =
  Ok ((next shape idx).1 ++ ki, if decide (shape = []) then c else u64 (c + dot st (next shape idx).1 - dot st idx)).
Proof.
  revert idx st ks ki kt c. induction shape as [|n shape IH] using rev_ind; intros idx st ks ki kt c Hs Ht Hl Hin Hw.
  { apply Forall2_length in Hin. by destruct idx. }
  rewrite decide_False by (by destruct shape).
  destruct st as [|s st _] using rev_ind; [rewrite length_app in Hl; cbn in Hl; lia|].
  apply Forall2_app_inv_l in Hin as (idx1 & idx2 & Hin1 & Hin2 & ->).
  apply Forall2_cons_inv_l in Hin2 as (i & nil & Hi & Hnil & ->). apply Forall2_nil_inv_l in Hnil as ->.
  apply Forall_app in Hw as [Hw Hn]. apply Forall_inv in Hn. unfold is_u64 in Hn.
  rewrite !length_app in *. cbn in Hl. pose proof (Forall2_length _ _ _ Hin1) as Hl1.
  replace (length shape + length [n])%nat with (S (length shape)) by (cbn; lia). cbn [advance].
  rewrite Hs, Ht. rewrite !lookup_snoc_app by lia. cbn [expect mbind result_bind].
  rewrite next_snoc by done. rewrite (wadd_small i 1) by (unfold is_u64; lia).
  destruct (Z.ltb_spec (i + 1) n) as [Hlt|Hge]; rewrite insert_mid by lia; cbn [fst].
  - do 2 f_equal. word_norm. rewrite !dot_snoc by lia. f_equal. lia.
  - rewrite <- app_assoc. rewrite (IH idx1 st ([n] ++ ks) ([0] ++ ki) ([s] ++ kt)); [|by rewrite Hs, app_assoc|by rewrite Ht, app_assoc|lia|done|done].
    rewrite <- app_assoc. do 2 f_equal.
    assert (length (next shape idx1).1 = length shape) as Hln.
    { clear -Hl1. revert idx1 Hl1. induction shape as [|m shape IH]; intros [|j idx] Hl; cbn in *; try done.
      specialize (IH idx ltac:(lia)). destruct (next shape idx) as [l []]; cbn in *; [|lia].
      destruct (j + 1 <? m); cbn; lia. }
    rewrite !dot_snoc by lia. word_norm. replace n with (i + 1) by lia. case_decide as He.
    + subst shape. destruct idx1; [|done]. destruct st; [|cbn in Hl; lia]. cbn [dot next fst]. f_equal. lia.
    + rewrite <- Z.add_sub_assoc, u64_add_l. f_equal. lia.
Qed.

Lemma unravel_zero s : unravel s 0 = (replicate (length s) 0, 0).
Proof. induction s as [|m s IH]; cbn; [done|]. rewrite IH. by destruct m. Qed.

Lemma dot_zero st m : dot st (replicate m 0) = 0.
Proof. revert m. induction st as [|x st IH]; intros [|m]; [done..|]. cbn. rewrite IH. lia. Qed.

(** ** Every element once *)

Section Walked.
Context {T A D : Type} `{Elem T, Acc T A, ArrayDataset D}.
Context (d : D) (l : SelectionLayout) (walk : Walk) (stream : bytes).
#[local] Abbreviation shape := (w_shape walk).
#[local] Abbreviation n := (zprod (w_shape walk)).
Context (Hsize : (0 < SIZE (T:=T) <= 16)%nat).
Context (Htotal : total_bytes l = n * Z.of_nat (SIZE (T:=T))) (Hfits : total_bytes l < two64).
Context (Hstream : total_bytes l <= zlen stream).
Context (Hread : forall offset (dst : bytes), 0 <= offset -> offset + zlen dst <= total_bytes l ->
  is_u64 offset -> is_u64 (zlen dst) -> ds_read_range d l offset dst = Ok (slice offset (zlen dst) stream)).
Context (Hshape : Forall (fun m => 0 <= m) (w_shape walk)).
Context (Hstride : length (stride walk) = length (w_shape walk)).
Context (Hpos : forall a, pos_axis walk = Some a -> (a < length (w_shape walk))%nat).

(** The coordinates of element [k], its cell, its position and itself. *)
Definition coords_at (k : Z) : list Z := (unravel (w_shape walk) k).1.
Definition cell_at (k : Z) : Z := u64 (dot (stride walk) (coords_at k)).
Definition pos_at (k : Z) : Z :=
  match pos_axis walk with None => k | Some a => coords_at k !!! a end.
Definition bytes_at (k : Z) : bytes := slice (k * Z.of_nat (SIZE (T:=T))) (Z.of_nat (SIZE (T:=T))) stream.
Definition elem_at (k : Z) : T := e_read (bytes_at k).

Definition push_at (a : A) (k : Z) : result AexError A :=
  push a (Z.to_nat (cell_at k)) (pos_at k) (elem_at k).
Definition state_at (a : A) (k : Z) : FoldState A :=
  {| acc := a; idx := coords_at k; cell := cell_at k; flat := k |}.

Lemma positive_axes : 0 < n -> Forall (fun m => 0 < m) shape.
Proof.
  clear -Hshape. induction Hshape as [|m s Hm Hs IH]; cbn; intros Hz; [constructor|].
  pose proof (zprod_nonneg _ Hs). assert (m <> 0) by (intros ->; lia).
  assert (zprod s <> 0) by (intros E; rewrite E in Hz; lia). constructor; [lia|apply IH; [done|lia]].
Qed.

Lemma n_fits : n < two64.
Proof. pose proof (zprod_nonneg _ Hshape). nia. Qed.

Lemma axes_fit : 0 < n -> Forall is_u64 shape.
Proof.
  intros Hn. pose proof (positive_axes Hn) as Hp. pose proof n_fits as Hlt. clear -Hp Hlt.
  induction Hp as [|m s Hm Hs IH]; cbn in Hlt; [constructor|].
  pose proof (zprod_pos _ Hs). constructor; [unfold is_u64; nia|apply IH; nia].
Qed.

Lemma coords_in k : 0 < n -> 0 <= k -> in_shape shape (coords_at k).
Proof.
  intros Hn Hk. pose proof (unravel_spec shape k (positive_axes Hn) Hk) as Hu. unfold coords_at.
  destruct (unravel shape k). by destruct Hu.
Qed.

Lemma coords_next k : 0 < n -> (next shape (coords_at k)).1 = coords_at (k + 1).
Proof.
  intros Hn. pose proof (next_unravel shape k (positive_axes Hn)) as Hu. unfold coords_at.
  destruct (unravel shape k), (unravel shape (k + 1)); cbn [fst]. destruct (next shape _). by destruct Hu.
Qed.

Lemma feed_spec a k :
  0 <= k < n ->
  feed walk (state_at a k) (bytes_at k) = (a ← push_at a k; Ok (state_at a (k + 1))).
Proof.
  intros Hk. pose proof (coords_in k ltac:(lia) ltac:(lia)) as Hin. pose proof (Forall2_length _ _ _ Hin) as Hl.
  pose proof n_fits as Hn64. unfold feed. cbn [acc idx cell flat state_at].
  assert ((match pos_axis walk with Some b => expect (coords_at k !! b) | None => Ok k end) = Ok (E:=AexError) (pos_at k)) as ->.
  { unfold pos_at. destruct (pos_axis walk) as [b|] eqn:Hb; [|done]. specialize (Hpos _ eq_refl).
    by rewrite (list_lookup_lookup_total_lt _ b) by lia. }
  cbn [mbind result_bind]. fold (elem_at k). unfold push_at at 1.
  destruct (push a _ _ _) as [a'| |]; [|done..]. cbn [mbind result_bind].
  pose proof (advance_spec walk shape (coords_at k) (stride walk) [] [] [] (cell_at k)) as Hadv.
  rewrite !app_nil_r in Hadv. rewrite (Hadv eq_refl eq_refl Hstride Hin (axes_fit ltac:(lia))).
  cbn [mbind result_bind]. unfold state_at. rewrite wadd_small by (unfold is_u64; lia). do 2 f_equal.
  - apply coords_next. lia.
  - rewrite coords_next by lia. unfold cell_at. case_decide as He.
    + unfold coords_at. by rewrite He.
    + rewrite <- Z.add_sub_assoc, u64_add_l. f_equal. lia.
Qed.

Lemma feed_all a k m :
  0 <= k -> 0 <= m -> k + m <= n ->
  mfold (feed walk) (state_at a k) (bytes_at <$> seqZ k m) =
  (a ← mfold push_at a (seqZ k m); Ok (state_at a (k + m))).
Proof.
  intros Hk Hm. revert a k Hk. pattern m. apply natlike_ind; [| |done]; clear m Hm.
  - intros a k Hk _. cbn. by rewrite Z.add_0_r.
  - intros m Hm IH a k Hk Hle. rewrite seqZ_cons by lia. rewrite Z.pred_succ, fmap_cons. cbn [mfold].
    rewrite feed_spec by lia. destruct (push_at a k) as [a'| |]; [|done..]. cbn [mbind result_bind].
    rewrite IH by lia. by replace (k + Z.succ m) with (Z.succ k + m) by lia.
Qed.

#[local] Abbreviation size := (Z.of_nat (SIZE (T:=T))).

Lemma block_chunks_spec k m :
  0 <= k -> (k + Z.of_nat m) * size <= zlen stream ->
  chunks_exact (SIZE (T:=T)) m (slice (k * size) (Z.of_nat m * size) stream) = bytes_at <$> seqZ k (Z.of_nat m).
Proof.
  revert k. induction m as [|m IH]; intros k Hk Hle; [done|].
  rewrite seqZ_cons by lia. rewrite fmap_cons. cbn [chunks_exact].
  replace (Z.of_nat (S m) * size) with (size + Z.of_nat m * size) by lia.
  rewrite slice_split by lia.
  assert (length (slice (k * size) size stream) = SIZE (T:=T)) as Hl.
  { apply Nat2Z.inj. apply length_slice; nia. }
  rewrite take_app_length', drop_app_length' by done. f_equal.
  replace (k * size + size) with ((Z.succ k) * size) by lia.
  replace (Z.pred (Z.of_nat (S m))) with (Z.of_nat m) by lia. apply IH; lia.
Qed.

Lemma fold_loop_spec fuel b buf a k :
  0 < b -> 0 <= k <= n -> n - k <= Z.of_nat fuel * b ->
  zlen buf = Z.min (b * size) (total_bytes l) ->
  fold_loop fuel d l walk (b * size) buf (k * size) (state_at a k) =
  (a ← mfold push_at a (seqZ k (n - k)); Ok (state_at a n)).
Proof.
  intros Hb. revert buf a k. induction fuel as [|fuel IH]; intros buf a k Hk Hf Hbuf; cbn [fold_loop]; rewrite Htotal in Hbuf |- *.
  - assert (k = n) as -> by lia. by rewrite Z.ltb_irrefl, Z.sub_diag.
  - destruct (Z.ltb_spec (k * size) (n * size)) as [Hlt|Hge].
    2: { assert (k = n) as -> by nia. by rewrite Z.sub_diag. }
    assert (k < n) as Hkn by nia. set (m := Z.min (n - k) b).
    assert (Z.min (n * size - k * size) (b * size) = m * size) as -> by (unfold m; nia).
    assert (0 < m) as Hm by (unfold m; lia).
    assert (m * size <= zlen buf) as Hmb by (rewrite Hbuf; unfold m; nia).
    rewrite slice_ok by nia. cbn [mbind result_bind].
    assert (zlen (slice 0 (m * size) buf) = m * size) as Hl1 by (apply length_slice; nia).
    assert ((k + m) * size <= n * size) as Hkm by (unfold m; nia).
    rewrite Hread by (rewrite ?Hl1; unfold is_u64; nia). rewrite Hl1. cbn [mbind result_bind].
    assert (zlen (slice (k * size) (m * size) stream) = m * size) as Hl2 by (apply length_slice; nia).
    assert (length (slice (k * size) (m * size) stream) / SIZE (T:=T) = Z.to_nat m)%nat as ->.
    { apply Nat2Z.inj. rewrite Nat2Z.inj_div, Hl2, Z.div_mul by lia. lia. }
    replace (m * size) with (Z.of_nat (Z.to_nat m) * size) at 1 by lia. rewrite block_chunks_spec by nia.
    rewrite feed_all by (unfold m; lia). rewrite Z2Nat.id by lia.
    replace (n - k) with (m + (n - (k + m))) at 1 by lia. rewrite seqZ_split, mfold_app by (unfold m; lia).
    destruct (mfold push_at a (seqZ k m)) as [a'| |]; [|done..]. cbn [mbind result_bind].
    rewrite wadd_small by (unfold is_u64; nia). replace (k * size + m * size) with ((k + m) * size) by lia.
    apply IH; [unfold m; lia|unfold m; lia|]. rewrite length_splice by lia. by rewrite Htotal.
Qed.

(** Whatever the accumulator, every element is pushed once, in order. *)
Lemma fold_stream_spec a : fold (T:=T) d l walk a = mfold push_at a (seqZ 0 n).
Proof.
  unfold fold. set (b := BLOCK_BYTES / size). assert (0 < b) as Hb.
  { unfold b, BLOCK_BYTES. apply Z.div_str_pos. split; [lia|]. change (Z.shiftl 4 20) with 4194304. lia. }
  pose proof (zprod_nonneg _ Hshape).
  assert (coords_at 0 = replicate (length shape) 0) as Hc by (unfold coords_at; by rewrite unravel_zero).
  assert (cell_at 0 = 0) as Hcell by (unfold cell_at; by rewrite Hc, dot_zero).
  assert ({| acc := a; idx := replicate (length shape) 0; cell := 0; flat := 0 |} = state_at a 0) as ->
    by (unfold state_at; by rewrite Hcell, Hc).
  change 0 with (0 * size) at 2. rewrite fold_loop_spec.
  - rewrite Z.sub_0_r. by destruct (mfold _ _ _).
  - done.
  - lia.
  - assert (0 < b * size) by nia. pose proof (div_ceil_spec (total_bytes l) (b * size)). rewrite Htotal in *. nia.
  - rewrite length_replicate. nia.
Qed.
End Walked.
