(* ===== verification/ReduceCorrect.v ===== *)
(** A reduction is numpy's: every accumulator works on its cells apart ([Cellwise]), so a
    result is, cell by cell, the reference over the elements of that cell. *)
From Stdlib Require Import Floats.SpecFloat.
From S2P Require Import Prelude Errors Dtype Bytes Quality Selection SelectionSpec Cast Layout LayoutSpec Backend Reduce ReduceSpec.
Import Float (f64).

(** ** The promise of an accumulator *)

(** A push changes the slot of its own cell and nothing else. *)
Class Cellwise (T A : Type) `{Acc T A} := {
  Mode : Type;
  Cell : Type;
  mode : A -> Mode;
  slot : A -> nat -> option Cell;
  step : Mode -> Z -> T -> Cell -> result AexError Cell;
  push_slot a c pos x v v' : slot a c = Some v -> step (mode a) pos x v = Ok v' ->
    exists a', push a c pos x = Ok a' /\ mode a' = mode a /\
      forall j, slot a' j = if decide (j = c) then Some v' else slot a j;
}.

Lemma update_some {A} c (f : A -> A) l x :
  l !! c = Some x -> update c f l = Ok (<[c := f x]> l).
Proof. unfold update. by intros ->. Qed.

Lemma lookup_set {A} (l : list A) c y j :
  (c < length l)%nat -> <[c := y]> l !! j = if decide (j = c) then Some y else l !! j.
Proof.
  intros Hc. case_decide as Hj.
  - subst. by apply list_lookup_insert_eq.
  - by apply list_lookup_insert_ne.
Qed.

Section Instances.
Context `{Elem T}.

#[export] Program Instance var_cells : Cellwise T VarAcc.t := {|
  Mode := unit;
  mode _ := tt;
  slot (a : VarAcc.t) c := a !! c;
  step _ _ x v := Ok (VarAcc.welford (parts x).1 (parts x).2 v);
|}.
Next Obligation.
  intros a c pos x v v' Hv [= <-]. unfold push, var_acc, VarAcc.push. rewrite (update_some _ _ _ _ Hv).
  eexists. split; [done|]. split; [done|]. intros j. apply lookup_set. by eapply lookup_lt_Some.
Qed.

#[export] Program Instance extreme_cells : Cellwise T (Extreme.t T) := {|
  Mode := bool * bool;
  mode a := (Extreme.max a, Extreme.skip_nan a);
  slot a c := Extreme.best a !! c;
  step m _ x v := Ok (Extreme.better m.1 m.2 x v);
|}.
Next Obligation.
  intros a c pos x v v' Hv [= <-]. unfold push, extreme_acc, Extreme.push. rewrite (update_some _ _ _ _ Hv).
  eexists. split; [done|]. split; [done|]. intros j. apply lookup_set. by eapply lookup_lt_Some.
Qed.

#[export] Program Instance arg_cells : Cellwise T (Arg.t T) := {|
  Mode := bool;
  mode := Arg.max;
  slot a c := Arg.best a !! c;
  step m pos x v := Ok (Arg.better m pos x v);
|}.
Next Obligation.
  intros a c pos x v v' Hv [= <-]. unfold push, arg_acc, Arg.push. rewrite (update_some _ _ _ _ Hv).
  eexists. split; [done|]. split; [done|]. intros j. apply lookup_set. by eapply lookup_lt_Some.
Qed.

#[export] Program Instance logic_cells : Cellwise T Logic.t := {|
  Mode := bool;
  mode a := a.2;
  slot (a : Logic.t) c := a.1 !! c;
  step all _ x v := Ok (if all : bool then v && truthy x else v || truthy x);
|}.
Next Obligation.
  intros a c pos x v v' Hv [= <-]. unfold push, logic_acc, Logic.push. rewrite (update_some _ _ _ _ Hv).
  eexists. split; [done|]. split; [done|]. intros j. apply lookup_set. by eapply lookup_lt_Some.
Qed.

(** A cell of a sum: the total, of floats or of integers, and how many there were. *)
Definition sum_slot (a : SumAcc.t) (c : nat) : option ((f64 * f64 + Z) * Z) :=
  n ← SumAcc.counts a !! c;
  if SumAcc.float a then f ← SumAcc.floats a !! c; Some (inl f, n)
  else v ← SumAcc.ints a !! c; Some (inr v, n).

Definition sum_step (m : bool * bool) (pos : Z) (x : T) (v : (f64 * f64 + Z) * Z)
    : result AexError ((f64 * f64 + Z) * Z) :=
  match v.1 with
  | inl f =>
      if m.2 && is_nan x then Ok v
      else Ok (inl (SumAcc.add_float m.1 (parts x).1 (parts x).2 f), v.2 +w 1)
  | inr i => b ← int_bits x; Ok (inr (SumAcc.add_int m.1 b i), v.2 +w 1)
  end.

#[export] Program Instance sum_cells : Cellwise T SumAcc.t := {|
  Mode := bool * bool * (bool * (nat * nat * nat));
  mode a := (SumAcc.prod a, SumAcc.skip_nan a, (SumAcc.float a,
    (length (SumAcc.floats a), length (SumAcc.ints a), length (SumAcc.counts a))));
  slot := sum_slot;
  step m := sum_step m.1;
|}.
Next Obligation.
  intros a c pos x v v' Hv Hs. unfold push, sum_acc, SumAcc.push. unfold sum_slot, sum_step in *. cbn in Hs.
  destruct (SumAcc.counts a !! c) as [n|] eqn:Hn; [|done]. cbn in Hv.
  pose proof (lookup_lt_Some _ _ _ Hn).
  destruct (SumAcc.float a) eqn:Hf.
  - destruct (SumAcc.floats a !! c) as [f|] eqn:Hfl; [|done]. cbn in Hv. injection Hv as <-. cbn in Hs.
    pose proof (lookup_lt_Some _ _ _ Hfl).
    destruct (SumAcc.skip_nan a && is_nan x); injection Hs as <-.
    + exists a. rewrite ?Hf. split; [done|]. split; [done|]. intros j. case_decide; [|done]. subst.
      by rewrite Hn, Hfl.
    + rewrite (update_some _ _ _ _ Hfl), (update_some _ _ _ _ Hn). eexists. split; [done|]. cbn. rewrite ?Hf, ?length_insert.
      split; [done|]. intros j. rewrite !lookup_set by done. by case_decide.
  - destruct (SumAcc.ints a !! c) as [i|] eqn:Hi; [|done]. cbn in Hv. injection Hv as <-. cbn in Hs.
    pose proof (lookup_lt_Some _ _ _ Hi).
    destruct (int_bits x) as [b| |]; [|done..]. cbn [mbind result_bind] in *. injection Hs as <-.
    rewrite (update_some _ _ _ _ Hi), (update_some _ _ _ _ Hn). eexists. split; [done|]. cbn. rewrite ?Hf, ?length_insert.
    split; [done|]. intros j. rewrite !lookup_set by done. by case_decide.
Qed.
End Instances.

(** What the pushes of [ks] leave in every slot: the steps of the elements of its cell. *)
Lemma mfold_cells `{Cellwise T A} (cell : Z -> nat) (pos : Z -> Z) (elem : Z -> T) (F : nat -> Cell) a ks :
  Forall (fun k => is_Some (slot a (cell k))) ks ->
  (forall c v, slot a c = Some v ->
     mfold (fun v k => step (mode a) (pos k) (elem k) v) v (filter (fun k => cell k = c) ks) = Ok (F c)) ->
  exists a', mfold (fun a k => push a (cell k) (pos k) (elem k)) a ks = Ok a' /\
    mode a' = mode a /\ forall j, slot a' j = (fun _ => F j) <$> slot a j.
Proof.
  revert a. induction ks as [|k ks IH]; intros a Hin HF.
  - exists a. split; [done|]. split; [done|]. intros j. destruct (slot a j) as [v|] eqn:Hv; [|done].
    specialize (HF j v Hv). cbn in HF. injection HF as ->. done.
  - apply Forall_cons in Hin as [[v Hv] Hin]. pose proof (HF _ _ Hv) as Hc.
    rewrite filter_cons_True in Hc by done. cbn [mfold] in Hc. apply bind_ok in Hc as (v' & Hs & Hc).
    destruct (push_slot _ _ _ _ _ _ Hv Hs) as (a1 & Hp & Hm & Hj).
    destruct (IH a1) as (a' & Ha' & Hm' & Hj').
    + eapply Forall_impl; [exact Hin|]. intros k' Hk'. cbn. rewrite Hj. by case_decide.
    + intros c w. rewrite Hj, Hm. case_decide as Hd.
      * intros [= <-]. by subst.
      * intros Hw. specialize (HF c w Hw). by rewrite filter_cons_False in HF.
    + exists a'. cbn [mfold]. rewrite Hp. split; [done|]. split; [congruence|]. intros j. rewrite Hj', Hj.
      case_decide; [|done]. subst. by rewrite Hv.
Qed.

(** ** The reference *)

Section Reference.
Context `{HalfNum} {T : Type} (E : Elem T).

Definition skips_nan (f : Function) : bool := bool_decide (f = NanSum \/ f = NanMean).
Definition is_prod (f : Function) : bool := bool_decide (f = Prod).
Definition is_max (f : Function) : bool := bool_decide (f = Max \/ f = NanMax).
Definition ignores_nan (f : Function) : bool := bool_decide (f = NanMax \/ f = NanMin).

(** The elements, with their positions, that a sum takes. *)
Definition taken (f : Function) (xs : list (Z * T)) : list (Z * T) :=
  filter (fun x => skips_nan f && is_nan x.2 = false) xs.

Definition add_elem (f : Function) (acc : f64 * f64) (x : Z * T) : f64 * f64 :=
  SumAcc.add_float (is_prod f) (parts x.2).1 (parts x.2).2 acc.
Definition float_total (f : Function) (xs : list (Z * T)) : f64 * f64 :=
  foldl (add_elem f) (Float.of_int (if is_prod f then 1 else 0), Float.zero) (taken f xs).
(** The exact sum or product of integers. *)
Definition int_total (f : Function) (vs : list Z) : Z :=
  if is_prod f then foldr Z.mul 1 vs else foldr Z.add 0 vs.
Definition deviations (xs : list (Z * T)) : Z * f64 * f64 * f64 :=
  foldl (fun s x => VarAcc.welford (parts x.2).1 (parts x.2).2 s) (0, Float.zero, Float.zero, Float.zero) xs.
Definition extreme (f : Function) (xs : list (Z * T)) : option T :=
  foldl (fun s x => Extreme.better (is_max f) (ignores_nan f) x.2 s) None xs.
Definition first_extreme (max : bool) (xs : list (Z * T)) : option (T * Z * bool) :=
  foldl (fun s x => Arg.better max x.1 x.2 s) None xs.

(** What [f] makes of the elements of one cell, in C order. *)
Definition reference (f : Function) (ddof : Z) (out : DType) (xs : list (Z * T)) : result AexError bytes :=
  match f with
  | Sum | Prod | NanSum =>
      if FLOAT (T:=T) then write_float out (float_total f xs).1 (float_total f xs).2
      else vs ← mapM (fun x => int_bits x.2) xs; Ok (to_le_bytes 8 (int_total f vs))
  | Mean | NanMean =>
      let n := Float.of_int (zlen (taken f xs)) in
      write_float out (Float.div (float_total f xs).1 n) (Float.div (float_total f xs).2 n)
  | Var | Std =>
      let '(n, _, _, m2) := deviations xs in
      let var := Float.div m2 (Float.of_int (Z.max (as_i64 (as_i64 n - ddof)) 0)) in
      write_float out (if decide (f = Std) then Float.sqrt var else var) Float.zero
  | Max | Min | NanMax | NanMin => x ← expect (extreme f xs); Ok (e_write x)
  | Argmax | Argmin =>
      '(_, pos, _) ← expect (first_extreme (bool_decide (f = Argmax)) xs); Ok (to_le_bytes 8 pos)
  | All => Ok [if forallb (fun x => truthy x.2) xs then 1 else 0]
  | Any => Ok [if existsb (fun x => truthy x.2) xs then 1 else 0]
  end.
End Reference.

(** What the types of elements have in common. *)
Class ElemLaws {T} (E : Elem T) := {
  size_ok : (0 < SIZE (T:=T) <= 16)%nat;
  bits_ok : FLOAT (T:=T) = false -> forall x : T, exists v, int_bits x = Ok v;
  write_ok : forall x : T, length (e_write x) = SIZE (T:=T);
}.

#[export] Instance bool_laws : ElemLaws bool_elem.
Proof. split; [cbn; lia|by eexists|done]. Qed.
#[export] Instance int8_laws s : ElemLaws (int_elem 1 s).
Proof. split; [cbn; lia|by eexists|done]. Qed.
#[export] Instance int16_laws s : ElemLaws (int_elem 2 s).
Proof. split; [cbn; lia|by eexists|done]. Qed.
#[export] Instance int32_laws s : ElemLaws (int_elem 4 s).
Proof. split; [cbn; lia|by eexists|done]. Qed.
#[export] Instance int64_laws s : ElemLaws (int_elem 8 s).
Proof. split; [cbn; lia|by eexists|done]. Qed.
#[export] Instance f16_laws `{HalfNum} : ElemLaws f16_elem.
Proof. split; [cbn; lia|done|done]. Qed.
#[export] Instance f32_laws : ElemLaws f32_elem.
Proof. split; [cbn; lia|done|done]. Qed.
#[export] Instance f64_laws : ElemLaws f64_elem.
Proof. split; [cbn; lia|done|done]. Qed.
#[export] Instance c32_laws : ElemLaws c32_elem.
Proof. split; [cbn; lia|done|done]. Qed.
#[export] Instance c64_laws : ElemLaws c64_elem.
Proof. split; [cbn; lia|done|done]. Qed.

(** ** Lists *)

Lemma mfold_pure {E A B} (g : B -> A -> B) b l : mfold (E:=E) (fun b x => Ok (g b x)) b l = Ok (foldl g b l).
Proof. revert b. induction l as [|x l IH]; intros b; [done|]. cbn. apply IH. Qed.

Lemma foldl_fmap_list {A B C} (g : B -> C -> B) (h : A -> C) b l :
  foldl g b (h <$> l) = foldl (fun b x => g b (h x)) b l.
Proof. revert b. induction l as [|x l IH]; intros b; [done|]. cbn. apply IH. Qed.

Lemma mapM_fmap_list {E A B C} (f : B -> result E C) (h : A -> B) l :
  mapM f (h <$> l) = mapM (fun x => f (h x)) l.
Proof. induction l as [|x l IH]; [done|]. cbn. by rewrite IH. Qed.

Lemma mapM_pure {E A B} (f : A -> B) l : mapM (M:=result E) (fun x => Ok (f x)) l = Ok (f <$> l).
Proof. induction l as [|x l IH]; [done|]. cbn. by rewrite IH. Qed.

Lemma mapM_ext_all {E A B} (f g : A -> result E B) l : (forall x, f x = g x) -> mapM f l = mapM g l.
Proof. intros Hfg. induction l as [|x l IH]; [done|]. cbn. by rewrite Hfg, IH. Qed.

(** A list known by its slots. *)
Lemma from_slots {A} (l : list A) N (F : nat -> A) :
  length l = N -> (forall j, (j < N)%nat -> l !! j = Some (F j)) -> l = F <$> seq 0 N.
Proof.
  intros Hl HF. apply list_eq. intros j. rewrite list_lookup_fmap. destruct (decide (j < N)%nat).
  - rewrite lookup_seq_lt by lia. cbn. by apply HF.
  - rewrite (lookup_ge_None_2 l), (lookup_ge_None_2 (seq 0 N)); [done|rewrite ?length_seq; lia..].
Qed.

Lemma slots_replicate {A} (l : list A) N x (F : nat -> A) :
  (forall j, l !! j = (fun _ : A => F j) <$> (replicate N x !! j)) -> l = F <$> seq 0 N.
Proof.
  intros HF. apply list_eq. intros j. rewrite HF, list_lookup_fmap. destruct (decide (j < N)%nat).
  - by rewrite lookup_seq_lt, lookup_replicate_2 by lia.
  - rewrite (lookup_ge_None_2 (replicate N x)), (lookup_ge_None_2 (seq 0 N)); [done|rewrite ?length_seq, ?length_replicate; lia..].
Qed.

Lemma mfold_fmap_list {E A B C} (f : B -> C -> result E B) (h : A -> C) b l :
  mfold f b (h <$> l) = mfold (fun b x => f b (h x)) b l.
Proof. revert b. induction l as [|x l IH]; intros b; [done|]. cbn. by destruct (f b (h x)); cbn. Qed.

Lemma to_le_bytes_mod n z : to_le_bytes n (z mod 256 ^ Z.of_nat n) = to_le_bytes n z.
Proof.
  revert z. induction n as [|n IH]; intros z; [done|]. cbn [to_le_bytes]. rewrite pow256_succ.
  rewrite Z.rem_mul_r by lia. f_equal.
  - rewrite Z.mul_comm, Z.mod_add, Z.mod_mod by lia. done.
  - rewrite Z.mul_comm, Z.div_add, (Z.div_small (z mod 256)) by (lia || apply Z.mod_pos_bound; lia). apply IH.
Qed.

Lemma to_le_bytes_u64 z : to_le_bytes 8 (u64 z) = to_le_bytes 8 z.
Proof. apply (to_le_bytes_mod 8). Qed.

(** Integer totals wrap, whichever way round they are taken. *)
Lemma wrapped_total f vs i :
  u64 (foldl (fun i b => SumAcc.add_int (is_prod f) b i) i vs) =
  u64 (if is_prod f then i * int_total f vs else i + int_total f vs).
Proof.
  revert i. unfold int_total, SumAcc.add_int. destruct (is_prod f); induction vs as [|b vs IH]; intros i; cbn [foldl foldr].
  - f_equal. lia.
  - rewrite IH. word_norm. f_equal. lia.
  - f_equal. lia.
  - rewrite IH. word_norm. f_equal. lia.
Qed.

Section Cells.
Context `{HalfNum} {T : Type} (E : Elem T) `{!ElemLaws E}.
Context (cell : Z -> nat) (pos : Z -> Z) (elem : Z -> T) (ks : list Z) (N : nat).
Context (Hks : Forall (fun k => (cell k < N)%nat) ks).

(** The elements of cell [c]. *)
Definition values (c : nat) : list (Z * T) := (fun k => (pos k, elem k)) <$> filter (fun k => cell k = c) ks.
#[local] Abbreviation pushed a := (mfold (fun b k => push b (cell k) (pos k) (elem k)) a ks).

Lemma pushed_cells {A} `{Cellwise T A} (a : A) (v0 : Cell) (F : nat -> Cell) :
  (forall j, slot a j = replicate N v0 !! j) ->
  (forall c, mfold (fun v x => step (mode a) x.1 x.2 v) v0 (values c) = Ok (F c)) ->
  exists a', pushed a = Ok a' /\ mode a' = mode a /\
    forall j, slot a' j = (fun _ => F j) <$> (replicate N v0 !! j).
Proof.
  intros Hs HF. destruct (mfold_cells cell pos elem F a ks) as (a' & Ha & Hm & Hj).
  - eapply Forall_impl; [exact Hks|]. intros k Hk. cbn in Hk. rewrite Hs, lookup_replicate_2 by done. by eexists.
  - intros c v Hv. rewrite Hs in Hv. apply lookup_replicate in Hv as [-> _].
    specialize (HF c). unfold values in HF. by rewrite mfold_fmap_list in HF.
  - exists a'. split; [done|]. split; [done|]. intros j. by rewrite Hj, Hs.
Qed.

(** When a step cannot fail. *)
Lemma pushed_pure {A} `{Cellwise T A} (a : A) (v0 : Cell) (g : Z -> T -> Cell -> Cell) :
  (forall j, slot a j = replicate N v0 !! j) ->
  (forall p x v, step (mode a) p x v = Ok (g p x v)) ->
  exists a', pushed a = Ok a' /\ mode a' = mode a /\
    forall j, slot a' j = (fun _ => foldl (fun v x => g x.1 x.2 v) v0 (values j)) <$> (replicate N v0 !! j).
Proof.
  intros Hs Hg. apply (pushed_cells a v0 (fun c => foldl (fun v x => g x.1 x.2 v) v0 (values c))); [done|].
  intros c. rewrite <- (mfold_pure (E:=AexError)). generalize v0. induction (values c) as [|x l IH]; intros v; [done|].
  cbn [mfold]. rewrite Hg. apply IH.
Qed.

Definition per_cell (f : Function) (ddof : Z) (out : DType) : result AexError bytes :=
  @concat Z <$> mapM (fun c => reference E f ddof out (values c)) (seq 0 N).

Lemma extreme_run f ddof out :
  f = Max \/ f = Min \/ f = NanMax \/ f = NanMin ->
  (a ← pushed (Extreme.new (T:=T) N f); Extreme.finish (T:=T) a) = per_cell f ddof out.
Proof.
  intros Hf. destruct (@pushed_pure _ _ extreme_cells (Extreme.new (T:=T) N f) None
    (fun _ x v => Extreme.better (is_max f) (ignores_nan f) x v)) as (a & -> & _ & Ha); [done|done|].
  apply slots_replicate in Ha. cbn [mbind result_bind]. unfold Extreme.finish, per_cell. rewrite Ha, mapM_fmap_list.
  f_equal. apply mapM_ext_all. intros c. destruct Hf as [-> | [-> | [-> | ->]]]; done.
Qed.

Lemma arg_run f ddof out :
  f = Argmax \/ f = Argmin ->
  (a ← pushed (Arg.new (T:=T) N (bool_decide (f = Argmax))); Arg.finish (T:=T) a) = per_cell f ddof out.
Proof.
  intros Hf. destruct (@pushed_pure _ _ arg_cells (Arg.new (T:=T) N (bool_decide (f = Argmax))) None
    (fun p x v => Arg.better (bool_decide (f = Argmax)) p x v)) as (a & -> & _ & Ha); [done|done|].
  apply slots_replicate in Ha. cbn [mbind result_bind]. unfold Arg.finish, per_cell. rewrite Ha, mapM_fmap_list.
  f_equal. apply mapM_ext_all. intros c. destruct Hf as [-> | ->]; done.
Qed.

Lemma var_run f walk :
  f = Std \/ f = Var ->
  (a ← pushed (VarAcc.new N); VarAcc.finish a walk (bool_decide (f = Std))) = per_cell f (w_ddof walk) (out walk).
Proof.
  intros Hf. destruct (@pushed_pure _ _ var_cells (VarAcc.new N) (0, Float.zero, Float.zero, Float.zero)
    (fun _ x v => VarAcc.welford (parts x).1 (parts x).2 v)) as (a & -> & _ & Ha); [done|done|].
  apply slots_replicate in Ha. cbn [mbind result_bind]. unfold VarAcc.finish, per_cell. rewrite Ha, mapM_fmap_list.
  f_equal. apply mapM_ext_all. intros c. destruct Hf as [-> | ->]; done.
Qed.

Lemma logic_cells_spec all xs b :
  foldl (fun (v : bool) (x : Z * T) => if all : bool then v && truthy x.2 else v || truthy x.2) b xs =
  if all then b && forallb (fun x => truthy x.2) xs else b || existsb (fun x => truthy x.2) xs.
Proof.
  revert b. induction xs as [|x xs IH]; intros b; cbn; [by destruct all, b|]. rewrite IH.
  destruct all; [by rewrite andb_assoc|by rewrite orb_assoc].
Qed.

Lemma logic_run f ddof out :
  f = All \/ f = Any ->
  (a ← pushed (Logic.new N (bool_decide (f = All))); Ok (Logic.finish a)) = per_cell f ddof out.
Proof.
  intros Hf. destruct (@pushed_pure _ _ logic_cells (Logic.new N (bool_decide (f = All))) (bool_decide (f = All))
    (fun _ x v => if bool_decide (f = All) then v && truthy x else v || truthy x)) as (a & -> & _ & Ha); [done|done|].
  apply slots_replicate in Ha. cbn [mbind result_bind]. unfold Logic.finish, per_cell. rewrite Ha.
  transitivity (Ok (E:=AexError) (concat ((fun c => [if (if bool_decide (f = All) then forallb (fun x => truthy x.2) (values c)
    else existsb (fun x => truthy x.2) (values c)) then 1 else 0]) <$> seq 0 N))).
  - clear Ha. f_equal. induction (seq 0 N) as [|c l IH]; [done|]. rewrite !fmap_cons. cbn [concat app]. f_equal; [|apply IH].
    rewrite logic_cells_spec. by destruct (bool_decide (f = All)).
  - symmetry. apply fmap_ok. eexists. split; [|done]. rewrite <- mapM_pure. apply mapM_ext_all. intros c.
    by destruct Hf as [-> | ->].
Qed.

Lemma sum_step_float m p (x : T) acc n :
  sum_step m p x (inl acc, n) =
  if m.2 && is_nan x then Ok (inl acc, n) else Ok (inl (SumAcc.add_float m.1 (parts x).1 (parts x).2 acc), n +w 1).
Proof. done. Qed.

Lemma sum_step_int m p (x : T) i n :
  sum_step m p x (inr i, n) = (b ← int_bits x; Ok (inr (SumAcc.add_int m.1 b i), n +w 1)).
Proof. done. Qed.

Lemma sum_float_steps f xs acc n :
  is_u64 n ->
  mfold (fun v x => sum_step (is_prod f, skips_nan f) x.1 x.2 v) (inl acc, n) xs =
  Ok (inl (foldl (add_elem E f) acc (taken E f xs)), u64 (n + zlen (taken E f xs))).
Proof.
  revert acc n. induction xs as [|x xs IH]; intros acc n Hn.
  - cbn. by rewrite Z.add_0_r, u64_id.
  - cbn [mfold]. rewrite sum_step_float. cbn [fst snd]. unfold taken. rewrite filter_cons.
    destruct (skips_nan f && is_nan x.2) eqn:Hx; cbn [mbind result_bind].
    + rewrite decide_False by congruence. by rewrite IH.
    + rewrite decide_True by done. rewrite IH by apply wadd_range. cbn [foldl length]. unfold add_elem at 2.
      do 2 f_equal. word_norm. f_equal. unfold taken. lia.
Qed.

Lemma sum_int_steps f xs i n vs :
  mapM (M:=result AexError) (fun x : Z * T => int_bits x.2) xs = Ok vs ->
  exists n', mfold (fun v x => sum_step (is_prod f, skips_nan f) x.1 x.2 v) (inr i, n) xs =
    Ok (inr (foldl (fun i b => SumAcc.add_int (is_prod f) b i) i vs), n').
Proof.
  revert i n vs. induction xs as [|x xs IH]; intros i n vs Hvs.
  - cbn in *. injection Hvs as <-. by exists n.
  - cbn [mapM] in Hvs. apply bind_ok in Hvs as (b & Hb & Hvs). apply bind_ok in Hvs as (vs' & Hvs' & [= <-]).
    cbn [mfold]. rewrite sum_step_int. cbn [fst snd]. rewrite Hb. cbn [mbind result_bind foldl]. by apply IH.
Qed.

Lemma bits_of (xs : list (Z * T)) :
  FLOAT (T:=T) = false -> exists vs, mapM (M:=result AexError) (fun x : Z * T => int_bits x.2) xs = Ok vs.
Proof.
  intros Hf. induction xs as [|x xs [vs IH]]; [by exists []|]. cbn. destruct (bits_ok Hf x.2) as [v ->].
  cbn. rewrite IH. by eexists.
Qed.

Definition start_cell (f : Function) : f64 * f64 := (Float.of_int (if is_prod f then 1 else 0), Float.zero).

(** The slots of a sum of floats, and of one of integers. *)
Lemma sum_floats_run f :
  FLOAT (T:=T) || bool_decide (f = Mean \/ f = NanMean) = true ->
  exists a, pushed (SumAcc.new (FLOAT (T:=T)) N f) = Ok a /\ SumAcc.ints a = [] /\
    SumAcc.floats a = (fun c => float_total E f (values c)) <$> seq 0 N /\
    SumAcc.counts a = (fun c => u64 (zlen (taken E f (values c)))) <$> seq 0 N.
Proof.
  intros Hfl.
  destruct (@pushed_cells _ _ sum_cells (SumAcc.new (FLOAT (T:=T)) N f) (inl (start_cell f), 0)
    (fun c => (inl (float_total E f (values c)), u64 (zlen (taken E f (values c)))))) as (a & -> & Hm & Ha).
  - intros j. cbn. unfold sum_slot, SumAcc.new. cbn. rewrite Hfl. destruct (decide (j < N)%nat).
    + by rewrite !lookup_replicate_2 by done.
    + by rewrite !(lookup_ge_None_2 (replicate N _)) by (rewrite length_replicate; lia).
  - intros c. apply (sum_float_steps f (values c) (start_cell f) 0). unfold is_u64. lia.
  - exists a. split; [done|]. cbn in Hm. rewrite Hfl in Hm. injection Hm as _ _ Hf Hlf Hli Hlc.
    rewrite length_replicate in Hlf. rewrite (length_replicate N 0) in Hlc. apply nil_length_inv in Hli. split; [done|].
    cbn in Ha. unfold sum_slot in Ha. rewrite Hf in Ha.
    split; apply from_slots; try done; intros j Hj; specialize (Ha j); rewrite lookup_replicate_2 in Ha by done;
      cbn in Ha; destruct (SumAcc.counts a !! j), (SumAcc.floats a !! j); try done; by injection Ha as -> ->.
Qed.

Lemma sum_ints_run f :
  FLOAT (T:=T) || bool_decide (f = Mean \/ f = NanMean) = false ->
  exists a, pushed (SumAcc.new (FLOAT (T:=T)) N f) = Ok a /\ SumAcc.floats a = [] /\ length (SumAcc.ints a) = N /\
    forall c, (c < N)%nat -> exists vs, mapM (M:=result AexError) (fun x : Z * T => int_bits x.2) (values c) = Ok vs /\
      exists i, SumAcc.ints a !! c = Some i /\ u64 i = u64 (int_total f vs).
Proof.
  intros Hfl. pose proof Hfl as [Hff _]%orb_false_iff.
  destruct (@pushed_cells _ _ sum_cells (SumAcc.new (FLOAT (T:=T)) N f) (inr (if is_prod f then 1 else 0), 0)
    (fun c => match mfold (fun v x => sum_step (is_prod f, skips_nan f) x.1 x.2 v)
                (inr (if is_prod f then 1 else 0), 0) (values c) with Ok v => v | _ => (inr 0, 0) end))
    as (a & -> & Hm & Ha).
  - intros j. cbn. unfold sum_slot, SumAcc.new. cbn. rewrite Hfl. destruct (decide (j < N)%nat).
    + by rewrite !lookup_replicate_2 by done.
    + by rewrite !(lookup_ge_None_2 (replicate N _)) by (rewrite length_replicate; lia).
  - intros c. destruct (bits_of (values c) Hff) as [vs Hvs].
    destruct (sum_int_steps f (values c) (if is_prod f then 1 else 0) 0 vs Hvs) as [n' Hn']. cbn.
    etransitivity; [exact Hn'|]. by rewrite Hn'.
  - exists a. split; [done|]. cbn in Hm. rewrite Hfl in Hm. injection Hm as _ _ Hf Hlf Hli Hlc.
    rewrite length_replicate in Hli. apply nil_length_inv in Hlf. split; [done|]. split; [done|].
    intros c Hc. destruct (bits_of (values c) Hff) as [vs Hvs]. exists vs. split; [done|].
    destruct (sum_int_steps f (values c) (if is_prod f then 1 else 0) 0 vs Hvs) as [n' Hn'].
    specialize (Ha c). cbn in Ha. unfold sum_slot in Ha. rewrite Hf, lookup_replicate_2 in Ha by done.
    rewrite Hn' in Ha. cbn in Ha. destruct (SumAcc.counts a !! c), (SumAcc.ints a !! c) as [i|]; try done.
    injection Ha as -> _. eexists. split; [done|]. rewrite wrapped_total. f_equal.
    destruct (is_prod f); lia.
Qed.

Lemma sum_run f ddof out :
  f = Sum \/ f = Prod \/ f = NanSum ->
  (a ← pushed (SumAcc.new (FLOAT (T:=T)) N f); SumAcc.finish a out) = per_cell f ddof out.
Proof.
  intros Hf. assert (bool_decide (f = Mean \/ f = NanMean) = false) as Hmean
    by (apply bool_decide_eq_false; destruct Hf as [-> | [-> | ->]]; intros [|]; done).
  assert (forall c, reference E f ddof out (values c) =
    if FLOAT (T:=T) then write_float out (float_total E f (values c)).1 (float_total E f (values c)).2
    else vs ← mapM (fun x => int_bits x.2) (values c); Ok (to_le_bytes 8 (int_total f vs))) as Href
    by (intros c; by destruct Hf as [-> | [-> | ->]]).
  unfold per_cell, SumAcc.finish. destruct (FLOAT (T:=T)) eqn:HF.
  - destruct (sum_floats_run f) as (a & Ha & Hi & Hfl & _); [by rewrite HF|]. rewrite HF in Ha. rewrite Ha.
    cbn [mbind result_bind]. rewrite Hi, Hfl, mapM_fmap_list.
    rewrite (mapM_ext_all (fun c => reference E f ddof out (values c))
      (fun c => write_float out (float_total E f (values c)).1 (float_total E f (values c)).2)) by done.
    rewrite (mapM_ext_all (fun x => let '(re, im) := float_total E f (values x) in write_float out re im)
      (fun c => write_float out (float_total E f (values c)).1 (float_total E f (values c)).2))
      by (intros c; by destruct (float_total E f (values c))).
    destruct (mapM _ _); [|done..]. cbn. by rewrite app_nil_r.
  - destruct (sum_ints_run f) as (a & Ha & Hfl & Hl & Hi); [by rewrite HF, Hmean|]. rewrite HF in Ha. rewrite Ha.
    cbn [mbind result_bind]. rewrite Hfl. cbn [mapM mbind result_bind]. symmetry. apply fmap_ok.
    exists ((fun c => to_le_bytes 8 (default 0 (SumAcc.ints a !! c))) <$> seq 0 N).
    split.
    + apply mapM_ok. apply Forall2_fmap_r, Forall_Forall2_diag, Forall_forall. intros c Hc%list_elem_of_In%in_seq.
      cbn beta delta [compose]. rewrite Href. destruct (Hi c ltac:(lia)) as (vs & -> & i & -> & Hu). cbn [mbind result_bind default from_option id].
      f_equal. by rewrite <- to_le_bytes_u64, <- Hu, to_le_bytes_u64.
    + cbn [concat app]. assert (SumAcc.ints a = (fun c => default 0 (SumAcc.ints a !! c)) <$> seq 0 N) as Hints.
      { apply from_slots; [done|]. intros j Hj. by destruct (Hi j Hj) as (? & _ & ? & -> & _). }
      rewrite Hints at 1. clear.
      induction (seq 0 N) as [|c l IH]; [done|]. rewrite !fmap_cons, bind_cons. cbn [concat]. by rewrite IH.
Qed.

Lemma mean_run f ddof out :
  f = Mean \/ f = NanMean -> zlen ks < two64 ->
  (a ← pushed (SumAcc.new (FLOAT (T:=T)) N f); SumAcc.finish_mean a out) = per_cell f ddof out.
Proof.
  intros Hf Hlen. destruct (sum_floats_run f) as (a & -> & Hi & Hfl & Hc).
  { apply orb_true_iff. right. by apply bool_decide_eq_true. }
  cbn [mbind result_bind]. unfold SumAcc.finish_mean, per_cell. rewrite Hfl, Hc.
  assert (forall g h, zip (g <$> seq 0 N) (h <$> seq 0 N) =
    (fun c : nat => (g c : f64 * f64, h c : Z)) <$> seq 0 N) as ->.
  { intros g h. clear. induction (seq 0 N) as [|c cs IH]; [done|]. rewrite !fmap_cons. cbn. f_equal. apply IH. }
  rewrite mapM_fmap_list. f_equal. apply mapM_ext_all. intros c.
  assert (zlen (taken E f (values c)) <= zlen ks) as Hle.
  { unfold taken, values. pose proof (length_filter (fun x : Z * T => skips_nan f && is_nan x.2 = false)
      ((fun k => (pos k, elem k)) <$> filter (fun k => cell k = c) ks)) as H1.
    pose proof (length_filter (fun k => cell k = c) ks) as H2. rewrite length_fmap in H1. lia. }
  rewrite u64_id by (unfold is_u64; lia). destruct (float_total E f (values c)) as [re im] eqn:E1.
  destruct Hf as [-> | ->]; cbn; by rewrite E1.
Qed.
End Cells.
