(* ===== verification/ReduceNumpy.v ===== *)
(** The reductions against numpy's definition: [reduce] refines [numpy_reduce], which knows
    nothing of blocks, odometers or accumulators; what it answers, and when it refuses. *)
From stdpp Require Import sets.
From S2P Require Import Prelude Errors Dtype Bytes Quality Selection SelectionSpec Cast Layout LayoutSpec Backend Null Reduce ReduceSpec ReduceCorrect.

(** ** numpy's definition *)

(** What [x] is of the dtype's element type. *)
Definition with_elem `{HalfNum} {R : Type} (x : forall T, Elem T -> R) (d : DType) : R :=
  match d with
  | Bool => x _ bool_elem
  | Int8 => x _ (int_elem 1 true)
  | Int16 => x _ (int_elem 2 true)
  | Int32 => x _ (int_elem 4 true)
  | Int64 => x _ (int_elem 8 true)
  | Uint8 => x _ (int_elem 1 false)
  | Uint16 => x _ (int_elem 2 false)
  | Uint32 => x _ (int_elem 4 false)
  | Uint64 => x _ (int_elem 8 false)
  | Float16 => x _ f16_elem
  | Float32 => x _ f32_elem
  | Float64 => x _ f64_elem
  | Complex64 => x _ c32_elem
  | Complex128 => x _ c64_elem
  end.

(** The elements of a C-ordered array that fall into cell [c]. *)
Definition members (shape : list Z) (reduced : list bool) (c : nat) : list Z :=
  filter (fun k => cell_of shape reduced (unravel shape k).1 = Z.of_nat c) (seqZ 0 (zprod shape)).

(** Where argmax says element [k] is: along its axis, or in the flattened array. *)
Definition position (ax : Axis) (shape : list Z) (reduced : list bool) (k : Z) : Z :=
  match ax, list_find Is_true reduced with
  | One _, Some (a, _) => (unravel shape k).1 !!! a
  | _, _ => k
  end.

Definition cell_values {T} (E : Elem T) (ax : Axis) (shape : list Z) (reduced : list bool)
    (stream : bytes) (c : nat) : list (Z * T) :=
  (fun k => (position ax shape reduced k,
             e_read (slice (k * Z.of_nat (SIZE (T:=T))) (Z.of_nat (SIZE (T:=T))) stream)))
  <$> members shape reduced c.

Definition numpy_axis (ndim : nat) (ax : Axis) (f : Function) : result AexError (list bool) :=
  match ax with
  | AllAxes => Ok (replicate ndim true)
  | One a => numpy_axes ndim [a]
  | Many axes => if decide (f = Argmax \/ f = Argmin) then Err BadFunction else numpy_axes ndim axes
  end.

(** The reduction of an array given as its dtype, shape and C-order bytes. *)
Definition numpy_reduce `{HalfNum} (dtype : DType) (shape : list Z) (stream : bytes)
    (f : Function) (args : ReduceArgs) (max_bytes : Z) : result AexError Reduced :=
  reduced ← numpy_axis (length shape) (axis args) f;
  let cells := zprod (lengths negb shape reduced) in
  let out := Function.result_dtype f dtype in
  if decide (max_bytes < cells * DType.itemsize out) then Err BadFunction
  else if decide (0 < cells /\ zprod (lengths id shape reduced) = 0 /\ Function.needs_an_element f = true)
  then Err BadFunction
  else
    data ← with_elem (fun T E => @concat Z <$> mapM (fun c =>
        reference E f (ddof args) out (cell_values E (axis args) shape reduced stream c))
      (seq 0 (Z.to_nat cells))) dtype;
    Ok {| r_dtype := out; r_shape := reduced_shape (keepdims args) shape reduced; r_data := data |}.

(** ** The refinement *)

Lemma length_reduced ndim ax f reduced : reduced_axes ndim ax f = Ok reduced -> length reduced = ndim.
Proof.
  rewrite axes_like_numpy. unfold numpy_axes. intros Hr.
  repeat case_match; try done; injection Hr as <-; rewrite ?length_replicate, ?length_fmap, ?length_seqZ; lia.
Qed.

Lemma kept_dropped shape reduced :
  length reduced = length shape ->
  zprod shape = zprod (lengths negb shape reduced) * zprod (lengths id shape reduced).
Proof.
  revert reduced. induction shape as [|n shape IH]; intros [|r reduced] Hl; cbn in *; try lia.
  rewrite (IH reduced) by lia. destruct r; cbn; lia.
Qed.

Lemma lengths_nonneg keep shape reduced :
  Forall (fun n => 0 <= n) shape -> Forall (fun n => 0 <= n) (lengths keep shape reduced).
Proof.
  intros Hs. revert reduced. induction Hs; intros [|r reduced]; cbn; try constructor.
  destruct (keep r); [constructor|]; auto.
Qed.

Lemma foldl_wmul_mod a l : u64 (foldl wmul a l) = u64 (a * zprod l).
Proof.
  revert a. induction l as [|x l IH]; intros a; cbn; [f_equal; lia|]. rewrite IH. word_norm. f_equal. lia.
Qed.

Lemma foldl_wmul_range a l : is_u64 a -> is_u64 (foldl wmul a l).
Proof. revert a. induction l as [|x l IH]; intros a Ha; [done|]. apply IH, wmul_range. Qed.

Lemma filter_ext_in {A} (P Q : A -> Prop) `{forall x, Decision (P x), forall x, Decision (Q x)} (l : list A) :
  (forall x, x ∈ l -> P x <-> Q x) -> filter P l = filter Q l.
Proof.
  induction l as [|x l IH]; intros Hpq; [done|]. rewrite !filter_cons, IH by (intros; apply Hpq; by right).
  pose proof (Hpq x ltac:(left)). repeat case_decide; tauto || done.
Qed.

Section Run.
Context {D : Type} `{HalfNum, ArrayDataset D}.
Context (d : D) (l : SelectionLayout) (walk : Walk) (stream : bytes).
Context (Hstream : total_bytes l <= zlen stream) (Hfits : total_bytes l < two64).
Context (Hread : forall offset (dst : bytes), 0 <= offset -> offset + zlen dst <= total_bytes l ->
  is_u64 offset -> is_u64 (zlen dst) -> ds_read_range d l offset dst = Ok (slice offset (zlen dst) stream)).
Context (Hshape : Forall (fun m => 0 <= m) (w_shape walk)).
Context (Hstride : length (stride walk) = length (w_shape walk)).
Context (Hpos : forall a, pos_axis walk = Some a -> (a < length (w_shape walk))%nat).
Context (Hcells : forall k, 0 <= k < zprod (w_shape walk) -> cell_at walk k < cells walk).

Lemma run_spec {T} (E : Elem T) `{!ElemLaws E} f :
  total_bytes l = zprod (w_shape walk) * Z.of_nat (SIZE (T:=T)) ->
  run E d l f walk =
  per_cell E (fun k => Z.to_nat (cell_at walk k)) (pos_at walk) (elem_at (T:=T) stream)
    (seqZ 0 (zprod (w_shape walk))) (Z.to_nat (cells walk)) f (w_ddof walk) (out walk).
Proof.
  intros Htotal. pose proof size_ok as Hsize. pose proof (zprod_nonneg _ Hshape).
  assert (Forall (fun k => (Z.to_nat (cell_at walk k) < Z.to_nat (cells walk))%nat) (seqZ 0 (zprod (w_shape walk)))) as Hks.
  { apply Forall_forall. intros k Hk%elem_of_seqZ. pose proof (Hcells k ltac:(lia)).
    pose proof (u64_range (dot (stride walk) (coords_at walk k))). unfold cell_at, is_u64 in *. lia. }
  assert (zlen (seqZ 0 (zprod (w_shape walk))) < two64) as Hn by (rewrite zlen_seqZ by lia; nia).
  unfold run. destruct f; rewrite (fold_stream_spec d l walk stream) by done; unfold push_at.
  all: first
    [ by apply (sum_run E _ _ _ _ _ Hks _ (w_ddof walk) (out walk)); auto
    | by apply (mean_run E _ _ _ _ _ Hks _ (w_ddof walk) (out walk)); auto
    | by apply (var_run E _ _ _ _ _ Hks _ walk); auto
    | by apply (extreme_run E _ _ _ _ _ Hks _ (w_ddof walk) (out walk)); auto
    | by apply (arg_run E _ _ _ _ _ Hks _ (w_ddof walk) (out walk)); auto
    | by apply (logic_run E _ _ _ _ _ Hks _ (w_ddof walk) (out walk)); auto ].
Qed.
End Run.

Section Refine.
Context {D : Type} `{HalfNum, ArrayDataset D}.
Context (d : D) (l : SelectionLayout) (stream : bytes).
#[local] Abbreviation shape := (l_out_shape l).
Context (Hshape : Forall (fun m => 0 <= m) shape).
Context (Htotal : total_bytes l = zprod shape * DType.itemsize (l_dtype l)) (Hfits : total_bytes l < two64).
Context (Hstream : total_bytes l <= zlen stream).
Context (Hread : forall offset (dst : bytes), 0 <= offset -> offset + zlen dst <= total_bytes l ->
  is_u64 offset -> is_u64 (zlen dst) -> ds_read_range d l offset dst = Ok (slice offset (zlen dst) stream)).

(** The walk [reduce] sets out on. *)
Definition walk_of (ax : Axis) (reduced : list bool) (dd : Z) (o : DType) : Walk :=
  {| w_shape := shape; stride := (strides shape reduced).1;
     pos_axis := match ax with One _ => fst <$> list_find Is_true reduced | _ => None end;
     cells := (strides shape reduced).2; w_ddof := dd; out := o |}.

Lemma shape_fits : zprod shape < two64.
Proof. pose proof (itemsize_pos (l_dtype l)). pose proof (zprod_nonneg _ Hshape). nia. Qed.

Lemma walk_cell ax reduced dd o k :
  length reduced = length shape -> 0 <= k < zprod shape ->
  cell_at (walk_of ax reduced dd o) k = cell_of shape reduced (unravel shape k).1 /\
  0 <= cell_of shape reduced (unravel shape k).1 < zprod (lengths negb shape reduced).
Proof.
  intros Hl Hk. pose proof shape_fits. pose proof (positive_axes (walk_of ax reduced dd o) Hshape ltac:(cbn; lia)) as Hp.
  cbn in Hp. pose proof (kept_zprod shape reduced Hp).
  destruct (unravel_in shape k Hk Hp) as [Hin _]. unfold cell_at. cbn. unfold coords_at. cbn.
  rewrite dot_strides by done. pose proof (ravel_range _ _ (in_shape_kept _ reduced _ Hin)) as Hr.
  unfold cell_of in *. rewrite u64_id by (unfold is_u64; lia). done.
Qed.

Lemma walk_values ax reduced dd o {T} (E : Elem T) c :
  length reduced = length shape ->
  values (fun k => Z.to_nat (cell_at (walk_of ax reduced dd o) k)) (pos_at (walk_of ax reduced dd o))
    (elem_at (T:=T) stream) (seqZ 0 (zprod shape)) c = cell_values E ax shape reduced stream c.
Proof.
  intros Hl. unfold values, cell_values, members.
  rewrite (filter_ext_in _ (fun k => cell_of shape reduced (unravel shape k).1 = Z.of_nat c)).
  - apply list_fmap_ext. intros i k _. cbn. f_equal. unfold pos_at, position, coords_at. cbn.
    destruct ax; [done| |done]. by destruct (list_find Is_true reduced) as [[j b]|].
  - intros k Hk%elem_of_seqZ.
    destruct (walk_cell ax reduced dd o k Hl ltac:(lia)) as [-> Hc]. lia.
Qed.

Lemma by_dtype_spec f ax reduced dd o :
  length reduced = length shape -> zprod (lengths negb shape reduced) < two64 ->
  by_dtype d l f (walk_of ax reduced dd o) =
  with_elem (fun T E => @concat Z <$> mapM (fun c =>
      reference E f dd o (cell_values E ax shape reduced stream c))
    (seq 0 (Z.to_nat (zprod (lengths negb shape reduced))))) (l_dtype l).
Proof.
  intros Hl Hk. pose proof (zprod_nonneg _ (lengths_nonneg negb shape reduced Hshape)).
  assert (forall T (E : Elem T), ElemLaws E -> DType.itemsize (l_dtype l) = Z.of_nat (SIZE (T:=T)) ->
    run E d l f (walk_of ax reduced dd o) = @concat Z <$> mapM (fun c =>
      reference E f dd o (cell_values E ax shape reduced stream c))
    (seq 0 (Z.to_nat (zprod (lengths negb shape reduced))))) as Hrun.
  { intros T E HE Hsz. rewrite (run_spec d l (walk_of ax reduced dd o) stream Hstream Hfits Hread Hshape).
    - unfold per_cell. cbn [cells out w_ddof walk_of w_shape]. rewrite strides_cells, u64_id by (unfold is_u64; lia).
      f_equal. apply mapM_ext_all. intros c. f_equal. by apply (walk_values ax reduced dd o E c).
    - cbn. by apply length_strides.
    - intros a. cbn. destruct ax; [done| |done]. intros ([i b] & Hi & ->)%fmap_Some.
      apply list_find_Some in Hi as (Hi & _). apply lookup_lt_Some in Hi. cbn. lia.
    - intros k Hkk. destruct (walk_cell ax reduced dd o k Hl Hkk) as [-> Hc]. cbn.
      rewrite strides_cells, u64_id by (unfold is_u64; lia). lia.
    - done.
    - cbn. rewrite <- Hsz. apply Htotal. }
  unfold by_dtype, with_elem. destruct (l_dtype l) eqn:Hd; apply Hrun; solve [apply _ | reflexivity].
Qed.

Lemma reduce_spec f args max_bytes :
  (forall reduced, reduced_axes (length shape) (axis args) f = Ok reduced ->
     zprod (lengths negb shape reduced) < two64) ->
  0 <= max_bytes < two64 - 1 ->
  reduce d l f args max_bytes = numpy_reduce (l_dtype l) shape stream f args max_bytes.
Proof.
  intros Hcells Hmax. unfold reduce, numpy_reduce. pose proof (axes_like_numpy (length shape) (axis args) f) as Hax.
  fold (numpy_axis (length shape) (axis args) f) in Hax. rewrite <- Hax.
  destruct (reduced_axes _ _ _) as [reduced| |] eqn:Hr; [|done..]. cbn [mbind result_bind].
  specialize (Hcells _ eq_refl). pose proof (length_reduced _ _ _ _ Hr) as Hl.
  pose proof (zprod_nonneg _ (lengths_nonneg negb shape reduced Hshape)) as Hk0.
  pose proof (zprod_nonneg _ (lengths_nonneg id shape reduced Hshape)) as Hd0.
  pose proof (kept_dropped shape reduced Hl) as Hkd. pose proof shape_fits as Hsf.
  pose proof (strides_cells shape reduced) as Hsc. rewrite u64_id in Hsc by (unfold is_u64; lia).
  pose proof (by_dtype_spec f (axis args) reduced (ddof args) (Function.result_dtype f (l_dtype l)) Hl Hcells) as Hby.
  unfold walk_of in Hby. destruct (strides shape reduced) as [st cs]. cbn [fst snd] in Hsc, Hby. subst cs.
  set (kept := zprod (lengths negb shape reduced)) in *. set (o := Function.result_dtype f (l_dtype l)) in *.
  assert ((max_bytes <? saturating_mul kept (DType.itemsize o)) = bool_decide (max_bytes < kept * DType.itemsize o)) as ->.
  { unfold saturating_mul. apply eq_true_iff_eq. rewrite bool_decide_eq_true, Z.ltb_lt. lia. }
  case_bool_decide as Hm; [by rewrite decide_True by done|]. rewrite decide_False by done.
  assert ((foldl wmul 1 (lengths id shape reduced) =? 0) && (0 <? kept) && Function.needs_an_element f =
    bool_decide (0 < kept /\ zprod (lengths id shape reduced) = 0 /\ Function.needs_an_element f = true)) as ->.
  { pose proof (foldl_wmul_mod 1 (lengths id shape reduced)) as Hw. rewrite Z.mul_1_l in Hw.
    rewrite u64_id in Hw by (apply foldl_wmul_range; unfold is_u64; lia). rewrite Hw. apply eq_true_iff_eq. rewrite bool_decide_eq_true, !andb_true_iff, Z.ltb_lt, Z.eqb_eq.
    destruct (decide (0 < kept)); [|intuition lia]. rewrite u64_id by (unfold is_u64; nia). tauto. }
  case_bool_decide; [by rewrite decide_True by done|]. rewrite decide_False by done. by rewrite Hby.
Qed.
End Refine.

(** The bytes of a selection, read by its layout: what [reduce] asks of a dataset. *)
Lemma served_stream `{Served D} (d : D) indices q l r :
  ds_open d -> Forall index_wf indices -> layout d indices q = Ok l ->
  Selection.resolve (ds_shape d) indices = Ok r ->
  (l_dtype l <> l_src_dtype l -> 2 * total_bytes l < two64) ->
  zprod (l_out_shape l) * DType.itemsize (l_dtype l) < two64 ->
  let stream := logical_stream (contents d) (ds_shape d) (ds_dtype d) (l_dtype l) r in
  Forall (fun m => 0 <= m) (l_out_shape l) /\
  total_bytes l = zprod (l_out_shape l) * DType.itemsize (l_dtype l) /\
  total_bytes l <= zlen stream /\
  forall offset (dst : bytes), 0 <= offset -> offset + zlen dst <= total_bytes l ->
    is_u64 offset -> is_u64 (zlen dst) -> ds_read_range d l offset dst = Ok (slice offset (zlen dst) stream).
Proof.
  intros Ho Hi Hl Hr Hb Hx stream. unfold layout in Hl.
  pose proof (resolved_ok _ _ _ (served_shape d Ho) Hi Hr) as Hw.
  destruct (layout_resolve_inv _ _ _ _ _ Hl) as (r' & Hr' & Hs & _ & _ & Ht & _). rewrite Hr in Hr'. injection Hr' as <-.
  pose proof (resolved_count_nonneg _ _ Hw). pose proof (itemsize_pos (l_dtype l)). rewrite Hs in *.
  rewrite num_elements_wraps, u64_id in Ht by (unfold is_u64; nia).
  pose proof (served_len d Ho) as [Hlen Hf].
  split; [apply (wf_shape_pos _ _ Hw)|]. split; [done|]. split.
  - by apply (total_within (contents d) (ds_shape d) indices (ds_dtype d) q l r (served_shape d Ho)).
  - intros offset dst ????. rewrite (served_reads d Ho indices q l r offset dst) by done. by rewrite decide_True.
Qed.

(** C13: A reduction is numpy's.  Whatever the dataset, the selection, the function, the
    axes and the dtype, [reduce] answers exactly what numpy's definition gives on the
    selected elements: reading in blocks, carrying an odometer and folding into all the
    cells at once change nothing, and neither do the refusals. *)
Theorem reduce_refines_numpy `{HalfNum, Served D} (d : D) indices q l r f args max_bytes :
  ds_open d -> Forall index_wf indices -> layout d indices q = Ok l ->
  Selection.resolve (ds_shape d) indices = Ok r ->
  (l_dtype l <> l_src_dtype l -> 2 * total_bytes l < two64) ->
  zprod (l_out_shape l) * DType.itemsize (l_dtype l) < two64 ->
  (forall reduced, reduced_axes (length (l_out_shape l)) (axis args) f = Ok reduced ->
     zprod (lengths negb (l_out_shape l) reduced) < two64) ->
  0 <= max_bytes < two64 - 1 ->
  reduce d l f args max_bytes =
  numpy_reduce (l_dtype l) (l_out_shape l)
    (logical_stream (contents d) (ds_shape d) (ds_dtype d) (l_dtype l) r) f args max_bytes.
Proof.
  intros Ho Hi Hl Hr Hb Hx Hc Hm. destruct (served_stream d indices q l r Ho Hi Hl Hr Hb Hx) as (Hs & Ht & Hw & Hread).
  apply reduce_spec; try done. lia.
Qed.

(** ** Every cell has an element *)

Fixpoint merge (reduced : list bool) (kept : list Z) : list Z :=
  match reduced with
  | [] => []
  | true :: reduced' => 0 :: merge reduced' kept
  | false :: reduced' =>
      match kept with c :: kept' => c :: merge reduced' kept' | [] => 0 :: merge reduced' [] end
  end.

Lemma merge_spec shape reduced kept :
  Forall (fun n => 0 < n) shape -> length reduced = length shape ->
  in_shape (lengths negb shape reduced) kept ->
  in_shape shape (merge reduced kept) /\ lengths negb (merge reduced kept) reduced = kept.
Proof.
  intros Hs. revert reduced kept. induction Hs as [|n shape Hn Hs IH]; intros [|r reduced] kept Hl Hk; cbn in *; try done.
  - apply Forall2_nil_inv_l in Hk as ->. split; [constructor|done].
  - destruct r; cbn in *.
    + destruct (IH reduced kept ltac:(lia) Hk) as [H1 H2]. split; [constructor; [lia|done]|done].
    + apply in_shape_cons in Hk as (c & kept' & -> & Hc & Hk).
      destruct (IH reduced kept' ltac:(lia) Hk) as [H1 H2]. split; [by constructor|]. cbn. by rewrite H2.
Qed.

Lemma positive_shape shape : Forall (fun n => 0 <= n) shape -> zprod shape <> 0 -> Forall (fun n => 0 < n) shape.
Proof.
  induction 1 as [|n shape Hn _ IH]; cbn; intros Hz; [constructor|].
  assert (n <> 0) by (intros ->; lia). constructor; [lia|]. apply IH. intros E. rewrite E in Hz. lia.
Qed.

Lemma cell_has_member shape reduced c :
  Forall (fun n => 0 <= n) shape -> length reduced = length shape ->
  Z.of_nat c < zprod (lengths negb shape reduced) -> zprod (lengths id shape reduced) <> 0 ->
  members shape reduced c <> [].
Proof.
  intros Hs Hl Hc Hd. pose proof (kept_dropped shape reduced Hl) as Hkd.
  assert (Forall (fun n => 0 < n) shape) as Hp by (apply positive_shape; [done|nia]).
  assert (Forall (fun n => 0 < n) (lengths negb shape reduced)) as Hpk
    by (apply positive_shape; [by apply lengths_nonneg|lia]).
  destruct (unravel_in (lengths negb shape reduced) (Z.of_nat c) ltac:(lia) Hpk) as [Hin Hrav].
  destruct (merge_spec shape reduced _ Hp Hl Hin) as [Hm Hback].
  set (idx := merge reduced _) in *. pose proof (ravel_range _ _ Hm) as Hr.
  destruct (unravel_in shape (ravel shape idx) Hr Hp) as [Hin' Hrav'].
  pose proof (ravel_inj _ _ _ Hin' Hm Hrav') as Hidx.
  enough (ravel shape idx ∈ members shape reduced c) as He by (intros E; rewrite E in He; by apply not_elem_of_nil in He).
  unfold members. apply list_elem_of_filter. split; [|apply elem_of_seqZ; lia].
  unfold cell_of. by rewrite Hidx, Hback.
Qed.

Lemma zprod_reduced kd shape reduced : zprod (reduced_shape kd shape reduced) = zprod (lengths negb shape reduced).
Proof.
  revert reduced. induction shape as [|n shape IH]; intros [|r reduced]; try done. cbn.
  destruct r, kd; cbn; rewrite IH; lia.
Qed.

(** ** The size of a cell *)

Lemma write_float_ok `{HalfNum} d re im :
  Function.integral d = false -> exists b, write_float d re im = Ok b /\ zlen b = DType.itemsize d.
Proof. destruct d; try done; intros _; eexists; (split; [reflexivity|]); cbn; by rewrite ?length_app, ?length_to_le_bytes. Qed.

Section CellSize.
Context `{HalfNum} {T : Type} (E : Elem T) `{!ElemLaws E}.

Lemma extreme_some f (xs : list (Z * T)) : xs <> [] -> is_Some (extreme E f xs).
Proof.
  unfold extreme. destruct xs as [|x xs]; [done|]. intros _. cbn [foldl Extreme.better].
  generalize x.2 as acc. induction xs as [|y xs IH]; intros acc; [by eexists|]. cbn [foldl]. unfold Extreme.better at 2.
  destruct (if ignores_nan f then _ else _); apply IH.
Qed.

Lemma first_extreme_some max (xs : list (Z * T)) : xs <> [] -> is_Some (first_extreme E max xs).
Proof.
  unfold first_extreme. destruct xs as [|x xs]; [done|]. intros _. cbn [foldl Arg.better].
  generalize (x.2, x.1, is_nan x.2) as acc. induction xs as [|y xs IH]; intros [[b at_] nan]; [by eexists|].
  cbn [foldl]. unfold Arg.better at 2. destruct nan; [apply IH|]. destruct (if max then _ else _); apply IH.
Qed.

Lemma reference_ok dt f dd xs :
  FLOAT (T:=T) = negb (Function.integral dt) -> DType.itemsize dt = Z.of_nat (SIZE (T:=T)) ->
  (Function.needs_an_element f = true -> xs <> []) ->
  exists b, reference E f dd (Function.result_dtype f dt) xs = Ok b /\
    zlen b = DType.itemsize (Function.result_dtype f dt).
Proof.
  intros HF Hsz Hne.
  assert (forall f', f' = Max \/ f' = Min \/ f' = NanMax \/ f' = NanMin -> xs <> [] ->
    exists b, (x ← expect (E:=AexError) (extreme E f' xs); Ok (e_write x)) = Ok b /\ zlen b = DType.itemsize dt) as Hext.
  { intros f' _ Hx. destruct (extreme_some f' xs Hx) as [x ->]. eexists. split; [done|]. by rewrite write_ok. }
  assert (forall max, xs <> [] -> exists b, ('(_, pos, _) ← expect (E:=AexError) (first_extreme E max xs);
    Ok (to_le_bytes 8 pos)) = Ok b /\ zlen b = 8) as Harg.
  { intros max Hx. destruct (first_extreme_some max xs Hx) as [[[x pos] nan] ->]. by eexists. }
  assert (forall f', f' = Sum \/ f' = Prod \/ f' = NanSum ->
    exists b, reference E f' dd (Function.result_dtype f' dt) xs = Ok b /\
      zlen b = DType.itemsize (Function.result_dtype f' dt)) as Hsum.
  { intros f' Hf'. unfold reference. destruct (FLOAT (T:=T)) eqn:HFT.
    - assert (Function.result_dtype f' dt = dt) as -> by (destruct Hf' as [-> | [-> | ->]]; by destruct dt).
      destruct (write_float_ok dt (float_total E f' xs).1 (float_total E f' xs).2) as [b Hb]; [by destruct (Function.integral dt)|].
      exists b. by destruct Hf' as [-> | [-> | ->]].
    - destruct (bits_of E xs HFT) as [vs Hvs].
      assert (DType.itemsize (Function.result_dtype f' dt) = 8) as ->
        by (destruct Hf' as [-> | [-> | ->]]; by destruct dt).
      exists (to_le_bytes 8 (int_total f' vs)). rewrite Hvs. by destruct Hf' as [-> | [-> | ->]]. }
  destruct f; cbn [Function.needs_an_element] in Hne;
    first [ apply Hsum; tauto | apply Hext; [tauto|by apply Hne] | apply Harg; by apply Hne | idtac ].
  - apply write_float_ok. by destruct dt.
  - cbn [reference]. destruct (deviations E xs) as [[[n mr] mi] m2]. apply write_float_ok. by destruct dt.
  - cbn [reference]. destruct (deviations E xs) as [[[n mr] mi] m2]. apply write_float_ok. by destruct dt.
  - by eexists.
  - by eexists.
  - apply write_float_ok. by destruct dt.
Qed.
End CellSize.

Lemma sized_cells (g : nat -> result AexError bytes) size cs :
  (forall c, c ∈ cs -> exists b, g c = Ok b /\ zlen b = size) ->
  exists parts, mapM g cs = Ok parts /\ zlen (concat parts) = zlen cs * size.
Proof.
  intros Hg. assert (exists parts, mapM g cs = Ok parts /\ length parts = length cs /\ Forall (fun b => zlen b = size) parts)
    as (parts & Hp & Hl & Hf).
  { induction cs as [|c cs IH]; [by exists []|]. destruct (Hg c ltac:(left)) as (b & Hb & Hs).
    destruct IH as (parts & Hp & Hl & Hf); [intros; apply Hg; by right|].
    exists (b :: parts). cbn. rewrite Hb. cbn. rewrite Hp. split; [done|]. split; [lia|by constructor]. }
  exists parts. split; [done|]. rewrite (concat_sizes size) by done. lia.
Qed.

(** ** When a reduction is answered *)

(** The axes a caller may ask for: in range, none twice, one at most for argmax and
    argmin. *)
Definition axes_accepted (ndim : nat) (ax : Axis) (f : Function) : Prop :=
  match ax with
  | AllAxes => True
  | One a => axis_ok ndim a
  | Many axes => f <> Argmax /\ f <> Argmin /\ Forall (axis_ok ndim) axes /\ NoDup (norm_axis ndim <$> axes)
  end.

(** Whether axis [i] is among them. *)
Definition reduces (ndim : nat) (ax : Axis) (i : nat) : bool :=
  match ax with
  | AllAxes => true
  | One a => bool_decide (Z.of_nat i = norm_axis ndim a)
  | Many axes => bool_decide (Z.of_nat i ∈ norm_axis ndim <$> axes)
  end.

(** The lengths of the axes that stay and of those that go. *)
Definition kept_axes (ax : Axis) (shape : list Z) : list Z :=
  concat (imap (fun i n => if reduces (length shape) ax i then [] else [n]) shape).
Definition gone_axes (ax : Axis) (shape : list Z) : list Z :=
  concat (imap (fun i n => if reduces (length shape) ax i then [n] else []) shape).

(** numpy's shape of the answer: an axis reduced is left out, or left with length 1. *)
Definition answer_shape (args : ReduceArgs) (shape : list Z) : list Z :=
  concat (imap (fun i n => if reduces (length shape) (axis args) i then (if keepdims args then [1] else []) else [n]) shape).

(** The reductions that have an answer: over axes that exist, of no more bytes than the
    server's limit, and with an element to choose in every cell when one has to be chosen. *)
Record answerable (dtype : DType) (shape : list Z) (f : Function) (args : ReduceArgs) (max_bytes : Z) : Prop := {
  an_axes : axes_accepted (length shape) (axis args) f;
  an_small : zprod (kept_axes (axis args) shape) * DType.itemsize (Function.result_dtype f dtype) <= max_bytes;
  an_element : Function.needs_an_element f = true -> 0 ∈ gone_axes (axis args) shape -> 0 ∈ kept_axes (axis args) shape;
}.

Lemma numpy_axis_accepts ndim ax f :
  match numpy_axis ndim ax f with
  | Ok reduced => axes_accepted ndim ax f /\ reduced = reduces ndim ax <$> seq 0 ndim
  | Err e => e = BadFunction /\ ~ axes_accepted ndim ax f
  | Panic => False
  end.
Proof.
  assert (forall axes, numpy_axes ndim axes =
    if decide (Forall (axis_ok ndim) axes /\ NoDup (norm_axis ndim <$> axes))
    then Ok ((fun i => bool_decide (Z.of_nat i ∈ norm_axis ndim <$> axes)) <$> seq 0 ndim) else Err BadFunction) as Hn.
  { intros axes. unfold numpy_axes. case_decide; [|done]. unfold seqZ. rewrite Nat2Z.id, <- list_fmap_compose. f_equal.
    apply list_fmap_ext. intros i k _. cbn. by rewrite Z.add_0_r. }
  destruct ax as [|a|axes]; cbn [numpy_axis axes_accepted reduces].
  - split; [done|]. change (reduces ndim AllAxes) with (fun _ : nat => true). by rewrite (const_fmap _ _ true), length_seq.
  - rewrite Hn. case_decide as Hd.
    + destruct Hd as [Ha _]. inversion Ha; subst. split; [done|]. apply list_fmap_ext. intros i k _. cbn.
      apply bool_decide_ext. by rewrite list_elem_of_singleton.
    + split; [done|]. intros Ha. apply Hd. split; [by constructor|]. cbn. apply NoDup_singleton.
  - case_decide as Hf; [split; [done|intros (?&?&_); by destruct Hf]|]. rewrite Hn.
    case_decide as Hd; split; try done; [|tauto]. destruct Hd. split_and!; try done; intros ->; tauto.
Qed.

(** A mask over the axes and the axes it picks. *)
Lemma masked_axes (rs : nat -> bool) kd n shape :
  reduced_shape kd shape (rs <$> seq n (length shape)) =
    concat (imap (fun i m => if rs (n + i)%nat then (if kd then [1] else []) else [m]) shape) /\
  lengths negb shape (rs <$> seq n (length shape)) = concat (imap (fun i m => if rs (n + i)%nat then [] else [m]) shape) /\
  lengths id shape (rs <$> seq n (length shape)) = concat (imap (fun i m => if rs (n + i)%nat then [m] else []) shape).
Proof.
  revert n. induction shape as [|m shape IH]; intros n; [done|]. destruct (IH (S n)) as (H1 & H2 & H3).
  cbn [length seq fmap list_fmap reduced_shape lengths imap concat]. rewrite H1, H2, H3, Nat.add_0_r.
  assert (forall A (g : bool -> Z -> list A), imap (fun i m => g (rs (S n + i)%nat) m) shape =
    imap ((fun i m => g (rs (n + i)%nat) m) ∘ S) shape) as Hs.
  { intros A g. apply imap_ext. intros i x _. cbn. by rewrite Nat.add_succ_r. }
  rewrite (Hs _ (fun b x => if b then (if kd then [1] else []) else [x])), (Hs _ (fun b x => if b then [] else [x])),
    (Hs _ (fun b x => if b then [x] else [])). by destruct (rs n), kd.
Qed.

Lemma zprod_zero_iff l : zprod l = 0 <-> 0 ∈ l.
Proof.
  induction l as [|n l IH]; cbn; [split; [lia|by intros ?%not_elem_of_nil]|]. rewrite elem_of_cons, <- IH, Z.mul_eq_0. naive_solver.
Qed.

(** What [numpy_reduce] comes to. *)
Lemma numpy_total `{HalfNum} dt shape stream f args max_bytes :
  Forall (fun n => 0 <= n) shape ->
  match numpy_reduce dt shape stream f args max_bytes with
  | Ok R => answerable dt shape f args max_bytes /\ r_dtype R = Function.result_dtype f dt /\ r_shape R = answer_shape args shape /\
            zlen (r_data R) = zprod (r_shape R) * DType.itemsize (r_dtype R) /\ zlen (r_data R) <= max_bytes
  | Err e => e = BadFunction /\ ~ answerable dt shape f args max_bytes
  | Panic => False
  end.
Proof.
  intros Hs. unfold numpy_reduce. pose proof (numpy_axis_accepts (length shape) (axis args) f) as Hr.
  destruct (numpy_axis (length shape) (axis args) f) as [reduced|e|]; cbn [mbind result_bind]; [|by destruct Hr as [-> Hr]; split; [|intros []]|done].
  destruct Hr as [Hax Hmask]. assert (length reduced = length shape) as Hl by (subst; by rewrite length_fmap, length_seq).
  destruct (masked_axes (reduces (length shape) (axis args)) (keepdims args) 0 shape) as (Hshape & Hkept & Hgone).
  rewrite <- Hmask in Hshape, Hkept, Hgone. cbn [Nat.add] in Hshape, Hkept, Hgone. fold (kept_axes (axis args) shape) in Hkept. fold (gone_axes (axis args) shape) in Hgone.
  fold (answer_shape args shape) in Hshape.
  case_decide as Hm; [split; [done|]; intros []; rewrite Hkept in Hm; lia|].
  pose proof (zprod_nonneg _ (lengths_nonneg negb shape reduced Hs)) as Hk.
  case_decide as He.
  { split; [done|]. intros [_ _ Hel]. destruct He as (Hpos & Hz & Hneed). rewrite Hgone in Hz. apply zprod_zero_iff in Hz.
    apply (Hel Hneed), zprod_zero_iff in Hz. rewrite <- Hkept in Hz. lia. }
  assert (answerable dt shape f args max_bytes) as Han.
  { split; [done|rewrite <- Hkept; lia|]. rewrite <- !zprod_zero_iff, <- Hkept, <- Hgone. intros Hneed Hz.
    destruct (decide (zprod (lengths negb shape reduced) = 0)); [done|]. exfalso. apply He. split; [lia|done]. }
  set (o := Function.result_dtype f dt) in *. set (kept := zprod (lengths negb shape reduced)) in *.
  assert (forall T (E : Elem T), ElemLaws E -> FLOAT (T:=T) = negb (Function.integral dt) ->
    DType.itemsize dt = Z.of_nat (SIZE (T:=T)) -> exists data, @concat Z <$> mapM (fun c =>
      reference E f (ddof args) o (cell_values E (axis args) shape reduced stream c))
      (seq 0 (Z.to_nat kept)) = Ok data /\ zlen data = kept * DType.itemsize o) as Hcells.
  { intros T E HE HF Hsz. destruct (sized_cells (fun c => reference E f (ddof args) o
      (cell_values E (axis args) shape reduced stream c)) (DType.itemsize o) (seq 0 (Z.to_nat kept))) as (parts & Hp & Hz).
    - intros c Hc%list_elem_of_In%in_seq. apply reference_ok; [done|done|done|]. intros Hne Hv.
      apply fmap_nil_inv in Hv. apply (cell_has_member shape reduced c); [done|done|fold kept; lia| |exact Hv].
      intros Hd. apply He. split; [lia|done].
    - exists (concat parts). rewrite Hp. split; [done|]. rewrite Hz, length_seq, Z2Nat.id by lia. done. }
  assert (exists data, with_elem (fun T E => @concat Z <$> mapM (fun c =>
      reference E f (ddof args) o (cell_values E (axis args) shape reduced stream c))
      (seq 0 (Z.to_nat kept))) dt = Ok data /\ zlen data = kept * DType.itemsize o) as (data & -> & Hz)
    by (destruct dt; apply Hcells; solve [apply _ | reflexivity]).
  cbn [mbind result_bind r_dtype r_data r_shape]. split; [done|]. split; [done|]. split; [done|]. rewrite zprod_reduced. fold kept. lia.
Qed.

(** C24: A reduction is answered exactly when it can be: over axes that exist, none of them
    named twice and one at most for argmax and argmin, with an answer no larger than the
    server's limit, and, for the functions that choose an element, with an element to
    choose in every cell.  The answer then has numpy's shape, the function's dtype and as
    many bytes as they say; every other request is refused as a bad function, and none
    panics: no cell of a maximum is left without an element and no integer reaches
    [write_float].  The elements and the cells are counted in 64 bits without wrapping. *)
Theorem reduce_total `{HalfNum, Served D} (d : D) indices q l r f args max_bytes :
  ds_open d -> Forall index_wf indices -> layout d indices q = Ok l ->
  Selection.resolve (ds_shape d) indices = Ok r ->
  (l_dtype l <> l_src_dtype l -> 2 * total_bytes l < two64) ->
  zprod (l_out_shape l) * DType.itemsize (l_dtype l) < two64 ->
  (forall reduced, reduced_axes (length (l_out_shape l)) (axis args) f = Ok reduced ->
     zprod (lengths negb (l_out_shape l) reduced) < two64) ->
  0 <= max_bytes < two64 - 1 ->
  match reduce d l f args max_bytes with
  | Ok R => answerable (l_dtype l) (l_out_shape l) f args max_bytes /\
            r_dtype R = Function.result_dtype f (l_dtype l) /\ r_shape R = answer_shape args (l_out_shape l) /\
            zlen (r_data R) = zprod (r_shape R) * DType.itemsize (r_dtype R) /\ zlen (r_data R) <= max_bytes
  | Err e => e = BadFunction /\ ~ answerable (l_dtype l) (l_out_shape l) f args max_bytes
  | Panic => False
  end.
Proof.
  intros Ho Hi Hl Hr Hb Hx Hc Hm. destruct (served_stream d indices q l r Ho Hi Hl Hr Hb Hx) as (Hs & Ht & Hw & Hread).
  rewrite (reduce_spec d l (logical_stream (contents d) (ds_shape d) (ds_dtype d) (l_dtype l) r)) by (done || lia).
  by apply numpy_total.
Qed.

(** ** Extremes *)

Section Extremes.
Context {T : Type} (E : Elem T).

Lemma extreme_snoc f (xs : list (Z * T)) x :
  extreme E f (xs ++ [x]) = Extreme.better (is_max f) (ignores_nan f) x.2 (extreme E f xs).
Proof. unfold extreme. by rewrite foldl_app. Qed.

Lemma first_extreme_snoc max (xs : list (Z * T)) x :
  first_extreme E max (xs ++ [x]) = Arg.better max x.1 x.2 (first_extreme E max xs).
Proof. unfold first_extreme. by rewrite foldl_app. Qed.
End Extremes.

(** [x] is no worse an extreme than [y]. *)
Definition beats (max : bool) (x y : Z) : Prop := if max then y <= x else x <= y.

Lemma int_extreme n s f (xs : list (Z * Z)) :
  xs <> [] -> exists x, extreme (int_elem n s) f xs = Some x /\ x ∈ xs.*2 /\
    Forall (fun y => beats (is_max f) x y.2) xs.
Proof.
  induction xs as [|y xs IH] using rev_ind; [done|]. intros _. rewrite extreme_snoc, fmap_app.
  destruct (decide (xs = [])) as [->|Hne].
  - exists y.2. split; [done|]. split; [by left|]. constructor; [|done]. unfold beats. destruct (is_max f); lia.
  - destruct (IH Hne) as (x & -> & Hin & Hall).
    assert (exists w, Extreme.better (H:=int_elem n s) (is_max f) (ignores_nan f) y.2 (Some x) = Some w /\
      (w = x \/ w = y.2) /\ beats (is_max f) w x /\ beats (is_max f) w y.2) as (w & -> & Hw & Hwx & Hwy).
    { cbn. unfold beats. destruct (is_max f), (ignores_nan f); cbn.
      1,2: destruct (Z.leb_spec y.2 x); eexists; (split; [done|]); (split; [tauto|]); lia.
      1,2: destruct (Z.leb_spec x y.2); eexists; (split; [done|]); (split; [tauto|]); lia. }
    exists w. split; [done|]. split; [apply elem_of_app; destruct Hw as [-> | ->]; [by left|right; by left]|].
    apply Forall_app. split; [|by constructor]. eapply Forall_impl; [exact Hall|]. intros v Hv. cbn in Hv.
    unfold beats in *. destruct (is_max f); lia.
Qed.

(** [x] is a strictly better extreme than [y]. *)
Definition outdoes (max : bool) (x y : Z) : Prop := if max then y < x else x < y.
#[export] Instance outdoes_dec max x y : Decision (outdoes max x y).
Proof. destruct max; cbn; apply _. Defined.

Lemma int_first_extreme n s max (xs : list (Z * Z)) :
  xs <> [] -> exists pos x before after,
    first_extreme (int_elem n s) max xs = Some (x, pos, false) /\ xs = before ++ (pos, x) :: after /\
    Forall (fun y => outdoes max x y.2) before /\ Forall (fun y => beats max x y.2) after.
Proof.
  induction xs as [|y xs IH] using rev_ind; [done|]. intros _. rewrite first_extreme_snoc.
  destruct (decide (xs = [])) as [->|Hne].
  - exists y.1, y.2, [], []. cbn. by destruct y.
  - destruct (IH Hne) as (pos & x & before & after & -> & Heq & Hb & Ha).
    assert ((if max then arg_gt (Elem:=int_elem n s) y.2 x else arg_lt (Elem:=int_elem n s) y.2 x)
      = bool_decide (outdoes max y.2 x)) as Hd.
    { apply eq_true_iff_eq. rewrite bool_decide_eq_true. unfold outdoes. destruct max; cbn; by rewrite Z.ltb_lt. }
    unfold Arg.better. rewrite Hd. case_bool_decide as Ho.
    + exists y.1, y.2, xs, []. cbn. split; [done|]. split; [by destruct y|]. split; [|done].
      rewrite Heq. apply Forall_app. split; [|constructor].
      * eapply Forall_impl; [exact Hb|]. intros v Hv. cbn in *. unfold outdoes in *. destruct max; lia.
      * done.
      * eapply Forall_impl; [exact Ha|]. intros v Hv. cbn in *. unfold outdoes, beats in *. destruct max; lia.
    + exists pos, x, before, (after ++ [y]). split; [done|]. split; [by rewrite Heq, <- app_assoc|]. split; [done|].
      apply Forall_app. split; [done|]. constructor; [|done]. unfold outdoes, beats in *. destruct max; lia.
Qed.

Lemma ok_inj {E A} (a b : A) : Ok (E:=E) a = Ok b -> a = b.
Proof. by intros [= ->]. Qed.

(** ** Integers *)

(** The size and signedness of an integer dtype. *)
Definition int_type (d : DType) : option (nat * bool) :=
  match d with
  | Int8 => Some (1%nat, true)
  | Int16 => Some (2%nat, true)
  | Int32 => Some (4%nat, true)
  | Int64 => Some (8%nat, true)
  | Uint8 => Some (1%nat, false)
  | Uint16 => Some (2%nat, false)
  | Uint32 => Some (4%nat, false)
  | Uint64 => Some (8%nat, false)
  | _ => None
  end.

Lemma with_int `{HalfNum} {R} (x : forall T, Elem T -> R) d n s :
  int_type d = Some (n, s) -> with_elem x d = x Z (int_elem n s).
Proof. destruct d; try done; by intros [= <- <-]. Qed.

Lemma int_type_size d n s : int_type d = Some (n, s) -> DType.itemsize d = Z.of_nat n.
Proof. destruct d; try done; by intros [= <- <-]. Qed.

(** What stands at cell [c] of a result over integers is the reference of the cell. *)
Lemma int_cell `{HalfNum} dt n s shape stream f args max_bytes R reduced (c : nat) :
  Forall (fun m => 0 <= m) shape -> int_type dt = Some (n, s) ->
  numpy_reduce dt shape stream f args max_bytes = Ok R ->
  reduced_axes (length shape) (axis args) f = Ok reduced ->
  Z.of_nat c < zprod (lengths negb shape reduced) ->
  let xs := cell_values (int_elem n s) (axis args) shape reduced stream c in
  let size := DType.itemsize (Function.result_dtype f dt) in
  reference (int_elem n s) f (ddof args) (Function.result_dtype f dt) xs =
    Ok (slice (Z.of_nat c * size) size (r_data R)) /\
  (Function.needs_an_element f = true -> xs <> []).
Proof.
  intros Hs Hi HR Hax Hc xs size. pose proof (length_reduced _ _ _ _ Hax) as Hl. unfold numpy_reduce in HR.
  rewrite axes_like_numpy in Hax. fold (numpy_axis (length shape) (axis args) f) in Hax. rewrite Hax in HR.
  cbn [mbind result_bind] in HR. case_decide as Hm; [done|]. case_decide as He; [done|].
  rewrite (with_int _ _ _ _ Hi) in HR. apply bind_ok in HR as (data & Hd & [= <-]). cbn [r_data].
  apply fmap_ok in Hd as (parts & Hp & ->). apply mapM_ok in Hp.
  assert (forall c', Z.of_nat c' < zprod (lengths negb shape reduced) -> Function.needs_an_element f = true ->
    cell_values (int_elem n s) (axis args) shape reduced stream c' <> []) as Hne.
  { intros c' Hc' Hn Hv. apply fmap_nil_inv in Hv. apply (cell_has_member shape reduced c'); [done|done|done| |exact Hv].
    intros Hd. apply He. split; [lia|done]. }
  assert (ElemLaws (int_elem n s)) as HE by (destruct dt; try done; injection Hi as <- <-; apply _).
  assert (FLOAT (Elem:=int_elem n s) = negb (Function.integral dt)) as HF by (destruct dt; try done).
  assert (Forall (fun b => zlen b = size) parts) as Hsz.
  { apply Forall_forall. intros b Hb. apply list_elem_of_lookup in Hb as [i Hib].
    destruct (Forall2_lookup_r _ _ _ _ _ Hp Hib) as (c' & Hc' & Href). apply lookup_seq in Hc' as [-> Hlt].
    destruct (reference_ok (int_elem n s) dt f (ddof args) (cell_values (int_elem n s) (axis args) shape reduced stream (0 + i)))
      as (b' & Hb' & Hz); [done|by apply (int_type_size _ n s)|intros; apply Hne; [lia|done]|].
    rewrite Href in Hb'. injection Hb' as ->. done. }
  split; [|by apply Hne].
  destruct (Forall2_lookup_l _ _ _ c c Hp) as (b & Hb & Href).
  { rewrite lookup_seq_lt; [done|lia]. }
  unfold xs. rewrite Href. f_equal. symmetry. by apply nth_part.
Qed.

Lemma bits_total f (xs : list (Z * Z)) n s vs :
  mapM (M:=result AexError) (fun x : Z * Z => int_bits (Elem:=int_elem n s) x.2) xs = Ok vs ->
  u64 (int_total f vs) = u64 (int_total f xs.*2).
Proof.
  rewrite (mapM_ext_all _ (fun x : Z * Z => Ok (as_u64 (as_i64 x.2)))) by done. rewrite mapM_pure.
  intros [= <-]. unfold int_total.
  assert (forall x, u64 (as_u64 (as_i64 x)) = u64 x) as Hx.
  { intros x. unfold as_u64, as_i64. rewrite u64_u64. case_decide; [apply u64_u64|]. rewrite u64_sub_l.
    unfold u64. rewrite <- (Z.mod_add x (-1) two64) by lia. f_equal. }
  destruct (is_prod f); induction xs as [|x xs IH]; try done; rewrite !fmap_cons; cbn [foldr].
  - rewrite <- u64_mul_l, Hx, u64_mul_l, <- u64_mul_r, IH. by rewrite u64_mul_r.
  - rewrite <- u64_add_l, Hx, u64_add_l, <- u64_add_r, IH. by rewrite u64_add_r.
Qed.

Section IntegerTheorems.
Context `{HalfNum, Served D} (d : D) (indices : list Index) (q : QualitySpec).
Context (l : SelectionLayout) (r : ResolvedSelection) (f : Function) (args : ReduceArgs) (max_bytes : Z).
Context (reduced : list bool) (n : nat) (s : bool).
#[local] Abbreviation shape := (l_out_shape l).
Context (Ho : ds_open d) (Hi : Forall index_wf indices) (Hl : layout d indices q = Ok l).
Context (Hr : Selection.resolve (ds_shape d) indices = Ok r).
Context (Hb : l_dtype l <> l_src_dtype l -> 2 * total_bytes l < two64).
Context (Hx : zprod shape * DType.itemsize (l_dtype l) < two64).
Context (Hax : reduced_axes (length shape) (axis args) f = Ok reduced).
Context (Hcells : zprod (lengths negb shape reduced) < two64) (Hm : 0 <= max_bytes < two64 - 1).
Context (Hint : int_type (l_dtype l) = Some (n, s)).

(** The elements of cell [c] of the selection. *)
Definition selected_values (c : nat) : list (Z * Z) :=
  cell_values (int_elem n s) (axis args) shape reduced
    (logical_stream (contents d) (ds_shape d) (ds_dtype d) (l_dtype l) r) c.

Lemma selected_cell R (c : nat) :
  reduce d l f args max_bytes = Ok R -> Z.of_nat c < zprod (lengths negb shape reduced) ->
  let size := DType.itemsize (Function.result_dtype f (l_dtype l)) in
  reference (int_elem n s) f (ddof args) (Function.result_dtype f (l_dtype l)) (selected_values c) =
    Ok (slice (Z.of_nat c * size) size (r_data R)) /\
  (Function.needs_an_element f = true -> selected_values c <> []).
Proof.
  intros HR Hc. destruct (served_stream d indices q l r Ho Hi Hl Hr Hb Hx) as (Hs & Ht & Hw & Hread).
  rewrite (reduce_spec d l (logical_stream (contents d) (ds_shape d) (ds_dtype d) (l_dtype l) r)) in HR.
  - exact (int_cell _ n s _ _ f args max_bytes R reduced c Hs Hint HR Hax Hc).
  - done.
  - done.
  - lia.
  - done.
  - done.
  - intros reduced' Hax'. rewrite Hax in Hax'. by injection Hax' as <-.
  - done.
Qed.
End IntegerTheorems.

(** Integer sums and products are exact modulo 2^64, as numpy's are: the eight bytes
    of a cell are those of the exact sum, or product, of the selected integers whose kept
    coordinates name the cell, whichever width and sign they have. *)
Theorem sums_wrap_exactly `{HalfNum, Served D} (d : D) indices q l r f args max_bytes
    reduced n s R (c : nat) :
  ds_open d -> Forall index_wf indices -> layout d indices q = Ok l ->
  Selection.resolve (ds_shape d) indices = Ok r ->
  (l_dtype l <> l_src_dtype l -> 2 * total_bytes l < two64) ->
  zprod (l_out_shape l) * DType.itemsize (l_dtype l) < two64 ->
  reduced_axes (length (l_out_shape l)) (axis args) f = Ok reduced ->
  zprod (lengths negb (l_out_shape l) reduced) < two64 -> 0 <= max_bytes < two64 - 1 ->
  int_type (l_dtype l) = Some (n, s) -> f = Sum \/ f = Prod \/ f = NanSum ->
  reduce d l f args max_bytes = Ok R -> Z.of_nat c < zprod (lengths negb (l_out_shape l) reduced) ->
  let xs := (selected_values d l r args reduced n s c).*2 in
  slice (Z.of_nat c * 8) 8 (r_data R) = to_le_bytes 8 (if decide (f = Prod) then foldr Z.mul 1 xs else foldr Z.add 0 xs).
Proof.
  intros Ho Hi Hl Hr Hb Hx Hax Hc Hm Hint Hf HR Hcc xs.
  destruct (selected_cell d indices q l r f args max_bytes reduced n s Ho Hi Hl Hr Hb Hx Hax Hc Hm Hint R c HR Hcc) as [Href _].
  assert (DType.itemsize (Function.result_dtype f (l_dtype l)) = 8) as Hsz
    by (destruct Hf as [-> | [-> | ->]]; by destruct (l_dtype l)).
  rewrite Hsz in Href. set (vals := selected_values d l r args reduced n s c) in *.
  assert (forall o, reference (int_elem n s) f (ddof args) o vals =
    (vs ← mapM (fun x : Z * Z => int_bits (Elem:=int_elem n s) x.2) vals; Ok (to_le_bytes 8 (int_total f vs)))) as E
    by (intros o; by destruct Hf as [-> | [-> | ->]]).
  rewrite E in Href. apply bind_ok in Href as (vs & Hvs & <-%ok_inj).
  rewrite <- (to_le_bytes_u64 (int_total f vs)), (bits_total f vals n s vs Hvs), to_le_bytes_u64. unfold int_total, is_prod.
  by rewrite <- decide_bool_decide.
Qed.

(** Over integers max, min, argmax and argmin are exact, and a tie is the first's: the
    selected integers of a cell split around one element that outdoes every one before it
    and that none after it outdoes; max and min answer its value, argmax and argmin its
    position. *)
Theorem extremes_exact `{HalfNum, Served D} (d : D) indices q l r f args max_bytes
    reduced n s R (c : nat) :
  ds_open d -> Forall index_wf indices -> layout d indices q = Ok l ->
  Selection.resolve (ds_shape d) indices = Ok r ->
  (l_dtype l <> l_src_dtype l -> 2 * total_bytes l < two64) ->
  zprod (l_out_shape l) * DType.itemsize (l_dtype l) < two64 ->
  reduced_axes (length (l_out_shape l)) (axis args) f = Ok reduced ->
  zprod (lengths negb (l_out_shape l) reduced) < two64 -> 0 <= max_bytes < two64 - 1 ->
  int_type (l_dtype l) = Some (n, s) -> Function.needs_an_element f = true ->
  reduce d l f args max_bytes = Ok R -> Z.of_nat c < zprod (lengths negb (l_out_shape l) reduced) ->
  let max := bool_decide (f = Max \/ f = NanMax \/ f = Argmax) in
  exists pos x before after,
    selected_values d l r args reduced n s c = before ++ (pos, x) :: after /\
    Forall (fun y => outdoes max x y.2) before /\ Forall (fun y => beats max x y.2) after /\
    (if decide (f = Argmax \/ f = Argmin)
     then slice (Z.of_nat c * 8) 8 (r_data R) = to_le_bytes 8 pos
     else slice (Z.of_nat c * Z.of_nat n) (Z.of_nat n) (r_data R) = to_le_bytes n x).
Proof.
  intros Ho Hi Hl Hr Hb Hx Hax Hc Hm Hint Hf HR Hcc max.
  destruct (selected_cell d indices q l r f args max_bytes reduced n s Ho Hi Hl Hr Hb Hx Hax Hc Hm Hint R c HR Hcc) as [Href Hne].
  specialize (Hne Hf). set (vals := selected_values d l r args reduced n s c) in *.
  destruct (int_first_extreme n s max vals Hne) as (pos & x & before & after & Hfe & Heq & Hbe & Haf).
  exists pos, x, before, after. split; [done|]. split; [done|]. split; [done|]. case_decide as Ha.
  - assert (max = bool_decide (f = Argmax)) as Hmx by (unfold max; apply bool_decide_ext; naive_solver).
    assert (DType.itemsize (Function.result_dtype f (l_dtype l)) = 8) as Hsz by (destruct Ha as [-> | ->]; done).
    assert (forall o, reference (int_elem n s) f (ddof args) o vals =
      ('(_, pos, _) ← expect (first_extreme (int_elem n s) (bool_decide (f = Argmax)) vals); Ok (to_le_bytes 8 pos))) as E
      by (intros o; by destruct Ha as [-> | ->]).
    rewrite Hsz, E, <- Hmx, Hfe in Href. by apply ok_inj in Href as <-.
  - assert (DType.itemsize (Function.result_dtype f (l_dtype l)) = Z.of_nat n) as Hsz.
    { rewrite <- (int_type_size _ _ _ Hint). destruct f; try done; naive_solver. }
    rewrite Hsz in Href. destruct (int_extreme n s f vals Hne) as (y & Hy & Hin & Hall).
    assert (max = is_max f) as Hmx.
    { unfold max, is_max. apply bool_decide_ext. naive_solver. }
    assert (y = x) as ->.
    { rewrite Hmx in *. assert (beats (is_max f) y x) as Hb1.
      { rewrite Heq in Hall. apply Forall_app in Hall as [_ Hall]. by apply Forall_cons in Hall as [? _]. }
      rewrite Heq, fmap_app, fmap_cons in Hin. rewrite Forall_forall in Hbe, Haf.
      assert (beats (is_max f) x y) as Hb2.
      { apply elem_of_app in Hin as [Hin|Hin%elem_of_cons].
        - apply list_elem_of_fmap in Hin as (z & -> & Hz). specialize (Hbe z Hz). unfold outdoes, beats in *.
          destruct (is_max f); lia.
        - destruct Hin as [->|Hin]; [unfold beats; destruct (is_max f); cbn; lia|].
          apply list_elem_of_fmap in Hin as (z & -> & Hz). by apply Haf. }
      unfold beats in *. destruct (is_max f); lia. }
    assert (forall o, reference (int_elem n s) f (ddof args) o vals =
      (x ← expect (extreme (int_elem n s) f vals); Ok (to_le_bytes n x))) as E
      by (intros o; destruct f; try done; naive_solver).
    rewrite E, Hy in Href. by apply ok_inj in Href as <-.
Qed.

(** ** NaN *)

Section Nan.
Context (n : nat) (decode : Z -> Float.f64).
#[local] Abbreviation E := (ieee_elem n decode).

Lemma nan_incomparable x y :
  is_nan (Elem:=E) x = true \/ is_nan (Elem:=E) y = true ->
  e_ge (Elem:=E) x y = false /\ e_le (Elem:=E) x y = false.
Proof.
  cbn. unfold Float.is_nan, Float.ge, Float.le, SpecFloat.SFleb, SpecFloat.SFcompare.
  destruct (decode x), (decode y); intuition congruence.
Qed.

Lemma better_nan f x acc :
  f = Max \/ f = Min \/ f = NanMax \/ f = NanMin ->
  exists w, Extreme.better (H:=E) (is_max f) (ignores_nan f) x (Some acc) = Some w /\
    is_nan (Elem:=E) w = (if ignores_nan f then is_nan (Elem:=E) acc && is_nan (Elem:=E) x
                          else is_nan (Elem:=E) acc || is_nan (Elem:=E) x).
Proof.
  intros Hf. unfold Extreme.better. pose proof (nan_incomparable acc x) as Hinc.
  destruct (is_nan (Elem:=E) x) eqn:Hx, (is_nan (Elem:=E) acc) eqn:Ha;
    try (destruct (Hinc ltac:(tauto)) as [-> ->]); destruct (is_max f), (ignores_nan f); cbn [orb andb];
    repeat case_match; eexists; split; try reflexivity; congruence.
Qed.

(** Floating extremes treat NaN as numpy does: max and min of a cell are NaN as soon
    as one of its elements is; nanmax and nanmin only when all are. *)
Theorem nan_extremes f (xs : list (Z * Z)) :
  f = Max \/ f = Min \/ f = NanMax \/ f = NanMin -> xs <> [] ->
  exists x, extreme E f xs = Some x /\
    is_nan (Elem:=E) x = if ignores_nan f then forallb (fun y => is_nan (Elem:=E) y.2) xs
      else existsb (fun y => is_nan (Elem:=E) y.2) xs.
Proof.
  intros Hf. induction xs as [|y xs IH] using rev_ind; [done|]. intros _. rewrite extreme_snoc.
  destruct (decide (xs = [])) as [->|Hne].
  - exists y.2. split; [done|]. cbn [app forallb existsb]. destruct (ignores_nan f); cbn; by destruct (Float.is_nan _).
  - destruct (IH Hne) as (x & -> & Hx). destruct (better_nan f y.2 x Hf) as (w & -> & Hw).
    exists w. split; [done|]. rewrite Hw, Hx. destruct (ignores_nan f).
    + rewrite forallb_app. cbn [forallb]. by rewrite andb_true_r.
    + rewrite existsb_app. cbn [existsb]. by rewrite orb_false_r.
Qed.

(** Argmax and argmin over floats answer the first NaN when there is one. *)
Theorem first_nan_wins max before pos x (after : list (Z * Z)) :
  Forall (fun y => is_nan (Elem:=E) y.2 = false) before -> is_nan (Elem:=E) x = true ->
  first_extreme E max (before ++ (pos, x) :: after) = Some (x, pos, true).
Proof.
  intros Hb Hx. unfold first_extreme. rewrite foldl_app. cbn [foldl].
  assert (Arg.better (H:=E) max pos x (foldl (fun s y => Arg.better max y.1 y.2 s) None before) = Some (x, pos, true)) as ->.
  { assert (match foldl (fun s y => Arg.better (H:=E) max y.1 y.2 s) None before with
            | Some (_, _, nan) => nan = false | None => True end) as Hnan.
    { clear Hx. revert Hb. induction before as [|y before IH] using rev_ind; [done|].
      intros [Hb Hy%Forall_inv]%Forall_app. rewrite foldl_app. cbn [foldl]. specialize (IH Hb).
      destruct (foldl _ None before) as [[[b p] nan]|]; cbn [Arg.better]; [|exact Hy]. subst nan.
      destruct (if max then _ else _); done. }
    destruct (foldl _ None before) as [[[b p] nan]|]; cbn [Arg.better]; [subst nan|by rewrite Hx].
    destruct (nan_incomparable x b (or_introl Hx)) as [Hge Hle]. cbn in Hge, Hle, Hx. cbn. rewrite Hge, Hle, Hx.
    by destruct max. }
  induction after as [|y after IH]; [done|]. cbn [foldl Arg.better]. apply IH.
Qed.
End Nan.

(** ** At concrete inputs *)

(** A stand-in for the [half] crate's numbers. *)
Definition demo_half_num : HalfNum := {|
  f16_to_f64 _ := Float.zero; f16_from_f64 _ := 0; f16_from_u8 z := z; f16_is_nan _ := false;
  f16_ge x y := y <=? x; f16_le x y := x <=? y; f16_eq x y := x =? y |}.

(** Six two-byte integers, three columns of two: [\[256 770 1284; 1798 2312 2826\]]. *)
Definition demo_null : NullDataset :=
  {| n_dtype := Int16; n_shape := [2; 3]; n_data_len := 12; n_pattern := position_bytes 0 256 |}.
Definition demo_null_layout : SelectionLayout :=
  {| l_out_shape := [2; 3]; l_dtype := Int16; l_src_dtype := Int16; total_bytes := 12;
     l_quality := QualitySpec.exact; kind := Contiguous 0 12 |}.
Definition demo_null_resolved : ResolvedSelection :=
  {| axes := [Range 0 2 1; Range 0 3 1]; out_shape := [2; 3]; advanced := None |}.
Definition columns : ReduceArgs := {| axis := One 0; keepdims := false; ddof := 0 |}.

Lemma demo_null_is_open : ds_open (Served:=@null_served demo_build demo_half) demo_null.
Proof.
  split; [|reflexivity]. split; cbn; [repeat constructor; lia|split; [reflexivity|lia]|].
  exists 1. split; [lia|reflexivity].
Qed.

Lemma demo_cells_fit f reduced :
  reduced_axes 2 (One 0) f = Ok reduced -> zprod (lengths negb [2; 3] reduced) < two64.
Proof. intros H. vm_compute in H. injection H as <-. reflexivity. Qed.

Lemma reduce_refines_numpy_witness :
  @reduce demo_half_num _ (@null_dataset demo_half) demo_null demo_null_layout Sum columns 1000 =
  Ok {| r_dtype := Int64; r_shape := [3];
        r_data := [6; 8; 0; 0; 0; 0; 0; 0; 10; 12; 0; 0; 0; 0; 0; 0; 14; 16; 0; 0; 0; 0; 0; 0] |}.
Proof.
  rewrite (@reduce_refines_numpy demo_half_num _ demo_build demo_half _ (@null_served demo_build demo_half)
    demo_null [] QualitySpec.exact demo_null_layout demo_null_resolved).
  - vm_compute. reflexivity.
  - apply demo_null_is_open.
  - constructor.
  - reflexivity.
  - reflexivity.
  - intros Hne. by destruct Hne.
  - reflexivity.
  - apply demo_cells_fit.
  - lia.
Defined.

Lemma reduce_total_witness :
  exists R, @reduce demo_half_num _ (@null_dataset demo_half) demo_null demo_null_layout Argmax columns 24 = Ok R /\
    zlen (r_data R) = zprod (r_shape R) * DType.itemsize (r_dtype R).
Proof.
  pose proof (@reduce_total demo_half_num _ demo_build demo_half _ (@null_served demo_build demo_half)
    demo_null [] QualitySpec.exact demo_null_layout demo_null_resolved Argmax columns 24 demo_null_is_open
    ltac:(constructor) eq_refl eq_refl ltac:(intros Hne; by destruct Hne) eq_refl (demo_cells_fit _) ltac:(lia)) as H.
  eexists. split; [vm_compute; reflexivity|]. vm_compute in H. apply H.
Defined.

Lemma sums_wrap_exactly_witness :
  exists R, @reduce demo_half_num _ (@null_dataset demo_half) demo_null demo_null_layout Prod columns 1000 = Ok R /\
    slice 8 8 (r_data R) = to_le_bytes 8 (770 * 2312).
Proof.
  eexists. split; [vm_compute; reflexivity|].
  exact (@sums_wrap_exactly demo_half_num _ demo_build demo_half _ (@null_served demo_build demo_half)
    demo_null [] QualitySpec.exact demo_null_layout demo_null_resolved Prod columns 1000 [true; false] 2 true _ 1
    demo_null_is_open ltac:(constructor) eq_refl eq_refl ltac:(intros Hne; by destruct Hne) eq_refl eq_refl eq_refl
    ltac:(lia) eq_refl ltac:(tauto) ltac:(vm_compute; reflexivity) ltac:(reflexivity)).
Defined.

Lemma extremes_exact_witness :
  exists R pos, @reduce demo_half_num _ (@null_dataset demo_half) demo_null demo_null_layout Argmax columns 1000 = Ok R /\
    slice 16 8 (r_data R) = to_le_bytes 8 pos /\ pos = 1.
Proof.
  pose proof (@extremes_exact demo_half_num _ demo_build demo_half _ (@null_served demo_build demo_half)
    demo_null [] QualitySpec.exact demo_null_layout demo_null_resolved Argmax columns 1000 [true; false] 2 true _ 2
    demo_null_is_open ltac:(constructor) eq_refl eq_refl ltac:(intros Hne; by destruct Hne) eq_refl eq_refl eq_refl
    ltac:(lia) eq_refl eq_refl ltac:(vm_compute; reflexivity) ltac:(reflexivity)) as (pos & x & b & a & Heq & Hb & Ha & Hp).
  exists {| r_dtype := Int64; r_shape := [3];
    r_data := [1; 0; 0; 0; 0; 0; 0; 0; 1; 0; 0; 0; 0; 0; 0; 0; 1; 0; 0; 0; 0; 0; 0; 0] |}, 1.
  split; [vm_compute; reflexivity|]. split; reflexivity.
Defined.

Lemma nan_extremes_witness :
  exists x, extreme f32_elem Max [(0, 0x3f800000); (1, 0x7fc00000); (2, 0x40000000)] = Some x /\
    is_nan (Elem:=f32_elem) x = true.
Proof.
  exact (nan_extremes 4 Float.f32_decode Max [(0, 0x3f800000); (1, 0x7fc00000); (2, 0x40000000)]
    ltac:(tauto) ltac:(discriminate)).
Defined.

Lemma first_nan_wins_witness :
  first_extreme f32_elem true [(0, 0x3f800000); (1, 0x7fc00000); (2, 0x40000000)] = Some (0x7fc00000, 1, true).
Proof.
  exact (first_nan_wins 4 Float.f32_decode true [(0, 0x3f800000)] 1 0x7fc00000 [(2, 0x40000000)]
    ltac:(repeat constructor) ltac:(reflexivity)).
Defined.

(** Where the byte count of a selection wraps to nothing no element is read, the check for
    an empty reduction looks at the axes instead, and a maximum panics. *)
Theorem wrapped_total_panics :
  exists l, @SelectionLayout.resolve demo_build [2 ^ 62; 4] Float64 [] QualitySpec.exact = Ok l /\
    forall d, @reduce demo_half_num _ (@null_dataset demo_half) d l Max columns 1000 = Panic.
Proof. eexists. split; [vm_compute; reflexivity|]. intros d. vm_compute. reflexivity. Qed.
