(* ===== verification/Paths.v ===== *)
(** Which files a client may open: [aex-server/src/paths.rs], over the file system's
    [canonicalize], which follows every symbolic link. *)
From Stdlib Require Import Ascii.
From stdpp Require Import strings.
From S2P Require Import Prelude Errors Text.

(** The file system, as the policy asks it. *)
Class Fs := {
  canonicalize : string -> result ErrorKind string;
  is_dir : string -> bool;
  is_file : string -> bool;
}.

(** The components of a canonical path. *)
Definition components (path : string) : list (list ascii) :=
  filter (fun c => c <> []) (split "/" (String.list_ascii_of_string path)).

(** A path none of whose components leads back up. *)
Definition plain (path : string) : Prop := Forall (fun c => c <> ["."%char] /\ c <> ["."%char; "."%char]) (components path).

(** What [std::fs::canonicalize] documents of its answers: every component is normalised and
    every link followed, so there is nothing left to resolve. *)
Class FsLaws `{Fs} := {
  canonical_plain p q : canonicalize p = Ok q -> plain q;
  canonical_again p q : canonicalize p = Ok q -> canonicalize q = Ok q;
}.

(** [Path::starts_with], which compares whole components. *)
Definition starts_with (path root : string) : bool :=
  bool_decide (components root `prefix_of` components path).

Definition is_absolute (path : string) : bool :=
  match path with String c _ => Ascii.eqb c "/" | EmptyString => false end.

(** [Path::join] with a relative path. *)
Definition join (root path : string) : string :=
  if bool_decide (last (String.list_ascii_of_string root) = Some "/"%char) then root ++ path else root ++ "/" ++ path.

Record PathPolicy : Type := { p_roots : list string }.

Module PathPolicy.
Section Ops.
Context `{Fs}.

Definition new (roots : list string) : result ServerError PathPolicy :=
  if decide (roots = []) then Err SConfig
  else
    resolved ← mapM (fun root =>
      canonical ← map_err (fun _ => SConfig) (canonicalize root);
      if is_dir canonical then Ok canonical else Err SConfig) roots;
    Ok {| p_roots := resolved |}.

(** The loop over the candidates; [last_error] is the reason the last one failed. *)
Fixpoint try_candidates (roots : list string) (last_error : option ErrorKind) (candidates : list string)
    : result ServerError string :=
  match candidates with
  | [] => reason ← expect last_error; Err (SCore (Io reason))
  | candidate :: rest =>
      match canonicalize candidate with
      | Ok resolved =>
          if existsb (fun root => starts_with resolved root) roots then Ok resolved else Err SPathNotAllowed
      | Err e => try_candidates roots (Some e) rest
      | Panic => Panic
      end
  end.

(** The path a request names, once it is known to be inside a root. *)
Definition locate (p : PathPolicy) (requested : string) : result ServerError string :=
  if decide (requested = "") then Err SBadRequest
  else
    let candidates := if is_absolute requested then [requested]
                      else (fun root => join root requested) <$> p_roots p in
    try_candidates (p_roots p) None candidates.

Definition resolve (p : PathPolicy) (requested : string) : result ServerError string :=
  resolved ← locate p requested;
  if is_file resolved then Ok resolved else Err SBadRequest.

Definition resolve_store (p : PathPolicy) (requested : string) : result ServerError string :=
  resolved ← locate p requested;
  if is_dir resolved then Ok resolved else Err SBadRequest.
End Ops.
End PathPolicy.

Section Policy.
Context `{Fs}.
Context (fs_total : forall path, canonicalize path <> Panic).

Definition inside (roots : list string) (path : string) : Prop :=
  exists root, root ∈ roots /\ components root `prefix_of` components path.

Lemma inside_existsb roots path : existsb (fun root => starts_with path root) roots = true <-> inside roots path.
Proof.
  rewrite existsb_exists. unfold inside, starts_with. split.
  - intros (root & Hin & Hp%bool_decide_eq_true). exists root. split; [by apply list_elem_of_In|done].
  - intros (root & Hin & Hp). exists root. split; [by apply list_elem_of_In|by apply bool_decide_eq_true].
Qed.

Lemma try_candidates_spec roots last candidates :
  last <> None \/ candidates <> [] ->
  match PathPolicy.try_candidates roots last candidates with
  | Ok path => inside roots path /\ exists i candidate, candidates !! i = Some candidate /\
      canonicalize candidate = Ok path /\
      forall j c, (j < i)%nat -> candidates !! j = Some c -> exists e, canonicalize c = Err e
  | Err e => e = SPathNotAllowed \/ (exists k, e = SCore (Io k)) /\
      forall c, c ∈ candidates -> exists k, canonicalize c = Err k
  | Panic => False
  end.
Proof.
  revert last. induction candidates as [|c candidates IH]; intros last Hne; cbn [PathPolicy.try_candidates].
  - destruct last as [k|]; [|by destruct Hne]. cbn. right. split; [by exists k|]. by intros ? ?%elem_of_nil.
  - destruct (canonicalize c) as [path|k|] eqn:Hc; [| |by destruct (fs_total c)].
    + destruct (existsb _ _) eqn:He; [|by left]. split; [by apply inside_existsb|]. exists 0%nat, c.
      split; [done|]. split; [done|]. intros. lia.
    + specialize (IH (Some k) ltac:(by left)). destruct (PathPolicy.try_candidates _ _ _) as [path|e|]; [| |done].
      * destruct IH as (Hi & i & c' & Hl & Hp & Hbefore). split; [done|]. exists (S i), c'. split; [done|]. split; [done|].
        intros [|j] c'' Hj Hc''; [cbn in Hc''; injection Hc'' as <-; eauto|]. apply (Hbefore j); [lia|done].
      * destruct IH as [|[Hk Hall]]; [by left|right]. split; [done|]. intros c' [->|Hin]%elem_of_cons; eauto.
Qed.

(** Where a policy may send a request: what the path itself resolves to when it is absolute,
    what it resolves to under the first root it resolves under when it is relative; and that
    is inside a root. *)
Definition located (p : PathPolicy) (requested path : string) : Prop :=
  inside (p_roots p) path /\
  (if is_absolute requested then canonicalize requested = Ok path
   else exists i root, p_roots p !! i = Some root /\ canonicalize (join root requested) = Ok path /\
          forall j r, (j < i)%nat -> p_roots p !! j = Some r -> exists e, canonicalize (join r requested) = Err e).

Lemma try_candidates_ok roots last candidates path :
  PathPolicy.try_candidates roots last candidates = Ok path ->
  inside roots path /\ exists i candidate, candidates !! i = Some candidate /\ canonicalize candidate = Ok path /\
    forall j c, (j < i)%nat -> candidates !! j = Some c -> exists e, canonicalize c = Err e.
Proof.
  revert last. induction candidates as [|c candidates IH]; intros last; cbn [PathPolicy.try_candidates]; [by destruct last|].
  destruct (canonicalize c) as [path'|k|] eqn:Hc; [| |done].
  - destruct (existsb _ _) eqn:He; [|done]. intros [= <-]. split; [by apply inside_existsb|]. exists 0%nat, c.
    split; [done|]. split; [done|]. intros. lia.
  - intros (Hi & i & c' & Hl & Hp & Hbefore)%IH. split; [done|]. exists (S i), c'. split; [done|]. split; [done|].
    intros [|j] c'' Hj Hc''; [cbn in Hc''; injection Hc'' as <-; eauto|]. apply (Hbefore j); [lia|done].
Qed.

Lemma locate_located p requested path : PathPolicy.locate p requested = Ok path -> located p requested path.
Proof.
  unfold PathPolicy.locate, located. case_decide; [done|]. intros (Hin & i & c & Hi & Hc & Hbefore)%try_candidates_ok.
  split; [done|]. destruct (is_absolute requested).
  - destruct i as [|i]; [|done]. by injection Hi as ->.
  - rewrite list_lookup_fmap in Hi. destruct (p_roots p !! i) as [root|] eqn:Hroot; [|done]. injection Hi as <-.
    exists i, root. split; [done|]. split; [done|]. intros j r Hj Hjr. apply (Hbefore j); [done|]. by rewrite list_lookup_fmap, Hjr.
Qed.

Lemma located_canonical `{!FsLaws} p requested path : located p requested path -> plain path /\ canonicalize path = Ok path.
Proof.
  intros [_ Hc]. assert (exists q, canonicalize q = Ok path) as [q Hq].
  { destruct (is_absolute requested); [by eexists|]. destruct Hc as (i & root & _ & Hc & _). by eexists. }
  split; [by eapply canonical_plain|by eapply canonical_again].
Qed.

(** The roots of a policy are directories in canonical form. *)
Lemma policy_roots `{!FsLaws} roots p root :
  PathPolicy.new roots = Ok p -> root ∈ p_roots p ->
  exists configured, configured ∈ roots /\ canonicalize configured = Ok root /\ is_dir root = true /\ plain root /\ canonicalize root = Ok root.
Proof.
  unfold PathPolicy.new. case_decide; [done|]. intros (rs & Hrs%mapM_ok & [= <-])%bind_ok Hin. cbn [p_roots] in Hin.
  apply list_elem_of_lookup in Hin as [i Hi]. destruct (Forall2_lookup_r _ _ _ _ _ Hrs Hi) as (configured & Hcf & Hr).
  apply bind_ok in Hr as (canonical & Hc & Hd). destruct (canonicalize configured) as [c| |] eqn:He; [|done..]. injection Hc as ->.
  destruct (is_dir canonical) eqn:Hdir; [|done]. injection Hd as ->. exists configured. split; [by eapply list_elem_of_lookup_2|].
  split; [done|]. split; [done|]. split; [by eapply canonical_plain|by eapply canonical_again].
Qed.

(** A request never reaches a file outside the data roots.  Whatever path is
    asked for and wherever its symbolic links lead, what is opened is a regular file
    whose resolved path has a root's components at its front, reached from the path
    itself when it is absolute and from the first root it resolves under when it is
    relative; every other request is refused, and none panics. *)
Theorem paths_confined roots policy requested :
  PathPolicy.new roots = Ok policy ->
  match PathPolicy.resolve policy requested with
  | Ok path =>
      inside (p_roots policy) path /\ is_file path = true /\
      (if is_absolute requested then canonicalize requested = Ok path
       else exists i root, p_roots policy !! i = Some root /\ canonicalize (join root requested) = Ok path /\
              forall j r, (j < i)%nat -> p_roots policy !! j = Some r -> exists e, canonicalize (join r requested) = Err e)
  | Err e => requested = ""%string \/ e = SPathNotAllowed \/ e = SBadRequest \/ exists k, e = SCore (Io k)
  | Panic => False
  end.
Proof.
  unfold PathPolicy.new. case_decide as Hr; [done|]. intros Hnew. apply bind_ok in Hnew as (rs & Hrs & [= <-]).
  apply mapM_ok in Hrs. assert (rs <> []) as Hne by (intros ->; by inversion Hrs; subst). clear Hrs Hr.
  unfold PathPolicy.resolve, PathPolicy.locate. cbn [p_roots]. case_decide as Hempty; [by left|].
  pose proof (try_candidates_spec rs None (if is_absolute requested then [requested]
    else (fun root => join root requested) <$> rs)) as Hspec.
  destruct (PathPolicy.try_candidates _ _ _) as [path|e|].
  - cbn. destruct (is_file path) eqn:Hf; [|naive_solver].
    destruct Hspec as (Hin & i & c & Hi & Hc & Hbefore); [right; destruct (is_absolute _), rs; done|].
    split; [done|]. split; [done|]. destruct (is_absolute requested).
    + destruct i as [|i]; [|done]. by injection Hi as ->.
    + rewrite list_lookup_fmap in Hi. destruct (rs !! i) as [root|] eqn:Hroot; [|done]. injection Hi as <-.
      exists i, root. split; [done|]. split; [done|]. intros j r Hj Hjr. apply (Hbefore j); [done|].
      by rewrite list_lookup_fmap, Hjr.
  - cbn. destruct Hspec as [|[Hk _]]; [right; destruct (is_absolute _), rs; done|naive_solver..].
  - apply Hspec. right. destruct (is_absolute _), rs; done.
Qed.
End Policy.

(** *** A root, a file in it, and a link out of it *)

Definition demo_fs : Fs := {|
  canonicalize := fun p =>
    if decide (p = "/data") then Ok "/data"%string
    else if decide (p = "/data/sst.npy") then Ok "/data/sst.npy"%string
    else if decide (p = "/data/link" \/ p = "/database/secret") then Ok "/database/secret"%string
    else Err KNotFound;
  is_dir := fun p => bool_decide (p = "/data"%string);
  is_file := fun p => bool_decide (p <> "/data"%string) |}.

#[export] Instance demo_fs_laws : @FsLaws demo_fs.
Proof.
  split; intros p q; cbn; repeat case_decide; intros [= <-]; try done; try (exfalso; naive_solver); unfold plain; apply (bool_decide_unpack _); vm_compute; exact I.
Qed.

Lemma paths_confined_witness :
  @PathPolicy.resolve demo_fs {| p_roots := ["/data"%string] |} "sst.npy" = Ok "/data/sst.npy"%string /\
  inside ["/data"%string] "/data/sst.npy" /\
  @PathPolicy.resolve demo_fs {| p_roots := ["/data"%string] |} "link" = Err SPathNotAllowed.
Proof.
  assert (forall path, @canonicalize demo_fs path <> Panic) as Ht.
  { intros path. cbn. repeat case_decide; discriminate. }
  pose proof (@paths_confined demo_fs Ht ["/data"%string] {| p_roots := ["/data"%string] |} "sst.npy" eq_refl) as H.
  split; [reflexivity|]. split; [exact (proj1 H)|reflexivity].
Defined.
