(* ===== verification/Zarr.v ===== *)
(** The Zarr v3 backend: [aex-core/src/backends/zarr.rs].  A store is a directory tree, which
    nobody writes to while it is served: the file system answers as a function of the path.
    JSON text is parsed by [serde_json], whose [Value] has the constructors the source
    matches on; the compressors and the checksum are other crates' too. *)
From Stdlib Require Import Ascii.
From stdpp Require Import strings pretty gmap.
From S2P Require Import Prelude Errors Dtype Bytes Quality Selection Cast Layout Chunks DecodeCache Text Backend Paths Reduce.

Definition METADATA : string := "zarr.json".

(** What is in a file, and in a directory: a name that is no UTF-8 is [None]. *)
Class StoreFs := {
  read_file : string -> result ErrorKind bytes;
  read_dir : string -> result ErrorKind (list (result ErrorKind (option string)));
}.

(** [?] on an I/O result. *)
Definition io {A} (m : result ErrorKind A) : result AexError A := map_err Io m.

(** [std::fs::read_to_string]. *)
Definition read_to_string `{StoreFs} (path : string) : result ErrorKind bytes :=
  text ← read_file path; if Utf8.valid text then Ok text else Err KInvalidData.

(** [File::open(path)?.read_exact_at(buf, offset)], [buf] being [len] long. *)
Definition read_exact_at `{StoreFs} (path : string) (offset len : Z) : result ErrorKind bytes :=
  file ← read_file path; read_exact file offset len.

(** ** The store's directory *)

Record StoreRoot : Type := { root_path : string }.

(** [Path::components] are all [Normal]: no root, no [..], no leading dot. *)
Definition all_normal (name : string) : bool :=
  let pieces := split "/" (String.list_ascii_of_string name) in
  let same s := fun piece => bool_decide (piece = String.list_ascii_of_string s) in
  negb (is_absolute name) && negb (existsb (same "..") pieces) &&
  match pieces with first :: _ => negb (same "." first) | [] => true end.

Definition under `{Fs} (root : StoreRoot) (relative : string) : result AexError (option string) :=
  if negb (all_normal relative) then Err MalformedZarr
  else
    match canonicalize (join (root_path root) relative) with
    | Ok path => if starts_with path (root_path root) then Ok (Some path) else Err MalformedZarr
    | Err KNotFound => Ok None
    | Err e => Err (Io e)
    | Panic => Panic
    end.

(** ** Metadata *)

(** A JSON number, which answers for the types it can be read as; an [f64] is its bits. *)
Class JsonNum := {
  Number : Type;
  as_u64 : Number -> option Z;
  as_i64 : Number -> option Z;
  as_f64 : Number -> option Z;
}.

Inductive Value `{JsonNum} : Type :=
  | Null
  | VBool (b : bool)
  | VNumber (n : Number)
  | VString (s : string)
  | VArray (items : list Value)
  | VObject (fields : list (string * Value)).

Section Metadata.
Context `{JsonNum}.

(** The shape every codec, grid and key encoding is written in. *)
Record Named : Type := { name : string; configuration : list (string * Value) }.

(** [configuration.get(key)]. *)
Definition config (n : Named) (key : string) : option Value :=
  snd <$> (snd <$> list_find (fun f => f.1 = key) (configuration n)).

Record GroupMeta : Type := { group_format : Z; group_attributes : list (string * Value) }.

Record ArrayMeta : Type := {
  array_format : Z;
  m_shape : list Z;
  data_type : Value;
  chunk_grid : Named;
  chunk_key_encoding : option Named;
  fill_value : Value;
  m_codecs : list Named;
  storage_transformers : list Value;
  array_attributes : list (string * Value);
}.

Inductive Node : Type :=
  | NGroup (meta : GroupMeta)
  | NArray (meta : ArrayMeta).

Definition attributes (node : Node) : list (string * Value) :=
  match node with NGroup meta => group_attributes meta | NArray meta => array_attributes meta end.

(** The parts that are the same for both kinds of node. *)
Definition check (node : Node) : result AexError unit :=
  let format := match node with NGroup meta => group_format meta | NArray meta => array_format meta end in
  if format =? 3 then Ok () else Err UnsupportedZarr.

(** What [serde_json] supplies: a document read as a node, a value as the types the
    configurations hold. *)
Class Serde := {
  parse_node : bytes -> option Node;
  parse_u64s : Value -> option (list Z);
  parse_named : Value -> option (list Named);
}.

(** [value_of(config.get(key).cloned().unwrap_or(Value::Null))]. *)
Definition configured {A} (parse : Value -> option A) (n : Named) (key : string) : result AexError A :=
  ok_or MalformedZarr (parse (default Null (config n key))).

(** ** Attributes *)

Record Flat : Type := { f_shape : list Z; leaves : list Value; leaf_depth : option nat }.

(** The shape and leaves of a rectangular JSON array, or [false] if it is not one. *)
Fixpoint flatten (value : Value) (depth : nat) (st : Flat) {struct value} : result AexError (Flat * bool) :=
  match value with
  | VArray items =>
      let all := fix all items st {struct items} : result AexError (Flat * bool) :=
        match items with
        | [] => Ok (st, true)
        | item :: rest =>
            '(st, ok) ← flatten item (S depth) st;
            if ok : bool then all rest st else Ok (st, false)
        end in
      if (depth =? length (f_shape st))%nat then
        all items {| f_shape := f_shape st ++ [zlen items]; leaves := leaves st; leaf_depth := leaf_depth st |}
      else
        len ← expect (f_shape st !! depth);
        if len =? zlen items then all items st else Ok (st, false)
  | VBool _ | VNumber _ =>
      let at_ := default depth (leaf_depth st) in
      if (at_ =? depth)%nat
      then Ok ({| f_shape := f_shape st; leaves := leaves st ++ [value]; leaf_depth := Some at_ |}, true)
      else Ok ({| f_shape := f_shape st; leaves := leaves st; leaf_depth := Some at_ |}, false)
  | _ => Ok (st, false)
  end.

Definition is_boolean (v : Value) : bool := match v with VBool _ => true | _ => false end.
Definition is_number (v : Value) : bool := match v with VNumber _ => true | _ => false end.
Definition value_i64 (v : Value) : option Z := match v with VNumber n => as_i64 n | _ => None end.
Definition value_u64 (v : Value) : option Z := match v with VNumber n => as_u64 n | _ => None end.
Definition value_f64 (v : Value) : option Z := match v with VNumber n => as_f64 n | _ => None end.
Definition value_bool (v : Value) : option bool := match v with VBool b => Some b | _ => None end.

(** The element type of an attribute's leaves. *)
Definition leaf_dtype (leaves : list Value) : option DType :=
  let some := bool_decide (leaves <> []) in
  if forallb is_boolean leaves && some then Some Bool
  else if forallb (fun v => bool_decide (is_Some (value_i64 v))) leaves && some then Some Int64
  else if forallb is_number leaves then Some Float64
  else None.

Definition leaf_bytes (dtype : DType) (leaf : Value) : option bytes :=
  match dtype with
  | Bool => b ← value_bool leaf; Some [if b : bool then 1 else 0]
  | Int64 => to_le_bytes 8 <$> value_i64 leaf
  | _ => to_le_bytes 8 <$> value_f64 leaf
  end.

(** One attribute as the wire carries it, or [None] if it has no wire form. *)
Definition attr_value (value : Value) : result AexError (option AttrValue) :=
  match value with
  | VString text =>
      Ok (if Z.of_nat (String.length text) <=? MAX_ATTR_BYTES then Some (AText text) else None)
  | _ =>
      '(st, ok) ← flatten value 0 {| f_shape := []; leaves := []; leaf_depth := None |};
      if negb ok then Ok None
      else if match leaf_depth st with
              | Some depth => negb (depth =? length (f_shape st))%nat
              | None => false
              end then Ok None
      else
        Ok (dtype ← leaf_dtype (leaves st);
            if MAX_ATTR_BYTES <? zlen (leaves st) *w DType.itemsize dtype then None
            else
              data ← mapM (leaf_bytes dtype) (leaves st);
              Some (AArray dtype (f_shape st) (concat data)))
  end.

(** ** Fill values *)

(** [iN::try_from(number).ok()?.to_le_bytes()]. *)
Definition int_bytes (dtype : DType) (number : Z) : option bytes :=
  let signed n := if decide (- 2 ^ (8 * Z.of_nat n - 1) <= number < 2 ^ (8 * Z.of_nat n - 1))
                  then Some (to_le_bytes n number) else None in
  let unsigned n := if decide (0 <= number < 2 ^ (8 * Z.of_nat n))
                    then Some (to_le_bytes n number) else None in
  match dtype with
  | Int8 => signed 1%nat
  | Int16 => signed 2%nat
  | Int32 => signed 4%nat
  | Int64 => signed 8%nat
  | Uint8 => unsigned 1%nat
  | Uint16 => unsigned 2%nat
  | Uint32 => unsigned 4%nat
  | Uint64 => unsigned 8%nat
  | _ => None
  end.

Definition hex_digit (c : ascii) : option Z :=
  let n := Z.of_N (N_of_ascii c) in
  if (48 <=? n) && (n <=? 57) then Some (n - 48)
  else if (97 <=? n) && (n <=? 102) then Some (n - 87)
  else if (65 <=? n) && (n <=? 70) then Some (n - 55)
  else None.

Fixpoint hex_digits (acc : Z) (s : list ascii) : option Z :=
  match s with
  | [] => Some acc
  | c :: s' => d ← hex_digit c; hex_digits (acc * 16 + d) s'
  end.

(** [u128::from_str_radix(hex, 16)] of at most 32 characters, which cannot overflow. *)
Definition from_hex (s : list ascii) : option Z :=
  match s with
  | [] => None
  | c :: s' =>
      if Ascii.eqb c "+" then (if decide (s' = []) then None else hex_digits 0 s') else hex_digits 0 s
  end.

(** A JSON number, or one of the three floats JSON cannot write as one. *)
Definition json_float (value : Value) : option Z :=
  match value with
  | VNumber n => as_f64 n
  | VString s =>
      if decide (s = "NaN") then Some 0x7ff8000000000000
      else if decide (s = "Infinity") then Some 0x7ff0000000000000
      else if decide (s = "-Infinity") then Some 0xfff0000000000000
      else None
  | _ => None
  end.

(** [strip_prefix("0x")] of a string value. *)
Definition hex_of (value : Value) : option (list ascii) :=
  match value with
  | VString s =>
      match String.list_ascii_of_string s with
      | c :: d :: hex => if Ascii.eqb c "0" && Ascii.eqb d "x" then Some hex else None
      | _ => None
      end
  | _ => None
  end.

Section Fill.
Context `{HalfNum}.

(** The floating types' part of [fill_bytes]. *)
Definition float_fill (dtype : DType) (value : Value) : result AexError bytes :=
  let size := DType.itemsize dtype in
  match hex_of value with
  | Some hex =>
      if negb (zlen hex =? size * 2) then Err MalformedZarr
      else bits ← ok_or MalformedZarr (from_hex hex); Ok (to_le_bytes (Z.to_nat size) bits)
  | None =>
      number ← ok_or MalformedZarr (json_float value);
      Ok match dtype with
         | Float16 => to_le_bytes 2 (f16_from_f64 (Ieee.f64_decode number))
         | Float32 => to_le_bytes 4 (Ieee.f64_to_f32 number)
         | _ => to_le_bytes 8 number
         end
  end.

(** [fill_bytes] of a float dtype, which is what a complex one calls it for. *)
Definition part_fill (dtype : DType) (value : Value) : result AexError bytes :=
  match value with
  | Null => Ok (replicate (Z.to_nat (DType.itemsize dtype)) 0)
  | _ => float_fill dtype value
  end.

(** One element of [dtype] holding the JSON fill value, as it would be stored. *)
Definition fill_bytes (dtype : DType) (value : Value) : result AexError bytes :=
  match value with
  | Null => Ok (replicate (Z.to_nat (DType.itemsize dtype)) 0)
  | _ =>
      match dtype with
      | Bool => set ← ok_or MalformedZarr (value_bool value); Ok [if set : bool then 1 else 0]
      | Complex64 | Complex128 =>
          let part := match dtype with Complex64 => Float32 | _ => Float64 end in
          match value with
          | VArray [re; im] => re ← part_fill part re; im ← part_fill part im; Ok (re ++ im)
          | _ => Err MalformedZarr
          end
      | Float16 | Float32 | Float64 => float_fill dtype value
      | _ =>
          number ← ok_or MalformedZarr
            (match value_u64 value with Some n => Some n | None => value_i64 value end);
          ok_or MalformedZarr (int_bytes dtype number)
      end
  end.
End Fill.
End Metadata.

(** ** Chunk names *)

(** How a chunk's coordinates become its file name. *)
Record KeyEncoding : Type := { k_prefix : bool; separator : ascii }.

Definition key_encoding `{JsonNum} (named : option Named) : result AexError KeyEncoding :=
  match named with
  | None => Ok {| k_prefix := true; separator := "/" |}
  | Some named =>
      '(with_prefix, default_) ←
        (if decide (name named = "default") then Ok (true, "/"%char)
         else if decide (name named = "v2") then Ok (false, "."%char)
         else Err UnsupportedZarr);
      separator ←
        match config named "separator" with
        | None => Ok default_
        | Some (VString s) =>
            if decide (s = "/") then Ok "/"%char
            else if decide (s = ".") then Ok "."%char else Err MalformedZarr
        | Some _ => Err MalformedZarr
        end;
      Ok {| k_prefix := with_prefix; separator := separator |}
  end.

(** [write!(key, "{c}")]. *)
Definition decimal (c : Z) : string := pretty (Z.to_N c).

(** The part of a key that names a chunk of an array. *)
Definition chunk_name (key : KeyEncoding) (coords : list Z) : string :=
  let sep := String (separator key) EmptyString in
  if k_prefix key then foldl (fun k c => k +:+ sep +:+ decimal c) "c" coords
  else
    match coords with
    | [] => "0"
    | c :: coords => foldl (fun k c => k +:+ sep +:+ decimal c) (decimal c) coords
    end.

(** The store-relative name of the file holding chunk [n] of [grid]. *)
Definition key_of (prefix : string) (key : KeyEncoding) (g : ChunkGrid) (n : Z) : result AexError string :=
  coords ← ChunkGrid.coords_of g n;
  Ok ((if decide (prefix = "") then "" else prefix +:+ "/") +:+ chunk_name key coords).

(** ** Chunk codecs *)

(** A codec that turns a chunk's bytes into other bytes. *)
Inductive ChunkCodec : Type := Gzip | Zstd | Crc32c.

(** What the compression crates supply. *)
Class ChunkLib := {
  (** [GzDecoder::new(bytes).take(n).read_to_end]: at most the first [n] bytes of the
      expansion, [None] for an error met before. *)
  gunzip : bytes -> Z -> option bytes;
  (** [zstd::bulk::decompress_to_buffer] into a buffer of [n] bytes. *)
  unzstd_into : bytes -> Z -> option bytes;
  crc32c : bytes -> Z;
}.

(** The bytes-to-bytes codecs of a chain, refusing one this build cannot undo. *)
Definition parse_codec `{Serde} (codec : Named) : result AexError (list ChunkCodec) :=
  if decide (name codec = "bytes") then
    match config codec "endian" with
    | None => Ok []
    | Some (VString s) => if decide (s = "little") then Ok [] else Err UnsupportedZarr
    | Some _ => Err UnsupportedZarr
    end
  else if decide (name codec = "transpose") then
    order ← configured parse_u64s codec "order";
    if decide (order = seqZ 0 (zlen order)) then Ok [] else Err UnsupportedZarr
  else if decide (name codec = "gzip") then Ok [Gzip]
  else if decide (name codec = "zstd") then Ok [Zstd]
  else if decide (name codec = "crc32c") then Ok [Crc32c]
  else Err UnsupportedZarr.

Definition parse_codecs `{Serde} (codecs : list Named) : result AexError (list ChunkCodec) :=
  @concat ChunkCodec <$> mapM parse_codec codecs.

(** The sharding codec of a chain, if that is what the chain is. *)
Definition sharding_of `{JsonNum} (codecs : list Named) : option Named :=
  match codecs with
  | [only] => if decide (name only = "sharding_indexed") then Some only else None
  | _ => None
  end.

(** Drop the trailing CRC-32C, if it is the one the rest of the bytes have. *)
Definition strip_crc32c `{ChunkLib} (b : bytes) : option bytes :=
  at_ ← checked_sub (zlen b) 4;
  let rest := take (Z.to_nat at_) b in
  if crc32c rest =? from_le_bytes (drop (Z.to_nat at_) b) then Some rest else None.

(** Undo gzip into a buffer, refusing to produce more than [limit] bytes and one. *)
Definition ungzip `{ChunkLib} (b : bytes) (limit : Z) : option bytes := gunzip b (limit + 1).

Definition unzstd `{ChunkLib} (b : bytes) (chunk_bytes : Z) : option bytes := unzstd_into b chunk_bytes.

(** One turn of the loop in [undo]: the bytes and the spare buffer, swapped by a codec that
    expands. *)
Definition undo_step `{ChunkLib} (chunk_bytes : Z) (st : bytes * bytes) (codec : ChunkCodec)
    : result AexError (bytes * bytes) :=
  let '(b, spare) := st in
  match codec with
  | Gzip => out ← ok_or MalformedZarr (ungzip b chunk_bytes); Ok (out, b)
  | Zstd => out ← ok_or MalformedZarr (unzstd b chunk_bytes); Ok (out, b)
  | Crc32c => b ← ok_or MalformedZarr (strip_crc32c b); Ok (b, spare)
  end.

(** Undo a chunk's codecs, which are listed in the order they were applied. *)
Definition undo `{ChunkLib} (codecs : list ChunkCodec) (b : bytes) (chunk_bytes : Z) (spare : bytes)
    : result AexError bytes :=
  '(b, _) ← mfold (undo_step chunk_bytes) (b, spare) (reverse codecs);
  if zlen b =? chunk_bytes then Ok b else Err MalformedZarr.

(** A whole chunk of the fill value: [chunk.resize], then [fill_from]. *)
Definition fill_chunk (fill : bytes) (chunk_bytes : Z) (spare : bytes) : result AexError bytes :=
  fill_from fill 0 (Z.to_nat chunk_bytes).

(** ** Arrays *)

(** Where one inner chunk lies in its shard file. *)
Record ShardEntry : Type := { e_offset : Z; e_nbytes : Z }.

#[export] Instance ShardEntry_eq_dec : EqDecision ShardEntry.
Proof. solve_decision. Defined.

Definition MISSING : ShardEntry := {| e_offset := two64 - 1; e_nbytes := two64 - 1 |}.
Definition is_missing (e : ShardEntry) : bool :=
  (e_offset e =? two64 - 1) && (e_nbytes e =? two64 - 1).

(** Many chunks to a file, with an index saying where each one is; the [OnceLock] holding
    the index is kept beside it. *)
Record Sharded : Type := {
  shards : ChunkGrid;
  inner : ChunkGrid;
  s_codecs : list ChunkCodec;
  index_bytes : Z;
  index_at_start : bool;
  index_crc32c : bool;
}.

(** How an array's chunks are laid out in files. *)
Inductive Store : Type :=
  | Chunked (grid : ChunkGrid) (codecs : list ChunkCodec)
  | SSharded (sharded : Sharded).

(** One array of a store. *)
Record ZarrArray : Type := {
  z_root : StoreRoot;
  z_prefix : string;
  z_dtype : DType;
  z_shape : list Z;
  z_key : KeyEncoding;
  z_store : Store;
  z_fill : bytes;
  z_cache_key : Z;
}.

Module Sharded.
(** The loop over [index_codecs]: whether the index ends in a checksum. *)
Definition index_codec `{JsonNum} (crc : bool) (codec : Named) : result AexError bool :=
  if decide (name codec = "bytes") then Ok crc
  else if decide (name codec = "crc32c") then Ok true
  else Err UnsupportedZarr.

Definition new `{Serde} (shards : ChunkGrid) (dtype : DType) (named : Named) : result AexError Sharded :=
  shape ← configured parse_u64s named "chunk_shape";
  inner ← ok_or MalformedZarr (ChunkGrid.new (chunk_shape shards) shape (DType.itemsize dtype));
  if existsb (fun '(shard, chunk) => negb (shard mod chunk =? 0)) (zip (chunk_shape shards) shape)
  then Err MalformedZarr
  else
    codecs ← configured parse_named named "codecs";
    codecs ← parse_codecs codecs;
    index_codecs ← configured parse_named named "index_codecs";
    crc ← mfold index_codec false index_codecs;
    at_start ←
      match config named "index_location" with
      | None => Ok false
      | Some (VString at_) =>
          if decide (at_ = "end") then Ok false
          else if decide (at_ = "start") then Ok true else Err MalformedZarr
      | Some _ => Err MalformedZarr
      end;
    entries ← ok_or MalformedZarr (checked_mul (ChunkGrid.chunks shards) (ChunkGrid.chunks inner));
    if MAX_CHUNKS <? entries then Err UnsupportedZarr
    else
      Ok {| shards := shards; inner := inner; s_codecs := codecs;
            index_bytes := (ChunkGrid.chunks inner *w 16) +w (if crc : bool then 4 else 0);
            index_at_start := at_start; index_crc32c := crc |}.

(** The loop over a shard's entries: those present go into the index, if they fit the file. *)
Definition read_entry (shard per_shard len : Z) (raw : bytes) (index : list ShardEntry) (i : Z)
    : result AexError (list ShardEntry) :=
  pair ← slice_checked (i * 16) 16 raw;
  let entry := {| e_offset := from_le_bytes (take 8 pair); e_nbytes := from_le_bytes (drop 8 pair) |} in
  if is_missing entry then Ok index
  else
    match checked_add (e_offset entry) (e_nbytes entry) with
    | Some end_ =>
        if len <? end_ then Err MalformedZarr
        else
          let n := Z.to_nat (shard * per_shard + i) in
          if (n <? length index)%nat then Ok (<[n := entry]> index) else Panic
    | None => Err MalformedZarr
    end.

Section Index.
Context `{Fs, StoreFs, ChunkLib}.

(** The loop over the shards: the entries of one, read from its file. *)
Definition read_shard (array : ZarrArray) (s : Sharded) (index : list ShardEntry) (shard : Z)
    : result AexError (list ShardEntry) :=
  key ← key_of (z_prefix array) (z_key array) (shards s) shard;
  path ← under (z_root array) key;
  match path with
  | None => Ok index
  | Some path =>
      file ← io (read_file path);
      let len := zlen file in
      if len <? index_bytes s then Err MalformedZarr
      else
        let at_ := if index_at_start s then 0 else len - index_bytes s in
        raw ← io (read_exact_at path at_ (index_bytes s));
        raw ← (if index_crc32c s then ok_or MalformedZarr (strip_crc32c raw) else Ok raw);
        mfold (read_entry shard (ChunkGrid.chunks (inner s)) len raw) index
          (seqZ 0 (ChunkGrid.chunks (inner s)))
  end.

(** Where every inner chunk lies. *)
Definition build_index (array : ZarrArray) (s : Sharded) : result AexError (list ShardEntry) :=
  mfold (read_shard array s)
    (replicate (Z.to_nat (ChunkGrid.chunks (shards s) *w ChunkGrid.chunks (inner s))) MISSING)
    (seqZ 0 (ChunkGrid.chunks (shards s))).

(** ... kept once it was read: the [OnceLock]. *)
Definition index (array : ZarrArray) (s : Sharded) (once : option (list ShardEntry))
    : option (list ShardEntry) * result AexError (list ShardEntry) :=
  match once with
  | Some index => (once, Ok index)
  | None =>
      match build_index array s with
      | Ok index => (Some index, Ok index)
      | e => (None, e)
      end
  end.
End Index.
End Sharded.

Module ZarrArray.
Section Ops.
Context `{Fs, StoreFs, JsonNum, !Serde, ChunkLib, HalfNum, HalfLib, Build}.

Definition new (root : StoreRoot) (prefix : string) (meta : ArrayMeta) (cache : DecodeCache)
    : result AexError ZarrArray * DecodeCache :=
  let made (cache_key : Z) : result AexError ZarrArray :=
    name ← ok_or UnsupportedZarr (match data_type meta with VString s => Some s | _ => None end);
    dtype ← ok_or UnsupportedDType (DType.from_name name);
    if bool_decide (storage_transformers meta <> []) then Err UnsupportedZarr
    else if bool_decide (Zarr.name (chunk_grid meta) <> "regular") then Err UnsupportedZarr
    else
      shape ← configured parse_u64s (chunk_grid meta) "chunk_shape";
      grid ← ok_or MalformedZarr (ChunkGrid.new (m_shape meta) shape (DType.itemsize dtype));
      store ← match sharding_of (m_codecs meta) with
              | Some named => SSharded <$> Sharded.new grid dtype named
              | None => Chunked grid <$> parse_codecs (m_codecs meta)
              end;
      key ← key_encoding (chunk_key_encoding meta);
      fill ← map_err (fun _ => MalformedZarr) (fill_bytes dtype (fill_value meta));
      Ok {| z_root := root; z_prefix := prefix; z_dtype := dtype; z_shape := m_shape meta;
            z_key := key; z_store := store; z_fill := fill; z_cache_key := cache_key |} in
  let '(cache_key, cache') := DecodeCache.new_key cache in
  match made cache_key with
  | Ok array => (Ok array, cache')
  | e => (e, cache)
  end.

(** What an array keeps from one read to the next: the shared cache, and the index of its
    shards once it was read. *)
Record Kept : Type := { k_cache : DecodeCache; k_index : option (list ShardEntry) }.

Definition with_cache (k : Kept) (c : DecodeCache) : Kept := {| k_cache := c; k_index := k_index k |}.

(** Which evicted chunks other readers still hold. *)
Context (shared : ChunkKey -> bool).

(** What the cache is told to decode: chunk [chunk] of an array with a file per chunk. *)
Definition load_chunk (array : ZarrArray) (g : ChunkGrid) (codecs : list ChunkCodec) (key : string)
    (spare : bytes) : result AexError bytes :=
  path ← under (z_root array) key;
  match path with
  | None => fill_chunk (z_fill array) (chunk_bytes g) spare
  | Some path => b ← io (read_file path); undo codecs b (chunk_bytes g) spare
  end.

(** ... and inner chunk [n], counted over all shards, of a sharded one. *)
Definition load_inner (array : ZarrArray) (s : Sharded) (index : list ShardEntry) (key : string)
    (n : Z) (spare : bytes) : result AexError bytes :=
  entry ← expect (index !! Z.to_nat n);
  if is_missing entry then fill_chunk (z_fill array) (chunk_bytes (inner s)) spare
  else
    path ← under (z_root array) key;
    match path with
    | None => fill_chunk (z_fill array) (chunk_bytes (inner s)) spare
    | Some path =>
        b ← io (read_exact_at path (e_offset entry) (e_nbytes entry));
        undo (s_codecs s) b (chunk_bytes (inner s)) spare
    end.

Definition cached (array : ZarrArray) (n start len : Z) (decode : bytes -> result AexError bytes) (c : DecodeCache)
    : DecodeCache * result AexError bytes :=
  let '(answer, c) := DecodeCache.read_into c shared (z_cache_key array, n) start len decode in (c, answer).

(** Read [at_, at_ + len) of the array's C-order bytes. *)
Definition read_at (array : ZarrArray) (k : Kept) (at_ len : Z) : Kept * result AexError bytes :=
  match z_store array with
  | Chunked g codecs =>
      let '(c, answer) :=
        ChunkGrid.walk (fun c chunk start len =>
          sbind (pure_step c (key_of (z_prefix array) (z_key array) g chunk)) (fun c key =>
          cached array chunk start len (load_chunk array g codecs key) c))
          g (k_cache k) at_ len in
      (with_cache k c, answer)
  | SSharded s =>
      let '(once, index) := Sharded.index array s (k_index k) in
      sbind ({| k_cache := k_cache k; k_index := once |}, index) (fun k index =>
      let per_shard := ChunkGrid.chunks (inner s) in
      let '(c, answer) :=
        ChunkGrid.walk (fun c shard in_shard len =>
          sbind (pure_step c (key_of (z_prefix array) (z_key array) (shards s) shard)) (fun c key =>
          ChunkGrid.walk (fun c chunk start len =>
            let n := (shard *w per_shard) +w chunk in
            cached array n start len (load_inner array s index key n) c)
            (inner s) c in_shard len))
          (shards s) (k_cache k) at_ len in
      (with_cache k c, answer))
  end.

(** [layout]: the shard index is built here, so that a read never waits for it. *)
Definition layout (array : ZarrArray) (k : Kept) (indices : list Index) (quality : QualitySpec)
    : Kept * result AexError SelectionLayout :=
  match z_store array with
  | SSharded s =>
      let '(once, index) := Sharded.index array s (k_index k) in
      sbind ({| k_cache := k_cache k; k_index := once |}, index) (fun k _ =>
      (k, SelectionLayout.resolve (z_shape array) (z_dtype array) indices quality))
  | Chunked _ _ => (k, SelectionLayout.resolve (z_shape array) (z_dtype array) indices quality)
  end.

Definition decoded_chunk_bytes (array : ZarrArray) : option Z :=
  Some match z_store array with Chunked g _ => chunk_bytes g | SSharded s => chunk_bytes (inner s) end.
End Ops.
End ZarrArray.

(** ** Files *)

(** A store opened for reading: the arrays opened so far, by path, and the cache. *)
Record ZarrFile : Type := {
  zf_root : StoreRoot;
  zf_cache : DecodeCache;
  zf_arrays : gmap string ZarrArray;
}.

Module ZarrFile.
Section Ops.
Context `{Fs, StoreFs, JsonNum, !Serde, HalfNum, HalfLib}.

(** The node at a store-relative path, or [None] if there is none. *)
Definition node (root : StoreRoot) (path : string) : result AexError (option Node) :=
  let key := if decide (path = "") then METADATA else path +:+ "/" +:+ METADATA in
  file ← under root key;
  match file with
  | None => Ok None
  | Some file =>
      text ← io (read_to_string file);
      node ← ok_or MalformedZarr (parse_node text);
      _ ← check node;
      Ok (Some node)
  end.

Definition open (path : string) (cache : DecodeCache) : result AexError ZarrFile :=
  root ← io (canonicalize path);
  let file := {| zf_root := {| root_path := root |}; zf_cache := cache; zf_arrays := ∅ |} in
  node ← node (zf_root file) "";
  if bool_decide (node = None) then Err UnsupportedZarr else Ok file.

(** The array at a store-relative path, opening it the first time. *)
Definition array (f : ZarrFile) (path : string) (meta : ArrayMeta) : ZarrFile * result AexError ZarrArray :=
  match zf_arrays f !! path with
  | Some array => (f, Ok array)
  | None =>
      match ZarrArray.new (zf_root f) path meta (zf_cache f) with
      | (Ok array, cache) =>
          ({| zf_root := zf_root f; zf_cache := cache; zf_arrays := <[path := array]> (zf_arrays f) |}, Ok array)
      | (e, cache) => ({| zf_root := zf_root f; zf_cache := cache; zf_arrays := zf_arrays f |}, e)
      end
  end.

Definition item (f : ZarrFile) (path : string) (node : Node) : ZarrFile * result AexError (Item ZarrArray) :=
  match node with
  | NGroup _ => (f, Ok Group)
  | NArray meta => sbind (array f path meta) (fun f array => (f, Ok (Dataset array)))
  end.

Definition get_item (f : ZarrFile) (path : string) : ZarrFile * result AexError (Item ZarrArray) :=
  let path := normalize_path path in
  sbind (pure_step f (node (zf_root f) path)) (fun f node =>
  match node with
  | Some node => item f path node
  | None => (f, Err NotFound)
  end).

(** The loop over the directory's entries: a child that cannot be served is left out. *)
Fixpoint children (f : ZarrFile) (path : string) (entries : list (result ErrorKind (option string)))
    (found : list (string * Item ZarrArray)) : ZarrFile * result AexError (list (string * Item ZarrArray)) :=
  match entries with
  | [] => (f, Ok found)
  | entry :: rest =>
      sbind (pure_step f (io entry)) (fun f name =>
      match name with
      | None => children f path rest found
      | Some name =>
          let child := if decide (path = "") then name else path +:+ "/" +:+ name in
          match node (zf_root f) child with
          | Ok (Some node) =>
              match item f child node with
              | (f, Ok item) => children f path rest (found ++ [(name, item)])
              | (f, Err _) => children f path rest found
              | (f, Panic) => (f, Panic)
              end
          | Ok None | Err _ => children f path rest found
          | Panic => (f, Panic)
          end
      end)
  end.

(** [sort_by(|a, b| a.0.cmp(&b.0))]. *)
Definition sort_by_name {A} (l : list (string * A)) : list (string * A) := sort_by fst l.

Definition list_children (f : ZarrFile) (path : string)
    : ZarrFile * result AexError (list (string * Item ZarrArray)) :=
  let path := normalize_path path in
  sbind (pure_step f (node (zf_root f) path)) (fun f node =>
  match node with
  | None => (f, Err NotFound)
  | Some (NArray _) => (f, Err NotAGroup)
  | Some (NGroup _) =>
      sbind (pure_step f (under (zf_root f) path)) (fun f dir =>
      match dir with
      | None => (f, Err NotFound)
      | Some dir =>
          sbind (pure_step f (io (read_dir dir))) (fun f entries =>
          sbind (children f path entries []) (fun f found => (f, Ok (sort_by_name found))))
      end)
  end).

Definition attr (a : string * Value) : result AexError (option (string * AttrValue)) :=
  v ← attr_value a.2; Ok (option_map (pair a.1) v).

(** The attributes with a wire form, by name. *)
Definition attrs (f : ZarrFile) (path : string) : result AexError (list (string * AttrValue)) :=
  let path := normalize_path path in
  node ← node (zf_root f) path;
  match node with
  | None => Err NotFound
  | Some node =>
      values ← mapM attr (attributes node);
      Ok (sort_by_name (omap id values))
  end.
End Ops.
End ZarrFile.
