(* ===== verification/ZarrSpec.v ===== *)
(** The codecs of a Zarr chunk: undoing a chain gives back what it was applied to, and nothing
    that is not a whole chunk. *)
From Stdlib Require Import Ascii.
From stdpp Require Import strings pretty gmap.
From S2P Require Import Prelude Errors Dtype Bytes Quality Selection SelectionSpec Gathered GatheredSpec StretchSpec ReadSpec Cast Layout LayoutSpec Chunks DecodeCache ChunkStore Text Backend Paths Reduce Zarr.

(** ** Undoing codecs *)

Section Undo.
Context `{ChunkLib}.

(** What was in the lent buffer is never seen. *)
Lemma undo_spare codecs b n spare1 spare2 : undo codecs b n spare1 = undo codecs b n spare2.
Proof.
  unfold undo. generalize (reverse codecs) as l. intros l.
  assert (forall b s1 s2, fst <$> mfold (undo_step n) (b, s1) l = fst <$> mfold (undo_step n) (b, s2) l) as Hl.
  { induction l as [|c l IH]; intros b' s1 s2; [done|]. cbn [mfold]. destruct c; cbn [undo_step].
    - destruct (ungzip b' n); [apply IH|done].
    - destruct (unzstd b' n); [apply IH|done].
    - destruct (strip_crc32c b'); [apply IH|done]. }
  specialize (Hl b spare1 spare2).
  destruct (mfold _ (b, spare1) l) as [[x1 y1]| |], (mfold _ (b, spare2) l) as [[x2 y2]| |]; cbn in *; simplify_eq; done.
Qed.

(** A chunk of another size is never answered. *)
Lemma undo_size codecs b n spare chunk : undo codecs b n spare = Ok chunk -> zlen chunk = n.
Proof.
  unfold undo. intros Hu. apply bind_ok in Hu as ([x y] & _ & Hx). destruct (Z.eqb_spec (zlen x) n); [|done].
  by injection Hx as <-.
Qed.

Lemma undo_errors codecs b n spare :
  match undo codecs b n spare with Ok _ => True | Err e => e = MalformedZarr | Panic => False end.
Proof.
  unfold undo. assert (forall l st, match mfold (undo_step n) st l with
    | Ok _ => True | Err e => e = MalformedZarr | Panic => False end) as Hl.
  { induction l as [|c l IH]; intros [b' s]; [done|]. cbn [mfold]. destruct c; cbn [undo_step].
    - destruct (ungzip b' n); [apply IH|done].
    - destruct (unzstd b' n); [apply IH|done].
    - destruct (strip_crc32c b'); [apply IH|done]. }
  specialize (Hl (reverse codecs) (b, spare)). destruct (mfold _ _ _) as [[x y]| |]; [|done..]. cbn.
  by destruct (zlen x =? n).
Qed.

(** What the writing side does, with compressors the reading side inverts. *)
Class ChunkWriter := {
  gzip : bytes -> bytes;
  zstd : bytes -> bytes;
  gunzip_gzip b n : 0 <= n -> gunzip (gzip b) n = Some (take (Z.to_nat n) b);
  unzstd_zstd b n : zlen b <= n -> unzstd_into (zstd b) n = Some b;
  crc32c_u32 b : is_u32 (crc32c b);
}.

Section Written.
Context `{ChunkWriter}.

Definition apply_codec (b : bytes) (codec : ChunkCodec) : bytes :=
  match codec with
  | Gzip => gzip b
  | Zstd => zstd b
  | Crc32c => b ++ to_le_bytes 4 (crc32c b)
  end.

(** What every compressor is given fits the room [undo] leaves it. *)
Fixpoint fits_room (n : Z) (b : bytes) (codecs : list ChunkCodec) : Prop :=
  match codecs with
  | [] => True
  | Crc32c :: rest => fits_room n (apply_codec b Crc32c) rest
  | codec :: rest => zlen b <= n /\ fits_room n (apply_codec b codec) rest
  end.

Lemma strip_appended b : strip_crc32c (b ++ to_le_bytes 4 (crc32c b)) = Some b.
Proof.
  unfold strip_crc32c. rewrite length_app, length_to_le_bytes.
  assert (checked_sub (Z.of_nat (length b + 4)) 4 = Some (zlen b)) as ->
    by (apply checked_sub_some; lia).
  cbn [mbind option_bind]. rewrite Nat2Z.id, take_app_length, drop_app_length.
  rewrite from_to_le_u32 by apply crc32c_u32. by rewrite Z.eqb_refl.
Qed.

Lemma undo_applied n codecs b spare :
  0 <= n -> fits_room n b codecs ->
  exists spare', mfold (undo_step n) (foldl apply_codec b codecs, spare) (reverse codecs) = Ok (b, spare').
Proof.
  intros Hn. revert b spare. induction codecs as [|c codecs IH]; intros b spare Hf; [by exists spare|].
  rewrite reverse_cons, mfold_app. cbn [foldl].
  destruct (IH (apply_codec b c) spare) as [spare' Hs]; [by destruct c; cbn in Hf; try destruct Hf|].
  rewrite Hs. cbn [mbind result_bind mfold]. destruct c; cbn [undo_step apply_codec fits_room] in *.
  - unfold ungzip. rewrite gunzip_gzip, take_ge by lia. cbn. by eexists.
  - unfold unzstd. rewrite unzstd_zstd by lia. cbn. by eexists.
  - rewrite strip_appended. cbn. by eexists.
Qed.
End Written.
End Undo.
