(* ===== verification/ZarrCorrect.v ===== *)
(** Reading a Zarr array, end to end: every range of an array that opened is the chunks it
    is stored in, put together, whatever the shared cache holds, or the failure of a chunk. *)
From Stdlib Require Import Ascii.
From stdpp Require Import strings pretty gmap.
From S2P Require Import Prelude Errors Dtype Bytes Quality Selection SelectionSpec Gathered GatheredSpec StretchSpec ReadSpec Cast Layout LayoutSpec Chunks DecodeCache ChunkStore Text Backend Paths Reduce Zarr ZarrSpec.

(** ** What an array is stored as *)

(** What is known of an array with elements, from how it was opened. *)
Definition chunks_laid (a : ZarrArray) : Prop :=
  match z_store a with
  | Chunked g _ => grid_ok g /\ g_shape g = z_shape a /\ g_itemsize g = DType.itemsize (z_dtype a)
  | SSharded s =>
      grid_ok (shards s) /\ g_shape (shards s) = z_shape a /\ g_itemsize (shards s) = DType.itemsize (z_dtype a) /\
      grid_ok (inner s) /\ g_shape (inner s) = Chunks.chunk_shape (shards s) /\
      g_itemsize (inner s) = DType.itemsize (z_dtype a) /\
      zprod (Chunks.grid (shards s)) * zprod (Chunks.grid (inner s)) <= MAX_CHUNKS /\
      index_bytes s = zprod (Chunks.grid (inner s)) * 16 + if index_crc32c s then 4 else 0
  end.

(** The grid a read walks first, and what one of its chunks is made of. *)
Definition outer (a : ZarrArray) : ChunkGrid :=
  match z_store a with Chunked g _ => g | SSharded s => shards s end.

Record array_ok (a : ZarrArray) : Prop := {
  ao_shape : Forall (fun d => 0 <= d) (z_shape a);
  ao_outer : g_shape (outer a) = z_shape a /\ g_itemsize (outer a) = DType.itemsize (z_dtype a) /\
    Chunks.grid (outer a) = zip_with div_ceil (z_shape a) (Chunks.chunk_shape (outer a)) /\
    length (Chunks.chunk_shape (outer a)) = length (z_shape a) /\ Forall (fun c => 0 < c) (Chunks.chunk_shape (outer a));
  ao_laid : Forall (fun d => 0 < d) (z_shape a) -> chunks_laid a;
  ao_fill : zlen (z_fill a) = DType.itemsize (z_dtype a);
}.

(** How many chunks are decoded on their own, and how long each is. *)
Definition chunk_count (a : ZarrArray) : Z :=
  match z_store a with
  | Chunked g _ => zprod (Chunks.grid g)
  | SSharded s => zprod (Chunks.grid (shards s)) * zprod (Chunks.grid (inner s))
  end.
Definition chunk_len (a : ZarrArray) : Z :=
  match z_store a with Chunked g _ => chunk_bytes g | SSharded s => chunk_bytes (inner s) end.

(** The array's bytes, given its chunks'. *)
Definition array_bytes (a : ZarrArray) (chunk : Z -> bytes) : bytes :=
  match z_store a with
  | Chunked g _ => assemble g chunk
  | SSharded s =>
      assemble (shards s) (fun shard =>
        assemble (inner s) (fun n => chunk (shard * zprod (Chunks.grid (inner s)) + n)))
  end.

Section Read.
Context `{Fs, StoreFs, ChunkLib}.

(** What chunk [n] decodes to: from its own file, or from its place in a shard. *)
Definition array_chunk (a : ZarrArray) (n : Z) : result AexError bytes :=
  match z_store a with
  | Chunked g codecs =>
      key ← key_of (z_prefix a) (z_key a) g n;
      ZarrArray.load_chunk a g codecs key []
  | SSharded s =>
      index ← Sharded.build_index a s;
      key ← key_of (z_prefix a) (z_key a) (shards s) (n / zprod (Chunks.grid (inner s)));
      ZarrArray.load_inner a s index key n []
  end.

Lemma load_chunk_spare a g codecs key spare1 spare2 :
  ZarrArray.load_chunk a g codecs key spare1 = ZarrArray.load_chunk a g codecs key spare2.
Proof.
  unfold ZarrArray.load_chunk. destruct (under _ _) as [[path|]| |]; cbn [mbind result_bind]; try done.
  destruct (io _); cbn [mbind result_bind]; [apply undo_spare|done..].
Qed.

Lemma load_inner_spare a s index key n spare1 spare2 :
  ZarrArray.load_inner a s index key n spare1 = ZarrArray.load_inner a s index key n spare2.
Proof.
  unfold ZarrArray.load_inner. destruct (index !! _); cbn [expect mbind result_bind]; [|done].
  destruct (is_missing _); [done|].
  destruct (under _ _) as [[path|]| |]; cbn [mbind result_bind]; try done.
  destruct (io _); cbn [mbind result_bind]; [apply undo_spare|done..].
Qed.

Lemma key_of_ok prefix key g n :
  grid_ok g -> key_of prefix key g n =
    Ok ((if decide (prefix = "") then "" else prefix +:+ "/") +:+ chunk_name key (unravel (Chunks.grid g) n).1).
Proof.
  intros Hg. unfold key_of, ChunkGrid.coords_of. by rewrite coords_from_spec by by apply grid_positive.
Qed.

(** ** A read *)

Section Answer.
Context (shared : ChunkKey -> bool) (a : ZarrArray).
Context (decodes : ChunkKey -> result AexError bytes).
Context (Hdec : forall n, 0 <= n < chunk_count a -> decodes (z_cache_key a, n) = array_chunk a n).
Context (chunk : Z -> bytes).
Context (Hlen : forall n, 0 <= n < chunk_count a -> zlen (chunk n) = chunk_len a).
Context (Hchunk : forall n b, 0 <= n < chunk_count a -> array_chunk a n = Ok b -> b = chunk n).

(** What an array keeps is what decoding it gives. *)
Record kept (k : ZarrArray.Kept) : Prop := {
  kp_cache : holds decodes (ZarrArray.k_cache k);
  kp_index : forall index, ZarrArray.k_index k = Some index ->
    exists s, z_store a = SSharded s /\ Sharded.build_index a s = Ok index;
}.

(** The failure of one of the array's chunks. *)
Definition chunk_failed (r : result AexError bytes) : Prop :=
  exists n, 0 <= n < chunk_count a /\ r = array_chunk a n.

Lemma chunked_answers g codecs :
  z_store a = Chunked g codecs -> grid_ok g ->
  chunk_answers (holds decodes) chunk_failed g chunk (fun c n start len =>
    sbind (pure_step c (key_of (z_prefix a) (z_key a) g n)) (fun c key =>
    ZarrArray.cached shared a n start len (ZarrArray.load_chunk a g codecs key) c)).
Proof.
  intros Hs Hg c n start len Hc Hn Hst Hl Hle.
  assert (0 <= n < chunk_count a) as Hn' by (unfold chunk_count; by rewrite Hs).
  pose proof (Hdec n Hn') as Hd. pose proof (Hlen n Hn') as Hcl. unfold chunk_len in Hcl. rewrite Hs in Hcl.
  assert (forall spare key, key_of (z_prefix a) (z_key a) g n = Ok key ->
    ZarrArray.load_chunk a g codecs key spare = array_chunk a n) as Hload.
  { intros spare key Hk. unfold array_chunk. rewrite Hs, Hk. cbn [mbind result_bind]. apply load_chunk_spare. }
  rewrite key_of_ok in * by done. cbn [pure_step sbind].
  eapply answers_impl; [|apply (read_into_answers decodes _ _ _ _ _ (chunk n)); try done].
  - intros r ->. exists n. by rewrite Hd.
  - intros spare. rewrite Hd. by apply Hload.
  - intros b Hb. apply Hchunk; [done|]. by rewrite <- Hd.
  - lia.
Qed.

(** The bytes of one shard. *)
Definition shard_bytes (s : Sharded) (shard : Z) : bytes :=
  assemble (inner s) (fun n => chunk (shard * zprod (Chunks.grid (inner s)) + n)).

Context (s : Sharded) (index : list ShardEntry).
Context (Hs : z_store a = SSharded s) (Hlaid : chunks_laid a) (Hindex : Sharded.build_index a s = Ok index).
Context (Hsmall : DType.itemsize (z_dtype a) <= SPAN_GAP_BYTES).

Lemma in_count shard n :
  0 <= shard < zprod (Chunks.grid (shards s)) -> 0 <= n < zprod (Chunks.grid (inner s)) ->
  0 <= shard * zprod (Chunks.grid (inner s)) + n < chunk_count a.
Proof. intros. unfold chunk_count. rewrite Hs. nia. Qed.

Lemma shard_length shard :
  0 <= shard < zprod (Chunks.grid (shards s)) -> zlen (shard_bytes s shard) = chunk_bytes (shards s).
Proof.
  intros Hsh. unfold chunks_laid in Hlaid. rewrite Hs in Hlaid. destruct Hlaid as (Hg & Hgs & Hgi & Hi & His & Hii & _).
  unfold shard_bytes. rewrite length_assemble; [|done|].
  - destruct (go_bytes _ Hg) as [-> _]. rewrite His, Hii, Hgi. lia.
  - intros n Hn. rewrite Hlen by by apply in_count. unfold chunk_len. by rewrite Hs.
Qed.

Lemma inner_answers shard key :
  0 <= shard < zprod (Chunks.grid (shards s)) -> key_of (z_prefix a) (z_key a) (shards s) shard = Ok key ->
  chunk_answers (holds decodes) chunk_failed (inner s)
    (fun n => chunk (shard * zprod (Chunks.grid (inner s)) + n))
    (fun c n start len =>
      let m := (shard *w ChunkGrid.chunks (inner s)) +w n in
      ZarrArray.cached shared a m start len (ZarrArray.load_inner a s index key m) c).
Proof.
  intros Hsh Hkey c n start len Hc Hn Hst Hl Hle. cbv zeta.
  pose proof (in_count shard n Hsh Hn) as Hm. pose proof Hlaid as Hla. unfold chunks_laid in Hla. rewrite Hs in Hla.
  destruct Hla as (Hg & _ & _ & Hi & _ & _ & Hmax & _). rewrite chunks_spec by done.
  unfold chunk_count in Hm. rewrite Hs in Hm. unfold MAX_CHUNKS in Hmax.
  set (per := zprod (Chunks.grid (inner s))) in *.
  rewrite (wmul_small shard) by (unfold is_u64; nia). rewrite wadd_small by (unfold is_u64; nia).
  set (m := shard * per + n) in *.
  assert (0 <= m < chunk_count a) as Hm' by (unfold chunk_count; by rewrite Hs).
  pose proof (Hdec m Hm') as Hd. pose proof (Hlen m Hm') as Hcl. unfold chunk_len in Hcl. rewrite Hs in Hcl.
  assert (m / per = shard) as Hdiv by (unfold m; rewrite Z.div_add_l, Z.div_small by lia; lia).
  eapply answers_impl; [|apply (read_into_answers decodes _ _ _ _ _ (chunk m)); try done].
  - intros r ->. exists m. by rewrite Hd.
  - intros spare. rewrite Hd. unfold array_chunk. rewrite Hs, Hindex. cbn [mbind result_bind].
    fold per. rewrite Hdiv, Hkey. apply load_inner_spare.
  - intros b Hb. apply Hchunk; [done|]. by rewrite <- Hd.
  - lia.
Qed.

Lemma shard_answers :
  chunk_bytes (shards s) < two63 ->
  chunk_answers (holds decodes) chunk_failed (shards s) (shard_bytes s) (fun c shard in_shard len =>
    sbind (pure_step c (key_of (z_prefix a) (z_key a) (shards s) shard)) (fun c key =>
    ChunkGrid.walk (fun c n start len =>
      let m := (shard *w ChunkGrid.chunks (inner s)) +w n in
      ZarrArray.cached shared a m start len (ZarrArray.load_inner a s index key m) c)
      (inner s) c in_shard len)).
Proof.
  intros Hcb c shard start len Hc Hsh Hst Hl Hle.
  pose proof Hlaid as Hla. unfold chunks_laid in Hla. rewrite Hs in Hla. destruct Hla as (Hg & _ & Hgi & Hi & His & Hii & _).
  pose proof (key_of_ok (z_prefix a) (z_key a) (shards s) shard Hg) as Hkey. rewrite Hkey. cbn [pure_step sbind].
  pose proof (shard_length shard Hsh) as Hsl.
  assert (chunk_bytes (shards s) = zprod (g_shape (inner s)) * g_itemsize (inner s)) as Hb.
  { destruct (go_bytes _ Hg) as [-> _]. rewrite His, Hii, Hgi. lia. }
  apply (walk_answers _ _ _ _ (fun n => chunk (shard * zprod (Chunks.grid (inner s)) + n))); try done; try lia.
  - apply assemble_tiled; [done|]. intros n Hn. rewrite Hlen by by apply in_count. unfold chunk_len. by rewrite Hs.
  - by apply inner_answers.
Qed.
End Answer.

(** The parts a read is made of fit 63 bits: the array, and the chunk its grid names. *)
Definition addressable (a : ZarrArray) : Prop :=
  zprod (z_shape a) * DType.itemsize (z_dtype a) < two63 /\
  match z_store a with Chunked _ _ => True | SSharded s => chunk_bytes (shards s) < two63 end.

Lemma failed_bind {A B} (r : result AexError A) (f : A -> result AexError B) :
  (forall x, r <> Ok x) -> forall x, (r ≫= f) <> Ok x.
Proof. intros Hr x. destruct r as [y|e|]; [by destruct (Hr y)|done..]. Qed.

Lemma array_bytes_length a chunk :
  array_ok a -> (forall n, 0 <= n < chunk_count a -> zlen (chunk n) = chunk_len a) ->
  Forall (fun d => 0 < d) (z_shape a) ->
  zlen (array_bytes a chunk) = zprod (z_shape a) * DType.itemsize (z_dtype a).
Proof.
  intros Ha Hlen Hpos. pose proof (ao_laid a Ha Hpos) as Hlaid. pose proof Hlaid as Hla.
  unfold array_bytes. unfold chunks_laid in Hla. destruct (z_store a) as [g codecs|s] eqn:Hs.
  - destruct Hla as (Hg & <- & <-). apply length_assemble; [done|].
    unfold chunk_count, chunk_len in Hlen. by rewrite Hs in Hlen.
  - destruct Hla as (Hg & Hgs & Hgi & _). rewrite <- Hgs, <- Hgi. apply length_assemble; [done|].
    intros shard Hsh. exact (shard_length a chunk Hlen s Hs Hlaid shard Hsh).
Qed.

(** A read of an array that has elements. *)
Lemma read_elements shared a decodes chunk k at_ len :
  array_ok a -> addressable a -> Forall (fun d => 0 < d) (z_shape a) ->
  (forall n, 0 <= n < chunk_count a -> decodes (z_cache_key a, n) = array_chunk a n) ->
  (forall n, 0 <= n < chunk_count a -> zlen (chunk n) = chunk_len a) ->
  (forall n b, 0 <= n < chunk_count a -> array_chunk a n = Ok b -> b = chunk n) ->
  kept a decodes k -> 0 <= at_ -> 0 <= len -> at_ + len <= zlen (array_bytes a chunk) ->
  answers (kept a decodes) (chunk_failed a) (slice at_ len (array_bytes a chunk)) (ZarrArray.read_at shared a k at_ len).
Proof.
  intros Ha [Hfit Hshard] Hpos Hdec Hlen Hchunk [Hc Hi] Hat Hl Hle.
  pose proof (array_bytes_length a chunk Ha Hlen Hpos) as Hal. pose proof (ao_laid a Ha Hpos) as Hlaid.
  pose proof (itemsize_small (z_dtype a)) as Hsmall.
  unfold ZarrArray.read_at. destruct (z_store a) as [g codecs|s] eqn:Hs.
  - pose proof Hlaid as Hla. unfold chunks_laid in Hla. rewrite Hs in Hla. destruct Hla as (Hg & Hgs & Hgi).
    assert (array_bytes a chunk = assemble g chunk) as Hab by (unfold array_bytes; by rewrite Hs).
    pose proof (chunked_answers shared a decodes Hdec chunk Hlen Hchunk g codecs Hs Hg) as Hans.
    apply (walk_answers _ _ g (array_bytes a chunk) chunk _ (ZarrArray.k_cache k) at_ len) in Hans;
      [|done|rewrite Hgi; lia|by rewrite Hgs, Hgi|lia| |done..].
    + destruct (ChunkGrid.walk _ _ _ _ _) as [c r]. destruct Hans as [HI Hr]. split; [|done].
      split; [done|]. intros index Hix. destruct (Hi index Hix) as (s & Hs' & _). congruence.
    + rewrite Hab. apply assemble_tiled; [done|]. intros n Hn. rewrite Hlen; unfold chunk_count, chunk_len; by rewrite Hs.
  - pose proof Hlaid as Hla. unfold chunks_laid in Hla. rewrite Hs in Hla. destruct Hla as (Hg & Hgs & Hgi & Hgn & _).
    assert (0 < chunk_count a) as Hcount.
    { unfold chunk_count. rewrite Hs. pose proof (zprod_pos _ (grid_positive _ Hg)). pose proof (zprod_pos _ (grid_positive _ Hgn)). nia. }
    assert (array_bytes a chunk = assemble (shards s) (shard_bytes chunk s)) as Hab by (unfold array_bytes; by rewrite Hs).
    assert (exists once, Sharded.index a s (ZarrArray.k_index k) = (once, Sharded.build_index a s) /\
      forall index, once = Some index -> Sharded.build_index a s = Ok index) as (once & -> & Honce).
    { unfold Sharded.index. destruct (ZarrArray.k_index k) as [index|] eqn:Hk.
      - destruct (Hi index eq_refl) as (s' & Hs' & Hb). assert (s' = s) as -> by congruence. rewrite Hb.
        exists (Some index). split; [done|]. by intros ? [= <-].
      - destruct (Sharded.build_index a s) as [index| |]; eexists; (split; [done|]); try done. by intros ? [= <-]. }
    assert (forall c, holds decodes c -> kept a decodes {| ZarrArray.k_cache := c; ZarrArray.k_index := once |}) as Hkept.
    { intros c Hh. split; [done|]. intros index Hix. exists s. split; [done|]. by apply Honce. }
    destruct (Sharded.build_index a s) as [index|e|] eqn:Hb.
    2,3: split; [by apply Hkept|right]; (split; [done|]); exists 0; (split; [lia|]);
      unfold array_chunk; by rewrite Hs, Hb.
    cbn [sbind].
    pose proof (shard_answers shared a decodes Hdec chunk Hlen Hchunk s index Hs Hlaid Hb (proj2 Hsmall) Hshard) as Hans.
    apply (walk_answers _ _ (shards s) (array_bytes a chunk) (shard_bytes chunk s) _ (ZarrArray.k_cache k) at_ len) in Hans;
      [|done|rewrite Hgi; lia|by rewrite Hgs, Hgi|lia| |done..].
    + cbn [ZarrArray.k_cache]. destruct (ChunkGrid.walk _ _ _ _ _) as [c r]. destruct Hans as [HI Hr]. split; [by apply Hkept|done].
    + rewrite Hab. apply assemble_tiled; [done|]. intros shard Hsh. by apply (shard_length a chunk Hlen).
Qed.
(** An array without elements has nothing to read. *)
Lemma read_empty shared a decodes k :
  array_ok a -> 0 ∈ z_shape a -> kept a decodes k ->
  exists k', ZarrArray.read_at shared a k 0 0 = (k', Ok []) /\ kept a decodes k'.
Proof.
  intros [Hs (Hsh & Hi & Hg & Hl & Hcs) _ _] Hz [Hc Hix]. pose proof (itemsize_small (z_dtype a)).
  assert (z_shape a <> []) as Hne by (intros Hn; rewrite Hn in Hz; by apply elem_of_nil in Hz).
  unfold ZarrArray.read_at, outer in *. destruct (z_store a) as [g codecs|s] eqn:Hst.
  - unfold ChunkGrid.walk. rewrite bool_decide_eq_false_2 by congruence.
    destruct (Z.eqb_spec (g_itemsize g) 0); [lia|]. cbn [Z.to_nat ChunkGrid.walk_loop Z.eqb].
    eexists. split; [done|]. split; [done|]. intros index Hi'. destruct (Hix index Hi') as (s & Hs' & _). congruence.
  - assert (ChunkGrid.chunks (shards s) = 0) as Hn.
    { unfold ChunkGrid.chunks. apply no_chunks. rewrite Hg. apply list_elem_of_lookup in Hz as [i Hi0].
      destruct (lookup_lt_is_Some_2 (Chunks.chunk_shape (shards s)) i) as [c Hci];
        [rewrite Hl; by eapply lookup_lt_Some|].
      apply list_elem_of_lookup. exists i. rewrite lookup_zip_with, Hi0, Hci. cbn. f_equal.
      pose proof (Forall_lookup_1 _ _ _ _ Hcs Hci). cbn in *. unfold div_ceil.
      rewrite Z.div_small by lia. done. }
    assert (exists index, Sharded.build_index a s = Ok index) as [index Hb].
    { unfold Sharded.build_index. rewrite Hn. by eexists. }
    assert (exists once, Sharded.index a s (ZarrArray.k_index k) = (once, Ok index) /\
      forall index', once = Some index' -> index' = index) as (once & -> & Ho).
    { unfold Sharded.index. destruct (ZarrArray.k_index k) as [index'|].
      - destruct (Hix index' eq_refl) as (s' & Hs' & Hb'). assert (s' = s) as -> by congruence.
        rewrite Hb in Hb'. injection Hb' as <-. eexists. split; [done|]. by intros ? [= <-].
      - rewrite Hb. eexists. split; [done|]. by intros ? [= <-]. }
    cbn [sbind ZarrArray.k_cache]. unfold ChunkGrid.walk. rewrite bool_decide_eq_false_2 by congruence.
    destruct (Z.eqb_spec (g_itemsize (shards s)) 0); [lia|]. cbn [Z.to_nat ChunkGrid.walk_loop Z.eqb].
    eexists. split; [done|]. split; [done|]. intros index' Hi'. cbn in Hi'. apply Ho in Hi' as ->. by exists s.
Qed.

(** A read of any array. *)
Lemma read_answers shared a decodes chunk k at_ len :
  array_ok a -> addressable a ->
  (forall n, 0 <= n < chunk_count a -> decodes (z_cache_key a, n) = array_chunk a n) ->
  (forall n, 0 <= n < chunk_count a -> zlen (chunk n) = chunk_len a) ->
  (forall n b, 0 <= n < chunk_count a -> array_chunk a n = Ok b -> b = chunk n) ->
  kept a decodes k -> 0 <= at_ -> 0 <= len -> at_ + len <= zprod (z_shape a) * DType.itemsize (z_dtype a) ->
  answers (kept a decodes) (chunk_failed a) (slice at_ len (array_bytes a chunk)) (ZarrArray.read_at shared a k at_ len).
Proof.
  intros Ha Had Hdec Hlen Hchunk Hk Hat Hl Hle. destruct (decide (0 ∈ z_shape a)) as [Hz|Hn].
  - assert (at_ = 0 /\ len = 0) as [-> ->] by (rewrite (zprod_zero _ Hz) in Hle; lia).
    destruct (read_empty shared a decodes k Ha Hz Hk) as (k' & -> & Hk'). split; [done|by left].
  - assert (Forall (fun d => 0 < d) (z_shape a)) as Hpos by by destruct (some_or_none _ (ao_shape a Ha)).
    apply read_elements; try done. by rewrite array_bytes_length.
Qed.
End Read.

(** ** Opening an array *)

Section Open.
Context `{Fs, StoreFs, JsonNum, !Serde, HalfNum, HalfLib}.

(** A [Vec<u64>] holds 64-bit numbers. *)
Class SerdeLaws : Prop := {
  parse_u64s_wf v l : parse_u64s v = Some l -> Forall is_u64 l;
  parse_node_wf text meta : parse_node text = Some (NArray meta) -> Forall is_u64 (m_shape meta);
}.

Lemma length_int_bytes dtype n b : int_bytes dtype n = Some b -> zlen b = DType.itemsize dtype.
Proof. unfold int_bytes. destruct dtype; try done; case_decide; try done; intros [= <-]; reflexivity. Qed.

Lemma length_float_fill dtype v b :
  dtype ∈ [Float16; Float32; Float64] -> float_fill dtype v = Ok b -> zlen b = DType.itemsize dtype.
Proof.
  intros Hd. assert (0 <= DType.itemsize dtype) by (destruct dtype; cbn; lia).
  unfold float_fill. destruct (hex_of v) as [hex|].
  - destruct (negb _); [done|]. intros (bits & _ & [= <-])%bind_ok. rewrite length_to_le_bytes. lia.
  - intros (number & _ & [= <-])%bind_ok. rewrite !elem_of_cons, elem_of_nil in Hd.
    destruct Hd as [->|[->|[->|[]]]]; reflexivity.
Qed.

Lemma length_part_fill dtype v b :
  dtype ∈ [Float16; Float32; Float64] -> part_fill dtype v = Ok b -> zlen b = DType.itemsize dtype.
Proof.
  intros Hd. destruct v; cbn [part_fill]; try by apply length_float_fill.
  intros [= <-]. rewrite length_replicate. assert (0 <= DType.itemsize dtype) by (destruct dtype; cbn; lia). lia.
Qed.

Lemma length_fill_bytes dtype v b : fill_bytes dtype v = Ok b -> zlen b = DType.itemsize dtype.
Proof.
  pose proof (itemsize_small dtype) as Hi.
  assert (forall part items, part ∈ [Float16; Float32; Float64] -> match items with
    | [re; im] => re ← part_fill part re; im ← part_fill part im; Ok (re ++ im)
    | _ => Err MalformedZarr end = Ok b -> zlen b = 2 * DType.itemsize part) as Hparts.
  { intros part [|re [|im []]] Hp; try done. intros (x & Hx & (y & Hy & [= <-])%bind_ok)%bind_ok.
    apply length_part_fill in Hx, Hy; [|done..]. rewrite length_app. lia. }
  destruct v; cbn [fill_bytes]; [intros [= <-]; rewrite length_replicate; lia|..]; destruct dtype;
    try (apply length_float_fill; set_solver); try (by intros (? & _ & [= <-])%bind_ok); try done;
    try (intros (? & _ & Hn)%bind_ok; apply ok_or_ok in Hn; by apply length_int_bytes in Hn).
  all: intros Hf; apply Hparts in Hf; [done|set_solver].
Qed.

Lemma new_sharded_parts shards dtype named s :
  SerdeLaws -> Sharded.new shards dtype named = Ok s ->
  Zarr.shards s = shards /\ exists shape entries, Forall (fun c => 0 <= c) shape /\
    ChunkGrid.new (Chunks.chunk_shape shards) shape (DType.itemsize dtype) = Some (inner s) /\
    checked_mul (ChunkGrid.chunks shards) (ChunkGrid.chunks (inner s)) = Some entries /\ entries <= MAX_CHUNKS /\
    index_bytes s = (ChunkGrid.chunks (inner s) *w 16) +w (if index_crc32c s then 4 else 0).
Proof.
  intros Hl. unfold Sharded.new. intros (shape & Hshape & Hr)%bind_ok.
  apply bind_ok in Hr as (i & Hi & Hr). apply ok_or_ok in Hi. destruct (existsb _ _); [done|].
  apply bind_ok in Hr as (names & _ & Hr). apply bind_ok in Hr as (codecs & _ & Hr).
  apply bind_ok in Hr as (names' & _ & Hr). apply bind_ok in Hr as (crc & _ & Hr).
  apply bind_ok in Hr as (at_start & _ & Hr). apply bind_ok in Hr as (entries & He & Hr).
  apply ok_or_ok in He. destruct (Z.ltb_spec MAX_CHUNKS entries); [done|]. injection Hr as <-. cbn [Zarr.shards inner].
  split; [done|]. exists shape, entries. repeat split; try done.
  unfold configured in Hshape. apply ok_or_ok in Hshape. apply parse_u64s_wf in Hshape.
  eapply Forall_impl; [exact Hshape|]. unfold is_u64. intros. lia.
Qed.

Lemma new_sharded_ok shards dtype named s :
  SerdeLaws -> grid_ok shards -> Sharded.new shards dtype named = Ok s ->
  grid_ok (inner s) /\ g_shape (inner s) = Chunks.chunk_shape shards /\
  g_itemsize (inner s) = DType.itemsize dtype /\
  zprod (Chunks.grid shards) * zprod (Chunks.grid (inner s)) <= MAX_CHUNKS /\
  index_bytes s = zprod (Chunks.grid (inner s)) * 16 + if index_crc32c s then 4 else 0.
Proof.
  intros Hl Hg Hnew. destruct (new_sharded_parts _ _ _ _ Hl Hnew) as (_ & shape & entries & Hs & Hi & He & Hmax & Hib).
  destruct (new_grid_ok (Chunks.chunk_shape shards) shape (DType.itemsize dtype) (inner s)) as (Hgi & Hsh & Hit & _);
    [apply Hg|done|pose proof (itemsize_small dtype); unfold SPAN_GAP_BYTES in *; lia|done|].
  rewrite chunks_spec in Hib by done. rewrite chunks_spec, chunks_spec in He by done.
  apply checked_mul_some in He as [He _]. split; [done|]. split; [done|]. split; [done|]. split; [lia|].
  pose proof (zprod_pos _ (grid_positive _ Hg)). pose proof (zprod_pos _ (grid_positive _ Hgi)). unfold MAX_CHUNKS in Hmax.
  rewrite Hib, wmul_small, wadd_small by (unfold is_u64; destruct (index_crc32c s); nia). done.
Qed.

(** Every array [new] makes is well laid out. *)
Lemma new_array_ok root prefix meta cache a cache' :
  SerdeLaws -> Forall is_u64 (m_shape meta) -> ZarrArray.new root prefix meta cache = (Ok a, cache') ->
  array_ok a /\ z_shape a = m_shape meta /\ z_root a = root /\ z_prefix a = prefix /\
  DecodeCache.new_key cache = (z_cache_key a, cache').
Proof.
  intros Hlaws Hu. unfold ZarrArray.new. destruct (DecodeCache.new_key cache) as [ck c1] eqn:Hck.
  destruct (_ ≫= _) as [a'| |] eqn:Hm; [|done..]. intros [= -> ->].
  apply bind_ok in Hm as (name & _ & Hm). apply bind_ok in Hm as (dtype & _ & Hm).
  destruct (bool_decide _); [done|]. destruct (bool_decide _); [done|].
  apply bind_ok in Hm as (cs & Hcs & Hm). apply bind_ok in Hm as (g & Hg & Hm). apply ok_or_ok in Hg.
  apply bind_ok in Hm as (store & Hstore & Hm). apply bind_ok in Hm as (key & _ & Hm).
  apply bind_ok in Hm as (fill & Hfill & Hm). injection Hm as <-.
  assert (Forall (fun c => 0 <= c) cs) as Hcs'.
  { unfold configured in Hcs. apply ok_or_ok in Hcs. apply parse_u64s_wf in Hcs.
    eapply Forall_impl; [exact Hcs|]. unfold is_u64. intros. lia. }
  pose proof (new_grid_outer _ _ _ _ Hcs' Hg) as Houter.
  assert (match store with Chunked g' _ => g' = g | SSharded s => shards s = g /\ Sharded.new g dtype (default (chunk_grid meta) (sharding_of (m_codecs meta))) = Ok s end) as Hst.
  { destruct (sharding_of _) as [named|].
    - destruct (Sharded.new g dtype named) as [s| |] eqn:Hn; [|done..]. cbn in Hstore. injection Hstore as <-.
      cbn [default]. split; [|done]. by eapply new_sharded_parts.
    - destruct (parse_codecs _); [|done..]. cbn in Hstore. by injection Hstore as <-. }
  split; [|done]. assert (Forall (fun d => 0 <= d) (m_shape meta)) as Hnn.
  { eapply Forall_impl; [exact Hu|]. unfold is_u64. intros. lia. }
  split; cbn [z_shape z_dtype z_fill]; [done| | |].
  - unfold outer. cbn [z_store]. destruct store as [g' codecs|s]; [by subst g'|]. by destruct Hst as [-> _].
  - intros Hpos. pose proof (itemsize_small dtype) as Hi.
    destruct (new_grid_ok _ _ (DType.itemsize dtype) g Hpos Hcs' ltac:(unfold SPAN_GAP_BYTES in Hi; lia) Hg) as (Hgok & Hsh & Hit & _).
    unfold chunks_laid. cbn [z_store z_shape z_dtype]. destruct store as [g' codecs|s]; [by subst g'|].
    destruct Hst as [Hss Hnew]. rewrite Hss. destruct (new_sharded_ok _ _ _ _ Hlaws Hgok Hnew) as (? & ? & ? & ? & ?).
    done.
  - destruct (fill_bytes _ _) as [b| |] eqn:Hb; [|done..]. cbn in Hfill. injection Hfill as ->. by eapply length_fill_bytes.
Qed.
End Open.

(** ** What is served *)

Section Serve.
Context `{Fs, StoreFs, JsonNum, !Serde, ChunkLib, HalfNum, HalfLib, Build}.

Lemma chunk_len_nonneg a : array_ok a -> Forall (fun d => 0 < d) (z_shape a) -> 0 <= chunk_len a.
Proof.
  intros Ha Hpos. pose proof (ao_laid a Ha Hpos) as Hla. unfold chunks_laid, chunk_len in *.
  assert (forall g, grid_ok g -> 0 <= chunk_bytes g) as Hg.
  { intros g Hg. destruct (go_bytes g Hg) as [-> _]. pose proof (go_item g Hg). pose proof (zprod_pos _ (go_chunk g Hg)). nia. }
  destruct (z_store a); apply Hg; tauto.
Qed.

(** A chunk that decodes is as long as a chunk of the array. *)
Lemma array_chunk_length a n b :
  array_ok a -> Forall (fun d => 0 < d) (z_shape a) -> array_chunk a n = Ok b -> zlen b = chunk_len a.
Proof.
  intros Ha Hpos. pose proof (chunk_len_nonneg a Ha Hpos) as Hl. unfold array_chunk, chunk_len in *.
  assert (forall b', fill_chunk (z_fill a) (chunk_len a) [] = Ok b' -> zlen b' = chunk_len a) as Hf.
  { intros b' Hb. apply length_fill_from in Hb. rewrite Hb. unfold chunk_len in *. lia. }
  unfold chunk_len in *. destruct (z_store a) as [g codecs|s].
  - intros (key & _ & Hc)%bind_ok. unfold ZarrArray.load_chunk in Hc. apply bind_ok in Hc as ([path|] & _ & Hc).
    + apply bind_ok in Hc as (file & _ & Hc). by apply undo_size in Hc.
    + by apply Hf.
  - intros (index & _ & (key & _ & Hc)%bind_ok)%bind_ok. unfold ZarrArray.load_inner in Hc.
    apply bind_ok in Hc as (entry & _ & Hc). destruct (is_missing entry); [by apply Hf|].
    apply bind_ok in Hc as ([path|] & _ & Hc); [|by apply Hf].
    apply bind_ok in Hc as (file & _ & Hc). by apply undo_size in Hc.
Qed.

(** What chunk [n] holds, when it decodes. *)
Definition loaded_chunk (a : ZarrArray) (n : Z) : bytes :=
  match array_chunk a n with Ok b => b | _ => [] end.

(** An array as a transfer reads it: what is kept when each range is asked for is whatever
    the reads of every connection left. *)
Record ZarrReader : Type := {
  zr_array : ZarrArray;
  zr_shared : ChunkKey -> bool;
  zr_kept : Z -> Z -> ZarrArray.Kept;
}.

Definition read_range (r : ZarrReader) (l : SelectionLayout) (offset : Z) (dst : bytes) : result AexError bytes :=
  SelectionLayout.read_with (fun at_ len =>
    (ZarrArray.read_at (zr_shared r) (zr_array r) (zr_kept r at_ len) at_ len).2) l offset dst.

#[export] Instance zarr_dataset : ArrayDataset ZarrReader := {|
  ds_dtype r := z_dtype (zr_array r);
  ds_shape r := z_shape (zr_array r);
  ds_read_range := read_range;
|}.

(** An open array all of whose chunks decode. *)
Record zarr_open (r : ZarrReader) : Prop := {
  zo_array : array_ok (zr_array r);
  zo_fits : addressable (zr_array r);
  zo_chunks n : 0 <= n < chunk_count (zr_array r) -> exists b, array_chunk (zr_array r) n = Ok b;
  zo_kept at_ len : exists decodes, kept (zr_array r) decodes (zr_kept r at_ len) /\
    forall n, 0 <= n < chunk_count (zr_array r) -> decodes (z_cache_key (zr_array r), n) = array_chunk (zr_array r) n;
}.

Definition zarr_contents (r : ZarrReader) : bytes :=
  if decide (0 ∈ z_shape (zr_array r)) then [] else array_bytes (zr_array r) (loaded_chunk (zr_array r)).

Lemma zarr_reads r :
  zarr_open r -> zlen (zarr_contents r) = zprod (z_shape (zr_array r)) * DType.itemsize (z_dtype (zr_array r)) /\
  reads (zarr_contents r) (fun at_ len => (ZarrArray.read_at (zr_shared r) (zr_array r) (zr_kept r at_ len) at_ len).2).
Proof.
  intros [Ha Hf Hc Hk]. unfold zarr_contents. set (a := zr_array r) in *. case_decide as Hz.
  - rewrite (zprod_zero _ Hz). split; [done|]. intros at_ len Hat Hl Hle. cbn in Hle.
    assert (at_ = 0 /\ len = 0) as [-> ->] by lia. destruct (Hk 0 0) as (decodes & Hkept & _).
    by destruct (read_empty (zr_shared r) a decodes (zr_kept r 0 0) Ha Hz Hkept) as (k' & -> & _).
  - assert (Forall (fun d => 0 < d) (z_shape a)) as Hpos by by destruct (some_or_none _ (ao_shape a Ha)).
    assert (forall n, 0 <= n < chunk_count a -> zlen (loaded_chunk a n) = chunk_len a) as Hlen.
    { intros n Hn. unfold loaded_chunk. destruct (Hc n Hn) as [b Hb]. rewrite Hb. by eapply array_chunk_length. }
    pose proof (array_bytes_length a _ Ha Hlen Hpos) as Hal. split; [done|]. intros at_ len Hat Hl Hle.
    destruct (Hk at_ len) as (decodes & Hkept & Hdec).
    destruct (read_answers (zr_shared r) a decodes (loaded_chunk a) (zr_kept r at_ len) at_ len) as [_ [Ho|[Hno (n & Hn & Hr)]]];
      try done; [| |].
    + intros n b Hn Hb. unfold loaded_chunk. by rewrite Hb.
    + lia.
    + destruct (Hc n Hn) as [b Hb]. rewrite Hb in Hr. by destruct (Hno b).
Qed.

#[export] Program Instance zarr_served : Served ZarrReader := {|
  ds_open := zarr_open;
  contents := zarr_contents;
|}.
Next Obligation. intros r Hr. apply (ao_shape _ (zo_array _ Hr)). Qed.
Next Obligation.
  intros r Hr. destruct (zarr_reads r Hr) as [Hl _]. split; [done|]. rewrite Hl. apply (zo_fits _ Hr).
Qed.
Next Obligation.
  intros r Hr. destruct (zarr_reads r Hr) as [Hl Hreads]. eapply serves_read_with; [apply (ao_shape _ (zo_array _ Hr))|done| |exact Hreads|done].
  rewrite Hl. apply (zo_fits _ Hr).
Qed.
End Serve.
