(* ===== verification/ZarrWritten.v ===== *)
(** A Zarr store as the format writes it, and that it reads back: chunks encoded and filed
    under their keys, shards with an index of where each inner chunk lies. *)
From Stdlib Require Import Ascii.
From stdpp Require Import strings pretty gmap.
From S2P Require Import Prelude Errors Dtype Bytes Quality Selection Cast Layout Chunks DecodeCache ChunkStore Text Backend Paths Reduce Zarr ZarrSpec ZarrCorrect.

(** ** Where chunks are filed *)

Section Keys.
Context `{Fs, StoreFs}.

Definition chunk_key (a : ZarrArray) (g : ChunkGrid) (n : Z) : string :=
  (if decide (z_prefix a = "") then "" else z_prefix a +:+ "/") +:+ chunk_name (z_key a) (unravel (Chunks.grid g) n).1.

Definition present (root : StoreRoot) (key : string) (file : bytes) : Prop :=
  exists path, under root key = Ok (Some path) /\ read_file path = Ok file.
Definition absent (root : StoreRoot) (key : string) : Prop := under root key = Ok None.

Lemma fill_chunk_spec fill g spare :
  0 < g_itemsize g -> zlen fill = g_itemsize g -> chunk_bytes g = g_itemsize g * zprod (Chunks.chunk_shape g) ->
  0 <= zprod (Chunks.chunk_shape g) ->
  fill_chunk fill (chunk_bytes g) spare = Ok (fill_pattern fill (zprod (Chunks.chunk_shape g))).
Proof.
  intros Hi Hl Hb Hz. unfold fill_chunk, fill_pattern. rewrite Hb, <- fill_from_spec.
  - f_equal. lia.
  - intros ->. cbn in *. lia.
Qed.
End Keys.

(** ** Shard indexes *)

Definition entry_wf (e : ShardEntry) : Prop := is_u64 (e_offset e) /\ is_u64 (e_nbytes e).

Definition entry_bytes (e : ShardEntry) : bytes := to_le_bytes 8 (e_offset e) ++ to_le_bytes 8 (e_nbytes e).

(** The index of a shard, and its place in the file. *)
Definition index_part `{ChunkLib} (s : Sharded) (es : list ShardEntry) : bytes :=
  let raw := concat (entry_bytes <$> es) in
  if index_crc32c s then raw ++ to_le_bytes 4 (crc32c raw) else raw.

Definition shard_file `{ChunkLib} (s : Sharded) (es : list ShardEntry) (chunks : bytes) : bytes :=
  if index_at_start s then index_part s es ++ chunks else chunks ++ index_part s es.

(** An entry that lies in a file of [len] bytes, or says there is no chunk. *)
Definition entry_fits (len : Z) (e : ShardEntry) : Prop :=
  entry_wf e /\ (e = MISSING \/ e_offset e + e_nbytes e <= len).

Lemma length_entry e : zlen (entry_bytes e) = 16.
Proof. unfold entry_bytes. by rewrite length_app, !length_to_le_bytes. Qed.

Lemma is_missing_spec e : is_missing e = true <-> e = MISSING.
Proof.
  unfold is_missing. destruct e as [o n]. cbn. rewrite andb_true_iff, !Z.eqb_eq. unfold MISSING. split.
  - by intros [-> ->].
  - by intros [= -> ->].
Qed.

Lemma read_entry_spec shard per len es index i e :
  0 <= i -> 0 <= shard * per -> len < two64 -> es !! Z.to_nat i = Some e -> entry_fits len e ->
  shard * per + i < zlen index ->
  Sharded.read_entry shard per len (concat (entry_bytes <$> es)) index i =
    Ok (if decide (e = MISSING) then index else <[Z.to_nat (shard * per + i) := e]> index).
Proof.
  intros Hi Hs Hlen He [[Ho Hn] Hfit] Hix. unfold Sharded.read_entry.
  assert (Forall (fun b => zlen b = 16) (entry_bytes <$> es)) as Hall
    by (apply Forall_fmap, Forall_forall; intros; apply length_entry).
  pose proof (lookup_lt_Some _ _ _ He) as Hlt.
  rewrite slice_ok; [|lia|lia|rewrite (concat_sizes 16), length_fmap by done; lia].
  replace (i * 16) with (Z.of_nat (Z.to_nat i) * 16) by lia.
  rewrite (nth_part 16 _ _ (entry_bytes e)); [|done|by rewrite list_lookup_fmap, He].
  cbn [mbind result_bind]. unfold entry_bytes.
  rewrite take_app_length', drop_app_length' by by rewrite length_to_le_bytes.
  rewrite !from_to_le_u64 by done.
  assert ({| e_offset := e_offset e; e_nbytes := e_nbytes e |} = e) as -> by by destruct e.
  case_decide as Hm.
  - assert (is_missing e = true) as -> by by apply is_missing_spec. done.
  - destruct (is_missing e) eqn:Hmiss; [by apply is_missing_spec in Hmiss|]. destruct Hfit as [|Hfit]; [done|].
    assert (checked_add (e_offset e) (e_nbytes e) = Some (e_offset e + e_nbytes e)) as -> by (apply checked_add_some; lia).
    destruct (Z.ltb_spec len (e_offset e + e_nbytes e)); [lia|].
    destruct (Nat.ltb_spec (Z.to_nat (shard * per + i)) (length index)); [done|lia].
Qed.

Section Index.
Context `{Fs, StoreFs, ChunkLib, !ChunkWriter}.
Context (a : ZarrArray) (s : Sharded) (Hgs : grid_ok (shards s)) (Hgi : grid_ok (inner s)).
#[local] Abbreviation nshards := (zprod (Chunks.grid (shards s))).
#[local] Abbreviation per := (zprod (Chunks.grid (inner s))).
Context (Hmax : nshards * per <= MAX_CHUNKS).
Context (Hindex : index_bytes s = per * 16 + if index_crc32c s then 4 else 0).

(** The shard's file was written with the index [es], or there is none and [es] says so. *)
Inductive shard_indexed (shard : Z) (es : list ShardEntry) : Prop :=
  | shard_absent : absent (z_root a) (chunk_key a (shards s) shard) ->
      es = replicate (Z.to_nat per) MISSING -> shard_indexed shard es
  | shard_present chunks : present (z_root a) (chunk_key a (shards s) shard) (shard_file s es chunks) ->
      zlen (shard_file s es chunks) < two63 ->
      Forall (entry_fits (zlen (shard_file s es chunks))) es -> zlen es = per -> shard_indexed shard es.

Lemma per_pos : 0 < per.
Proof. apply zprod_pos, grid_positive, Hgi. Qed.

Lemma length_index_part es : zlen es = per -> zlen (index_part s es) = index_bytes s.
Proof.
  intros Hl. rewrite Hindex. unfold index_part.
  assert (zlen (concat (entry_bytes <$> es)) = per * 16) as Hc.
  { rewrite (concat_sizes 16), length_fmap, Hl; [done|]. apply Forall_fmap, Forall_forall. intros. apply length_entry. }
  destruct (index_crc32c s); [rewrite length_app, length_to_le_bytes|]; lia.
Qed.

Lemma shard_file_length es chunks : zlen es = per -> zlen (shard_file s es chunks) = zlen chunks + index_bytes s.
Proof.
  intros Hl. pose proof (length_index_part es Hl). unfold shard_file. destruct (index_at_start s); rewrite length_app; lia.
Qed.

(** The index of one shard goes into its stretch of the array's. *)
Lemma read_shard_spec index shard es :
  0 <= shard < nshards -> zlen index = nshards * per -> shard_indexed shard es ->
  (forall m, shard * per <= m < nshards * per -> index !! Z.to_nat m = Some MISSING) ->
  exists index', Sharded.read_shard a s index shard = Ok index' /\ zlen index' = zlen index /\
    (forall j, 0 <= j < per -> index' !! Z.to_nat (shard * per + j) = es !! Z.to_nat j) /\
    (forall m, (0 <= m < shard * per \/ (shard + 1) * per <= m) -> index' !! Z.to_nat m = index !! Z.to_nat m).
Proof.
  intros Hsh Hlen Hes Hm. pose proof per_pos as Hper. unfold Sharded.read_shard. rewrite key_of_ok by done.
  cbn [mbind result_bind]. fold (chunk_key a (shards s) shard).
  destruct Hes as [Habs ->|chunks (path & Hu & Hf) Hsmall Hfits Hl].
  { rewrite Habs. cbn [mbind result_bind]. exists index. split; [done|]. split; [done|]. split; [|done].
    intros j Hj. rewrite Hm by nia. symmetry. apply lookup_replicate. split; [done|lia]. }
  rewrite Hu. cbn [mbind result_bind]. rewrite Hf. cbn [io map_err mbind result_bind].
  pose proof (shard_file_length es chunks Hl) as Hfl. pose proof (length_index_part es Hl) as Hil.
  set (file := shard_file s es chunks) in *. destruct (Z.ltb_spec (zlen file) (index_bytes s)); [lia|].
  assert (0 <= index_bytes s) by (rewrite Hindex; destruct (index_crc32c s); lia).
  assert (slice (if index_at_start s then 0 else zlen file - index_bytes s) (index_bytes s) file = index_part s es) as Hraw.
  { unfold file in *. unfold shard_file in *. rewrite <- Hil in *. destruct (index_at_start s).
    - rewrite slice_app_l by lia. apply slice_all.
    - replace (zlen (chunks ++ index_part s es) - zlen (index_part s es)) with (zlen chunks + 0) by (rewrite length_app; lia).
      rewrite slice_app_r by lia. apply slice_all. }
  unfold read_exact_at, read_exact. rewrite Hf. cbn [mbind result_bind].
  rewrite decide_True by (right; destruct (index_at_start s); lia). rewrite Hraw. cbn [io map_err mbind result_bind].
  assert ((if index_crc32c s then ok_or MalformedZarr (strip_crc32c (index_part s es)) else Ok (index_part s es))
    = Ok (concat (entry_bytes <$> es))) as ->.
  { unfold index_part. destruct (index_crc32c s); [|done]. by rewrite strip_appended. }
  cbn [mbind result_bind]. rewrite chunks_spec by done.
  destruct (mfold_seqZ (Sharded.read_entry shard per (zlen file) (concat (entry_bytes <$> es)))
    (fun i index' => zlen index' = zlen index /\
      (forall j, 0 <= j < i -> index' !! Z.to_nat (shard * per + j) = es !! Z.to_nat j) /\
      (forall m, (0 <= m < shard * per \/ shard * per + i <= m) -> index' !! Z.to_nat m = index !! Z.to_nat m))
    index per) as (index' & Hfold & Hlen' & Hin & Hout); [lia| | |].
  - split; [done|]. split; [intros; lia|done].
  - intros i b Hi (Hb & Hin & Hout).
    destruct (lookup_lt_is_Some_2 es (Z.to_nat i)) as [e He]; [lia|].
    pose proof (Forall_lookup_1 _ _ _ _ Hfits He) as Hfit. cbn in Hfit.
    rewrite (read_entry_spec _ _ _ es b i e) by (done || nia || lia). eexists. split; [done|].
    case_decide as Hmiss.
    + split; [done|]. split; [|intros m Hmm; apply Hout; lia]. intros j Hj.
      destruct (decide (j = i)) as [->|]; [|apply Hin; lia]. rewrite He, Hmiss, Hout by lia. apply Hm. nia.
    + rewrite length_insert. split; [done|]. split.
      * intros j Hj. destruct (decide (j = i)) as [->|]; [rewrite list_lookup_insert_eq by nia; done|].
        rewrite list_lookup_insert_ne by nia. apply Hin. lia.
      * intros m Hmm. destruct (decide (0 <= m)); [|lia].
        rewrite list_lookup_insert_ne by nia. apply Hout. lia.
  - exists index'. split; [done|]. split; [done|]. split; [done|]. intros m Hmm. apply Hout. lia.
Qed.

(** The whole index: every entry is the one its shard was written with. *)
Lemma build_index_spec (es : Z -> list ShardEntry) :
  (forall shard, 0 <= shard < nshards -> shard_indexed shard (es shard)) ->
  exists index, Sharded.build_index a s = Ok index /\ zlen index = nshards * per /\
    forall shard j, 0 <= shard < nshards -> 0 <= j < per ->
      index !! Z.to_nat (shard * per + j) = es shard !! Z.to_nat j.
Proof.
  intros Hes. pose proof per_pos as Hper. unfold Sharded.build_index. rewrite !chunks_spec by done.
  pose proof (zprod_pos _ (grid_positive _ Hgs)). unfold MAX_CHUNKS in Hmax. rewrite wmul_small by (unfold is_u64; nia).
  destruct (mfold_seqZ (Sharded.read_shard a s)
    (fun k index => zlen index = nshards * per /\
      (forall shard j, 0 <= shard < k -> 0 <= j < per -> index !! Z.to_nat (shard * per + j) = es shard !! Z.to_nat j) /\
      (forall m, k * per <= m < nshards * per -> index !! Z.to_nat m = Some MISSING))
    (replicate (Z.to_nat (nshards * per)) MISSING) nshards) as (index & Hfold & Hlen & Hin & _); [lia| | |].
  - rewrite length_replicate. split; [nia|]. split; [intros; lia|]. intros m Hm. apply lookup_replicate. split; [done|lia].
  - intros k index Hk (Hlen & Hin & Hout).
    destruct (read_shard_spec index k (es k) Hk Hlen (Hes k Hk) Hout) as (index' & Hr & Hlen' & Hnew & Hold).
    exists index'. split; [done|]. split; [by rewrite Hlen'|]. split.
    + intros shard j Hsh Hj. destruct (decide (shard = k)) as [->|]; [by apply Hnew|].
      rewrite Hold by (left; nia). apply Hin; lia.
    + intros m Hm. rewrite Hold by (right; lia). apply Hout. nia.
  - by exists index.
Qed.
End Index.

(** ** A written array *)

Section Store.
Context `{Fs, StoreFs, ChunkLib, !ChunkWriter}.

(** The file of a chunk of [n] bytes, [b], after its codecs. *)
Definition encoded (codecs : list ChunkCodec) (n : Z) (b file : bytes) : Prop :=
  file = foldl apply_codec b codecs /\ zlen b = n /\ fits_room n b codecs.

(** A chunk in a file of its own, or one that was never written. *)
Inductive chunk_written (a : ZarrArray) (g : ChunkGrid) (codecs : list ChunkCodec) (n : Z) (b : bytes) : Prop :=
  | never_written : absent (z_root a) (chunk_key a g n) ->
      b = fill_pattern (z_fill a) (zprod (Chunks.chunk_shape g)) -> chunk_written a g codecs n b
  | in_file file : present (z_root a) (chunk_key a g n) file ->
      encoded codecs (chunk_bytes g) b file -> chunk_written a g codecs n b.

(** A shard's file, whose index says where each of its chunks lies. *)
Inductive shard_written (a : ZarrArray) (s : Sharded) (shard : Z) (es : list ShardEntry) (chunk : Z -> bytes) : Prop :=
  | no_shard : absent (z_root a) (chunk_key a (shards s) shard) ->
      es = replicate (Z.to_nat (zprod (Chunks.grid (inner s)))) MISSING ->
      (forall j, 0 <= j < zprod (Chunks.grid (inner s)) ->
        chunk j = fill_pattern (z_fill a) (zprod (Chunks.chunk_shape (inner s)))) ->
      shard_written a s shard es chunk
  | in_shard chunks : present (z_root a) (chunk_key a (shards s) shard) (shard_file s es chunks) ->
      zlen (shard_file s es chunks) < two63 ->
      Forall (entry_fits (zlen (shard_file s es chunks))) es -> zlen es = zprod (Chunks.grid (inner s)) ->
      (forall j e, 0 <= j < zprod (Chunks.grid (inner s)) -> es !! Z.to_nat j = Some e ->
        if decide (e = MISSING) then chunk j = fill_pattern (z_fill a) (zprod (Chunks.chunk_shape (inner s)))
        else encoded (s_codecs s) (chunk_bytes (inner s)) (chunk j)
               (slice (e_offset e) (e_nbytes e) (shard_file s es chunks))) ->
      shard_written a s shard es chunk.

Definition array_written (a : ZarrArray) (chunk : Z -> bytes) : Prop :=
  match z_store a with
  | Chunked g codecs => forall n, 0 <= n < zprod (Chunks.grid g) -> chunk_written a g codecs n (chunk n)
  | SSharded s => exists es, forall shard, 0 <= shard < zprod (Chunks.grid (shards s)) ->
      shard_written a s shard (es shard) (fun j => chunk (shard * zprod (Chunks.grid (inner s)) + j))
  end.

Lemma undo_encoded codecs n b file spare : encoded codecs n b file -> undo codecs file n spare = Ok b.
Proof.
  intros (-> & Hl & Hf). unfold undo. destruct (undo_applied n codecs b spare) as [spare' ->]; [lia|done|].
  cbn. by rewrite Hl, Z.eqb_refl.
Qed.

Lemma load_chunk_written a g codecs n b spare :
  grid_ok g -> g_itemsize g = zlen (z_fill a) -> chunk_written a g codecs n b ->
  ZarrArray.load_chunk a g codecs (chunk_key a g n) spare = Ok b.
Proof.
  intros Hg Hfill Hw. pose proof (zprod_pos _ (go_chunk g Hg)). unfold ZarrArray.load_chunk.
  destruct Hw as [Habs ->|file (path & -> & Hf) He].
  - rewrite Habs. cbn [mbind result_bind]. apply fill_chunk_spec; [apply Hg|done|apply Hg|lia].
  - cbn [mbind result_bind]. rewrite Hf. cbn [io map_err mbind result_bind]. by apply undo_encoded.
Qed.

Lemma load_inner_written a s shard es chunk index j spare :
  grid_ok (inner s) -> g_itemsize (inner s) = zlen (z_fill a) ->
  0 <= shard * zprod (Chunks.grid (inner s)) -> 0 <= j < zprod (Chunks.grid (inner s)) ->
  shard_written a s shard es chunk ->
  index !! Z.to_nat (shard * zprod (Chunks.grid (inner s)) + j) = es !! Z.to_nat j ->
  ZarrArray.load_inner a s index (chunk_key a (shards s) shard) (shard * zprod (Chunks.grid (inner s)) + j) spare
    = Ok (chunk j).
Proof.
  intros Hg Hfill Hsh Hj Hw Hix. pose proof (zprod_pos _ (go_chunk _ Hg)). unfold ZarrArray.load_inner. rewrite Hix.
  assert (fill_chunk (z_fill a) (chunk_bytes (inner s)) spare =
    Ok (fill_pattern (z_fill a) (zprod (Chunks.chunk_shape (inner s))))) as Hfc.
  { apply fill_chunk_spec; [apply Hg|done|apply Hg|lia]. }
  destruct Hw as [Habs -> Hchunk|chunks (path & Hu & Hf) Hsmall Hfits Hl Hchunk].
  - rewrite lookup_replicate_2 by lia. cbn [expect mbind result_bind].
    assert (is_missing MISSING = true) as -> by by apply is_missing_spec. by rewrite Hchunk.
  - destruct (lookup_lt_is_Some_2 es (Z.to_nat j)) as [e He]; [lia|]. rewrite He. cbn [expect mbind result_bind].
    specialize (Hchunk j e Hj He). case_decide as Hm.
    { assert (is_missing e = true) as -> by by apply is_missing_spec. by rewrite Hchunk. }
    destruct (is_missing e) eqn:Hmiss; [by apply is_missing_spec in Hmiss|].
    rewrite Hu. cbn [mbind result_bind]. unfold read_exact_at, read_exact. rewrite Hf. cbn [mbind result_bind].
    pose proof (Forall_lookup_1 _ _ _ _ Hfits He) as [_ [|Hfit]]; [done|]. rewrite decide_True by (right; exact Hfit).
    cbn [io map_err mbind result_bind]. by apply undo_encoded.
Qed.

(** Every chunk of a written array decodes to what was written. *)
Lemma written_chunks a chunk n :
  array_ok a -> Forall (fun d => 0 < d) (z_shape a) -> array_written a chunk -> 0 <= n < chunk_count a ->
  array_chunk a n = Ok (chunk n).
Proof.
  intros Ha Hpos Hw Hn. pose proof (ao_laid a Ha Hpos) as Hla. pose proof (ao_fill a Ha) as Hfill.
  unfold array_chunk, array_written, chunks_laid, chunk_count in *. destruct (z_store a) as [g codecs|s] eqn:Hs.
  - destruct Hla as (Hg & _ & Hi). rewrite key_of_ok by done. cbn [mbind result_bind].
    apply load_chunk_written; [done|lia|by apply Hw].
  - destruct Hla as (Hg & _ & _ & Hgi & _ & Hi & Hmax & Hib). destruct Hw as [es Hes].
    destruct (build_index_spec a s Hg Hgi Hmax Hib es) as (index & -> & _ & Hix).
    { intros shard Hsh. destruct (Hes shard Hsh) as [? ? _|chunks ? ? ? ? _]; [by apply shard_absent|by eapply shard_present]. }
    cbn [mbind result_bind]. rewrite key_of_ok by done. cbn [mbind result_bind].
    set (per := zprod (Chunks.grid (inner s))) in *. pose proof (zprod_pos _ (grid_positive _ Hgi)) as Hper. fold per in Hper.
    div_mod n per. pose proof (Z.mod_pos_bound n per Hper).
    assert (0 <= n / per < zprod (Chunks.grid (shards s))) as Hsh by (split; [apply Z.div_pos; lia|nia]).
    assert (n = n / per * per + n mod per) as Hn' by lia.
    specialize (Hix (n / per) (n mod per) Hsh ltac:(lia)).
    pose proof (load_inner_written a s (n / per) (es (n / per)) _ index (n mod per) [] Hgi ltac:(lia) ltac:(fold per; nia)
      ltac:(lia) (Hes _ Hsh) Hix) as Hload. cbv beta in Hload. fold per in Hload. by rewrite <- Hn' in Hload.
Qed.
End Store.
