(* ===== verification/ZarrServes.v ===== *)
(** The Zarr backend's guarantees: what a store holds is what is served, a chunk that does
    not decode fails the read that needs it, nothing outside the store is ever read. *)
From Stdlib Require Import Ascii FunctionalExtensionality.
From stdpp Require Import strings pretty gmap.
From S2P Require Import Prelude Errors Dtype Bytes Quality Selection SelectionSpec Cast Layout LayoutSpec Chunks DecodeCache ChunkStore Text Backend Paths Reduce ReduceNumpy Zarr ZarrSpec ZarrCorrect ZarrWritten.

Section Arrays.
Context `{Fs, StoreFs, JsonNum, !Serde, ChunkLib, HalfNum, HalfLib, Build}.

(** C15: a read of an array that opened, whatever the shared cache holds and however
    its chunks are filed: exactly the asked range of the array the chunks make up, or the
    very failure of one of its chunks.  A chunk that cannot be decoded is never answered
    for, whatever bytes one would put in its place. *)
Theorem zarr_read_correct shared root prefix meta cache a cache' decodes chunk k at_ len :
  SerdeLaws -> Forall is_u64 (m_shape meta) -> ZarrArray.new root prefix meta cache = (Ok a, cache') ->
  addressable a ->
  (forall n, 0 <= n < chunk_count a -> decodes (z_cache_key a, n) = array_chunk a n /\
     zlen (chunk n) = chunk_len a /\ forall b, array_chunk a n = Ok b -> b = chunk n) ->
  kept a decodes k -> 0 <= at_ -> 0 <= len -> at_ + len <= zprod (z_shape a) * DType.itemsize (z_dtype a) ->
  let '(k', answer) := ZarrArray.read_at shared a k at_ len in
  kept a decodes k' /\
  (answer = Ok (slice at_ len (array_bytes a chunk)) \/
   (forall b, answer <> Ok b) /\ exists n, 0 <= n < chunk_count a /\ answer = array_chunk a n).
Proof.
  intros Hlaws Hu Hnew Had Hchunk Hk Hat Hl Hle. destruct (new_array_ok _ _ _ _ _ _ Hlaws Hu Hnew) as (Ha & _).
  destruct (read_answers shared a decodes chunk k at_ len) as [HI Hr]; try done; try by intros; apply Hchunk.
  destruct (ZarrArray.read_at _ _ _ _ _) as [k' answer]. by split.
Qed.

(** C14: a store that was written as the format says is served as it was written,
    whenever what each compressor was given, after the codecs before it, is no longer than
    a chunk ([fits_room]): that is the room the decoders have, and it leaves out a
    compressor over the checksum of a bare chunk, which [checksum_under_gzip_is_lost] shows
    to be unreadable.  Under such a chain of codecs, with one chunk to a file or many to a
    shard with its index at either end, chunks never written standing for the fill
    value, every range of every selection of the array, if it has under 2^63 bytes and no empty
    axis, reads back the written elements, whatever earlier reads left in the cache. *)
Theorem zarr_store_serves `{!ChunkWriter} root prefix meta cache a cache' chunk shared moment :
  SerdeLaws -> Forall is_u64 (m_shape meta) -> ZarrArray.new root prefix meta cache = (Ok a, cache') ->
  addressable a -> Forall (fun d => 0 < d) (z_shape a) -> array_written a chunk ->
  (forall at_ len, kept a (fun key => array_chunk a key.2) (moment at_ len)) ->
  serves {| zr_array := a; zr_shared := shared; zr_kept := moment |} (array_bytes a chunk).
Proof.
  intros Hlaws Hu Hnew Had Hpos Hw Hk. destruct (new_array_ok _ _ _ _ _ _ Hlaws Hu Hnew) as (Ha & _).
  pose proof (written_chunks a chunk) as Hc.
  assert (zarr_open {| zr_array := a; zr_shared := shared; zr_kept := moment |}) as Hopen.
  { split; cbn [zr_array zr_kept]; [done|done| |].
    - intros n Hn. exists (chunk n). by apply Hc.
    - intros at_ len. exists (fun key => array_chunk a key.2). by split. }
  assert (zlen (array_bytes a chunk) = zprod (z_shape a) * DType.itemsize (z_dtype a)) as Hal.
  { apply array_bytes_length; try done. intros n Hn. by eapply array_chunk_length, Hc. }
  destruct Had as [Hfit Hsh].
  eapply (serves_read_with _ _ (fun at_ len => (ZarrArray.read_at shared a (moment at_ len) at_ len).2));
    [apply Ha|done|by rewrite Hal| |done].
  intros at_ len Hat Hl Hle. rewrite Hal in Hle.
  destruct (read_answers shared a (fun key => array_chunk a key.2) chunk (moment at_ len) at_ len) as [_ [Ho|[Hno (n & Hn & Hr)]]]; try done.
  - intros n Hn. by eapply array_chunk_length, Hc.
  - intros n b Hn Hb. rewrite Hc in Hb by done. by injection Hb.
  - rewrite Hc in Hr by done. by destruct (Hno (chunk n)).
Qed.
End Arrays.

(** ** Nothing outside the store *)

Lemma under_inside `{Fs} root key path :
  under root key = Ok (Some path) -> starts_with path (root_path root) = true.
Proof.
  unfold under. destruct (negb _); [done|]. destruct (canonicalize _) as [p|k|]; [|by destruct k|done].
  destruct (starts_with p (root_path root)) eqn:Hs; [|done]. by intros [= <-].
Qed.

(** Where a name leads, as far as a store at [root] may tell: to the same place inside, to
    any two places outside, or nowhere, for the same reason. *)
Inductive leads_alike (root : string) : result ErrorKind string -> result ErrorKind string -> Prop :=
  | both_inside p : starts_with p root = true -> leads_alike root (Ok p) (Ok p)
  | both_outside p1 p2 : starts_with p1 root = false -> starts_with p2 root = false -> leads_alike root (Ok p1) (Ok p2)
  | both_nowhere e : leads_alike root (Err e) (Err e)
  | both_panic : leads_alike root Panic Panic.

Section Confined.
Context (w1 w2 : Fs) (fs1 fs2 : StoreFs) (root : StoreRoot).
Context (Hlinks : forall name, leads_alike (root_path root)
  (@canonicalize w1 (join (root_path root) name)) (@canonicalize w2 (join (root_path root) name))).
Context (Hread : forall path, starts_with path (root_path root) = true ->
  @read_file fs1 path = @read_file fs2 path /\ @read_dir fs1 path = @read_dir fs2 path).

Lemma under_alike key : @under w1 root key = @under w2 root key.
Proof. unfold under. destruct (negb _); [done|]. destruct (Hlinks key) as [p Hp|p1 p2 H1 H2|e|]; by rewrite ?H1, ?H2. Qed.

Lemma under_bind {A} key (f1 f2 : option string -> result AexError A) :
  f1 None = f2 None ->
  (forall path, starts_with path (root_path root) = true -> f1 (Some path) = f2 (Some path)) ->
  (@under w1 root key ≫= f1) = (@under w2 root key ≫= f2).
Proof.
  intros Hn Hs. rewrite under_alike. destruct (under root key) as [[path|]| |] eqn:Hu; cbn [mbind result_bind]; try done.
  by eapply Hs, under_inside.
Qed.

Lemma read_exact_confined path offset len :
  starts_with path (root_path root) = true -> @read_exact_at fs1 path offset len = @read_exact_at fs2 path offset len.
Proof. intros Hs. unfold read_exact_at. by rewrite (proj1 (Hread path Hs)). Qed.

Section Array.
Context `{ChunkLib} (a : ZarrArray) (Hroot : z_root a = root).

Lemma load_chunk_confined g codecs key spare :
  @ZarrArray.load_chunk w1 fs1 _ a g codecs key spare = @ZarrArray.load_chunk w2 fs2 _ a g codecs key spare.
Proof.
  unfold ZarrArray.load_chunk. rewrite Hroot. apply under_bind; [done|]. intros path Hs. by rewrite (proj1 (Hread path Hs)).
Qed.

Lemma load_inner_confined s index key n spare :
  @ZarrArray.load_inner w1 fs1 _ a s index key n spare = @ZarrArray.load_inner w2 fs2 _ a s index key n spare.
Proof.
  unfold ZarrArray.load_inner. rewrite Hroot. destruct (index !! _); cbn [expect mbind result_bind]; [|done].
  destruct (is_missing _); [done|]. apply under_bind; [done|]. intros path Hs. by rewrite read_exact_confined.
Qed.

Lemma read_shard_confined s index shard :
  @Sharded.read_shard w1 fs1 _ a s index shard = @Sharded.read_shard w2 fs2 _ a s index shard.
Proof.
  unfold Sharded.read_shard. rewrite Hroot. destruct (key_of _ _ _ _); cbn [mbind result_bind]; [|done..].
  apply under_bind; [done|]. intros path Hs. rewrite (proj1 (Hread path Hs)).
  destruct (io _); cbn [mbind result_bind]; [|done..]. destruct (_ <? _); [done|]. by rewrite read_exact_confined.
Qed.

Lemma index_confined s once :
  @Sharded.index w1 fs1 _ a s once = @Sharded.index w2 fs2 _ a s once.
Proof.
  unfold Sharded.index, Sharded.build_index.
  by replace (@Sharded.read_shard w1 fs1 _ a s) with (@Sharded.read_shard w2 fs2 _ a s)
    by (do 2 (apply functional_extensionality; intros ?); symmetry; apply read_shard_confined).
Qed.

Lemma read_at_confined shared k at_ len :
  @ZarrArray.read_at w1 fs1 _ shared a k at_ len = @ZarrArray.read_at w2 fs2 _ shared a k at_ len.
Proof.
  unfold ZarrArray.read_at.
  replace (@ZarrArray.load_chunk w1 fs1 _ a) with (@ZarrArray.load_chunk w2 fs2 _ a)
    by (do 4 (apply functional_extensionality; intros ?); symmetry; apply load_chunk_confined).
  replace (@ZarrArray.load_inner w1 fs1 _ a) with (@ZarrArray.load_inner w2 fs2 _ a)
    by (do 5 (apply functional_extensionality; intros ?); symmetry; apply load_inner_confined).
  destruct (z_store a); [done|]. by rewrite index_confined.
Qed.
End Array.

Section File.
Context `{JsonNum, !Serde, HalfNum, HalfLib}.

Lemma node_confined path : @ZarrFile.node w1 fs1 _ _ root path = @ZarrFile.node w2 fs2 _ _ root path.
Proof.
  unfold ZarrFile.node. apply under_bind; [done|]. intros file Hs. unfold read_to_string. by rewrite (proj1 (Hread file Hs)).
Qed.

Lemma array_root f path meta f' r : ZarrFile.array f path meta = (f', r) -> zf_root f' = zf_root f.
Proof.
  unfold ZarrFile.array. destruct (_ !! path); [by intros [= <- _]|].
  destruct (ZarrArray.new _ _ _ _) as [[| |] c]; by intros [= <- _].
Qed.

Lemma item_root f path node f' r : ZarrFile.item f path node = (f', r) -> zf_root f' = zf_root f.
Proof.
  unfold ZarrFile.item. destruct node as [|meta]; [by intros [= <- _]|].
  destruct (ZarrFile.array f path meta) as [f1 [a|e|]] eqn:Ha; apply array_root in Ha; by intros [= <- _].
Qed.

Lemma children_confined path entries f found :
  zf_root f = root ->
  @ZarrFile.children w1 fs1 _ _ _ f path entries found = @ZarrFile.children w2 fs2 _ _ _ f path entries found.
Proof.
  revert f found. induction entries as [|entry entries IH]; intros f found Hf; [done|]. cbn [ZarrFile.children].
  destruct (io entry) as [[name|]| |]; cbn [pure_step sbind]; try done; [|by apply IH].
  rewrite Hf, node_confined. destruct (ZarrFile.node root _) as [[nd|]| |]; [|by apply IH..|done].
  destruct (ZarrFile.item f _ nd) as [f' r] eqn:Hi. apply item_root in Hi.
  destruct r; [apply IH; by rewrite Hi|apply IH; by rewrite Hi|done].
Qed.

Lemma list_children_confined f path :
  zf_root f = root -> @ZarrFile.list_children w1 fs1 _ _ _ f path = @ZarrFile.list_children w2 fs2 _ _ _ f path.
Proof.
  intros Hf. unfold ZarrFile.list_children. cbv zeta. rewrite Hf, node_confined.
  destruct (ZarrFile.node root _) as [[[|]|]| |]; cbn [pure_step sbind]; try done. rewrite Hf.
  rewrite under_alike. destruct (under root _) as [[dir|]| |] eqn:Hu; cbn [pure_step sbind]; try done.
  apply under_inside in Hu. rewrite (proj2 (Hread dir Hu)). destruct (io _); cbn [pure_step sbind]; try done.
  by rewrite children_confined.
Qed.
End File.
End Confined.


(** *** A store of two arrays: one with a file per chunk, one with shards *)

#[local] Existing Instance demo_build.
#[local] Existing Instance demo_half.
#[local] Existing Instance demo_half_num.

#[local] Instance demo_json : JsonNum := {|
  Number := Z;
  Zarr.as_u64 := fun n => if decide (0 <= n < two64) then Some n else None;
  Zarr.as_i64 := fun n => if decide (- two63 <= n < two63) then Some n else None;
  as_f64 := fun n => None |}.

#[local] Instance demo_serde : Serde := {|
  parse_node := fun _ => None;
  parse_u64s := fun v => match v with VArray items => mapM value_u64 items | _ => None end;
  parse_named := fun v => match v with
    | VArray items => mapM (fun item => match item with
        | VObject [("name", VString n)] => Some {| name := n; configuration := [] |}
        | _ => None end) items
    | _ => None end |}.

Lemma demo_serde_laws : SerdeLaws.
Proof.
  split; [|done]. intros [] l; cbn; try done. intros Hm%mapM_Some. apply Forall_lookup. intros i n Hn.
  destruct (Forall2_lookup_r _ _ _ _ _ Hm Hn) as (v & _ & Hv). destruct v as [| |k| | |]; cbn in Hv; try done.
  case_decide; [|done]. injection Hv as <-. done.
Qed.

(** A compressor that marks what it wrote, and a checksum that adds the bytes up. *)
#[local] Instance demo_chunk_lib : ChunkLib := {|
  gunzip := fun b n => match b with 31 :: b => Some (take (Z.to_nat n) b) | _ => None end;
  unzstd_into := fun b n => match b with 40 :: b => if decide (zlen b <= n) then Some b else None | _ => None end;
  crc32c := fun b => u32 (foldr Z.add 0 b) |}.

#[local, program] Instance demo_writer : ChunkWriter := {| gzip := cons 31; zstd := cons 40 |}.
Next Obligation. done. Qed.
Next Obligation. intros b n Hn. cbn. by rewrite decide_True. Qed.
Next Obligation. intros b. unfold is_u32, crc32c, demo_chunk_lib, u32. apply Z.mod_pos_bound. done. Qed.

Definition demo_index : bytes := entry_bytes {| e_offset := 0; e_nbytes := 3 |} ++ entry_bytes MISSING.
Definition demo_files : list (string * bytes) :=
  [("/s/a/c/0"%string, [31; 1; 0; 2; 0; 34; 0; 0; 0]);
   ("/s/a/c/2"%string, [31; 5; 0; 9; 9; 54; 0; 0; 0]);
   ("/s/bad/c/0"%string, [30; 1; 0]);
   ("/s/b/c/0"%string, [31; 1; 2] ++ demo_index ++ to_le_bytes 4 (crc32c demo_index))].

#[local] Instance demo_store_fs : StoreFs := {|
  read_file := fun path => match list_find (fun f => f.1 = path) demo_files with
    | Some (_, (_, file)) => Ok file | None => Err KNotFound end;
  read_dir := fun _ => Err KNotFound |}.

#[local] Instance demo_zarr_fs : Fs := {|
  canonicalize := fun path => if existsb (fun f => String.eqb f.1 path) demo_files then Ok path else Err KNotFound;
  is_dir := fun _ => false; is_file := fun _ => true |}.

#[local] Abbreviation numbers l := (VArray (VNumber (H := demo_json) <$> l)).
#[local] Abbreviation named n c := ({| name := n; configuration := c |} : @Named demo_json).
Definition demo_name (n : string) : @Value demo_json := VObject [("name", VString n)].

(** Five 16-bit numbers in chunks of two, compressed under a checksum; seven is the fill. *)
Definition demo_chunked : ArrayMeta := {|
  array_format := 3; m_shape := [5]; data_type := VString "int16";
  chunk_grid := named "regular" [("chunk_shape", numbers [2])];
  chunk_key_encoding := None; fill_value := VNumber (H := demo_json) 7;
  m_codecs := [named "bytes" []; named "gzip" []; named "crc32c" []];
  storage_transformers := []; array_attributes := [] |}.

(** Eight bytes in shards of four, inner chunks of two. *)
Definition demo_sharded : ArrayMeta := {|
  array_format := 3; m_shape := [8]; data_type := VString "uint8";
  chunk_grid := named "regular" [("chunk_shape", numbers [4])];
  chunk_key_encoding := None; fill_value := VNumber (H := demo_json) 7;
  m_codecs := [named "sharding_indexed" [("chunk_shape", numbers [2]); ("codecs", VArray [demo_name "bytes"; demo_name "gzip"]);
    ("index_codecs", VArray [demo_name "bytes"; demo_name "crc32c"])]];
  storage_transformers := []; array_attributes := [] |}.

Definition demo_cache : DecodeCache := DecodeCache.new 100.
Definition demo_root : StoreRoot := {| root_path := "/s" |}.
Definition demo_kept : ZarrArray.Kept := {| ZarrArray.k_cache := demo_cache; ZarrArray.k_index := None |}.

Definition grid_of (shape cs : list Z) (isz bytes : Z) : ChunkGrid :=
  {| g_shape := shape; chunk_shape := cs; grid := zip_with div_ceil shape cs; g_itemsize := isz; chunk_bytes := bytes;
     run_axis := 0 |}.

Definition demo_array (prefix : string) : ZarrArray := {|
  z_root := demo_root; z_prefix := prefix; z_dtype := Int16; z_shape := [5];
  z_key := {| k_prefix := true; separator := "/" |}; z_store := Chunked (grid_of [5] [2] 2 4) [Gzip; Crc32c];
  z_fill := [7; 0]; z_cache_key := 0 |}.

Definition demo_shards : ZarrArray := {|
  z_root := demo_root; z_prefix := "b"; z_dtype := Uint8; z_shape := [8];
  z_key := {| k_prefix := true; separator := "/" |};
  z_store := SSharded {| shards := grid_of [8] [4] 1 4; inner := grid_of [4] [2] 1 2; s_codecs := [Gzip];
    index_bytes := 36; index_at_start := false; index_crc32c := true |};
  z_fill := [7]; z_cache_key := 0 |}.

Lemma demo_kept_ok a decodes : kept a decodes demo_kept.
Proof. split; [apply holds_empty; lia|done]. Qed.

(** The first chunk of [bad] is no stream of its compressor: a read of it fails, a read of
    the rest, which was never written, is the fill value. *)
Lemma zarr_read_correct_witness :
  let a := demo_array "bad" in
  let chunk n := if decide (n = 0) then [0; 0; 0; 0] else [7; 0; 7; 0] in
  (ZarrArray.read_at (fun _ => false) a demo_kept 4 5).2 = Ok [7; 0; 7; 0; 7] /\
  let '(k', answer) := ZarrArray.read_at (fun _ => false) a demo_kept 2 5 in
  kept a (fun key => array_chunk a key.2) k' /\
  (answer = Ok (slice 2 5 (array_bytes a chunk)) \/
   (forall b, answer <> Ok b) /\ exists n, 0 <= n < chunk_count a /\ answer = array_chunk a n).
Proof.
  intros a chunk. split; [vm_compute; reflexivity|].
  apply (zarr_read_correct (fun _ => false) demo_root "bad" demo_chunked demo_cache a (DecodeCache.new_key demo_cache).2);
    [exact demo_serde_laws|repeat constructor; lia|vm_compute; reflexivity|by split| |apply demo_kept_ok|lia..|vm_compute; discriminate].
  intros n Hn. split; [done|]. change (chunk_count a) with 3 in Hn.
  assert (n = 0 \/ n = 1 \/ n = 2) as [->|[->| ->]] by lia; (split; [reflexivity|]);
    intros b; vm_compute; [discriminate|by intros [= <-]..].
Defined.

Lemma zarr_store_serves_witness :
  serves {| zr_array := demo_shards; zr_shared := fun _ => false; zr_kept := fun _ _ => demo_kept |} [1; 2; 7; 7; 7; 7; 7; 7].
Proof.
  pose (chunk := fun n : Z => if decide (n = 0) then [1; 2] else [7; 7]).
  assert ([1; 2; 7; 7; 7; 7; 7; 7] = array_bytes demo_shards chunk) as -> by (vm_compute; reflexivity).
  apply (zarr_store_serves demo_root "b" demo_sharded demo_cache demo_shards (DecodeCache.new_key demo_cache).2
    chunk (fun _ => false) (fun _ _ => demo_kept));
    [exact demo_serde_laws|repeat constructor; lia|vm_compute; reflexivity|by split|repeat constructor; lia| |intros; apply demo_kept_ok].
  exists (fun shard => if decide (shard = 0) then [{| e_offset := 0; e_nbytes := 3 |}; MISSING] else [MISSING; MISSING]).
  cbn [shards inner]. change (zprod (grid (grid_of [8] [4] 1 4))) with 2. change (zprod (grid (grid_of [4] [2] 1 2))) with 2.
  intros shard Hsh. assert (shard = 0 \/ shard = 1) as [->| ->] by lia.
  - apply (in_shard _ _ _ _ _ [31; 1; 2]); [|vm_compute; reflexivity| |reflexivity|].
    + exists "/s/b/c/0"%string. by split.
    + rewrite decide_True by done. apply Forall_cons_2; [|apply Forall_cons_2; [|by apply Forall_nil_2]].
      * split; [split; cbn; unfold is_u64; lia|]. right. vm_compute. discriminate.
      * split; [split; cbn; unfold is_u64; lia|by left].
    + intros j e Hj. change (zprod (grid (inner _))) with 2 in Hj. assert (j = 0 \/ j = 1) as [->| ->] by lia; cbn; intros [= <-].
      * rewrite decide_False by done. split; [reflexivity|]. split; [reflexivity|]. split; [vm_compute; discriminate|done].
      * by rewrite decide_True.
  - apply no_shard; [reflexivity|reflexivity|]. intros j Hj. change (zprod (grid (inner _))) with 2 in Hj.
    assert (j = 0 \/ j = 1) as [->| ->] by lia; reflexivity.
Defined.

(** The same store, with a link that leads out of it, and a secret beside it in one of two
    file systems, which also has the link lead there. *)
Definition demo_leaving_fs (target : string) : Fs := {|
  canonicalize := fun path =>
    if decide (path = "/s/a/c/1"%string) then Ok target else @canonicalize demo_zarr_fs path;
  is_dir := fun _ => false; is_file := fun _ => true |}.
Definition demo_other_fs : StoreFs := {|
  read_file := fun path => if decide (path = "/etc/shadow"%string) then Ok [1] else @read_file demo_store_fs path;
  read_dir := fun path => if decide (path = "/etc"%string) then Ok [Ok (Some "shadow"%string)] else Err KNotFound |}.

Definition demo_file : ZarrFile := {| zf_root := demo_root; zf_cache := demo_cache; zf_arrays := ∅ |}.


(** ** Codec chains *)

(** Undoing a chain of codecs gives back the chunk it was applied to, whatever was
    in the buffer the cache lent, as long as no compressor was given more bytes than a
    chunk has; what does not come out as a whole chunk is refused. *)
Theorem codecs_undo `{ChunkLib, !ChunkWriter} codecs b n spare :
  zlen b = n -> fits_room n b codecs ->
  undo codecs (foldl apply_codec b codecs) n spare = Ok b /\
  forall file chunk, undo codecs file n spare = Ok chunk -> zlen chunk = n.
Proof.
  intros Hl Hf. split; [by apply undo_encoded|]. intros file chunk. apply undo_size.
Qed.

Lemma codecs_undo_witness :
  undo [Zstd; Crc32c] [40; 1; 2; 43; 0; 0; 0] 2 [9; 9; 9] = Ok [1; 2].
Proof. refine (proj1 (codecs_undo [Zstd; Crc32c] [1; 2] 2 [9; 9; 9] _ _)); [reflexivity|]. split; [vm_compute; discriminate|done]. Defined.

(** A checksum put under a compressor cannot be undone: [ungzip] keeps one byte
    more than a chunk, which cuts the checksum short, so no chunk of such a chain, which
    [parse_codecs] accepts, is ever answered. *)
Theorem checksum_under_gzip_is_lost `{ChunkLib, !ChunkWriter} b n spare :
  zlen b = n -> undo [Crc32c; Gzip] (foldl apply_codec b [Crc32c; Gzip]) n spare = Err MalformedZarr.
Proof.
  intros Hl. unfold undo. cbn [foldl apply_codec reverse rev_append mfold undo_step]. unfold ungzip.
  rewrite gunzip_gzip by lia. cbn [ok_or mbind result_bind undo_step].
  set (cut := take _ (b ++ _)). assert (zlen cut = n + 1) as Hcut.
  { unfold cut. rewrite length_take, length_app, length_to_le_bytes. lia. }
  unfold strip_crc32c. destruct (checked_sub (zlen cut) 4) as [m|] eqn:Hm; cbn [mbind option_bind ok_or result_bind]; [|done].
  apply checked_sub_some in Hm as [-> Hm]. destruct (crc32c _ =? _); cbn [ok_or mbind result_bind]; [|done].
  destruct (Z.eqb_spec (zlen (take (Z.to_nat (zlen cut - 4)) cut)) n) as [He|]; [|done].
  rewrite length_take in He. lia.
Qed.
