(* ===== verification/Hdf5.v ===== *)
(** The HDF5 backend: [aex-core/src/backends/hdf5.rs].  [libhdf5], through the [hdf5] crate,
    is asked for metadata only, and what it answers about an open file is a parameter; the
    bytes are read, the filters undone and the chunks cached by the code here. *)
From Stdlib Require Import Ascii.
From stdpp Require Import strings gmap.
From S2P Require Import Prelude Errors Dtype Bytes Quality Selection Cast Layout Chunks DecodeCache Text Backend.

(** ** What the library answers *)

Inductive IntSize : Type := I1 | I2 | I4 | I8.
Inductive FloatSize : Type := F2 | F4 | F8.

#[export] Instance FloatSize_eq_dec : EqDecision FloatSize.
Proof. solve_decision. Defined.

(** [hdf5::types::TypeDescriptor]; a compound is its fields, by name, type and offset, and
    its size; [TOther] is any the backend does not name. *)
Inductive TypeDescriptor : Type :=
  | TInteger (size : IntSize)
  | TUnsigned (size : IntSize)
  | TFloat (size : FloatSize)
  | TBoolean
  | TCompound (fields : list (string * TypeDescriptor * Z)) (size : Z)
  | TVarLenUnicode
  | TVarLenAscii
  | TFixedAscii (len : Z)
  | TFixedUnicode (len : Z)
  | TOther.

(** An [hdf5::Datatype]: [to_descriptor], whose failure is [None], [size] of that, and
    whether [byte_order] is little-endian. *)
Record Datatype : Type := { descriptor : option TypeDescriptor; desc_size : Z; little_endian : bool }.

Inductive Filter : Type :=
  | Deflate
  | Shuffle
  | Fletcher32
  | OtherFilter.

#[export] Instance Filter_eq_dec : EqDecision Filter.
Proof. solve_decision. Defined.

Inductive FileLayout : Type := LContiguous | LChunked | LOther.

(** A chunk [chunks_visit] hands over. *)
Record ChunkInfo : Type := { ci_offset : list Z; ci_addr : Z; ci_size : Z; ci_filter_mask : Z }.

(** An [hdf5::Dataset], by what is asked of it; [None] is an [hdf5::Error]. *)
Record H5Dataset : Type := {
  h_dtype : option Datatype;
  h_null_space : option bool;
  h_shape : list Z;
  h_dcpl : bool;                       (* [dcpl()] answers *)
  h_external : bool;                   (* [dcpl.external()] is not empty *)
  h_layout : FileLayout;
  h_offset : option Z;
  h_chunk : option (list Z);
  h_filters : list Filter;
  h_fill_undefined : bool;
  h_fill : option bytes;               (* [H5Pget_fill_value] into one element *)
  h_chunks : list ChunkInfo;           (* in the order [chunks_visit] visits them *)
  h_visit : bool -> bool;              (* whether it answers, given whether it was stopped *)
}.

Inductive LocationType : Type := LocGroup | LocDataset | LocOther.

#[export] Instance LocationType_eq_dec : EqDecision LocationType.
Proof. solve_decision. Defined.

(** An [hdf5::Attribute]: its strings when it is read as those, and [H5Aread] into a buffer
    of so many bytes. *)
Record H5Attr : Type := {
  at_dtype : option Datatype;
  at_shape : list Z;
  at_unicode : option (list string);
  at_ascii : option (list string);
  at_raw : Z -> option bytes;
}.

Class Hdf5Lib := {
  (** Whether [H5Lunregister] turned external links off. *)
  external_links_off : bool;
  (** An [hdf5::File], opened at a path. *)
  H5 : Type;
  h5_open : string -> option H5;
  loc_type_by_name : H5 -> string -> option LocationType;
  h5_dataset : H5 -> string -> option H5Dataset;
  (** [as_group] or [group(path)], then [member_names]. *)
  member_names : H5 -> string -> option (list string);
  (** The names of the attributes of the file itself ([""]), or of what opens at a path,
      and one of them. *)
  attr_names : H5 -> string -> LocationType -> option (list string);
  h5_attr : H5 -> string -> LocationType -> string -> option H5Attr;
}.

(** [?] on an [hdf5::Result]. *)
Definition h5 {A} (o : option A) : result AexError A := ok_or MalformedHdf5 o.

(** The part of [flate2] used: at most the first [n] bytes of the expansion, [None] for an
    error met before. *)
Class FlateLib := { zlib : bytes -> Z -> option bytes }.

(** ** Types *)

(** The part type of a compound laid out the way h5py stores a complex number. *)
Definition complex_float (fields : list (string * TypeDescriptor * Z)) (size : Z) : option FloatSize :=
  match fields with
  | [(r_name, r_ty, r_offset); (i_name, i_ty, i_offset)] =>
      match r_ty with
      | TFloat s =>
          let half := size / 2 in
          let laid_out := bool_decide (r_name = "r"%string) && bool_decide (i_name = "i"%string) &&
                          (r_offset =? 0) && (i_offset =? half) in
          let same := match i_ty with TFloat s' => bool_decide (s' = s) | _ => false end in
          let bytes := match s with F2 => 2 | F4 => 4 | F8 => 8 end in
          if laid_out && same && (bytes =? half) then Some s else None
      | _ => None
      end
  | _ => None
  end.

(** The AEX type of an HDF5 datatype, if there is one. *)
Definition dtype_of (datatype : Datatype) : option DType :=
  desc ← descriptor datatype;
  if (1 <? desc_size datatype) && negb (little_endian datatype) then None
  else
    match desc with
    | TInteger I1 => Some Int8
    | TInteger I2 => Some Int16
    | TInteger I4 => Some Int32
    | TInteger I8 => Some Int64
    | TUnsigned I1 => Some Uint8
    | TUnsigned I2 => Some Uint16
    | TUnsigned I4 => Some Uint32
    | TUnsigned I8 => Some Uint64
    | TFloat F2 => Some Float16
    | TFloat F4 => Some Float32
    | TFloat F8 => Some Float64
    | TBoolean => Some Bool
    | TCompound fields size =>
        match complex_float fields size with
        | Some F4 => Some Complex64
        | Some F8 => Some Complex128
        | _ => None
        end
    | _ => None
    end.

(** ** Attributes *)

(** [len] bytes of an attribute, asked for in its own type. *)
Definition read_raw (attr : H5Attr) (len : Z) : option bytes :=
  if MAX_ATTR_BYTES <? len then None else at_raw attr len.

(** The bytes before the first zero, as text. *)
Definition fixed_text (raw : bytes) : option AttrValue :=
  let text := match list_find (fun b => b = 0) raw with Some (end_, _) => take end_ raw | None => raw end in
  if Utf8.valid text then Some (AText (bytes_string text)) else None.

(** One attribute, or [None] if AEX has no way to carry it. *)
Definition attr_value (attr : H5Attr) : option AttrValue :=
  datatype ← at_dtype attr;
  let shape := at_shape attr in
  let elements := foldl wmul 1 shape in
  desc ← descriptor datatype;
  match desc, elements =? 1 with
  | TVarLenUnicode, true => read ← at_unicode attr; text ← last read; Some (AText text)
  | TVarLenAscii, true => read ← at_ascii attr; text ← last read; Some (AText text)
  | TFixedAscii len, true | TFixedUnicode len, true => raw ← read_raw attr len; fixed_text raw
  | _, _ =>
      dtype ← dtype_of datatype;
      len ← checked_mul (DType.itemsize dtype) elements;
      data ← read_raw attr len;
      Some (AArray dtype shape data)
  end.

(** ** Filters *)

(** Undo zlib, refusing to produce more than [limit] bytes and one. *)
Definition inflate `{FlateLib} (b : bytes) (limit : Z) : option bytes := zlib b (limit + 1).

(** The inner loop of [unshuffle]: block [b] of the input goes to byte [b] of every element. *)
Fixpoint unshuffle_block (out : bytes) (itemsize b e : nat) (block : bytes) : result AexError bytes :=
  match block with
  | [] => Ok out
  | byte :: block =>
      let at_ := (e * itemsize + b)%nat in
      if (at_ <? length out)%nat then unshuffle_block (<[at_ := byte]> out) itemsize b (S e) block else Panic
  end.

(** Undo HDF5's shuffle: byte [b] of every element was moved to block [b]. *)
Definition unshuffle (b : bytes) (itemsize : nat) : result AexError bytes :=
  if (itemsize <=? 1)%nat then Ok b
  else
    let elements := (length b / itemsize)%nat in
    mfold (fun out i =>
      block ← slice_checked (Z.of_nat (i * elements)) (Z.of_nat elements) b;
      unshuffle_block out itemsize i 0 block) b (seq 0 itemsize).

(** libhdf5's Fletcher-32: the big-endian words of a block, an odd byte padded, summed in
    [u32]s. *)
Fixpoint fletcher_words (a b : Z) (data : bytes) : Z * Z :=
  match data with
  | [] => (a, b)
  | [x] => let a := u32 (a + Z.lor (Z.shiftl x 8) 0) in (a, u32 (b + a))
  | x :: y :: data => let a := u32 (a + Z.lor (Z.shiftl x 8) y) in fletcher_words a (u32 (b + a)) data
  end.

(** The carries folded back in. *)
Definition fold16 (a : Z) : Z := Z.land a 0xffff + Z.shiftr a 16.

(** The blocks of 720 bytes; the fuel is the number of bytes. *)
Fixpoint fletcher_blocks (fuel : nat) (a b : Z) (data : bytes) : Z * Z :=
  match fuel, data with
  | S fuel', _ :: _ =>
      let '(a, b) := fletcher_words a b (take 720 data) in
      fletcher_blocks fuel' (fold16 a) (fold16 b) (drop 720 data)
  | _, _ => (a, b)
  end.

Definition fletcher32 (data : bytes) : Z :=
  let '(a, b) := fletcher_blocks (length data) 0 0 data in
  Z.lor (u32 (Z.shiftl (fold16 b) 16)) (fold16 a).

(** Each half of a checksum, byte-swapped. *)
Definition swapped (sum : Z) : Z :=
  Z.lor (u32 (Z.shiftl (Z.land sum 0x00ff00ff) 8)) (Z.land (Z.shiftr sum 8) 0x00ff00ff).

(** Check and drop the trailing checksum the fletcher32 filter appends. *)
Definition strip_fletcher32 (b : bytes) : option bytes :=
  body ← checked_sub (zlen b) 4;
  let stored := from_le_bytes (drop (Z.to_nat body) b) in
  let sum := fletcher32 (take (Z.to_nat body) b) in
  if negb (stored =? sum) && negb (stored =? swapped sum) then None
  else Some (take (Z.to_nat body) b).

(** ** Datasets *)

(** Where one chunk is stored. *)
Record ChunkEntry : Type := { ce_addr : Z; ce_size : Z; ce_mask : Z }.

#[export] Instance ChunkEntry_eq_dec : EqDecision ChunkEntry.
Proof. solve_decision. Defined.

(** A chunk never written, which reads as the fill value. *)
Definition MISSING : ChunkEntry := {| ce_addr := two64 - 1; ce_size := 0; ce_mask := 0 |}.

(** A chunked dataset; the [OnceLock] holding the index is kept beside it. *)
Record Chunked : Type := {
  ck_dataset : H5Dataset;
  ck_grid : ChunkGrid;
  ck_filters : list Filter;
  ck_cache_key : Z;
}.

Inductive Storage : Type :=
  | Contiguous (offset : Z)
  | Unallocated
  | SChunked (chunked : Chunked).

Record Hdf5Dataset : Type := {
  hd_raw : bytes;
  hd_dtype : DType;
  hd_shape : list Z;
  hd_storage : Storage;
  hd_fill : bytes;
}.

(** What a dataset keeps from one read to the next: the shared cache, and its index. *)
Record Kept : Type := { k_cache : DecodeCache; k_index : option (list ChunkEntry) }.

Module Chunked.
Definition new (dataset : H5Dataset) (shape : list Z) (dtype : DType) (chunk_shape : list Z) (filters : list Filter)
    (cache : DecodeCache) : DecodeCache * result AexError Chunked :=
  match ChunkGrid.new shape chunk_shape (DType.itemsize dtype) with
  | None => (cache, Err MalformedHdf5)
  | Some grid =>
      if MAX_CHUNKS <? ChunkGrid.chunks grid then (cache, Err UnsupportedHdf5)
      else
        let '(key, cache) := DecodeCache.new_key cache in
        (cache, Ok {| ck_dataset := dataset; ck_grid := grid; ck_filters := filters; ck_cache_key := key |})
  end.

(** The closure [chunks_visit] calls: the index so far, and whether a bad chunk stopped it. *)
Definition visit (c : Chunked) (file_len : Z) (st : list ChunkEntry * bool) (chunk : ChunkInfo)
    : result AexError (list ChunkEntry * bool) :=
  let '(index, bad) := st in
  if bad : bool then Ok st
  else
    match ChunkGrid.chunk_of (ck_grid c) (zip_with Z.div (ci_offset chunk) (chunk_shape (ck_grid c))) with
    | None => Ok st
    | Some number =>
        let entry := {| ce_addr := ci_addr chunk; ce_size := ci_size chunk; ce_mask := ci_filter_mask chunk |} in
        let unfiltered := bool_decide (ck_filters c = []) && negb (ce_size entry =? chunk_bytes (ck_grid c)) in
        let outside := match checked_add (ce_addr entry) (ce_size entry) with
                       | Some end_ => file_len <? end_ | None => true end in
        if unfiltered || outside then Ok (index, true)
        else if (Z.to_nat number <? length index)%nat then Ok (<[Z.to_nat number := entry]> index, false)
        else Panic
    end.

Definition build_index (c : Chunked) (raw : bytes) : result AexError (list ChunkEntry) :=
  '(index, bad) ← mfold (visit c (zlen raw))
                    (replicate (Z.to_nat (ChunkGrid.chunks (ck_grid c))) MISSING, false) (h_chunks (ck_dataset c));
  if negb (h_visit (ck_dataset c) bad) then Err MalformedHdf5
  else if bad : bool then Err MalformedHdf5 else Ok index.

(** The chunk index, reading it from libhdf5 the first time. *)
Definition index (c : Chunked) (raw : bytes) (once : option (list ChunkEntry))
    : option (list ChunkEntry) * result AexError (list ChunkEntry) :=
  match once with
  | Some index => (once, Ok index)
  | None =>
      match build_index c raw with
      | Ok index => (Some index, Ok index)
      | e => (None, e)
      end
  end.

Section Decode.
Context `{FlateLib}.

(** One turn of the loop over the filters, the last applied first; a filter the chunk's
    mask names was skipped for it. *)
Definition undo_filter (g : ChunkGrid) (mask : Z) (b : bytes) (f : nat * Filter) : result AexError bytes :=
  let '(i, filter) := f in
  if Z.testbit mask (Z.of_nat i mod 32) then Ok b
  else
    match filter with
    | Fletcher32 => ok_or MalformedHdf5 (strip_fletcher32 b)
    | Deflate => ok_or MalformedHdf5 (inflate b (chunk_bytes g))
    | Shuffle => unshuffle b (Z.to_nat (g_itemsize g))
    | OtherFilter => Panic
    end.

(** Read one chunk and undo its filters; what was in the buffer the cache lent is never
    seen. *)
Definition decode (c : Chunked) (raw : bytes) (entry : ChunkEntry) (spare : bytes) : result AexError bytes :=
  b ← map_err Io (read_exact raw (ce_addr entry) (ce_size entry));
  b ← mfold (undo_filter (ck_grid c) (ce_mask entry)) b (reverse (imap pair (ck_filters c)));
  if zlen b =? chunk_bytes (ck_grid c) then Ok b else Err MalformedHdf5.

(** The closure [walk] calls: a range of one chunk. *)
Definition read_run (shared : ChunkKey -> bool) (c : Chunked) (raw fill : bytes) (index : list ChunkEntry)
    (cache : DecodeCache) (chunk start len : Z) : DecodeCache * result AexError bytes :=
  sbind (pure_step cache (expect (index !! Z.to_nat chunk))) (fun cache entry =>
  if ce_addr entry =? ce_addr MISSING then
    if g_itemsize (ck_grid c) =? 0 then (cache, Panic)
    else (cache, fill_from fill (start mod g_itemsize (ck_grid c)) (Z.to_nat len))
  else if bool_decide (ck_filters c = []) then (cache, map_err Io (read_exact raw (ce_addr entry +w start) len))
  else
    let '(answer, cache) :=
      DecodeCache.read_into cache shared (ck_cache_key c, chunk) start len (decode c raw entry) in
    (cache, answer)).

(** Read [at_, at_ + len) of the dataset's C-order bytes. *)
Definition read (shared : ChunkKey -> bool) (c : Chunked) (raw fill : bytes) (k : Kept) (at_ len : Z)
    : Kept * result AexError bytes :=
  let '(once, index) := index c raw (k_index k) in
  sbind ({| k_cache := k_cache k; k_index := once |}, index) (fun k index =>
  let '(cache, answer) := ChunkGrid.walk (read_run shared c raw fill index) (ck_grid c) (k_cache k) at_ len in
  ({| k_cache := cache; k_index := k_index k |}, answer)).
End Decode.
End Chunked.

(** One element of the fill value, as stored. *)
Definition fill_value (dataset : H5Dataset) (dtype : DType) : result AexError bytes :=
  if h_fill_undefined dataset then Ok (replicate (Z.to_nat (DType.itemsize dtype)) 0)
  else _ ← h5 (h_dtype dataset); ok_or MalformedHdf5 (h_fill dataset).

Module Hdf5Dataset.
(** The match on the layout: where the bytes are. *)
Definition storage_of (dataset : H5Dataset) (shape : list Z) (dtype : DType) (cache : DecodeCache)
    : DecodeCache * result AexError Storage :=
  match h_layout dataset with
  | LContiguous =>
      (cache, Ok match h_offset dataset with Some offset => Contiguous offset | None => Unallocated end)
  | LChunked =>
      match h_chunk dataset with
      | None => (cache, Err MalformedHdf5)
      | Some chunk_shape =>
          if existsb (fun f => bool_decide (f = OtherFilter)) (h_filters dataset) then (cache, Err UnsupportedHdf5)
          else
            let '(cache, chunked) := Chunked.new dataset shape dtype chunk_shape (h_filters dataset) cache in
            (cache, SChunked <$> chunked)
      end
  | LOther => (cache, Err UnsupportedHdf5)
  end.

(** What [open] checks before it looks at the layout: the dtype, and the array's size. *)
Definition describe (dataset : H5Dataset) : result AexError (DType * Z) :=
  datatype ← h5 (h_dtype dataset);
  dtype ← ok_or UnsupportedDType (dtype_of datatype);
  null ← h5 (h_null_space dataset);
  if null : bool then Err UnsupportedHdf5
  else
    data_len ← ok_or MalformedHdf5 (checked_product (DType.itemsize dtype) (h_shape dataset));
    if negb (h_dcpl dataset) then Err MalformedHdf5
    else if h_external dataset then Err UnsupportedHdf5
    else Ok (dtype, data_len).

(** A contiguous dataset has to lie inside its file. *)
Definition check_extent (storage : Storage) (data_len file_len : Z) : result AexError unit :=
  match storage with
  | Contiguous offset =>
      match checked_add offset data_len with
      | Some end_ => if file_len <? end_ then Err MalformedHdf5 else Ok ()
      | None => Err MalformedHdf5
      end
  | _ => Ok ()
  end.

Definition open (dataset : H5Dataset) (raw : bytes) (cache : DecodeCache)
    : DecodeCache * result AexError Hdf5Dataset :=
  sbind (pure_step cache (describe dataset)) (fun cache '(dtype, data_len) =>
  sbind (storage_of dataset (h_shape dataset) dtype cache) (fun cache storage =>
  (cache,
   _ ← check_extent storage data_len (zlen raw);
   fill ← fill_value dataset dtype;
   Ok {| hd_raw := raw; hd_dtype := dtype; hd_shape := h_shape dataset; hd_storage := storage; hd_fill := fill |}))).

Section Ops.
Context `{FlateLib, HalfLib, Build}.

(** [layout]: the chunk index is built here, so that a read never waits for libhdf5. *)
Definition layout (d : Hdf5Dataset) (k : Kept) (indices : list Index) (quality : QualitySpec)
    : Kept * result AexError SelectionLayout :=
  match hd_storage d with
  | SChunked c =>
      let '(once, index) := Chunked.index c (hd_raw d) (k_index k) in
      sbind ({| k_cache := k_cache k; k_index := once |}, index) (fun k _ =>
      (k, SelectionLayout.resolve (hd_shape d) (hd_dtype d) indices quality))
  | _ => (k, SelectionLayout.resolve (hd_shape d) (hd_dtype d) indices quality)
  end.

(** The closures [read_range] hands [read_with]: the array's bytes [at_, at_ + len). *)
Definition read_src (shared : ChunkKey -> bool) (d : Hdf5Dataset) (k : Kept) (at_ len : Z)
    : Kept * result AexError bytes :=
  match hd_storage d with
  | Contiguous base => (k, map_err Io (read_exact (hd_raw d) (base +w at_) len))
  | Unallocated => (k, fill_from (hd_fill d) at_ (Z.to_nat len))
  | SChunked c => Chunked.read shared c (hd_raw d) (hd_fill d) k at_ len
  end.

(** The range of the file the kernel is asked to start reading. *)
Definition will_need (d : Hdf5Dataset) (l : SelectionLayout) (offset len : Z) : option (Z * Z) :=
  match hd_storage d with
  | Contiguous base => '(at_, len) ← SelectionLayout.source_run l offset len; Some (base +w at_, len)
  | _ => None
  end.

Definition decoded_chunk_bytes (d : Hdf5Dataset) : option Z :=
  match hd_storage d with
  | SChunked c => if bool_decide (ck_filters c <> []) then Some (chunk_bytes (ck_grid c)) else None
  | _ => None
  end.
End Ops.
End Hdf5Dataset.

(** ** Files *)

(** An HDF5 file opened for reading: the datasets opened so far, by path, and the cache. *)
Record Hdf5File `{Hdf5Lib} : Type := {
  hf_file : H5;
  hf_raw : bytes;
  hf_cache : DecodeCache;
  hf_datasets : gmap string Hdf5Dataset;
}.

Module Hdf5File.
Section Ops.
Context `{Hdf5Lib}.

(** [raw] is what opening the file itself answers. *)
Definition open (path : string) (raw : result ErrorKind bytes) (cache : DecodeCache) : result AexError Hdf5File :=
  if negb external_links_off then Panic
  else
    raw ← map_err Io raw;
    file ← ok_or UnsupportedHdf5 (h5_open path);
    Ok {| hf_file := file; hf_raw := raw; hf_cache := cache; hf_datasets := ∅ |}.

Definition with_cache (f : Hdf5File) (cache : DecodeCache) : Hdf5File :=
  {| hf_file := hf_file f; hf_raw := hf_raw f; hf_cache := cache; hf_datasets := hf_datasets f |}.

(** The dataset at a path, opening it the first time. *)
Definition dataset (f : Hdf5File) (path : string) : Hdf5File * result AexError Hdf5Dataset :=
  match hf_datasets f !! path with
  | Some dataset => (f, Ok dataset)
  | None =>
      sbind (pure_step f (h5 (h5_dataset (hf_file f) path))) (fun f dataset =>
      let '(cache, opened) := Hdf5Dataset.open dataset (hf_raw f) (hf_cache f) in
      sbind (with_cache f cache, opened) (fun f dataset =>
      ({| hf_file := hf_file f; hf_raw := hf_raw f; hf_cache := hf_cache f;
          hf_datasets := <[path := dataset]> (hf_datasets f) |}, Ok dataset)))
  end.

Definition item (f : Hdf5File) (path : string) : Hdf5File * result AexError (Item Hdf5Dataset) :=
  if decide (path = "") then (f, Ok Group)
  else
    match loc_type_by_name (hf_file f) path with
    | None => (f, Err NotFound)
    | Some LocGroup => (f, Ok Group)
    | Some LocDataset => sbind (dataset f path) (fun f d => (f, Ok (Dataset d)))
    | Some LocOther => (f, Err NotFound)
    end.

Definition get_item (f : Hdf5File) (path : string) : Hdf5File * result AexError (Item Hdf5Dataset) :=
  item f (normalize_path path).

(** The loop over the names: a child that cannot be served is left out. *)
Fixpoint children (f : Hdf5File) (path : string) (names : list string) (found : list (string * Item Hdf5Dataset))
    : Hdf5File * result AexError (list (string * Item Hdf5Dataset)) :=
  match names with
  | [] => (f, Ok found)
  | name :: rest =>
      let child := if decide (path = "") then name else path +:+ "/" +:+ name in
      match item f child with
      | (f, Ok item) => children f path rest (found ++ [(name, item)])
      | (f, Err _) => children f path rest found
      | (f, Panic) => (f, Panic)
      end
  end.

Definition list_children (f : Hdf5File) (path : string)
    : Hdf5File * result AexError (list (string * Item Hdf5Dataset)) :=
  let path := normalize_path path in
  sbind (item f path) (fun f item =>
  match item with
  | Dataset _ => (f, Err NotAGroup)
  | Group =>
      sbind (pure_step f (h5 (member_names (hf_file f) path))) (fun f names =>
      children f path (sort_by id names) [])
  end).

(** An attribute by its name, if it opens and AEX can represent it. *)
Definition wire_attr (f : Hdf5File) (path : string) (kind : LocationType) (name : string) : option (string * AttrValue) :=
  attr ← h5_attr (hf_file f) path kind name; value ← attr_value attr; Some (name, value).

(** Every attribute of an object that AEX can represent. *)
Definition read_attrs (f : Hdf5File) (path : string) (kind : LocationType)
    : result AexError (list (string * AttrValue)) :=
  names ← h5 (attr_names (hf_file f) path kind);
  Ok (omap (M:=list) (wire_attr f path kind) names).

Definition attrs (f : Hdf5File) (path : string) : result AexError (list (string * AttrValue)) :=
  let path := normalize_path path in
  if decide (path = "") then read_attrs f "" LocGroup
  else
    match loc_type_by_name (hf_file f) path with
    | None => Err NotFound
    | Some LocOther => Err NotFound
    | Some kind => read_attrs f path kind
    end.
End Ops.
End Hdf5File.
