(* ===== verification/Hdf5Spec.v ===== *)
(** The filters of the HDF5 backend: the Fletcher-32 sum is the arithmetic one and never
    overflows, the shuffle and every pipeline come undone. *)
From stdpp Require Import gmap.
From S2P Require Import Prelude Errors Dtype Bytes Chunks DecodeCache ChunkStore Backend Hdf5.

(** ** Fletcher-32 *)

(** The big-endian 16-bit words of the data, an odd byte padded with a zero. *)
Fixpoint words16 (data : bytes) : list Z :=
  match data with
  | [] => []
  | [x] => [x * 256]
  | x :: y :: data => x * 256 + y :: words16 data
  end.

(** The two sums Fletcher's checksum is defined by: of the words, and of the sums so far. *)
Fixpoint sums (a b : Z) (ws : list Z) : Z * Z :=
  match ws with [] => (a, b) | w :: ws => sums (a + w) (b + (a + w)) ws end.

(** A sum with its carries added back in until none is left. *)
Definition ones16 (s : Z) : Z := if s =? 0 then 0 else (s - 1) mod 65535 + 1.

Lemma fold16_spec a : 0 <= a -> fold16 a = a - 65535 * (a / 65536).
Proof.
  intros Ha. unfold fold16. change 65535 with (Z.ones 16) at 1.
  rewrite Z.land_ones, Z.shiftr_div_pow2 by lia. div_mod a 65536. change (2 ^ 16) with 65536. lia.
Qed.

Lemma fold16_ones a b : 0 <= a -> ones16 a = ones16 b -> ones16 (fold16 a) = ones16 b.
Proof.
  intros Ha <-. rewrite fold16_spec by done. div_mod a 65536. pose proof (Z.mod_pos_bound a 65536 ltac:(lia)).
  assert (0 <= a / 65536) by (apply Z.div_pos; lia). unfold ones16.
  destruct (Z.eqb_spec a 0) as [->|]; [done|]. destruct (Z.eqb_spec (a - 65535 * (a / 65536)) 0); [lia|].
  replace (a - 65535 * (a / 65536) - 1) with (a - 1 + (- (a / 65536)) * 65535) by lia. by rewrite Z.mod_add.
Qed.

Lemma ones16_small a : 0 <= a <= 65535 -> ones16 a = a.
Proof. intros Ha. unfold ones16. destruct (Z.eqb_spec a 0) as [->|]; [done|]. rewrite Z.mod_small; lia. Qed.

Lemma ones16_add a a' c : 0 <= a -> 0 <= a' -> 0 <= c -> ones16 a = ones16 a' -> ones16 (a + c) = ones16 (a' + c).
Proof.
  unfold ones16. intros Ha Ha' Hc.
  assert (forall x y, 0 < x -> 0 < y -> (x - 1) mod 65535 = (y - 1) mod 65535 -> (x + c - 1) mod 65535 = (y + c - 1) mod 65535) as Hadd.
  { intros x y _ _ He. replace (x + c - 1) with (x - 1 + c) by lia. replace (y + c - 1) with (y - 1 + c) by lia.
    by rewrite Z.add_mod, He, <- Z.add_mod by lia. }
  destruct (Z.eqb_spec a 0) as [->|], (Z.eqb_spec a' 0) as [->|]; intros He; try done.
  - pose proof (Z.mod_pos_bound (a' - 1) 65535 ltac:(lia)). lia.
  - pose proof (Z.mod_pos_bound (a - 1) 65535 ltac:(lia)). lia.
  - destruct (Z.eqb_spec (a + c) 0); [lia|]. destruct (Z.eqb_spec (a' + c) 0); [lia|].
    f_equal. apply Hadd; lia.
Qed.

Lemma ones16_add2 a a' b b' :
  0 <= a -> 0 <= a' -> 0 <= b -> 0 <= b' -> ones16 a = ones16 a' -> ones16 b = ones16 b' -> ones16 (a + b) = ones16 (a' + b').
Proof.
  intros. rewrite (ones16_add a a' b) by done. rewrite (Z.add_comm a'), (Z.add_comm a' b'). by apply ones16_add.
Qed.

Lemma lor_high x y n : 0 <= n -> 0 <= y < 2 ^ n -> Z.lor (x * 2 ^ n) y = x * 2 ^ n + y.
Proof.
  intros Hn Hy. assert (Z.land (x * 2 ^ n) y = 0) as Hl.
  { apply Z.bits_inj_0. intros m. rewrite Z.land_spec. destruct (decide (m < n)).
    - by rewrite Z.mul_pow2_bits_low.
    - rewrite <- (Z.mod_small y (2 ^ n)), Z.mod_pow2_bits_high by lia. apply andb_false_r. }
  by rewrite <- Z.lxor_lor, <- Z.add_nocarry_lxor by done.
Qed.

Lemma word16 x y : is_u8 y -> Z.lor (Z.shiftl x 8) y = x * 256 + y.
Proof. unfold is_u8. intros Hy. rewrite Z.shiftl_mul_pow2 by lia. by apply lor_high. Qed.

(** Induction by two bytes at a time. *)
Lemma pairs_ind (P : bytes -> Prop) :
  P [] -> (forall x, P [x]) -> (forall x y data, P data -> P (x :: y :: data)) -> forall data, P data.
Proof.
  intros H0 H1 H2 data. enough (P data /\ forall x, P (x :: data)) by tauto.
  induction data as [|y data [IH IH']]; split; auto.
Qed.

Lemma words16_range data : Forall is_u8 data -> Forall (fun w => 0 <= w <= 65535) (words16 data).
Proof.
  unfold is_u8. induction data as [|x|x y data IH] using pairs_ind; intros Hd; cbn [words16].
  - constructor.
  - apply Forall_cons in Hd as [Hd _]. cbn in Hd. constructor; [lia|constructor].
  - apply Forall_cons in Hd as [Hx [Hy Hd]%Forall_cons]. cbn in Hx, Hy. constructor; [lia|by apply IH].
Qed.

Lemma words16_app l k : Nat.even (length l) = true -> words16 (l ++ k) = words16 l ++ words16 k.
Proof. induction l as [|x|x y l IH] using pairs_ind; intros He; [done|done|]. cbn in He |- *. by rewrite IH. Qed.

Lemma length_words16 data : 2 * zlen (words16 data) <= zlen data + 1.
Proof. induction data as [|x|x y l IH] using pairs_ind; cbn in *; lia. Qed.

Lemma fletcher_sums_app a b ws1 ws2 : sums a b (ws1 ++ ws2) = sums (sums a b ws1).1 (sums a b ws1).2 ws2.
Proof. revert a b. induction ws1 as [|w ws1 IH]; intros; [done|]. cbn. apply IH. Qed.

(** The sums of few enough words stay inside 32 bits. *)
Lemma fletcher_words_spec data a b :
  Forall is_u8 data -> 0 <= a -> 0 <= b -> let k := zlen (words16 data) in
  a + 65535 * k < two32 -> 2 * b + 2 * k * a + 65535 * k * (k + 1) < 2 * two32 ->
  fletcher_words a b data = sums a b (words16 data) /\
  0 <= (sums a b (words16 data)).1 <= a + 65535 * k /\
  0 <= (sums a b (words16 data)).2 /\ 2 * (sums a b (words16 data)).2 <= 2 * b + 2 * k * a + 65535 * k * (k + 1).
Proof.
  unfold is_u8. revert a b. induction data as [|x|x y data IH] using pairs_ind; intros a b Hd Ha Hb; cbn [words16 fletcher_words sums length];
    cbv zeta; intros Hk1 Hk2.
  - cbn [fst snd]. change (Z.of_nat 0) with 0 in *. split; [done|]. lia.
  - change (Z.of_nat 1) with 1 in *. apply Forall_cons in Hd as [Hd _]. cbn in Hd. rewrite word16 by (unfold is_u8; lia). rewrite Z.add_0_r. unfold u32.
    rewrite (Z.mod_small (a + _)) by lia. rewrite Z.mod_small by lia. cbn [fst snd]. split; [done|]. lia.
  - apply Forall_cons in Hd as [Hx [Hy Hd]%Forall_cons]. cbn in Hx, Hy. rewrite word16 by (unfold is_u8; lia).
    set (w := x * 256 + y) in *. assert (0 <= w <= 65535) by (unfold w; lia).
    set (k := zlen (words16 data)) in *. assert (Z.of_nat (S (length (words16 data))) = k + 1) as Hk by (unfold k; lia).
    rewrite Hk in *. assert (0 <= k) by (unfold k; lia).
    unfold u32. rewrite (Z.mod_small (a + w)) by lia. rewrite (Z.mod_small (b + (a + w))) by nia.
    destruct (IH (a + w) (b + (a + w)) Hd ltac:(lia) ltac:(lia)) as (-> & H1 & H2 & H3); [fold k; lia|fold k; nia|].
    fold k in H1, H3. split; [done|]. split; [lia|]. split; [done|]. nia.
Qed.

Lemma sums_ones ws a b a' b' :
  Forall (fun w => 0 <= w <= 65535) ws -> 0 <= a -> 0 <= b -> 0 <= a' -> 0 <= b' ->
  ones16 a = ones16 a' -> ones16 b = ones16 b' ->
  0 <= (sums a b ws).1 /\ 0 <= (sums a b ws).2 /\
  ones16 (sums a b ws).1 = ones16 (sums a' b' ws).1 /\ ones16 (sums a b ws).2 = ones16 (sums a' b' ws).2.
Proof.
  revert a b a' b'. induction ws as [|w ws IH]; intros a b a' b' Hw Ha Hb Ha' Hb' Hea Heb; [done|]. cbn [sums].
  apply Forall_cons in Hw as [Hw Hws]. pose proof (ones16_add a a' w Ha Ha' ltac:(lia) Hea) as Haw.
  apply IH; try done; try lia. apply ones16_add2; try done; lia.
Qed.

(** The blocks, folded one after the other. *)
Lemma fletcher_blocks_spec fuel data a b a' b' :
  Forall is_u8 data -> (length data <= fuel)%nat -> 0 <= a <= 65895 -> 0 <= b <= 131070 -> 0 <= a' -> 0 <= b' ->
  ones16 a = ones16 a' -> ones16 b = ones16 b' ->
  let '(x, y) := fletcher_blocks fuel a b data in
  0 <= x <= 65895 /\ 0 <= y <= 131070 /\
  ones16 x = ones16 (sums a' b' (words16 data)).1 /\ ones16 y = ones16 (sums a' b' (words16 data)).2.
Proof.
  revert data a b a' b'. induction fuel as [|fuel IH]; intros data a b a' b' Hd Hf Ha Hb Ha' Hb' Hea Heb.
  - destruct data; [|cbn in Hf; lia]. cbn. done.
  - destruct (decide (data = [])) as [->|Hne]; [done|].
    assert (fletcher_blocks (S fuel) a b data = let '(a, b) := fletcher_words a b (take 720 data) in
      fletcher_blocks fuel (fold16 a) (fold16 b) (drop 720 data)) as -> by by destruct data.
    pose proof (Forall_take _ 720 _ Hd) as Hd1. pose proof (Forall_drop _ 720 _ Hd) as Hd2.
    pose proof (length_words16 (take 720 data)) as Hlw. rewrite length_take in Hlw.
    set (k := zlen (words16 (take 720 data))) in *. assert (0 <= k <= 360) as Hk by (unfold k in *; lia).
    destruct (fletcher_words_spec (take 720 data) a b Hd1 ltac:(lia) ltac:(lia)) as (-> & H1 & H2 & H3);
      fold k; [unfold two32; nia|unfold two32; nia|]. fold k in H1, H3.
    destruct (sums_ones (words16 (take 720 data)) a b a' b' (words16_range _ Hd1)) as (_ & _ & He1 & He2); try done; try lia.
    destruct (sums a b (words16 (take 720 data))) as [s1 s2]. cbn [fst snd] in *.
    pose proof (fold16_spec s1 ltac:(lia)) as Hf1. pose proof (fold16_spec s2 ltac:(lia)) as Hf2.
    div_mod s1 65536. div_mod s2 65536. pose proof (Z.mod_pos_bound s1 65536 ltac:(lia)). pose proof (Z.mod_pos_bound s2 65536 ltac:(lia)).
    assert (s1 < 65536 * 361) by lia. assert (s2 < 65536 * 65536) by nia.
    assert (0 <= s1 / 65536 < 361) by (split; [apply Z.div_pos; lia|apply Z.div_lt_upper_bound; lia]).
    assert (0 <= s2 / 65536 < 65536) by (split; [apply Z.div_pos; lia|apply Z.div_lt_upper_bound; lia]).
    assert (words16 data = words16 (take 720 data) ++ words16 (drop 720 data)) as Hw.
    { destruct (decide (720 <= length data)%nat).
      - rewrite <- words16_app; [by rewrite take_drop|]. by rewrite length_take_le.
      - rewrite (take_ge data), (drop_ge data) by lia. cbn. by rewrite app_nil_r. }
    rewrite Hw, fletcher_sums_app. apply IH; try done; try lia.
    + rewrite length_drop. destruct data; [done|]. cbn [length] in *. lia.
    + destruct (sums_ones (words16 (take 720 data)) a' b' a' b' (words16_range _ Hd1)); try done; lia.
    + destruct (sums_ones (words16 (take 720 data)) a' b' a' b' (words16_range _ Hd1)) as (_ & ? & _); try done; lia.
    + apply fold16_ones; [lia|done].
    + apply fold16_ones; [lia|done].
Qed.

(** The sum of any data, in exact arithmetic. *)
Lemma fletcher32_spec data :
  Forall is_u8 data ->
  fletcher32 data = ones16 (sums 0 0 (words16 data)).2 * 65536 + ones16 (sums 0 0 (words16 data)).1.
Proof.
  intros Hd. unfold fletcher32.
  pose proof (fletcher_blocks_spec (length data) data 0 0 0 0 Hd (Nat.le_refl _) ltac:(lia) ltac:(lia) ltac:(lia) ltac:(lia) eq_refl eq_refl) as Hb.
  destruct (fletcher_blocks _ 0 0 data) as [x y]. destruct Hb as (Hx & Hy & <- & <-).
  assert (forall z, 0 <= z <= 131070 -> fold16 z = ones16 z /\ 0 <= fold16 z <= 65535) as Hf.
  { intros z Hz. rewrite <- (fold16_ones z z) by (done || lia).
    assert (0 <= fold16 z <= 65535) as Hr.
    { rewrite fold16_spec by lia. div_mod z 65536. pose proof (Z.mod_pos_bound z 65536 ltac:(lia)).
      assert (0 <= z / 65536 < 2) by (split; [apply Z.div_pos; lia|apply Z.div_lt_upper_bound; lia]). lia. }
    split; [|done]. by rewrite ones16_small. }
  destruct (Hf x ltac:(lia)) as [<- Hxr], (Hf y ltac:(lia)) as [<- Hyr].
  rewrite Z.shiftl_mul_pow2 by lia. unfold u32. rewrite Z.mod_small by (unfold two32; lia).
  change 65536 with (2 ^ 16). apply lor_high; lia.
Qed.

(** ** Shuffle *)

(** What the writing side does: byte [i] of every element goes to block [i], what is left
    over stays behind. *)
Definition shuffle (b : bytes) (itemsize : nat) : bytes :=
  if (itemsize <=? 1)%nat then b
  else
    let elements := (length b / itemsize)%nat in
    (seq 0 itemsize ≫= fun i => (fun e => default 0 (b !! (e * itemsize + i)%nat)) <$> seq 0 elements)
      ++ drop (elements * itemsize) b.

Lemma unshuffle_block_spec block : forall out isz i e,
  (0 < isz)%nat -> (forall k, (k < length block)%nat -> ((e + k) * isz + i < length out)%nat) ->
  exists out', unshuffle_block out isz i e block = Ok out' /\ length out' = length out /\
    (forall k, (k < length block)%nat -> out' !! ((e + k) * isz + i)%nat = block !! k) /\
    (forall m, (forall k, (k < length block)%nat -> m <> ((e + k) * isz + i)%nat) -> out' !! m = out !! m).
Proof.
  induction block as [|x block IH]; intros out isz i e Hz Hin; cbn [unshuffle_block]; cbv zeta.
  - exists out. split; [done|]. split; [done|]. split; [intros k Hk; cbn in Hk; lia|done].
  - cbn [length] in Hin. pose proof (Hin 0%nat ltac:(lia)) as H0. rewrite Nat.add_0_r in H0.
    destruct (Nat.ltb_spec (e * isz + i) (length out)); [|lia].
    destruct (IH (<[(e * isz + i)%nat:=x]> out) isz i (S e) Hz) as (out' & -> & Hl & Hset & Hkeep).
    { intros k Hk. rewrite length_insert. specialize (Hin (S k) ltac:(lia)). lia. }
    exists out'. split; [done|]. rewrite length_insert in Hl. split; [done|]. split.
    + intros [|k] Hk.
      * rewrite Nat.add_0_r, Hkeep; [by rewrite list_lookup_insert_eq|]. intros k' Hk' He. nia.
      * cbn [length] in Hk. replace (e + S k)%nat with (S e + k)%nat by lia. rewrite Hset by lia. done.
    + intros m Hm. rewrite Hkeep.
      * rewrite list_lookup_insert_ne; [done|]. intros <-. apply (Hm 0%nat); cbn; lia.
      * intros k Hk ->. apply (Hm (S k)); cbn; lia.
Qed.

(** The input with its bytes permuted back, whatever its length. *)
Lemma unshuffle_spec b isz :
  exists out, unshuffle b isz = Ok out /\ length out = length b /\
    ((1 < isz)%nat -> let n := (length b / isz)%nat in
     (forall i e, (i < isz)%nat -> (e < n)%nat -> out !! (e * isz + i)%nat = b !! (i * n + e)%nat) /\
     (forall m, (n * isz <= m)%nat -> out !! m = b !! m)).
Proof.
  unfold unshuffle. destruct (Nat.leb_spec isz 1); [exists b; split; [done|split; [done|lia]]|].
  set (n := (length b / isz)%nat). assert (isz * n <= length b)%nat as Hn by (apply Nat.Div0.mul_div_le).
  destruct (mfold_seq (fun out i => block ← slice_checked (Z.of_nat (i * n)) (Z.of_nat n) b; unshuffle_block out isz i 0 block)
    (fun j out => length out = length b /\
      (forall i e, (i < j)%nat -> (e < n)%nat -> out !! (e * isz + i)%nat = b !! (i * n + e)%nat) /\
      (forall m, (n * isz <= m)%nat -> out !! m = b !! m)) b isz) as (out & Hf & Hl & Hset & Hkeep).
  - split; [done|]. split; [intros; lia|done].
  - intros j out Hj (Hl & Hset & Hkeep). rewrite slice_ok by nia. cbn [mbind result_bind].
    set (block := slice _ _ b). assert (length block = n) as Hb.
    { apply Nat2Z.inj. unfold block. rewrite length_slice by nia. done. }
    destruct (unshuffle_block_spec block out isz j 0 ltac:(lia)) as (out' & -> & Hl' & Hset' & Hkeep').
    { intros k Hk. rewrite Hl. rewrite Hb in Hk. nia. }
    exists out'. split; [done|]. split; [by rewrite Hl'|]. rewrite Hb in *. split.
    + intros i e Hi He. destruct (decide (i = j)) as [->|Hne].
      * specialize (Hset' e He). cbn [Nat.add] in Hset'. rewrite Hset'. unfold block.
        rewrite lookup_slice by lia. by rewrite Nat2Z.id.
      * rewrite Hkeep'; [apply Hset; lia|]. intros k Hk Heq. cbn [Nat.add] in Heq.
        assert (e = k) by nia. subst k. lia.
    + intros m Hm. rewrite Hkeep'; [by apply Hkeep|]. intros k Hk ->. nia.
  - exists out. split; [done|]. split; [done|]. intros _. done.
Qed.

Lemma length_blocks {A} (f : nat -> nat -> A) n l : length (l ≫= fun i => f i <$> seq 0 n) = (length l * n)%nat.
Proof. induction l as [|x l IH]; [done|]. rewrite bind_cons, length_app, length_fmap, length_seq, IH. cbn [length]. lia. Qed.

Lemma lookup_blocks {A} (f : nat -> nat -> A) n k i e :
  (i < k)%nat -> (e < n)%nat -> (seq 0 k ≫= fun i => f i <$> seq 0 n) !! (i * n + e)%nat = Some (f i e).
Proof.
  intros Hi He. induction k as [|k IH]; [lia|]. rewrite seq_S, bind_app.
  destruct (decide (i < k)%nat) as [Hlt|].
  - rewrite lookup_app_l; [by apply IH|]. rewrite length_blocks, length_seq. nia.
  - assert (i = k) as -> by lia. rewrite lookup_app_r by (rewrite length_blocks, length_seq; lia).
    rewrite length_blocks, length_seq. replace (k * n + e - k * n)%nat with e by lia.
    cbn [mbind list_bind]. rewrite app_nil_r, list_lookup_fmap, lookup_seq_lt by done. done.
Qed.

Lemma length_shuffle b isz : length (shuffle b isz) = length b.
Proof.
  unfold shuffle. destruct (Nat.leb_spec isz 1); [done|].
  rewrite length_app, length_drop, length_blocks, length_seq.
  pose proof (Nat.Div0.mul_div_le (length b) isz). nia.
Qed.

Lemma unshuffle_shuffle_spec b isz : unshuffle (shuffle b isz) isz = Ok b.
Proof.
  destruct (decide (1 < isz)%nat) as [Hz|Hz].
  2: { unfold unshuffle, shuffle. by destruct (Nat.leb_spec isz 1); [|lia]. }
  destruct (unshuffle_spec (shuffle b isz) isz) as (out & -> & Hl & Hout). rewrite length_shuffle in *. f_equal.
  destruct (Hout Hz) as [Hin Htail]. clear Hout. set (n := (length b / isz)%nat) in *.
  pose proof (Nat.Div0.mul_div_le (length b) isz) as Hn. fold n in Hn.
  assert (shuffle b isz = (seq 0 isz ≫= fun i => (fun e => default 0 (b !! (e * isz + i)%nat)) <$> seq 0 n) ++ drop (n * isz) b) as Hs.
  { unfold shuffle. destruct (Nat.leb_spec isz 1); [lia|done]. }
  apply list_eq. intros m. destruct (decide (m < n * isz)%nat) as [Hlt|Hge].
  - pose proof (Nat.div_mod m isz ltac:(lia)) as Hm. pose proof (Nat.mod_upper_bound m isz ltac:(lia)).
    assert (m / isz < n)%nat by (apply Nat.Div0.div_lt_upper_bound; lia).
    replace m with (m / isz * isz + m mod isz)%nat by lia. rewrite Hin, Hs by lia.
    rewrite lookup_app_l by (rewrite length_blocks, length_seq; nia).
    rewrite (lookup_blocks (fun i e => default 0 (b !! (e * isz + i)%nat))) by lia.
    destruct (lookup_lt_is_Some_2 b (m / isz * isz + m mod isz)) as [x Hx]; [nia|]. by rewrite Hx.
  - rewrite Htail, Hs by lia. rewrite lookup_app_r, length_blocks, length_seq by (rewrite length_blocks, length_seq; lia).
    rewrite lookup_drop. f_equal. lia.
Qed.

(** ** Pipelines of filters *)

Lemma unshuffle_length b isz out : unshuffle b isz = Ok out -> length out = length b.
Proof. destruct (unshuffle_spec b isz) as (o & -> & Hl & _). by intros [= <-]. Qed.

(** A lor of two words is one. *)
Lemma lor_u32 x y : is_u32 x -> is_u32 y -> is_u32 (Z.lor x y).
Proof.
  unfold is_u32. change two32 with (2 ^ 32). intros Hx Hy.
  assert (forall z, 0 <= z < 2 ^ 32 -> forall i, 32 <= i -> Z.testbit z i = false) as Hb.
  { intros z Hz i Hi. rewrite <- (Z.mod_small z (2 ^ 32)) by done. by apply Z.mod_pow2_bits_high. }
  assert (0 <= Z.lor x y) as H0 by (apply Z.lor_nonneg; lia). split; [done|].
  replace (Z.lor x y) with (Z.lor x y mod 2 ^ 32); [apply Z.mod_pos_bound; lia|].
  apply Z.bits_inj'. intros i Hi. destruct (decide (32 <= i)).
  - rewrite Z.mod_pow2_bits_high, Z.lor_spec, !Hb by done. done.
  - by rewrite Z.mod_pow2_bits_low by lia.
Qed.

Lemma fold16_range a : 0 <= a < two32 -> 0 <= fold16 a <= 131070.
Proof.
  intros Ha. rewrite fold16_spec by lia. div_mod a 65536. pose proof (Z.mod_pos_bound a 65536 ltac:(lia)).
  unfold two32 in *. assert (0 <= a / 65536 < 65536) by (split; [apply Z.div_pos; lia|apply Z.div_lt_upper_bound; lia]). lia.
Qed.

Lemma fletcher_words_range data a b : is_u32 a -> is_u32 b ->
  is_u32 (fletcher_words a b data).1 /\ is_u32 (fletcher_words a b data).2.
Proof.
  unfold is_u32, two32 in *. revert a b. induction data as [|x|x y data IH] using pairs_ind; intros a b Ha Hb; cbn [fletcher_words].
  - done.
  - cbn [fst snd]. unfold u32. split; apply Z.mod_pos_bound; unfold two32; lia.
  - apply IH; unfold u32; apply Z.mod_pos_bound; unfold two32; lia.
Qed.

(** The sum is a [u32], whatever is summed. *)
Lemma fletcher32_u32 data : is_u32 (fletcher32 data).
Proof.
  unfold fletcher32. assert (forall fuel d a b, 0 <= a <= 131070 -> 0 <= b <= 131070 ->
    0 <= (fletcher_blocks fuel a b d).1 <= 131070 /\ 0 <= (fletcher_blocks fuel a b d).2 <= 131070) as Hb.
  { induction fuel as [|fuel IH]; intros d a b Ha Hb; [by destruct d|]. destruct d as [|x d]; [done|].
    cbn [fletcher_blocks]. destruct (fletcher_words_range (take 720 (x :: d)) a b) as [H1 H2]; [unfold is_u32, two32; lia..|].
    destruct (fletcher_words _ _ _) as [s1 s2]. apply IH; by apply fold16_range. }
  specialize (Hb (length data) data 0 0 ltac:(lia) ltac:(lia)). destruct (fletcher_blocks _ _ _ _) as [a b].
  apply lor_u32; [apply Z.mod_pos_bound; unfold two32; lia|].
  cbn [fst snd] in Hb. pose proof (fold16_range a ltac:(unfold two32; lia)). unfold is_u32, two32. lia.
Qed.

Lemma swapped_u32 s : is_u32 s -> is_u32 (swapped s).
Proof.
  intros [Hs _]. unfold swapped. apply lor_u32; [apply Z.mod_pos_bound; unfold two32; lia|].
  assert (0 <= Z.shiftr s 8) as Hn by (by apply Z.shiftr_nonneg).
  change 0x00ff00ff with (Z.land 0x00ff00ff (Z.ones 32)). rewrite Z.land_assoc, Z.land_ones by lia.
  apply Z.mod_pos_bound. lia.
Qed.

(** The checksum the writing side appends; old libraries wrote each half swapped. *)
Definition checksum (old : bool) (b : bytes) : Z := if old then swapped (fletcher32 b) else fletcher32 b.

Lemma strip_checked old b : strip_fletcher32 (b ++ to_le_bytes 4 (checksum old b)) = Some b.
Proof.
  unfold strip_fletcher32. rewrite length_app, length_to_le_bytes.
  assert (checked_sub (Z.of_nat (length b + 4)) 4 = Some (zlen b)) as -> by (apply checked_sub_some; lia).
  cbn [mbind option_bind]. rewrite Nat2Z.id, take_app_length, drop_app_length.
  rewrite from_to_le_u32 by (pose proof (fletcher32_u32 b); unfold checksum; destruct old; [by apply swapped_u32|done]).
  unfold checksum. destruct old; rewrite Z.eqb_refl; cbn [negb andb]; [by rewrite andb_false_r|done].
Qed.

Section Pipeline.
Context `{FlateLib}.

(** A deflater whose output the library expands. *)
Class FlateWriter := {
  deflate : bytes -> bytes;
  zlib_deflate b n : 0 <= n -> zlib (deflate b) n = Some (take (Z.to_nat n) b);
}.
Context `{!FlateWriter}.

(** One filter of the writing side, unless the chunk's mask says it was skipped. *)
Definition apply_filter (g : ChunkGrid) (old : bool) (mask : Z) (b : bytes) (f : nat * Filter) : bytes :=
  if Z.testbit mask (Z.of_nat f.1 mod 32) then b
  else
    match f.2 with
    | Fletcher32 => b ++ to_le_bytes 4 (checksum old b)
    | Deflate => deflate b
    | Shuffle => shuffle b (Z.to_nat (g_itemsize g))
    | OtherFilter => b
    end.

(** What is deflated has at most a chunk's bytes, and every filter is one of the three. *)
Fixpoint filters_fit (g : ChunkGrid) (old : bool) (mask : Z) (b : bytes) (fs : list (nat * Filter)) : Prop :=
  match fs with
  | [] => True
  | f :: fs =>
      (Z.testbit mask (Z.of_nat f.1 mod 32) = true \/
       match f.2 with Deflate => zlen b <= chunk_bytes g | OtherFilter => False | _ => True end) /\
      filters_fit g old mask (apply_filter g old mask b f) fs
  end.

Lemma filter_undone g old mask b f :
  (Z.testbit mask (Z.of_nat f.1 mod 32) = true \/
   match f.2 with Deflate => zlen b <= chunk_bytes g | OtherFilter => False | _ => True end) ->
  Chunked.undo_filter g mask (apply_filter g old mask b f) f = Ok b.
Proof.
  unfold apply_filter, Chunked.undo_filter. destruct f as [i filter]. cbn [fst snd].
  destruct (Z.testbit mask _); [done|]. intros [|Hf]; [done|]. destruct filter; [| | |done].
  - unfold inflate. rewrite zlib_deflate by lia. by rewrite take_ge by lia.
  - apply unshuffle_shuffle_spec.
  - by rewrite strip_checked.
Qed.

Lemma undo_pipeline g old mask b fs :
  filters_fit g old mask b fs ->
  mfold (Chunked.undo_filter g mask) (foldl (apply_filter g old mask) b fs) (reverse fs) = Ok b.
Proof.
  revert b. induction fs as [|f fs IH]; intros b; [done|]. intros [Hf Hfs]. rewrite reverse_cons, mfold_app. cbn [foldl].
  rewrite IH by done. cbn [mbind result_bind mfold]. by rewrite filter_undone.
Qed.

(** What is stored of a chunk: its bytes, through the dataset's filters. *)
Definition filtered (c : Chunked) (old : bool) (mask : Z) (b : bytes) : bytes :=
  foldl (apply_filter (ck_grid c) old mask) b (imap pair (ck_filters c)).

Lemma decode_filtered c raw entry old b spare :
  filters_fit (ck_grid c) old (ce_mask entry) b (imap pair (ck_filters c)) -> zlen b = chunk_bytes (ck_grid c) ->
  ce_addr entry + ce_size entry <= zlen raw ->
  slice (ce_addr entry) (ce_size entry) raw = filtered c old (ce_mask entry) b ->
  Chunked.decode c raw entry spare = Ok b.
Proof.
  intros Hf Hl Hin Hs. unfold Chunked.decode, read_exact. rewrite decide_True by (right; lia). rewrite Hs.
  cbn [map_err mbind result_bind]. unfold filtered. rewrite undo_pipeline by done. cbn [mbind result_bind].
  by rewrite Hl, Z.eqb_refl.
Qed.
End Pipeline.
