(* ===== verification/Hdf5Correct.v ===== *)
(** Reading an HDF5 dataset, end to end: the index of a chunked one is what libhdf5 lists, and
    every range of a dataset that opened is its bytes in the file, its fill value, or its
    chunks put together, whatever the shared cache holds. *)
From stdpp Require Import strings gmap.
From S2P Require Import Prelude Errors Dtype Bytes Quality Selection SelectionSpec Gathered GatheredSpec StretchSpec ReadSpec Cast Layout LayoutSpec Chunks DecodeCache ChunkStore Text Backend Hdf5.

(** ** The index of a chunked dataset *)

(** Chunk coordinates that are in a grid are the only ones that get a number. *)
Lemma linear_from_some n coords dims m :
  length coords = length dims -> Forall (fun c => 0 <= c) coords -> linear_from n coords dims = Some m -> in_shape dims coords.
Proof.
  intros Hl Hc. revert n dims Hl. induction Hc as [|c coords Hc _ IH]; intros n [|d dims] Hl; try done; [by constructor|].
  cbn [linear_from]. destruct (Z.leb_spec d c); [done|]. intros Hm. constructor; [lia|]. eapply IH; [|exact Hm].
  cbn in Hl. lia.
Qed.

Section Index.
Context (c : Chunked) (raw : bytes).
#[local] Abbreviation g := (ck_grid c).

(** What libhdf5 lists of a chunk is typed, and has the dataset's rank. *)
Definition chunk_typed (ci : ChunkInfo) : Prop :=
  length (ci_offset ci) = length (Chunks.chunk_shape g) /\ Forall (fun o => 0 <= o) (ci_offset ci) /\
  is_u64 (ci_addr ci) /\ is_u64 (ci_size ci).

Definition number_of (ci : ChunkInfo) : option Z :=
  ChunkGrid.chunk_of g (zip_with Z.div (ci_offset ci) (Chunks.chunk_shape g)).

Definition entry_of (ci : ChunkInfo) : ChunkEntry :=
  {| ce_addr := ci_addr ci; ce_size := ci_size ci; ce_mask := ci_filter_mask ci |}.

(** A chunk left behind by shrinking the dataset, or one that lies in the file, whole when
    no filter could have changed its size. *)
Definition well_placed (ci : ChunkInfo) : Prop :=
  number_of ci = None \/
  ci_addr ci + ci_size ci <= zlen raw /\ (ck_filters c <> [] \/ ci_size ci = chunk_bytes g).

#[export] Instance well_placed_dec ci : Decision (well_placed ci).
Proof. unfold well_placed. apply _. Defined.

(** Where chunk [n] is: the last one listed at its coordinates. *)
Definition placed (chunks : list ChunkInfo) (n : Z) : option ChunkEntry :=
  last (entry_of <$> filter (fun ci => number_of ci = Some n) chunks).

Definition record (index : list ChunkEntry) (ci : ChunkInfo) : list ChunkEntry :=
  match number_of ci with Some n => <[Z.to_nat n := entry_of ci]> index | None => index end.

Context (Hchunks : Forall (fun s => 0 < s) (Chunks.chunk_shape g)).
Context (Hrank : length (grid g) = length (Chunks.chunk_shape g)).
Context (Hgrid : zprod (grid g) < two64) (Hfile : zlen raw < two64).

Lemma number_range ci n : chunk_typed ci -> number_of ci = Some n -> 0 <= n < zprod (grid g) /\ Forall (fun d => 0 < d) (grid g).
Proof.
  intros (Hl & Ho & _) Hn. unfold number_of, ChunkGrid.chunk_of in Hn.
  assert (in_shape (grid g) (zip_with Z.div (ci_offset ci) (Chunks.chunk_shape g))) as Hin.
  { eapply linear_from_some; [|..|exact Hn].
    - rewrite length_zip_with_l_eq; [lia|done].
    - apply Forall_forall. intros x Hx. apply elem_of_lookup_zip_with_1 in Hx as (i & a & b & -> & Ha & Hb).
      pose proof (Forall_lookup_1 _ _ _ _ Ho Ha). pose proof (Forall_lookup_1 _ _ _ _ Hchunks Hb). cbn in *.
      apply Z.div_pos; lia. }
  rewrite linear_spec in Hn by (done || lia). injection Hn as <-. split; [by apply ravel_range|by eapply in_shape_pos].
Qed.

Lemma visit_bad chunks index : mfold (Chunked.visit c (zlen raw)) (index, true) chunks = Ok (index, true).
Proof. induction chunks as [|ci chunks IH]; [done|]. cbn [mfold Chunked.visit mbind result_bind]. exact IH. Qed.

Lemma visit_spec ci index :
  chunk_typed ci -> zlen index = zprod (grid g) ->
  Chunked.visit c (zlen raw) (index, false) ci =
    Ok (if decide (well_placed ci) then (record index ci, false) else (index, true)).
Proof.
  intros Ht Hl. pose proof (number_range ci) as Hn. unfold Chunked.visit, record. fold (number_of ci).
  destruct (number_of ci) as [n|] eqn:Hnum; [|by rewrite decide_True by by left].
  destruct (Hn n Ht eq_refl) as [Hr _]. clear Hn. destruct Ht as (_ & _ & Ha & Hs). cbn [ce_addr ce_size].
  assert (checked_add (ci_addr ci) (ci_size ci) = Some (ci_addr ci + ci_size ci) \/
    checked_add (ci_addr ci) (ci_size ci) = None /\ two64 <= ci_addr ci + ci_size ci) as Hadd.
  { unfold checked_add. unfold is_u64 in *. case_decide; [by left|right]. split; [done|]. lia. }
  destruct (Nat.ltb_spec (Z.to_nat n) (length index)); [|lia].
  destruct (decide (well_placed ci)) as [Hw|Hw].
  - destruct Hw as [Hw|[Hin Hf]]; [congruence|]. destruct Hadd as [->|[_ ?]]; [|lia].
    destruct (Z.ltb_spec (zlen raw) (ci_addr ci + ci_size ci)); [lia|]. rewrite orb_false_r.
    case_bool_decide as Hfil; [|done]. destruct Hf as [|Hf]; [done|]. cbn [andb]. by destruct (Z.eqb_spec (ci_size ci) (chunk_bytes g)).
  - destruct Hadd as [->|[-> _]]; [|by rewrite orb_true_r].
    destruct (Z.ltb_spec (zlen raw) (ci_addr ci + ci_size ci)); [by rewrite orb_true_r|]. rewrite orb_false_r.
    destruct (bool_decide_reflect (ck_filters c = [])); cbn [andb];
      [destruct (Z.eqb_spec (ci_size ci) (chunk_bytes g)); cbn [negb]; [|done]|]; exfalso; apply Hw; right; (split; [lia|]);
      [by right|by left].
Qed.

Lemma length_record index ci : length (record index ci) = length index.
Proof. unfold record. destruct (number_of ci); [apply length_insert|done]. Qed.

Lemma visit_all chunks index :
  Forall chunk_typed chunks -> zlen index = zprod (grid g) ->
  if decide (Forall well_placed chunks)
  then mfold (Chunked.visit c (zlen raw)) (index, false) chunks = Ok (foldl record index chunks, false)
  else exists index', mfold (Chunked.visit c (zlen raw)) (index, false) chunks = Ok (index', true).
Proof.
  revert index. induction chunks as [|ci chunks IH]; intros index Ht Hl.
  { by rewrite decide_True by constructor. }
  apply Forall_cons in Ht as [Hci Ht]. cbn [mfold]. rewrite visit_spec by done. cbn [mbind result_bind].
  destruct (decide (well_placed ci)) as [Hw|Hw].
  - specialize (IH (record index ci) Ht ltac:(by rewrite length_record)). destruct (decide (Forall well_placed chunks)) as [Hall|Hall].
    + rewrite decide_True by by constructor. exact IH.
    + rewrite decide_False; [exact IH|]. by intros [_ ?]%Forall_cons.
  - rewrite decide_False by (by intros [? _]%Forall_cons). exists index. apply visit_bad.
Qed.

Lemma record_all chunks index n :
  Forall chunk_typed chunks -> zlen index = zprod (grid g) -> 0 <= n < zprod (grid g) ->
  (forall e, index !! Z.to_nat n = Some e -> foldl record index chunks !! Z.to_nat n = Some (default e (placed chunks n))) /\
  zlen (foldl record index chunks) = zprod (grid g).
Proof.
  intros Ht Hl Hn. induction chunks as [|ci chunks IH] using rev_ind; [by split|].
  apply Forall_app in Ht as [Ht Hci]. rewrite Forall_singleton in Hci. specialize (IH Ht) as [IH Hlen].
  rewrite foldl_snoc. split; [|by rewrite length_record]. intros e He. specialize (IH e He).
  unfold placed. rewrite filter_app, fmap_app. unfold record at 1. destruct (number_of ci) as [m|] eqn:Hm.
  - destruct (number_range ci m Hci Hm) as [Hr _]. destruct (decide (m = n)) as [->|Hne].
    + rewrite list_lookup_insert_eq by lia. rewrite filter_cons_True by done. rewrite filter_nil. cbn [fmap list_fmap].
      by rewrite last_snoc.
    + rewrite list_lookup_insert_ne by lia. rewrite filter_cons_False by congruence. rewrite filter_nil. cbn [fmap list_fmap].
      rewrite app_nil_r. exact IH.
  - rewrite filter_cons_False by congruence. rewrite filter_nil. cbn [fmap list_fmap]. rewrite app_nil_r. exact IH.
Qed.

(** The whole index; it is refused, never a panic, when a chunk is not where it can be. *)
Lemma index_spec :
  Forall chunk_typed (h_chunks (ck_dataset c)) -> ChunkGrid.chunks g = zprod (grid g) -> 0 <= zprod (grid g) ->
  Chunked.build_index c raw =
    if decide (Forall well_placed (h_chunks (ck_dataset c)) /\ h_visit (ck_dataset c) false = true)
    then Ok ((fun n => default MISSING (placed (h_chunks (ck_dataset c)) n)) <$> seqZ 0 (zprod (grid g)))
    else Err MalformedHdf5.
Proof.
  intros Ht Hc Hpos. unfold Chunked.build_index. rewrite Hc.
  set (index := replicate _ MISSING). set (chunks := h_chunks (ck_dataset c)) in *.
  assert (zlen index = zprod (grid g)) as Hl by (unfold index; rewrite length_replicate; lia).
  pose proof (visit_all chunks index Ht Hl) as Hv. destruct (decide (Forall well_placed chunks)) as [Hall|Hall].
  - rewrite Hv. cbn [mbind result_bind]. destruct (h_visit (ck_dataset c) false); cbn [negb].
    2: { rewrite decide_False; [done|]. by intros [_ ?]. }
    rewrite decide_True by done. f_equal.
    destruct (decide (zprod (grid g) = 0)) as [Hz|Hz].
    { rewrite Hz. assert (length (foldl record index chunks) = 0%nat) as Hn.
      { clear -Hl Hz. revert Hl. generalize index. induction chunks as [|ci chunks IH]; intros ix Hl; [cbn; lia|].
        cbn. apply IH. by rewrite length_record. }
      by apply nil_length_inv. }
    destruct (record_all chunks index 0 Ht Hl ltac:(lia)) as [_ Hlen].
    apply list_eq. intros i. destruct (decide (Z.of_nat i < zprod (grid g))) as [Hi|Hi].
    + rewrite list_lookup_fmap, lookup_seqZ_lt by lia. cbn [fmap option_fmap option_map]. rewrite Z.add_0_l.
      destruct (record_all chunks index (Z.of_nat i) Ht Hl ltac:(lia)) as [Hr _]. rewrite Nat2Z.id in Hr. apply Hr.
      apply lookup_replicate. split; [done|lia].
    + rewrite !lookup_ge_None_2; [done|rewrite length_fmap, length_seqZ; lia|lia].
  - destruct Hv as [index' ->]. cbn [mbind result_bind]. rewrite decide_False by (by intros [? _]).
    by destruct (negb _).
Qed.
End Index.

(** ** Datasets *)

(** What the library hands over has the sizes its types say. *)
Record h5_typed (ds : H5Dataset) : Prop := {
  ht_shape : Forall is_u64 (h_shape ds);
  ht_chunk cs : h_chunk ds = Some cs -> Forall is_u64 cs;
  ht_offset o : h_offset ds = Some o -> is_u64 o;
  ht_chunks : Forall (fun ci => length (ci_offset ci) = length (h_shape ds) /\ Forall is_u64 (ci_offset ci) /\
    is_u64 (ci_addr ci) /\ is_u64 (ci_size ci)) (h_chunks ds);
  ht_fill dt dtype b : h_dtype ds = Some dt -> dtype_of dt = Some dtype -> h_fill ds = Some b ->
    zlen b = DType.itemsize dtype;
}.

(** What is known of a chunked dataset of some shape and type, from how it was opened. *)
Record chunked_ok (shape : list Z) (dtype : DType) (c : Chunked) : Prop := {
  co_outer : g_shape (ck_grid c) = shape /\ g_itemsize (ck_grid c) = DType.itemsize dtype /\
    Chunks.grid (ck_grid c) = zip_with div_ceil shape (Chunks.chunk_shape (ck_grid c)) /\
    length (Chunks.chunk_shape (ck_grid c)) = length shape /\ Forall (fun s => 0 < s) (Chunks.chunk_shape (ck_grid c));
  co_laid : Forall (fun d => 0 < d) shape -> grid_ok (ck_grid c);
  co_listed : Forall (chunk_typed c) (h_chunks (ck_dataset c));
}.

Record hdf5_ok (d : Hdf5Dataset) : Prop := {
  ho_shape : Forall (fun n => 0 <= n) (hd_shape d);
  ho_fill : zlen (hd_fill d) = DType.itemsize (hd_dtype d);
  ho_storage : match hd_storage d with
    | Contiguous offset =>
        0 <= offset /\ offset + zprod (hd_shape d) * DType.itemsize (hd_dtype d) <= zlen (hd_raw d)
    | Unallocated => True
    | SChunked c => chunked_ok (hd_shape d) (hd_dtype d) c
    end;
}.

(** The number of chunks, of a dataset with elements or without. *)
Lemma chunked_count shape dtype c :
  chunked_ok shape dtype c -> Forall (fun n => 0 <= n) shape ->
  ChunkGrid.chunks (ck_grid c) = zprod (Chunks.grid (ck_grid c)) /\ 0 <= zprod (Chunks.grid (ck_grid c)) < two64 /\
  length (Chunks.grid (ck_grid c)) = length (Chunks.chunk_shape (ck_grid c)).
Proof.
  intros [(Hsh & Hit & Hg & Hl & Hcs) Hlaid _] Hs.
  assert (length (Chunks.grid (ck_grid c)) = length (Chunks.chunk_shape (ck_grid c))) as Hlen
    by (rewrite Hg; apply length_zip_with_r_eq; lia).
  destruct (some_or_none shape Hs) as [Hz|Hpos].
  - assert (0 ∈ Chunks.grid (ck_grid c)) as H0.
    { rewrite Hg. apply list_elem_of_lookup in Hz as [i Hi].
      destruct (lookup_lt_is_Some_2 (Chunks.chunk_shape (ck_grid c)) i) as [k Hk]; [rewrite Hl; by eapply lookup_lt_Some|].
      apply list_elem_of_lookup. exists i. rewrite lookup_zip_with, Hi, Hk. cbn. f_equal.
      pose proof (Forall_lookup_1 _ _ _ _ Hcs Hk). cbn in *. unfold div_ceil. by rewrite Z.div_small by lia. }
    rewrite (zprod_zero _ H0). split; [by apply no_chunks|]. split; [unfold two64; lia|done].
  - pose proof (Hlaid Hpos) as Hgo. split; [by apply chunks_spec|]. split; [|done].
    pose proof (zprod_pos _ (grid_positive _ Hgo)). pose proof (go_grid_fits _ Hgo). lia.
Qed.

Lemma dataset_index shape dtype c raw :
  chunked_ok shape dtype c -> Forall (fun n => 0 <= n) shape -> zlen raw < two64 ->
  Chunked.build_index c raw =
    if decide (Forall (well_placed c raw) (h_chunks (ck_dataset c)) /\ h_visit (ck_dataset c) false = true)
    then Ok ((fun n => default MISSING (placed c (h_chunks (ck_dataset c)) n)) <$> seqZ 0 (zprod (Chunks.grid (ck_grid c))))
    else Err MalformedHdf5.
Proof.
  intros Hc Hs Hraw. destruct (chunked_count _ _ _ Hc Hs) as (Hn & [Hn0 Hn1] & Hlen).
  destruct (Hc) as [(_ & _ & _ & _ & Hcs) _ Hl]. by apply index_spec.
Qed.

(** An entry of an index lies in the file. *)
Lemma index_entry shape dtype c raw index n :
  chunked_ok shape dtype c -> Forall (fun n => 0 <= n) shape -> zlen raw < two64 ->
  Chunked.build_index c raw = Ok index -> 0 <= n < zprod (Chunks.grid (ck_grid c)) ->
  exists e, index !! Z.to_nat n = Some e /\ e = default MISSING (placed c (h_chunks (ck_dataset c)) n) /\
    (placed c (h_chunks (ck_dataset c)) n = None \/ 0 <= ce_addr e /\ 0 <= ce_size e /\ ce_addr e + ce_size e <= zlen raw /\
       (ck_filters c = [] -> ce_size e = chunk_bytes (ck_grid c))).
Proof.
  intros Hc Hs Hraw Hb Hn. rewrite (dataset_index shape dtype) in Hb by done. case_decide as Hd; [|done].
  destruct Hd as [Hw _]. injection Hb as <-. eexists. rewrite list_lookup_fmap, lookup_seqZ_lt by lia.
  split; [done|]. cbn beta. rewrite Z.add_0_l, Z2Nat.id by lia. split; [done|].
  destruct (placed c _ n) as [e|] eqn:Hp; [right|by left]. cbn [default]. unfold placed in Hp.
  assert (e ∈ entry_of <$> filter (fun ci => number_of c ci = Some n) (h_chunks (ck_dataset c))) as Hin.
  { apply last_Some in Hp as [l ->]. set_solver. }
  apply list_elem_of_fmap in Hin as (ci & -> & [Hnum Hci]%list_elem_of_filter).
  rewrite Forall_forall in Hw. destruct (Hw ci Hci) as [|[Hf Hz]]; [congruence|].
  pose proof (co_listed _ _ _ Hc) as Hl. rewrite Forall_forall in Hl. destruct (Hl ci Hci) as (_ & _ & [Ha _] & [Hsz _]).
  cbn. repeat split; try done. intros Hnil. by destruct Hz.
Qed.

(** ** A read *)

Section Read.
Context `{FlateLib}.

(** What chunk [n] of a chunked dataset holds: the fill value, its bytes in the file, or
    what they decode to. *)
Definition stored_chunk (d : Hdf5Dataset) (c : Chunked) (n : Z) : result AexError bytes :=
  index ← Chunked.build_index c (hd_raw d);
  entry ← expect (index !! Z.to_nat n);
  if ce_addr entry =? ce_addr MISSING then Ok (fill_pattern (hd_fill d) (zprod (Chunks.chunk_shape (ck_grid c))))
  else if bool_decide (ck_filters c = []) then
    map_err Io (read_exact (hd_raw d) (ce_addr entry) (chunk_bytes (ck_grid c)))
  else Chunked.decode c (hd_raw d) entry [].

(** How many chunks a dataset has. *)
Definition chunk_count (c : Chunked) : Z := zprod (Chunks.grid (ck_grid c)).

(** What a dataset keeps is what decoding a chunk, or building the index, gives. *)
Record kept (d : Hdf5Dataset) (decodes : ChunkKey -> result AexError bytes) (k : Kept) : Prop := {
  kp_cache : holds decodes (k_cache k);
  kp_index index : k_index k = Some index ->
    exists c, hd_storage d = SChunked c /\ Chunked.build_index c (hd_raw d) = Ok index;
}.

Section Answer.
Context (shared : ChunkKey -> bool) (d : Hdf5Dataset) (c : Chunked).
Context (Hd : hdf5_ok d) (Hs : hd_storage d = SChunked c) (Hraw : zlen (hd_raw d) < two63).
Context (Hpos : Forall (fun n => 0 < n) (hd_shape d)).
Context (decodes : ChunkKey -> result AexError bytes).
Context (Hdec : forall n, 0 <= n < chunk_count c -> decodes (ck_cache_key c, n) = stored_chunk d c n).
Context (chunk : Z -> bytes).
Context (Hlen : forall n, 0 <= n < chunk_count c -> zlen (chunk n) = chunk_bytes (ck_grid c)).
Context (Hchunk : forall n b, 0 <= n < chunk_count c -> stored_chunk d c n = Ok b -> b = chunk n).

(** The failure of one of the dataset's chunks. *)
Definition chunk_failed (r : result AexError bytes) : Prop :=
  exists n, 0 <= n < chunk_count c /\ r = stored_chunk d c n.

Lemma run_answers index :
  Chunked.build_index c (hd_raw d) = Ok index ->
  chunk_answers (holds decodes) chunk_failed (ck_grid c) chunk (Chunked.read_run shared c (hd_raw d) (hd_fill d) index).
Proof.
  intros Hb s n start len Hc Hn Hst Hl Hle. destruct Hd as [Hsh Hfill Hstore]. rewrite Hs in Hstore.
  pose proof (co_laid _ _ _ Hstore Hpos) as Hg. destruct (co_outer _ _ _ Hstore) as (_ & Hit & _).
  pose proof (go_item _ Hg). destruct (go_bytes _ Hg) as [Hcb _]. pose proof (zprod_pos _ (go_chunk _ Hg)).
  assert (zlen (hd_raw d) < two64) as Hraw' by (unfold two64, two63 in *; lia).
  destruct (index_entry _ _ c _ index n Hstore Hsh Hraw' Hb Hn) as (e & He & Hplaced & Hentry).
  pose proof (Hdec n Hn) as Hdn. pose proof (fun b => Hchunk n b Hn) as Hcn. pose proof (Hlen n Hn) as Hln.
  unfold stored_chunk in Hcn, Hdn. rewrite Hb in Hcn, Hdn. cbn [mbind result_bind] in Hcn, Hdn. rewrite He in Hcn, Hdn.
  cbn [expect mbind result_bind] in Hcn, Hdn. unfold Chunked.read_run. rewrite He. cbn [expect pure_step sbind].
  destruct (Z.eqb_spec (ce_addr e) (ce_addr MISSING)) as [Hm|Hm].
  - destruct (Z.eqb_spec (g_itemsize (ck_grid c)) 0); [lia|]. split; [done|left]. cbn [snd].
    rewrite <- (Hcn _ eq_refl). unfold fill_pattern. apply fill_from_slice; try done.
    + intros Hnil. rewrite Hnil in Hfill. cbn in Hfill. lia.
    + rewrite Hcb in Hle. nia.
    + rewrite Hfill, Hit. apply Z.mod_mod. lia.
  - destruct Hentry as [Hnone|(Ha & Hz & Hin & Hsize)]; [by rewrite Hplaced, Hnone in Hm|]. case_bool_decide as Hf.
    + specialize (Hsize Hf). split; [done|left]. cbn [snd]. rewrite wadd_small by (unfold is_u64, two63, two64 in *; lia).
      unfold read_exact in *. rewrite decide_True in Hcn by (right; lia). rewrite decide_True by (right; lia). cbn [map_err].
      cbn [map_err] in Hcn. rewrite <- (Hcn _ eq_refl). by rewrite slice_slice by lia.
    + eapply answers_impl; [|apply (read_into_answers decodes _ _ _ _ _ (chunk n)); try done].
      * intros r ->. exists n. by rewrite Hdec.
      * intros b Hdb. apply Hcn. by rewrite <- Hdn.
      * by rewrite Hln.
Qed.
End Answer.

(** The bytes of a dataset, given its chunks'. *)
Definition dataset_bytes (d : Hdf5Dataset) (chunk : Z -> bytes) : bytes :=
  match hd_storage d with
  | Contiguous offset => slice offset (zprod (hd_shape d) * DType.itemsize (hd_dtype d)) (hd_raw d)
  | Unallocated => fill_pattern (hd_fill d) (zprod (hd_shape d))
  | SChunked c => if decide (0 ∈ hd_shape d) then [] else assemble (ck_grid c) chunk
  end.

(** The failure of one of the dataset's chunks, or of its index. *)
Definition read_failed (d : Hdf5Dataset) (r : result AexError bytes) : Prop :=
  exists c, hd_storage d = SChunked c /\
    ((exists n, 0 <= n < chunk_count c /\ r = stored_chunk d c n) \/
     r = (index ← Chunked.build_index c (hd_raw d); Ok [])).

Definition chunks_are (d : Hdf5Dataset) (chunk : Z -> bytes) : Prop :=
  forall c n, hd_storage d = SChunked c -> 0 <= n < chunk_count c ->
    zlen (chunk n) = chunk_bytes (ck_grid c) /\ forall b, stored_chunk d c n = Ok b -> b = chunk n.

Definition decodes_chunks (d : Hdf5Dataset) (decodes : ChunkKey -> result AexError bytes) : Prop :=
  forall c n, hd_storage d = SChunked c -> 0 <= n < chunk_count c -> decodes (ck_cache_key c, n) = stored_chunk d c n.

Lemma dataset_bytes_length d chunk :
  hdf5_ok d -> chunks_are d chunk -> zlen (dataset_bytes d chunk) = zprod (hd_shape d) * DType.itemsize (hd_dtype d).
Proof.
  intros [Hs Hf Hst] Hc. pose proof (zprod_nonneg _ Hs). pose proof (itemsize_pos (hd_dtype d)).
  unfold dataset_bytes. unfold chunks_are in Hc. destruct (hd_storage d) as [offset| |c].
  - rewrite length_slice; [done|lia|nia|lia].
  - unfold fill_pattern. rewrite length_pattern. nia.
  - case_decide as Hz; [by rewrite (zprod_zero _ Hz)|]. destruct (some_or_none _ Hs) as [|Hpos]; [done|].
    pose proof (co_laid _ _ _ Hst Hpos) as Hg. destruct (co_outer _ _ _ Hst) as (<- & <- & _). apply length_assemble; [done|].
    intros n Hn. by apply (Hc c n).
Qed.

(** The index a read works on is the one that would be built, kept for the reads after. *)
Lemma index_kept d c decodes k :
  hd_storage d = SChunked c -> kept d decodes k ->
  exists once, Chunked.index c (hd_raw d) (k_index k) = (once, Chunked.build_index c (hd_raw d)) /\
    forall cache, holds decodes cache -> kept d decodes {| k_cache := cache; k_index := once |}.
Proof.
  intros Hs [Hc Hi]. unfold Chunked.index. destruct (k_index k) as [index|] eqn:Hk.
  - destruct (Hi index eq_refl) as (c' & Hs' & Hb). assert (c' = c) as -> by congruence. rewrite Hb.
    exists (Some index). split; [done|]. intros cache Hh. split; [done|]. intros ? [= <-]. by exists c.
  - destruct (Chunked.build_index c (hd_raw d)) as [index| |] eqn:Hb; eexists; (split; [done|]); intros cache Hh;
      (split; [done|]); intros ? [= <-]. by exists c.
Qed.

Lemma chunked_dataset_answers shared d c decodes chunk k at_ len :
  hdf5_ok d -> hd_storage d = SChunked c -> zlen (hd_raw d) < two63 ->
  zprod (hd_shape d) * DType.itemsize (hd_dtype d) < two63 ->
  decodes_chunks d decodes -> chunks_are d chunk -> kept d decodes k ->
  0 <= at_ -> 0 <= len -> at_ + len <= zprod (hd_shape d) * DType.itemsize (hd_dtype d) ->
  answers (kept d decodes) (read_failed d) (slice at_ len (dataset_bytes d chunk))
    (Chunked.read shared c (hd_raw d) (hd_fill d) k at_ len).
Proof.
  intros Hd Hs Hraw Hfit Hdec Hchunk Hk Hat Hl Hle. pose proof (dataset_bytes_length d chunk Hd Hchunk) as Hdl.
  pose proof (itemsize_small (hd_dtype d)) as Hsmall. pose proof (ho_storage _ Hd) as Hst. rewrite Hs in Hst.
  destruct (co_outer _ _ _ Hst) as (Hsh & Hit & _).
  unfold Chunked.read. destruct (index_kept d c decodes k Hs Hk) as (once & -> & Hkept).
  destruct (Chunked.build_index c (hd_raw d)) as [index|e|] eqn:Hb.
  2, 3: split; [by apply Hkept, Hk|right]; split; [done|]; exists c; split; [done|right]; by rewrite Hb.
  cbn [sbind k_cache k_index]. destruct (some_or_none _ (ho_shape _ Hd)) as [Hz|Hpos].
  - rewrite (zprod_zero _ Hz) in Hle. assert (at_ = 0 /\ len = 0) as [-> ->] by lia.
    unfold ChunkGrid.walk. rewrite bool_decide_eq_false_2 by (rewrite Hsh; intros Hn; rewrite Hn in Hz; by apply elem_of_nil in Hz).
    destruct (Z.eqb_spec (g_itemsize (ck_grid c)) 0); [lia|]. cbn [Z.to_nat ChunkGrid.walk_loop Z.eqb].
    split; [by apply Hkept, Hk|by left].
  - pose proof (co_laid _ _ _ Hst Hpos) as Hg.
    assert (dataset_bytes d chunk = assemble (ck_grid c) chunk) as Hab.
    { unfold dataset_bytes. rewrite Hs, decide_False; [done|]. intros Hz. rewrite Forall_forall in Hpos. by specialize (Hpos 0 Hz). }
    pose proof (run_answers shared d c Hd Hs Hraw Hpos decodes (fun n Hn => Hdec c n Hs Hn) chunk
      (fun n Hn => proj1 (Hchunk c n Hs Hn)) (fun n b Hn => proj2 (Hchunk c n Hs Hn) b) index Hb) as Hans.
    apply (walk_answers _ _ (ck_grid c) (dataset_bytes d chunk) chunk _ (k_cache k) at_ len) in Hans;
      [|done|rewrite Hit; lia|by rewrite Hsh, Hit|lia| |apply Hk|done|done|lia].
    + destruct (ChunkGrid.walk _ _ _ _ _) as [cache r]. destruct Hans as [HI [Ho|[Hno Hf]]]; (split; [by apply Hkept|]); [by left|right].
      split; [done|]. exists c. split; [done|]. by left.
    + rewrite Hab. apply assemble_tiled; [done|]. intros n Hn. by apply (Hchunk c n Hs).
Qed.

(** A read of any dataset. *)
Lemma dataset_answers shared d decodes chunk k at_ len :
  hdf5_ok d -> zlen (hd_raw d) < two63 -> zprod (hd_shape d) * DType.itemsize (hd_dtype d) < two63 ->
  decodes_chunks d decodes -> chunks_are d chunk -> kept d decodes k ->
  0 <= at_ -> 0 <= len -> at_ + len <= zprod (hd_shape d) * DType.itemsize (hd_dtype d) ->
  answers (kept d decodes) (read_failed d) (slice at_ len (dataset_bytes d chunk))
    (Hdf5Dataset.read_src shared d k at_ len).
Proof.
  intros Hd Hraw Hfit Hdec Hchunk Hk Hat Hl Hle. unfold Hdf5Dataset.read_src.
  destruct (hd_storage d) as [base| |c] eqn:Hs; [| |by apply chunked_dataset_answers].
  - pose proof (ho_storage _ Hd) as Hst. rewrite Hs in Hst. split; [done|left]. unfold dataset_bytes. rewrite Hs.
    cbn [snd]. rewrite wadd_small by (unfold is_u64, two63, two64 in *; lia). unfold read_exact.
    rewrite decide_True by (right; lia). cbn [map_err]. by rewrite slice_slice by lia.
  - split; [done|left]. unfold dataset_bytes. rewrite Hs. cbn [snd]. unfold fill_pattern.
    pose proof (zprod_nonneg _ (ho_shape _ Hd)). pose proof (itemsize_pos (hd_dtype d)). pose proof (ho_fill _ Hd) as Hf.
    apply fill_from_slice; try done; [|nia]. intros Hn. rewrite Hn in Hf. cbn in Hf. lia.
Qed.
End Read.

(** ** Opening a dataset *)

Lemma new_chunked_ok ds dtype cs filters cache cache' c :
  h5_typed ds -> Forall is_u64 cs -> Chunked.new ds (h_shape ds) dtype cs filters cache = (cache', Ok c) ->
  chunked_ok (h_shape ds) dtype c /\ ck_dataset c = ds /\ ck_filters c = filters /\
  DecodeCache.new_key cache = (ck_cache_key c, cache') /\ Chunks.chunk_shape (ck_grid c) = cs.
Proof.
  intros Ht Hcs. unfold Chunked.new. destruct (ChunkGrid.new _ _ _) as [g|] eqn:Hg; [|done].
  destruct (_ <? _); [done|]. destruct (DecodeCache.new_key cache) as [key cache''] eqn:Hk. intros [= <- <-].
  assert (Forall (fun s => 0 <= s) cs) as Hcs' by (eapply Forall_impl; [exact Hcs|]; unfold is_u64; intros; lia).
  pose proof (new_grid_outer _ _ _ _ Hcs' Hg) as Ho. cbn [ck_dataset ck_filters ck_cache_key ck_grid].
  assert (Chunks.chunk_shape g = cs) as Hgc.
  { revert Hg. unfold ChunkGrid.new. destruct (_ || _); [done|]. destruct (checked_product 1 _); [|done].
    by destruct (checked_product _ _); [|done]; intros [= <-]. }
  split; [|done]. pose proof (itemsize_small dtype). unfold SPAN_GAP_BYTES in *. split; cbn [ck_grid ck_dataset].
  - done.
  - intros Hpos. destruct (new_grid_ok _ _ (DType.itemsize dtype) g Hpos Hcs' ltac:(unfold two64; lia) Hg) as (Hgo & _). done.
  - pose proof (ht_chunks _ Ht) as Hl. eapply Forall_impl; [exact Hl|]. intros ci (Hr & Hoff & Ha & Hs).
    unfold chunk_typed. cbn [ck_grid]. destruct Ho as (_ & _ & _ & -> & _). repeat split; try done; try apply Ha; try apply Hs.
    eapply Forall_impl; [exact Hoff|]. unfold is_u64. intros. lia.
Qed.

Lemma describe_ok ds dtype data_len :
  h5_typed ds -> Hdf5Dataset.describe ds = Ok (dtype, data_len) ->
  data_len = zprod (h_shape ds) * DType.itemsize dtype /\
  exists dt, h_dtype ds = Some dt /\ dtype_of dt = Some dtype.
Proof.
  intros Ht. unfold Hdf5Dataset.describe. intros (dt & Hdt & Hd)%bind_ok. apply ok_or_ok in Hdt.
  apply bind_ok in Hd as (dtype' & Hty & Hd). apply ok_or_ok in Hty. apply bind_ok in Hd as (null & _ & Hd).
  destruct null; [done|]. apply bind_ok in Hd as (n & Hn & Hd). apply ok_or_ok in Hn.
  destruct (negb (h_dcpl ds)); [done|]. destruct (h_external ds); [done|]. injection Hd as <- <-.
  split; [|by exists dt]. pose proof (itemsize_pos dtype').
  apply checked_product_spec in Hn as [-> _]; [lia|lia|].
  eapply Forall_impl; [apply (ht_shape _ Ht)|]. unfold is_u64. intros. lia.
Qed.

Lemma fill_value_length ds dtype fill :
  h5_typed ds -> (exists dt, h_dtype ds = Some dt /\ dtype_of dt = Some dtype) -> fill_value ds dtype = Ok fill ->
  zlen fill = DType.itemsize dtype.
Proof.
  intros Ht (dt & Hdt & Hty). unfold fill_value. pose proof (itemsize_pos dtype). destruct (h_fill_undefined ds).
  - intros [= <-]. rewrite length_replicate. lia.
  - intros (dt' & _ & Hf%ok_or_ok)%bind_ok. by eapply (ht_fill _ Ht dt dtype).
Qed.

(** Every dataset [open] makes is laid out well. *)
Lemma open_ok ds raw cache cache' d :
  h5_typed ds -> Hdf5Dataset.open ds raw cache = (cache', Ok d) ->
  hdf5_ok d /\ hd_raw d = raw /\ hd_shape d = h_shape ds /\
  forall c, hd_storage d = SChunked c ->
    ck_dataset c = ds /\ ck_filters c = h_filters ds /\ DecodeCache.new_key cache = (ck_cache_key c, cache') /\
    h_chunk ds = Some (Chunks.chunk_shape (ck_grid c)).
Proof.
  intros Ht. unfold Hdf5Dataset.open. destruct (Hdf5Dataset.describe ds) as [[dtype n]| |] eqn:Hde; [|done..].
  apply describe_ok in Hde as [-> Hty]; [|done]. cbn [pure_step sbind].
  destruct (Hdf5Dataset.storage_of _ _ _ _) as [c1 storage] eqn:Hst. destruct storage as [storage| |]; [|done..]. cbn [sbind].
  intros [= <- Ho]. apply bind_ok in Ho as ([] & Hext & (fill & Hfill & [= <-])%bind_ok).
  apply fill_value_length in Hfill; [|done|done]. cbn [hd_raw hd_shape hd_storage].
  assert (Forall (fun k => 0 <= k) (h_shape ds)) as Hs
    by (eapply Forall_impl; [apply (ht_shape _ Ht)|]; unfold is_u64; intros; lia).
  unfold Hdf5Dataset.storage_of in Hst.
  assert ((match storage with SChunked c => chunked_ok (h_shape ds) dtype c /\ ck_dataset c = ds /\
      ck_filters c = h_filters ds /\ DecodeCache.new_key cache = (ck_cache_key c, c1) /\
      h_chunk ds = Some (Chunks.chunk_shape (ck_grid c))
    | Contiguous o => is_u64 o | Unallocated => True end)) as Hsto.
  { destruct (h_layout ds); [| |done].
    - injection Hst as <- <-. destruct (h_offset ds) eqn:Ho; [|done]. by apply (ht_offset _ Ht).
    - destruct (h_chunk ds) as [cs|] eqn:Hc; [|done]. destruct (existsb _ _); [done|].
      destruct (Chunked.new _ _ _ _ _ _) as [c2 [c| |]] eqn:Hn; [|done..]. cbn in Hst. injection Hst as <- <-.
      destruct (new_chunked_ok _ _ _ _ _ _ _ Ht (ht_chunk _ Ht cs Hc) Hn) as (? & ? & ? & ? & <-). done. }
  split.
  - split; cbn [hd_shape hd_fill hd_storage hd_raw hd_dtype]; [done|done|]. destruct storage as [o| |c]; [|done|apply Hsto].
    unfold Hdf5Dataset.check_extent in Hext. destruct (checked_add o _) as [e|] eqn:He; [|done].
    apply checked_add_some in He as [-> _]. destruct (Z.ltb_spec (zlen raw) (o + zprod (h_shape ds) * DType.itemsize dtype)); [done|].
    unfold is_u64 in Hsto. lia.
  - split; [done|]. split; [done|]. intros c ->. tauto.
Qed.

(** ** What is served *)

Section Serve.
Context `{FlateLib, HalfLib, Build}.

(** A dataset as a transfer reads it: what is kept when each range is asked for is whatever
    the reads of every connection left. *)
Record Hdf5Reader : Type := {
  hr_dataset : Hdf5Dataset;
  hr_shared : ChunkKey -> bool;
  hr_kept : Z -> Z -> Kept;
}.

Definition read_range (r : Hdf5Reader) (l : SelectionLayout) (offset : Z) (dst : bytes) : result AexError bytes :=
  SelectionLayout.read_with (fun at_ len =>
    (Hdf5Dataset.read_src (hr_shared r) (hr_dataset r) (hr_kept r at_ len) at_ len).2) l offset dst.

#[export] Instance hdf5_dataset : ArrayDataset Hdf5Reader := {|
  ds_dtype r := hd_dtype (hr_dataset r);
  ds_shape r := hd_shape (hr_dataset r);
  ds_read_range := read_range;
|}.

(** An open dataset all of whose chunks are where the index says and decode. *)
Record hdf5_open (r : Hdf5Reader) (chunk : Z -> bytes) : Prop := {
  hop_dataset : hdf5_ok (hr_dataset r);
  hop_file : zlen (hd_raw (hr_dataset r)) < two63;
  hop_fits : zprod (hd_shape (hr_dataset r)) * DType.itemsize (hd_dtype (hr_dataset r)) < two63;
  hop_chunks c : hd_storage (hr_dataset r) = SChunked c ->
    (exists index, Chunked.build_index c (hd_raw (hr_dataset r)) = Ok index) /\
    forall n, 0 <= n < chunk_count c ->
      stored_chunk (hr_dataset r) c n = Ok (chunk n) /\ zlen (chunk n) = chunk_bytes (ck_grid c);
  hop_kept at_ len : exists decodes, kept (hr_dataset r) decodes (hr_kept r at_ len) /\ decodes_chunks (hr_dataset r) decodes;
}.

Lemma open_serves r chunk : hdf5_open r chunk -> serves r (dataset_bytes (hr_dataset r) chunk).
Proof.
  intros [Hd Hraw Hfit Hc Hk]. set (d := hr_dataset r) in *.
  assert (chunks_are d chunk) as Hare.
  { intros c n Hs Hn. destruct (proj2 (Hc c Hs) n Hn) as [Hst Hl]. split; [done|]. intros b Hb. congruence. }
  pose proof (dataset_bytes_length d chunk Hd Hare) as Hl.
  eapply (serves_read_with _ _ (fun at_ len => (Hdf5Dataset.read_src (hr_shared r) d (hr_kept r at_ len) at_ len).2));
    [apply Hd|done|by rewrite Hl| |done].
  intros at_ len Hat Hlen Hle. rewrite Hl in Hle. destruct (Hk at_ len) as (decodes & Hkept & Hdec).
  destruct (dataset_answers (hr_shared r) d decodes chunk (hr_kept r at_ len) at_ len) as [_ [Ho|[Hno (c & Hs & Hf)]]]; try done.
  destruct (Hc c Hs) as [[index Hi] Hst]. destruct Hf as [(n & Hn & Hr)|Hr].
  - destruct (Hst n Hn) as [Hok _]. rewrite Hok in Hr. by destruct (Hno (chunk n)).
  - rewrite Hi in Hr. by destruct (Hno []).
Qed.

(** What chunk [n] holds, when it decodes. *)
Definition loaded_chunk (d : Hdf5Dataset) (n : Z) : bytes :=
  match hd_storage d with
  | SChunked c => match stored_chunk d c n with Ok b => b | _ => [] end
  | _ => []
  end.

#[export] Program Instance hdf5_served : Served Hdf5Reader := {|
  ds_open r := hdf5_open r (loaded_chunk (hr_dataset r));
  contents r := dataset_bytes (hr_dataset r) (loaded_chunk (hr_dataset r));
|}.
Next Obligation. intros r Hr. apply (ho_shape _ (hop_dataset _ _ Hr)). Qed.
Next Obligation.
  intros r [Hd Hraw Hfit Hc Hk].
  rewrite dataset_bytes_length; [by split|done|]. intros c n Hs Hn.
  destruct (proj2 (Hc c Hs) n Hn) as [Hst Hl]. split; [done|]. intros b Hb. congruence.
Qed.
Next Obligation. intros r Hr. by apply open_serves. Qed.
End Serve.
