(* ===== verification/Hdf5Serves.v ===== *)
(** The HDF5 backend's guarantees: what a file holds is what is served, the filters of a chunk
    come undone, a chunk out of place or that does not decode is an error and never bytes. *)
From stdpp Require Import strings gmap.
From S2P Require Import Prelude Errors Dtype Bytes Quality Selection SelectionSpec Cast Layout LayoutSpec Chunks DecodeCache ChunkStore Text Backend Hdf5 Hdf5Spec Hdf5Correct.

Section Datasets.
Context `{FlateLib, HalfLib, Build}.

(** C17: a read of an HDF5 dataset that opened, whatever the shared cache holds:
    exactly the asked range of its bytes (its run of the file, its fill value, or its chunks
    put together, a chunk never written standing for the fill value), or the very failure of
    one of its chunks or of its index.  No chunk that does not decode is ever answered for. *)
Theorem hdf5_read_correct ds raw cache cache' d shared decodes chunk k at_ len :
  h5_typed ds -> Hdf5Dataset.open ds raw cache = (cache', Ok d) -> zlen raw < two63 ->
  zprod (h_shape ds) * DType.itemsize (hd_dtype d) < two63 ->
  decodes_chunks d decodes -> chunks_are d chunk -> kept d decodes k ->
  0 <= at_ -> 0 <= len -> at_ + len <= zprod (h_shape ds) * DType.itemsize (hd_dtype d) ->
  let '(k', answer) := Hdf5Dataset.read_src shared d k at_ len in
  kept d decodes k' /\
  (answer = Ok (slice at_ len (dataset_bytes d chunk)) \/ (forall b, answer <> Ok b) /\ read_failed d answer).
Proof.
  intros Ht Ho Hraw Hfit Hdec Hchunk Hk Hat Hl Hle. destruct (open_ok _ _ _ _ _ Ht Ho) as (Hd & <- & Hs & _).
  rewrite <- Hs in *.
  destruct (dataset_answers shared d decodes chunk k at_ len) as [HI Hr]; try done.
  destruct (Hdf5Dataset.read_src _ _ _ _ _) as [k' answer]. by split.
Qed.

(** A chunk of [ds] was written: filtered, and where the last listing of it says. *)
Definition chunk_written `{!FlateWriter} (d : Hdf5Dataset) (c : Chunked) (n : Z) (b : bytes) : Prop :=
  match placed c (h_chunks (ck_dataset c)) n with
  | None => b = fill_pattern (hd_fill d) (zprod (Chunks.chunk_shape (ck_grid c)))
  | Some e => zlen b = chunk_bytes (ck_grid c) /\
      exists old, slice (ce_addr e) (ce_size e) (hd_raw d) = filtered c old (ce_mask e) b /\
        filters_fit (ck_grid c) old (ce_mask e) b (imap pair (ck_filters c))
  end.

Lemma written_chunk `{!FlateWriter} d c n b :
  hdf5_ok d -> hd_storage d = SChunked c -> Forall (fun n => 0 < n) (hd_shape d) -> zlen (hd_raw d) < two63 ->
  Forall (well_placed c (hd_raw d)) (h_chunks (ck_dataset c)) -> h_visit (ck_dataset c) false = true ->
  0 <= n < chunk_count c -> chunk_written d c n b ->
  stored_chunk d c n = Ok b /\ zlen b = chunk_bytes (ck_grid c).
Proof.
  intros Hd Hs Hpos Hraw Hw Hv Hn Hb. pose proof (ho_storage _ Hd) as Hst. rewrite Hs in Hst.
  assert (zlen (hd_raw d) < two64) as Hraw' by (unfold two63, two64 in *; lia).
  pose proof (dataset_index _ _ c (hd_raw d) Hst (ho_shape _ Hd) Hraw') as Hix. rewrite decide_True in Hix by done.
  destruct (index_entry _ _ _ _ _ n Hst (ho_shape _ Hd) Hraw' Hix Hn) as (e & He & Hplaced & Hentry).
  unfold stored_chunk. rewrite Hix. cbn [mbind result_bind]. rewrite He. cbn [expect mbind result_bind].
  unfold chunk_written in Hb. pose proof (co_laid _ _ _ Hst Hpos) as Hg. destruct (go_bytes _ Hg) as [Hcb _].
  destruct (placed c _ n) as [e'|]; cbn [default id from_option] in Hplaced; subst e.
  - destruct Hb as (Hl & old & Hfile & Hfit). split; [|done].
    destruct Hentry as [|(Ha & Hz & Hin & Hsize)]; [done|].
    destruct (Z.eqb_spec (ce_addr e') (ce_addr MISSING)) as [Hm|_]; [cbn in Hm; unfold two63, two64 in *; lia|].
    case_bool_decide as Hf; [|by eapply decode_filtered].
    unfold read_exact. rewrite <- (Hsize Hf), decide_True by (right; lia). rewrite Hfile. unfold filtered.
    by rewrite Hf.
  - rewrite Z.eqb_refl. split; [by rewrite Hb|]. pose proof (ho_fill _ Hd). rewrite Hb. unfold fill_pattern. rewrite length_pattern.
    destruct (co_outer _ _ _ Hst) as (_ & Hit & _). pose proof (zprod_pos _ (go_chunk _ Hg)). nia.
Qed.

(** C16: an HDF5 file that was written as the format says is served as it was
    written, whenever what each [deflate] was given, after the filters before it, is no
    longer than a chunk ([filters_fit]), which leaves out a checksum put before [deflate],
    and no filter but the three is applied.  Every range of every selection of a dataset
    that opened, of under 2^63 bytes and with no empty axis, reads back the written elements: contiguous, never allocated, or in
    chunks through such a pipeline, some of its filters skipped for some chunks, with
    whatever earlier reads left in the cache. *)
Theorem hdf5_store_serves `{!FlateWriter} ds raw cache cache' d shared moment chunk :
  h5_typed ds -> Hdf5Dataset.open ds raw cache = (cache', Ok d) -> zlen raw < two63 ->
  zprod (h_shape ds) * DType.itemsize (hd_dtype d) < two63 -> Forall (fun n => 0 < n) (h_shape ds) ->
  (forall c, hd_storage d = SChunked c ->
    Forall (well_placed c raw) (h_chunks ds) /\ h_visit ds false = true /\
    forall n, 0 <= n < chunk_count c -> chunk_written d c n (chunk n)) ->
  (forall at_ len, exists decodes, kept d decodes (moment at_ len) /\ decodes_chunks d decodes) ->
  serves {| hr_dataset := d; hr_shared := shared; hr_kept := moment |} (dataset_bytes d chunk).
Proof.
  intros Ht Ho Hraw Hfit Hpos Hw Hk. destruct (open_ok _ _ _ _ _ Ht Ho) as (Hd & Hr & Hs & Hc).
  apply (open_serves {| hr_dataset := d; hr_shared := shared; hr_kept := moment |}).
  subst raw. rewrite <- Hs in *. split; cbn [hr_dataset hr_kept]; try done.
  intros c Hst. destruct (Hw c Hst) as (Hp & Hv & Hwr). destruct (Hc c Hst) as (Hcd & _). rewrite <- Hcd in Hp, Hv. split.
  - pose proof (ho_storage _ Hd) as Hsto. rewrite Hst in Hsto.
    rewrite (dataset_index _ _ c (hd_raw d) Hsto (ho_shape _ Hd)) by (unfold two63, two64 in *; lia).
    rewrite decide_True by done. by eexists.
  - intros n Hn. apply written_chunk; try done. by apply Hwr.
Qed.
End Datasets.

(** *** A file of one dataset: two chunks, the second never written *)

#[local] Existing Instance demo_build.
#[local] Existing Instance demo_half.

(** A compressor that marks what it wrote. *)
#[local] Instance demo_flate : FlateLib := {|
  zlib := fun b n => match b with 120 :: b => Some (take (Z.to_nat n) b) | _ => None end |}.
#[local, program] Instance demo_flate_writer : FlateWriter := {| deflate := cons 120 |}.
Next Obligation. done. Qed.

Definition demo_stored : bytes := [120; 1; 2; 0; 0] ++ to_le_bytes 4 (fletcher32 [120; 1; 2; 0; 0]).
Definition demo_raw : bytes := [137; 72; 68; 70] ++ demo_stored.

(** Four 16-bit numbers in chunks of two, shuffled, deflated and summed; seven is the fill. *)
Definition demo_hdf5 : H5Dataset := {|
  h_dtype := Some {| descriptor := Some (TInteger I2); desc_size := 2; little_endian := true |};
  h_null_space := Some false; h_shape := [4]; h_dcpl := true; h_external := false;
  h_layout := LChunked; h_offset := None; h_chunk := Some [2]; h_filters := [Shuffle; Deflate; Fletcher32];
  h_fill_undefined := false; h_fill := Some [7; 0];
  h_chunks := [{| ci_offset := [0]; ci_addr := 4; ci_size := 9; ci_filter_mask := 0 |};
               {| ci_offset := [4]; ci_addr := 900; ci_size := 9; ci_filter_mask := 0 |}];
  h_visit := negb |}.

Lemma demo_typed : h5_typed demo_hdf5.
Proof.
  split.
  - repeat constructor; unfold is_u64; lia.
  - intros cs [= <-]. repeat constructor; unfold is_u64; lia.
  - done.
  - repeat constructor; unfold is_u64; cbn; lia.
  - by intros dt dtype b [= <-] [= <-] [= <-].
Qed.

Definition demo_dataset : Hdf5Dataset :=
  match (Hdf5Dataset.open demo_hdf5 demo_raw (DecodeCache.new 100)).2 with
  | Ok d => d
  | _ => {| hd_raw := []; hd_dtype := Int16; hd_shape := []; hd_storage := Unallocated; hd_fill := [] |}
  end.
Definition demo_chunked : Chunked :=
  match hd_storage demo_dataset with
  | SChunked c => c
  | _ => {| ck_dataset := demo_hdf5; ck_grid := demo_grid; ck_filters := []; ck_cache_key := 0 |}
  end.

(** Nothing read yet. *)
Definition demo_unread : Kept := {| k_cache := DecodeCache.new 100; k_index := None |}.
Definition demo_decodes (key : ChunkKey) : result AexError bytes := stored_chunk demo_dataset demo_chunked key.2.

Lemma demo_dataset_kept : kept demo_dataset demo_decodes demo_unread.
Proof. split; [|done]. apply holds_empty. unfold two63. lia. Qed.

Lemma demo_storage : hd_storage demo_dataset = SChunked demo_chunked.
Proof. vm_compute. reflexivity. Qed.

Lemma demo_decodes_ok : decodes_chunks demo_dataset demo_decodes.
Proof. intros c n. rewrite demo_storage. by intros [= <-] _. Qed.

Definition demo_chunk (n : Z) : bytes := if decide (n = 0) then [1; 0; 2; 0] else [7; 0; 7; 0].

Lemma demo_stored_chunk n : 0 <= n < 2 -> stored_chunk demo_dataset demo_chunked n = Ok (demo_chunk n).
Proof. intros Hn. assert (n = 0 \/ n = 1) as [->| ->] by lia; vm_compute; reflexivity. Qed.

Lemma hdf5_read_correct_witness :
  (Hdf5Dataset.read_src (fun _ => false) demo_dataset demo_unread 1 5).2 = Ok [0; 2; 0; 7; 0] /\
  let '(k', answer) := Hdf5Dataset.read_src (fun _ => false) demo_dataset demo_unread 1 5 in
  kept demo_dataset demo_decodes k' /\
  (answer = Ok (slice 1 5 (dataset_bytes demo_dataset demo_chunk)) \/
   (forall b, answer <> Ok b) /\ read_failed demo_dataset answer).
Proof.
  split; [vm_compute; reflexivity|].
  apply (hdf5_read_correct demo_hdf5 demo_raw (DecodeCache.new 100) (DecodeCache.new_key (DecodeCache.new 100)).2 demo_dataset);
    [exact demo_typed|vm_compute; reflexivity|vm_compute; reflexivity|vm_compute; reflexivity|exact demo_decodes_ok| |
     exact demo_dataset_kept|lia|lia|vm_compute; discriminate].
  intros c n. rewrite demo_storage. intros [= <-] Hn. change (chunk_count demo_chunked) with 2 in Hn. split.
  - assert (n = 0 \/ n = 1) as [->| ->] by lia; reflexivity.
  - intros b. rewrite demo_stored_chunk by done. by intros [= <-].
Defined.

Lemma hdf5_store_serves_witness :
  serves {| hr_dataset := demo_dataset; hr_shared := fun _ => false; hr_kept := fun _ _ => demo_unread |}
    [1; 0; 2; 0; 7; 0; 7; 0].
Proof.
  assert ([1; 0; 2; 0; 7; 0; 7; 0] = dataset_bytes demo_dataset demo_chunk) as -> by (vm_compute; reflexivity).
  apply (hdf5_store_serves demo_hdf5 demo_raw (DecodeCache.new 100) (DecodeCache.new_key (DecodeCache.new 100)).2 demo_dataset);
    [exact demo_typed|vm_compute; reflexivity|vm_compute; reflexivity|vm_compute; reflexivity|repeat constructor; lia| |].
  - intros c. rewrite demo_storage. intros [= <-]. split; [|split; [reflexivity|]].
    + apply Forall_cons_2; [|apply Forall_cons_2; [|by apply Forall_nil_2]].
      * right. split; [vm_compute; discriminate|by left].
      * left. vm_compute. reflexivity.
    + intros n Hn. change (chunk_count demo_chunked) with 2 in Hn. assert (n = 0 \/ n = 1) as [->| ->] by lia.
      * unfold chunk_written. assert (placed demo_chunked (h_chunks (ck_dataset demo_chunked)) 0 =
          Some {| ce_addr := 4; ce_size := 9; ce_mask := 0 |}) as -> by (vm_compute; reflexivity).
        split; [reflexivity|]. exists false. split; [vm_compute; reflexivity|]. cbn. repeat split; right; done.
      * unfold chunk_written. assert (placed demo_chunked (h_chunks (ck_dataset demo_chunked)) 1 = None) as -> by (vm_compute; reflexivity).
        vm_compute. reflexivity.
  - intros _ _. exists demo_decodes. split; [exact demo_dataset_kept|exact demo_decodes_ok].
Defined.

(** ** The index *)

(** The chunk index of a dataset is exactly what libhdf5 lists: every chunk is
    where its last listing says, one never listed reads as the fill value, those outside the
    array are ignored; one chunk outside the file, or of a wrong size with no filter to
    explain it, and the whole index is refused.  It never panics, whatever is listed. *)
Theorem chunk_index_built ds dtype cs filters cache cache' c raw :
  h5_typed ds -> Forall is_u64 cs -> Chunked.new ds (h_shape ds) dtype cs filters cache = (cache', Ok c) ->
  zlen raw < two64 ->
  Chunked.build_index c raw =
    if decide (Forall (well_placed c raw) (h_chunks ds) /\ h_visit ds false = true)
    then Ok ((fun n => default MISSING (placed c (h_chunks ds) n)) <$> seqZ 0 (ChunkGrid.chunks (ck_grid c)))
    else Err MalformedHdf5.
Proof.
  intros Ht Hcs Hn Hraw. destruct (new_chunked_ok _ _ _ _ _ _ _ Ht Hcs Hn) as (Hc & <- & _).
  assert (Forall (fun n => 0 <= n) (h_shape (ck_dataset c))) as Hs
    by (eapply Forall_impl; [apply (ht_shape _ Ht)|]; unfold is_u64; intros; lia).
  rewrite (dataset_index _ _ c raw Hc Hs Hraw). by destruct (chunked_count _ _ c Hc Hs) as (-> & _).
Qed.

Lemma chunk_index_built_witness :
  Chunked.build_index demo_chunked demo_raw = Ok [{| ce_addr := 4; ce_size := 9; ce_mask := 0 |}; MISSING] /\
  Chunked.build_index demo_chunked [1; 2; 3] = Err MalformedHdf5.
Proof.
  pose proof (chunk_index_built demo_hdf5 Int16 [2] [Shuffle; Deflate; Fletcher32] (DecodeCache.new 100)
    (DecodeCache.new_key (DecodeCache.new 100)).2 demo_chunked) as Hb.
  split; (rewrite Hb; [|exact demo_typed|repeat constructor; unfold is_u64; lia|vm_compute; reflexivity|vm_compute; reflexivity]);
    vm_compute; reflexivity.
Defined.

(** ** The filters *)

(** A chunk stored through any pipeline of shuffle, deflate and fletcher32,
    with any of them skipped as its mask says, decodes to the chunk, its checksum in either
    byte order, whatever was in the buffer the cache lent; and what is decoded is always a
    whole chunk. *)
Theorem filters_undo `{FlateLib, !FlateWriter} c raw entry old b spare :
  filters_fit (ck_grid c) old (ce_mask entry) b (imap pair (ck_filters c)) -> zlen b = chunk_bytes (ck_grid c) ->
  ce_addr entry + ce_size entry <= zlen raw ->
  slice (ce_addr entry) (ce_size entry) raw = filtered c old (ce_mask entry) b ->
  Chunked.decode c raw entry spare = Ok b /\
  forall raw' entry' b', Chunked.decode c raw' entry' spare = Ok b' -> zlen b' = chunk_bytes (ck_grid c).
Proof.
  intros Hf Hl Hin Hs. split; [by eapply decode_filtered|]. intros raw' entry' b'. unfold Chunked.decode.
  intros (x & _ & (y & _ & Hy)%bind_ok)%bind_ok. by destruct (Z.eqb_spec (zlen y) (chunk_bytes (ck_grid c))); [injection Hy as <-|].
Qed.

Lemma filters_undo_witness :
  Chunked.decode demo_chunked demo_raw {| ce_addr := 4; ce_size := 9; ce_mask := 0 |} [9; 9] = Ok [1; 0; 2; 0].
Proof.
  refine (proj1 (filters_undo demo_chunked demo_raw _ false [1; 0; 2; 0] [9; 9] _ _ _ _));
    [cbn; repeat split; right; done|reflexivity|vm_compute; discriminate|vm_compute; reflexivity].
Defined.

(** The checksum is Fletcher's.  For any bytes, summing 32-bit words in blocks of
    360 and folding the carries never overflows, and ends with the two sums, of the words and
    of the sums so far, computed without bounds and their carries added back in; a chunk is
    accepted under that sum, or under it with its halves swapped, and under nothing else. *)
Theorem fletcher32_exact data :
  Forall is_u8 data ->
  fletcher32 data = ones16 (sums 0 0 (words16 data)).2 * 65536 + ones16 (sums 0 0 (words16 data)).1 /\
  forall stored, is_u32 stored ->
    strip_fletcher32 (data ++ to_le_bytes 4 stored) =
    if decide (stored = fletcher32 data \/ stored = swapped (fletcher32 data)) then Some data else None.
Proof.
  intros Hd. split; [by apply fletcher32_spec|]. intros stored Hs. unfold strip_fletcher32.
  rewrite length_app, length_to_le_bytes.
  assert (checked_sub (Z.of_nat (length data + 4)) 4 = Some (zlen data)) as -> by (apply checked_sub_some; lia).
  cbn [mbind option_bind]. rewrite Nat2Z.id, take_app_length, drop_app_length, from_to_le_u32 by done.
  destruct (Z.eqb_spec stored (fletcher32 data)); [by rewrite decide_True by by left|].
  destruct (Z.eqb_spec stored (swapped (fletcher32 data))); [by rewrite decide_True by by right|].
  rewrite decide_False; [done|]. by intros [].
Qed.

Lemma fletcher32_exact_witness :
  fletcher32 (replicate 1000 255) = 65535 * 65536 + 65535 /\
  strip_fletcher32 [1; 2; 3; 2; 4; 5; 6] = None.
Proof.
  split.
  - rewrite (proj1 (fletcher32_exact (replicate 1000 255) ltac:(apply Forall_replicate; unfold is_u8; lia))).
    vm_compute. reflexivity.
  - refine (proj2 (fletcher32_exact [1; 2; 3] ltac:(repeat constructor; unfold is_u8; lia)) 100992002 _). unfold is_u32, two32. lia.
Defined.

(** ** Types *)

(** A descriptor says how large its type is. *)
Definition sized (d : Datatype) : Prop :=
  match descriptor d with
  | Some (TInteger I1 | TUnsigned I1 | TBoolean) => desc_size d = 1
  | Some (TInteger I2 | TUnsigned I2 | TFloat F2) => desc_size d = 2
  | Some (TInteger I4 | TUnsigned I4 | TFloat F4) => desc_size d = 4
  | Some (TInteger I8 | TUnsigned I8 | TFloat F8) => desc_size d = 8
  | Some (TCompound _ size) => desc_size d = size
  | _ => True
  end.

(** C23: an accepted type is as large as its elements are in the file, save one case:
    halving rounds down, so a compound of two floats and one byte of padding is taken for a
    complex number, whose elements the file then keeps one byte further apart than they are
    read. *)
Theorem accepted_types_sized :
  (forall d t, sized d -> dtype_of d = Some t ->
    DType.itemsize t = desc_size d \/
    exists fields, descriptor d = Some (TCompound fields (DType.itemsize t + 1))) /\
  exists d t, sized d /\ dtype_of d = Some t /\ desc_size d = DType.itemsize t + 1.
Proof.
  split.
  - intros d t Hs. unfold dtype_of, sized in *. destruct (descriptor d) as [desc|]; [|done]. cbn [mbind option_bind].
    destruct (_ && _); [done|].
    destruct desc as [[]|[]|[]| |fields size| | | | |]; try done; try (intros [= <-]; left; by rewrite Hs).
    unfold complex_float. destruct fields as [|[[r rt] ro] [|[[i it] io] []]]; try done. destruct rt as [| |s| | | | | | |]; try done.
    destruct (_ && _ && _) eqn:Hc; [|done].
    apply andb_true_iff in Hc as [_ Hz%Z.eqb_eq]. div_mod size 2. pose proof (Z.mod_pos_bound size 2 ltac:(lia)).
    destruct s; [done|..]; intros [= <-]; cbn [DType.itemsize];
      (destruct (decide (size mod 2 = 0)); [left; lia|right; eexists; do 2 f_equal; lia]).
  - exists {| descriptor := Some (TCompound [("r"%string, TFloat F4, 0); ("i"%string, TFloat F4, 4)] 9);
              desc_size := 9; little_endian := true |}, Complex64. split; [done|]. split; vm_compute; reflexivity.
Qed.
