(* ===== verification/Convert.v ===== *)
(** Between the messages of [protos/aex.proto] and the core types:
    [aex-proto/src/convert.rs]. *)
From S2P Require Import Prelude Errors Dtype Bytes Quality Selection.

Definition DEFAULT_MAX_FANCY_INDICES : Z := 262144.

(** The messages, as the schema declares them; an absent [oneof] is [None]. *)
Module Proto.
Record Slice : Type := { start : option Z; stop : option Z; step : option Z }.

Inductive Kind : Type :=
  | KSingle (i : Z)
  | KSlice (s : Slice)
  | KFancy (indices : list Z)
  | KEllipsis (b : bool)
  | KNewaxis (b : bool).

Record Index : Type := { index_kind : option Kind }.

Record QualitySpec : Type := {
  p_encoding : Z;
  p_cast_dtype : option Z;
  p_abs_error_bound : option Z;
  p_rel_error_bound : option Z;
}.
End Proto.

Definition index_to_proto (index : Index) : Proto.Index :=
  {| Proto.index_kind := Some
       match index with
       | Single i => Proto.KSingle i
       | Slice start stop step =>
           Proto.KSlice {| Proto.start := start; Proto.stop := stop; Proto.step := step |}
       | Fancy list => Proto.KFancy list
       | Ellipsis => Proto.KEllipsis true
       | NewAxis => Proto.KNewaxis true
       end |}.

Definition indices_to_proto (indices : list Index) : list Proto.Index := index_to_proto <$> indices.

(** Refuse a fancy selection too large to travel. *)
Definition check_fancy_len (len max_fancy : Z) : result AexError unit :=
  if max_fancy <? len then Err BadSelection else Ok tt.

Definition index_from_proto (index : Proto.Index) (max_fancy : Z) : result AexError Index :=
  kind ← ok_or BadSelection (Proto.index_kind index);
  match kind with
  | Proto.KSingle i => Ok (Single i)
  | Proto.KSlice s => Ok (Slice (Proto.start s) (Proto.stop s) (Proto.step s))
  | Proto.KFancy indices => _ ← check_fancy_len (zlen indices) max_fancy; Ok (Fancy indices)
  | Proto.KEllipsis _ => Ok Ellipsis
  | Proto.KNewaxis _ => Ok NewAxis
  end.

Definition indices_from_proto (indices : list Proto.Index) (max_fancy : Z) : result AexError (list Index) :=
  mapM (fun index => index_from_proto index max_fancy) indices.

(** Refuse a selection too large to travel, before it is sent. *)
Fixpoint check_fancy_limit (indices : list Index) (max_fancy : Z) : result AexError unit :=
  match indices with
  | [] => Ok tt
  | Fancy list :: indices' =>
      _ ← check_fancy_len (zlen list) max_fancy; check_fancy_limit indices' max_fancy
  | _ :: indices' => check_fancy_limit indices' max_fancy
  end.

Definition quality_to_proto (quality : QualitySpec) : Proto.QualitySpec :=
  {| Proto.p_encoding := Encoding.as_i32 (encoding quality);
     Proto.p_cast_dtype := DType.as_i32 <$> cast_dtype quality;
     Proto.p_abs_error_bound := abs_error_bound quality;
     Proto.p_rel_error_bound := rel_error_bound quality |}.

(** [Result::ok]. *)
Definition result_ok {E A} (m : result E A) : option A := match m with Ok a => Some a | _ => None end.

Definition quality_from_proto (quality : option Proto.QualitySpec) : QualitySpec :=
  match quality with
  | None => QualitySpec.exact
  | Some quality =>
      match Encoding.from_i32 (Proto.p_encoding quality) with
      | None => QualitySpec.exact
      | Some encoding =>
          {| encoding := encoding;
             cast_dtype := d ← Proto.p_cast_dtype quality; result_ok (DType.from_i32 d);
             abs_error_bound := Proto.p_abs_error_bound quality;
             rel_error_bound := Proto.p_rel_error_bound quality;
             spec_codec := None |}
      end
  end.

(** ** Round trips *)

Lemma index_roundtrip index max_fancy :
  index_from_proto (index_to_proto index) max_fancy =
  match index with Fancy l => _ ← check_fancy_len (zlen l) max_fancy; Ok index | _ => Ok index end.
Proof. by destruct index. Qed.

(** A selection sent is the selection received.  What the client's own check
    lets through converts back to the very indices it was, at a server with the same
    limit or a higher one; what that check refuses, a server with the same limit
    refuses too. *)
Theorem selection_travels indices client_max server_max :
  client_max <= server_max ->
  (check_fancy_limit indices client_max = Ok tt ->
   indices_from_proto (indices_to_proto indices) server_max = Ok indices) /\
  (check_fancy_limit indices client_max = Err BadSelection ->
   indices_from_proto (indices_to_proto indices) client_max = Err BadSelection).
Proof.
  intros Hle. unfold indices_from_proto, indices_to_proto. induction indices as [|index indices [IHo IHe]]; [done|].
  cbn [check_fancy_limit fmap list_fmap]. split; intros Hc; cbn [mapM]; rewrite index_roundtrip;
    destruct index as [| |l| |]; cbn [mbind result_bind]; try (rewrite IHo by done; done); try (rewrite IHe by done; done).
  - unfold check_fancy_len in *. destruct (Z.ltb_spec client_max (zlen l)); [done|].
    destruct (Z.ltb_spec server_max (zlen l)); [lia|]. cbn in Hc |- *. by rewrite IHo.
  - unfold check_fancy_len in *. destruct (Z.ltb_spec client_max (zlen l)); [done|].
    cbn in Hc |- *. by rewrite IHe.
Qed.

Lemma selection_travels_witness :
  indices_from_proto (indices_to_proto [Fancy [3; -1]; Slice (Some 1) None (Some 2)]) 2
  = Ok [Fancy [3; -1]; Slice (Some 1) None (Some 2)].
Proof. exact (proj1 (selection_travels [Fancy [3; -1]; Slice (Some 1) None (Some 2)] 2 2 ltac:(lia)) eq_refl). Defined.

(** A quality request loses nothing but its codec on the way (the codec has a
    field of its own), and whatever arrives that this build cannot name is served as the
    lossless default. *)
Theorem quality_travels `{Build} :
  (forall q, quality_from_proto (Some (quality_to_proto q)) =
     {| encoding := encoding q; cast_dtype := cast_dtype q; abs_error_bound := abs_error_bound q;
        rel_error_bound := rel_error_bound q; spec_codec := None |}) /\
  (forall m dtype,
     Encoding.from_i32 (Proto.p_encoding m) = None \/
     (exists d, Proto.p_cast_dtype m = Some d /\ (forall t, DType.from_i32 d <> Ok t)) /\
       Encoding.from_i32 (Proto.p_encoding m) = Some DtypeCast ->
     QualitySpec.applied (quality_from_proto (Some m)) dtype = QualitySpec.exact).
Proof.
  split.
  - intros []. unfold quality_from_proto, quality_to_proto. cbn.
    assert (Encoding.from_i32 (Encoding.as_i32 encoding) = Some encoding) as -> by (by destruct encoding).
    f_equal. destruct cast_dtype as [d|]; [|done]. cbn. by rewrite from_i32_as_i32.
  - intros m dtype [He|[(d & Hd & Hn) He]]; unfold quality_from_proto; rewrite He; [done|].
    unfold QualitySpec.applied, QualitySpec.can_apply. cbn. rewrite Hd. cbn.
    destruct (DType.from_i32 d) as [t| |]; [by destruct (Hn t)|..]; by destruct dtype.
Qed.
