(* ===== verification/Config.v ===== *)
(** Server configuration: [aex-server/src/config.rs].  Addresses and socket options
    are left out. *)
From stdpp Require Import strings.
From S2P Require Import Prelude Errors Convert Handshake.

Definition SERVER_PROTOCOL_VERSION : Z := PROTOCOL_VERSION.
Definition DEFAULT_STREAMS : Z := 8.

Record Limits : Type := {
  max_sessions : Z;
  max_fancy_indices : Z;
  grpc_max_message_bytes : Z;
  max_streams_per_session : Z;
  max_transfers_per_session : Z;
  session_idle_timeout_sec : Z;
  data_conn_idle_timeout_sec : Z;
  transfer_ttl_sec : Z;
}.

Record Transfer : Type := {
  default_chunk_bytes : Z;
  read_buffer_bytes : Z;
  max_fetch_bytes : Z;
  inline_limit_bytes : Z;
  decode_cache_bytes : Z;
}.

Record ServerConfig : Type := {
  enable_null_backend : bool;
  limits : Limits;
  transfer : Transfer;
  roots : list string;
}.

Module ServerConfig.
Definition default_limits : Limits :=
  {| max_sessions := 64; max_fancy_indices := DEFAULT_MAX_FANCY_INDICES;
     grpc_max_message_bytes := 4 * 1024 * 1024; max_streams_per_session := 32;
     max_transfers_per_session := 64; session_idle_timeout_sec := 300;
     data_conn_idle_timeout_sec := 300; transfer_ttl_sec := 60 |}.

Definition default_transfer : Transfer :=
  {| default_chunk_bytes := 4 * 1024 * 1024; read_buffer_bytes := 512 * 1024;
     max_fetch_bytes := 16 * 1024 * 1024; inline_limit_bytes := 64 * 1024;
     decode_cache_bytes := Z.shiftl 1 30 |}.

Definition default_config : ServerConfig :=
  {| enable_null_backend := false; limits := default_limits; transfer := default_transfer;
     roots := ["/data"%string] |}.

(** Reject settings that would misbehave rather than fail loudly later. *)
Definition validate (c : ServerConfig) : result ServerError unit :=
  if max_sessions (limits c) =? 0 then Err SConfig
  else if max_streams_per_session (limits c) =? 0 then Err SConfig
  else if max_transfers_per_session (limits c) =? 0 then Err SConfig
  else if session_idle_timeout_sec (limits c) =? 0 then Err SConfig
  else if transfer_ttl_sec (limits c) =? 0 then Err SConfig
  else if default_chunk_bytes (transfer c) =? 0 then Err SConfig
  else if read_buffer_bytes (transfer c) =? 0 then Err SConfig
  else if max_fetch_bytes (transfer c) <? default_chunk_bytes (transfer c) then Err SConfig
  else if grpc_max_message_bytes (limits c) <? inline_limit_bytes (transfer c) then Err SConfig
  else if decide (roots c = []) then Err SConfig
  else Ok tt.
End ServerConfig.

(** Every field is of its width. *)
Record config_typed (c : ServerConfig) : Prop := {
  ct_sessions : is_u32 (max_sessions (limits c));
  ct_streams : is_u32 (max_streams_per_session (limits c));
  ct_transfers : is_u32 (max_transfers_per_session (limits c));
  ct_idle : is_u64 (session_idle_timeout_sec (limits c));
  ct_ttl : is_u64 (transfer_ttl_sec (limits c));
  ct_chunk : is_u64 (default_chunk_bytes (transfer c));
  ct_buffer : is_u64 (read_buffer_bytes (transfer c));
  ct_fetch : is_u64 (max_fetch_bytes (transfer c));
}.

(** What a valid configuration promises the rest of the server. *)
Record config_valid (c : ServerConfig) : Prop := {
  cv_sessions : 0 < max_sessions (limits c);
  cv_streams : 0 < max_streams_per_session (limits c);
  cv_transfers : 0 < max_transfers_per_session (limits c);
  cv_idle : 0 < session_idle_timeout_sec (limits c);
  cv_ttl : 0 < transfer_ttl_sec (limits c);
  cv_chunk : 0 < default_chunk_bytes (transfer c) <= max_fetch_bytes (transfer c);
  cv_buffer : 0 < read_buffer_bytes (transfer c);
  cv_inline : inline_limit_bytes (transfer c) <= grpc_max_message_bytes (limits c);
  cv_roots : roots c <> [];
}.

(** [validate] accepts exactly the configurations that are valid, the default
    one among them, and refuses the others as a configuration error. *)
Theorem validate_exact :
  ServerConfig.validate ServerConfig.default_config = Ok tt /\
  forall c, config_typed c ->
    (ServerConfig.validate c = Ok tt <-> config_valid c) /\
    (ServerConfig.validate c = Ok tt \/ ServerConfig.validate c = Err SConfig).
Proof.
  split; [reflexivity|]. intros c []. unfold ServerConfig.validate. unfold is_u32, is_u64 in *.
  repeat match goal with
  | |- context [if ?a =? 0 then _ else _] =>
      destruct (Z.eqb_spec a 0); [split; [split; [done|intros []; lia]|by right]|]
  | |- context [if ?a <? ?b then _ else _] =>
      destruct (Z.ltb_spec a b); [split; [split; [done|intros []; lia]|by right]|]
  end.
  case_decide; [split; [split; [done|by intros []]|by right]|].
  split; [|by left]. split; [|done]. intros _. split; try done; lia.
Qed.
