(* ===== verification/Session.v ===== *)
(** Sessions and the files they hold open: [aex-server/src/session.rs].  A registry's
    mutex makes each locked region one step; [now_ms] is the clock's reading and the
    random bytes are the operating system's answer. *)
From stdpp Require Import strings gmap relations.
From S2P Require Import Prelude Errors Bytes Config.

(** ** The files of a session *)

Record FileRegistry (F : Type) : Type := { files : gmap Z F; next_handle : Z }.
Arguments files {F}. Arguments next_handle {F}.

Module FileRegistry.
Section Ops.
Context {F : Type}.

Definition new : FileRegistry F := {| files := ∅; next_handle := 1 |}.

(** The handle is taken first, by an atomic increment, and the file put under it then. *)
Definition take_handle (r : FileRegistry F) : Z * FileRegistry F :=
  (next_handle r, {| files := files r; next_handle := next_handle r +w 1 |}).
Definition put (r : FileRegistry F) (handle : Z) (file : F) : FileRegistry F :=
  {| files := <[handle := file]> (files r); next_handle := next_handle r |}.

Definition insert (r : FileRegistry F) (file : F) : Z * FileRegistry F :=
  let '(handle, r) := take_handle r in (handle, put r handle file).

Definition get (r : FileRegistry F) (handle : Z) : result ServerError F :=
  ok_or SBadRequest (files r !! handle).

(** Closing a handle twice is an error. *)
Definition remove (r : FileRegistry F) (handle : Z) : result ServerError (FileRegistry F) :=
  _ ← ok_or SBadRequest (files r !! handle);
  Ok {| files := delete handle (files r); next_handle := next_handle r |}.

(** Handles are handed out in order, from 1. *)
Definition registry_ok (r : FileRegistry F) : Prop :=
  1 <= next_handle r /\ forall h, is_Some (files r !! h) -> 1 <= h < next_handle r.

Lemma new_ok : registry_ok new.
Proof. split; [cbn; lia|]. intros h [f Hf]. cbn in Hf. by rewrite lookup_empty in Hf. Qed.

(** A handle is never zero and never one that is in use; the file it names is
    the one opened until it is closed, opening and closing it touch no other handle, and
    closing it twice or using it after is refused. *)
Theorem handle_lifecycle (r : FileRegistry F) file :
  registry_ok r -> next_handle r < two64 - 1 ->
  let '(h, opened) := insert r file in
  h <> 0 /\ files r !! h = None /\ registry_ok opened /\ get opened h = Ok file /\
  (forall h', h' <> h -> get opened h' = get r h') /\
  exists closed, remove opened h = Ok closed /\ registry_ok closed /\ files closed = files r /\
    get closed h = Err SBadRequest /\ remove closed h = Err SBadRequest.
Proof.
  intros [H1 Hin] Hlt. cbn. assert (next_handle r +w 1 = next_handle r + 1) as Hn.
  { apply wadd_small. unfold is_u64. lia. }
  assert (files r !! next_handle r = None) as Hfree.
  { destruct (files r !! next_handle r) eqn:He; [|done]. specialize (Hin _ ltac:(eauto)). lia. }
  unfold registry_ok, get, remove. cbn. rewrite Hn, lookup_insert_eq.
  split; [lia|]. split; [done|]. split.
  { split; [lia|]. intros h [Hh|[_ Hh]]%lookup_insert_is_Some; [lia|]. specialize (Hin _ Hh). lia. }
  split; [done|]. split; [intros h' Hne; by rewrite lookup_insert_ne by congruence|].
  cbn. eexists. split; [done|]. cbn. rewrite delete_insert_id by done. rewrite Hfree.
  split; [|done]. split; [lia|]. intros h Hh. specialize (Hin _ Hh). lia.
Qed.
End Ops.
End FileRegistry.

Lemma handle_lifecycle_witness :
  FileRegistry.get (FileRegistry.insert (FileRegistry.new (F:=Z)) 7).2 1 = Ok 7.
Proof.
  exact (proj1 (proj2 (proj2 (proj2 (FileRegistry.handle_lifecycle FileRegistry.new 7 FileRegistry.new_ok ltac:(cbn; lia)))))).
Defined.

(** ** Sessions *)

Record Session (F : Type) : Type := {
  id : bytes;
  token : bytes;
  granted_streams : Z;
  client_name : string;
  s_files : FileRegistry F;
  data_conns : Z;
  last_seen_ms : Z;
}.
Arguments id {F}. Arguments token {F}. Arguments granted_streams {F}. Arguments client_name {F}.
Arguments s_files {F}. Arguments data_conns {F}. Arguments last_seen_ms {F}.

Module Session.
Definition get_id {F} (s : Session F) : bytes := id s.

Definition touch {F} (s : Session F) (now_ms : Z) : Session F :=
  {| id := id s; token := token s; granted_streams := granted_streams s; client_name := client_name s;
     s_files := s_files s; data_conns := data_conns s; last_seen_ms := now_ms |}.

Definition is_expired {F} (s : Session F) (now_ms timeout_ms : Z) : bool :=
  timeout_ms <? saturating_sub now_ms (last_seen_ms s).

(** Where a thread is in [open_data_conn]. *)
Inductive Conn : Type :=
  | Starting
  | Loaded (open : Z)
  | Opened
  | Refused
  | Closed.

(** One atomic step of [open_data_conn] on the counter [count]; [weak] says the weak
    exchange failed for no reason. *)
Definition open_step (granted : Z) (weak : bool) (count : Z) (t : Conn) : Conn * Z :=
  match t with
  | Starting => (Loaded count, count)
  | Loaded open =>
      if granted <=? open then (Refused, count)
      else if (count =? open) && negb weak then (Opened, u32 (open + 1))
      else (Loaded count, count)
  | other => (other, count)
  end.

(** [close_data_conn], which only a connection that was counted in reaches. *)
Definition close_step (count : Z) (t : Conn) : Conn * Z :=
  match t with Opened => (Closed, u32 (count - 1)) | other => (other, count) end.

(** [open_data_conn] run alone, for a weak exchange that fails [weak] times first. *)
Fixpoint open_alone (granted count : Z) (weak : nat) (t : Conn) : Conn * Z :=
  match open_step granted (match weak with O => false | S _ => true end) count t with
  | (Loaded open, count) =>
      match weak with
      | S weak' => open_alone granted count weak' (Loaded open)
      | O => open_step granted false count (Loaded open)
      end
  | done => done
  end.

Definition open_data_conn {F} (s : Session F) : result ServerError (Session F) :=
  match open_alone (granted_streams s) (data_conns s) 0 Starting with
  | (Opened, count) =>
      Ok {| id := id s; token := token s; granted_streams := granted_streams s; client_name := client_name s;
            s_files := s_files s; data_conns := count; last_seen_ms := last_seen_ms s |}
  | _ => Err SExhausted
  end.

Definition close_data_conn {F} (s : Session F) : Session F :=
  {| id := id s; token := token s; granted_streams := granted_streams s; client_name := client_name s;
     s_files := s_files s; data_conns := u32 (data_conns s - 1); last_seen_ms := last_seen_ms s |}.

(** The connection threads of one session and the counter they share. *)
Inductive conn_step (granted : Z) : list Conn * Z -> list Conn * Z -> Prop :=
  | conn_open ts count i t t' count' weak :
      ts !! i = Some t -> open_step granted weak count t = (t', count') ->
      conn_step granted (ts, count) (<[i := t']> ts, count')
  | conn_close ts count i t' count' :
      ts !! i = Some Opened -> close_step count Opened = (t', count') ->
      conn_step granted (ts, count) (<[i := t']> ts, count').

Definition is_opened (t : Conn) : Z := match t with Opened => 1 | _ => 0 end.
Definition opened (ts : list Conn) : Z := total is_opened ts.

Lemma opened_insert ts i t t' :
  ts !! i = Some t -> opened (<[i := t']> ts) = opened ts - is_opened t + is_opened t'.
Proof. apply total_insert. Qed.

Lemma opened_nonneg ts : 0 <= opened ts.
Proof. apply total_nonneg, Forall_forall. intros [] _; cbn; lia. Qed.

Lemma opened_pos ts i : ts !! i = Some Opened -> 0 < opened ts.
Proof.
  intros Hi. pose proof (opened_insert ts i Opened Closed Hi) as H. cbn in H.
  pose proof (opened_nonneg (<[i := Closed]> ts)). lia.
Qed.

Lemma conn_step_count granted s s' :
  is_u32 granted -> s.2 = opened s.1 /\ s.2 <= granted -> conn_step granted s s' ->
  s'.2 = opened s'.1 /\ s'.2 <= granted.
Proof.
  unfold is_u32. intros Hg [Hc Hle] Hs. destruct Hs as [ts count i t t' count' weak Hi Ho|ts count i t' count' Hi Hcl];
    cbn [fst snd] in *; pose proof (opened_nonneg ts).
  - rewrite (opened_insert ts i t t') by done. destruct t as [|open| | |]; cbn in Ho; simplify_eq; cbn; try lia.
    destruct (Z.leb_spec granted open); simplify_eq; cbn; [lia|].
    destruct ((opened ts =? open) && negb weak) eqn:He; simplify_eq; cbn; [|lia].
    apply andb_true_iff in He as [He%Z.eqb_eq _]. unfold u32. rewrite Z.mod_small by lia. lia.
  - cbn in Hcl. injection Hcl as <- <-. pose proof (opened_pos ts i Hi). rewrite (opened_insert ts i Opened Closed) by done.
    cbn. unfold u32. rewrite Z.mod_small by lia. lia.
Qed.

(** C37: however the connection threads of a session interleave, and however often
    the weak exchange fails, the counter is the number of connections counted in and not
    out, and never more than the session was granted. *)
Theorem data_conns_bounded granted n ts count :
  is_u32 granted -> rtc (conn_step granted) (replicate n Starting, 0) (ts, count) ->
  count = opened ts /\ count <= granted.
Proof.
  intros Hg Hr. remember (replicate n Starting, 0) as s0 eqn:H0.
  assert (s0.2 = opened s0.1 /\ s0.2 <= granted) as Hs.
  { subst s0. cbn. unfold is_u32 in Hg. split; [|lia]. clear. induction n as [|n IH]; [done|]. cbn in IH |- *. done. }
  clear H0. change (count = opened ts /\ count <= granted) with ((ts, count).2 = opened (ts, count).1 /\ (ts, count).2 <= granted).
  induction Hr as [s|s1 s2 s3 Hstep Hr IH]; [done|]. apply IH. by eapply conn_step_count.
Qed.

(** Alone, [open_data_conn] ends after the exchange's last failure: counted in when the
    session has a stream left, refused when not. *)
Lemma open_alone_spec granted count weak :
  0 <= count -> is_u32 granted ->
  open_alone granted count weak Starting =
  if granted <=? count then (Refused, count) else (Opened, count + 1).
Proof.
  intros Hc Hg. assert (forall weak, open_alone granted count weak (Loaded count) =
    if granted <=? count then (Refused, count) else (Opened, count + 1)) as Hl.
  { intros w. induction w as [|w IH]; cbn; destruct (Z.leb_spec granted count) as [|Hlt]; try done;
      rewrite Z.eqb_refl; cbn.
    - unfold u32, is_u32 in *. by rewrite Z.mod_small by lia.
    - rewrite IH. done. }
  destruct weak as [|weak]; cbn [open_alone open_step].
  - specialize (Hl 0%nat). cbn in Hl. destruct (granted <=? count); [done|]. by rewrite Z.eqb_refl in *.
  - apply Hl.
Qed.
End Session.

Lemma data_conns_bounded_witness :
  exists ts count, rtc (Session.conn_step 1) (replicate 2 Session.Starting, 0) (ts, count) /\
    ts = [Session.Opened; Session.Loaded 0] /\ count = Session.opened ts /\ count <= 1.
Proof.
  assert (rtc (Session.conn_step 1) (replicate 2 Session.Starting, 0) ([Session.Opened; Session.Loaded 0], 1)) as Hr.
  { eapply rtc_l; [apply (Session.conn_open 1 _ 0 0 Session.Starting (Session.Loaded 0) 0 false); reflexivity|].
    eapply rtc_l; [apply (Session.conn_open 1 _ 0 1 Session.Starting (Session.Loaded 0) 0 false); reflexivity|].
    apply rtc_once. apply (Session.conn_open 1 [Session.Loaded 0; Session.Loaded 0] 0 0 (Session.Loaded 0) Session.Opened 1 false); reflexivity. }
  exists [Session.Opened; Session.Loaded 0], 1. split; [exact Hr|]. split; [reflexivity|].
  apply (Session.data_conns_bounded 1 2); [unfold is_u32; lia|exact Hr].
Defined.

(** ** Every live session *)

Record SessionRegistry (F : Type) : Type := { sessions : gmap bytes (Session F); s_config : ServerConfig }.
Arguments sessions {F}. Arguments s_config {F}.

Module SessionRegistry.
Section Ops.
Context {F : Type}.
Implicit Type r : SessionRegistry F.

Definition with_sessions r (m : gmap bytes (Session F)) : SessionRegistry F :=
  {| sessions := m; s_config := s_config r |}.

Definition new (config : ServerConfig) : SessionRegistry F := {| sessions := ∅; s_config := config |}.

Definition idle_timeout_ms r : Z := saturating_mul (session_idle_timeout_sec (limits (s_config r))) 1000.

(** The two locked regions of [create_at]: the limit is tested in one, the session put
    in by another. *)
Definition create_test r : result ServerError unit :=
  if max_sessions (limits (s_config r)) <=? Z.of_nat (size (sessions r)) then Err SExhausted else Ok tt.

Definition create_insert r (s : Session F) : SessionRegistry F :=
  with_sessions r (<[id s := s]> (sessions r)).

Definition granted r (desired_streams : Z) : Z :=
  let wanted := if desired_streams =? 0 then DEFAULT_STREAMS else desired_streams in
  Z.min wanted (max_streams_per_session (limits (s_config r))).

(** [random_id] and [random_token] are what [random_bytes] answers. *)
Definition new_session r (client_name : string) (desired_streams now_ms : Z) (random_id random_token : result ServerError bytes)
    : result ServerError (Session F) :=
  id ← random_id;
  token ← random_token;
  Ok {| id := id; token := token; granted_streams := granted r desired_streams;
        client_name := client_name; s_files := FileRegistry.new; data_conns := 0;
        last_seen_ms := now_ms |}.

Definition create_at r (client_name : string) (desired_streams now_ms : Z)
    (random_id random_token : result ServerError bytes)
    : result ServerError (Session F) * SessionRegistry F :=
  let session :=
    _ ← create_test r; new_session r client_name desired_streams now_ms random_id random_token in
  (session, match session with Ok s => create_insert r s | _ => r end).

(** Look up a session and mark it as used. *)
Definition get_at r (id : bytes) (now_ms : Z) : result ServerError (Session F) * SessionRegistry F :=
  if negb (length id =? 16)%nat then (Err SAuth, r)
  else
    match sessions r !! id with
    | None => (Err SAuth, r)
    | Some session =>
        if Session.is_expired session now_ms (idle_timeout_ms r)
        then (Err SAuth, with_sessions r (delete id (sessions r)))
        else
          (Ok (Session.touch session now_ms),
           with_sessions r (<[id := Session.touch session now_ms]> (sessions r)))
    end.

(** Activity on a data connection. *)
Definition touch r (id : bytes) (now_ms : Z) : SessionRegistry F :=
  with_sessions r (alter (fun s => Session.touch s now_ms) id (sessions r)).

Definition contains r (id : bytes) : bool := bool_decide (is_Some (sessions r !! id)).

Definition remove r (id : bytes) (now_ms : Z) : result ServerError bytes * SessionRegistry F :=
  match get_at r id now_ms with
  | (Ok session, r) => (Ok (Session.get_id session), with_sessions r (delete (Session.get_id session) (sessions r)))
  | (Err e, r) => (Err e, r)
  | (Panic, r) => (Panic, r)
  end.

(** Drop every session nobody has touched within the idle timeout, and say how many. *)
Definition sweep_expired_at r (now_ms : Z) : Z * SessionRegistry F :=
  let kept := filter (fun '(_, s) => Session.is_expired s now_ms (idle_timeout_ms r) = false) (sessions r) in
  (Z.of_nat (size (sessions r)) - Z.of_nat (size kept), with_sessions r kept).
End Ops.
End SessionRegistry.

(** ** How long a session lives *)

(** What happens to a registry: a request naming a session, activity on one of its data
    connections, the sweep. *)
Inductive Event : Type :=
  | Request (id : bytes) (now_ms : Z)
  | Activity (id : bytes) (now_ms : Z)
  | Sweep (now_ms : Z).

Section Lifetime.
Context {F : Type}.
Implicit Type r : SessionRegistry F.
Import SessionRegistry.

(** The answer to a request, and the registry after. *)
Definition on_event r (e : Event) : option (result ServerError (Session F)) * SessionRegistry F :=
  match e with
  | Request id now => let '(answer, r) := get_at r id now in (Some answer, r)
  | Activity id now => (None, touch r id now)
  | Sweep now => (None, (sweep_expired_at r now).2)
  end.

Fixpoint run r (es : list Event) : SessionRegistry F :=
  match es with [] => r | e :: es' => run (on_event r e).2 es' end.

(** [k] is used again within [timeout] of every use, whatever happens in between. *)
Fixpoint in_use (k : bytes) (timeout last : Z) (es : list Event) : Prop :=
  match es with
  | [] => True
  | Request id now :: es' | Activity id now :: es' =>
      if decide (id = k) then now - last <= timeout /\ in_use k timeout now es'
      else in_use k timeout last es'
  | Sweep now :: es' => now - last <= timeout /\ in_use k timeout last es'
  end.

(** The last use of [k]. *)
Fixpoint last_use (k : bytes) (last : Z) (es : list Event) : Z :=
  match es with
  | [] => last
  | Request id now :: es' | Activity id now :: es' =>
      last_use k (if decide (id = k) then now else last) es'
  | Sweep _ :: es' => last_use k last es'
  end.

Lemma not_expired (s : Session F) now timeout :
  0 <= timeout -> Session.is_expired s now timeout = false <-> now - last_seen_ms s <= timeout.
Proof. intros. unfold Session.is_expired, saturating_sub. rewrite Z.ltb_ge. lia. Qed.

Lemma timeout_nonneg r :
  0 <= session_idle_timeout_sec (limits (s_config r)) -> 0 <= idle_timeout_ms r.
Proof. unfold idle_timeout_ms, saturating_mul. lia. Qed.

Lemma lookup_sweep r now k s :
  sessions r !! k = Some s ->
  sessions (sweep_expired_at r now).2 !! k =
  if Session.is_expired s now (idle_timeout_ms r) then None else Some s.
Proof.
  intros Hk. cbn. destruct (Session.is_expired s now (idle_timeout_ms r)) eqn:He.
  - apply map_lookup_filter_None. right. intros x Hx. rewrite Hk in Hx. injection Hx as <-. congruence.
  - apply map_lookup_filter_Some. done.
Qed.

Lemma config_kept r e : s_config (on_event r e).2 = s_config r.
Proof.
  destruct e; cbn; [|done..]. unfold get_at. destruct (negb _); [done|]. destruct (sessions r !! id0) as [s|]; [|done].
  by destruct (Session.is_expired _ _ _).
Qed.

Lemma event_elsewhere r e k s :
  sessions r !! k = Some s ->
  match e with Request id _ | Activity id _ => id <> k | Sweep now => Session.is_expired s now (idle_timeout_ms r) = false end ->
  sessions (on_event r e).2 !! k = Some s.
Proof.
  intros Hk He. destruct e as [j now|j now|now]; cbn.
  - unfold get_at. destruct (negb _); [done|]. destruct (sessions r !! j) as [s'|]; [|done].
    destruct (Session.is_expired _ _ _); cbn; [by rewrite lookup_delete_ne|by rewrite lookup_insert_ne].
  - by rewrite lookup_alter_ne.
  - change (sessions (sweep_expired_at r now).2 !! k = Some s). by rewrite (lookup_sweep r now k s), He.
Qed.

Lemma request_live r k s now :
  length k = 16%nat -> sessions r !! k = Some s -> Session.is_expired s now (idle_timeout_ms r) = false ->
  get_at r k now = (Ok (Session.touch s now), with_sessions r (<[k := Session.touch s now]> (sessions r))).
Proof. intros Hl Hk He. unfold get_at. by rewrite Hl, Hk, He. Qed.

Lemma in_use_kept r k s es :
  length k = 16%nat -> 0 <= session_idle_timeout_sec (limits (s_config r)) ->
  sessions r !! k = Some s -> in_use k (idle_timeout_ms r) (last_seen_ms s) es ->
  s_config (run r es) = s_config r /\
  sessions (run r es) !! k = Some (Session.touch s (last_use k (last_seen_ms s) es)).
Proof.
  intros Hl. revert r s. induction es as [|e es IH]; intros r s Ht Hk Hu.
  - split; [done|]. cbn. rewrite Hk. by destruct s.
  - cbn [run]. pose proof (timeout_nonneg r Ht) as Hto.
    assert (forall r', s_config r' = s_config r -> idle_timeout_ms r' = idle_timeout_ms r) as Hi
      by (intros r' H; unfold idle_timeout_ms; by rewrite H).
    pose proof (config_kept r e) as Hcfg. specialize (Hi _ Hcfg).
    assert (forall s', sessions (on_event r e).2 !! k = Some s' ->
      in_use k (idle_timeout_ms r) (last_seen_ms s') es ->
      s_config (run (on_event r e).2 es) = s_config r /\
      sessions (run (on_event r e).2 es) !! k = Some (Session.touch s' (last_use k (last_seen_ms s') es))) as Hgo.
    { intros s' Hs' Hu'. rewrite <- Hi in Hu'. rewrite <- Hcfg. apply IH; [by rewrite Hcfg|done|done]. }
    destruct e as [j now|j now|now]; cbn [in_use last_use] in *.
    + case_decide as Hj; [|apply Hgo; [by apply event_elsewhere|done]]. subst j. destruct Hu as [Hle Hu].
      apply not_expired in Hle; [|done]. destruct (Hgo (Session.touch s now)) as [? Hr]; [|done|split; [done|]].
      * cbn. rewrite (request_live r k s) by done. cbn. by rewrite lookup_insert_eq.
      * exact Hr.
    + case_decide as Hj; [|apply Hgo; [by apply event_elsewhere|done]]. subst j. destruct Hu as [Hle Hu].
      destruct (Hgo (Session.touch s now)) as [? Hr]; [|done|split; [done|exact Hr]].
      cbn. by rewrite lookup_alter_eq, Hk.
    + destruct Hu as [Hle Hu]. apply not_expired in Hle; [|done]. apply Hgo; [by apply event_elsewhere|done].
Qed.

(** A session used again within the idle timeout of every use, by a request
    or by its data connections, is never lost, whatever requests for other sessions and
    sweeps come in between; one request or sweep past the timeout ends it, and from then
    on the requests naming it are refused as unauthenticated. *)
Theorem session_idle_timeout r k s es now :
  length k = 16%nat -> 0 <= session_idle_timeout_sec (limits (s_config r)) ->
  sessions r !! k = Some s -> in_use k (idle_timeout_ms r) (last_seen_ms s) es ->
  let last := last_use k (last_seen_ms s) es in
  (now - last <= idle_timeout_ms r -> (get_at (run r es) k now).1 = Ok (Session.touch s now)) /\
  (idle_timeout_ms r < now - last ->
     (get_at (run r es) k now).1 = Err SAuth /\
     forall later, (get_at (get_at (run r es) k now).2 k later).1 = Err SAuth /\
                   (get_at (sweep_expired_at (run r es) now).2 k later).1 = Err SAuth).
Proof.
  intros Hl Ht Hk Hu. cbn zeta. destruct (in_use_kept r k s es Hl Ht Hk Hu) as [Hcfg Hs].
  pose proof (timeout_nonneg r Ht) as Hto.
  assert (idle_timeout_ms (run r es) = idle_timeout_ms r) as Hi by (unfold idle_timeout_ms; by rewrite Hcfg).
  set (s' := Session.touch s (last_use k (last_seen_ms s) es)) in *.
  pose proof (not_expired s' now (idle_timeout_ms r) Hto) as Hne. rewrite <- Hi in Hne at 1. cbn [last_seen_ms s' Session.touch] in Hne.
  split; intros Hle.
  - apply Hne in Hle. by rewrite (request_live _ k s').
  - assert (Session.is_expired s' now (idle_timeout_ms (run r es)) = true) as He.
    { apply not_false_iff_true. intros H. apply Hne in H. lia. }
    assert (forall r' later, sessions r' !! k = None -> (get_at r' k later).1 = Err SAuth) as Hgone.
    { intros r' later Hr'. unfold get_at. by rewrite Hl, Hr'. }
    assert (get_at (run r es) k now = (Err SAuth, with_sessions (run r es) (delete k (sessions (run r es))))) as Hg.
    { unfold get_at. by rewrite Hl, Hs, He. }
    rewrite Hg. split; [done|]. intros later. split; apply Hgone.
    + cbn. apply lookup_delete_eq.
    + by rewrite (lookup_sweep _ now k s'), He.
Qed.

(** Opened one at a time, sessions never exceed the server's limit, each is
    granted at most the configured streams (and at least one), and it is found under the
    id it was given. *)
Theorem create_within_limits r name desired now rid rtok :
  config_valid (s_config r) -> is_u32 desired -> 0 <= now ->
  Z.of_nat (size (sessions r)) <= max_sessions (limits (s_config r)) ->
  let '(answer, r') := create_at r name desired now rid rtok in
  Z.of_nat (size (sessions r')) <= max_sessions (limits (s_config r)) /\
  match answer with
  | Ok s => 1 <= granted_streams s <= max_streams_per_session (limits (s_config r)) /\
      (desired <> 0 -> granted_streams s <= desired) /\ data_conns s = 0 /\
      rid = Ok (id s) /\ rtok = Ok (token s) /\
      (length (id s) = 16%nat -> (get_at r' (id s) now).1 = Ok s)
  | _ => r' = r
  end.
Proof.
  intros Hv Hd Hn Hsz. unfold create_at, create_test. destruct (Z.leb_spec (max_sessions (limits (s_config r))) (Z.of_nat (size (sessions r)))) as [|Hlt];
    cbn; [done|]. destruct rid as [i| |], rtok as [t| |]; cbn; try done. split.
  { rewrite map_size_insert. destruct (sessions r !! i); unfold Datatypes.id; lia. }
  assert (1 <= granted r desired <= max_streams_per_session (limits (s_config r)) /\ (desired <> 0 -> granted r desired <= desired)) as [? ?].
  { destruct Hv. unfold granted, DEFAULT_STREAMS, is_u32 in *. destruct (Z.eqb_spec desired 0); lia. }
  do 5 (split; [done|]). intros Hl.
  rewrite (request_live _ i {| id := i; token := t; granted_streams := granted r desired; client_name := name;
    s_files := FileRegistry.new; data_conns := 0; last_seen_ms := now |} now);
    [done|done|cbn; by rewrite lookup_insert_eq|].
  assert (0 <= idle_timeout_ms r) by (apply timeout_nonneg; destruct Hv; lia).
  apply not_expired; [done|unfold idle_timeout_ms in *; cbn in *; lia].
Qed.
End Lifetime.

(** *** A server of at most two sessions, idle for at most a second *)

Definition demo_config : ServerConfig :=
  {| enable_null_backend := false;
     limits := {| max_sessions := 2; max_fancy_indices := 16; grpc_max_message_bytes := 65536;
                  max_streams_per_session := 4; max_transfers_per_session := 2; session_idle_timeout_sec := 1;
                  data_conn_idle_timeout_sec := 1; transfer_ttl_sec := 1 |};
     transfer := {| default_chunk_bytes := 8; read_buffer_bytes := 4; max_fetch_bytes := 16;
                    inline_limit_bytes := 4; decode_cache_bytes := 64 |};
     roots := ["/data"%string] |}.

Definition demo_id (n : Z) : bytes := replicate 16 n.
Definition demo_session (n now : Z) : Session unit :=
  {| id := demo_id n; token := demo_id (n + 1); granted_streams := 4; client_name := "demo"; s_files := FileRegistry.new;
     data_conns := 0; last_seen_ms := now |}.
Definition demo_sessions : SessionRegistry unit :=
  SessionRegistry.create_insert (SessionRegistry.new demo_config) (demo_session 7 0).

Lemma demo_config_valid : config_valid demo_config.
Proof. by split; cbn. Qed.

Lemma session_idle_timeout_witness :
  let used := run demo_sessions [Request (demo_id 7) 900; Sweep 1800; Activity (demo_id 7) 1900] in
  (SessionRegistry.get_at used (demo_id 7) 2900).1 = Ok (demo_session 7 2900) /\
  (SessionRegistry.get_at used (demo_id 7) 2901).1 = Err SAuth.
Proof.
  split.
  - apply (session_idle_timeout demo_sessions (demo_id 7) (demo_session 7 0)
      [Request (demo_id 7) 900; Sweep 1800; Activity (demo_id 7) 1900] 2900); vm_compute; repeat split; congruence.
  - apply (session_idle_timeout demo_sessions (demo_id 7) (demo_session 7 0)
      [Request (demo_id 7) 900; Sweep 1800; Activity (demo_id 7) 1900] 2901); vm_compute; repeat split; congruence.
Defined.

Lemma create_within_limits_witness :
  let '(answer, r) := SessionRegistry.create_at demo_sessions "other" 9 5 (Ok (demo_id 1)) (Ok (demo_id 2)) in
  Z.of_nat (size (sessions r)) <= 2.
Proof.
  exact (proj1 (create_within_limits demo_sessions "other" 9 5 (Ok (demo_id 1)) (Ok (demo_id 2))
    demo_config_valid ltac:(unfold is_u32; lia) ltac:(lia) ltac:(vm_compute; discriminate))).
Defined.

(** The session limit is not one under concurrency.  [create_at] tests it in one
    locked region and inserts in another, so two requests that both pass the test leave
    the server with more sessions than [max_sessions]. *)
Theorem session_limit_race :
  let r := demo_sessions in
  let a := demo_session 1 0 in let b := demo_session 2 0 in
  SessionRegistry.create_test r = Ok tt /\ (* the second request tests before the first inserts *)
  Z.of_nat (size (sessions (SessionRegistry.create_insert (SessionRegistry.create_insert r a) b))) = 3 /\
  max_sessions (limits (s_config r)) = 2.
Proof. vm_compute. done. Qed.
