(* ===== verification/Transfer.v ===== *)
(** Transfer plans: [aex-server/src/transfer.rs].  The registry's mutex makes each locked
    region one step; a plan is looked up by the small number its id is, so the ticket and
    the session are what keep one client out of another's transfer. *)
From stdpp Require Import strings gmap relations.
From S2P Require Import Prelude Errors Dtype Bytes Quality Selection Layout Config.

(** One prepared transfer. *)
Record TransferEntry (D : Type) : Type := {
  te_request_id : Z;
  te_session : bytes;
  te_ticket : bytes;
  te_dataset : D;
  te_layout : SelectionLayout;
  te_last_used_ms : Z;
}.
Arguments te_request_id {D}. Arguments te_session {D}. Arguments te_ticket {D}.
Arguments te_dataset {D}. Arguments te_layout {D}. Arguments te_last_used_ms {D}.

Module TransferEntry.
Definition touch {D} (e : TransferEntry D) (now_ms : Z) : TransferEntry D :=
  {| te_request_id := te_request_id e; te_session := te_session e; te_ticket := te_ticket e;
     te_dataset := te_dataset e; te_layout := te_layout e; te_last_used_ms := now_ms |}.

Definition is_expired {D} (e : TransferEntry D) (now_ms ttl_ms : Z) : bool :=
  ttl_ms <? saturating_sub now_ms (te_last_used_ms e).
End TransferEntry.

(** The plans, the index into them by session, and the next identifier. *)
Record TransferRegistry (D : Type) : Type := {
  entries : gmap Z (TransferEntry D);
  by_session : gmap bytes (list Z);
  next_id : Z;
  t_config : ServerConfig;
}.
Arguments entries {D}. Arguments by_session {D}. Arguments next_id {D}. Arguments t_config {D}.

(** Compare two tickets without leaking where they differ. *)
Definition constant_time_eq (a b : bytes) : bool :=
  foldl (fun acc '(x, y) => Z.lor acc (Z.lxor x y)) 0 (zip a b) =? 0.

(** Where in [ids] the plan nobody has touched for longest is: the first of them. *)
Fixpoint lru_from {D} (es : gmap Z (TransferEntry D)) (position : nat) (best : option (nat * Z)) (ids : list Z)
    : option (nat * Z) :=
  match ids with
  | [] => best
  | id :: ids' =>
      let best :=
        match es !! id, best with
        | None, _ => best
        | Some e, None => Some (position, te_last_used_ms e)
        | Some e, Some (_, last_used) =>
            if te_last_used_ms e <? last_used then Some (position, te_last_used_ms e) else best
        end in
      lru_from es (S position) best ids'
  end.
Definition least_recently_used {D} (es : gmap Z (TransferEntry D)) (ids : list Z) : option nat :=
  fst <$> lru_from es 0 None ids.

(** [Vec::swap_remove]. *)
Definition swap_remove {A} (position : nat) (l : list A) : option (A * list A) :=
  x ← l !! position;
  final ← last l;
  Some (x, take (length l - 1) (<[position := final]> l)).

Module TransferRegistry.
Section Ops.
Context {D : Type}.
Implicit Type r : TransferRegistry D.

Definition new (config : ServerConfig) : TransferRegistry D :=
  {| entries := ∅; by_session := ∅; next_id := 1; t_config := config |}.

Definition with_plans r (es : gmap Z (TransferEntry D)) (by_s : gmap bytes (list Z)) : TransferRegistry D :=
  {| entries := es; by_session := by_s; next_id := next_id r; t_config := t_config r |}.

Definition ttl_ms r : Z := saturating_mul (transfer_ttl_sec (limits (t_config r))) 1000.

(** The next identifier, never 0: the second turn of the loop always ends it. *)
Definition next_request_id r : Z * TransferRegistry D :=
  let take n :=
    {| entries := entries r; by_session := by_session r; next_id := u32 (n + 1); t_config := t_config r |} in
  let id := next_id r in
  if id =? 0 then (u32 (id + 1), take (u32 (id + 1))) else (id, take id).

(** [while ids.len() >= max_transfers_per_session]. *)
Fixpoint evict (fuel : nat) (cap : Z) (es : gmap Z (TransferEntry D)) (ids : list Z)
    : result ServerError (gmap Z (TransferEntry D) * list Z) :=
  if cap <=? zlen ids then
    match least_recently_used es ids with
    | None => Ok (es, ids)
    | Some position =>
        match fuel with
        | O => Panic
        | S fuel' =>
            '(evicted, ids) ← expect (swap_remove position ids);
            evict fuel' cap (delete evicted es) ids
        end
    end
  else Ok (es, ids).

(** A plan under an identifier already taken, with what [random_bytes] answers for a ticket:
    the one locked region of [insert_at]. *)
Definition register r (request_id : Z) (session : bytes) (dataset : D) (layout : SelectionLayout) (now_ms : Z)
    (ticket : result ServerError bytes) : result ServerError (TransferEntry D) * TransferRegistry D :=
  match ticket with
  | Ok ticket =>
      let entry := {| te_request_id := request_id; te_session := session; te_ticket := ticket;
                      te_dataset := dataset; te_layout := layout; te_last_used_ms := now_ms |} in
      let ids := filter (fun id => is_Some (entries r !! id)) (default [] (by_session r !! session)) in
      match evict (length ids) (max_transfers_per_session (limits (t_config r))) (entries r) ids with
      | Ok (es, ids) =>
          (Ok entry, with_plans r (<[request_id := entry]> es)
                       (<[session := ids ++ [request_id]]> (by_session r)))
      | Err e => (Err e, r)
      | Panic => (Panic, r)
      end
  | Err e => (Err e, r)
  | Panic => (Panic, r)
  end.

(** Register a resolved selection. *)
Definition insert_at r (session : bytes) (dataset : D) (layout : SelectionLayout) (now_ms : Z)
    (ticket : result ServerError bytes) : result ServerError (TransferEntry D) * TransferRegistry D :=
  let '(request_id, r) := next_request_id r in register r request_id session dataset layout now_ms ticket.

Definition remove r (request_id : Z) : TransferRegistry D :=
  match entries r !! request_id with
  | Some entry =>
      with_plans r (delete request_id (entries r))
        (alter (filter (fun id => id <> request_id)) (te_session entry) (by_session r))
  | None => r
  end.

(** Resolve a [FETCH] to the plan it names. *)
Definition fetch r (request_id : Z) (ticket session : bytes) (now_ms : Z)
    : result ServerError (TransferEntry D) * TransferRegistry D :=
  match entries r !! request_id with
  | None => (Err SNoSuchPlan, r)
  | Some entry =>
      if TransferEntry.is_expired entry now_ms (ttl_ms r) then (Err SNoSuchPlan, remove r request_id)
      else if negb (constant_time_eq (te_ticket entry) ticket) || negb (bool_decide (te_session entry = session))
      then (Err SAuth, r)
      else
        let entry := TransferEntry.touch entry now_ms in
        (Ok entry, with_plans r (<[request_id := entry]> (entries r)) (by_session r))
  end.

(** A transfer is still going: the plan is shared, so the registry sees it if it is
    still there. *)
Definition touch r (entry : TransferEntry D) (now_ms : Z) : TransferRegistry D :=
  with_plans r (alter (fun e => TransferEntry.touch e now_ms) (te_request_id entry) (entries r)) (by_session r).

(** Drop every plan of a session that has ended. *)
Definition remove_session r (session : bytes) : Z * TransferRegistry D :=
  match by_session r !! session with
  | None => (0, r)
  | Some ids =>
      (zlen ids, with_plans r (foldl (fun es id => delete id es) (entries r) ids)
                   (delete session (by_session r)))
  end.

(** Drop plans idle past the time to live, and plans whose session is gone: [keeps] is what
    [is_live] answers of each plan, and [live] what it then answers of each session listed,
    for the sessions are under another lock. *)
Definition sweep_answers r (now_ms : Z) (keeps : Z -> bytes -> bool) (live : bytes -> bool) : Z * TransferRegistry D :=
  let es := filter (fun '(i, e) => TransferEntry.is_expired e now_ms (ttl_ms r) = false /\
                                   keeps i (te_session e) = true) (entries r) in
  let by_s := omap (fun ids => let ids := filter (fun id => is_Some (es !! id)) ids in
                               if decide (ids = []) then None else Some ids)
                (filter (fun '(session, _) => live session = true) (by_session r)) in
  (Z.of_nat (size (entries r)) - Z.of_nat (size es), with_plans r es by_s).

Definition sweep_at r (now_ms : Z) (is_live : bytes -> bool) : Z * TransferRegistry D :=
  sweep_answers r now_ms (fun _ => is_live) is_live.
End Ops.
End TransferRegistry.

(** ** Choosing and evicting the oldest plan *)

Section Evict.
Context {D : Type}.
Implicit Type es : gmap Z (TransferEntry D).

(** When the plan [id] was last used. *)
Definition used es (id : Z) : option Z := te_last_used_ms <$> es !! id.

Lemma lru_from_spec es position best ids :
  match lru_from es position best ids with
  | None => best = None /\ Forall (fun id => es !! id = None) ids
  | Some (p, u) =>
      (best = Some (p, u) \/ exists i id, (p = position + i)%nat /\ ids !! i = Some id /\ used es id = Some u) /\
      (forall u', snd <$> best = Some u' \/ (exists id, id ∈ ids /\ used es id = Some u') -> u <= u')
  end.
Proof.
  revert position best. induction ids as [|id ids IH]; intros position best; cbn [lru_from].
  { destruct best as [[p u]|]; [|done]. split; [by left|]. intros u' [[= ->]|(id & Hid & _)]; [lia|]. by apply elem_of_nil in Hid. }
  set (best' := match es !! id with Some _ => _ | None => _ end). specialize (IH (S position) best').
  assert (best' = best \/ exists u, used es id = Some u /\ best' = Some (position, u)) as Hb.
  { unfold best', used. destruct (es !! id) as [e|]; [|by left]. cbn. destruct best as [[p u]|]; [|by eauto].
    destruct (_ <? _); [right|left]; eauto. }
  assert (forall u', snd <$> best = Some u' \/ used es id = Some u' -> exists u, snd <$> best' = Some u /\ u <= u') as Hmin.
  { unfold best', used. intros u'. destruct (es !! id) as [e|]; cbn.
    - destruct best as [[p u]|]; cbn.
      + destruct (Z.ltb_spec (te_last_used_ms e) u); intros [[= <-]|[= <-]]; cbn; eexists; (split; [done|lia]).
      + intros [|[= <-]]; [done|]. eexists. split; [done|lia].
    - intros [Hu|]; [|done]. exists u'. split; [done|lia]. }
  destruct (lru_from es (S position) best' ids) as [[p u]|].
  - destruct IH as [Hp Hu]. split.
    + destruct Hp as [Hp|(i & id' & -> & Hi & Hid)].
      * destruct Hb as [Hb|(u0 & Hu0 & Hb)]; rewrite Hb in Hp; [by left|]. injection Hp as <- <-.
        right. exists 0%nat, id. split; [lia|done].
      * right. exists (S i), id'. split; [lia|done].
    + intros u' [Hu'|(id' & [->|Hin]%elem_of_cons & Hid')].
      * destruct (Hmin u' (or_introl Hu')) as (u0 & H0 & ?). specialize (Hu u0 (or_introl H0)). lia.
      * destruct (Hmin u' (or_intror Hid')) as (u0 & H0 & ?). specialize (Hu u0 (or_introl H0)). lia.
      * apply Hu. right. eauto.
  - destruct IH as [Hb' Hf]. destruct Hb as [Hb|(u0 & _ & Hb)]; [|congruence]. rewrite Hb in Hb'. split; [done|].
    constructor; [|done]. unfold best' in Hb. rewrite Hb' in Hb. by destruct (es !! id).
Qed.

Lemma least_recently_used_spec es ids :
  Forall (fun id => is_Some (es !! id)) ids -> ids <> [] ->
  exists p id u, least_recently_used es ids = Some p /\ ids !! p = Some id /\ used es id = Some u /\
    forall id' u', id' ∈ ids -> used es id' = Some u' -> u <= u'.
Proof.
  intros Hall Hne. unfold least_recently_used. pose proof (lru_from_spec es 0 None ids) as H.
  destruct (lru_from es 0 None ids) as [[p u]|].
  - destruct H as [[|(i & id & -> & Hi & Hu)] Hmin]; [done|]. exists i, id, u. cbn. split; [done|]. split; [done|].
    split; [done|]. intros. apply Hmin. right. eauto.
  - destruct H as [_ Hf]. destruct ids as [|id ids]; [done|]. inversion Hf as [|?? Hn]. inversion Hall as [|?? [e He]]. congruence.
Qed.

Lemma delete_insert {A} (p : nat) (y : A) (l : list A) : delete p (<[p:=y]> l) = delete p l.
Proof. revert p. induction l as [|x l IH]; intros [|p]; try done. cbn. f_equal. apply IH. Qed.

Lemma swap_remove_spec {A} p (l : list A) x :
  l !! p = Some x -> exists l', swap_remove p l = Some (x, l') /\ l ≡ₚ x :: l'.
Proof.
  intros Hp. unfold swap_remove. rewrite Hp. cbn. destruct l as [|y l0 _] using rev_ind; [done|].
  rewrite last_snoc. cbn. eexists. split; [reflexivity|]. rewrite length_app. cbn. replace (length l0 + 1 - 1)%nat with (length l0) by lia.
  destruct (decide (p < length l0)%nat) as [Hlt|Hge].
  - rewrite insert_app_l by done. rewrite <- (length_insert l0 p y), take_app_length. rewrite lookup_app_l in Hp by done.
    rewrite <- Permutation_cons_append. transitivity (y :: x :: delete p l0); [by rewrite <- (delete_Permutation l0 p x)|].
    rewrite perm_swap. apply perm_skip. rewrite (delete_Permutation (<[p:=y]> l0) p y) by (by apply list_lookup_insert_eq).
    by rewrite delete_insert.
  - apply lookup_lt_Some in Hp as Hlt. rewrite length_app in Hlt. cbn in Hlt. assert (p = length l0) as -> by lia.
    rewrite insert_app_r_alt, Nat.sub_diag by lia. cbn. rewrite take_app_length.
    rewrite lookup_app_r, Nat.sub_diag in Hp by lia. injection Hp as ->. symmetry. apply Permutation_cons_append.
Qed.

Lemma evict_spec fuel cap es ids :
  0 < cap -> (length ids <= fuel)%nat -> NoDup ids -> Forall (fun id => is_Some (es !! id)) ids ->
  exists es' ids' gone,
    TransferRegistry.evict fuel cap es ids = Ok (es', ids') /\ ids ≡ₚ gone ++ ids' /\
    zlen ids' = Z.min (zlen ids) (cap - 1) /\
    (forall i, es' !! i = if decide (i ∈ gone) then None else es !! i) /\
    (forall g k ug uk, g ∈ gone -> k ∈ ids' -> used es g = Some ug -> used es k = Some uk -> ug <= uk).
Proof.
  intros Hcap. revert es ids. induction fuel as [|fuel IH]; intros es ids Hf Hnd Hall; cbn [TransferRegistry.evict];
    destruct (Z.leb_spec cap (zlen ids)) as [Hle|Hlt].
  1: lia.
  1, 3: exists es, ids, []; split; [done|]; split; [done|]; split; [lia|]; split;
    [intros i; rewrite decide_False by (apply not_elem_of_nil); done|intros ???? Hg; by apply elem_of_nil in Hg].
  destruct (least_recently_used_spec es ids Hall) as (p & id & u & -> & Hp & Hu & Hmin); [intros ->; cbn in Hle; lia|].
  destruct (swap_remove_spec p ids id Hp) as (ids1 & -> & Hperm). cbn [expect mbind result_bind].
  assert (id ∉ ids1 /\ NoDup ids1) as [Hni Hnd1] by (apply NoDup_cons; by rewrite <- Hperm).
  pose proof (Permutation_length Hperm) as Hl. cbn in Hl.
  assert (forall i, i ∈ ids1 -> delete id es !! i = es !! i) as Hsame.
  { intros i Hi. apply lookup_delete_ne. congruence. }
  destruct (IH (delete id es) ids1) as (es' & ids' & gone & -> & Hp' & Hlen & Hes & Hold); [lia|done| |].
  { apply Forall_forall. intros i Hi. rewrite Hsame by done. rewrite Forall_forall in Hall. apply Hall. rewrite Hperm. by right. }
  exists es', ids', (id :: gone). split; [done|]. split; [by rewrite Hperm, Hp'|]. split; [lia|]. split.
  - intros i. rewrite Hes. destruct (decide (i = id)) as [->|Hne].
    + rewrite (decide_True (P := id ∈ id :: gone)) by left. case_decide; [done|]. apply lookup_delete_eq.
    + rewrite lookup_delete_ne by congruence. destruct (decide (i ∈ gone)).
      * rewrite decide_True by (by right). done.
      * rewrite decide_False; [done|]. by intros [|]%elem_of_cons.
  - intros g k ug uk [->|Hg]%elem_of_cons Hk Hug Huk.
    + rewrite Hu in Hug. injection Hug as <-. apply (Hmin k); [|done]. rewrite Hperm, Hp'. right. apply elem_of_app. by right.
    + apply (Hold g k); [done|done|..]; unfold used; rewrite Hsame; try done; rewrite Hp'; apply elem_of_app; auto.
Qed.
End Evict.

(** ** What holds of every registry *)

Section Invariant.
Context {D : Type}.
Implicit Type r : TransferRegistry D.
Import TransferRegistry.

Definition cap r : Z := max_transfers_per_session (limits (t_config r)).

(** The plans and the index by session say the same, no session is over its cap, and
    every plan is under its own identifier, never 0. *)
Record plans_ok r : Prop := {
  po_id i e : entries r !! i = Some e -> te_request_id e = i /\ 0 < i < two32;
  po_index i s : (exists ids, by_session r !! s = Some ids /\ i ∈ ids) <->
                 (exists e, entries r !! i = Some e /\ te_session e = s);
  po_ids s ids : by_session r !! s = Some ids -> NoDup ids /\ zlen ids <= cap r;
  po_next : is_u32 (next_id r);
  po_cap : 0 < cap r;
}.

(** The identifier the next plan gets. *)
Definition next_plan r : Z := (next_request_id r).1.

Lemma next_request_id_spec r :
  is_u32 (next_id r) ->
  0 < next_plan r < two32 /\ entries (next_request_id r).2 = entries r /\
  by_session (next_request_id r).2 = by_session r /\ t_config (next_request_id r).2 = t_config r /\
  is_u32 (next_id (next_request_id r).2).
Proof.
  intros Hn. unfold next_plan, next_request_id, is_u32, u32 in *.
  destruct (Z.eqb_spec (next_id r) 0) as [->|]; cbn [fst snd entries by_session t_config next_id].
  - repeat split; vm_compute; congruence.
  - pose proof (Z.mod_pos_bound (next_id r + 1) two32 ltac:(lia)). repeat split; lia.
Qed.

(** The plans of a session. *)
Definition plans_of r (s : bytes) : list Z := default [] (by_session r !! s).

Lemma elem_plans_of r s i : plans_ok r -> i ∈ plans_of r s <-> exists e, entries r !! i = Some e /\ te_session e = s.
Proof.
  intros Hok. rewrite <- (po_index r Hok). unfold plans_of. destruct (by_session r !! s) as [ids|]; cbn.
  - split; [eauto|]. by intros (ids' & [= <-] & ?).
  - split; [by intros ?%elem_of_nil|]. by intros (ids' & ? & _).
Qed.

Lemma plans_of_ok r s : plans_ok r -> NoDup (plans_of r s) /\ zlen (plans_of r s) <= cap r.
Proof.
  intros Hok. unfold plans_of. destruct (by_session r !! s) as [ids|] eqn:Hs; cbn; [by eapply po_ids|].
  pose proof (po_cap r Hok). split; [constructor|lia].
Qed.

(** A plan put in: the session's oldest goes when it was at its cap, and nothing else. *)
Lemma insert_at_spec r session dataset layout now ticket :
  plans_ok r -> entries r !! next_plan r = None ->
  exists e r' gone,
    insert_at r session dataset layout now (Ok ticket) = (Ok e, r') /\ plans_ok r' /\
    te_request_id e = next_plan r /\ te_session e = session /\ te_ticket e = ticket /\ te_layout e = layout /\
    te_dataset e = dataset /\ te_last_used_ms e = now /\
    (forall i, entries r' !! i = if decide (i = next_plan r) then Some e
                                 else if decide (i ∈ gone) then None else entries r !! i) /\
    zlen gone = Z.max 0 (zlen (plans_of r session) + 1 - cap r) /\
    (forall g, g ∈ gone -> g ∈ plans_of r session /\
       forall k ug uk, k ∈ plans_of r session -> k ∉ gone ->
         used (entries r) g = Some ug -> used (entries r) k = Some uk -> ug <= uk).
Proof.
  intros Hok Hfresh. destruct (next_request_id_spec r (po_next r Hok)) as (Hid & He1 & Hb1 & Hc1 & Hn1).
  unfold insert_at, register. unfold next_plan in *. destruct (next_request_id r) as [i r1]. cbn [fst snd] in *.
  rewrite He1, Hb1, Hc1. fold (plans_of r session) (cap r). destruct (plans_of_ok r session Hok) as [Hnd Hlen].
  assert (Forall (fun id => is_Some (entries r !! id)) (plans_of r session)) as Hall.
  { apply Forall_forall. intros j (e & He & _)%elem_plans_of; [by exists e|done]. }
  assert (filter (fun id => is_Some (entries r !! id)) (plans_of r session) = plans_of r session) as ->.
  { clear -Hall. induction Hall as [|j l Hj _ IH]; [done|]. by rewrite filter_cons_True, IH. }
  destruct (evict_spec (length (plans_of r session)) (cap r) (entries r) (plans_of r session)) as
    (es & ids & gone & -> & Hperm & Hl & Hes & Hold); [apply Hok|lia|done|done|].
  set (e := {| te_request_id := i; te_session := session; te_ticket := ticket; te_dataset := dataset;
               te_layout := layout; te_last_used_ms := now |}).
  assert (forall j, j ∈ plans_of r session <-> j ∈ gone \/ j ∈ ids) as Hsplit.
  { intros j. rewrite Hperm. apply elem_of_app. }
  assert (NoDup (gone ++ ids)) as Hndp by (by rewrite <- Hperm). apply NoDup_app in Hndp as (_ & Hdisj & Hndi).
  assert (i ∉ plans_of r session) as Hni.
  { intros (e' & He' & _)%elem_plans_of; [congruence|done]. }
  assert (forall j, j ∈ gone -> exists e', entries r !! j = Some e' /\ te_session e' = session) as Hgone.
  { intros j Hj. apply elem_plans_of; [done|]. rewrite Hperm. apply elem_of_app. by left. }
  assert (forall j, <[i:=e]> es !! j = if decide (j = i) then Some e else if decide (j ∈ gone) then None else entries r !! j) as Hent.
  { intros j. case_decide as Hj; [subst; apply lookup_insert_eq|]. rewrite lookup_insert_ne by congruence. apply Hes. }
  exists e, (with_plans r1 (<[i:=e]> es) (<[session:=ids ++ [i]]> (by_session r))), gone.
  split; [done|]. split; [|do 6 (split; [done|])].
  - split; cbn [with_plans entries by_session next_id]; unfold cap; cbn [with_plans t_config]; rewrite ?Hc1; fold (cap r).
    + intros j e' Hj. rewrite Hent in Hj. case_decide as Hji; [by simplify_eq|]. case_decide; [done|]. by apply (po_id r Hok).
    + intros j s. rewrite Hent. destruct (decide (s = session)) as [->|Hs].
      * rewrite lookup_insert_eq. split.
        -- intros (ids' & [= <-] & [Hj|Hj%list_elem_of_singleton]%elem_of_app); [|subst; rewrite decide_True by done; eauto].
           rewrite decide_False by (intros ->; apply Hni, Hsplit; by right).
           rewrite decide_False by (intros Hg; by apply (Hdisj j)). apply elem_plans_of; [done|]. apply Hsplit. by right.
        -- intros (e' & Hj & Hs). exists (ids ++ [i]). split; [done|]. case_decide as Hji; [subst; apply elem_of_app; right; by left|].
           case_decide as Hg; [done|]. assert (j ∈ plans_of r session) as [|]%Hsplit by (apply elem_plans_of; eauto); [done|].
           apply elem_of_app. by left.
      * rewrite lookup_insert_ne by congruence. rewrite (po_index r Hok). case_decide as Hji.
        -- subst j. split; [intros (? & ? & _); congruence|]. intros (? & [= <-] & Hx). by destruct Hs.
        -- case_decide as Hg; [|done]. split; [|by intros (? & ? & _)]. intros (e' & He' & Hs').
           destruct (Hgone j Hg) as (e'' & ? & ?). congruence.
    + intros s ids' Hi. destruct (decide (s = session)) as [->|Hs].
      * rewrite lookup_insert_eq in Hi. injection Hi as <-. split.
        -- apply NoDup_app. split; [done|]. split; [|apply NoDup_singleton].
           intros j Hj ->%list_elem_of_singleton. apply Hni, Hsplit. by right.
        -- rewrite length_app. cbn. pose proof (po_cap r Hok). lia.
      * rewrite lookup_insert_ne in Hi by congruence. by apply (po_ids r Hok s).
    + done.
    + apply Hok.
  - split; [exact Hent|]. pose proof (Permutation_length Hperm) as Hlp. rewrite length_app in Hlp.
    split; [lia|]. intros g Hg. split; [apply Hsplit; by left|].
    intros k ug uk Hk Hkg. apply Hold; [done|]. apply Hsplit in Hk. naive_solver.
Qed.

(** Dropping plans from both maps alike keeps them agreeing. *)
Lemma plans_ok_restrict r es bs :
  plans_ok r ->
  (forall i e, es !! i = Some e -> exists e0, entries r !! i = Some e0 /\ te_request_id e = te_request_id e0) ->
  (forall i s, (exists ids, bs !! s = Some ids /\ i ∈ ids) <-> (exists e, es !! i = Some e /\ te_session e = s)) ->
  (forall s ids', bs !! s = Some ids' -> exists ids, by_session r !! s = Some ids /\ ids' `sublist_of` ids) ->
  plans_ok (with_plans r es bs).
Proof.
  intros [] He Hi Hb. split; cbn; try done.
  - intros i e Hie. destruct (He i e Hie) as (e0 & H0 & ->). by apply (po_id0 i e0).
  - intros s ids' Hs. destruct (Hb s ids' Hs) as (ids & Hids & Hsub). destruct (po_ids0 s ids Hids) as [Hnd Hl].
    split; [by eapply sublist_NoDup|]. apply sublist_length in Hsub. unfold cap in *. cbn. lia.
Qed.

Lemma remove_ok r i : plans_ok r -> plans_ok (remove r i).
Proof.
  intros Hok. unfold remove. destruct (entries r !! i) as [e|] eqn:Hi; [|done]. apply plans_ok_restrict; [done|..].
  - intros j e' [Hne Hj]%lookup_delete_Some. eauto.
  - intros j s. pose proof (po_index r Hok j s) as Hidx. destruct (decide (s = te_session e)) as [->|Hs].
    + rewrite lookup_alter_eq. split.
      * intros (ids' & Hids & Hj). destruct (by_session r !! te_session e) as [ids|]; [|done]. cbn in Hids. injection Hids as <-.
        apply list_elem_of_filter in Hj as [Hne Hj]. destruct (proj1 Hidx) as (e' & ? & ?); [eauto|].
        exists e'. by rewrite lookup_delete_ne by congruence.
      * intros (e' & [Hne Hj]%lookup_delete_Some & Hs). destruct (proj2 Hidx) as (ids & Hids & Hin); [eauto|].
        rewrite Hids. cbn. eexists. split; [done|]. by apply list_elem_of_filter.
    + rewrite lookup_alter_ne by congruence. rewrite Hidx. split; intros (e' & Hj & He).
      * exists e'. rewrite lookup_delete_ne; [done|]. intros ->. congruence.
      * apply lookup_delete_Some in Hj as [_ Hj]. eauto.
  - intros s ids'. destruct (decide (s = te_session e)) as [->|Hs].
    + rewrite lookup_alter_eq. destruct (by_session r !! te_session e) as [ids|]; [|done]. cbn. intros [= <-].
      exists ids. split; [done|]. apply sublist_filter.
    + rewrite lookup_alter_ne by congruence. eauto.
Qed.

Lemma touched_ok r i now : plans_ok r ->
  plans_ok (with_plans r (alter (fun e => TransferEntry.touch e now) i (entries r)) (by_session r)).
Proof.
  intros Hok. apply plans_ok_restrict; [done|..].
  - intros j e Hj. rewrite lookup_alter in Hj.
    case_decide as Hji; [|eauto]. subst i.
    destruct (entries r !! j) as [e0|]; [|done]. cbn in Hj. injection Hj as <-. eauto.
  - intros j s. rewrite (po_index r Hok). destruct (decide (j = i)) as [->|Hj].
    + rewrite lookup_alter_eq. destruct (entries r !! i) as [e|]; cbn; [|naive_solver].
      split; intros (? & [= <-] & <-); eauto.
    + by rewrite lookup_alter_ne by congruence.
  - eauto.
Qed.

Lemma insert_touched (es : gmap Z (TransferEntry D)) i (e : TransferEntry D) now :
  es !! i = Some e -> <[i := TransferEntry.touch e now]> es = alter (fun e => TransferEntry.touch e now) i es.
Proof.
  intros Hi. apply map_eq. intros j. destruct (decide (j = i)) as [->|Hj].
  - by rewrite lookup_insert_eq, lookup_alter_eq, Hi.
  - by rewrite lookup_insert_ne, lookup_alter_ne by congruence.
Qed.

Lemma fetch_ok r i t s now : plans_ok r -> plans_ok (fetch r i t s now).2.
Proof.
  intros Hok. unfold fetch. destruct (entries r !! i) as [e|] eqn:Hi; [|done].
  destruct (TransferEntry.is_expired _ _ _); [by apply remove_ok|]. destruct (_ || _); [done|].
  cbn [snd]. rewrite insert_touched by done. by apply touched_ok.
Qed.

Lemma lookup_foldl_delete (es : gmap Z (TransferEntry D)) ids j :
  foldl (fun es id => delete id es) es ids !! j = if decide (j ∈ ids) then None else es !! j.
Proof.
  revert es. induction ids as [|i ids IH]; intros es; cbn [foldl].
  - by rewrite decide_False by apply not_elem_of_nil.
  - rewrite IH. destruct (decide (j ∈ ids)); [by rewrite decide_True by (by right)|].
    destruct (decide (j = i)) as [->|Hj]; [rewrite lookup_delete_eq, decide_True by left; done|].
    rewrite lookup_delete_ne by congruence. rewrite decide_False; [done|]. by intros [|]%elem_of_cons.
Qed.

Lemma remove_session_spec r s :
  plans_ok r ->
  let '(n, r') := remove_session r s in
  n = zlen (plans_of r s) /\ plans_ok r' /\
  forall i, entries r' !! i = if decide (i ∈ plans_of r s) then None else entries r !! i.
Proof.
  intros Hok. unfold remove_session, plans_of. destruct (by_session r !! s) as [ids|] eqn:Hs; cbn [default].
  - split; [done|]. split; [|intros i; apply lookup_foldl_delete].
    assert (forall i, i ∈ ids <-> exists e, entries r !! i = Some e /\ te_session e = s) as Hin.
    { intros i. rewrite <- (elem_plans_of r s i Hok). unfold plans_of. by rewrite Hs. }
    apply plans_ok_restrict; [done|..].
    + intros i e. rewrite lookup_foldl_delete. case_decide; [done|eauto].
    + intros i s'. rewrite lookup_foldl_delete. destruct (decide (s' = s)) as [->|Hne].
      * rewrite lookup_delete_eq. split; [intros (? & ? & _); done|]. intros (e & He & Hse).
        case_decide as Hni; [done|]. destruct Hni. apply Hin. eauto.
      * rewrite lookup_delete_ne by congruence. rewrite (po_index r Hok). case_decide as Hi; [|done].
        split; [|by intros (? & ? & _)]. intros (e & He & Hse). apply Hin in Hi as (e' & ? & ?). congruence.
    + intros s' ids' [_ Hs']%lookup_delete_Some. eauto.
  - split; [done|]. split; [done|]. intros i. by rewrite decide_False by apply not_elem_of_nil.
Qed.

(** What the sweep keeps. *)
Definition kept r (now : Z) (is_live : bytes -> bool) (e : TransferEntry D) : Prop :=
  TransferEntry.is_expired e now (ttl_ms r) = false /\ is_live (te_session e) = true.

Lemma sweep_spec r now is_live :
  plans_ok r ->
  let r' := (sweep_at r now is_live).2 in
  plans_ok r' /\ forall i e, entries r' !! i = Some e <-> entries r !! i = Some e /\ kept r now is_live e.
Proof.
  intros Hok. cbn zeta. unfold sweep_at, sweep_answers. cbn [snd]. set (es := filter _ (entries r)).
  assert (forall i e, es !! i = Some e <-> entries r !! i = Some e /\ kept r now is_live e) as Hes.
  { intros i e. unfold es. by rewrite map_lookup_filter_Some. }
  split; [|done]. set (bs := omap _ _).
  assert (forall s ids', bs !! s = Some ids' <-> is_live s = true /\ ids' <> [] /\
    exists ids, by_session r !! s = Some ids /\ ids' = filter (fun id => is_Some (es !! id)) ids) as Hbs.
  { intros s ids'. unfold bs. rewrite lookup_omap_Some. split.
    - intros (ids & Hids & [Hb Hl]%map_lookup_filter_Some). cbn zeta in Hids. case_decide; [done|].
      injection Hids as <-. eauto 10.
    - intros (Hl & Hne & ids & Hb & ->). exists ids. cbn zeta. split; [by rewrite decide_False|].
      by apply map_lookup_filter_Some. }
  apply plans_ok_restrict; [done|..].
  - intros i e [He _]%Hes. eauto.
  - intros i s. split.
    + intros (ids' & (Hl & _ & ids & Hb & ->)%Hbs & [[e He] Hi]%list_elem_of_filter). exists e. split; [done|].
      apply Hes in He as [He _]. destruct (proj1 (po_index r Hok i s)) as (e' & ? & ?); [eauto|]. congruence.
    + intros (e & He & Hs). apply Hes in He as Hk. destruct Hk as [Hi [Hx Hl]]. rewrite Hs in Hl.
      destruct (proj2 (po_index r Hok i s)) as (ids & Hids & Hin); [eauto|].
      assert (i ∈ filter (fun id => is_Some (es !! id)) ids) as Hf by (apply list_elem_of_filter; eauto).
      eexists. split; [|exact Hf]. apply Hbs. split; [done|]. split; [|eauto]. intros Hn. rewrite Hn in Hf.
      by apply elem_of_nil in Hf.
  - intros s ids' (_ & _ & ids & Hb & ->)%Hbs. exists ids. split; [done|]. apply sublist_filter.
Qed.

(** The steps the two planes make on the registry.  An identifier is free until the
    counter has wrapped. *)
Inductive plan_step : TransferRegistry D -> TransferRegistry D -> Prop :=
  | plan_insert r session dataset layout now ticket :
      entries r !! next_plan r = None ->
      plan_step r (insert_at r session dataset layout now ticket).2
  | plan_fetch r i ticket session now : plan_step r (fetch r i ticket session now).2
  | plan_touch r e now : plan_step r (touch r e now)
  | plan_remove r i : plan_step r (remove r i)
  | plan_remove_session r session : plan_step r (remove_session r session).2
  | plan_sweep r now is_live : plan_step r (sweep_at r now is_live).2.

Lemma plan_step_ok r r' : plans_ok r -> plan_step r r' -> plans_ok r'.
Proof.
  intros Hok Hs. destruct Hs.
  - destruct ticket as [ticket| |].
    + destruct (insert_at_spec r session dataset layout now ticket Hok H) as (e & r' & gone & -> & Hok' & _). done.
    + destruct (next_request_id_spec r (po_next r Hok)) as (_ & He & Hb & Hc & Hn).
      unfold insert_at, register. destruct (next_request_id r) as [i r1]. cbn [fst snd] in *.
      destruct Hok. split; unfold cap in *; rewrite ?He, ?Hb, ?Hc; done.
    + destruct (next_request_id_spec r (po_next r Hok)) as (_ & He & Hb & Hc & Hn).
      unfold insert_at, register. destruct (next_request_id r) as [i r1]. cbn [fst snd] in *.
      destruct Hok. split; unfold cap in *; rewrite ?He, ?Hb, ?Hc; done.
  - by apply fetch_ok.
  - by apply touched_ok.
  - by apply remove_ok.
  - pose proof (remove_session_spec r session Hok) as Hr. destruct (remove_session r session). cbn. apply Hr.
  - by apply sweep_spec.
Qed.
End Invariant.

Lemma constant_time_eq_spec a b : length a = length b -> constant_time_eq a b = true <-> a = b.
Proof.
  intros Hl. unfold constant_time_eq. rewrite Z.eqb_eq.
  assert (forall acc, foldl (fun acc '(x, y) => Z.lor acc (Z.lxor x y)) acc (zip a b) = 0 <-> acc = 0 /\ a = b) as H.
  { revert b Hl. induction a as [|x a IH]; intros [|y b]; intros Hl acc; try done; [cbn; tauto|].
    cbn [zip zip_with foldl]. rewrite IH by (cbn in Hl; lia). rewrite Z.lor_eq_0_iff, Z.lxor_eq_0_iff. naive_solver. }
  rewrite H. tauto.
Qed.

Section Properties.
Context {D : Type}.
Implicit Type r : TransferRegistry D.
Import TransferRegistry.

(** Whatever order plans are prepared, fetched, expired, swept and dropped with
    their sessions in, every plan is filed under its own nonzero identifier, the index by
    session lists exactly the session's plans, each once, and no session holds more than
    its cap. *)
Theorem plans_consistent config r :
  config_valid config -> rtc plan_step (new config) r -> plans_ok r.
Proof.
  intros Hv Hr. assert (plans_ok (new (D:=D) config)) as Hnew.
  { split.
    - intros i e Hi. cbn in Hi. by rewrite lookup_empty in Hi.
    - intros i s. cbn. rewrite !lookup_empty. split; [intros (ids & Hn & _)|intros (e & Hn & _)]; discriminate Hn.
    - intros s ids Hs. cbn in Hs. by rewrite lookup_empty in Hs.
    - cbn. unfold is_u32. lia.
    - apply Hv. }
  induction Hr as [r|r1 r2 r3 Hs Hr IH]; [done|]. apply IH. by eapply plan_step_ok.
Qed.

(** C34: the only access control of the data plane.  A fetch is answered with a plan
    exactly when it names a live plan of the connection's own session with the plan's own
    ticket, and the plan is then as good as new; a live plan named without them is an
    authentication failure that changes nothing; anything else is no such plan. *)
Theorem fetch_authorized r i ticket session now :
  length ticket = 16%nat -> (forall e, entries r !! i = Some e -> length (te_ticket e) = 16%nat) ->
  (forall e', (fetch r i ticket session now).1 = Ok e' <->
     exists e, entries r !! i = Some e /\ TransferEntry.is_expired e now (ttl_ms r) = false /\
       te_ticket e = ticket /\ te_session e = session /\ e' = TransferEntry.touch e now /\
       entries (fetch r i ticket session now).2 !! i = Some e') /\
  ((fetch r i ticket session now).1 = Err SAuth <->
     (fetch r i ticket session now).2 = r /\
     exists e, entries r !! i = Some e /\ TransferEntry.is_expired e now (ttl_ms r) = false /\
       (te_ticket e <> ticket \/ te_session e <> session)) /\
  ((fetch r i ticket session now).1 = Err SNoSuchPlan <->
     forall e, entries r !! i = Some e -> TransferEntry.is_expired e now (ttl_ms r) = true).
Proof.
  intros Hl Hle. unfold fetch. destruct (entries r !! i) as [e|] eqn:Hi; cbn [fst snd].
  2: { split; [|split]; [intros e'| |]; split; try done; [by intros (? & ? & _)|by intros (_ & ? & ? & _)]. }
  specialize (Hle e eq_refl). destruct (TransferEntry.is_expired e now (ttl_ms r)) eqn:Hx; cbn [fst snd].
  { split; [|split]; [intros e'| |]; split; try done; [intros (? & [= <-] & ? & _)|intros (_ & ? & [= <-] & ? & _)|intros _ ? [= <-]];
      congruence. }
  pose proof (constant_time_eq_spec (te_ticket e) ticket ltac:(congruence)) as Ht.
  destruct (decide (te_ticket e = ticket /\ te_session e = session)) as [[Htk Hs]|Hno].
  - rewrite (proj2 Ht Htk), (bool_decide_true _ Hs). cbn [negb orb fst snd with_plans entries]. rewrite lookup_insert_eq.
    split; [|split].
    + intros e'. split; [intros [= <-]; eauto 10|]. by intros (? & [= <-] & _ & _ & _ & -> & _).
    + split; [done|]. intros (_ & ? & [= <-] & _ & [|]); by subst.
    + split; [done|]. intros H. specialize (H e eq_refl). congruence.
  - assert (negb (constant_time_eq (te_ticket e) ticket) || negb (bool_decide (te_session e = session)) = true) as ->.
    { apply orb_true_iff. destruct (constant_time_eq _ _); [right|by left]. cbn. apply negb_true_iff, bool_decide_eq_false.
      intros Hs. apply Hno. split; [by apply Ht|done]. }
    cbn [fst snd]. split; [|split].
    + intros e'. split; [done|]. intros (? & [= <-] & _ & ? & ? & _). by destruct Hno.
    + split; [|done]. intros _. split; [done|]. exists e. split; [done|]. split; [done|].
      destruct (decide (te_ticket e = ticket)); [right|by left]. intros Hs. by apply Hno.
    + split; [done|]. intros H. specialize (H e eq_refl). congruence.
Qed.

(** Preparing a transfer at the session's cap drops that session's least
    recently used plan and no other; under the cap it drops none.  The new plan is found
    by its identifier, ticket and session. *)
Theorem insert_evicts_oldest r session dataset layout now ticket :
  plans_ok r -> entries r !! next_plan r = None -> length ticket = 16%nat ->
  let '(answer, r') := insert_at r session dataset layout now (Ok ticket) in
  exists e, answer = Ok e /\ te_layout e = layout /\ te_dataset e = dataset /\
    (0 <= ttl_ms r -> (fetch r' (next_plan r) ticket session now).1 = Ok e) /\
    (forall i, i <> next_plan r -> i ∉ plans_of r session -> entries r' !! i = entries r !! i) /\
    (zlen (plans_of r session) < cap r -> forall i, i <> next_plan r -> entries r' !! i = entries r !! i) /\
    (zlen (plans_of r session) = cap r -> exists oldest, oldest ∈ plans_of r session /\
       entries r' !! oldest = None /\
       (forall i, i <> next_plan r -> i <> oldest -> entries r' !! i = entries r !! i) /\
       forall k ug uk, k ∈ plans_of r session -> used (entries r) oldest = Some ug ->
         used (entries r) k = Some uk -> ug <= uk).
Proof.
  intros Hok Hfresh Hl.
  destruct (insert_at_spec r session dataset layout now ticket Hok Hfresh) as
    (e & r' & gone & Hins & Hok' & Hid & Hs & Ht & Hlay & Hds & Hu & Hent & Hlen & Hold). rewrite Hins.
  assert (t_config r' = t_config r) as Hcfg.
  { pose proof (next_request_id_spec r (po_next r Hok)) as (_ & _ & _ & Hc & _). unfold insert_at, register in Hins.
    destruct (next_request_id r) as [n r1]. cbn in Hc. destruct (evict _ _ _ _) as [[es ids]| |]; simplify_eq. done. }
  exists e. split; [done|]. split; [done|]. split; [done|]. split; [|split; [|split]].
  - intros Httl. unfold fetch. rewrite Hent, decide_True by done.
    assert (TransferEntry.is_expired e now (ttl_ms r') = false) as ->.
    { unfold TransferEntry.is_expired, saturating_sub. rewrite Hu. apply Z.ltb_ge. unfold ttl_ms in *. rewrite Hcfg. lia. }
    destruct (constant_time_eq_spec (te_ticket e) ticket) as [_ ->]; [congruence| |done].
    rewrite bool_decide_true by done. cbn. destruct e; cbn in *. by subst.
  - intros i Hne Hni. rewrite Hent, decide_False by done. rewrite decide_False; [done|]. intros Hg. by apply Hold in Hg as [? _].
  - intros Hlt i Hne. rewrite Hent, decide_False by done. rewrite decide_False; [done|].
    assert (gone = []) as -> by (destruct gone; [done|cbn in Hlen; lia]). apply not_elem_of_nil.
  - intros Heq. destruct gone as [|oldest [|]]; cbn in Hlen; [lia| |lia].
    destruct (Hold oldest ltac:(left)) as [Hin Hmin]. exists oldest. split; [done|].
    assert (oldest <> next_plan r) as Hne.
    { intros ->. apply elem_plans_of in Hin as (? & ? & _); [congruence|done]. }
    split; [|split].
    + rewrite Hent, decide_False by done. by rewrite decide_True by left.
    + intros i Hi Hi'. rewrite Hent, decide_False by done. rewrite decide_False; [done|]. by intros ?%list_elem_of_singleton.
    + intros k ug uk Hk Hug Huk. destruct (decide (k = oldest)) as [->|Hko]; [rewrite Huk in Hug; injection Hug as ->; lia|].
      apply (Hmin k ug uk Hk); [by intros ?%list_elem_of_singleton|done|done].
Qed.

(** A session that ends takes exactly its own plans with it, and the sweep
    keeps exactly the plans used within the time to live whose session is live. *)
Theorem plans_end_with_session r session now is_live :
  plans_ok r -> 0 <= ttl_ms r ->
  (forall i, entries (remove_session r session).2 !! i =
     match entries r !! i with
     | Some e => if decide (te_session e = session) then None else Some e
     | None => None
     end) /\
  (forall i e, entries (sweep_at r now is_live).2 !! i = Some e <->
     entries r !! i = Some e /\ now - te_last_used_ms e <= ttl_ms r /\ is_live (te_session e) = true).
Proof.
  intros Hok Httl. split.
  - pose proof (remove_session_spec r session Hok) as Hr. destruct (remove_session r session) as [n r']. destruct Hr as (_ & _ & Hr).
    intros i. cbn. rewrite Hr. destruct (entries r !! i) as [e|] eqn:Hi.
    + destruct (decide (te_session e = session)) as [Hs|Hs].
      * rewrite decide_True; [done|]. apply elem_plans_of; eauto.
      * rewrite decide_False; [done|]. intros (? & ? & ?)%elem_plans_of; [congruence|done].
    + by case_decide.
  - intros i e. destruct (sweep_spec r now is_live Hok) as [_ ->]. unfold kept, TransferEntry.is_expired, saturating_sub.
    rewrite Z.ltb_ge. split; intros (? & ? & ?); repeat split; try done; lia.
Qed.
End Properties.

(** *** One session at its cap of two plans *)

Definition demo_plan_config : ServerConfig :=
  {| enable_null_backend := false;
     limits := {| max_sessions := 2; max_fancy_indices := 16; grpc_max_message_bytes := 65536;
                  max_streams_per_session := 4; max_transfers_per_session := 2; session_idle_timeout_sec := 1;
                  data_conn_idle_timeout_sec := 1; transfer_ttl_sec := 1 |};
     transfer := ServerConfig.default_transfer; roots := ["/data"%string] |}.

Definition demo_plan_layout : SelectionLayout :=
  {| l_out_shape := [4]; l_dtype := Int8; l_src_dtype := Int8; total_bytes := 4; l_quality := QualitySpec.exact;
     kind := Contiguous 0 4 |}.

Definition demo_ticket (n : Z) : bytes := replicate 16 n.

(** [prepare s t now r]: a plan of session [s] with ticket [t]. *)
Definition prepare (s t now : Z) (r : TransferRegistry unit) : TransferRegistry unit :=
  (TransferRegistry.insert_at r (demo_ticket s) tt demo_plan_layout now (Ok (demo_ticket t))).2.

Definition demo_plans : TransferRegistry unit :=
  prepare 1 20 5 (prepare 2 11 3 (prepare 1 10 0 (TransferRegistry.new demo_plan_config))).

Lemma demo_plan_config_valid : config_valid demo_plan_config.
Proof. by split; cbn. Qed.

Lemma prepare_step s t now r : entries r !! next_plan r = None -> plan_step r (prepare s t now r).
Proof. intros. by apply plan_insert. Qed.

Lemma demo_plans_reached : rtc plan_step (TransferRegistry.new demo_plan_config) demo_plans.
Proof.
  unfold demo_plans. eapply rtc_l; [apply (prepare_step 1 10 0); vm_compute; reflexivity|].
  eapply rtc_l; [apply (prepare_step 2 11 3); vm_compute; reflexivity|].
  apply rtc_once. apply prepare_step. vm_compute. reflexivity.
Defined.

Lemma plans_consistent_witness : plans_ok demo_plans.
Proof. exact (plans_consistent demo_plan_config demo_plans demo_plan_config_valid demo_plans_reached). Defined.

Lemma fetch_authorized_witness :
  (TransferRegistry.fetch demo_plans 1 (demo_ticket 11) (demo_ticket 1) 6).1 = Err SAuth.
Proof.
  assert (forall e, entries demo_plans !! 1 = Some e -> length (te_ticket e) = 16%nat) as Hle.
  { intros e He. vm_compute in He. injection He as <-. reflexivity. }
  apply (fetch_authorized demo_plans 1 (demo_ticket 11) (demo_ticket 1) 6 eq_refl Hle).
  split; [reflexivity|]. eexists. split; [vm_compute; reflexivity|]. split; [reflexivity|]. left. discriminate.
Defined.

Lemma demo_plans_ok : plans_ok demo_plans.
Proof.
  assert (plans_ok (TransferRegistry.new (D := unit) demo_plan_config)) as Hnew.
  { split; [intros i e Hi|intros i s|intros s ids Hs|unfold is_u32; cbn; lia|done]; cbn in *; rewrite ?lookup_empty in *.
    - done.
    - split; [intros (ids & Hn & _)|intros (e & Hn & _)]; discriminate Hn.
    - done. }
  pose proof demo_plans_reached as Hr. induction Hr as [|r1 r2 r3 Hs Hr IH]; [done|]. apply IH. by eapply plan_step_ok.
Qed.

Lemma insert_evicts_oldest_witness :
  exists oldest, entries (prepare 1 30 6 demo_plans) !! oldest = None /\ oldest ∈ plans_of demo_plans (demo_ticket 1).
Proof.
  destruct (insert_evicts_oldest demo_plans (demo_ticket 1) tt demo_plan_layout 6 (demo_ticket 30)
    demo_plans_ok ltac:(vm_compute; reflexivity) eq_refl) as (e & _ & _ & _ & _ & _ & _ & H).
  destruct (H ltac:(vm_compute; reflexivity)) as (oldest & Hin & Hgone & _). exists oldest. split; [exact Hgone|exact Hin].
Defined.

Lemma plans_end_with_session_witness :
  entries (TransferRegistry.remove_session demo_plans (demo_ticket 1)).2 !! 3 = None.
Proof.
  rewrite (proj1 (plans_end_with_session demo_plans (demo_ticket 1) 6 (fun _ => true) demo_plans_ok
    ltac:(vm_compute; discriminate)) 3). vm_compute. reflexivity.
Defined.

(** An identifier that comes round again while its plan is alive takes that plan's
    place, and the session it was taken from then takes the new owner's plan down with
    it: session 2 loses the plan it was just promised when session 1 ends. *)
Theorem wrapped_id_drops_other_plan :
  let wrapped := {| entries := entries demo_plans; by_session := by_session demo_plans; next_id := 1;
                    t_config := demo_plan_config |} in
  let r := prepare 2 40 6 wrapped in
  (TransferRegistry.fetch r 1 (demo_ticket 40) (demo_ticket 2) 6).1 <> Err SNoSuchPlan /\
  (TransferRegistry.fetch (TransferRegistry.remove_session r (demo_ticket 1)).2 1 (demo_ticket 40) (demo_ticket 2) 6).1
    = Err SNoSuchPlan.
Proof. split; [vm_compute; discriminate|vm_compute; reflexivity]. Qed.
