(* ===== verification/Reader.v ===== *)
(** The read half of a data connection: [aex-server/src/reader.rs]. *)
From S2P Require Import Prelude Errors Dtype Bytes Quality Selection Cast Layout LayoutSpec Backend Null Transfer.

Definition READ_AHEAD_BYTES : Z := Z.shiftl 4 20.

(** [buffer_len] is the length of the buffer, which keeps its full size; [hinted] is how
    far into the logical stream the storage has been asked to read. *)
Record FetchReader : Type := { buffer_len : Z; hinted : Z }.

(** Cut a piece so that it ends where a row of the output array does. *)
Definition row_aligned (layout : SelectionLayout) (offset piece : Z) : Z :=
  if bool_decide (QualitySpec.eps (l_quality layout) = None) then piece
  else
    let whole := piece - piece mod DType.itemsize (l_dtype layout) in
    let aligned :=
      match SelectionLayout.row_bytes layout with
      | Some row =>
          if (offset +w piece) mod row <? piece then piece - (offset +w piece) mod row else whole
      | None => whole
      end in
    if aligned =? 0 then piece else aligned.

Module FetchReader.
Definition new (piece_bytes : Z) : FetchReader := {| buffer_len := piece_bytes; hinted := 0 |}.

(** The window the storage is asked for before the piece at [offset], if it moves. *)
Definition hint (layout : SelectionLayout) (offset : Z) (r : FetchReader) : list (Z * Z) * FetchReader :=
  let window := Z.min (saturating_add offset READ_AHEAD_BYTES) (total_bytes layout) in
  if hinted r <? window then
    let from := Z.max (hinted r) offset in
    ([(from, window -w from)], {| buffer_len := buffer_len r; hinted := window |})
  else ([], r).

Section Serve.
Context `{ArrayDataset D} {St E : Type}.
(** The [send] closure, on the state it changes. *)
Context (send : St -> Z -> bytes -> St * result E unit).

(** What [serve] leaves: its answer, the sender's state, the reader, and the hints
    given to the storage. *)
Record Outcome : Type := {
  answer : result E (result AexError unit);
  sent : St;
  reader : FetchReader;
  hints : list (Z * Z);
}.

Fixpoint serve_loop (fuel : nat) (r : FetchReader) (d : D) (layout : SelectionLayout) (offset len : Z) (st : St)
    (asked : list (Z * Z)) : Outcome :=
  if 0 <? len then
    match fuel with
    | O => {| answer := Panic; sent := st; reader := r; hints := asked |}
    | S fuel' =>
        let piece := row_aligned layout offset (Z.min len (buffer_len r)) in
        let '(asked', r) := hint layout offset r in
        let asked := asked ++ asked' in
        match ds_read_range d layout offset (replicate (Z.to_nat piece) 0) with
        | Err e => {| answer := Ok (Err e); sent := st; reader := r; hints := asked |}
        | Panic => {| answer := Panic; sent := st; reader := r; hints := asked |}
        | Ok bytes =>
            match send st offset bytes with
            | (st, Ok _) => serve_loop fuel' r d layout (offset +w piece) (len -w piece) st asked
            | (st, Err e) => {| answer := Err e; sent := st; reader := r; hints := asked |}
            | (st, Panic) => {| answer := Panic; sent := st; reader := r; hints := asked |}
            end
        end
    end
  else {| answer := Ok (Ok tt); sent := st; reader := r; hints := asked |}.

(** Read [offset, offset + len) of a transfer in pieces, handing each to [send]. *)
Definition serve (r : FetchReader) (entry : TransferEntry D) (offset len : Z) (st : St) : Outcome :=
  let carries_on := (offset <=? hinted r) && (hinted r - offset <=? READ_AHEAD_BYTES) in
  let r := if carries_on then r else {| buffer_len := buffer_len r; hinted := offset |} in
  serve_loop (Z.to_nat len) r (te_dataset entry) (te_layout entry) offset len st [].
End Serve.
End FetchReader.

(** ** How a range is cut *)

(** The pieces of [offset, offset + len), as (offset, length). *)
Fixpoint cut (fuel : nat) (layout : SelectionLayout) (buffer offset len : Z) : list (Z * Z) :=
  match fuel with
  | O => []
  | S fuel' =>
      if 0 <? len then
        let piece := row_aligned layout offset (Z.min len buffer) in
        (offset, piece) :: cut fuel' layout buffer (offset + piece) (len - piece)
      else []
  end.

(** Pieces one after the other, from [offset] to [offset + len], none of them empty or
    larger than the buffer. *)
Fixpoint consecutive (buffer offset len : Z) (pieces : list (Z * Z)) : Prop :=
  match pieces with
  | [] => len = 0
  | (at_, n) :: pieces' => at_ = offset /\ 0 < n <= buffer /\ n <= len /\ consecutive buffer (offset + n) (len - n) pieces'
  end.

Lemma row_aligned_range layout offset piece :
  0 < piece -> 0 < row_aligned layout offset piece <= piece.
Proof.
  intros Hp. unfold row_aligned. case_bool_decide; [lia|]. pose proof (itemsize_pos (l_dtype layout)) as Hi.
  pose proof (Z.mod_pos_bound piece (DType.itemsize (l_dtype layout)) ltac:(lia)).
  assert (0 <= piece mod DType.itemsize (l_dtype layout) <= piece) by (split; [lia|apply Z.mod_le; lia]).
  destruct (SelectionLayout.row_bytes layout) as [row|] eqn:Hrow.
  - assert (0 < row) as Hr.
    { unfold SelectionLayout.row_bytes in Hrow. destruct (last _); [|done]. cbn in Hrow.
      destruct (checked_mul _ _); [|done]. cbn in Hrow. destruct (Z.ltb_spec 0 z0); [|done]. by simplify_eq. }
    pose proof (Z.mod_pos_bound (offset +w piece) row Hr).
    destruct (Z.ltb_spec ((offset +w piece) mod row) piece);
      match goal with |- context [if ?a =? 0 then _ else _] => destruct (Z.eqb_spec a 0) end; lia.
  - match goal with |- context [if ?a =? 0 then _ else _] => destruct (Z.eqb_spec a 0) end; lia.
Qed.

Lemma cut_consecutive fuel layout buffer offset len :
  0 < buffer -> 0 <= len -> len <= Z.of_nat fuel -> consecutive buffer offset len (cut fuel layout buffer offset len).
Proof.
  intros Hb. revert offset len. induction fuel as [|fuel IH]; intros offset len Hl Hf; cbn [cut]; [cbn; lia|].
  destruct (Z.ltb_spec 0 len); [|cbn; lia].
  pose proof (row_aligned_range layout offset (Z.min len buffer) ltac:(lia)). cbn [consecutive].
  split; [done|]. split; [lia|]. split; [lia|]. apply IH; lia.
Qed.

(** Joined, the pieces' bytes are the range's. *)
Lemma consecutive_bytes {A} (stream : list A) buffer offset len pieces :
  0 <= offset -> consecutive buffer offset len pieces ->
  concat ((fun '(at_, n) => slice at_ n stream) <$> pieces) = slice offset len stream.
Proof.
  revert offset len. induction pieces as [|[at_ n] pieces IH]; intros offset len Ho; cbn [consecutive].
  - intros ->. by rewrite slice_nil.
  - intros (-> & Hn & Hle & Hc). cbn. rewrite (IH (offset + n) (len - n)) by (done || lia).
    replace len with (n + (len - n)) at 2 by lia. symmetry. apply slice_split; lia.
Qed.

(** Fetched in whole elements, a range is cut in whole elements, and a piece ends where a
    row does as soon as a row fits in it. *)
Lemma row_aligned_whole layout offset piece isz :
  isz = DType.itemsize (l_dtype layout) -> QualitySpec.eps (l_quality layout) <> None ->
  0 <= offset -> 0 < piece -> offset + piece < two64 -> (isz | offset) -> isz <= piece ->
  (isz | row_aligned layout offset piece) /\
  (forall row, SelectionLayout.row_bytes layout = Some row -> row <= piece ->
     (row | offset + row_aligned layout offset piece)).
Proof.
  intros -> Heps Ho Hp Hlt Hdo Hle. unfold row_aligned. rewrite bool_decide_false by done.
  pose proof (itemsize_pos (l_dtype layout)) as Hi. set (isz := DType.itemsize (l_dtype layout)) in *.
  assert (0 < piece - piece mod isz /\ (isz | piece - piece mod isz)) as [Hwp Hw].
  { pose proof (Z.div_mod piece isz ltac:(lia)). assert (1 <= piece / isz) by (apply Z.div_le_lower_bound; lia).
    split; [nia|]. exists (piece / isz). lia. }
  rewrite wadd_small by (unfold is_u64; lia).
  destruct (SelectionLayout.row_bytes layout) as [row|] eqn:Hrow.
  - assert (0 < row /\ (isz | row)) as [Hr Hdr].
    { unfold SelectionLayout.row_bytes in Hrow. fold isz in Hrow. destruct (last _) as [inner|]; [|done]. cbn in Hrow.
      destruct (checked_mul inner _) as [rb|] eqn:Hm; [|done]. cbn in Hrow. apply checked_mul_some in Hm as [-> _].
      destruct (Z.ltb_spec 0 (inner * isz)); [|done]. injection Hrow as <-. split; [done|]. by exists inner. }
    pose proof (Z.mod_pos_bound (offset + piece) row Hr). pose proof (Z.div_mod (offset + piece) row ltac:(lia)) as Hdm.
    destruct (Z.ltb_spec ((offset + piece) mod row) piece) as [Hlt'|Hge].
    + rewrite (proj2 (Z.eqb_neq _ _)) by lia.
      assert (offset + (piece - (offset + piece) mod row) = row * ((offset + piece) / row)) as He by lia. split.
      * replace (piece - (offset + piece) mod row) with (row * ((offset + piece) / row) - offset) by lia.
        apply Z.divide_sub_r; [|done]. by apply Z.divide_mul_l.
      * intros row' [= <-] _. rewrite He. exists ((offset + piece) / row). lia.
    + rewrite (proj2 (Z.eqb_neq _ _)) by lia. split; [done|]. intros row' [= <-]. lia.
  - rewrite (proj2 (Z.eqb_neq _ _)) by lia. split; [done|discriminate].
Qed.

Lemma cut_whole fuel layout buffer offset len :
  QualitySpec.eps (l_quality layout) <> None -> 0 <= offset -> offset + len < two64 ->
  (DType.itemsize (l_dtype layout) | offset) -> (DType.itemsize (l_dtype layout) | len) ->
  DType.itemsize (l_dtype layout) <= buffer ->
  Forall (fun '(at_, n) => (DType.itemsize (l_dtype layout) | at_) /\ (DType.itemsize (l_dtype layout) | n))
    (cut fuel layout buffer offset len).
Proof.
  intros Heps Ho Hlt Hdo Hdl Hb. pose proof (itemsize_pos (l_dtype layout)) as Hi.
  set (isz := DType.itemsize (l_dtype layout)) in *. revert offset len Ho Hlt Hdo Hdl.
  induction fuel as [|fuel IH]; intros offset len Ho Hlt Hdo Hdl; cbn [cut]; [constructor|].
  destruct (Z.ltb_spec 0 len) as [Hl|]; [|constructor].
  assert (isz <= len) by (apply Z.divide_pos_le; done).
  destruct (row_aligned_whole layout offset (Z.min len buffer) isz) as [Hd _]; try done; try lia.
  pose proof (row_aligned_range layout offset (Z.min len buffer) ltac:(lia)).
  constructor; [done|]. apply IH; [lia|lia|by apply Z.divide_add_r|by apply Z.divide_sub_r].
Qed.

(** ** What is sent *)

Section Sending.
Context {St E : Type} (send : St -> Z -> bytes -> St * result E unit).

(** The pieces sent one after the other until one fails. *)
Fixpoint send_all (st : St) (pieces : list (Z * bytes)) : St * result E unit :=
  match pieces with
  | [] => (st, Ok tt)
  | (at_, b) :: pieces' =>
      match send st at_ b with
      | (st, Ok _) => send_all st pieces'
      | (st, Err e) => (st, Err e)
      | (st, Panic) => (st, Panic)
      end
  end.
End Sending.

Lemma hint_buffer layout offset r : buffer_len (FetchReader.hint layout offset r).2 = buffer_len r.
Proof. unfold FetchReader.hint. by destruct (_ <? _). Qed.

(** A read that fails stops the fetch with its error, once the pieces before it are sent. *)
Lemma serve_fails `{ArrayDataset D} {St E : Type} (send : St -> Z -> bytes -> St * result E unit) rd (entry : TransferEntry D)
    offset len st st' before at_ n after bs e :
  0 < buffer_len rd -> 0 <= offset -> 0 <= len -> offset + len < two64 ->
  cut (Z.to_nat len) (te_layout entry) (buffer_len rd) offset len = before ++ (at_, n) :: after ->
  Forall2 (fun piece b => ds_read_range (te_dataset entry) (te_layout entry) piece.1 (replicate (Z.to_nat piece.2) 0) = Ok b) before bs ->
  ds_read_range (te_dataset entry) (te_layout entry) at_ (replicate (Z.to_nat n) 0) = Err e ->
  send_all send st (zip before.*1 bs) = (st', Ok tt) ->
  let o := FetchReader.serve send rd entry offset len st in FetchReader.sent o = st' /\ FetchReader.answer o = Ok (Err e).
Proof.
  intros Hb Ho Hl Hlt Hcut Hok Herr Hsend. cbn zeta. unfold FetchReader.serve. cbn zeta.
  set (rd' := if _ : bool then rd else _). assert (buffer_len rd' = buffer_len rd) as Hrd by (unfold rd'; by destruct (_ && _)).
  rewrite <- Hrd in Hb, Hcut. clearbody rd'. clear Hrd rd. generalize (@nil (Z * Z)) as asked. revert Hcut. generalize (Z.to_nat len) as fuel.
  intros fuel. revert fuel rd' st offset len Hb Ho Hl Hlt Hsend.
  induction Hok as [|[a m] b before bs Hread _ IH]; intros fuel rd st offset len Hb Ho Hl Hlt Hsend Hcut asked;
    (destruct fuel as [|fuel]; [by try destruct before|]); cbn [cut FetchReader.serve_loop] in *;
    (destruct (Z.ltb_spec 0 len); [|by try destruct before]); injection Hcut as -> <- Hcut;
    (destruct (FetchReader.hint (te_layout entry) _ rd) as [asked' rd'] eqn:Hh); cbn [fst snd] in *.
  - rewrite Herr. cbn in *. by injection Hsend as ->.
  - rewrite Hread. cbn [fmap list_fmap zip zip_with send_all fst] in Hsend.
    pose proof (row_aligned_range (te_layout entry) a (Z.min len (buffer_len rd)) ltac:(lia)) as Hp.
    pose proof (hint_buffer (te_layout entry) a rd) as Hhb. rewrite Hh in Hhb. cbn in Hhb.
    destruct (send st a b) as [st1 [[]| |]]; try done. rewrite wadd_small, wsub_small by (unfold is_u64; lia).
    apply IH; rewrite ?Hhb; done || lia.
Qed.

Section Correct.
Context `{Build, HalfLib, ArrayDataset D} {St E : Type} (send : St -> Z -> bytes -> St * result E unit).
Context (d : D) (data : bytes) (indices : list Index) (q : QualitySpec).
Context (l : SelectionLayout) (r : ResolvedSelection).
Context (Hd : serves d data) (Hidx : Forall index_wf indices).
Context (Hl : layout d indices q = Ok l) (Hr : Selection.resolve (ds_shape d) indices = Ok r).
Context (Hcast : l_dtype l <> l_src_dtype l -> 2 * total_bytes l < two64).
Context (Htotal : total_bytes l < two64).
Local Notation stream := (logical_stream data (ds_shape d) (ds_dtype d) (l_dtype l) r).

Lemma read_piece offset n :
  0 <= offset -> 0 <= n -> offset + n <= total_bytes l ->
  ds_read_range d l offset (replicate (Z.to_nat n) 0) = Ok (slice offset n stream).
Proof.
  intros Ho Hn Hle. assert (zlen (replicate (Z.to_nat n) 0) = n) as Hz by (rewrite length_replicate; lia).
  rewrite (Hd indices q l r) by (done || unfold is_u64; lia). by rewrite Hz, decide_True.
Qed.

Lemma serve_loop_spec fuel rd offset len st asked :
  0 < buffer_len rd -> 0 <= offset -> 0 <= len -> offset + len <= total_bytes l -> len <= Z.of_nat fuel ->
  let out := FetchReader.serve_loop send fuel rd d l offset len st asked in
  (FetchReader.sent out, FetchReader.answer out) =
  (let '(st, res) := send_all send st ((fun '(at_, n) => (at_, slice at_ n stream)) <$> cut fuel l (buffer_len rd) offset len) in
   (st, (fun _ => Ok tt) <$> res)).
Proof.
  cbn zeta. revert rd offset len st asked. induction fuel as [|fuel IH]; intros rd offset len st asked Hb Ho Hlen Hle Hf;
    cbn [FetchReader.serve_loop cut]; destruct (Z.ltb_spec 0 len); try lia; try done.
  pose proof (row_aligned_range l offset (Z.min len (buffer_len rd)) ltac:(lia)) as Hp.
  pose proof (hint_buffer l offset rd) as Hhb. destruct (FetchReader.hint l offset rd) as [asked' rd']. cbn in Hhb.
  rewrite read_piece by lia. cbn [fmap list_fmap send_all].
  destruct (send st offset _) as [st' [[]| |]]; [|done..].
  rewrite wadd_small, wsub_small by (unfold is_u64; lia). rewrite <- Hhb. apply IH; rewrite ?Hhb; lia.
Qed.

Lemma serve_spec rd entry offset len st :
  te_dataset entry = d -> te_layout entry = l -> 0 < buffer_len rd ->
  0 <= offset -> 0 <= len -> offset + len <= total_bytes l ->
  let out := FetchReader.serve send rd entry offset len st in
  (FetchReader.sent out, FetchReader.answer out) =
  (let '(st, res) := send_all send st
     ((fun '(at_, n) => (at_, slice at_ n stream)) <$> cut (Z.to_nat len) l (buffer_len rd) offset len) in
   (st, (fun _ => Ok tt) <$> res)).
Proof.
  intros Hed Hel Hb Ho Hlen Hle. unfold FetchReader.serve. cbn zeta. rewrite Hed, Hel.
  rewrite serve_loop_spec by (try lia; destruct (_ && _); done). by destruct (_ && _).
Qed.
End Correct.

Section Properties.
Context `{Build, HalfLib, Served D} {St E : Type} (send : St -> Z -> bytes -> St * result E unit).

(** A fetch is sent whole and in order.  Against any open dataset and any plan
    resolved from it, the pieces handed to [send] follow one another from the first byte
    asked for to the last, none of them empty or larger than the buffer, and joined they
    are exactly the range of the logical stream; a send that fails stops the fetch with
    its error and nothing more is sent. *)
Theorem serve_sends_range (d : D) indices q l r rd entry offset len st :
  ds_open d -> Forall index_wf indices -> layout d indices q = Ok l ->
  Selection.resolve (ds_shape d) indices = Ok r ->
  2 * total_bytes l < two64 -> te_dataset entry = d -> te_layout entry = l ->
  0 < buffer_len rd -> 0 <= offset -> 0 <= len -> offset + len <= total_bytes l ->
  exists pieces,
    consecutive (buffer_len rd) offset len pieces /\
    concat ((fun '(at_, n) => slice at_ n (logical_stream (contents d) (ds_shape d) (ds_dtype d) (l_dtype l) r)) <$> pieces)
      = slice offset len (logical_stream (contents d) (ds_shape d) (ds_dtype d) (l_dtype l) r) /\
    let out := FetchReader.serve send rd entry offset len st in
    (FetchReader.sent out, FetchReader.answer out) =
    (let '(st, res) := send_all send st
       ((fun '(at_, n) => (at_, slice at_ n (logical_stream (contents d) (ds_shape d) (ds_dtype d) (l_dtype l) r))) <$> pieces) in
     (st, (fun _ => Ok tt) <$> res)).
Proof.
  intros Hop Hi Hl Hr Ht Hed Hel Hb Ho Hn Hle.
  exists (cut (Z.to_nat len) l (buffer_len rd) offset len).
  pose proof (cut_consecutive (Z.to_nat len) l (buffer_len rd) offset len Hb Hn ltac:(lia)) as Hc.
  split; [done|]. split; [by apply (consecutive_bytes _ (buffer_len rd))|].
  apply (serve_spec send d (contents d) indices q l r (served_reads d Hop)); try done; lia.
Qed.
End Properties.

(** An error-bounded range fetched in whole elements is sent in whole elements,
    and a piece ends where a row of the output does whenever a row fits what is left of
    the range and the buffer: the blocks a codec is given are slabs of the array. *)
Theorem pieces_are_slabs layout buffer offset len fuel :
  QualitySpec.eps (l_quality layout) <> None -> 0 <= offset -> offset + len < two64 ->
  (DType.itemsize (l_dtype layout) | offset) -> (DType.itemsize (l_dtype layout) | len) ->
  DType.itemsize (l_dtype layout) <= buffer ->
  Forall (fun '(at_, n) => (DType.itemsize (l_dtype layout) | at_) /\ (DType.itemsize (l_dtype layout) | n))
    (cut fuel layout buffer offset len) /\
  forall row, SelectionLayout.row_bytes layout = Some row -> 0 < len -> row <= Z.min len buffer ->
    (row | offset + row_aligned layout offset (Z.min len buffer)).
Proof.
  intros He Ho Hlt Hdo Hdl Hb. pose proof (itemsize_pos (l_dtype layout)). split; [by apply cut_whole|].
  intros row Hrow Hl Hr. assert (DType.itemsize (l_dtype layout) <= len) by (apply Z.divide_pos_le; done).
  by apply (row_aligned_whole layout offset (Z.min len buffer) (DType.itemsize (l_dtype layout))); try done; try lia.
Qed.

(** *** Twelve bytes of the synthetic dataset, through a buffer of five *)

#[local] Existing Instance demo_build.
#[local] Existing Instance demo_half.

Definition demo_null : NullDataset :=
  {| n_dtype := Uint8; n_shape := [12]; n_data_len := 12; n_pattern := position_bytes 0 256 |}.
Definition demo_null_layout : SelectionLayout :=
  {| l_out_shape := [12]; l_dtype := Uint8; l_src_dtype := Uint8; total_bytes := 12; l_quality := QualitySpec.exact;
     kind := Contiguous 0 12 |}.
Definition demo_entry : TransferEntry NullDataset :=
  {| te_request_id := 1; te_session := []; te_ticket := []; te_dataset := demo_null; te_layout := demo_null_layout;
     te_last_used_ms := 0 |}.
Definition demo_send (st : list (Z * bytes)) (at_ : Z) (b : bytes) : list (Z * bytes) * result unit unit :=
  (st ++ [(at_, b)], Ok tt).

Lemma demo_null_open : ds_open demo_null.
Proof. split; [split; [repeat constructor; lia|done|exists 1; split; [lia|done]]|done]. Qed.

Lemma serve_sends_range_witness :
  let out := FetchReader.serve demo_send (FetchReader.new 5) demo_entry 2 8 [] in
  FetchReader.sent out = [(2, [2; 3; 4; 5; 6]); (7, [7; 8; 9])] /\
  exists pieces, consecutive 5 2 8 pieces.
Proof.
  split; [vm_compute; reflexivity|].
  destruct (serve_sends_range demo_send demo_null [] QualitySpec.exact demo_null_layout
    {| axes := [Range 0 12 1]; out_shape := [12]; advanced := None |} (FetchReader.new 5) demo_entry 2 8 []
    demo_null_open ltac:(constructor) ltac:(vm_compute; reflexivity) ltac:(vm_compute; reflexivity)
    ltac:(vm_compute; reflexivity) eq_refl eq_refl ltac:(vm_compute; reflexivity) ltac:(lia) ltac:(lia) ltac:(vm_compute; discriminate))
    as (pieces & Hc & _).
  exists pieces. exact Hc.
Defined.

Definition demo_rows : SelectionLayout :=
  {| l_out_shape := [4; 3]; l_dtype := Float32; l_src_dtype := Float32; total_bytes := 48;
     l_quality := {| encoding := ErrorBound; cast_dtype := None; abs_error_bound := Some (Z.shiftl 1023 52);
                     rel_error_bound := None; spec_codec := None |};
     kind := Contiguous 0 48 |}.

Lemma pieces_are_slabs_witness :
  cut 40 demo_rows 16 4 40 = [(4, 8); (12, 12); (24, 12); (36, 8)] /\ (12 | 4 + row_aligned demo_rows 4 16).
Proof.
  split; [vm_compute; reflexivity|].
  exact (proj2 (pieces_are_slabs demo_rows 16 4 40 40 ltac:(discriminate) ltac:(lia) ltac:(lia)
    ltac:(exists 1; reflexivity) ltac:(exists 10; reflexivity) ltac:(vm_compute; discriminate)) 12
    ltac:(reflexivity) ltac:(lia) ltac:(vm_compute; discriminate)).
Defined.

(** The read-ahead window is the connection's, not the transfer's.  A transfer
    fetched after another on one connection is taken to carry on from it, and its storage
    is never asked for bytes a fresh connection would ask it for. *)
Theorem read_ahead_crosses_transfers :
  let first := FetchReader.serve demo_send (FetchReader.new 5) demo_entry 0 12 [] in
  FetchReader.hints (FetchReader.serve demo_send (FetchReader.new 5) demo_entry 0 12 []) = [(0, 12)] /\
  FetchReader.hints (FetchReader.serve demo_send (FetchReader.reader first)
    {| te_request_id := 2; te_session := []; te_ticket := []; te_dataset := demo_null; te_layout := demo_null_layout;
       te_last_used_ms := 0 |} 0 12 []) = [].
Proof. split; vm_compute; reflexivity. Qed.

(** Without an error bound a range is cut by the buffer alone. *)
Lemma cut_whole_lossless fuel layout buffer offset len isz :
  QualitySpec.eps (l_quality layout) = None -> (isz | len) -> (isz | buffer) ->
  Forall (fun '(_, n) => (isz | n)) (cut fuel layout buffer offset len).
Proof.
  intros He Hl Hb. revert offset len Hl. induction fuel as [|fuel IH]; intros offset len Hl; cbn [cut]; [constructor|].
  destruct (0 <? len); [|constructor]. assert (row_aligned layout offset (Z.min len buffer) = Z.min len buffer) as ->.
  { unfold row_aligned. by rewrite bool_decide_true. }
  assert (isz | Z.min len buffer) by (by destruct (Z.min_spec len buffer) as [[_ ->]|[_ ->]]).
  constructor; [done|]. apply IH. by apply Z.divide_sub_r.
Qed.

Lemma consecutive_sizes buffer offset len pieces :
  consecutive buffer offset len pieces -> Forall (fun '(_, n) => 0 < n <= buffer) pieces.
Proof.
  revert offset len. induction pieces as [|[at_ n] pieces IH]; intros offset len; cbn [consecutive]; [by constructor|].
  intros (_ & Hn & _ & Hc). constructor; [done|]. by eapply IH.
Qed.
