(* ===== verification/DataPlane.v ===== *)
(** The data plane: [aex-server/src/dataplane.rs].  A connection is the script of what
    its reads will answer and its writes will come to, with the bytes written so far;
    accepting sockets and starting threads is left out. *)
From stdpp Require Import strings gmap.
From S2P Require Import Prelude Errors Dtype Bytes Quality Frame Handshake Selection Cast Codec Layout LayoutSpec Backend Null Config Session Transfer Reader.

(** What one turn of [read_full] meets: the server stopping, or what [read] answers.
    [Quiet past] is a read that timed out, [past] when nothing arrived for the idle
    time.  The end of the script is the peer hanging up. *)
Inductive ReadEvent : Type :=
  | Stopping
  | Got (b : bytes)
  | Quiet (past : bool)
  | Failed (kind : ErrorKind).

(** [writes] says what each whole write still to come ends in; none left, they succeed. *)
Record Connection : Type := {
  events : list ReadEvent;
  writes : list (option ErrorKind);
  out : bytes;
}.

Inductive Disposition : Type := Continue | Close.

(** Fill a buffer of [n]: the bytes put in it, and [false] for a clean end of stream. *)
Fixpoint read_full_loop (n : nat) (filled : bytes) (es : list ReadEvent)
    : result ErrorKind (bool * bytes) * list ReadEvent :=
  if (n <=? length filled)%nat then (Ok (true, filled), es)
  else
    match es with
    | [] | Got [] :: _ => (match filled with [] => Ok (false, []) | _ => Err KUnexpectedEof end, es)
    | Stopping :: es' => (Err KInterrupted, es)
    | Got b :: es' =>
        let want := (n - length filled)%nat in
        if (want <=? length b)%nat
        then (Ok (true, filled ++ take want b), if (want <? length b)%nat then Got (drop want b) :: es' else es')
        else read_full_loop n (filled ++ b) es'
    | Quiet past :: es' => if past then (Err KTimedOut, es') else read_full_loop n filled es'
    | Failed KInterrupted :: es' => read_full_loop n filled es'
    | Failed kind :: es' => (Err kind, es')
    end.

Definition read_full (n : Z) (c : Connection) : result ErrorKind (bool * bytes) * Connection :=
  let '(r, es) := read_full_loop (Z.to_nat n) [] (events c) in
  (r, {| events := es; writes := writes c; out := out c |}).

(** [write_all]. *)
Definition write_all (c : Connection) (b : bytes) : result ErrorKind unit * Connection :=
  match writes c with
  | Some kind :: ws => (Err kind, {| events := events c; writes := ws; out := out c |})
  | None :: ws => (Ok tt, {| events := events c; writes := ws; out := out c ++ b |})
  | [] => (Ok tt, {| events := events c; writes := []; out := out c ++ b |})
  end.

(** A frame's bytes, and [write_frame] as one whole write of them ([Frame.v] has the
    loop that makes it so). *)
Definition frame_bytes (header : FrameHeader) (payload : bytes) : bytes := FrameHeader.encode header ++ payload.
Definition send_frame (c : Connection) (header : FrameHeader) (payload : bytes) : result ServerError unit * Connection :=
  let '(r, c) := write_all c (frame_bytes header payload) in (map_err SIo r, c).

(** The messages of the errors, which the derive macros write. *)
Class Display := { show_server : ServerError -> bytes; show_core : AexError -> bytes; show_wire : WireError -> bytes }.

Section Plane.
Context `{Build, HalfLib, CodecLib, Display}.
Context {F D : Type} `{ArrayDataset D}.

(** Report a failure against the fetch that caused it, or against the connection. *)
Definition send_error (c : Connection) (fetch : option FrameHeader) (class : ErrorClass) (message : bytes)
    : result ServerError unit * Connection :=
  let '(request_id, offset, logical_len) :=
    match fetch with
    | Some h => (request_id h, offset h, logical_len h)
    | None => (0, 0, 0)
    end in
  let payload := ErrorPayload.encode {| payload_class := class; message := message |} in
  send_frame c (FrameHeader.error request_id offset logical_len (zlen payload)) payload.

(** Write one piece out, compressed if the transfer asked for that and it shrinks. *)
Definition send_piece (c : Connection) (request_id : Z) (layout : SelectionLayout) (offset : Z) (b : bytes)
    : result ServerError unit * Connection :=
  let len := zlen b in
  let raw c := send_frame c (FrameHeader.data request_id offset len) b in
  match SelectionLayout.block layout offset len with
  | Err e => (Err (SCore e), c)
  | Panic => (Panic, c)
  | Ok None => raw c
  | Ok (Some spec) =>
      let codec := QualitySpec.codec (l_quality layout) in
      match compress codec spec b [] with
      | (Err e, _) => (Err (SCore e), c)
      | (Panic, _) => (Panic, c)
      | (Ok true, packed) =>
          send_frame c (FrameHeader.data_encoded request_id offset codec (encoding (l_quality layout))
                          (zlen packed) len) packed
      | (Ok false, _) => raw c
      end
  end.

(** What the connection threads share, with a connection and its reader. *)
Record World : Type := {
  conn : Connection;
  w_sessions : SessionRegistry F;
  w_transfers : TransferRegistry D;
  w_reader : FetchReader;
}.

Definition with_conn (w : World) (c : Connection) : World :=
  {| conn := c; w_sessions := w_sessions w; w_transfers := w_transfers w; w_reader := w_reader w |}.
Definition with_transfers (w : World) (t : TransferRegistry D) : World :=
  {| conn := conn w; w_sessions := w_sessions w; w_transfers := t; w_reader := w_reader w |}.

(** Answer with an error frame, then [disposition]. *)
Definition refuse (w : World) (fetch : option FrameHeader) (class : ErrorClass) (message : bytes)
    (disposition : Disposition) : result ServerError Disposition * World :=
  let '(r, c) := send_error (conn w) fetch class message in ((fun _ => disposition) <$> r, with_conn w c).

(** The closure [serve] sends pieces with, on the connection and the plans. *)
Definition send_closure (entry : TransferEntry D) (request_id now_ms : Z)
    (st : Connection * TransferRegistry D) (offset : Z) (b : bytes)
    : (Connection * TransferRegistry D) * result ServerError unit :=
  let '(c, t) := st in
  match send_piece c request_id (te_layout entry) offset b with
  | (Ok _, c) => ((c, TransferRegistry.touch t entry now_ms), Ok tt)
  | (r, c) => ((c, t), r)
  end.

Definition handle_fetch (config : ServerConfig) (w : World) (header : FrameHeader) (session : bytes) (now_ms : Z)
    : result ServerError Disposition * World :=
  if negb (wire_len header =? TICKET_LEN)
  then refuse w (Some header) ClassProtocol (show_server SProtocol) Close
  else
    match read_full TICKET_LEN (conn w) with
    | (Err e, c) => (Err (SIo e), with_conn w c)
    | (Panic, c) => (Panic, with_conn w c)
    | (Ok (false, _), c) => (Err SProtocol, with_conn w c)
    | (Ok (true, ticket), c) =>
        let w := with_conn w c in
        if max_fetch_bytes (transfer config) <? logical_len header
        then refuse w (Some header) ClassRequest (show_server SBadRequest) Continue
        else
          match TransferRegistry.fetch (w_transfers w) (request_id header) ticket session now_ms with
          | (Err e, t) =>
              let class := ServerError.class e in
              refuse (with_transfers w t) (Some header) class (show_server e)
                (match class with ClassAuth => Close | _ => Continue end)
          | (Panic, t) => (Panic, with_transfers w t)
          | (Ok entry, t) =>
              let w := with_transfers w t in
              let layout := te_layout entry in
              match SelectionLayout.check_range layout (offset header) (logical_len header) with
              | Err e => refuse w (Some header) (AexError.class e) (show_core e) Continue
              | Panic => (Panic, w)
              | Ok _ =>
                  let itemsize := DType.itemsize (l_dtype layout) in
                  if negb (bool_decide (QualitySpec.eps (l_quality layout) = None)) &&
                     (negb (offset header mod itemsize =? 0) || negb (logical_len header mod itemsize =? 0))
                  then refuse w (Some header) ClassRequest (show_server SBadRequest) Continue
                  else
                    let o := FetchReader.serve (send_closure entry (request_id header) now_ms) (w_reader w) entry
                               (offset header) (logical_len header) (conn w, w_transfers w) in
                    let w := {| conn := (FetchReader.sent o).1; w_sessions := w_sessions w;
                                w_transfers := (FetchReader.sent o).2; w_reader := FetchReader.reader o |} in
                    match FetchReader.answer o with
                    | Err e => (Err e, w)
                    | Panic | Ok Panic => (Panic, w)
                    | Ok (Err e) => refuse w (Some header) (AexError.class e) (show_core e) Continue
                    | Ok (Ok _) => (Ok Continue, w)
                    end
              end
          end
    end.

Definition handle_frame (config : ServerConfig) (w : World) (header : FrameHeader) (session : bytes) (now_ms : Z)
    : result ServerError Disposition * World :=
  match frame_type header with
  | Fetch => handle_fetch config w header session now_ms
  | Ping =>
      let '(r, c) := send_frame (conn w) (FrameHeader.bare Pong) [] in
      ((fun _ => Continue) <$> r, with_conn w c)
  | Pong => (Ok Continue, w)
  | _ => refuse w None ClassProtocol (show_server SProtocol) Close
  end.

(** Serve fetches until the peer hangs up, goes quiet or breaks the protocol; [clock]
    is what the clock says at each frame. *)
Fixpoint serve_frames (fuel : nat) (config : ServerConfig) (clock : nat -> Z) (w : World) (session : bytes)
    : option (result ServerError unit) * World :=
  match fuel with
  | O => (None, w)
  | S fuel' =>
      match read_full HEADER_LEN (conn w) with
      | (Err e, c) => (Some (Err (SIo e)), with_conn w c)
      | (Panic, c) => (Some Panic, with_conn w c)
      | (Ok (false, _), c) => (Some (Ok tt), with_conn w c)
      | (Ok (true, b), c) =>
          let w := with_conn w c in
          match FrameHeader.decode b with
          | Err e =>
              let '(r, c) := send_error (conn w) None (WireError.class e) (show_wire e) in
              (Some (match r with Ok _ => Err SProtocol | Err e => Err e | Panic => Panic end), with_conn w c)
          | Panic => (Some Panic, w)
          | Ok header =>
              let w := {| conn := conn w; w_sessions := SessionRegistry.touch (w_sessions w) session (clock fuel');
                          w_transfers := w_transfers w; w_reader := w_reader w |} in
              match handle_frame config w header session (clock fuel') with
              | (Ok Continue, w) => serve_frames fuel' config clock w session
              | (Ok Close, w) => (Some (Ok tt), w)
              | (Err e, w) => (Some (Err e), w)
              | (Panic, w) => (Some Panic, w)
              end
          end
      end
  end.

Definition with_sessions (w : World) (s : SessionRegistry F) : World :=
  {| conn := conn w; w_sessions := s; w_transfers := w_transfers w; w_reader := w_reader w |}.

(** Check a client's [HELLO]; the session is shared, so the connection it counts in is
    counted in the registry. *)
Definition check_hello (b : bytes) (sessions : SessionRegistry F) (now_ms : Z)
    : result ServerError (Session F) * SessionRegistry F :=
  match Hello.decode b with
  | Err _ => (Err SProtocol, sessions)
  | Panic => (Panic, sessions)
  | Ok hello =>
      if negb (hello_version hello =? PROTOCOL_VERSION) then (Err SProtocol, sessions)
      else
        match SessionRegistry.get_at sessions (session_id hello) now_ms with
        | (Err e, sessions) => (Err e, sessions)
        | (Panic, sessions) => (Panic, sessions)
        | (Ok session, sessions) =>
            if negb (constant_time_eq (token session) (session_token hello)) then (Err SAuth, sessions)
            else
              match Session.open_data_conn session with
              | Ok session => (Ok session, SessionRegistry.create_insert sessions session)
              | Err e => (Err e, sessions)
              | Panic => (Panic, sessions)
              end
        end
  end.

(** Answer before hanging up: READY carries no message, but its class is all the
    client needs. *)
Definition greet (w : World) (res : result ServerError (Session F)) : result ServerError (Session F) * World :=
  let ready := match res with Err e => Ready.refused (ServerError.class e) | _ => Ready.accepted end in
  match write_all (conn w) (Ready.encode ready) with
  | (Ok _, c) => (res, with_conn w c)
  | (Err e, c) => (Err (SIo e), with_conn w c)
  | (Panic, c) => (Panic, with_conn w c)
  end.

(** Check the client in, or refuse it and say which class of thing was wrong. *)
Definition handshake (w : World) (now_ms : Z) : result ServerError (Session F) * World :=
  match read_full HELLO_LEN (conn w) with
  | (Err e, c) => (Err (SIo e), with_conn w c)
  | (Panic, c) => (Panic, with_conn w c)
  | (Ok (false, _), c) => (Err SBadRequest, with_conn w c)
  | (Ok (true, b), c) =>
      let '(res, sessions) := check_hello b (w_sessions w) now_ms in
      greet (with_sessions (with_conn w c) sessions) res
  end.

(** One connection from its handshake to its end. *)
Definition serve_connection (fuel : nat) (config : ServerConfig) (clock : nat -> Z) (w : World) : World :=
  match handshake w (clock fuel) with
  | (Ok session, w) =>
      let w := (serve_frames fuel config clock w (id session)).2 in
      with_sessions w
        {| sessions := alter Session.close_data_conn (id session) (sessions (w_sessions w)); s_config := s_config (w_sessions w) |}
  | (_, w) => w
  end.
End Plane.

(** ** Reading *)

(** The bytes a script brings, up to its first end or failure. *)
Fixpoint arriving (es : list ReadEvent) : bytes :=
  match es with
  | Got [] :: _ => []
  | Got b :: es' => b ++ arriving es'
  | Quiet false :: es' | Failed KInterrupted :: es' => arriving es'
  | _ => []
  end.

Lemma read_full_loop_spec n filled es :
  (n <= length filled + length (arriving es))%nat -> (length filled <= n)%nat ->
  exists es', read_full_loop n filled es = (Ok (true, filled ++ take (n - length filled) (arriving es)), es') /\
    arriving es' = drop (n - length filled) (arriving es).
Proof.
  revert filled. induction es as [|e es IH]; intros filled Hn Hf; cbn [read_full_loop];
    destruct (Nat.leb_spec n (length filled)) as [Hle|Hgt].
  1, 3: replace (n - length filled)%nat with 0%nat by lia; rewrite take_0, app_nil_r, drop_0; eauto.
  { cbn in Hn. lia. }
  destruct e as [|b|[]|k]; cbn [arriving] in *; try (cbn in Hn; lia).
  - destruct b as [|x b']; [cbn in Hn; lia|]. set (b := x :: b') in *. rewrite length_app in Hn.
    destruct (Nat.leb_spec (n - length filled) (length b)) as [Hle|Hgt'].
    + eexists. split; [by rewrite take_app_le by lia|]. rewrite drop_app_le by lia.
      destruct (Nat.ltb_spec (n - length filled) (length b)); cbn [arriving].
      * destruct (drop (n - length filled) b) eqn:Hd; [|done]. apply (f_equal length) in Hd. rewrite length_drop in Hd. change (length (@nil Z)) with 0%nat in Hd. lia.
      * rewrite (drop_ge b) by lia. done.
    + destruct (IH (filled ++ b)) as (es' & -> & Ha); [rewrite length_app; lia|rewrite length_app; lia|].
      exists es'. rewrite length_app in *. rewrite take_app_ge, drop_app_ge by lia. rewrite <- app_assoc.
      replace (n - (length filled + length b))%nat with (n - length filled - length b)%nat in * by lia. done.
  - apply IH; done.
  - destruct k; cbn [arriving] in Hn; try (cbn in Hn; lia). apply IH; done.
Qed.

(** Reads come in any pieces, with timeouts and interruptions between them, and
    [read_full] puts together exactly the bytes asked for, leaving the rest for the next
    read. *)
Theorem read_full_reassembles n (c : Connection) :
  0 <= n <= zlen (arriving (events c)) ->
  exists c', read_full n c = (Ok (true, slice 0 n (arriving (events c))), c') /\
    arriving (events c') = drop (Z.to_nat n) (arriving (events c)) /\ out c' = out c /\ writes c' = writes c.
Proof.
  intros Hn. unfold read_full. destruct (read_full_loop_spec (Z.to_nat n) [] (events c)) as (es' & -> & Ha); [cbn; lia|cbn; lia|].
  cbn [length app] in *. rewrite Nat.sub_0_r in *. eexists. split; [reflexivity|]. done.
Qed.

Lemma read_full_reassembles_witness :
  (read_full 4 {| events := [Got [1; 2]; Quiet false; Failed KInterrupted; Got [3; 4; 5]]; writes := []; out := [] |}).1
  = Ok (true, [1; 2; 3; 4]).
Proof.
  destruct (read_full_reassembles 4 {| events := [Got [1; 2]; Quiet false; Failed KInterrupted; Got [3; 4; 5]];
    writes := []; out := [] |}) as (c' & -> & _); [vm_compute; split; discriminate|]. reflexivity.
Defined.

(** ** Answering a fetch *)

Section Fetch.
Context `{Build, HalfLib, CodecLib, Display}.
Context {F D : Type} `{!ArrayDataset D}.
Implicit Type w : World (F := F) (D := D).

(** The error bound in the header of a transfer's blocks. *)
Definition bound (l : SelectionLayout) : Z := default F64.zero (QualitySpec.eps (l_quality l)).

(** The codec of a transfer can be run on any block of it. *)
Definition packs (l : SelectionLayout) : Prop :=
  forall spec b, block_dtype spec = l_dtype l -> block_eps spec = bound l -> BlockSpec.bytes spec = zlen b -> zlen b < two32 ->
    exists shrunk, (compress (QualitySpec.codec (l_quality l)) spec b []).1 = Ok shrunk.

(** What a frame may carry for the piece [b] at [at_] of a transfer: the bytes as they
    are, or the block a codec shrank. *)
Definition carries (request_id : Z) (l : SelectionLayout) (stream : bytes) (piece : Z * Z) (frame : FrameHeader * bytes) : Prop :=
  let '(at_, n) := piece in
  let b := slice at_ n stream in
  let codec := QualitySpec.codec (l_quality l) in
  frame = (FrameHeader.data request_id at_ n, b) \/
  exists spec packed,
    codec <> Raw /\ SelectionLayout.block l at_ n = Ok (Some spec) /\ compress codec spec b [] = (Ok true, packed) /\
    frame = (FrameHeader.data_encoded request_id at_ codec (encoding (l_quality l)) (zlen packed) n, packed).

(** Pieces a codec can describe: whole elements, short of 2^32 bytes. *)
Definition describable (l : SelectionLayout) (pieces : list (Z * Z)) : Prop :=
  QualitySpec.codec (l_quality l) <> Raw ->
  Forall (fun '(_, n) => (DType.itemsize (l_dtype l) | n) /\ 0 < n < two32) pieces.

Lemma write_all_ok c b : writes c = [] -> write_all c b = (Ok tt, {| events := events c; writes := []; out := out c ++ b |}).
Proof. unfold write_all. by intros ->. Qed.

Lemma send_piece_spec c id l stream at_ n :
  writes c = [] -> packs l \/ QualitySpec.codec (l_quality l) = Raw ->
  Forall (fun d => 0 <= d) (l_out_shape l) -> 0 <= at_ -> 0 <= n -> at_ + n <= zlen stream ->
  describable l [(at_, n)] ->
  exists h p, carries id l stream (at_, n) (h, p) /\
    send_piece c id l at_ (slice at_ n stream) =
    (Ok tt, {| events := events c; writes := []; out := out c ++ frame_bytes h p |}).
Proof.
  intros Hw Hp Hs Ha Hn Hle Hd. unfold send_piece. rewrite length_slice by lia.
  assert (forall c', writes c' = [] -> send_frame c' (FrameHeader.data id at_ n) (slice at_ n stream) =
    (Ok tt, {| events := events c'; writes := []; out := out c' ++ frame_bytes (FrameHeader.data id at_ n) (slice at_ n stream) |})) as Hraw.
  { intros c' Hc'. unfold send_frame. by rewrite write_all_ok. }
  unfold SelectionLayout.block at 1. case_bool_decide as Hc.
  { eexists _, _. split; [by left|]. by apply Hraw. }
  destruct Hp as [Hp|]; [|done]. specialize (Hd Hc). apply Forall_inv in Hd as [Hdiv Hlt].
  destruct (for_range_total (l_out_shape l) (l_dtype l) (bound l) at_ n Hs ltac:(lia) Hdiv)
    as [spec Hspec]. fold (bound l). rewrite Hspec. cbn [fmap result_fmap].
  destruct (for_range_spec (l_out_shape l) (l_dtype l) _ at_ n spec Hs ltac:(lia) Hspec) as (_ & Hbd & Hbe & _ & Hb).
  destruct (Hp spec (slice at_ n stream) Hbd Hbe) as [shrunk Hshrunk]; [rewrite length_slice; lia..|].
  destruct (compress _ spec _ []) as [r packed] eqn:Hcomp. cbn in Hshrunk. subst r. destruct shrunk.
  - eexists _, _. split.
    + right. exists spec, packed. split; [done|]. split; [unfold SelectionLayout.block; fold (bound l); by rewrite bool_decide_false, Hspec|]. by split.
    + unfold send_frame. by rewrite write_all_ok.
  - eexists _, _. split; [by left|]. by apply Hraw.
Qed.

Lemma send_all_spec (entry : TransferEntry D) id now stream pieces c t offset len buffer :
  writes c = [] -> packs (te_layout entry) \/ QualitySpec.codec (l_quality (te_layout entry)) = Raw ->
  Forall (fun d => 0 <= d) (l_out_shape (te_layout entry)) -> 0 <= offset -> offset + len <= zlen stream ->
  describable (te_layout entry) pieces -> consecutive buffer offset len pieces -> 0 <= len ->
  exists frames t',
    Forall2 (carries id (te_layout entry) stream) pieces frames /\
    send_all (send_closure entry id now) (c, t) ((fun '(at_, n) => (at_, slice at_ n stream)) <$> pieces) =
    (({| events := events c; writes := []; out := out c ++ concat (uncurry frame_bytes <$> frames) |}, t'), Ok tt).
Proof.
  intros Hw Hp Hs. revert c t offset len Hw. induction pieces as [|[at_ n] pieces IH]; intros c t offset len Hw Ho Hle Hd Hc Hlen.
  - exists [], t. split; [constructor|]. cbn. rewrite app_nil_r, <- Hw. by destruct c.
  - cbn [consecutive] in Hc. destruct Hc as (-> & Hn & Hnl & Hc).
    destruct (send_piece_spec c id (te_layout entry) stream offset n) as (h & p & Hcar & Hsend); try done; try lia.
    { intros Hr. specialize (Hd Hr). inversion Hd; subst. by constructor. }
    destruct (IH {| events := events c; writes := []; out := out c ++ frame_bytes h p |}
                 (TransferRegistry.touch t entry now) (offset + n) (len - n)) as (frames & t' & Hf & Hall); try done; try lia.
    { intros Hr. specialize (Hd Hr). by inversion Hd. }
    exists ((h, p) :: frames), t'. split; [by constructor|]. cbn [fmap list_fmap send_all send_closure]. rewrite Hsend, Hall.
    cbn. rewrite <- app_assoc. reflexivity.
Qed.
End Fetch.

Lemma eps_not_raw `{Build} q : QualitySpec.eps q <> None -> QualitySpec.codec q <> Raw.
Proof.
  unfold QualitySpec.eps. case_bool_decide as He; [|done]. intros _. unfold QualitySpec.codec. rewrite He.
  unfold Codec.DEFAULT_LOSSY. destruct (spec_codec q) as [[]|]; cbn; by destruct feature_sz.
Qed.

Section Delivery.
Context `{Build, HalfLib, CodecLib, Display}.
Context {F D : Type} `{!ArrayDataset D} `{!Served D}.

(** The fetch an authorised client may make of an encoded transfer: whole elements,
    through a buffer of whole elements, under a bound that is a number not below zero. *)
Definition encodable (l : SelectionLayout) (buffer offset len : Z) : Prop :=
  QualitySpec.codec (l_quality l) = Raw \/
  packs l /\ (is_u64 (bound l) /\ F64.is_finite (bound l) = true /\ F64.lt_zero (bound l) = false) /\ buffer < two32 /\
  (DType.itemsize (l_dtype l) | offset) /\ (DType.itemsize (l_dtype l) | len) /\ (DType.itemsize (l_dtype l) | buffer).

Lemma cut_describable l buffer offset len :
  encodable l buffer offset len -> 0 < buffer -> 0 <= offset -> 0 <= len -> offset + len < two64 ->
  describable l (cut (Z.to_nat len) l buffer offset len).
Proof.
  intros [He|(_ & _ & Hb & Hdo & Hdl & Hdb)] Hpos Ho Hl Hlt Hne; [done|]. pose proof (itemsize_pos (l_dtype l)).
  pose proof (consecutive_sizes _ _ _ _ (cut_consecutive (Z.to_nat len) l buffer offset len Hpos Hl ltac:(lia))) as Hsz.
  assert (Forall (fun '(_, n) => (DType.itemsize (l_dtype l) | n)) (cut (Z.to_nat len) l buffer offset len)) as Hw.
  { destruct (decide (QualitySpec.eps (l_quality l) = None)); [by apply cut_whole_lossless|].
    assert (DType.itemsize (l_dtype l) <= buffer) by (apply Z.divide_pos_le; done).
    eapply Forall_impl; [apply cut_whole; done|]. by intros [? ?] [_ ?]. }
  rewrite Forall_forall in *. intros [at_ n] Hin. specialize (Hsz _ Hin). specialize (Hw _ Hin). cbn in *. split; [done|lia].
Qed.

(** What a fetch is answered with. *)
Lemma fetch_spec (w : World (F := F) (D := D)) config header session now ticket c d indices q l r entry t :
  frame_type header = Fetch -> wire_len header = TICKET_LEN ->
  read_full TICKET_LEN (conn w) = (Ok (true, ticket), c) -> writes c = [] ->
  logical_len header <= max_fetch_bytes (transfer config) ->
  TransferRegistry.fetch (w_transfers w) (request_id header) ticket session now = (Ok entry, t) ->
  ds_open d -> te_dataset entry = d -> te_layout entry = l -> Forall index_wf indices -> layout d indices q = Ok l ->
  Selection.resolve (ds_shape d) indices = Ok r -> 2 * total_bytes l < two64 ->
  0 <= offset header -> 0 <= logical_len header -> offset header + logical_len header <= total_bytes l ->
  0 < buffer_len (w_reader w) ->
  encodable l (buffer_len (w_reader w)) (offset header) (logical_len header) ->
  exists pieces frames w',
    handle_frame config w header session now = (Ok Continue, w') /\
    consecutive (buffer_len (w_reader w)) (offset header) (logical_len header) pieces /\
    Forall2 (carries (request_id header) l (logical_stream (contents d) (ds_shape d) (ds_dtype d) (l_dtype l) r)) pieces frames /\
    out (conn w') = out c ++ concat (uncurry frame_bytes <$> frames).
Proof.
  intros Hft Hwl Hread Hwr Hmax Hfetch Hop Hed Hel Hi Hlay Hr Ht Ho Hn Hle Hb Henc.
  set (stream := logical_stream _ _ _ _ _).
  set (pieces := cut (Z.to_nat (logical_len header)) l (buffer_len (w_reader w)) (offset header) (logical_len header)).
  assert (consecutive (buffer_len (w_reader w)) (offset header) (logical_len header) pieces) as Hcons
    by (apply cut_consecutive; lia).
  pose proof (resolved_ok (ds_shape d) indices r (served_shape d Hop) Hi Hr) as Hw.
  destruct (served_len d Hop) as [Hlen Hlt].
  assert (total_bytes l <= zlen stream) as Htot.
  { rewrite Hlen in Hlt. by apply (total_within (contents d) (ds_shape d) indices (ds_dtype d) q l r (served_shape d Hop)). }
  assert (Forall (fun d => 0 <= d) (l_out_shape l)) as Hshape.
  { destruct (layout_resolve_inv _ _ _ _ _ Hlay) as (r' & Hr' & -> & _). rewrite Hr in Hr'. injection Hr' as <-. apply Hw. }
  destruct (send_all_spec entry (request_id header) now stream pieces c t (offset header) (logical_len header)
    (buffer_len (w_reader w))) as (frames & t' & Hf & Hall); rewrite ?Hel; try done; try lia.
  { destruct Henc as [|[? _]]; auto. }
  { apply cut_describable; done || lia. }
  pose proof (serve_spec (send_closure entry (request_id header) now) d (contents d) indices q l r (served_reads d Hop) Hi Hlay Hr
    ltac:(intros _; lia) ltac:(lia) (w_reader w) entry (offset header) (logical_len header) (c, t) Hed Hel Hb Ho Hn Hle) as Hserve.
  cbn zeta in Hserve. fold stream pieces in Hserve. rewrite Hall in Hserve. cbn in Hserve.
  exists pieces, frames. eexists. split; [|split; [exact Hcons|split; [rewrite Hel in Hf; exact Hf|]]].
  - unfold handle_frame. rewrite Hft. unfold handle_fetch. rewrite Hwl. cbn [negb Z.eqb]. change (TICKET_LEN =? TICKET_LEN) with true.
    cbn [negb]. rewrite Hread. destruct (Z.ltb_spec (max_fetch_bytes (transfer config)) (logical_len header)); [lia|].
    cbn [w_transfers with_conn]. rewrite Hfetch, Hel. unfold SelectionLayout.check_range, checked_add.
    rewrite decide_True by lia. destruct (Z.ltb_spec (total_bytes l) (offset header + logical_len header)); [lia|].
    assert (negb (bool_decide (QualitySpec.eps (l_quality l) = None)) &&
      (negb (offset header mod DType.itemsize (l_dtype l) =? 0) || negb (logical_len header mod DType.itemsize (l_dtype l) =? 0)) = false) as ->.
    { destruct Henc as [Hraw|(_ & _ & _ & Hdo & Hdl & _)].
      - case_bool_decide as He; [done|]. by destruct (eps_not_raw (l_quality l) He).
      - pose proof (itemsize_pos (l_dtype l)). apply Z.mod_divide in Hdo; [|lia]. apply Z.mod_divide in Hdl; [|lia].
        rewrite Hdo, Hdl. apply andb_false_r. }
    injection Hserve as Hsent Hans. cbn [conn w_transfers w_reader with_conn with_transfers].
    cbn zeta. rewrite Hans. reflexivity.
  - cbn [conn]. injection Hserve as Hsent _. cbn [w_reader with_conn with_transfers w_transfers conn] in *. by rewrite Hsent.
Qed.

(** A selection's stream holds every byte its layout counts, and no axis is negative. *)
Lemma stream_sized (d : D) indices q l r :
  ds_open d -> Forall index_wf indices -> layout d indices q = Ok l -> Selection.resolve (ds_shape d) indices = Ok r ->
  let stream := logical_stream (contents d) (ds_shape d) (ds_dtype d) (l_dtype l) r in
  Forall (fun d => 0 <= d) (l_out_shape l) /\ total_bytes l <= zlen stream.
Proof.
  intros Hop Hi Hlay Hr stream. destruct (served_len d Hop) as [Hlen Hlt]. rewrite Hlen in Hlt. split.
  - destruct (layout_resolve_inv _ _ _ _ _ Hlay) as (r' & Hr' & -> & _). rewrite Hr in Hr'. injection Hr' as <-.
    by apply (resolved_ok (ds_shape d) indices r (served_shape d Hop) Hi Hr).
  - by apply (total_within (contents d) (ds_shape d) indices (ds_dtype d) q l r (served_shape d Hop)).
Qed.

End Delivery.

(** ** What the client reads *)

Section Decoded.
Context `{Build, HalfLib, CodecLib, Display}.
Context {F D : Type} `{!ArrayDataset D} `{!Served D}.
Context (close : DType -> Z -> bytes -> bytes -> Prop) `{!CodecLaws close}.

(** The bytes [b] are what a frame's payload says: the payload is those bytes, or the codec
    the header names expands it to them, into whatever is in a buffer of their length; to
    within the transfer's bound when that codec is a lossy one. *)
Definition reads_as (l : SelectionLayout) (frame : FrameHeader * bytes) (b : bytes) : Prop :=
  let '(h, payload) := frame in
  frame_type h = Data /\ wire_len h = zlen payload /\ logical_len h = zlen b /\
  match codec h with
  | Raw => payload = b
  | c => forall buf, zlen buf = zlen b -> exists v, decompress_into c payload buf = Ok v /\
      match c with Gzip => v = b | _ => close (l_dtype l) (bound l) b v end
  end.

(** A frame delivers a piece of a request's stream: it says so, and its payload reads as it. *)
Definition delivers (request : Z) (l : SelectionLayout) (stream : bytes) (piece : Z * Z) (frame : FrameHeader * bytes) : Prop :=
  let '(at_, n) := piece in
  request_id frame.1 = request /\ offset frame.1 = at_ /\ logical_len frame.1 = n /\ reads_as l frame (slice at_ n stream).

Lemma carries_delivers id l stream buffer offset len at_ n frame :
  encodable l buffer offset len -> Forall (fun d => 0 <= d) (l_out_shape l) ->
  0 <= at_ -> 0 < n < two64 -> at_ + n <= zlen stream ->
  carries id l stream (at_, n) frame -> delivers id l stream (at_, n) frame.
Proof.
  intros Henc Hs Ha Hn Hle. assert (zlen (slice at_ n stream) = n) as Hlen by (apply length_slice; lia).
  intros [->|(spec & packed & Hraw & Hblock & Hpack & ->)]; cbn [fst]; unfold delivers, reads_as; cbn;
    rewrite Hlen; (split; [done|]); (split; [done|]); (split; [done|]); (split; [done|]); (split; [done|]); (split; [done|]); [done|].
  destruct Henc as [?|(_ & (Hu & Hf & Hz) & _)]; [done|].
  unfold SelectionLayout.block in Hblock. rewrite bool_decide_false in Hblock by done. fold (bound l) in Hblock.
  destruct (BlockSpec.for_range _ _ _ _ _) as [spec'| |] eqn:Hfor; try done. injection Hblock as ->. rewrite <- Hlen in Hfor.
  assert (forall buf, zlen buf = n -> exists v, decompress_into (QualitySpec.codec (l_quality l)) packed buf = Ok v /\
    match QualitySpec.codec (l_quality l) with Gzip => v = slice at_ n stream | _ => close (l_dtype l) (bound l) (slice at_ n stream) v end) as Hback.
  { intros buf Hbuf. assert (zlen (slice at_ n stream) < two64) as Hlt by lia. rewrite <- Hlen in Hbuf.
    by destruct (compress_roundtrip close _ _ _ _ _ _ spec [] packed buf Hs Hlt Hu Hf Hz Hfor Hpack Hbuf). }
  by destruct (QualitySpec.codec (l_quality l)).
Qed.

Lemma all_carried id l stream buffer offset len pieces frames :
  encodable l buffer offset len -> Forall (fun d => 0 <= d) (l_out_shape l) ->
  0 <= offset -> 0 <= len < two64 -> offset + len <= zlen stream -> consecutive buffer offset len pieces ->
  Forall2 (carries id l stream) pieces frames -> Forall2 (delivers id l stream) pieces frames.
Proof.
  intros Henc Hs Ho Hl Hle Hc Hcar.
  assert (Forall (fun '(at_, n) => 0 <= at_ /\ 0 < n < two64 /\ at_ + n <= zlen stream) pieces) as Hin.
  { clear frames Hcar Henc. revert offset len Ho Hl Hle Hc. induction pieces as [|[at_ n] pieces IH]; intros offset len Ho Hl Hle Hc; [done|].
    destruct Hc as (-> & Hn & Hnl & Hc). constructor; [lia|]. apply (IH (offset + n) (len - n)); done || lia. }
  clear Hc. induction Hcar as [|[at_ n] frame pieces frames Hf _ IH]; [constructor|].
  apply Forall_cons in Hin as [(Ha & Hn & Hend) Hin]. constructor; [|by apply IH]. by eapply carries_delivers.
Qed.

(** C4: a fetch is answered with the bytes it names.  When the plan it names is the
    session's own, presented with its ticket, the range lies inside it and under the
    server's limit on one fetch, and what the server writes gets through, the server writes
    DATA frames that follow one another over exactly that range and goes on serving the
    connection.  Each frame's payload is its piece of the logical stream, or expands to it:
    exactly through the lossless codec, to within the bound through the others.  Of a
    transfer that is compressed this is said of ranges of whole elements, through a read
    buffer of whole elements shorter than 2^32, for a codec that can be run on its blocks
    ([encodable]). *)
Theorem fetch_delivers (w : World (F := F) (D := D)) config header session now ticket c d indices q l r entry t :
  frame_type header = Fetch -> wire_len header = TICKET_LEN ->
  read_full TICKET_LEN (conn w) = (Ok (true, ticket), c) -> writes c = [] ->
  logical_len header <= max_fetch_bytes (transfer config) ->
  TransferRegistry.fetch (w_transfers w) (request_id header) ticket session now = (Ok entry, t) ->
  ds_open d -> te_dataset entry = d -> te_layout entry = l -> Forall index_wf indices -> layout d indices q = Ok l ->
  Selection.resolve (ds_shape d) indices = Ok r -> 2 * total_bytes l < two64 ->
  0 <= offset header -> 0 <= logical_len header -> offset header + logical_len header <= total_bytes l ->
  0 < buffer_len (w_reader w) ->
  encodable l (buffer_len (w_reader w)) (offset header) (logical_len header) ->
  exists pieces frames w',
    handle_frame config w header session now = (Ok Continue, w') /\
    consecutive (buffer_len (w_reader w)) (offset header) (logical_len header) pieces /\
    Forall2 (delivers (request_id header) l (logical_stream (contents d) (ds_shape d) (ds_dtype d) (l_dtype l) r)) pieces frames /\
    out (conn w') = out c ++ concat (uncurry frame_bytes <$> frames).
Proof.
  intros Hft Hwl Hread Hwr Hmax Hfetch Hop Hed Hel Hi Hlay Hr Ht Ho Hn Hle Hb Henc.
  destruct (fetch_spec w config header session now ticket c d indices q l r entry t) as (pieces & frames & w' & Hh & Hc & Hf & Hout); try done.
  exists pieces, frames, w'. split; [done|]. split; [done|]. split; [|done].
  destruct (stream_sized d indices q l r Hop Hi Hlay Hr) as [Hs Htot]. eapply all_carried; done || lia.
Qed.
End Decoded.

Section Refusal.
Context `{Build, HalfLib, CodecLib, Display}.
Context {F D : Type} `{!ArrayDataset D}.
Implicit Type w : World (F := F) (D := D).

(** The connection was told, and only told, that the fetch failed for a reason of [class]. *)
Definition reports (before after : Connection) (fetch : FrameHeader) (class : ErrorClass) : Prop :=
  exists payload p,
    ErrorPayload.decode payload = Ok p /\ payload_class p = class /\
    out after = out before ++
      frame_bytes (FrameHeader.error (request_id fetch) (offset fetch) (logical_len fetch) (zlen payload)) payload.

Lemma refuse_spec w header class message disposition :
  writes (conn w) = [] ->
  exists w', refuse w (Some header) class message disposition = (Ok disposition, w') /\
    reports (conn w) (conn w') header class /\ w_transfers w' = w_transfers w /\ w_sessions w' = w_sessions w.
Proof.
  intros Hw. unfold refuse, send_error, send_frame. rewrite write_all_ok by done. eexists. split; [reflexivity|].
  split; [|done].
  eexists (ErrorPayload.encode {| payload_class := class; message := message |}), _. split; [reflexivity|].
  cbn. split; [apply from_u8_as_u8|done].
Qed.

(** A fetch inside its stream, of whole elements where the error bound asks for them, some of
    whose pieces the dataset reads ([before], as [bs]) before it fails on the next. *)
Record read_fails w (header : FrameHeader) (entry : TransferEntry D) (before : list (Z * Z)) (bs : list bytes) (e : AexError) : Prop := {
  rf_range : 0 <= offset header /\ 0 <= logical_len header /\ offset header + logical_len header <= total_bytes (te_layout entry) < two64;
  rf_whole : QualitySpec.eps (l_quality (te_layout entry)) <> None ->
    offset header mod DType.itemsize (l_dtype (te_layout entry)) = 0 /\ logical_len header mod DType.itemsize (l_dtype (te_layout entry)) = 0;
  rf_buffer : 0 < buffer_len (w_reader w);
  rf_pieces : exists at_ n after,
    cut (Z.to_nat (logical_len header)) (te_layout entry) (buffer_len (w_reader w)) (offset header) (logical_len header)
      = before ++ (at_, n) :: after /\
    ds_read_range (te_dataset entry) (te_layout entry) at_ (replicate (Z.to_nat n) 0) = Err e;
  rf_before : Forall2 (fun piece b =>
    ds_read_range (te_dataset entry) (te_layout entry) piece.1 (replicate (Z.to_nat piece.2) 0) = Ok b) before bs;
}.

(** Pieces sent as they are. *)
Definition raw_frames (id : Z) (pieces : list (Z * bytes)) : bytes :=
  concat ((fun '(at_, b) => frame_bytes (FrameHeader.data id at_ (zlen b)) b) <$> pieces).

Lemma send_raw (entry : TransferEntry D) id now pieces c t :
  writes c = [] -> pieces = [] \/ QualitySpec.codec (l_quality (te_layout entry)) = Raw ->
  exists t', send_all (send_closure entry id now) (c, t) pieces =
    (({| events := events c; writes := []; out := out c ++ raw_frames id pieces |}, t'), Ok tt).
Proof.
  intros Hw Hraw. revert c t Hw. induction pieces as [|[at_ b] pieces IH]; intros c t Hw.
  - exists t. cbn. rewrite app_nil_r, <- Hw. by destruct c.
  - destruct Hraw as [|Hraw]; [done|]. cbn [send_all send_closure]. unfold send_piece, SelectionLayout.block. rewrite bool_decide_true by done.
    unfold send_frame. rewrite write_all_ok by done. cbn [map_err].
    destruct (IH (or_intror Hraw) {| events := events c; writes := []; out := out c ++ frame_bytes (FrameHeader.data id at_ (zlen b)) b |}
      (TransferRegistry.touch t entry now) eq_refl) as [t' ->].
    exists t'. unfold raw_frames. cbn. by rewrite <- app_assoc.
Qed.

Lemma read_failure_reported w config header session now c ticket t entry before bs e :
  frame_type header = Fetch -> wire_len header = TICKET_LEN -> writes c = [] ->
  read_full TICKET_LEN (conn w) = (Ok (true, ticket), c) -> logical_len header <= max_fetch_bytes (transfer config) ->
  TransferRegistry.fetch (w_transfers w) (request_id header) ticket session now = (Ok entry, t) ->
  read_fails w header entry before bs e -> before = [] \/ QualitySpec.codec (l_quality (te_layout entry)) = Raw ->
  exists c1 w', handle_frame config w header session now = (Ok Continue, w') /\
    out c1 = out c ++ raw_frames (request_id header) (zip before.*1 bs) /\ reports c1 (conn w') header (AexError.class e).
Proof.
  intros Hft Hwl Hwc Hread Hmax Hfetch [(Ho & Hl & Hle & Hlt) Hwhole Hbuf (at_ & n & after & Hcut & Herr) Hok] Hraw.
  destruct (send_raw entry (request_id header) now (zip before.*1 bs) c t Hwc) as [t' Hsend].
  { destruct Hraw as [->|]; [by left|by right]. }
  destruct (serve_fails (send_closure entry (request_id header) now) (w_reader w) entry (offset header) (logical_len header) (c, t) _
    before at_ n after bs e Hbuf Ho Hl ltac:(lia) Hcut Hok Herr Hsend) as [Hsent Hans].
  unfold handle_frame. rewrite Hft. unfold handle_fetch. rewrite Hwl, Z.eqb_refl. cbn [negb]. rewrite Hread.
  rewrite (proj2 (Z.ltb_ge _ _) Hmax). cbn [w_transfers with_conn]. rewrite Hfetch. unfold SelectionLayout.check_range, checked_add.
  rewrite decide_True by lia. rewrite (proj2 (Z.ltb_ge _ _)) by lia.
  match goal with |- context [if ?b : bool then refuse _ _ ClassRequest _ _ else _] => assert (b = false) as -> end.
  { case_bool_decide as He; [done|]. destruct (Hwhole He) as [-> ->]. reflexivity. }
  cbn [conn w_transfers w_reader with_conn with_transfers]. cbn zeta. rewrite Hsent, Hans. cbn [fst snd].
  set (c1 := {| events := _ |}). exists c1.
  match goal with |- context [refuse ?w1 _ _ _ _] => destruct (refuse_spec w1 header (AexError.class e) (show_core e) Continue eq_refl) as (w' & -> & Hr & _) end.
  exists w'. by split_and!.
Qed.

(** C40: a fetch that is refused, or whose data cannot be read, is answered with an ERROR
    frame naming it and the class of what is wrong, as long as what the server writes gets
    through.  A ticket of the wrong length is reported as a protocol error and a failed
    authorisation as such, and then the connection is closed; an oversized fetch, a plan that
    is gone, a range outside the stream, an error-bounded fetch of broken elements and a
    dataset that fails to read leave the connection serving.  Nothing else is sent but, when
    the reading fails, the frames of the pieces read before it (said of the first piece of
    any transfer, and of any piece of an uncompressed one).  A fetch of broken elements of a
    lossless compressed transfer is no part of this: [gzip_unaligned_fetch_hangs_up]. *)
Theorem fetch_refused w config header session now c ticket :
  frame_type header = Fetch -> writes (conn w) = [] ->
  (wire_len header <> TICKET_LEN ->
   exists w', handle_frame config w header session now = (Ok Close, w') /\ reports (conn w) (conn w') header ClassProtocol) /\
  (wire_len header = TICKET_LEN -> read_full TICKET_LEN (conn w) = (Ok (true, ticket), c) ->
   (max_fetch_bytes (transfer config) < logical_len header ->
    exists w', handle_frame config w header session now = (Ok Continue, w') /\ reports c (conn w') header ClassRequest) /\
   (logical_len header <= max_fetch_bytes (transfer config) ->
    (forall e t, TransferRegistry.fetch (w_transfers w) (request_id header) ticket session now = (Err e, t) ->
     exists w', handle_frame config w header session now =
         (Ok (if decide (ServerError.class e = ClassAuth) then Close else Continue), w') /\
       reports c (conn w') header (ServerError.class e)) /\
    (forall entry t, TransferRegistry.fetch (w_transfers w) (request_id header) ticket session now = (Ok entry, t) ->
     (0 <= offset header -> 0 <= logical_len header ->
      total_bytes (te_layout entry) < offset header + logical_len header \/
      (offset header + logical_len header < two64 /\ QualitySpec.eps (l_quality (te_layout entry)) <> None /\
       (offset header mod DType.itemsize (l_dtype (te_layout entry)) <> 0 \/
        logical_len header mod DType.itemsize (l_dtype (te_layout entry)) <> 0)) ->
      exists w', handle_frame config w header session now = (Ok Continue, w') /\ reports c (conn w') header ClassRequest) /\
     (forall before bs e, read_fails w header entry before bs e ->
      before = [] \/ QualitySpec.codec (l_quality (te_layout entry)) = Raw ->
      exists c1 w', handle_frame config w header session now = (Ok Continue, w') /\
        out c1 = out c ++ raw_frames (request_id header) (zip before.*1 bs) /\ reports c1 (conn w') header (AexError.class e))))).
Proof.
  intros Hft Hw. unfold handle_frame. rewrite Hft. unfold handle_fetch. split.
  - intros Hne. rewrite (proj2 (Z.eqb_neq _ _) Hne). cbn [negb].
    destruct (refuse_spec w header ClassProtocol (show_server SProtocol) Close Hw) as (w' & -> & Hr & _). eauto.
  - intros Hwl Hread. rewrite (proj2 (Z.eqb_eq _ _) Hwl). cbn [negb]. rewrite Hread.
    assert (writes c = []) as Hwc.
    { unfold read_full in Hread. destruct (read_full_loop _ _ _). by injection Hread as _ <-. }
    assert (forall class message disposition t, exists w',
      refuse (with_transfers (with_conn w c) t) (Some header) class message disposition = (Ok disposition, w') /\
      reports c (conn w') header class) as Hrefuse.
    { intros. destruct (refuse_spec (with_transfers (with_conn w c) t) header class message disposition Hwc) as (w' & ? & ? & _). eauto. }
    split.
    + intros Hbig. rewrite (proj2 (Z.ltb_lt _ _) Hbig). apply (Hrefuse ClassRequest _ Continue (w_transfers w)).
    + intros Hmax. rewrite (proj2 (Z.ltb_ge _ _) Hmax). cbn [w_transfers with_conn]. split.
      * intros e t ->. destruct (Hrefuse (ServerError.class e) (show_server e) (match ServerError.class e with ClassAuth => Close | _ => Continue end) t)
          as (w' & -> & Hr). exists w'. split; [|done]. f_equal. f_equal. by destruct (ServerError.class e).
      * intros entry t Hfetch. rewrite Hfetch. split; [intros Ho Hl Hbad|intros before bs e Hf Hraw].
        2: { destruct (read_failure_reported w config header session now c ticket t entry before bs e) as (c1 & w' & Hh & ? & ?); try done.
          exists c1, w'. split; [|done]. rewrite <- Hh. unfold handle_frame. rewrite Hft. unfold handle_fetch.
          rewrite Hwl, Z.eqb_refl, Hread, (proj2 (Z.ltb_ge _ _) Hmax). cbn [negb w_transfers with_conn]. by rewrite Hfetch. }
        unfold SelectionLayout.check_range, checked_add.
        destruct (decide (total_bytes (te_layout entry) < offset header + logical_len header)) as [Hout|Hin].
        -- case_decide; [rewrite (proj2 (Z.ltb_lt _ _)) by done|]; cbn [AexError.class]; apply Hrefuse.
        -- destruct Hbad as [|(Hlt & He & Hmod)]; [lia|]. rewrite decide_True by lia.
           rewrite (proj2 (Z.ltb_ge _ _)) by lia. rewrite bool_decide_false by done.
           assert (negb (offset header mod DType.itemsize (l_dtype (te_layout entry)) =? 0)
             || negb (logical_len header mod DType.itemsize (l_dtype (te_layout entry)) =? 0) = true) as ->.
           { apply orb_true_iff. destruct Hmod; [left|right]; apply negb_true_iff, Z.eqb_neq; done. }
           cbn [negb andb]. apply Hrefuse.
Qed.
End Refusal.

(** ** Counting connections *)

Lemma server_class_not_ok e : ServerError.class e <> ClassOk.
Proof. destruct e as [| | | | | | | |e|k|]; try done; [destruct e as [| | | | | | | | | | | |? ? ?| |k]|]; try done; by destruct k. Qed.

Section Counting.
Context `{Build, HalfLib, CodecLib, Display}.
Context {F D : Type} `{!ArrayDataset D}.
Implicit Type w : World (F := F) (D := D).

(** The connections counted for session [k]. *)
Definition conns (r : SessionRegistry F) (k : bytes) : option Z := data_conns <$> sessions r !! k.

(** A registry whose sessions are under their own identifiers, none over its grant. *)
Definition sessions_ok (r : SessionRegistry F) : Prop :=
  forall k s, sessions r !! k = Some s ->
    id s = k /\ 0 <= data_conns s <= granted_streams s /\ is_u32 (granted_streams s) /\ length (token s) = 16%nat.

Lemma refuse_sessions w fetch class message disposition :
  w_sessions (refuse w fetch class message disposition).2 = w_sessions w.
Proof. unfold refuse. by destruct (send_error _ _ _ _). Qed.

Lemma handle_frame_sessions config w header session now :
  w_sessions (handle_frame config w header session now).2 = w_sessions w.
Proof.
  unfold handle_frame. destruct (frame_type header); try apply refuse_sessions; [| |done].
  - unfold handle_fetch. destruct (negb _); [apply refuse_sessions|].
    destruct (read_full TICKET_LEN (conn w)) as [[[[] ticket]| |] c]; try done.
    destruct (_ <? _); [by rewrite refuse_sessions|].
    destruct (TransferRegistry.fetch _ _ _ _ _) as [[entry| |] t]; [|by rewrite refuse_sessions|done].
    destruct (SelectionLayout.check_range _ _ _) as [[]| |]; [|by rewrite refuse_sessions|done].
    destruct (negb _ && _); [by rewrite refuse_sessions|]. cbn zeta.
    destruct (FetchReader.answer _) as [[[]| |]| |]; try done. by rewrite refuse_sessions.
  - by destruct (send_frame _ _ _).
Qed.

Lemma conns_touch r k j now : conns (SessionRegistry.touch r j now) k = conns r k.
Proof.
  unfold conns, SessionRegistry.touch. cbn. destruct (decide (k = j)) as [->|Hk].
  - rewrite lookup_alter_eq. by destruct (sessions r !! j).
  - by rewrite lookup_alter_ne by congruence.
Qed.

Lemma serve_frames_conns fuel config clock w session k :
  conns (w_sessions (serve_frames fuel config clock w session).2) k = conns (w_sessions w) k.
Proof.
  revert w. induction fuel as [|fuel IH]; intros w; cbn [serve_frames]; [done|].
  destruct (read_full HEADER_LEN (conn w)) as [[[[] b]| |] c]; try done.
  destruct (FrameHeader.decode b) as [header|e|]; [| |done].
  - match goal with |- context [handle_frame config ?w1 header session ?n] =>
      pose proof (handle_frame_sessions config w1 header session n) as Hs;
      destruct (handle_frame config w1 header session n) as [[[]| |] w2] end; cbn [snd w_sessions] in *;
      rewrite ?IH, Hs; apply conns_touch.
  - by destruct (send_error _ _ _ _).
Qed.

(** What [check_hello] does to the counts. *)
Lemma check_hello_conns b r now k :
  sessions_ok r ->
  match check_hello b r now with
  | (Ok s, r') => exists s0, sessions r !! id s = Some s0 /\ sessions r' !! id s = Some s /\
      data_conns s = data_conns s0 + 1 /\ data_conns s <= granted_streams s /\ is_u32 (granted_streams s) /\
      (k <> id s -> conns r' k = conns r k)
  | (_, r') => forall n, conns r' k = Some n -> conns r k = Some n
  end.
Proof.
  intros Hok. unfold check_hello. destruct (Hello.decode b) as [hello| |]; [|done..].
  destruct (negb _); [done|]. unfold SessionRegistry.get_at. destruct (negb _); [done|].
  set (j := session_id hello). destruct (sessions r !! j) as [s0|] eqn:Hj; [|done].
  destruct (Session.is_expired _ _ _).
  { cbn. intros n. unfold conns. cbn. destruct (decide (k = j)) as [->|Hk]; [by rewrite lookup_delete_eq|].
    by rewrite lookup_delete_ne by congruence. }
  destruct (Hok j s0 Hj) as (Hid & Hc & Hg & _).
  assert (forall n, conns (SessionRegistry.with_sessions r (<[j:=Session.touch s0 now]> (sessions r))) k = Some n ->
    conns r k = Some n) as Htouch.
  { intros n. unfold conns. cbn. destruct (decide (k = j)) as [->|Hk]; [by rewrite lookup_insert_eq, Hj|].
    by rewrite lookup_insert_ne by congruence. }
  destruct (negb (constant_time_eq _ _)); [done|].
  unfold Session.open_data_conn. cbn [granted_streams data_conns Session.touch].
  rewrite Session.open_alone_spec by (lia || done). destruct (Z.leb_spec (granted_streams s0) (data_conns s0)); [done|].
  cbn. rewrite Hid. exists s0. rewrite !lookup_insert_eq. split; [done|]. split; [done|]. split; [done|]. split; [lia|].
  split; [done|]. intros Hk. unfold conns. cbn. by rewrite !lookup_insert_ne by congruence.
Qed.


(** C36: only a client with a live session's identifier and its token, and a stream
    of its grant left, is let onto the data plane; the READY it is sent says so, or says
    which class of thing was wrong. *)
Theorem handshake_admits w now h c :
  sessions_ok (w_sessions w) -> hello_wf h ->
  read_full HELLO_LEN (conn w) = (Ok (true, Hello.encode h), c) -> writes c = [] ->
  exists ready w',
    handshake w now = (ready, w') /\
    match ready with
    | Ok s => hello_version h = PROTOCOL_VERSION /\ out (conn w') = out c ++ Ready.encode Ready.accepted /\
        exists s0, sessions (w_sessions w) !! session_id h = Some s0 /\ token s0 = session_token h /\
          Session.is_expired s0 now (SessionRegistry.idle_timeout_ms (w_sessions w)) = false /\
          data_conns s0 < granted_streams s0 /\ conns (w_sessions w') (session_id h) = Some (data_conns s0 + 1)
    | Err e => out (conn w') = out c ++ Ready.encode (Ready.refused (ServerError.class e)) /\
        ServerError.class e <> ClassOk /\
        (hello_version h <> PROTOCOL_VERSION \/
         forall s0, sessions (w_sessions w) !! session_id h = Some s0 -> token s0 = session_token h ->
           Session.is_expired s0 now (SessionRegistry.idle_timeout_ms (w_sessions w)) = true \/
           granted_streams s0 <= data_conns s0)
    | Panic => False
    end.
Proof.
  intros Hok Hwf Hread Hwr. unfold handshake. rewrite Hread. cbn [w_sessions with_conn conn with_sessions].
  unfold check_hello. rewrite hello_decode_encode by done.
  destruct Hwf as (_ & _ & [Hidl _] & [Htokl _]).
  assert (forall (e : ServerError) r (P : Prop), P -> exists ready w',
    greet (with_sessions (with_conn w c) r) (Err e) = (ready, w') /\
    match ready with Ok s => False | Panic => False
    | Err e => out (conn w') = out c ++ Ready.encode (Ready.refused (ServerError.class e)) /\ ServerError.class e <> ClassOk /\ P
    end) as Hrefuse.
  { intros e r P HP. unfold greet. cbn [conn with_sessions with_conn]. rewrite write_all_ok by done.
    exists (Err e). eexists. split; [reflexivity|]. split; [done|]. split; [apply server_class_not_ok|done]. }
  assert (forall (e : ServerError) r (P : Prop) (Q : Session F -> World -> Prop), P -> exists ready w',
    greet (with_sessions (with_conn w c) r) (Err e) = (ready, w') /\
    match ready with Ok s => Q s w' | Panic => False
    | Err e => out (conn w') = out c ++ Ready.encode (Ready.refused (ServerError.class e)) /\ ServerError.class e <> ClassOk /\ P
    end) as Hrefuse'.
  { intros e r P Q HP. destruct (Hrefuse e r P HP) as (ready & w' & Hg & Hm). exists ready, w'. split; [done|]. by destruct ready. }
  destruct (Z.eqb_spec (hello_version h) PROTOCOL_VERSION) as [Hv|Hv]; cbn [negb].
  2: { apply (Hrefuse' SProtocol _ _ (fun s w' => _)). by left. }
  unfold SessionRegistry.get_at. rewrite Hidl. cbn [Nat.eqb negb].
  destruct (sessions (w_sessions w) !! session_id h) as [s0|] eqn:Hs0.
  2: { apply (Hrefuse' SAuth _ _ (fun s w' => _)). by right. }
  destruct (Session.is_expired s0 now _) eqn:Hx.
  { apply (Hrefuse' SAuth _ _ (fun s w' => _)). right. intros ? [= <-]. auto. }
  destruct (Hok _ _ Hs0) as (Hid & Hc & Hg & Htk).
  pose proof (constant_time_eq_spec (token (Session.touch s0 now)) (session_token h) ltac:(cbn; congruence)) as Hct.
  destruct (constant_time_eq _ _) eqn:Hceq; cbn [negb].
  2: { apply (Hrefuse' SAuth _ _ (fun s w' => _)). right. intros ? [= <-] Ht. by apply Hct in Ht. }
  unfold Session.open_data_conn. cbn [granted_streams data_conns Session.touch].
  rewrite Session.open_alone_spec by (lia || done). destruct (Z.leb_spec (granted_streams s0) (data_conns s0)) as [Hfull|Hfree].
  { apply (Hrefuse' SExhausted _ _ (fun s w' => _)). right. intros ? [= <-] _. by right. }
  unfold greet. cbn [conn with_sessions with_conn].
  rewrite write_all_ok by done. eexists (Ok _), _. split; [reflexivity|]. split; [done|]. split; [done|].
  exists s0. split; [done|]. split; [by apply Hct|]. split; [done|]. split; [done|].
  unfold conns. cbn. rewrite Hid. by rewrite lookup_insert_eq.
Qed.
End Counting.

(** *** One connection to the synthetic dataset *)

#[local] Existing Instance demo_build.
#[local] Existing Instance demo_half.
#[local] Existing Instance demo_lib.
#[local] Existing Instance demo_laws.
#[local] Instance demo_display : Display :=
  {| show_server := fun _ => [63]; show_core := fun _ => [63]; show_wire := fun _ => [63] |}.

Definition demo_plan (d : NullDataset) (l : SelectionLayout) : TransferRegistry NullDataset :=
  (TransferRegistry.insert_at (TransferRegistry.new demo_config) (demo_id 7) d l 0 (Ok (demo_ticket 9))).2.

Definition demo_world (es : list ReadEvent) (ws : list (option ErrorKind)) (t : TransferRegistry NullDataset)
    : World (F := unit) :=
  {| conn := {| events := es; writes := ws; out := [] |}; w_sessions := demo_sessions; w_transfers := t;
     w_reader := FetchReader.new 5 |}.

Lemma demo_sessions_ok : sessions_ok demo_sessions.
Proof.
  intros k s Hs. unfold demo_sessions, SessionRegistry.create_insert, SessionRegistry.with_sessions in Hs. cbn [sessions] in Hs.
  apply lookup_insert_Some in Hs as [[<- <-]|[_ Hs]]; [|discriminate Hs].
  split; [done|]. split; [cbn; lia|]. split; [unfold is_u32; cbn; lia|done].
Qed.

Definition demo_gzip : QualitySpec :=
  {| encoding := Exact; cast_dtype := None; abs_error_bound := None; rel_error_bound := None; spec_codec := Some Gzip |}.

(** Every 256th byte of 16384 that count up: 64 zeros, which the codec shrinks. *)
Definition demo_counting : NullDataset :=
  {| n_dtype := Uint8; n_shape := [16384]; n_data_len := 16384; n_pattern := position_bytes 0 256 |}.
Definition demo_stride : list Index := [Slice None None (Some 256)].
Definition demo_zipped : SelectionLayout := match layout demo_counting demo_stride demo_gzip with Ok l => l | _ => demo_null_layout end.

Lemma demo_packs l : QualitySpec.codec (l_quality l) = Gzip -> packs l.
Proof.
  intros Hq spec b _ _ Hb Hlt. unfold compress. rewrite Hq, Hb, Z.eqb_refl. cbn [negb]. unfold gzip.compress. cbn [deflate demo_lib].
  rewrite decide_True by (unfold two32, two64 in *; lia). cbn [ok_or mbind result_bind]. destruct (_ <=? _); by eexists.
Qed.

Lemma fetch_delivers_witness :
  exists frames w',
    handle_frame ServerConfig.default_config
      {| conn := {| events := [Got (demo_ticket 9)]; writes := []; out := [] |}; w_sessions := demo_sessions;
         w_transfers := demo_plan demo_counting demo_zipped; w_reader := FetchReader.new 48 |}
      (FrameHeader.fetch 1 0 64) (demo_id 7) 5 = (Ok Continue, w') /\
    out (conn w') = [] ++ concat (uncurry frame_bytes <$> frames) /\ exists pieces, Forall2 (fun piece frame =>
      delivers (fun _ _ v v' => v = v') 1 demo_zipped (replicate 64 0) piece frame) pieces frames.
Proof.
  set (w := {| conn := _ |}).
  destruct (TransferRegistry.fetch (w_transfers w) 1 (demo_ticket 9) (demo_id 7) 5) as [res t] eqn:Hf.
  pose proof Hf as Hres. vm_compute in Hres. injection Hres as Hres _.
  destruct (fetch_delivers (fun _ _ v v' => v = v') w ServerConfig.default_config (FrameHeader.fetch 1 0 64) (demo_id 7) 5 (demo_ticket 9)
    {| events := []; writes := []; out := [] |} demo_counting demo_stride demo_gzip demo_zipped
    {| axes := [Range 0 64 256]; out_shape := [64]; advanced := None |}
    {| te_request_id := 1; te_session := demo_id 7; te_ticket := demo_ticket 9; te_dataset := demo_counting;
       te_layout := demo_zipped; te_last_used_ms := 5 |} t) as (pieces & frames & w' & Hw & Hc & Hd & Ho).
  - reflexivity.
  - reflexivity.
  - reflexivity.
  - reflexivity.
  - cbn. lia.
  - cbn [request_id FrameHeader.fetch]. rewrite Hf. rewrite <- Hres. vm_compute. reflexivity.
  - split; [split; [repeat constructor; lia|done|exists 1; split; [lia|done]]|done].
  - reflexivity.
  - reflexivity.
  - repeat constructor; done.
  - vm_compute. reflexivity.
  - vm_compute. reflexivity.
  - vm_compute. reflexivity.
  - cbn. lia.
  - cbn. lia.
  - vm_compute. discriminate.
  - vm_compute. reflexivity.
  - right. split; [by apply demo_packs|]. split; [by vm_compute|]. split; [by vm_compute|].
    split; [by exists 0|]. split; [by exists 64|by exists 48].
  - exists frames, w'. split; [exact Hw|]. split; [exact Ho|]. exists pieces. 
    match type of Hd with Forall2 (delivers _ _ _ ?st) _ _ => replace st with (replicate 64 0) in Hd by (vm_compute; reflexivity) end. exact Hd.
Defined.

Lemma fetch_refused_witness :
  exists w', handle_frame demo_config (demo_world [Got (demo_ticket 9)] [] (demo_plan demo_null demo_null_layout))
      (FrameHeader.fetch 1 0 17) (demo_id 7) 5 = (Ok Continue, w') /\
    reports {| events := []; writes := []; out := [] |} (conn w') (FrameHeader.fetch 1 0 17) ClassRequest.
Proof.
  apply (proj2 (fetch_refused (demo_world [Got (demo_ticket 9)] [] (demo_plan demo_null demo_null_layout)) demo_config
    (FrameHeader.fetch 1 0 17) (demo_id 7) 5 {| events := []; writes := []; out := [] |} (demo_ticket 9) eq_refl eq_refl)
    eq_refl eq_refl). reflexivity.
Defined.

Definition demo_hello : Hello := Hello.new (demo_id 7) (demo_id 8).
Lemma demo_hello_wf : hello_wf demo_hello.
Proof. unfold hello_wf, is_id, is_bytes, is_u16. by apply (bool_decide_unpack _). Qed.

Lemma handshake_admits_witness :
  exists ready w',
    handshake (demo_world [Got (Hello.encode demo_hello)] [] (TransferRegistry.new demo_config)) 5 = (ready, w') /\
    match ready with Ok s => conns (w_sessions w') (demo_id 7) = Some 1 | _ => True end.
Proof.
  destruct (handshake_admits (demo_world [Got (Hello.encode demo_hello)] [] (TransferRegistry.new demo_config)) 5 demo_hello
    {| events := []; writes := []; out := [] |} demo_sessions_ok demo_hello_wf ltac:(vm_compute; reflexivity) eq_refl)
    as (ready & w' & Hh & Hm).
  exists ready, w'. split; [exact Hh|]. destruct ready as [s|e|]; [|exact I|exact I].
  destruct Hm as (_ & _ & s0 & Hs0 & _ & _ & _ & Hc). vm_compute in Hs0. injection Hs0 as <-. exact Hc.
Defined.


(** A connection whose READY cannot be written is never counted out.  The session
    keeps one of its streams forever for a peer that is gone: [handshake] returns the
    write's error past the [close_data_conn] that only follows a finished handshake. *)
Theorem handshake_leaks_stream :
  conns demo_sessions (demo_id 7) = Some 0 /\
  conns (w_sessions (serve_connection 3 demo_config (fun _ => 5)
    (demo_world [Got (Hello.encode demo_hello)] [Some KWriteZero] (TransferRegistry.new demo_config)))) (demo_id 7) = Some 1.
Proof. split; vm_compute; reflexivity. Qed.

Definition demo_floats : NullDataset :=
  {| n_dtype := Float64; n_shape := [4]; n_data_len := 32; n_pattern := position_bytes 0 256 |}.

(** The guard against broken elements looks at the error bound only.  A fetch of
    twelve bytes of a lossless transfer compressed with gzip passes it, its block cannot be
    described, and the connection ends without the ERROR frame the fetch is owed, while the
    same fetch of the same transfer uncompressed is answered. *)
Theorem gzip_unaligned_fetch_hangs_up :
  exists gzipped raw,
    layout demo_floats [] demo_gzip = Ok gzipped /\ layout demo_floats [] QualitySpec.exact = Ok raw /\
    let go l := handle_frame demo_config
      {| conn := {| events := [Got (demo_ticket 9)]; writes := []; out := [] |}; w_sessions := demo_sessions;
         w_transfers := demo_plan demo_floats l; w_reader := FetchReader.new 64 |}
      (FrameHeader.fetch 1 0 12) (demo_id 7) 5 in
    (go gzipped).1 = Err (SCore BadBlock) /\ out (conn (go gzipped).2) = [] /\ (go raw).1 = Ok Continue.
Proof.
  eexists _, _. split; [vm_compute; reflexivity|]. split; [vm_compute; reflexivity|]. cbn zeta.
  split; [|split]; vm_compute; reflexivity.
Qed.
