(* ===== verification/Plan.v ===== *)
(** The client's side of a transfer plan: [aex-client/src/transfer.rs], with the chunk
    size and the message checks of [aex-client/src/client.rs]. *)
From S2P Require Import Prelude Errors Dtype Bytes Quality Frame Convert Reader.

(** The message of [protos/aex.proto]. *)
Record TransferPlan : Type := {
  tp_request_id : Z;
  tp_ticket : bytes;
  tp_dtype : Z;
  tp_shape : list Z;
  tp_total_bytes : Z;
  tp_codec : Z;
  tp_applied_quality : option Proto.QualitySpec;
  tp_inline_data : bytes;
}.

(** A resolved selection, ready to fetch. *)
Record Plan : Type := {
  plan_request_id : Z;
  plan_ticket : bytes;
  plan_dtype : DType;
  plan_shape : list Z;
  plan_total_bytes : Z;
  applied_quality : QualitySpec;
  requested_quality : QualitySpec;
  inline_data : bytes;
}.

Definition shape_from_proto (shape : list Z) : result ClientError (list Z) :=
  mapM (fun n => if n <? 0 then Err CProtocol else Ok n) shape.

(** Bytes in an array of [shape] and [dtype]; saturates rather than overflows. *)
Definition nbytes (shape : list Z) (dtype : DType) : Z := foldl saturating_mul (DType.itemsize dtype) shape.

Module Plan.
Definition is_inline (p : Plan) : bool := plan_request_id p =? 0.

(** Reject a plan that does not describe itself consistently. *)
Definition check (p : Plan) : result ClientError unit :=
  if negb (nbytes (plan_shape p) (plan_dtype p) =? plan_total_bytes p) then Err CProtocol
  else if is_inline p && negb (zlen (inline_data p) =? plan_total_bytes p) then Err CProtocol
  else Ok tt.

Definition from_proto (plan : TransferPlan) (requested : QualitySpec) : result ClientError Plan :=
  dtype ← map_err (fun _ => CProtocol) (DType.from_i32 (tp_dtype plan));
  shape ← shape_from_proto (tp_shape plan);
  ticket ← (if tp_request_id plan =? 0 then Ok (replicate (Z.to_nat TICKET_LEN) 0)
            else if zlen (tp_ticket plan) =? TICKET_LEN then Ok (tp_ticket plan) else Err CProtocol);
  let q := quality_from_proto (tp_applied_quality plan) in
  let plan :=
    {| plan_request_id := tp_request_id plan; plan_ticket := ticket; plan_dtype := dtype; plan_shape := shape;
       plan_total_bytes := tp_total_bytes plan;
       applied_quality := {| encoding := encoding q; cast_dtype := cast_dtype q; abs_error_bound := abs_error_bound q;
                             rel_error_bound := rel_error_bound q; spec_codec := Codec.from_u32 (tp_codec plan) |};
       requested_quality := requested; inline_data := tp_inline_data plan |} in
  _ ← check plan; Ok plan.

(** [(0..total_bytes).step_by(chunk_bytes)], each offset with the length of its chunk. *)
Definition chunks (p : Plan) (chunk_bytes : Z) : list (Z * Z) :=
  let chunk_bytes := Z.max chunk_bytes 1 in
  (fun i => (i * chunk_bytes, Z.min chunk_bytes (plan_total_bytes p - i * chunk_bytes)))
    <$> seqZ 0 (div_ceil (plan_total_bytes p) chunk_bytes).
End Plan.

(** ** How much one fetch asks for *)

Definition MIN_CHUNK_BYTES : Z := 256 * 1024.

Definition split_for_streams (chunk_bytes total_bytes streams : Z) : Z :=
  let streams := Z.max streams 1 in
  if streams <=? div_ceil total_bytes chunk_bytes then chunk_bytes
  else Z.min (Z.max (div_ceil total_bytes streams) MIN_CHUNK_BYTES) chunk_bytes.

Definition clamp (lo hi x : Z) : Z := Z.max lo (Z.min hi x).

(** [configured] is the client's setting (0: follow the server); [default_chunk] and
    [max_fetch] are what the session reported. *)
Definition chunk_bytes (configured default_chunk max_fetch streams total_bytes : Z) : Z :=
  let ceiling := Z.max max_fetch 1 in
  if negb (configured =? 0) then clamp 1 ceiling configured
  else split_for_streams (clamp 1 ceiling default_chunk) total_bytes streams.

(** ** What holds of a plan *)

Lemma step_chunks c total k n :
  0 < c -> 0 <= k -> k * c <= total -> n = div_ceil (total - k * c) c ->
  consecutive c (k * c) (total - k * c)
    ((fun i => (i * c, Z.min c (total - i * c))) <$> seqZ k n).
Proof.
  intros Hc. revert k. induction (Z.to_nat n) as [|m IH] eqn:Hm in n |- *; intros k Hk Hle Hn.
  - rewrite seqZ_nil by lia. cbn. unfold div_ceil in Hn. subst n.
    destruct (decide (total - k * c = 0)); [done|].
    assert (1 <= (total - k * c + c - 1) / c) by (apply Z.div_le_lower_bound; lia). lia.
  - assert (0 < n) by lia. rewrite seqZ_cons by lia. cbn [fmap list_fmap consecutive].
    assert (0 < total - k * c) as Hpos.
    { destruct (decide (total - k * c = 0)) as [Hz|]; [|lia]. rewrite Hz in Hn. unfold div_ceil in Hn.
      rewrite Z.div_small in Hn by lia. lia. }
    split; [done|]. split; [lia|]. split; [lia|]. destruct (decide (c <= total - k * c)) as [Hge|Hlt].
    + rewrite Z.min_l by lia. replace (k * c + c) with (Z.succ k * c) by lia.
      replace (total - k * c - c) with (total - Z.succ k * c) by lia. apply IH; [lia|lia|lia|].
      rewrite Hn. unfold div_ceil. replace (total - Z.succ k * c + c - 1) with (total - k * c + c - 1 + (-1) * c) by lia.
      rewrite Z.div_add by lia. lia.
    + rewrite Z.min_r by lia. assert (n = 1) as ->.
      { rewrite Hn. unfold div_ceil. symmetry. apply (Z.div_unique _ _ 1 (total - k * c - 1)); lia. }
      rewrite seqZ_nil by lia. cbn. lia.
Qed.

Lemma chunk_bytes_range configured default_chunk max_fetch streams total :
  0 <= configured -> 0 < max_fetch -> 1 <= chunk_bytes configured default_chunk max_fetch streams total <= max_fetch.
Proof.
  intros Hc Hm. unfold chunk_bytes, split_for_streams, clamp, MIN_CHUNK_BYTES. destruct (negb _); [lia|]. destruct (_ <=? _); lia.
Qed.

Lemma chunks_consecutive p c : 0 <= plan_total_bytes p -> 1 <= c -> consecutive c 0 (plan_total_bytes p) (Plan.chunks p c).
Proof.
  intros Ht Hc. unfold Plan.chunks. rewrite Z.max_l by lia.
  pose proof (step_chunks c (plan_total_bytes p) 0 (div_ceil (plan_total_bytes p) c)) as Hs.
  rewrite Z.mul_0_l, Z.sub_0_r in Hs. apply Hs; lia || done.
Qed.

(** The chunks a client cuts follow one another from the first byte of the stream
    to the last, none of them empty or over the chunk size, and the chunk size is never
    over what the server accepts in one fetch. *)
Theorem chunks_cover_stream p configured default_chunk max_fetch streams :
  0 <= plan_total_bytes p -> 0 <= configured -> 0 < max_fetch ->
  let c := chunk_bytes configured default_chunk max_fetch streams (plan_total_bytes p) in
  1 <= c <= max_fetch /\ consecutive c 0 (plan_total_bytes p) (Plan.chunks p c).
Proof.
  intros Ht Hc Hm. cbn zeta. pose proof (chunk_bytes_range configured default_chunk max_fetch streams (plan_total_bytes p) Hc Hm).
  split; [done|]. apply chunks_consecutive; lia.
Qed.

Lemma chunks_cover_stream_witness :
  Plan.chunks {| plan_request_id := 1; plan_ticket := []; plan_dtype := Uint8; plan_shape := [10]; plan_total_bytes := 10;
                 applied_quality := QualitySpec.exact; requested_quality := QualitySpec.exact; inline_data := [] |} 4
    = [(0, 4); (4, 4); (8, 2)] /\ 1 <= chunk_bytes 4 8 16 2 10 <= 16.
Proof.
  split; [reflexivity|].
  exact (proj1 (chunks_cover_stream {| plan_request_id := 1; plan_ticket := []; plan_dtype := Uint8; plan_shape := [10];
    plan_total_bytes := 10; applied_quality := QualitySpec.exact; requested_quality := QualitySpec.exact; inline_data := [] |}
    4 8 16 2 ltac:(cbn; lia) ltac:(lia) ltac:(lia))).
Defined.

(** The split for the streams does not keep to elements.  With the default eight
    streams and the default chunk, an error-bounded transfer of 312,501 float64s is cut at
    offsets inside an element, which is exactly the fetch the server refuses, and a refused
    fetch is not retried. *)
Theorem split_breaks_elements :
  let total := 312501 * DType.itemsize Float64 in
  let c := chunk_bytes 0 (4 * 1024 * 1024) (16 * 1024 * 1024) 8 total in
  c = 312501 /\ (0 + c) mod DType.itemsize Float64 <> 0 /\
  ClientError.is_retryable (CData ClassRequest) = false.
Proof. vm_compute. repeat split. discriminate. Qed.
