(* ===== verification/Control.v ===== *)
(** The control plane: [aex-server/src/control.rs].  Each RPC is a function over the
    service's state; the clock's readings and the random bytes it meets are arguments, the
    formats it opens files with an interface. *)
From Stdlib Require Import Ascii.
From stdpp Require Import strings gmap.
From S2P Require Import Prelude Errors Dtype Bytes Quality Selection Cast Layout Text Backend Convert Config Paths Session Transfer Reduce Handshake Plan.

Definition NPY_FORMAT : string := "npy".
Definition HDF5_FORMATS : list string := ["hdf5"; "h5"; "he5"; "nc"; "netcdf4"]%string.
Definition ZARR_FORMAT : string := "zarr".
Definition NULL_FORMAT : string := "null".

(** ** Messages of [protos/aex.proto] *)

Record ConnectRequest : Type := { cq_version : Z; cq_streams : Z; cq_client : string }.
Record ConnectReply : Type := {
  cr_session_id : bytes;
  cr_session_token : bytes;
  cr_endpoints : list (string * Z);
  cr_granted_streams : Z;
  cr_version : Z;
  cr_default_chunk_bytes : Z;
  cr_supported_codecs : Z;
  cr_supported_encodings : Z;
  cr_max_fetch_bytes : Z;
}.
Record OpenFileRequest : Type := { of_session : bytes; of_path : string; of_format : string }.
(** Of the requests that name an item of an open file. *)
Record ItemRequest : Type := { iq_session : bytes; iq_handle : Z; iq_name : string }.
Record CloseFileRequest : Type := { cf_session : bytes; cf_handle : Z }.

Inductive AttributeValue : Type :=
  | AttrText (text : string)
  | AttrArray (dtype : Z) (shape : list Z) (data : bytes).
Inductive ItemData : Type := IDataset (dtype : Z) (shape : list Z) | IGroup.
Record ItemReply : Type := { i_name : string; i_data : ItemData; i_attrs : list (string * AttributeValue) }.

Record PrepareSelectionRequest : Type := {
  ps_session : bytes;
  ps_handle : Z;
  ps_name : string;
  ps_indices : list Proto.Index;
  ps_quality : option Proto.QualitySpec;
  ps_codec : Z;
}.
Inductive TransferPlanOrError : Type := PPlan (plan : TransferPlan) | PError (klass : Z).

(** A double is its bits. *)
Inductive ArgValue : Type :=
  | IntValue (i : Z)
  | FloatValue (bits : Z)
  | BoolValue (b : bool)
  | NoneValue (b : bool)
  | TupleInt (values : list Z).
Record ApplyFunctionRequest : Type := {
  af_session : bytes;
  af_handle : Z;
  af_name : string;
  af_function : string;
  af_kwargs : list (string * option ArgValue);
  af_indices : list Proto.Index;
}.
Record ApplyFunctionReply : Type := { ar_dtype : Z; ar_shape : list Z; ar_data : bytes }.

(** ** What the formats provide *)

Class Backends (F D : Type) := {
  null_from_spec : string -> result AexError F;
  npy_open : string -> result AexError F;
  zarr_open : string -> result AexError F;
  (** [None] in a build without the feature. *)
  hdf5_open : option (string -> result AexError F);
  file_attrs : F -> string -> result AexError (list (string * AttrValue));
  (** The dataset's own [layout]. *)
  dataset_layout : D -> list Index -> QualitySpec -> result AexError SelectionLayout;
  decoded_chunk_bytes : D -> option Z;
}.

(** ** Names *)

Definition lower (c : ascii) : ascii :=
  let n := nat_of_ascii c in if (65 <=? n)%nat && (n <=? 90)%nat then ascii_of_nat (n + 32) else c.
Definition to_ascii_lowercase (s : string) : string :=
  String.string_of_list_ascii (lower <$> String.list_ascii_of_string s).
Definition eq_ignore_ascii_case (a b : string) : bool :=
  bool_decide (to_ascii_lowercase a = to_ascii_lowercase b).

(** [Path::file_name]: the last component, [.] passed over. *)
Definition path_file_name (path : string) : option (list ascii) :=
  name ← last (filter (fun c => c <> [] /\ c <> ["."%char]) (split "/" (String.list_ascii_of_string path)));
  if decide (name = ["."; "."]%char) then None else Some name.

(** [Path::extension]: what follows the last dot, which must not come first. *)
Definition extension (path : string) : option (list ascii) :=
  name ← path_file_name path;
  match reverse (split "." name) with
  | ext :: ((_ :: _ :: _) as _) => Some ext
  | [ext; before] => if decide (before = []) then None else Some ext
  | _ => None
  end.

(** The backend a file extension asks for. *)
Definition format_from_extension (path : string) : result ServerError string :=
  match extension path with
  | Some ext =>
      let ext := String.string_of_list_ascii ext in
      if Utf8.valid (string_bytes ext) then Ok (to_ascii_lowercase ext) else Err SBadRequest
  | None => Err SBadRequest
  end.

(** [trim_end_matches('/')]. *)
Definition trim_end (path : string) : string :=
  String.string_of_list_ascii (reverse (trim_start (reverse (String.list_ascii_of_string path)))).

(** ** Replies *)

(** The wire carries shapes as [int64]. *)
Definition shape_to_proto (shape : list Z) : result ServerError (list Z) :=
  mapM (fun n => if n <? two63 then Ok n else Err (SCore MalformedNpy)) shape.

Definition attr_to_proto (attr : string * AttrValue) : result ServerError (string * AttributeValue) :=
  let '(name, value) := attr in
  match value with
  | AText text => Ok (name, AttrText text)
  | AArray dtype shape data =>
      shape ← shape_to_proto shape; Ok (name, AttrArray (DType.as_i32 dtype) shape data)
  end.

Definition dataset_to_proto `{ArrayDataset D} (d : D) : result ServerError ItemData :=
  shape ← shape_to_proto (ds_shape d); Ok (IDataset (DType.as_i32 (ds_dtype d)) shape).

Definition item_to_proto `{ArrayDataset D} (name : string) (item : Item D) (attrs : list (string * AttrValue))
    : result ServerError ItemReply :=
  data ← match item with Dataset d => dataset_to_proto d | Group => Ok IGroup end;
  attrs ← mapM attr_to_proto attrs;
  Ok {| i_name := name; i_data := data; i_attrs := attrs |}.

(** Assemble the reply, whichever way the selection is being answered. *)
Definition plan_reply (l : SelectionLayout) (codec : Codec) (applied : QualitySpec) (request_id : Z)
    (ticket inline_data : bytes) : result ServerError TransferPlan :=
  shape ← shape_to_proto (l_out_shape l);
  Ok {| tp_request_id := request_id; tp_ticket := ticket; tp_dtype := DType.as_i32 (l_dtype l); tp_shape := shape;
        tp_total_bytes := total_bytes l; tp_codec := Codec.as_u32 codec;
        tp_applied_quality := Some (quality_to_proto applied); tp_inline_data := inline_data |}.

(** ** The arguments of a reduction *)

(** The magnitude of a finite double, as an integer times a power of two. *)
Definition f64_scaled (bits : Z) : Z * Z :=
  if F64.exponent bits =? 0 then (F64.mantissa bits, -1074)
  else (F64.mantissa bits + 2 ^ 52, F64.exponent bits - 1075).

(** [d.fract() == 0.0], false of an infinity and of a NaN. *)
Definition f64_integral (bits : Z) : bool :=
  F64.is_finite bits &&
  let '(m, e) := f64_scaled bits in if 0 <=? e then true else m mod 2 ^ (- e) =? 0.

(** [d as i64], which saturates. *)
Definition f64_as_i64 (bits : Z) : Z :=
  if F64.is_nan bits then 0
  else
    let '(m, e) := f64_scaled bits in
    let n := if 0 <=? e then m * 2 ^ e else m / 2 ^ (- e) in
    if F64.sign bits then Z.max (- two63) (- n) else Z.min (two63 - 1) n.

(** One turn of the loop over the arguments. *)
Definition reduce_arg (args : ReduceArgs) (kwarg : string * option ArgValue) : result ServerError ReduceArgs :=
  let '(name, value) := kwarg in
  value ← ok_or SBadRequest value;
  let with_axis a := {| axis := a; keepdims := keepdims args; ddof := ddof args |} in
  let with_ddof d := {| axis := axis args; keepdims := keepdims args; ddof := d |} in
  if decide (name = "axis") then
    match value with
    | NoneValue _ => Ok (with_axis AllAxes)
    | IntValue a => Ok (with_axis (One a))
    | TupleInt t => Ok (with_axis (Many t))
    | _ => Err SBadRequest
    end
  else if decide (name = "keepdims") then
    match value with
    | BoolValue k => Ok {| axis := axis args; keepdims := k; ddof := ddof args |}
    | _ => Err SBadRequest
    end
  else if decide (name = "ddof") then
    match value with
    | IntValue d => Ok (with_ddof d)
    | FloatValue d => if f64_integral d then Ok (with_ddof (f64_as_i64 d)) else Err SBadRequest
    | _ => Err SBadRequest
    end
  else Err SBadRequest.

Definition default_args : ReduceArgs := {| axis := AllAxes; keepdims := false; ddof := 0 |}.

(** numpy's keyword arguments, in whatever order the map holds them. *)
Definition reduce_args (kwargs : list (string * option ArgValue)) : result ServerError ReduceArgs :=
  mfold reduce_arg default_args kwargs.

(** ** The service *)

Record Service (F D : Type) : Type := {
  sv_sessions : SessionRegistry F;
  sv_transfers : TransferRegistry D;
  sv_paths : PathPolicy;
  sv_config : ServerConfig;
  (** [data_advertise_host] of the configuration, and the port really bound. *)
  sv_host : string;
  sv_port : Z;
  (** Whether the cache has been reported too small. *)
  sv_warned : bool;
}.
Arguments sv_sessions {F D}. Arguments sv_transfers {F D}. Arguments sv_paths {F D}. Arguments sv_config {F D}.
Arguments sv_host {F D}. Arguments sv_port {F D}. Arguments sv_warned {F D}.

(** What one preparation meets: the clock where the session is looked up and where the plan
    is registered, and the random bytes of its ticket. *)
Record Moment : Type := { m_lookup : Z; m_insert : Z; m_ticket : result ServerError bytes }.

Module ControlService.
Section Ops.
Context `{Build, HalfLib, HalfNum, Fs}.
Context {F D : Type} `{!ArrayDataset D, !ArrayFile F D, !Backends F D}.
#[local] Abbreviation Service := (Service F D).
Implicit Type sv : Service.

Definition new (sessions : SessionRegistry F) (transfers : TransferRegistry D) (paths : PathPolicy)
    (config : ServerConfig) (host : string) (data_port : Z) : Service :=
  {| sv_sessions := sessions; sv_transfers := transfers; sv_paths := paths; sv_config := config;
     sv_host := host; sv_port := data_port; sv_warned := false |}.

Definition with_sessions sv (r : SessionRegistry F) : Service :=
  {| sv_sessions := r; sv_transfers := sv_transfers sv; sv_paths := sv_paths sv; sv_config := sv_config sv;
     sv_host := sv_host sv; sv_port := sv_port sv; sv_warned := sv_warned sv |}.
Definition with_transfers sv (r : TransferRegistry D) : Service :=
  {| sv_sessions := sv_sessions sv; sv_transfers := r; sv_paths := sv_paths sv; sv_config := sv_config sv;
     sv_host := sv_host sv; sv_port := sv_port sv; sv_warned := sv_warned sv |}.
Definition with_warned sv (warned : bool) : Service :=
  {| sv_sessions := sv_sessions sv; sv_transfers := sv_transfers sv; sv_paths := sv_paths sv; sv_config := sv_config sv;
     sv_host := sv_host sv; sv_port := sv_port sv; sv_warned := warned |}.

(** [self.sessions.get(id)?]. *)
Definition session_of sv (id : bytes) (now : Z) : Service * result ServerError (Session F) :=
  let '(answer, r) := SessionRegistry.get_at (sv_sessions sv) id now in (with_sessions sv r, answer).

(** The files of a session, which every request of it shares. *)
Definition put_files sv (session : bytes) (fs : FileRegistry F) : Service :=
  with_sessions sv (SessionRegistry.with_sessions (sv_sessions sv)
    (alter (fun s => {| id := id s; token := token s; granted_streams := granted_streams s; client_name := client_name s;
                        s_files := fs; data_conns := data_conns s; last_seen_ms := last_seen_ms s |})
       session (sessions (sv_sessions sv)))).

(** [session.files().insert(file)]. *)
Definition insert_file sv (session : Session F) (file : F) : Service * result ServerError Z :=
  let '(handle, fs) := FileRegistry.insert (s_files session) file in
  (put_files sv (Session.get_id session) fs, Ok handle).

Definition open_hdf5 (path : string) : result ServerError F :=
  match hdf5_open with Some open => map_err SCore (open path) | None => Err SBadRequest end.

Definition open sv (rq : OpenFileRequest) (now : Z) : Service * result ServerError Z :=
  sbind (session_of sv (of_session rq) now) (fun sv session =>
  if eq_ignore_ascii_case (of_format rq) NULL_FORMAT then
    if negb (enable_null_backend (sv_config sv)) then (sv, Err SBadRequest)
    else
      sbind (pure_step sv (map_err SCore (null_from_spec (of_path rq)))) (fun sv file =>
      insert_file sv session file)
  else
    let asked := if decide (of_format rq = "") then result_ok (format_from_extension (of_path rq))
                 else Some (to_ascii_lowercase (of_format rq)) in
    if decide (asked = Some ZARR_FORMAT) then
      sbind (pure_step sv (PathPolicy.resolve_store (sv_paths sv) (of_path rq))) (fun sv root =>
      sbind (pure_step sv (map_err SCore (zarr_open root))) (fun sv file =>
      insert_file sv session file))
    else
      sbind (pure_step sv (PathPolicy.resolve (sv_paths sv) (of_path rq))) (fun sv path =>
      sbind (pure_step sv (match asked with Some format => Ok format | None => format_from_extension path end)) (fun sv format =>
      sbind (pure_step sv
        (if decide (format = NPY_FORMAT) then map_err SCore (npy_open path)
         else if decide (format ∈ HDF5_FORMATS) then open_hdf5 path
         else Err SBadRequest)) (fun sv file =>
      insert_file sv session file)))).

Definition file_of sv (session_id : bytes) (handle now : Z) : Service * result ServerError F :=
  sbind (session_of sv session_id now) (fun sv session => (sv, FileRegistry.get (s_files session) handle)).

(** Warn once if streams reading one dataset would evict each other's chunks; the answer
    says whether this call did. *)
Definition check_decode_cache sv (d : D) (streams : Z) : bool * Service :=
  match decoded_chunk_bytes d with
  | None => (false, sv)
  | Some chunk_bytes =>
      if decode_cache_bytes (transfer (sv_config sv)) <? saturating_mul chunk_bytes streams
      then (negb (sv_warned sv), with_warned sv true)
      else (false, sv)
  end.

(** What a request selects of which dataset, and in what form it travels. *)
Definition resolve_selection sv (session : Session F) (rq : PrepareSelectionRequest)
    : result ServerError (D * QualitySpec * SelectionLayout) :=
  file ← FileRegistry.get (s_files session) (ps_handle rq);
  item ← map_err SCore (get_item file (ps_name rq));
  match item with
  | Group => Err SBadRequest
  | Dataset d =>
      indices ← map_err SCore (indices_from_proto (ps_indices rq) (max_fancy_indices (limits (sv_config sv))));
      let requested := quality_from_proto (ps_quality rq) in
      let requested := {| encoding := encoding requested; cast_dtype := cast_dtype requested;
                          abs_error_bound := abs_error_bound requested; rel_error_bound := rel_error_bound requested;
                          spec_codec := Codec.from_u32 (ps_codec rq) |} in
      let applied := QualitySpec.applied requested (ds_dtype d) in
      l ← map_err SCore (dataset_layout d indices applied);
      Ok (d, applied, l)
  end.

(** Resolve a selection into a plan, or into the data itself when it is small enough and
    the budget still has room for it. *)
Definition prepare (st : Service * Z) (session_id : bytes) (rq : PrepareSelectionRequest) (m : Moment)
    : (Service * Z) * result ServerError TransferPlan :=
  let '(sv, budget) := st in
  let '(sv, session) := session_of sv session_id (m_lookup m) in
  sbind ((sv, budget), session) (fun st session =>
  sbind (pure_step st (resolve_selection sv session rq)) (fun _ '(d, applied, l) =>
  let codec := QualitySpec.codec applied in
  let '(_, sv) := check_decode_cache sv d (granted_streams session) in
  if (total_bytes l <=? inline_limit_bytes (transfer (sv_config sv))) && (total_bytes l <=? budget) then
    sbind (pure_step (sv, budget - total_bytes l)
      (map_err SCore (ds_read_range d l 0 (replicate (Z.to_nat (total_bytes l)) 0)))) (fun st inline_data =>
    (st, plan_reply l codec applied 0 [] inline_data))
  else
    let '(entry, t) := TransferRegistry.insert_at (sv_transfers sv) (Session.get_id session) d l (m_insert m) (m_ticket m) in
    sbind ((with_transfers sv t, budget), entry) (fun st entry =>
    (st, plan_reply (te_layout entry) codec applied (te_request_id entry) (te_ticket entry) [])))).

(** ** The RPCs *)

(** A refused call answers with a status. *)
Definition status {A} (r : Service * result ServerError A) : Service * result Code A :=
  (r.1, map_err ServerError.to_status r.2).

Definition connect sv (rq : ConnectRequest) (now : Z) (random_id random_token : result ServerError bytes)
    : Service * result ServerError ConnectReply :=
  if negb (cq_version rq =? SERVER_PROTOCOL_VERSION) then (sv, Err SBadRequest)
  else
    let '(session, r) := SessionRegistry.create_at (sv_sessions sv) (cq_client rq) (cq_streams rq) now random_id random_token in
    sbind (with_sessions sv r, session) (fun sv session =>
    (sv, Ok {| cr_session_id := Session.get_id session; cr_session_token := token session;
               cr_endpoints := [(sv_host sv, sv_port sv)]; cr_granted_streams := granted_streams session;
               cr_version := SERVER_PROTOCOL_VERSION;
               cr_default_chunk_bytes := default_chunk_bytes (transfer (sv_config sv));
               cr_supported_codecs := supported_codecs; cr_supported_encodings := supported_encodings;
               cr_max_fetch_bytes := max_fetch_bytes (transfer (sv_config sv)) |})).

(** The answer is how many plans went with the session, which is only logged. *)
Definition disconnect sv (session_id : bytes) (now : Z) : Service * result ServerError Z :=
  let '(session, r) := SessionRegistry.remove (sv_sessions sv) session_id now in
  sbind (with_sessions sv r, session) (fun sv session =>
  let '(dropped, t) := TransferRegistry.remove_session (sv_transfers sv) session in
  (with_transfers sv t, Ok dropped)).

Definition close_file sv (rq : CloseFileRequest) (now : Z) : Service * result ServerError unit :=
  sbind (session_of sv (cf_session rq) now) (fun sv session =>
  sbind (pure_step sv (FileRegistry.remove (s_files session) (cf_handle rq))) (fun sv fs =>
  (put_files sv (Session.get_id session) fs, Ok tt))).

Definition get_item sv (rq : ItemRequest) (now : Z) : Service * result ServerError ItemReply :=
  sbind (file_of sv (iq_session rq) (iq_handle rq) now) (fun sv file =>
  (sv,
   item ← map_err SCore (Backend.get_item file (iq_name rq));
   attrs ← map_err SCore (file_attrs file (iq_name rq));
   item_to_proto (iq_name rq) item attrs)).

(** A child's attributes, under its parent's path put back in front of its name. *)
Definition child_to_proto (file : F) (parent : string) (child : string * Item D) : result ServerError ItemReply :=
  let '(name, item) := child in
  attrs ← map_err SCore (file_attrs file (parent +:+ "/" +:+ name));
  item_to_proto name item attrs.

Definition list_children sv (rq : ItemRequest) (now : Z) : Service * result ServerError (list ItemReply) :=
  sbind (file_of sv (iq_session rq) (iq_handle rq) now) (fun sv file =>
  (sv,
   children ← map_err SCore (Backend.list_children file (iq_name rq));
   mapM (child_to_proto file (trim_end (iq_name rq))) children)).

Definition prepare_selection sv (rq : PrepareSelectionRequest) (m : Moment) : Service * result ServerError TransferPlan :=
  let '(sv, _, plan) := prepare (sv, two64 - 1) (ps_session rq) rq m in (sv, plan).

(** The elements of a batch, one after the other; an error is the element's own. *)
Fixpoint prepare_each (st : Service * Z) (session_id : bytes) (rqs : list (PrepareSelectionRequest * Moment))
    : (Service * Z) * result ServerError (list TransferPlanOrError) :=
  match rqs with
  | [] => (st, Ok [])
  | (rq, m) :: rqs =>
      let '(st, plan) := prepare st session_id rq m in
      let element := match plan with
                     | Ok plan => Ok (PPlan plan)
                     | Err e => Ok (PError (ErrorClass.as_u8 (ServerError.class e)))
                     | Panic => Panic
                     end in
      sbind (st, element) (fun st element =>
      sbind (prepare_each st session_id rqs) (fun st elements => (st, Ok (element :: elements))))
  end.

Definition prepare_selections sv (session_id : bytes) (rqs : list (PrepareSelectionRequest * Moment)) (now : Z)
    : Service * result ServerError (list TransferPlanOrError) :=
  sbind (session_of sv session_id now) (fun sv _ =>
  let '(sv, _, results) := prepare_each (sv, grpc_max_message_bytes (limits (sv_config sv)) / 2) session_id rqs in
  (sv, results)).

(** Everything of a reduction up to the blocking task. *)
Definition resolve_reduction sv (session : Session F) (rq : ApplyFunctionRequest)
    : result ServerError (D * Function * ReduceArgs * SelectionLayout) :=
  file ← FileRegistry.get (s_files session) (af_handle rq);
  item ← map_err SCore (Backend.get_item file (af_name rq));
  match item with
  | Group => Err SBadRequest
  | Dataset d =>
      function ← ok_or SBadRequest (Function.from_name (af_function rq));
      args ← reduce_args (af_kwargs rq);
      indices ← map_err SCore (indices_from_proto (af_indices rq) (max_fancy_indices (limits (sv_config sv))));
      l ← map_err SCore (dataset_layout d indices QualitySpec.exact);
      Ok (d, function, args, l)
  end.

(** A panic of the blocking task is an internal error of the call. *)
Definition apply_function sv (rq : ApplyFunctionRequest) (now : Z) : Service * result Code ApplyFunctionReply :=
  sbind (status (session_of sv (af_session rq) now)) (fun sv session =>
  (sv,
   '(d, function, args, l) ← map_err ServerError.to_status (resolve_reduction sv session rq);
   reduced ← match reduce d l function args (inline_limit_bytes (transfer (sv_config sv))) with
             | Panic => Err CodeInternal
             | r => map_err (fun e => ServerError.to_status (SCore e)) r
             end;
   shape ← map_err ServerError.to_status (shape_to_proto (r_shape reduced));
   Ok {| ar_dtype := DType.as_i32 (r_dtype reduced); ar_shape := shape; ar_data := r_data reduced |})).
End Ops.
End ControlService.
