(* ===== verification/ControlSpec.v ===== *)
(** What the RPCs may change: one session's files and plans, and nothing of anybody else's.
    The rule is stated once for a step, composed by [sbind], and proved of every handler. *)
From stdpp Require Import strings gmap relations.
From S2P Require Import Prelude Errors Dtype Bytes Quality Selection Cast Layout LayoutSpec Text Backend Convert Config Paths Session Transfer Reduce Plan Control.

(** ** What the formats promise *)

(** What every dataset keeps of the default [layout]: it may refuse, and nothing else. *)
Class LayoutKept (F D : Type) `{Build, ArrayDataset D, !Backends F D} : Prop :=
  layout_kept (d : D) indices q l : dataset_layout d indices q = Ok l -> layout d indices q = Ok l.

Lemma layout_total `{Build, ArrayDataset D, !Backends F D, !LayoutKept F D} (d : D) indices q l :
  dataset_layout d indices q = Ok l -> 0 <= total_bytes l.
Proof.
  intros Hl%layout_kept. destruct (layout_resolve_inv _ _ _ _ _ Hl) as (r & _ & _ & _ & _ & -> & _).
  pose proof (itemsize_pos (l_dtype l)). rewrite num_elements_wraps. pose proof (u64_range (zprod (out_shape r))) as [? _]. lia.
Qed.

Section Isolation.
Context `{Build, HalfLib, HalfNum, Fs}.
Context {F D : Type} `{!ArrayDataset D, !ArrayFile F D, !Backends F D}.
#[local] Abbreviation Service := (Service F D).
Implicit Type sv : Service.

(** ** The state of a service *)

(** Identifiers enough for [n] more plans before the counter wraps. *)
Definition room (n : Z) (t : TransferRegistry D) : Prop :=
  1 <= next_id t /\ next_id t + n < two32 /\ forall i, is_Some (entries t !! i) -> i < next_id t.

(** Sessions are filed under their own identifiers, and the plans are consistent. *)
Record service_ok (n : Z) sv : Prop := {
  so_filed k s : sessions (sv_sessions sv) !! k = Some s -> id s = k;
  so_plans : plans_ok (sv_transfers sv);
  so_room : room n (sv_transfers sv);
}.

(** What a session is, whatever it is used for. *)
Definition credentials (s : Session F) : bytes * bytes * Z * Z := (id s, token s, granted_streams s, data_conns s).

(** Only what is [who]'s differs, and no session is made or made another. *)
Record touches (who : bytes) sv sv' : Prop := {
  tc_sessions k : k <> who -> sessions (sv_sessions sv') !! k = sessions (sv_sessions sv) !! k;
  tc_plans i e : te_session e <> who -> entries (sv_transfers sv') !! i = Some e <-> entries (sv_transfers sv) !! i = Some e;
  tc_config : sv_config sv' = sv_config sv /\ sv_paths sv' = sv_paths sv;
  tc_own k s' : sessions (sv_sessions sv') !! k = Some s' -> exists s, sessions (sv_sessions sv) !! k = Some s /\ credentials s' = credentials s;
  tc_limits : s_config (sv_sessions sv') = s_config (sv_sessions sv) /\ t_config (sv_transfers sv') = t_config (sv_transfers sv);
}.

(** Nothing of the sessions changes. *)
Lemma touches_plans who sv sv' :
  sv_sessions sv' = sv_sessions sv -> sv_config sv' = sv_config sv -> sv_paths sv' = sv_paths sv ->
  t_config (sv_transfers sv') = t_config (sv_transfers sv) ->
  (forall i e, te_session e <> who -> entries (sv_transfers sv') !! i = Some e <-> entries (sv_transfers sv) !! i = Some e) ->
  touches who sv sv'.
Proof. intros Hs Hc Hp Hl Ht. split; rewrite ?Hs; try done. intros k s' Hk. by exists s'. Qed.

Lemma touches_refl who sv : touches who sv sv.
Proof. by apply touches_plans. Qed.

#[export] Instance touches_preorder who : PreOrder (touches who).
Proof.
  split.
  - intros sv. apply touches_refl.
  - intros sv1 sv2 sv3 [Hs1 Hp1 [Hc1 Hd1] Ho1 [Hl1 Hm1]] [Hs2 Hp2 [Hc2 Hd2] Ho2 [Hl2 Hm2]]. split; [| |by split; congruence| |by split; congruence].
    + intros k Hk. by rewrite Hs2, Hs1.
    + intros i e He. by rewrite Hp2, Hp1.
    + intros k s3 (s2 & (s1 & Hk & He1)%Ho1 & He2)%Ho2. exists s1. split; [done|congruence].
Qed.

Lemma service_ok_weaken n n' sv : n' <= n -> service_ok n sv -> service_ok n' sv.
Proof. intros Hn [Hf Hp (Hr1 & Hr2 & Hr3)]. split; [done|done|]. split; [done|]. split; [lia|done]. Qed.

(** ** A step for [who] that prepares at most [n - n'] plans *)

Section Step.
Context {St : Type} (view : St -> Service) (who : bytes).

Definition conducts {E A} (n n' : Z) (st : St) (r : St * result E A) (Q : A -> Prop) : Prop :=
  service_ok n (view st) ->
  service_ok n' (view r.1) /\ touches who (view st) (view r.1) /\ forall a, r.2 = Ok a -> Q a.

Lemma conducts_bind {E A B} n n1 n2 st (m : St * result E A) (f : St -> A -> St * result E B) P Q :
  n2 <= n1 -> conducts n n1 st m P -> (forall st1 a, P a -> conducts n1 n2 st1 (f st1 a) Q) ->
  conducts n n2 st (sbind m f) Q.
Proof.
  intros Hn Hm Hf Hok. destruct (Hm Hok) as (Hok1 & Ht1 & HP). destruct m as [st1 [a|e|]]; cbn in *.
  - destruct (Hf st1 a (HP a eq_refl) Hok1) as (Hok2 & Ht2 & HQ). split; [done|]. split; [by etrans|done].
  - split; [by eapply service_ok_weaken|done].
  - split; [by eapply service_ok_weaken|done].
Qed.

Lemma conducts_pure {E A} n st (r : result E A) (Q : A -> Prop) :
  (forall a, r = Ok a -> Q a) -> conducts n n st (st, r) Q.
Proof. intros HQ Hok. split; [done|]. split; [apply touches_refl|done]. Qed.

Lemma conducts_impl {E A} n n' st (r : St * result E A) (P Q : A -> Prop) :
  (forall a, P a -> Q a) -> conducts n n' st r P -> conducts n n' st r Q.
Proof. intros Himp Hr Hok. destruct (Hr Hok) as (? & ? & HP). split; [done|]. split; [done|]. intros a Ha. by apply Himp, HP. Qed.
End Step.

Import ControlService.
#[local] Abbreviation step := (conducts (fun sv : Service => sv)).

Lemma sessions_step who n sv r :
  (forall k, k <> who -> sessions r !! k = sessions (sv_sessions sv) !! k) -> s_config r = s_config (sv_sessions sv) ->
  (forall s', sessions r !! who = Some s' -> exists s, sessions (sv_sessions sv) !! who = Some s /\ credentials s' = credentials s) ->
  service_ok n sv -> service_ok n (with_sessions sv r) /\ touches who sv (with_sessions sv r).
Proof.
  intros Ho Hc Hw [Hf Hp Hr].
  assert (forall k s', sessions r !! k = Some s' -> exists s, sessions (sv_sessions sv) !! k = Some s /\ credentials s' = credentials s) as Hown.
  { intros k s' Hk. destruct (decide (k = who)) as [->|Hne]; [by apply Hw|]. exists s'. by rewrite <- Ho. }
  split; [split; [|done..]|by split]. intros k s' (s & Hs & He)%Hown. rewrite <- (Hf k s Hs). by injection He.
Qed.

Lemma session_of_conducts who n sv now : step who n n sv (session_of sv who now) (fun s => id s = who).
Proof.
  intros Hok. unfold session_of, SessionRegistry.get_at.
  assert (forall r, r = sv_sessions sv -> service_ok n (with_sessions sv r) /\ touches who sv (with_sessions sv r)) as Hsame.
  { intros r ->. split; [|by apply touches_plans]. destruct Hok as [Hf Hp Hr]. by split. }
  destruct (negb _); cbn [fst snd]; [by destruct (Hsame _ eq_refl)|].
  destruct (sessions (sv_sessions sv) !! who) as [s|] eqn:Hs; cbn [fst snd]; [|by destruct (Hsame _ eq_refl)].
  pose proof (so_filed _ _ Hok who s Hs) as Hid. destruct (Session.is_expired _ _ _); cbn [fst snd].
  - destruct (sessions_step who n sv (SessionRegistry.with_sessions (sv_sessions sv) (delete who (sessions (sv_sessions sv)))))
      as [? ?]; [| |  |done|done]; cbn; [|done|].
    + intros k Hk. by rewrite lookup_delete_ne.
    + intros s'. by rewrite lookup_delete_eq.
  - destruct (sessions_step who n sv (SessionRegistry.with_sessions (sv_sessions sv)
      (<[who := Session.touch s now]> (sessions (sv_sessions sv))))) as [? ?]; [| | |done|]; cbn; [|done| |].
    + intros k Hk. by rewrite lookup_insert_ne.
    + intros s'. rewrite lookup_insert_eq. intros [= <-]. by exists s.
    + split; [done|]. split; [done|]. by intros s' [= <-].
Qed.

Lemma put_files_conducts {E A} who n sv fs (r : result E A) (Q : A -> Prop) :
  (forall a, r = Ok a -> Q a) -> step who n n sv (put_files sv who fs, r) Q.
Proof.
  intros HQ Hok. unfold put_files. cbn [fst snd].
  destruct (sessions_step who n sv (SessionRegistry.with_sessions (sv_sessions sv)
    (alter (fun s => {| id := id s; token := token s; granted_streams := granted_streams s; client_name := client_name s;
                        s_files := fs; data_conns := data_conns s; last_seen_ms := last_seen_ms s |})
       who (sessions (sv_sessions sv))))) as [? ?]; [| | |done|done]; cbn; [|done|].
  - intros k Hk. by rewrite lookup_alter_ne.
  - intros s. rewrite lookup_alter_eq. destruct (sessions (sv_sessions sv) !! who) as [s'|] eqn:Hs; [|done].
    cbn. intros [= <-]. by exists s'.
Qed.

Lemma insert_file_conducts who n sv session file :
  id session = who -> step who n n sv (insert_file sv session file) (fun _ => True).
Proof. intros <-. unfold insert_file. destruct (FileRegistry.insert _ _) as [h fs]. by apply put_files_conducts. Qed.

Lemma check_cache_ok n who sv d streams :
  service_ok n sv -> service_ok n (check_decode_cache sv d streams).2 /\ touches who sv (check_decode_cache sv d streams).2.
Proof.
  intros [Hf Hp Hr]. unfold check_decode_cache. destruct (decoded_chunk_bytes d); [|by split; [split|apply touches_refl]].
  destruct (_ <? _); by split; [split|apply touches_plans].
Qed.

(** A plan registered for [who]: an identifier is spent, whether it is registered or not. *)
Lemma insert_at_room (t : TransferRegistry D) session d l now ticket n :
  plans_ok t -> room n t -> 1 <= n ->
  let '(answer, t') := TransferRegistry.insert_at t session d l now ticket in
  plans_ok t' /\ room (n - 1) t' /\ t_config t' = t_config t /\
  (forall i e, te_session e <> session -> entries t' !! i = Some e <-> entries t !! i = Some e) /\
  match answer with
  | Ok e => te_session e = session /\ te_dataset e = d /\ te_layout e = l /\ te_last_used_ms e = now /\
      ticket = Ok (te_ticket e) /\ te_request_id e = next_id t /\ entries t' !! next_id t = Some e
  | _ => entries t' = entries t
  end.
Proof.
  intros Hok (Hr1 & Hr2 & Hr3) Hn. assert (next_plan t = next_id t) as Hid.
  { unfold next_plan, TransferRegistry.next_request_id. by destruct (Z.eqb_spec (next_id t) 0); [lia|]. }
  assert (entries t !! next_id t = None) as Hfree.
  { destruct (entries t !! next_id t) eqn:He; [|done]. specialize (Hr3 (next_id t) ltac:(by eexists)). lia. }
  assert (next_id (TransferRegistry.next_request_id t).2 = next_id t + 1 /\ entries (TransferRegistry.next_request_id t).2 = entries t /\
    t_config (TransferRegistry.next_request_id t).2 = t_config t) as (Hn1 & He1 & Hc1).
  { unfold TransferRegistry.next_request_id. destruct (Z.eqb_spec (next_id t) 0); [lia|]. cbn. unfold u32.
    by rewrite Z.mod_small by lia. }
  destruct ticket as [ticket|er|].
  - destruct (insert_at_spec t session d l now ticket Hok ltac:(by rewrite Hid)) as
      (e & t' & gone & Hins & Hok' & Hrid & Hs & Ht & Hl & Hd & Hu & Hent & _ & Hgone).
    rewrite Hins. split; [done|]. assert (next_id t' = next_id t + 1 /\ t_config t' = t_config t) as [Hn' Hc'].
    { revert Hins. unfold TransferRegistry.insert_at, TransferRegistry.register. destruct (TransferRegistry.next_request_id t) as [i t1]. cbn in Hn1, Hc1.
      destruct (TransferRegistry.evict _ _ _ _) as [[es ids]| |]; [|done..]. intros [= _ <-]. by cbn. }
    rewrite Hid in *. split; [|split; [done|split]].
    + split; [lia|]. split; [lia|]. intros i Hi. rewrite Hent in Hi. rewrite Hn'. case_decide; [lia|].
      case_decide; [by destruct Hi|]. specialize (Hr3 i Hi). lia.
    + intros i e' He'. rewrite Hent. case_decide as Hi; [subst i; rewrite Hfree; split; congruence|].
      case_decide as Hg; [|done]. split; [done|]. intros Hi'. apply Hgone in Hg as [Hg _].
      apply (elem_plans_of _ _ _ Hok) in Hg as (e'' & ? & ?). congruence.
    + do 6 (split; [congruence|]). by rewrite Hent, decide_True.
  - assert (plans_ok (TransferRegistry.insert_at t session d l now (Err er)).2) as Hok'
      by (apply (plan_step_ok t); [done|by apply plan_insert; rewrite Hid]).
    unfold TransferRegistry.insert_at, TransferRegistry.register in *. destruct (TransferRegistry.next_request_id t) as [i t1]. cbn in *.
    split; [done|]. rewrite He1. split; [|done]. split; [lia|]. split; [lia|]. rewrite He1, Hn1. intros j Hj. specialize (Hr3 j Hj). lia.
  - assert (plans_ok (TransferRegistry.insert_at t session d l now Panic).2) as Hok'
      by (apply (plan_step_ok t); [done|by apply plan_insert; rewrite Hid]).
    unfold TransferRegistry.insert_at, TransferRegistry.register in *. destruct (TransferRegistry.next_request_id t) as [i t1]. cbn in *.
    split; [done|]. rewrite He1. split; [|done]. split; [lia|]. split; [lia|]. rewrite He1, Hn1. intros j Hj. specialize (Hr3 j Hj). lia.
Qed.

(** ** The handlers *)

Lemma open_conducts n sv rq now : step (of_session rq) n n sv (open sv rq now) (fun _ => True).
Proof.
  unfold open. eapply conducts_bind; [reflexivity|apply session_of_conducts|]. cbn beta. intros sv1 s Hs.
  destruct (eq_ignore_ascii_case _ _).
  { destruct (negb _); [by apply conducts_pure|]. eapply conducts_bind; [reflexivity|by apply conducts_pure with (Q := fun _ => True)|].
    intros sv2 file _. by apply insert_file_conducts. }
  cbv zeta. case_decide.
  - eapply conducts_bind; [reflexivity|by apply conducts_pure with (Q := fun _ => True)|]. intros sv2 root _.
    eapply conducts_bind; [reflexivity|by apply conducts_pure with (Q := fun _ => True)|]. intros sv3 file _. by apply insert_file_conducts.
  - do 3 (eapply conducts_bind; [reflexivity|by apply conducts_pure with (Q := fun _ => True)|]; intros ? ? _).
    by apply insert_file_conducts.
Qed.

Lemma file_of_conducts n sv who handle now : step who n n sv (file_of sv who handle now) (fun _ => True).
Proof.
  unfold file_of. eapply conducts_bind; [reflexivity|apply session_of_conducts|]. intros sv1 s _. by apply conducts_pure.
Qed.

Lemma prepare_conducts n st who rq m :
  1 <= n -> conducts (fun st : Service * Z => st.1) who n (n - 1) st (prepare st who rq m) (fun _ => True).
Proof.
  intros Hn. destruct st as [sv budget]. unfold prepare. intros Hok. cbn [fst] in Hok.
  pose proof (session_of_conducts who n sv (m_lookup m) Hok) as (Hok1 & Ht1 & Hs).
  destruct (session_of sv who (m_lookup m)) as [sv1 [s|e|]]; cbn [sbind fst snd] in *.
  2, 3: split; [by eapply service_ok_weaken, Hok1; lia|done].
  specialize (Hs s eq_refl). unfold pure_step.
  destruct (resolve_selection sv1 s rq) as [[[d applied] l]| |]; cbn [sbind fst snd].
  2, 3: split; [by eapply service_ok_weaken, Hok1; lia|done].
  pose proof (check_cache_ok n who sv1 d (granted_streams s) Hok1) as [Hok2 Ht2].
  destruct (check_decode_cache sv1 d (granted_streams s)) as [w sv2]. cbn [snd] in *.
  destruct (_ && _).
  - destruct (map_err SCore _); cbn [sbind fst snd]; (split; [by eapply service_ok_weaken, Hok2; lia|]);
      (split; [by etrans|done]).
  - pose proof (insert_at_room (sv_transfers sv2) (Session.get_id s) d l (m_insert m) (m_ticket m) n
      (so_plans _ _ Hok2) (so_room _ _ Hok2) Hn) as Hins.
    destruct (TransferRegistry.insert_at _ _ _ _ _ _) as [answer t]. destruct Hins as (Hpl & Hrm & Hcf & Hoth & _).
    assert (service_ok (n - 1) (with_transfers sv2 t) /\ touches who sv (with_transfers sv2 t)) as [Hok3 Ht3].
    { split; [split; [apply (so_filed _ _ Hok2)|done|done]|]. etrans; [exact Ht1|]. etrans; [exact Ht2|].
      apply touches_plans; [done..|exact Hcf|]. intros i e He. apply Hoth. unfold Session.get_id. by rewrite Hs. }
    destruct answer; cbn [sbind fst snd]; (split; [done|]); done.
Qed.

Lemma prepare_each_conducts n st who rqs :
  0 <= n -> conducts (fun st : Service * Z => st.1) who (n + zlen rqs) n st (prepare_each st who rqs) (fun _ => True).
Proof.
  intros Hn. revert st. induction rqs as [|[rq m] rqs IH]; intros st; cbn [prepare_each length].
  { rewrite Z.add_0_r. by apply conducts_pure. }
  intros Hok. pose proof (prepare_conducts (n + Z.of_nat (S (length rqs))) st who rq m ltac:(lia) Hok) as (Hok1 & Ht1 & _).
  destruct (prepare st who rq m) as [st1 plan]. cbn [fst] in *.
  replace (n + Z.of_nat (S (length rqs)) - 1) with (n + zlen rqs) in Hok1 by lia.
  destruct plan; cbn [sbind]; [| |split; [eapply service_ok_weaken, Hok1; lia|done]].
  all: destruct (IH st1 Hok1) as (Hok2 & Ht2 & _); destruct (prepare_each st1 who rqs) as [st2 [|e'|]]; cbn [sbind fst snd] in *;
    (split; [done|]); (split; [by etrans|done]).
Qed.

Lemma close_file_conducts n sv rq now : step (cf_session rq) n n sv (close_file sv rq now) (fun _ => True).
Proof.
  unfold close_file. eapply conducts_bind; [reflexivity|apply session_of_conducts|]. cbn beta. intros sv1 s <-.
  eapply conducts_bind; [reflexivity|by apply conducts_pure with (Q := fun _ => True)|]. intros sv2 fs _. by apply put_files_conducts.
Qed.

Lemma disconnect_conducts n sv who now : step who n n sv (disconnect sv who now) (fun _ => True).
Proof.
  intros Hok. pose proof (session_of_conducts who n sv now Hok) as (Hok1 & Ht1 & Hs).
  unfold disconnect, SessionRegistry.remove. unfold session_of in *.
  destruct (SessionRegistry.get_at _ _ _) as [[s|e|] r]; cbn [sbind fst snd] in *; [|by split..].
  specialize (Hs s eq_refl). unfold Session.get_id. rewrite Hs.
  destruct (sessions_step who n (with_sessions sv r) (SessionRegistry.with_sessions r (delete who (sessions r)))) as [Hok2 Ht2];
    [intros k Hk; cbn; by rewrite lookup_delete_ne|done|intros s'; cbn; by rewrite lookup_delete_eq|done|].
  change (with_sessions (with_sessions sv r) ?x) with (with_sessions sv x) in Hok2, Ht2.
  set (sv2 := with_sessions sv (SessionRegistry.with_sessions r (delete who (sessions r)))) in *.
  pose proof (remove_session_spec (sv_transfers sv2) who (so_plans _ _ Hok2)) as Hrem.
  assert (next_id (TransferRegistry.remove_session (sv_transfers sv2) who).2 = next_id (sv_transfers sv2) /\
    t_config (TransferRegistry.remove_session (sv_transfers sv2) who).2 = t_config (sv_transfers sv2)) as [Hnext Hcf].
  { unfold TransferRegistry.remove_session. by destruct (_ !! _). }
  destruct (TransferRegistry.remove_session (sv_transfers sv2) who) as [dropped t] eqn:Hr. cbn [snd] in Hnext, Hcf.
  destruct Hrem as (_ & Hpl & Hent).
  cbn [fst snd]. destruct (so_room _ _ Hok2) as (Hr1 & Hr2 & Hr3). split; [|split; [|done]].
  - split; [apply (so_filed _ _ Hok2)|done|]. cbn. unfold room. rewrite Hnext. split; [done|]. split; [done|].
    intros i Hi. apply Hr3. rewrite Hent in Hi. case_decide; [by destruct Hi|done].
  - etrans; [exact Ht1|]. etrans; [exact Ht2|]. apply touches_plans; [done..|exact Hcf|]. intros i e He. cbn. rewrite Hent. case_decide as Hin; [|done].
    apply (elem_plans_of _ _ _ (so_plans _ _ Hok2)) in Hin as (e' & He' & Hse). split; [done|]. intros He2.
    assert (Some e' = Some e) as [= ->] by (etrans; [symmetry; exact He'|exact He2]). done.
Qed.

(** A service just started, whatever sessions it begins with. *)
Lemma service_started n r paths config host port :
  0 <= n < two32 - 1 -> config_valid config ->
  (forall k s, sessions r !! k = Some s -> id s = k) ->
  service_ok n (ControlService.new (D := D) r (TransferRegistry.new config) paths config host port).
Proof.
  intros Hn Hc Hr. split; [exact Hr| |].
  - split; [intros i e Hi|intros i s|intros s ids Hs|unfold is_u32; cbn; lia|apply Hc]; cbn in *; rewrite ?lookup_empty in *; [done| |done].
    split; [intros (ids & ? & _)|intros (e & ? & _)]; done.
  - unfold room. cbn. split; [lia|]. split; [lia|]. intros i [e He]. by rewrite lookup_empty in He.
Qed.

(** ** Every call *)

(** A call, with the readings of the clock and the random bytes it meets. *)
Inductive Rpc : Type :=
  | RDisconnect (session : bytes) (now : Z)
  | ROpenFile (rq : OpenFileRequest) (now : Z)
  | RCloseFile (rq : CloseFileRequest) (now : Z)
  | RGetItem (rq : ItemRequest) (now : Z)
  | RListChildren (rq : ItemRequest) (now : Z)
  | RPrepareSelection (rq : PrepareSelectionRequest) (m : Moment)
  | RPrepareSelections (session : bytes) (rqs : list (PrepareSelectionRequest * Moment)) (now : Z)
  | RApplyFunction (rq : ApplyFunctionRequest) (now : Z).

(** The session a call is made in. *)
Definition caller (c : Rpc) : bytes :=
  match c with
  | RDisconnect s _ | RPrepareSelections s _ _ => s
  | ROpenFile rq _ => of_session rq
  | RCloseFile rq _ => cf_session rq
  | RGetItem rq _ | RListChildren rq _ => iq_session rq
  | RPrepareSelection rq _ => ps_session rq
  | RApplyFunction rq _ => af_session rq
  end.

(** How many plans it may prepare. *)
Definition cost (c : Rpc) : Z :=
  match c with RPrepareSelection _ _ => 1 | RPrepareSelections _ rqs _ => zlen rqs | _ => 0 end.

(** The answer as a status, what the call returns left out, and the service after. *)
Definition serve sv (c : Rpc) : Service * result Code unit :=
  let answered {A} (r : Service * result ServerError A) := let '(sv, r) := status r in (sv, (fun _ => tt) <$> r) in
  match c with
  | RDisconnect s now => answered (disconnect sv s now)
  | ROpenFile rq now => answered (open sv rq now)
  | RCloseFile rq now => answered (close_file sv rq now)
  | RGetItem rq now => answered (ControlService.get_item sv rq now)
  | RListChildren rq now => answered (ControlService.list_children sv rq now)
  | RPrepareSelection rq m => answered (prepare_selection sv rq m)
  | RPrepareSelections s rqs now => answered (prepare_selections sv s rqs now)
  | RApplyFunction rq now => let '(sv, r) := apply_function sv rq now in (sv, (fun _ => tt) <$> r)
  end.

Lemma serve_conducts n sv c :
  0 <= n -> service_ok (n + cost c) sv -> service_ok n (serve sv c).1 /\ touches (caller c) sv (serve sv c).1.
Proof.
  intros Hn. assert (forall {A} (r : Service * result ServerError A) n0,
    step (caller c) n0 n sv r (fun _ => True) -> service_ok n0 sv ->
    service_ok n (let '(sv, r) := status r in (sv, (fun _ => tt) <$> r)).1 /\
    touches (caller c) sv (let '(sv, r) := status r in (sv, (fun _ => tt) <$> r)).1) as Hans.
  { intros A r n0 Hr Hok. destruct (Hr Hok) as (? & ? & _). done. }
  destruct c as [s now|rq now|rq now|rq now|rq now|rq m|s rqs now|rq now]; cbn [cost caller serve] in *;
    rewrite ?Z.add_0_r; [apply Hans..|].
  - apply disconnect_conducts.
  - apply open_conducts.
  - apply close_file_conducts.
  - unfold ControlService.get_item. eapply conducts_bind; [reflexivity|apply file_of_conducts|]. intros. by apply conducts_pure.
  - unfold ControlService.list_children. eapply conducts_bind; [reflexivity|apply file_of_conducts|]. intros. by apply conducts_pure.
  - unfold prepare_selection. intros Hok.
    pose proof (prepare_conducts (n + 1) (sv, two64 - 1) (ps_session rq) rq m ltac:(lia) Hok) as (Hok1 & Ht & _).
    destruct (prepare _ _ _ _) as [[sv1 b] plan]. replace (n + 1 - 1) with n in Hok1 by lia. done.
  - unfold prepare_selections. eapply conducts_bind; [|apply session_of_conducts|]; [lia|]. cbn beta. intros sv1 _ _ Hok.
    pose proof (prepare_each_conducts n (sv1, grpc_max_message_bytes (limits (sv_config sv1)) / 2) s rqs Hn Hok) as (Hok1 & Ht & _).
    by destruct (prepare_each _ _ _) as [[sv2 b] rs].
  - intros Hok. unfold apply_function. pose proof (session_of_conducts (af_session rq) n sv now Hok) as (Hok1 & Ht & _).
    unfold status. destruct (session_of _ _ _) as [sv1 [a|e|]]; cbn [sbind fst snd map_err] in *; done.
Qed.
End Isolation.
