(* ===== verification/ControlServes.v ===== *)
(** The control plane's guarantees: a session is out of reach of every other, only a live one
    is answered, and what is prepared is what the client then gets. *)
From stdpp Require Import strings gmap relations.
From S2P Require Import Prelude Errors Dtype Bytes Quality Codec Selection SelectionSpec Cast Layout LayoutSpec NumpyIndex Text Backend Null Convert Config Frame Paths Session Transfer Reduce ReduceNumpy Reader DataPlane Plan Control ControlSpec.

Import ControlService.

(** ** Sessions apart *)

Section Calls.
Context `{Build, HalfLib, HalfNum, Fs}.
Context {F D : Type} `{!ArrayDataset D, !ArrayFile F D, !Backends F D}.
#[local] Abbreviation Service := (Service F D).
Implicit Type sv : Service.

(** C9: whatever a session asks for, nobody else's state changes.  As long as the request
    identifiers have not come round, which takes 2^32 plans, every other session keeps its
    files, its connections and its time of last use through each call; every plan of another
    session stays as it is, none is taken and none appears; and the tables stay consistent,
    each session and each plan filed under its own identifier.  A call that fails is no
    exception.  Connecting changes no plan, and no session but the one under the identifier
    drawn for it.  (Identifiers that have come round can take another's place:
    [wrapped_id_drops_other_plan].) *)
Theorem calls_isolated n sv :
  0 <= n ->
  (forall c, service_ok (n + cost c) sv ->
   let sv' := (serve sv c).1 in
   service_ok n sv' /\
   (forall k, k <> caller c -> sessions (sv_sessions sv') !! k = sessions (sv_sessions sv) !! k) /\
   (forall i e, te_session e <> caller c ->
      entries (sv_transfers sv') !! i = Some e <-> entries (sv_transfers sv) !! i = Some e)) /\
  (service_ok n sv -> forall rq now random_id random_token,
   let sv' := (connect sv rq now random_id random_token).1 in
   service_ok n sv' /\ sv_transfers sv' = sv_transfers sv /\
   forall k, random_id <> Ok k -> sessions (sv_sessions sv') !! k = sessions (sv_sessions sv) !! k).
Proof.
  intros Hn. split.
  - intros c Hok. destruct (serve_conducts n sv c Hn Hok) as [Hok' [Hs Hp _ _ _]]. done.
  - intros Hok rq now random_id random_token. unfold connect. destruct (negb _); [done|].
    unfold SessionRegistry.create_at, SessionRegistry.new_session. destruct Hok as [Hf Hp Hr].
    destruct (SessionRegistry.create_test _) as [[]| |]; [|by split; [split|]..].
    destruct random_id as [k| |]; [|by split; [split|]..]. destruct random_token as [tk| |]; [|by split; [split|]..].
    cbn [mbind result_bind sbind fst snd sv_sessions sv_transfers with_sessions SessionRegistry.create_insert SessionRegistry.with_sessions sessions id].
    split; [|split; [done|intros k' Hk; by rewrite lookup_insert_ne by congruence]].
    split; [|done|done]. cbn. intros k' s'. rewrite lookup_insert_Some. intros [[<- <-]|[_ Hs]]; [done|by apply Hf].
Qed.

(** The clock where a call looks its session up. *)
Definition looked_up (c : Rpc) : Z :=
  match c with
  | RDisconnect _ now | ROpenFile _ now | RCloseFile _ now | RGetItem _ now | RListChildren _ now
  | RPrepareSelections _ _ now | RApplyFunction _ now => now
  | RPrepareSelection _ m => m_lookup m
  end.

(** A session that may be used: known, of the right length and not idle too long. *)
Definition live sv (k : bytes) (now : Z) : Prop :=
  length k = 16%nat /\ exists s, sessions (sv_sessions sv) !! k = Some s /\
    Session.is_expired s now (SessionRegistry.idle_timeout_ms (sv_sessions sv)) = false.

Lemma dead_session sv k now :
  ~ live sv k now ->
  exists r, SessionRegistry.get_at (sv_sessions sv) k now = (Err SAuth, r) /\
    (r = sv_sessions sv \/ r = SessionRegistry.with_sessions (sv_sessions sv) (delete k (sessions (sv_sessions sv)))).
Proof.
  intros Hdead. unfold SessionRegistry.get_at. destruct (Nat.eqb_spec (length k) 16) as [Hl|]; cbn [negb]; [|by eauto].
  destruct (sessions (sv_sessions sv) !! k) as [s|] eqn:Hs; [|by eauto].
  destruct (Session.is_expired _ _ _) eqn:He; [by eauto|]. destruct Hdead. split; [done|]. by exists s.
Qed.

(** C26: nothing is answered without a live session.  A call naming a session that is
    unknown, of the wrong length or idle past its timeout is refused as unauthenticated,
    whatever else it asks for; no file is opened, no plan prepared or dropped, and at most
    the expired session itself is forgotten. *)
Theorem session_required sv c :
  ~ live sv (caller c) (looked_up c) ->
  (serve sv c).2 = Err CodeUnauthenticated /\
  exists r, (serve sv c).1 = with_sessions sv r /\
    (r = sv_sessions sv \/
     r = SessionRegistry.with_sessions (sv_sessions sv) (delete (caller c) (sessions (sv_sessions sv)))).
Proof.
  intros (r & Hg & Hr)%dead_session.
  assert (session_of sv (caller c) (looked_up c) = (with_sessions sv r, Err SAuth)) as Hso by (unfold session_of; by rewrite Hg).
  destruct c as [s now|rq now|rq now|rq now|rq now|rq m|s rqs now|rq now]; cbn [caller looked_up serve] in *.
  - unfold disconnect, SessionRegistry.remove. rewrite Hg. split; [done|]. by exists r.
  - unfold open. rewrite Hso. split; [done|]. by exists r.
  - unfold close_file. rewrite Hso. split; [done|]. by exists r.
  - unfold ControlService.get_item, file_of. rewrite Hso. split; [done|]. by exists r.
  - unfold ControlService.list_children, file_of. rewrite Hso. split; [done|]. by exists r.
  - unfold prepare_selection, prepare. rewrite Hso. split; [done|]. by exists r.
  - unfold prepare_selections. rewrite Hso. split; [done|]. by exists r.
  - unfold apply_function. rewrite Hso. split; [done|]. by exists r.
Qed.
End Calls.

(** ** What is prepared *)

Section Prepared.
Context `{Build, HalfLib, HalfNum, Fs}.
Context {F D : Type} `{!ArrayDataset D, !ArrayFile F D, !Backends F D}.
#[local] Abbreviation Service := (Service F D).
Implicit Type sv : Service.

Lemma session_live sv k now s :
  sessions (sv_sessions sv) !! k = Some s -> length k = 16%nat ->
  Session.is_expired s now (SessionRegistry.idle_timeout_ms (sv_sessions sv)) = false ->
  exists sv1, session_of sv k now = (sv1, Ok (Session.touch s now)) /\ sv_transfers sv1 = sv_transfers sv /\
    sv_config sv1 = sv_config sv.
Proof.
  intros Hs Hl He. unfold session_of, SessionRegistry.get_at. rewrite Hl, Hs, He. cbn. eexists. by split.
Qed.

(** What a selection resolves to. *)
Lemma resolved_selection sv s rq file d indices :
  FileRegistry.get (s_files s) (ps_handle rq) = Ok file -> Backend.get_item file (ps_name rq) = Ok (Dataset d) ->
  indices_from_proto (ps_indices rq) (max_fancy_indices (limits (sv_config sv))) = Ok indices ->
  exists applied, QualitySpec.applied applied (ds_dtype d) = applied /\
    resolve_selection sv s rq = (l ← map_err SCore (dataset_layout d indices applied); Ok (d, applied, l)).
Proof.
  intros Hf Hi Hx. unfold resolve_selection. rewrite Hf. cbn [mbind result_bind]. rewrite Hi. cbn [map_err mbind result_bind].
  rewrite Hx. cbn [map_err mbind result_bind]. eexists. split; [|done]. apply applied_spec.
Qed.

(** A layout whose bytes were counted without wrapping. *)
Definition counted (l : SelectionLayout) : Prop :=
  Forall (fun n => 0 <= n) (l_out_shape l) /\ total_bytes l = zprod (l_out_shape l) * DType.itemsize (l_dtype l) /\
  total_bytes l < two64.

Lemma nbytes_exact shape a :
  0 <= a -> Forall (fun n => 0 <= n) shape -> a * zprod shape < two64 -> foldl saturating_mul a shape = a * zprod shape.
Proof.
  intros Ha Hs. revert a Ha. induction Hs as [|n shape Hn Hs IH]; intros a Ha Hlt; cbn [foldl zprod] in *; [lia|].
  pose proof (zprod_nonneg _ Hs). destruct (decide (a * n < two64)) as [Hlt'|Hge].
  - unfold saturating_mul at 2. rewrite Z.min_l by (unfold two64 in *; lia). rewrite IH by nia. lia.
  - assert (zprod shape = 0) as Hz by nia. rewrite Hz, !Z.mul_0_r.
    assert (forall b, 0 <= b -> foldl saturating_mul b shape = 0) as Hall; [|apply Hall; unfold saturating_mul, two64 in *; lia].
    clear -Hs Hz. induction Hs as [|m shape Hm Hs IHs]; intros b Hb; cbn in *; [lia|].
    destruct (decide (m = 0)) as [->|].
    + replace (saturating_mul b 0) with 0 by (unfold saturating_mul, two64; lia). clear.
      induction shape as [|m shape IH]; [done|]. cbn. exact IH.
    + apply IHs; [nia|]. unfold saturating_mul, two64. nia.
Qed.

(** A client takes a plan the server made of a layout. *)
Lemma plan_accepted l codec applied rid ticket inl plan requested :
  counted l -> plan_reply l codec applied rid ticket inl = Ok plan ->
  (rid <> 0 -> zlen ticket = TICKET_LEN) -> (rid = 0 -> zlen inl = total_bytes l) ->
  exists p, Plan.from_proto plan requested = Ok p /\ plan_request_id p = rid /\
    (rid <> 0 -> plan_ticket p = ticket) /\ plan_dtype p = l_dtype l /\ plan_shape p = l_out_shape l /\
    plan_total_bytes p = total_bytes l /\ inline_data p = inl /\ requested_quality p = requested.
Proof.
  intros (Hs & Ht & Hlt). unfold plan_reply. intros (shape & Hshape & [= <-])%bind_ok Htk Hin.
  unfold Plan.from_proto. cbn [tp_dtype tp_shape tp_request_id tp_ticket tp_total_bytes tp_codec tp_applied_quality tp_inline_data].
  assert (shape = l_out_shape l /\ shape_from_proto shape = Ok shape) as [-> Hsp].
  { unfold shape_to_proto in Hshape. apply mapM_ok in Hshape. clear -Hshape Hs. unfold shape_from_proto.
    induction Hshape as [|n m ns ms Hn _ IH]; [done|]. apply Forall_cons in Hs as [Hn0 Hs]. destruct (IH Hs) as [-> IHk].
    destruct (Z.ltb_spec n two63); [|done]. injection Hn as <-. split; [done|]. cbn [mapM].
    destruct (Z.ltb_spec n 0); [lia|]. cbn. by rewrite IHk. }
  rewrite from_i32_as_i32. cbn [map_err mbind result_bind]. rewrite Hsp. cbn [mbind result_bind].
  assert (exists tk, (if rid =? 0 then Ok (replicate (Z.to_nat TICKET_LEN) 0)
    else if zlen ticket =? TICKET_LEN then Ok ticket else Err CProtocol) = Ok tk /\ (rid <> 0 -> tk = ticket)) as (tk & -> & Htk').
  { destruct (Z.eqb_spec rid 0) as [|Hne]; [by eexists|]. rewrite Htk, Z.eqb_refl by done. by eexists. }
  cbn [mbind result_bind]. eexists. split.
  - unfold Plan.check, Plan.is_inline, nbytes. cbn [plan_shape plan_dtype plan_total_bytes plan_request_id inline_data].
    rewrite nbytes_exact by (pose proof (itemsize_pos (l_dtype l)); done || lia).
    rewrite (Z.mul_comm _ (zprod _)), <- Ht, Z.eqb_refl. cbn [negb].
    destruct (Z.eqb_spec rid 0) as [Hz|]; cbn [andb]; [|done]. by rewrite Hin, Z.eqb_refl.
  - split; [done|]. split; [exact Htk'|]. by repeat split.
Qed.

(** What [prepare] answered with. *)
Lemma prepare_ok n sv budget k rq m st plan :
  0 <= n -> service_ok (n + 1) sv -> prepare (sv, budget) k rq m = (st, Ok plan) ->
  exists sv1 s d applied l,
    session_of sv k (m_lookup m) = (sv1, Ok s) /\ resolve_selection sv1 s rq = Ok (d, applied, l) /\
    let codec := QualitySpec.codec applied in
    ((exists b, total_bytes l <= inline_limit_bytes (transfer (sv_config sv)) /\ total_bytes l <= budget /\
        st.2 = budget - total_bytes l /\
        ds_read_range d l 0 (replicate (Z.to_nat (total_bytes l)) 0) = Ok b /\ plan_reply l codec applied 0 [] b = Ok plan) \/
     (exists e, st.2 = budget /\ entries (sv_transfers st.1) !! te_request_id e = Some e /\ 0 < te_request_id e < two32 /\
        te_session e = k /\ te_dataset e = d /\ te_layout e = l /\ te_last_used_ms e = m_insert m /\ m_ticket m = Ok (te_ticket e) /\
        TransferRegistry.ttl_ms (sv_transfers st.1) = TransferRegistry.ttl_ms (sv_transfers sv) /\
        plan_reply l codec applied (te_request_id e) (te_ticket e) [] = Ok plan)).
Proof.
  intros Hn Hok. pose proof (session_of_conducts k (n + 1) sv (m_lookup m) Hok) as (Hok1 & [_ _ [Hc1 _] _ _] & Hs).
  assert (sv_transfers (session_of sv k (m_lookup m)).1 = sv_transfers sv) as Ht1.
  { unfold session_of. by destruct (SessionRegistry.get_at _ _ _). }
  unfold prepare. destruct (session_of sv k (m_lookup m)) as [sv1 [s|e|]]; cbn [sbind fst snd] in *; [|done..].
  specialize (Hs s eq_refl). destruct (resolve_selection sv1 s rq) as [[[d applied] l]| |] eqn:Hr; cbn [pure_step sbind]; [|done..].
  pose proof (check_cache_ok (n + 1) k sv1 d (granted_streams s) Hok1) as [Hok2 [_ _ [Hc2 _] _ _]].
  assert (sv_transfers (check_decode_cache sv1 d (granted_streams s)).2 = sv_transfers sv1) as Ht2.
  { unfold check_decode_cache. destruct (decoded_chunk_bytes d); [|done]. by destruct (_ <? _). }
  destruct (check_decode_cache sv1 d (granted_streams s)) as [w sv2]. cbn [snd] in *.
  intros Hp. exists sv1, s, d, applied, l. split; [done|]. split; [done|]. cbv zeta. destruct (_ && _) eqn:Hin.
  - left. apply andb_true_iff in Hin as [H1'%Z.leb_le H2'%Z.leb_le].
    destruct (ds_read_range d l 0 _) as [b| |]; cbn [map_err sbind] in Hp; [|done..]. injection Hp as <- Hp.
    exists b. rewrite Hc2, Hc1 in H1'. split; [exact H1'|]. split; [exact H2'|]. split; [done|]. split; [done|exact Hp].
  - right. pose proof (insert_at_room (sv_transfers sv2) (Session.get_id s) d l (m_insert m) (m_ticket m) (n + 1)
      (so_plans _ _ Hok2) (so_room _ _ Hok2) ltac:(lia)) as Hins.
    destruct (TransferRegistry.insert_at _ _ _ _ _ _) as [[e|e|] t]; cbn [sbind] in Hp; [|done..]. injection Hp as <- Hp.
    destruct Hins as (Hpl & _ & Hcf & _ & Hse & Hd & Hl & Hu & Htk & Hid & He). exists e. cbn [fst snd sv_transfers with_transfers].
    rewrite Hid, He. split; [done|]. split; [done|]. split.
    { destruct (po_id t Hpl (next_id (sv_transfers sv2)) e He). lia. }
    unfold Session.get_id in Hse. rewrite Hs in Hse. do 5 (split; [done|]). split.
    { unfold TransferRegistry.ttl_ms. by rewrite Hcf, Ht2, Ht1. }
    rewrite <- Hl, <- Hid. exact Hp.
Qed.

(** A plan is always found an identifier and a place. *)
Lemma insert_answers n (t : TransferRegistry D) session d l now ticket :
  plans_ok t -> room n t ->
  exists e t', TransferRegistry.insert_at t session d l now (Ok ticket) = (Ok e, t').
Proof.
  intros Hok (Hr1 & Hr2 & Hr3). destruct (insert_at_spec t session d l now ticket Hok) as (e & t' & _ & -> & _); [|eauto].
  unfold next_plan, TransferRegistry.next_request_id. destruct (Z.eqb_spec (next_id t) 0); [lia|]. cbn.
  destruct (entries t !! next_id t) eqn:He; [|done]. specialize (Hr3 (next_id t) ltac:(by eexists)). lia.
Qed.

Lemma shape_travels shape : Forall (fun n => n < two63) shape -> shape_to_proto shape = Ok shape.
Proof. induction 1 as [|n shape Hn _ IH]; [done|]. unfold shape_to_proto in *. cbn [mapM]. rewrite (proj2 (Z.ltb_lt _ _) Hn). cbn. by rewrite IH. Qed.

(** A preparation that resolves is answered. *)
Lemma prepare_answers n sv budget rq m sv1 s d applied l ticket b :
  0 <= n -> service_ok (n + 1) sv ->
  session_of sv (ps_session rq) (m_lookup m) = (sv1, Ok s) -> resolve_selection sv1 s rq = Ok (d, applied, l) ->
  m_ticket m = Ok ticket -> Forall (fun n => n < two63) (l_out_shape l) ->
  ds_read_range d l 0 (replicate (Z.to_nat (total_bytes l)) 0) = Ok b ->
  exists st plan, prepare (sv, budget) (ps_session rq) rq m = (st, Ok plan).
Proof.
  intros Hn Hok Hs Hr Ht Hshape Hb. pose proof (session_of_conducts (ps_session rq) (n + 1) sv (m_lookup m) Hok) as (Hok1 & _ & _).
  unfold prepare. rewrite Hs in *. cbn [sbind fst snd] in *. rewrite Hr. cbn [pure_step sbind].
  pose proof (check_cache_ok (n + 1) [] sv1 d (granted_streams s) Hok1) as [Hok2 _].
  destruct (check_decode_cache sv1 d (granted_streams s)) as [w sv2]. cbn [snd] in *. rewrite Hb. unfold plan_reply. rewrite Ht.
  destruct (insert_answers (n + 1) (sv_transfers sv2) (Session.get_id s) d l (m_insert m) ticket (so_plans _ _ Hok2) (so_room _ _ Hok2))
    as (e & t & Hins). rewrite Hins. pose proof (insert_at_room (sv_transfers sv2) (Session.get_id s) d l (m_insert m) (Ok ticket) (n + 1)
      (so_plans _ _ Hok2) (so_room _ _ Hok2) ltac:(lia)) as Hroom. rewrite Hins in Hroom.
  destruct Hroom as (_ & _ & _ & _ & _ & _ & Hl & _). destruct (_ && _); cbn [map_err sbind]; rewrite ?Hl, shape_travels by done; by eauto.
Qed.
End Prepared.

Section Delivered.
Context `{Build, HalfLib, HalfNum, Fs, CodecLib, Display}.
Context {F D : Type} `{!ArrayDataset D, !ArrayFile F D, !Backends F D, !Served D, !LayoutKept F D}.
#[local] Abbreviation Service := (Service F D).
Implicit Type sv : Service.

(** The form a request asks for, its codec from a field of its own. *)
Definition asked (rq : PrepareSelectionRequest) : QualitySpec :=
  let q := quality_from_proto (ps_quality rq) in
  {| encoding := encoding q; cast_dtype := cast_dtype q; abs_error_bound := abs_error_bound q;
     rel_error_bound := rel_error_bound q; spec_codec := Codec.from_u32 (ps_codec rq) |}.

(** What a request resolves to, in a session that is live and has the file open. *)
Record resolves sv (rq : PrepareSelectionRequest) (m : Moment) (d : D) (indices : list Index) (l : SelectionLayout)
    (r : ResolvedSelection) : Prop := {
  rv_session : length (ps_session rq) = 16%nat;
  rv_file : exists s file, sessions (sv_sessions sv) !! ps_session rq = Some s /\
    Session.is_expired s (m_lookup m) (SessionRegistry.idle_timeout_ms (sv_sessions sv)) = false /\
    FileRegistry.get (s_files s) (ps_handle rq) = Ok file /\ Backend.get_item file (ps_name rq) = Ok (Dataset d);
  rv_open : ds_open d;
  rv_indices : indices_from_proto (ps_indices rq) (max_fancy_indices (limits (sv_config sv))) = Ok indices;
  rv_wf : Forall index_wf indices;
  rv_layout : dataset_layout d indices (QualitySpec.applied (asked rq) (ds_dtype d)) = Ok l;
  rv_resolved : Selection.resolve (ds_shape d) indices = Ok r;
  rv_size : 2 * (zprod (out_shape r) * DType.itemsize (l_dtype l)) < two64;
  rv_shape : Forall (fun n => n < two63) (out_shape r);
}.

(** A fetch of [header]'s range, with the ticket, before the plan goes stale. *)
Record authorised (w : World (F := F) (D := D)) (config : ServerConfig) (header : FrameHeader) (p : Plan)
    (last now : Z) (c : Connection) : Prop := {
  au_frame : frame_type header = Fetch /\ wire_len header = TICKET_LEN /\ request_id header = plan_request_id p;
  au_ticket : read_full TICKET_LEN (conn w) = (Ok (true, plan_ticket p), c) /\ writes c = [];
  au_range : 0 <= offset header /\ 0 <= logical_len header <= max_fetch_bytes (transfer config) /\
    offset header + logical_len header <= plan_total_bytes p;
  au_fresh : saturating_sub now last <= TransferRegistry.ttl_ms (w_transfers w);
  au_buffer : 0 < buffer_len (w_reader w);
}.

(** A plan registered for a session answers the fetches that name it. *)
Lemma registered_fetch sv' (e : TransferEntry D) (w : World (F := F) (D := D)) config header p now c d indices q l r :
  entries (sv_transfers sv') !! te_request_id e = Some e -> w_transfers w = sv_transfers sv' ->
  te_dataset e = d -> te_layout e = l -> plan_request_id p = te_request_id e -> plan_ticket p = te_ticket e ->
  plan_total_bytes p = total_bytes l -> 2 * total_bytes l < two64 ->
  ds_open d -> Forall index_wf indices -> layout d indices q = Ok l -> Selection.resolve (ds_shape d) indices = Ok r ->
  authorised w config header p (te_last_used_ms e) now c ->
  encodable l (buffer_len (w_reader w)) (offset header) (logical_len header) ->
  exists pieces frames w',
    handle_frame config w header (te_session e) now = (Ok Continue, w') /\
    consecutive (buffer_len (w_reader w)) (offset header) (logical_len header) pieces /\
    Forall2 (carries (request_id header) l (logical_stream (contents d) (ds_shape d) (ds_dtype d) (l_dtype l) r)) pieces frames /\
    out (conn w') = out c ++ concat (uncurry frame_bytes <$> frames).
Proof.
  intros He Hw Hd Hl Hid Htk Htot Hsz Hop Hi Hlay Hr [(Hft & Hwl & Hrid) [Hrd Hwr] (Ho & Hln & Hrange) Hfresh Hbuf] Henc.
  destruct (TransferRegistry.fetch (w_transfers w) (request_id header) (plan_ticket p) (te_session e) now) as [res t] eqn:Hfetch.
  assert (res = Ok (TransferEntry.touch e now)) as ->.
  { revert Hfetch. unfold TransferRegistry.fetch. rewrite Hw, Hrid, Hid, He. unfold TransferEntry.is_expired. rewrite Hw in Hfresh.
    rewrite (proj2 (Z.ltb_ge _ _)) by done. rewrite Htk, (proj2 (constant_time_eq_spec _ _ eq_refl) eq_refl), bool_decide_true by done.
    by intros [= <- _]. }
  apply (fetch_spec w config header (te_session e) now (plan_ticket p) c d indices q l r (TransferEntry.touch e now) t); done || lia.
Qed.

(** A plan the client has been answered with: its bytes come with it, or the table holds
    the selection under the plan's own identifier and ticket. *)
Definition held_or_inline sv' (rq : PrepareSelectionRequest) (m : Moment) d l (stream : bytes) (p : Plan) : Prop :=
  if Plan.is_inline p then inline_data p = stream
  else exists e, entries (sv_transfers sv') !! te_request_id e = Some e /\ te_session e = ps_session rq /\
    te_dataset e = d /\ te_layout e = l /\ te_last_used_ms e = m_insert m /\ m_ticket m = Ok (te_ticket e) /\
    plan_request_id p = te_request_id e /\ plan_ticket p = te_ticket e /\ 0 < te_request_id e < two32.

Lemma selection_prepared n sv rq m requested d indices l r ticket :
  0 <= n -> service_ok (n + 1) sv -> resolves sv rq m d indices l r ->
  m_ticket m = Ok ticket -> zlen ticket = TICKET_LEN ->
  let stream := logical_stream (contents d) (ds_shape d) (ds_dtype d) (l_dtype l) r in
  exists sv' plan p,
    prepare_selection sv rq m = (sv', Ok plan) /\ Plan.from_proto plan requested = Ok p /\
    plan_dtype p = l_dtype l /\ plan_shape p = out_shape r /\ plan_total_bytes p = zlen stream /\
    total_bytes l = zlen stream /\ 2 * total_bytes l < two64 /\
    layout d indices (QualitySpec.applied (asked rq) (ds_dtype d)) = Ok l /\ held_or_inline sv' rq m d l stream p.
Proof.
  intros Hn Hok Hres Htk Htl stream. destruct Hres as [Hlen (s & file & Hs & He & Hf & Hi) Hop Hx Hwf Hlay Hr Hsize Hshape].
  pose proof (layout_kept d indices _ l Hlay) as Hlay'.
  destruct (layout_resolve_inv _ _ _ _ _ Hlay') as (r' & Hr' & Hos & _ & _ & Htn & _). rewrite Hr in Hr'. injection Hr' as <-.
  pose proof (itemsize_pos (l_dtype l)) as Hit.
  pose proof (num_elements_le _ _ (resolved_ok _ _ _ (served_shape d Hop) Hwf Hr)) as Hne.
  destruct (served_stream d indices _ l r Hop Hwf Hlay' Hr) as (Hpos & Htot & Hle & Hread); [nia|rewrite Hos; nia|].
  fold stream in Hle, Hread. assert (zlen stream = total_bytes l) as Hst.
  { unfold stream. destruct (served_len d Hop) as [Hdl Hdm]. rewrite Hdl in Hdm.
    by rewrite (length_logical (contents d) (ds_shape d) indices (ds_dtype d) (QualitySpec.applied (asked rq) (ds_dtype d)) l r),
      Htot, Hos; try done; apply served_shape. }
  assert (slice 0 (total_bytes l) stream = stream) as Hall by (rewrite <- Hst; apply slice_all).
  assert (ds_read_range d l 0 (replicate (Z.to_nat (total_bytes l)) 0) = Ok stream) as Hb.
  { rewrite Hread; rewrite ?length_replicate; unfold is_u64; [|nia..].
    by rewrite Z2Nat.id, Hall by nia. }
  destruct (session_live sv (ps_session rq) (m_lookup m) s Hs Hlen He) as (sv1 & Hso & Ht1 & Hc1).
  assert (resolve_selection sv1 (Session.touch s (m_lookup m)) rq = Ok (d, QualitySpec.applied (asked rq) (ds_dtype d), l)) as Hrs.
  { unfold resolve_selection. cbn [s_files Session.touch]. rewrite Hf. cbn [mbind result_bind]. rewrite Hi. cbn [map_err mbind result_bind].
    rewrite Hc1, Hx. cbn [map_err mbind result_bind]. fold (asked rq). by rewrite Hlay. }
  destruct (prepare_answers n sv (two64 - 1) rq m sv1 _ d _ l ticket stream Hn Hok Hso Hrs Htk) as (st & plan & Hp); [by rewrite Hos|done|].
  destruct (prepare_ok n sv _ _ rq m st plan Hn Hok Hp) as (sv1' & s' & d' & ap & l' & Hso' & Hrs' & Hcase).
  rewrite Hso in Hso'. injection Hso' as <- <-. rewrite Hrs in Hrs'. injection Hrs' as <- <- <-. cbv zeta in Hcase.
  assert (counted l) as Hcl by (split; [done|split; [done|nia]]).
  destruct st as [sv' b]. exists sv', plan. unfold prepare_selection. rewrite Hp.
  destruct Hcase as [(b' & _ & _ & _ & Hb' & Hplan)|(e & _ & Hent & Hid & Hse & Hd & Hl & Hu & Htk' & Httl & Hplan)].
  - rewrite Hb in Hb'. injection Hb' as <-.
    destruct (plan_accepted l _ _ _ _ _ plan requested Hcl Hplan) as (p & Hfp & Hpid & _ & Hdt & Hsh & Htb & Hin & _); [done|done|].
    exists p. rewrite Hst, <- Hos. unfold held_or_inline, Plan.is_inline. rewrite Hpid. do 6 (split; [done|]). split; [nia|]. by split.
  - destruct (plan_accepted l _ _ _ _ _ plan requested Hcl Hplan) as (p & Hfp & Hpid & Hpt & Hdt & Hsh & Htb & Hin & _); [congruence|lia|].
    exists p. rewrite Hst, <- Hos. unfold held_or_inline, Plan.is_inline. rewrite Hpid. rewrite (proj2 (Z.eqb_neq _ _)) by lia.
    do 5 (split; [done|]). split; [done|]. split; [nia|]. split; [done|]. exists e. specialize (Hpt ltac:(lia)). split_and!; done || lia.
Qed.

(** The selection numpy's way: the view it has of the dataset, and its bytes as they
    travel. *)
Lemma selection_viewed sv rq m d indices l r :
  resolves sv rq m d indices l r ->
  exists view, numpy_index (ds_shape d) indices = Some view /\ out_shape r = v_shape view /\
    l_dtype l = QualitySpec.wire_dtype (QualitySpec.applied (asked rq) (ds_dtype d)) (ds_dtype d) /\
    logical_stream (contents d) (ds_shape d) (ds_dtype d) (l_dtype l) r =
      numpy_stream (contents d) (ds_shape d) (ds_dtype d) (l_dtype l) view.
Proof.
  intros [_ _ Hop _ Hwf Hlay Hr _ _]. destruct (layout_resolve_inv _ _ _ _ _ (layout_kept d indices _ l Hlay)) as (_ & _ & _ & _ & Hd & _).
  destruct (stream_like_numpy (contents d) (ds_shape d) (ds_dtype d) (l_dtype l) indices r (served_shape d Hop) Hwf Hr)
    as (view & Hv & Hsh & Hst). by exists view.
Qed.

End Delivered.

Section Decoded.
Context `{Build, HalfLib, HalfNum, Fs, CodecLib, Display}.
Context {F D : Type} `{!ArrayDataset D, !ArrayFile F D, !Backends F D, !Served D, !LayoutKept F D}.
Context (close : DType -> Z -> bytes -> bytes -> Prop) `{!CodecLaws close}.

End Decoded.

(** ** At concrete inputs *)

(** *** A service with the null backend, one file open in a session *)

#[local] Existing Instance demo_build.
#[local] Existing Instance demo_half.
#[local] Existing Instance demo_half_num.
#[local] Existing Instance demo_fs.
#[local] Existing Instance demo_lib.
#[local] Existing Instance demo_laws.
#[local] Existing Instance demo_display.

#[export] Instance null_backends : Backends NullFile NullDataset := {|
  null_from_spec := NullFile.from_spec;
  npy_open _ := Err (Io KNotFound);
  zarr_open _ := Err (Io KNotFound);
  hdf5_open := None;
  file_attrs _ _ := Ok [];
  dataset_layout d indices q := layout d indices q;
  decoded_chunk_bytes _ := None |}.

#[export] Instance null_layout_kept : LayoutKept NullFile NullDataset.
Proof. by intros d indices q l. Qed.

Definition demo_file : NullFile := {| nf_dataset := Reader.demo_null |}.
Definition demo_owner (n : Z) : Session NullFile :=
  {| id := demo_id n; token := demo_id (n + 1); granted_streams := 4; client_name := "demo";
     s_files := (FileRegistry.insert FileRegistry.new demo_file).2; data_conns := 0; last_seen_ms := 0 |}.
Definition demo_service : Service NullFile NullDataset :=
  ControlService.new
    (SessionRegistry.create_insert (SessionRegistry.create_insert (SessionRegistry.new demo_config) (demo_owner 7)) (demo_owner 6))
    (TransferRegistry.new demo_config) {| p_roots := ["/data"%string] |} demo_config "localhost" 50052.
Definition demo_request : PrepareSelectionRequest :=
  {| ps_session := demo_id 7; ps_handle := 1; ps_name := "array"; ps_indices := []; ps_quality := None; ps_codec := 0 |}.
Definition demo_moment : Moment := {| m_lookup := 10; m_insert := 20; m_ticket := Ok (demo_ticket 9) |}.

Lemma demo_service_ok n : 0 <= n < two32 - 1 -> service_ok n demo_service.
Proof.
  intros Hn. apply service_started; [done|apply demo_config_valid|]. intros k s. unfold demo_service, SessionRegistry.create_insert. cbn.
  rewrite lookup_insert_Some. intros [[<- <-]|[_ Hs]]; [done|]. apply lookup_insert_Some in Hs as [[<- <-]|[_ Hs]]; [done|].
  by rewrite lookup_empty in Hs.
Qed.

Lemma calls_isolated_witness :
  sessions (sv_sessions (serve demo_service (RDisconnect (demo_id 7) 10)).1) !! demo_id 6 = Some (demo_owner 6) /\
  sessions (sv_sessions (connect demo_service
    {| cq_client := "other"; cq_version := SERVER_PROTOCOL_VERSION; cq_streams := 1 |} 10 (Ok (demo_id 3)) (Ok (demo_id 4))).1)
    !! demo_id 6 = Some (demo_owner 6).
Proof.
  assert (service_ok (0 + cost (RDisconnect (demo_id 7) 10)) demo_service) as Hok
    by (apply demo_service_ok; vm_compute; split; [discriminate|reflexivity]).
  destruct (calls_isolated 0 demo_service (Z.le_refl 0)) as [Hcalls Hconnect]. split.
  - etrans; [apply (proj1 (proj2 (Hcalls (RDisconnect (demo_id 7) 10) Hok)) (demo_id 6)); discriminate|]. vm_compute. reflexivity.
  - etrans; [apply (proj2 (proj2 (Hconnect Hok _ 10 (Ok (demo_id 3)) (Ok (demo_id 4)))) (demo_id 6)); discriminate|]. vm_compute. reflexivity.
Defined.

Lemma session_required_witness :
  (serve demo_service (RPrepareSelection demo_request {| m_lookup := 2000; m_insert := 2000; m_ticket := Ok (demo_ticket 9) |})).2
  = Err CodeUnauthenticated.
Proof.
  apply session_required. intros [_ (s & Hs & He)]. vm_compute in Hs. injection Hs as <-. vm_compute in He. discriminate He.
Defined.

Definition demo_layout : SelectionLayout :=
  {| l_out_shape := [12]; l_dtype := Uint8; l_src_dtype := Uint8; total_bytes := 12;
     l_quality := {| encoding := Exact; cast_dtype := None; abs_error_bound := None; rel_error_bound := None;
                     spec_codec := Some Raw |};
     kind := Contiguous 0 12 |}.

Lemma demo_resolves :
  resolves demo_service demo_request demo_moment Reader.demo_null [] demo_layout
    {| axes := [Range 0 12 1]; out_shape := [12]; advanced := None |}.
Proof.
  split; [reflexivity| |apply Reader.demo_null_open|reflexivity|by apply Forall_nil_2|vm_compute; reflexivity|vm_compute; reflexivity|reflexivity|
    by repeat constructor].
  exists (demo_owner 7), demo_file. by split_and!.
Qed.

