(* ===== verification/ControlAnswers.v ===== *)
(** What single calls answer: a batch's replies stay under the message limit, a reduction's
    arguments mean the same in any order, and files are opened inside the roots only. *)
From stdpp Require Import strings gmap relations.
From S2P Require Import Prelude Errors Dtype Bytes Quality Selection Cast Layout LayoutSpec Text Backend Null Convert Config Paths Session Transfer Reduce ReduceNumpy Plan Control ControlSpec ControlServes.

Import ControlService.

(** ** Batches *)

Section Batch.
Context `{Build, HalfLib, HalfNum, Fs}.
Context {F D : Type} `{!ArrayDataset D, !ArrayFile F D, !Backends F D, !LayoutKept F D}.
#[local] Abbreviation Service := (Service F D).
Implicit Type sv : Service.

(** The caller's buffer comes back as long as it went in. *)
Context (Hbuffer : forall (d : D) l off dst b, ds_read_range d l off dst = Ok b -> zlen b = zlen dst).

(** The bytes an element of a batch brings with it. *)
Definition inlined (p : TransferPlanOrError) : Z :=
  match p with PPlan plan => zlen (tp_inline_data plan) | PError _ => 0 end.
Definition inlined_all (ps : list TransferPlanOrError) : Z := foldr (fun p => Z.add (inlined p)) 0 ps.

Definition inline_limit sv : Z := inline_limit_bytes (transfer (sv_config sv)).

Lemma resolved_layout sv s rq d applied l :
  resolve_selection sv s rq = Ok (d, applied, l) -> exists indices, dataset_layout d indices applied = Ok l.
Proof.
  unfold resolve_selection. intros (file & _ & (item & _ & Hi)%bind_ok)%bind_ok. destruct item as [d'|]; [|done].
  apply bind_ok in Hi as (indices & _ & (l' & Hl & [= <- <- <-])%bind_ok). exists indices.
  by destruct (dataset_layout _ _ _); simplify_eq/=.
Qed.

(** What a plan brings is taken off the budget, and the budget never runs under zero. *)
Lemma prepare_budget sv budget k rq m :
  0 <= budget -> 0 <= inline_limit sv ->
  let '((sv', budget'), answer) := prepare (sv, budget) k rq m in
  sv_config sv' = sv_config sv /\ 0 <= budget' <= budget /\
  forall plan, answer = Ok plan -> zlen (tp_inline_data plan) <= budget - budget' /\ zlen (tp_inline_data plan) <= inline_limit sv.
Proof.
  intros Hb Hlim. unfold prepare.
  assert (sv_config (session_of sv k (m_lookup m)).1 = sv_config sv) as Hc1 by (unfold session_of; by destruct (SessionRegistry.get_at _ _ _)).
  destruct (session_of sv k (m_lookup m)) as [sv1 [s|e|]]; cbn [sbind fst snd] in *; [|by split_and!..].
  destruct (resolve_selection sv1 s rq) as [[[d applied] l]| |] eqn:Hr; cbn [pure_step sbind]; [|by split_and!..].
  assert (sv_config (check_decode_cache sv1 d (granted_streams s)).2 = sv_config sv1) as Hc2.
  { unfold check_decode_cache. destruct (decoded_chunk_bytes d); [|done]. by destruct (_ <? _). }
  destruct (check_decode_cache sv1 d (granted_streams s)) as [w sv2]. cbn [snd] in *. rewrite Hc2, Hc1.
  assert (forall rid ticket inl plan codec l', plan_reply l' codec applied rid ticket inl = Ok plan -> tp_inline_data plan = inl) as Hpr.
  { intros rid ticket inl plan codec l'. unfold plan_reply. by intros (shape & _ & [= <-])%bind_ok. }
  destruct (_ && _) eqn:Hin.
  - apply andb_true_iff in Hin as [H1'%Z.leb_le H2'%Z.leb_le].
    assert (0 <= total_bytes l) as Hpos by (destruct (resolved_layout _ _ _ _ _ _ Hr) as [indices Hl]; by eapply layout_total).
    destruct (ds_read_range d l 0 _) as [b| |] eqn:Hb'; cbn [map_err sbind]; (split; [congruence|]); (split; [lia|]); [|done..].
    intros plan Hp. rewrite (Hpr _ _ _ _ _ _ Hp). apply Hbuffer in Hb'. rewrite length_replicate in Hb'. unfold inline_limit. lia.
  - destruct (TransferRegistry.insert_at _ _ _ _ _ _) as [[e|e|] t]; cbn [sbind]; (split; [cbn; congruence|]); (split; [lia|]); [|done..].
    intros plan Hp. rewrite (Hpr _ _ _ _ _ _ Hp). cbn. unfold inline_limit in *. lia.
Qed.
Lemma prepare_each_budget sv budget k rqs :
  0 <= budget -> 0 <= inline_limit sv ->
  let '((sv', budget'), answer) := prepare_each (sv, budget) k rqs in
  0 <= budget' <= budget /\
  match answer with
  | Ok elements => length elements = length rqs /\ inlined_all elements <= budget - budget' /\
      Forall (fun p => inlined p <= inline_limit sv) elements
  | Err _ => False
  | Panic => exists rq m sv1 b, (rq, m) ∈ rqs /\ (prepare (sv1, b) k rq m).2 = Panic
  end.
Proof.
  revert sv budget. induction rqs as [|[rq m] rqs IH]; intros sv budget Hb Hlim; cbn [prepare_each].
  { split; [lia|]. split; [done|]. cbn. split; [lia|constructor]. }
  pose proof (prepare_budget sv budget k rq m Hb Hlim) as Hp. destruct (prepare (sv, budget) k rq m) as [[sv1 b1] plan] eqn:Heq.
  destruct Hp as (Hc & Hb1 & Hplan).
  assert (inline_limit sv1 = inline_limit sv) as Hl1 by (unfold inline_limit; congruence).
  destruct plan as [plan|e|]; cbn [sbind].
  3: { split; [done|]. exists rq, m, sv, budget. split; [left|by rewrite Heq]. }
  all: specialize (IH sv1 b1 ltac:(lia) ltac:(lia)); rewrite Hl1 in IH; destruct (prepare_each (sv1, b1) k rqs) as [[sv2 b2] answer];
    destruct IH as [Hb2 Han]; destruct answer as [elements|e'|]; cbn [sbind]; [|done|]; (split; [lia|]).
  2, 4: destruct Han as (rq' & m' & sv' & b' & Hin & ?); exists rq', m', sv', b'; split; [by right|done].
  - destruct Han as (Hlen & Hsum & Hall). specialize (Hplan plan eq_refl) as [Hp1 Hp2]. cbn [length inlined_all foldr inlined].
    fold (inlined_all elements). split; [lia|]. split; [lia|]. by constructor.
  - destruct Han as (Hlen & Hsum & Hall). cbn [length inlined_all foldr inlined]. fold (inlined_all elements).
    split; [lia|]. split; [lia|]. constructor; [done|done].
Qed.

(** The service and the budget that the [i]-th element of a batch meets: what the elements
    before it leave, each prepared in turn. *)
Definition before (st : Service * Z) (k : bytes) (rqs : list (PrepareSelectionRequest * Moment)) (i : nat) : Service * Z :=
  foldl (fun st rq => (prepare st k rq.1 rq.2).1) st (take i rqs).

(** An element's reply: its plan, or the class of its own error. *)
Definition reply (plan : result ServerError TransferPlan) : option TransferPlanOrError :=
  match plan with
  | Ok plan => Some (PPlan plan)
  | Err e => Some (PError (ErrorClass.as_u8 (ServerError.class e)))
  | Panic => None
  end.

Lemma prepare_each_replies st k rqs :
  match prepare_each st k rqs with
  | (st', Ok results) =>
      st' = before st k rqs (length rqs) /\
      forall i rq m, rqs !! i = Some (rq, m) -> is_Some (results !! i) /\ results !! i = reply (prepare (before st k rqs i) k rq m).2
  | (_, Err _) => False
  | (_, Panic) => exists i rq m, rqs !! i = Some (rq, m) /\ (prepare (before st k rqs i) k rq m).2 = Panic
  end.
Proof.
  revert st. induction rqs as [|[rq m] rqs IH]; intros st; cbn [prepare_each]; [done|].
  destruct (prepare st k rq m) as [st1 plan] eqn:Hp.
  assert (forall i, before st k ((rq, m) :: rqs) (S i) = before st1 k rqs i) as Hnext.
  { intros i. unfold before. cbn [take foldl fst snd]. by rewrite Hp. }
  assert (plan = Panic \/ is_Some (reply plan)) as [->|[r Hr]] by (destruct plan; [right; by eexists..|by left]).
  { cbn. exists 0%nat, rq, m. split; [done|]. cbn. by rewrite Hp. }
  specialize (IH st1). destruct plan as [plan|e|]; [| |done]; cbn [sbind]; destruct (prepare_each st1 k rqs) as [st2 [results|e'|]]; cbn [sbind]; try done.
  all: try (destruct IH as (i & rq' & m' & Hi & Hpa); exists (S i), rq', m'; by rewrite Hnext).
  all: destruct IH as [-> IH]; cbn [length]; split; [by rewrite Hnext|]; intros [|i] rq' m' Hi;
    [cbn in Hi |- *; injection Hi as <- <-; rewrite Hp; split; [by eexists|done]|rewrite Hnext; by apply IH].
Qed.

(** C30: a batch is answered element by element, and its answer stays sendable.  In a
    live session the [i]-th answer is the plan, or the class of the error, that the [i]-th
    request prepared in the service left by the ones before it comes to, with what they left
    of a budget that starts at half the message limit; an element that fails stops none of
    the later ones, and the service is left as all of them in turn leave it.  What the
    plans carry inline adds up to at most half the message limit, and each carries at most the
    inline limit.  The call as a whole fails on no element; it panics only if preparing one
    does. *)
Theorem batch_budget sv k rqs now sv1 s :
  session_of sv k now = (sv1, Ok s) -> 0 <= inline_limit sv -> 0 <= grpc_max_message_bytes (limits (sv_config sv)) ->
  let st := (sv1, grpc_max_message_bytes (limits (sv_config sv)) / 2) in
  match prepare_selections sv k rqs now with
  | (sv', Ok results) =>
      sv' = (before st k rqs (length rqs)).1 /\ length results = length rqs /\
      (forall i rq m, rqs !! i = Some (rq, m) ->
         is_Some (results !! i) /\ results !! i = reply (prepare (before st k rqs i) k rq m).2) /\
      inlined_all results <= grpc_max_message_bytes (limits (sv_config sv)) / 2 /\
      Forall (fun p => inlined p <= inline_limit sv) results
  | (_, Err _) => False
  | (_, Panic) => exists i rq m, rqs !! i = Some (rq, m) /\ (prepare (before st k rqs i) k rq m).2 = Panic
  end.
Proof.
  intros Hs Hl Hg. unfold prepare_selections.
  assert (sv_config sv1 = sv_config sv) as Hc.
  { change sv1 with (sv1, @Ok ServerError _ s).1. rewrite <- Hs. unfold session_of. by destruct (SessionRegistry.get_at _ _ _). }
  rewrite Hs. cbn [sbind]. rewrite Hc. set (half := grpc_max_message_bytes _ / 2). cbn zeta.
  pose proof (prepare_each_budget sv1 half k rqs) as Hp. unfold inline_limit in *. rewrite Hc in Hp.
  pose proof (prepare_each_replies (sv1, half) k rqs) as Hr.
  destruct (prepare_each (sv1, half) k rqs) as [[sv2 b2] answer].
  destruct Hp as [Hb Han]; [apply Z.div_pos; lia|done|]. destruct answer; [|done..].
  destruct Han as (? & ? & ?), Hr as [<- Hr]. split; [done|]. split; [done|]. split; [done|]. split; [lia|done].
Qed.
End Batch.

(** ** The arguments of a reduction *)

(** What an argument of a name may be. *)
Definition as_axis (v : ArgValue) : option Axis :=
  match v with
  | NoneValue _ => Some AllAxes
  | IntValue a => Some (One a)
  | TupleInt t => Some (Many t)
  | _ => None
  end.
Definition as_keepdims (v : ArgValue) : option bool := match v with BoolValue k => Some k | _ => None end.
Definition as_ddof (v : ArgValue) : option Z :=
  match v with
  | IntValue d => Some d
  | FloatValue d => if f64_integral d then Some (f64_as_i64 d) else None
  | _ => None
  end.

(** The argument [name] of the call, or the default where it is not given. *)
Definition argument {A} (kwargs : list (string * option ArgValue)) (name : string) (read : ArgValue -> option A)
    (default : A) : option A :=
  match (list_to_map kwargs : gmap string _) !! name with
  | None => Some default
  | Some value => v ← value; read v
  end.

Definition parameters : list string := ["axis"; "keepdims"; "ddof"]%string.

(** The keywords read one by one. *)
Definition arguments (kwargs : list (string * option ArgValue)) (args : ReduceArgs) : option ReduceArgs :=
  if decide (Forall (fun name => name ∈ parameters) kwargs.*1) then
    a ← argument kwargs "axis" as_axis (axis args);
    k ← argument kwargs "keepdims" as_keepdims (keepdims args);
    d ← argument kwargs "ddof" as_ddof (ddof args);
    Some {| axis := a; keepdims := k; ddof := d |}
  else None.

Lemma argument_cons {A} name name' value kwargs (read : ArgValue -> option A) default :
  name' ∉ kwargs.*1 ->
  argument ((name', value) :: kwargs) name read default =
  if decide (name' = name) then v ← value; read v else argument kwargs name read default.
Proof.
  intros Hn. unfold argument. cbn [list_to_map foldr fst snd uncurry]. case_decide as Hd; [subst; by rewrite lookup_insert_eq|by rewrite lookup_insert_ne].
Qed.

Lemma argument_absent {A} name kwargs (read : ArgValue -> option A) default :
  name ∉ kwargs.*1 -> argument kwargs name read default = Some default.
Proof. intros Hn. unfold argument. by rewrite not_elem_of_list_to_map_1. Qed.

Lemma reduce_arg_spec args name value :
  reduce_arg args (name, value) =
  match v ← value;
        (if decide (name = "axis") then a ← as_axis v; Some {| axis := a; keepdims := keepdims args; ddof := ddof args |}
         else if decide (name = "keepdims") then k ← as_keepdims v; Some {| axis := axis args; keepdims := k; ddof := ddof args |}
         else if decide (name = "ddof") then d ← as_ddof v; Some {| axis := axis args; keepdims := keepdims args; ddof := d |}
         else None)
  with Some args => Ok args | None => Err SBadRequest end.
Proof.
  unfold reduce_arg, as_ddof. destruct value as [v|]; [|done]. cbn [ok_or mbind result_bind option_bind].
  repeat case_decide; try done; destruct v; try done. cbn. by destruct (f64_integral _).
Qed.

Lemma reduce_args_from kwargs args :
  NoDup kwargs.*1 ->
  mfold reduce_arg args kwargs = match arguments kwargs args with Some args => Ok args | None => Err SBadRequest end.
Proof.
  revert args. induction kwargs as [|[name value] kwargs IH]; intros args Hnd; [by destruct args|].
  cbn [fmap list_fmap fst] in Hnd. apply NoDup_cons in Hnd as [Hname Hnd]. cbn [mfold]. rewrite reduce_arg_spec.
  assert (forall args', match arguments kwargs args' with Some args => Ok args | None => Err SBadRequest end =
    mfold reduce_arg args' kwargs) as IH' by (intros; by rewrite IH). clear IH.
  destruct (decide (name ∈ parameters)) as [Hin|Hout].
  - assert (forall args', arguments ((name, value) :: kwargs) args' =
      if decide (Forall (fun name => name ∈ parameters) kwargs.*1) then
        a ← (if decide (name = "axis") then v ← value; as_axis v else argument kwargs "axis" as_axis (axis args'));
        k ← (if decide (name = "keepdims") then v ← value; as_keepdims v else argument kwargs "keepdims" as_keepdims (keepdims args'));
        d ← (if decide (name = "ddof") then v ← value; as_ddof v else argument kwargs "ddof" as_ddof (ddof args'));
        Some {| axis := a; keepdims := k; ddof := d |}
      else None) as ->.
    { intros args'. unfold arguments. rewrite !argument_cons by done. cbn [fmap list_fmap fst].
      destruct (decide (Forall _ kwargs.*1)); [rewrite decide_True by by constructor|rewrite decide_False by (by inversion 1)]; done. }
    apply elem_of_cons in Hin as [->|Hin]; [|apply elem_of_cons in Hin as [->|Hin]; [|apply list_elem_of_singleton in Hin as ->]];
      repeat match goal with
      | |- context [decide (@eq string ?a ?b)] => destruct (decide (@eq string a b)); [try discriminate|try done]
      end.
    all: destruct value as [v|]; cbn [mbind option_bind result_bind]; [|case_decide; [|done]; try destruct (argument kwargs "axis" _ _); cbn; try destruct (argument kwargs "keepdims" _ _); done].
    all: rewrite ?(argument_absent _ kwargs) by done.
    + destruct (as_axis v) as [a|]; cbn [mbind option_bind result_bind]; [|by case_decide; cbn]. rewrite <- IH'. unfold arguments. cbn [axis keepdims ddof].
      by rewrite (argument_absent "axis") by done.
    + destruct (as_keepdims v) as [a|]; cbn [mbind option_bind result_bind].
      * rewrite <- IH'. unfold arguments. cbn [axis keepdims ddof]. by rewrite (argument_absent "keepdims") by done.
      * case_decide; [|done]. by destruct (argument kwargs "axis" _ _).
    + destruct (as_ddof v) as [a|]; cbn [mbind option_bind result_bind].
      * rewrite <- IH'. unfold arguments. cbn [axis keepdims ddof]. by rewrite (argument_absent "ddof") by done.
      * case_decide; [|done]. destruct (argument kwargs "axis" _ _); [cbn|done]. by destruct (argument kwargs "keepdims" _ _).
  - assert (name <> "axis" /\ name <> "keepdims" /\ name <> "ddof")%string as (? & ? & ?) by (unfold parameters in Hout; set_solver).
    unfold arguments. rewrite decide_False by (cbn; by inversion 1).
    destruct value; cbn [mbind option_bind]; [|done]. by do 3 (rewrite decide_False by done).
Qed.

(** A reduction's keywords mean what numpy's do, in whatever order they come.
    [axis] may be an integer, a tuple or nothing, [keepdims] a boolean, [ddof] an integer or
    a float without a fraction; each defaults on its own, and any other keyword or value
    is a bad request. *)
Theorem reduce_args_exact kwargs :
  NoDup kwargs.*1 ->
  reduce_args kwargs = match arguments kwargs default_args with Some args => Ok args | None => Err SBadRequest end /\
  forall kwargs', kwargs ≡ₚ kwargs' -> reduce_args kwargs' = reduce_args kwargs.
Proof.
  intros Hnd. assert (forall l, NoDup l.*1 -> reduce_args l =
    match arguments l default_args with Some args => Ok args | None => Err SBadRequest end) as Heq by (intros; by apply reduce_args_from).
  split; [by apply Heq|]. intros kwargs' Hp. rewrite !Heq; [|done|by rewrite <- Hp].
  unfold arguments, argument. rewrite (list_to_map_proper _ _ Hnd Hp).
  destruct (decide (Forall _ kwargs.*1)) as [Hf|Hf]; rewrite Hp in Hf; [by rewrite decide_True|by rewrite decide_False].
Qed.

Lemma reduce_args_exact_witness :
  NoDup ["keepdims"; "axis"]%string /\
  reduce_args [("keepdims", Some (BoolValue true)); ("axis", Some (IntValue (-1)))]%string =
    Ok {| axis := One (-1); keepdims := true; ddof := 0 |} /\
  reduce_args [("axis", Some (IntValue (-1))); ("keepdims", Some (BoolValue true))]%string =
    Ok {| axis := One (-1); keepdims := true; ddof := 0 |}.
Proof.
  set (kwargs := [("keepdims", Some (BoolValue true)); ("axis", Some (IntValue (-1)))]%string).
  assert (NoDup kwargs.*1) as Hnd by (apply (bool_decide_unpack _); vm_compute; exact I).
  destruct (reduce_args_exact kwargs Hnd) as [He Hp]. split; [exact Hnd|]. split; [rewrite He; reflexivity|].
  rewrite (Hp _ (perm_swap _ _ [])), He. reflexivity.
Defined.

(** ** Opening a file *)

Section Open.
Context `{Build, HalfLib, HalfNum, Fs}.
Context {F D : Type} `{!ArrayDataset D, !ArrayFile F D, !Backends F D}.
#[local] Abbreviation Service := (Service F D).
Implicit Type sv : Service.

(** The format a request names, or its path's extension does. *)
Definition asked_format (rq : OpenFileRequest) : option string :=
  if decide (of_format rq = "") then result_ok (format_from_extension (of_path rq))
  else Some (to_ascii_lowercase (of_format rq)).

(** The format of the file found at [path], the path's own extension the last resort. *)
Definition format_at (rq : OpenFileRequest) (path : string) : result ServerError string :=
  match asked_format rq with Some format => Ok format | None => format_from_extension path end.

(** Where the file of a request may come from: [located] ties the path opened to the path
    asked for and to a root. *)
Inductive opens (config : ServerConfig) (policy : PathPolicy) (rq : OpenFileRequest) (file : F) : Prop :=
  | opens_null :
      eq_ignore_ascii_case (of_format rq) NULL_FORMAT = true -> enable_null_backend config = true ->
      null_from_spec (of_path rq) = Ok file -> opens config policy rq file
  | opens_zarr path :
      asked_format rq = Some ZARR_FORMAT -> located policy (of_path rq) path -> is_dir path = true ->
      zarr_open path = Ok file -> opens config policy rq file
  | opens_npy path :
      format_at rq path = Ok NPY_FORMAT -> located policy (of_path rq) path -> is_file path = true ->
      npy_open path = Ok file -> opens config policy rq file
  | opens_hdf5 path format opener :
      format_at rq path = Ok format -> format ∈ HDF5_FORMATS -> located policy (of_path rq) path -> is_file path = true ->
      hdf5_open = Some opener -> opener path = Ok file -> opens config policy rq file.

Lemma insert_file_spec sv session file s0 :
  sessions (sv_sessions sv) !! Session.get_id session = Some s0 ->
  exists sv' handle, insert_file sv session file = (sv', Ok handle) /\ sv_config sv' = sv_config sv /\
    exists s, sessions (sv_sessions sv') !! Session.get_id session = Some s /\ FileRegistry.get (s_files s) handle = Ok file.
Proof.
  intros Hs. unfold insert_file. destruct (FileRegistry.insert (s_files session) file) as [h fs] eqn:Hins. eexists _, _. split; [reflexivity|].
  split; [done|]. eexists. cbn. rewrite lookup_alter_eq, Hs. cbn. split; [done|].
  unfold FileRegistry.insert in Hins. injection Hins as <- <-. unfold FileRegistry.get. cbn. by rewrite lookup_insert_eq.
Qed.

Lemma resolved_located (p : PathPolicy) requested path :
  (PathPolicy.resolve p requested = Ok path -> located p requested path /\ is_file path = true) /\
  (PathPolicy.resolve_store p requested = Ok path -> located p requested path /\ is_dir path = true).
Proof.
  unfold PathPolicy.resolve, PathPolicy.resolve_store. split; intros (path' & Hl%locate_located & Hp)%bind_ok.
  - destruct (is_file path') eqn:Hf; [|done]. by injection Hp as <-.
  - destruct (is_dir path') eqn:Hf; [|done]. by injection Hp as <-.
Qed.

(** The file [open] inserts, if it comes to that. *)
Lemma open_answer sv rq now sv1 session :
  session_of sv (of_session rq) now = (sv1, Ok session) ->
  match (open sv rq now).2 with
  | Ok handle => exists file, opens (sv_config sv1) (sv_paths sv1) rq file /\
                   open sv rq now = insert_file sv1 session file
  | _ => (open sv rq now).1 = sv1
  end.
Proof.
  intros Hs. unfold open. rewrite Hs. cbn [sbind].
  assert (forall file, opens (sv_config sv1) (sv_paths sv1) rq file ->
    match (insert_file sv1 session file).2 with
    | Ok handle => exists file', opens (sv_config sv1) (sv_paths sv1) rq file' /\
                     insert_file sv1 session file = insert_file sv1 session file'
    | _ => (insert_file sv1 session file).1 = sv1
    end) as Hins.
  { intros file Ho. unfold insert_file at 1. destruct (FileRegistry.insert _ _) as [h fs] eqn:Hi. cbn [snd]. by exists file. }
  destruct (eq_ignore_ascii_case _ _) eqn:Hnull.
  { destruct (enable_null_backend _) eqn:Hen; cbn [negb]; [|done].
    destruct (null_from_spec (of_path rq)) as [file| |] eqn:Hf; cbn [map_err pure_step sbind]; [|done..]. apply Hins. by eapply opens_null. }
  cbv zeta. fold (asked_format rq). case_decide as Hz.
  - destruct (PathPolicy.resolve_store _ _) as [root| |] eqn:Hr; cbn [pure_step sbind]; [|done..].
    apply resolved_located in Hr as [Hin Hd]. destruct (zarr_open root) as [file| |] eqn:Hf; cbn [map_err sbind pure_step]; [|done..].
    apply Hins. by eapply opens_zarr.
  - destruct (PathPolicy.resolve _ _) as [path| |] eqn:Hr; cbn [pure_step sbind]; [|done..]. apply resolved_located in Hr as [Hin Hfile].
    fold (format_at rq path). destruct (format_at rq path) as [format| |] eqn:Hfmt; cbn [pure_step sbind]; [|done..].
    case_decide as Hnpy; [subst format|case_decide as Hh5; [|done]].
    + destruct (npy_open path) as [file| |] eqn:Hf; cbn [map_err pure_step sbind]; [|done..]. apply Hins. by eapply opens_npy.
    + unfold open_hdf5. destruct hdf5_open as [opener|] eqn:Hop; [|done].
      destruct (opener path) as [file| |] eqn:Hf; cbn [map_err pure_step sbind]; [|done..]. apply Hins. by eapply opens_hdf5.
Qed.

(** C29: a handle names a file of the data roots.  [open] in a live session either puts
    one file into that session, found afterwards under the handle it answers, or changes
    nothing more; and that file is a null file of an enabled null backend, or what the backend
    of its format opens, a directory for a Zarr store and a regular file for the others, at
    the path the request resolves to: what [canonicalize] answers for the path asked for, or
    for that path under the first root it resolves under; free of [..] and of links, and
    with the components of a configured root, resolved in the same way, at its front.  Of
    [canonicalize] what its documentation says is assumed ([FsLaws]). *)
Theorem open_confined `{!FsLaws} sv rq now sv1 session configured :
  PathPolicy.new configured = Ok (sv_paths sv) ->
  (forall k s, sessions (sv_sessions sv) !! k = Some s -> id s = k) ->
  session_of sv (of_session rq) now = (sv1, Ok session) ->
  match open sv rq now with
  | (sv2, Ok handle) =>
      exists file s, opens (sv_config sv) (sv_paths sv) rq file /\
        sessions (sv_sessions sv2) !! of_session rq = Some s /\ FileRegistry.get (s_files s) handle = Ok file
  | (sv2, _) => sv2 = sv1
  end /\
  (forall path, located (sv_paths sv) (of_path rq) path ->
     plain path /\ canonicalize path = Ok path /\
     exists root c, c ∈ configured /\ canonicalize c = Ok root /\ is_dir root = true /\ plain root /\
       components root `prefix_of` components path).
Proof.
  intros Hnew Hfiled Hs. split.
  2: { intros path Hl. destruct (located_canonical _ _ _ Hl) as [Hp Hc]. split; [done|]. split; [done|].
       destruct Hl as [(root & Hin & Hpre) _]. destruct (policy_roots _ _ _ Hnew Hin) as (c & Hcf & Hcc & Hd & Hpl & _).
       by exists root, c. }
  pose proof (open_answer sv rq now sv1 session Hs) as Ho.
  assert (sv_config sv1 = sv_config sv /\ sv_paths sv1 = sv_paths sv /\ Session.get_id session = of_session rq /\
    sessions (sv_sessions sv1) !! of_session rq = Some session) as (Hc & Hp & Hid & Hl).
  { revert Hs. unfold session_of, SessionRegistry.get_at. destruct (negb _); [done|].
    destruct (sessions (sv_sessions sv) !! of_session rq) as [s0|] eqn:Hs0; [|done]. destruct (Session.is_expired _ _ _); [done|].
    intros [= <- <-]. cbn. rewrite lookup_insert_eq. by rewrite (Hfiled _ _ Hs0). }
  rewrite Hc, Hp in Ho. destruct (open sv rq now) as [sv2 [handle|e|]]; cbn [fst snd] in Ho; [|done..].
  destruct Ho as (file & Hfile & Hins). destruct (insert_file_spec sv1 session file session) as (sv' & h & Hi & _ & s & Hs' & Hg);
    [by rewrite Hid|]. rewrite Hi in Hins. injection Hins as <- <-. exists file, s. by rewrite <- Hid.
Qed.
End Open.

(** ** At concrete inputs *)

#[local] Existing Instance demo_build.
#[local] Existing Instance demo_half.
#[local] Existing Instance demo_half_num.
#[local] Existing Instance demo_fs.

(** *** Three bytes that are all zero, asked for whole, twice and in part *)

#[local] Instance zeros : ArrayDataset unit := {|
  ds_dtype _ := Uint8; ds_shape _ := [3]; ds_read_range _ l offset dst := Ok dst |}.
#[local] Instance zeros_file : ArrayFile unit unit := {|
  Backend.get_item _ path := Ok (Dataset tt); Backend.list_children _ _ := Err NotAGroup |}.
#[local] Instance zeros_backends : Backends unit unit := {|
  null_from_spec _ := Ok tt; npy_open _ := Ok tt; zarr_open _ := Ok tt; hdf5_open := None; file_attrs _ _ := Ok [];
  dataset_layout d indices q := layout d indices q; decoded_chunk_bytes _ := None |}.
#[local] Instance zeros_kept : LayoutKept unit unit.
Proof. by intros d indices q l. Qed.

Definition demo_small_config : ServerConfig :=
  {| enable_null_backend := false;
     limits := {| max_sessions := 2; max_fancy_indices := 16; grpc_max_message_bytes := 8;
                  max_streams_per_session := 4; max_transfers_per_session := 2; session_idle_timeout_sec := 1;
                  data_conn_idle_timeout_sec := 1; transfer_ttl_sec := 1 |};
     transfer := {| default_chunk_bytes := 8; read_buffer_bytes := 4; max_fetch_bytes := 16;
                    inline_limit_bytes := 3; decode_cache_bytes := 64 |};
     roots := ["/data"%string] |}.
Definition demo_zeros_session : Session unit :=
  {| id := demo_id 7; token := demo_id 8; granted_streams := 4; client_name := "demo";
     s_files := (FileRegistry.insert FileRegistry.new tt).2; data_conns := 0; last_seen_ms := 0 |}.
Definition demo_zeros : Service unit unit :=
  ControlService.new (SessionRegistry.create_insert (SessionRegistry.new demo_small_config) demo_zeros_session)
    (TransferRegistry.new demo_small_config) {| p_roots := ["/data"%string] |} demo_small_config "localhost" 50052.
Definition demo_ask (indices : list Proto.Index) : PrepareSelectionRequest * Moment :=
  ({| ps_session := demo_id 7; ps_handle := 1; ps_name := "zeros"; ps_indices := indices; ps_quality := None; ps_codec := 0 |},
   {| m_lookup := 10; m_insert := 20; m_ticket := Ok (demo_ticket 9) |}).
Definition demo_batch : list (PrepareSelectionRequest * Moment) :=
  [demo_ask []; demo_ask []; demo_ask [{| Proto.index_kind := Some (Proto.KSingle 7) |}];
   demo_ask [{| Proto.index_kind := Some (Proto.KSingle 1) |}]].

(** The second no longer fits what the first left, the third is out of bounds, and the
    last fits again. *)
Lemma batch_budget_witness :
  match prepare_selections demo_zeros (demo_id 7) demo_batch 10 with
  | (_, Ok results) => inlined <$> results = [3; 0; 0; 1] /\ inlined_all results <= 4 /\
      results !! 2%nat = Some (PError (ErrorClass.as_u8 ClassRequest))
  | _ => False
  end.
Proof.
  assert (forall (d : unit) l off dst b, ds_read_range d l off dst = Ok b -> zlen b = zlen dst) as Hbuffer by (by intros ? ? ? ? ? [= <-]).
  destruct (session_of demo_zeros (demo_id 7) 10) as [sv1 s] eqn:Hs.
  pose proof (f_equal snd Hs) as Hs2. vm_compute in Hs2. subst s.
  pose proof (batch_budget Hbuffer demo_zeros (demo_id 7) demo_batch 10 sv1 _ Hs ltac:(vm_compute; discriminate) ltac:(vm_compute; discriminate)) as Hb.
  cbv zeta in Hb. destruct (prepare_selections demo_zeros (demo_id 7) demo_batch 10) as [sv' r] eqn:Hr.
  assert (r = (prepare_selections demo_zeros (demo_id 7) demo_batch 10).2) as Hr2 by (by rewrite Hr). clear Hr.
  vm_compute in Hr2. subst r. destruct Hb as (_ & _ & Hel & Hsum & _). split; [vm_compute; reflexivity|]. split; [exact Hsum|].
  vm_compute. reflexivity.
Defined.

(** *** A file in the root *)

Definition demo_open (path format : string) : OpenFileRequest :=
  {| of_session := demo_id 7; of_path := path; of_format := format |}.

Lemma open_confined_witness :
  (open demo_zeros (demo_open "sst.npy" "") 10).2 = Ok 2 /\
  (exists file, opens demo_small_config {| p_roots := ["/data"%string] |} (demo_open "sst.npy" "") file) /\
  plain "/data/sst.npy" /\
  (open demo_zeros (demo_open "link" "NPY") 10).2 = Err SPathNotAllowed.
Proof.
  split; [vm_compute; reflexivity|].
  destruct (session_of demo_zeros (demo_id 7) 10) as [sv1 s] eqn:Hs. assert (s = (session_of demo_zeros (demo_id 7) 10).2) as Hs2 by (by rewrite Hs).
  vm_compute in Hs2. subst s.
  assert (forall k s, sessions (sv_sessions demo_zeros) !! k = Some s -> id s = k) as Hf.
  { intros k s. unfold demo_zeros, SessionRegistry.create_insert. cbn. rewrite lookup_insert_Some.
    intros [[<- <-]|[_ Hl]]; [done|]. by rewrite lookup_empty in Hl. }
  pose proof (open_confined demo_zeros (demo_open "sst.npy" "") 10 sv1 _ ["/data"%string] eq_refl Hf Hs) as [Ho Hpath].
  destruct (open demo_zeros (demo_open "sst.npy" "") 10) as [sv2 r] eqn:Hop.
  assert (r = (open demo_zeros (demo_open "sst.npy" "") 10).2) as Hr by (by rewrite Hop).
  vm_compute in Hr. subst r. destruct Ho as (file & s & Hfile & _). split; [exists file; exact Hfile|].
  split; [|vm_compute; reflexivity]. apply (Hpath "/data/sst.npy"%string). split; [|cbn].
  - exists "/data"%string. split; [left|]. apply (bool_decide_unpack _). vm_compute. exact I.
  - exists 0%nat, "/data"%string. split; [reflexivity|]. split; [reflexivity|]. intros j r Hj. lia.
Defined.
