(* ===== verification/Listener.v ===== *)
(** The data plane's listener: the first part of [aex-server/src/dataplane.rs].  Opening the
    socket is the calls made on it, in order, and what they answer; the accept thread, the
    connection threads and the shutdown that waits for them are one transition system.  What
    a connection thread does until it ends is [DataPlane.serve_connection]. *)
From stdpp Require Import strings gmap.
From S2P Require Import Prelude Errors.

(** ** Taking the socket *)

(** [config.tcp]: 0 and the empty string leave the operating system's default. *)
Record Tcp : Type := { sndbuf : Z; congestion : string }.

Inductive SocketCall : Type :=
  | OpensStream
  | ReusesAddress
  | SetsSendBuffer (n : Z)
  | AsksSendBuffer
  | SetsCongestion (name : string)
  | BindsTo (addr : string)
  | Listens (backlog : Z)
  | AsksNonblocking (b : bool)
  | SetsNodelay
  | SetsReadTimeout (ms : Z).

Definition POLL_INTERVAL : Z := 20.

Module Listener.
(** Calls up to the first that fails.  What sets the congestion control fails as a bad
    configuration, everything else as what the system answered. *)
Fixpoint attempt (answer : SocketCall -> result ErrorKind unit) (calls : list SocketCall) : result ServerError unit :=
  match calls with
  | [] => Ok tt
  | call :: calls' =>
      _ ← map_err (fun k => match call with SetsCongestion _ => SConfig | _ => SIo k end) (answer call);
      attempt answer calls'
  end.

(** [listen]: the listening socket with the configured options. *)
Definition listen (tcp : Tcp) (addr : string) : list SocketCall :=
  [OpensStream; ReusesAddress]
  ++ (if negb (sndbuf tcp =? 0) then [SetsSendBuffer (sndbuf tcp); AsksSendBuffer] else [])
  ++ (if negb (String.eqb (congestion tcp) "") then [SetsCongestion (congestion tcp)] else [])
  ++ [BindsTo addr; Listens 1024].

(** [DataPlane::bind]: it polls, so it must not block in [accept]. *)
Definition bind (tcp : Tcp) (addr : string) (answer : SocketCall -> result ErrorKind unit) : result ServerError unit :=
  attempt answer (listen tcp addr ++ [AsksNonblocking true]).

(** [configure]: an accepted connection blocks again, for a poll at most. *)
Definition configure (answer : SocketCall -> result ErrorKind unit) : result ServerError unit :=
  attempt answer [AsksNonblocking false; SetsNodelay; SetsReadTimeout POLL_INTERVAL].

Lemma attempt_ok answer calls : attempt answer calls = Ok tt <-> forall call, call ∈ calls -> answer call = Ok tt.
Proof.
  induction calls as [|call calls IH]; cbn [attempt].
  - split; [by intros _ c ?%not_elem_of_nil|done].
  - split.
    + intros ([] & Ha & Hr)%bind_ok c [->|Hc]%elem_of_cons; [by destruct (answer call) as [[]| |]|by apply IH].
    + intros Hall. rewrite (Hall call) by left. cbn. apply IH. intros c Hc. apply Hall. by right.
Qed.
End Listener.

(** ** Accepting and stopping *)

(** Where the accept thread is: before the test of [stop], before [accept], with a thread
    started and not yet filed, or out of its loop. *)
Inductive Acceptor : Type := Tests | Accepts | Files (thread : nat) | Left.

(** Where [shutdown] is: not called; [stop] set and the accept thread to be joined; that
    done and the threads to be taken; the threads taken and still to be joined. *)
Inductive Closer : Type := Serving | JoinsAccept | TakesThreads | Joins (threads : list nat).

(** Where a connection thread is: at the head of [read_full]'s loop, about to look at [stop];
    in a read, which returns within [POLL_INTERVAL]; handling what it has read, with so many
    writes still to make at the most before it reads again; or in one of those writes, which
    returns when the peer takes the bytes or the connection breaks, and no sooner. *)
Inductive Phase : Type := Looks | Reads | Works (more : nat) | Writes (more : nat).

#[export] Instance Phase_eq_dec : EqDecision Phase.
Proof. solve_decision. Defined.

Record Plane : Type := {
  stop : bool;
  acceptor : Acceptor;
  started : nat;               (* threads started so far, which are numbered from 0 *)
  running : gmap nat Phase;
  connections : list nat;      (* the handles kept *)
  closer : Closer;
}.

(** What a read comes to: not yet all that was asked for, with the loop to go round again
    (some bytes, a timeout short of the idle time, an interruption); the last of it, which is
    to be answered with so many frames at the most; the peer gone, silent too long, or another
    failure. *)
Inductive Heard : Type := Partly | Whole (replies : nat) | Lost.

(** What a thread does next on its own: reads again, writes, or returns. *)
Inductive Next : Type := ReadsOn | WritesOut | Returns.

Inductive Move : Type :=
  | Loops (spawned : bool)               (* the accept thread's next step *)
  | Tested (thread : nat)                (* [read_full] looks at [stop] *)
  | Hears (thread : nat) (heard : Heard)
  | Goes (thread : nat) (next : Next)
  | Wrote (thread : nat) (ok : bool)     (* a write returns *)
  | Closes.                              (* the next step of [shutdown] *)

Module Plane.
Section Moves.
(** The frames one message can be answered with: a fetch's pieces and an error. *)
Context (most : nat).

Definition serve : Plane :=
  {| stop := false; acceptor := Tests; started := 0; running := ∅; connections := []; closer := Serving |}.

(** The accept loop.  [accept] answers a connection whose thread starts, or it does not
    ([WouldBlock], [Interrupted], another failure, or no thread to be had), and the loop goes
    on.  A thread configures its socket and goes to read the handshake. *)
Definition loops (p : Plane) (spawned : bool) : option Plane :=
  match acceptor p with
  | Tests =>
      Some {| stop := stop p; acceptor := if stop p then Left else Accepts; started := started p; running := running p;
              connections := connections p; closer := closer p |}
  | Accepts =>
      if spawned then
        Some {| stop := stop p; acceptor := Files (started p); started := S (started p); running := <[started p := Looks]> (running p);
                connections := connections p; closer := closer p |}
      else
        Some {| stop := stop p; acceptor := Tests; started := started p; running := running p;
                connections := connections p; closer := closer p |}
  | Files thread =>
      Some {| stop := stop p; acceptor := Tests; started := started p; running := running p;
              connections := filter (fun t => is_Some (running p !! t)) (connections p) ++ [thread]; closer := closer p |}
  | Left => None
  end.

(** [DataPlaneHandle::shutdown]; joining waits for the thread to have ended. *)
Definition closes (p : Plane) : option Plane :=
  match closer p with
  | Serving =>
      Some {| stop := true; acceptor := acceptor p; started := started p; running := running p;
              connections := connections p; closer := JoinsAccept |}
  | JoinsAccept =>
      match acceptor p with
      | Left =>
          Some {| stop := stop p; acceptor := Left; started := started p; running := running p;
                  connections := connections p; closer := TakesThreads |}
      | _ => None
      end
  | TakesThreads =>
      Some {| stop := stop p; acceptor := acceptor p; started := started p; running := running p;
              connections := []; closer := Joins (connections p) |}
  | Joins (thread :: threads) =>
      if decide (is_Some (running p !! thread)) then None
      else Some {| stop := stop p; acceptor := acceptor p; started := started p; running := running p;
                   connections := connections p; closer := Joins threads |}
  | Joins [] => None
  end.

(** A connection thread's next phase, [None] when it returns: [read_full] returns an error
    once it sees [stop], and any error of a read or a write ends the connection. *)
Definition looks (stop : bool) : option Phase := if stop then None else Some Reads.

Definition hears (heard : Heard) : option Phase :=
  match heard with
  | Partly => Some Looks
  | Whole replies => Some (Works (Nat.min replies most))
  | Lost => None
  end.

Definition goes (more : nat) (next : Next) : option (option Phase) :=
  match next, more with
  | ReadsOn, _ => Some (Some Looks)
  | WritesOut, S more => Some (Some (Writes more))
  | WritesOut, O => None
  | Returns, _ => Some None
  end.

Definition wrote (more : nat) (ok : bool) : option Phase := if ok then Some (Works more) else None.

(** The thread as [phase], or ended. *)
Definition with_thread (p : Plane) (thread : nat) (phase : option Phase) : Plane :=
  {| stop := stop p; acceptor := acceptor p; started := started p; running := partial_alter (fun _ => phase) thread (running p);
     connections := connections p; closer := closer p |}.

(** One step, if it can be made. *)
Definition move (p : Plane) (m : Move) : option Plane :=
  match m with
  | Loops spawned => loops p spawned
  | Closes => closes p
  | Tested t => match running p !! t with Some Looks => Some (with_thread p t (looks (stop p))) | _ => None end
  | Hears t heard => match running p !! t with Some Reads => Some (with_thread p t (hears heard)) | _ => None end
  | Goes t next => match running p !! t with Some (Works more) => with_thread p t <$> goes more next | _ => None end
  | Wrote t ok => match running p !! t with Some (Writes more) => Some (with_thread p t (wrote more ok)) | _ => None end
  end.

Fixpoint moves (p : Plane) (ms : list Move) : option Plane :=
  match ms with
  | [] => Some p
  | m :: ms' => p' ← move p m; moves p' ms'
  end.
End Moves.
End Plane.

(** ** What shutdown waits for *)

Section Shutdown.
Context (most : nat).

(** The threads whose handles are somewhere. *)
Definition held (p : Plane) : list nat :=
  match acceptor p with Files t => [t] | _ => [] end ++ connections p ++ match closer p with Joins ts => ts | _ => [] end.

Record plane_ok (p : Plane) : Prop := {
  pl_held : forall t, is_Some (running p !! t) -> t ∈ held p;
  pl_stop : stop p = match closer p with Serving => false | _ => true end;
  pl_left : acceptor p = Left -> stop p = true;
  pl_gone : match closer p with TakesThreads => acceptor p = Left | Joins _ => acceptor p = Left /\ connections p = [] | _ => True end;
  pl_most : forall t more, running p !! t = Some (Works more) \/ running p !! t = Some (Writes more) -> (more <= most)%nat;
}.

Lemma serve_ok : plane_ok Plane.serve.
Proof. split; try done; cbn; [intros t [? ?]|intros t n [?|?]]; by rewrite lookup_empty in *. Qed.

(** What one thread does next is written into the state, and nothing else. *)
Lemma thread_move p m p' :
  Plane.move most p m = Some p' ->
  match m with
  | Loops spawned => Plane.loops p spawned = Some p'
  | Closes => Plane.closes p = Some p'
  | Tested t => running p !! t = Some Looks /\ p' = Plane.with_thread p t (Plane.looks (stop p))
  | Hears t heard => running p !! t = Some Reads /\ p' = Plane.with_thread p t (Plane.hears most heard)
  | Goes t next => exists more next', running p !! t = Some (Works more) /\ Plane.goes more next = Some next' /\ p' = Plane.with_thread p t next'
  | Wrote t ok => exists more, running p !! t = Some (Writes more) /\ p' = Plane.with_thread p t (Plane.wrote more ok)
  end.
Proof.
  destruct m as [b|t|t h|t n|t ok|]; cbn; [done| | | | |done]; destruct (running p !! t) as [[]|]; try done.
  - by intros [= <-].
  - by intros [= <-].
  - intros (next' & ? & ->)%fmap_Some. by eexists _, _.
  - intros [= <-]. by eexists.
Qed.

(** A thread's weight: the steps it has left once [stop] is set, at the most. *)
Definition weight (ph : Phase) : nat :=
  match ph with Looks => 1 | Reads => 2 * most + 3 | Works more => 2 * more + 2 | Writes more => 2 * more + 3 end.
Definition owed (ps : gmap nat Phase) : nat := map_fold (fun _ ph n => weight ph + n)%nat 0%nat ps.

Lemma owed_insert t ph ps : ps !! t = None -> owed (<[t := ph]> ps) = (weight ph + owed ps)%nat.
Proof. intros Ht. unfold owed. rewrite map_fold_insert_L; [done|intros; lia|done]. Qed.

Lemma owed_delete t ph ps : ps !! t = Some ph -> owed ps = (weight ph + owed (delete t ps))%nat.
Proof. intros Ht. rewrite <- (insert_delete_id ps t ph Ht) at 1. rewrite owed_insert; [done|by rewrite lookup_delete_eq]. Qed.

Lemma owed_alter t ph next ps :
  ps !! t = Some ph -> match next with Some ph' => weight ph' < weight ph | None => True end%nat ->
  (owed (partial_alter (fun _ => next) t ps) < owed ps)%nat.
Proof.
  intros Ht Hw. rewrite (owed_delete t ph ps Ht). assert (0 < weight ph)%nat by (destruct ph; cbn; lia). destruct next as [ph'|].
  - change (partial_alter _ t ps) with (<[t := ph']> ps). rewrite <- insert_delete_eq, owed_insert by (by rewrite lookup_delete_eq). lia.
  - change (partial_alter _ t ps) with (delete t ps). lia.
Qed.

Lemma looks_lighter stop ph : stop = true -> Plane.looks stop = Some ph -> False.
Proof. by intros ->. Qed.

Lemma loops_ok p spawned p' : plane_ok p -> Plane.loops p spawned = Some p' -> plane_ok p'.
Proof.
  intros [Hh Hs Hl Hg Hm]. destruct p as [st ac sd rn cn cl]. unfold held in Hh. cbn in *. unfold Plane.loops. cbn.
  destruct ac as [| |t|]; [|destruct spawned| |done]; intros [= <-]; split; cbn; try done.
  - destruct st; [|done]. unfold held. cbn. done.
  - by destruct st.
  - destruct cl; try done; by destruct Hg.
  - unfold held. cbn. intros t Ht. destruct (decide (t = sd)) as [->|Hne]; [left|right]. rewrite lookup_insert_ne in Ht by done. by apply Hh.
  - destruct cl; try done; by destruct Hg.
  - intros t n. destruct (decide (t = sd)) as [->|Hne]; [rewrite lookup_insert_eq; by intros [?|?]|rewrite lookup_insert_ne by done; apply Hm].
  - destruct cl; try done; by destruct Hg.
  - unfold held. cbn. intros i Hi. specialize (Hh i Hi). rewrite !elem_of_app, list_elem_of_filter. set_solver.
  - destruct cl; try done; by destruct Hg.
Qed.

Lemma closes_ok p p' : plane_ok p -> Plane.closes p = Some p' -> plane_ok p'.
Proof.
  intros [Hh Hs Hl Hg Hm]. destruct p as [st ac sd rn cn cl]. unfold held in Hh. cbn in *. unfold Plane.closes. cbn.
  destruct cl as [| | |[|t ts]]; [|destruct ac; try done| |done|case_decide as Ht; [done|]]; intros [= <-]; split; cbn; try done;
    unfold held in *; cbn in *.
  - destruct Hg as [-> ->]. intros i Hi. specialize (Hh i Hi). cbn in *. set_solver.
  - intros i Hi. specialize (Hh i Hi). destruct (decide (i = t)) as [->|]; [done|]. set_solver.
Qed.

Lemma thread_ok p t next :
  plane_ok p -> is_Some (running p !! t) ->
  (forall more, next = Some (Works more) \/ next = Some (Writes more) -> (more <= most)%nat) -> plane_ok (Plane.with_thread p t next).
Proof.
  intros [Hh Hs Hl Hg Hm] Ht Hn. split; cbn; try done.
  - intros i Hi. apply Hh. destruct (decide (i = t)) as [->|]; [done|]. by rewrite lookup_partial_alter_ne in Hi by done.
  - intros i n. destruct (decide (i = t)) as [->|]; [rewrite lookup_partial_alter_eq; apply Hn|rewrite lookup_partial_alter_ne by done; apply Hm].
Qed.

Lemma move_ok p m p' : plane_ok p -> Plane.move most p m = Some p' -> plane_ok p'.
Proof.
  intros Hp Hmove%thread_move. pose proof (pl_most p Hp) as Hm. destruct m as [b|t|t h|t n|t ok|].
  - by eapply loops_ok.
  - destruct Hmove as [Ht ->]. apply thread_ok; [done|by eexists|]. unfold Plane.looks. destruct (stop p); by intros ? [?|?].
  - destruct Hmove as [Ht ->]. apply thread_ok; [done|by eexists|]. destruct h; cbn; intros more [[=]|[=]]; lia.
  - destruct Hmove as (more & next' & Ht & Hn & ->). apply thread_ok; [done|by eexists|]. specialize (Hm t more ltac:(by left)).
    destruct n, more; cbn in Hn; simplify_eq; intros ? [[=]|[=]]; lia.
  - destruct Hmove as (more & Ht & ->). apply thread_ok; [done|by eexists|]. specialize (Hm t more ltac:(by right)).
    destruct ok; cbn; intros ? [[=]|[=]]; lia.
  - by eapply closes_ok.
Qed.

Lemma moves_ok ms p p' : plane_ok p -> Plane.moves most p ms = Some p' -> plane_ok p'.
Proof.
  revert p. induction ms as [|m ms IH]; intros p Hp; cbn [Plane.moves]; [by intros [= <-]|].
  destruct (Plane.move most p m) as [q|] eqn:Hm; [|done]. cbn. intros Hms. eapply IH; [by eapply move_ok|done].
Qed.

(** Steps left once [stop] is set, at the most. *)
Definition left_to_do (p : Plane) : nat :=
  ((match acceptor p with Left => 0 | Tests => 1 | Files _ => 3 | Accepts => 5 end)
  + owed (running p) + length (connections p)
  + match closer p with Serving => 0 | JoinsAccept => 2 | TakesThreads => 1 | Joins ts => length ts end)%nat.

Lemma length_filter_le (P : nat -> Prop) `{forall x, Decision (P x)} l : (length (filter P l) <= length l)%nat.
Proof. induction l; [done|]. rewrite filter_cons. case_decide; cbn; lia. Qed.

Lemma owed_started t ps : (owed (<[t := Looks]> ps) <= S (owed ps))%nat.
Proof.
  rewrite <- insert_delete_eq, owed_insert by (by rewrite lookup_delete_eq). destruct (ps !! t) as [ph|] eqn:Ht.
  - rewrite (owed_delete t ph ps Ht). cbn. lia.
  - rewrite delete_id by done. cbn. lia.
Qed.

Lemma thread_progress p t ph next :
  running p !! t = Some ph -> match next with Some ph' => weight ph' < weight ph | None => True end%nat ->
  (left_to_do (Plane.with_thread p t next) < left_to_do p)%nat.
Proof. intros Ht Hw. pose proof (owed_alter t ph next (running p) Ht Hw). unfold left_to_do. cbn. lia. Qed.

Lemma move_progress p m p' :
  plane_ok p -> stop p = true -> Plane.move most p m = Some p' -> stop p' = true /\ (left_to_do p' < left_to_do p)%nat.
Proof.
  intros [Hh Hs Hl Hg Hmost] Hst Hmove%thread_move. destruct m as [b|t|t h|t n|t ok|].
  - destruct p as [st ac sd rn cn cl]. cbn in *. unfold Plane.loops in Hmove. cbn in Hmove. rewrite Hst in Hmove.
    destruct ac as [| |t|]; [|destruct b| |done]; injection Hmove as <-; split; try done; unfold left_to_do; cbn [acceptor running connections closer]; try lia.
    + pose proof (owed_started sd rn). lia.
    + rewrite length_app. cbn [length]. assert (length (filter (fun t => is_Some (rn !! t)) cn) <= length cn)%nat by apply length_filter_le. lia.
  - destruct Hmove as [Ht ->]. split; [done|]. rewrite Hst. by eapply thread_progress.
  - destruct Hmove as [Ht ->]. split; [done|]. eapply thread_progress; [done|]. destruct h; cbn; lia.
  - destruct Hmove as (more & next' & Ht & Hn & ->). split; [done|]. eapply thread_progress; [done|]. destruct n, more; cbn in Hn; simplify_eq; cbn; lia.
  - destruct Hmove as (more & Ht & ->). split; [done|]. eapply thread_progress; [done|]. destruct ok; cbn; lia.
  - destruct p as [st ac sd rn cn cl]. cbn in *. unfold Plane.closes in Hmove. cbn in Hmove.
    destruct cl as [| | |[|t ts]]; [by rewrite Hs in Hst|destruct ac; try done| |done|case_decide; [done|]]; injection Hmove as <-; split; try done;
      unfold left_to_do; cbn [acceptor running connections closer length]; lia.
Qed.

(** A step that waits for no peer: none but a write's return does. *)
Definition prompt (m : Move) : Prop := match m with Wrote _ _ => False | _ => True end.

(** Held up: the thread to be joined next is in a write. *)
Definition held_up (p : Plane) : Prop :=
  exists t ts more, closer p = Joins (t :: ts) /\ running p !! t = Some (Writes more).

(** What can be done next, whatever the state short of the end. *)
Lemma move_next p : plane_ok p -> closer p = Joins [] \/ held_up p \/ exists m p', prompt m /\ Plane.move most p m = Some p'.
Proof.
  intros [Hh Hs Hl Hg _]. destruct (closer p) as [| | |[|t ts]] eqn:Hcl.
  - right. right. exists Closes. cbn. unfold Plane.closes. rewrite Hcl. by eexists.
  - right. right. destruct (acceptor p) as [| |t|] eqn:Hac; [exists (Loops false)..|exists Closes]; cbn; unfold Plane.loops, Plane.closes;
      rewrite ?Hac, ?Hcl; by eexists.
  - right. right. exists Closes. cbn. unfold Plane.closes. rewrite Hcl. by eexists.
  - by left.
  - right. destruct (running p !! t) as [[| |more|more]|] eqn:Ht.
    + right. exists (Tested t). cbn. rewrite Ht. by eexists.
    + right. exists (Hears t Lost). cbn. rewrite Ht. by eexists.
    + right. exists (Goes t Returns). cbn. rewrite Ht. by eexists.
    + left. by exists t, ts, more.
    + right. exists Closes. cbn. unfold Plane.closes. rewrite Hcl, decide_False by (rewrite Ht; by intros [? ?]). by eexists.
Qed.

(** ** Property *)

(** C28: shutting down leaves no thread behind, and only a peer that will not read can
    keep it from ending.  However the accept thread, the connection threads and the shutdown
    take their steps, when the shutdown has returned the accept thread is out of its loop and
    every connection thread ever started has ended.  From the moment [stop] is set only so
    many steps can be made: a thread looks at [stop] before each read, and a message already
    read is answered with so many frames at the most.  Until the shutdown has returned a step
    that waits for no peer can always be made, unless the thread it is joining is in a write,
    which nothing but the peer or the connection's end makes return; and then that write's
    return is a step. *)
Theorem shutdown_completes ms p :
  Plane.moves most Plane.serve ms = Some p ->
  (closer p = Joins [] -> acceptor p = Left /\ running p = ∅) /\
  (closer p <> Serving ->
     (forall ms' p', Plane.moves most p ms' = Some p' -> (length ms' <= left_to_do p)%nat) /\
     (closer p = Joins [] \/ held_up p \/ exists m p', prompt m /\ Plane.move most p m = Some p') /\
     (held_up p -> exists t, forall ok, exists p', Plane.move most p (Wrote t ok) = Some p')).
Proof.
  intros Hms. pose proof (moves_ok ms Plane.serve p serve_ok Hms) as Hp. split.
  - intros Hcl. destruct Hp as [Hh _ _ Hg _]. rewrite Hcl in Hg. destruct Hg as [Hac Hcn]. split; [done|].
    apply map_empty. intros t. destruct (running p !! t) as [ph|] eqn:Ht; [|done]. specialize (Hh t ltac:(by eexists)).
    unfold held in Hh. rewrite Hac, Hcn, Hcl in Hh. by apply not_elem_of_nil in Hh.
  - intros Hcl. split; [|split; [by apply move_next|]].
    2: { intros (t & ts & more & _ & Ht). exists t. intros ok. cbn. rewrite Ht. by eexists. }
    assert (stop p = true) as Hst by (rewrite (pl_stop p Hp); by destruct (closer p)). clear Hms Hcl ms. intros ms.
    revert p Hp Hst. induction ms as [|m ms IH]; intros p Hp Hst p'; cbn [Plane.moves length]; [lia|].
    destruct (Plane.move most p m) as [q|] eqn:Hm; [|done]. cbn [mbind option_bind].
    destruct (move_progress p m q Hp Hst Hm) as [Hq Hlt]. intros Hr. specialize (IH q (move_ok p m q Hp Hm) Hq p' Hr). lia.
Qed.
End Shutdown.

(** Two connections: the first is told of [stop] between reads, the second while it still has
    two frames to write. *)
Definition demo_moves : list Move :=
  [Loops true; Loops true; Loops true; Loops true; Loops true; Tested 0; Tested 1; Hears 1 (Whole 2); Goes 1 WritesOut; Closes; Loops true;
   Hears 0 Partly; Tested 0; Loops true; Closes; Closes; Closes; Wrote 1 true; Goes 1 WritesOut; Wrote 1 true; Goes 1 ReadsOn; Tested 1; Closes].

Lemma shutdown_completes_witness :
  exists p, Plane.moves 4 Plane.serve demo_moves = Some p /\ started p = 2%nat /\ acceptor p = Left /\ running p = ∅.
Proof.
  destruct (Plane.moves 4 Plane.serve demo_moves) as [p|] eqn:Hp; [|vm_compute in Hp; discriminate Hp].
  exists p. split; [reflexivity|].
  assert (Some (started p) = Some 2%nat /\ Some (closer p) = Some (Joins [])) as [[= Hs] [= Hc]].
  { change (Some (started p)) with (started <$> Some p). change (Some (closer p)) with (closer <$> Some p). rewrite <- Hp. vm_compute. by split. }
  split; [exact Hs|]. exact (proj1 (shutdown_completes 4 demo_moves p Hp) Hc).
Defined.

(** A peer that stops reading keeps the server from stopping.  [shutdown] is in the middle
    of joining a thread whose write, which has no timeout, waits for the peer: no other step
    is left, although its comment has each thread between polls at worst. *)
Theorem writer_holds_shutdown_up :
  exists p, Plane.moves 4 Plane.serve [Loops true; Loops true; Loops true; Tested 0; Hears 0 (Whole 1); Goes 0 WritesOut; Closes; Loops true; Closes; Closes] = Some p /\
    held_up p /\ forall m p', Plane.move 4 p m = Some p' -> exists ok, m = Wrote 0 ok.
Proof.
  eexists. split; [vm_compute; reflexivity|]. split; [by exists 0%nat, [], 0%nat|].
  intros m p' Hm%thread_move.
  match type of Hm with context [running ?p] => change (running p) with ({[0%nat := Writes 0]} : gmap nat Phase) in Hm end.
  destruct m as [b|t|t h|t n|t ok|]; try done; revert Hm; setoid_rewrite lookup_singleton_Some; [naive_solver..| |].
  - naive_solver.
  - intros (more & [<- _] & _). by eexists.
Qed.
