(* ===== verification/Server.v ===== *)
(** The server as a whole: [aex-server/src/lib.rs], and the command line of
    [aex-server/src/main.rs].  Starting up, what the command line changes, the sweep that
    collects what went idle, and everything the control plane, the data plane and the sweep
    do to the state they share, each call one step ([Regions] takes them apart).  Listening sockets, the
    runtime and the shutdown signal are left out. *)
From stdpp Require Import strings gmap.
From S2P Require Import Prelude Errors Dtype Bytes Quality Handshake Selection Cast Text Backend Null Convert Config Paths Session Transfer Reduce DataPlane Control ControlSpec Listener.

Definition SWEEPS_PER_TIMEOUT : Z := 4.

(** The settings of a server: the configuration with its addresses, the host it advertises
    and the socket's options. *)
Record Settings : Type :=
  { control_addr : string; data_addr : string; advertise_host : string; server_config : ServerConfig; tcp : Tcp }.

Module Settings.
Definition default_settings : Settings :=
  {| control_addr := "0.0.0.0:50051"; data_addr := "0.0.0.0:50052"; advertise_host := "";
     server_config := ServerConfig.default_config; tcp := {| sndbuf := 0; congestion := "" |} |}.

(** [ServerConfig::load]: [read] reads the file, [parse] what it says, defaults filled in. *)
Definition load {E} (read : string -> result ErrorKind string) (parse : string -> result E Settings) (path : string) :
    result ServerError Settings :=
  text ← map_err (fun _ => SConfig) (read path);
  map_err (fun _ => SConfig) (parse text).
End Settings.

(** ** The command line *)

Record Cli : Type := {
  cli_config : option string;
  cli_control_addr : option string;
  cli_data_addr : option string;
  cli_roots : list string;
  cli_enable_null : bool;
}.

Module Cli.
(** The configuration file, with the command line applied on top; [load] reads the file. *)
Definition config (cli : Cli) (load : string -> result ServerError Settings) : result ServerError Settings :=
  s ← match cli_config cli with Some path => load path | None => Ok Settings.default_settings end;
  let c := server_config s in
  Ok {| control_addr := default (control_addr s) (cli_control_addr cli);
        data_addr := default (data_addr s) (cli_data_addr cli);
        advertise_host := advertise_host s;
        tcp := tcp s;
        server_config :=
          {| enable_null_backend := enable_null_backend c || cli_enable_null cli;
             limits := limits c; transfer := transfer c;
             roots := if decide (cli_roots cli = []) then roots c else cli_roots cli |} |}.
End Cli.

Module Server.
Section Ops.
Context `{Build, HalfLib, HalfNum, Fs}.
Context {F D : Type} `{!ArrayDataset D, !ArrayFile F D, !Backends F D}.
#[local] Abbreviation Service := (Service F D).
Implicit Type sv : Service.

(** Validate the configuration, resolve the data roots and take the sockets, the data plane's
    first so that [data_port] is the port it really got. *)
Definition bind (s : Settings) (data : SocketCall -> result ErrorKind unit) (data_port : result ErrorKind Z)
    (control : result ErrorKind unit) : result ServerError Service :=
  let config := server_config s in
  _ ← ServerConfig.validate config;
  paths ← PathPolicy.new (roots config);
  _ ← Listener.bind (tcp s) (data_addr s) data;
  port ← map_err SIo data_port;
  _ ← map_err SIo control;
  Ok (ControlService.new (SessionRegistry.new config) (TransferRegistry.new config) paths config (advertise_host s) port).

(** Seconds between sweeps. *)
Definition sweep_period (config : ServerConfig) : Z :=
  Z.max (session_idle_timeout_sec (limits config) / SWEEPS_PER_TIMEOUT) 1.

(** One turn of the sweep: sessions first, so that one dropped in this turn takes its plans
    with it.  How many of each are gone, and what is left. *)
Definition sweep sv (now now' : Z) : Z * Z * Service :=
  let '(dropped, r) := SessionRegistry.sweep_expired_at (sv_sessions sv) now in
  let '(stale, t) := TransferRegistry.sweep_at (sv_transfers sv) now' (SessionRegistry.contains r) in
  (dropped, stale, ControlService.with_transfers (ControlService.with_sessions sv r) t).

(** ** What happens to the state *)

(** A call of the control plane, [Connect] apart; a HELLO on a new data connection, a frame
    on one, a plan fetched or still being sent, a connection's end; a turn of the sweep. *)
Inductive Activity : Type :=
  | Answers (c : Rpc)
  | Connects (rq : ConnectRequest) (now : Z) (random_id random_token : result ServerError bytes)
  | Greets (hello : bytes) (now : Z)
  | Touches (session : bytes) (now : Z)
  | Fetches (request_id : Z) (ticket session : bytes) (now : Z)
  | Sends (entry : TransferEntry D) (now : Z)
  | HangsUp (session : bytes)
  | Sweeps (now now' : Z).

(** A connection of [session] fewer. *)
Fixpoint without (session : bytes) (conns : list bytes) : list bytes :=
  match conns with
  | [] => []
  | k :: conns' => if decide (k = session) then conns' else k :: without session conns'
  end.

(** The service, and the sessions of the data connections that are open. *)
Definition perform (st : Service * list bytes) (a : Activity) : Service * list bytes :=
  let '(sv, conns) := st in
  match a with
  | Answers c => ((serve sv c).1, conns)
  | Connects rq now random_id random_token => ((ControlService.connect sv rq now random_id random_token).1, conns)
  | Greets hello now =>
      let '(res, r) := check_hello hello (sv_sessions sv) now in
      (ControlService.with_sessions sv r, match res with Ok session => id session :: conns | _ => conns end)
  | Touches session now => (ControlService.with_sessions sv (SessionRegistry.touch (sv_sessions sv) session now), conns)
  | Fetches request_id ticket session now =>
      (ControlService.with_transfers sv (TransferRegistry.fetch (sv_transfers sv) request_id ticket session now).2, conns)
  | Sends entry now => (ControlService.with_transfers sv (TransferRegistry.touch (sv_transfers sv) entry now), conns)
  | HangsUp session =>
      (ControlService.with_sessions sv (SessionRegistry.with_sessions (sv_sessions sv)
         (alter Session.close_data_conn session (sessions (sv_sessions sv)))), without session conns)
  | Sweeps now now' => ((sweep sv now now').2, conns)
  end.

(** What the activities rely on: random bytes are as many as asked for and those of no
    session there is or was until its last connection closed; a connection that ends was
    open. *)
Definition fits (st : Service * list bytes) (a : Activity) : Prop :=
  match a with
  | Connects rq _ random_id random_token =>
      is_u32 (cq_streams rq) /\
      (forall k, random_id = Ok k -> length k = 16%nat /\ sessions (sv_sessions st.1) !! k = None /\ k ∉ st.2) /\
      (forall t, random_token = Ok t -> length t = 16%nat)
  | HangsUp session => session ∈ st.2
  | _ => True
  end.

(** How many plans it may prepare. *)
Definition activity_cost (a : Activity) : Z := match a with Answers c => cost c | _ => 0 end.

(** The states of a server started with [s], in which it may still prepare [n] plans
    before identifiers come round again. *)
Inductive serves (s : Settings) : Z -> Service * list bytes -> Prop :=
  | serves_start data data_port control sv : bind s data data_port control = Ok sv -> serves s (two32 - 2) (sv, [])
  | serves_on n st a : serves s (n + activity_cost a) st -> 0 <= n -> fits st a -> serves s n (perform st a).
End Ops.
End Server.
