(* ===== verification/ServerSpec.v ===== *)
(** What holds of a running server, call by call: whatever the control plane, the data plane
    and the sweep do, its tables agree with one another and stay within the limits it was started with. *)
From stdpp Require Import strings gmap.
From S2P Require Import Prelude Errors Dtype Bytes Quality Handshake Selection Cast Text Backend Null Convert Config Paths Session Transfer Reduce ReduceNumpy LayoutSpec Reader DataPlane Control ControlSpec ControlServes Listener Server.

Import Server.

(** The data connections of a session that are open. *)
Definition open_of (k : bytes) (conns : list bytes) : Z := zlen (filter (fun j => j = k) conns).

Lemma open_of_cons k j conns : open_of k (j :: conns) = open_of k conns + if decide (j = k) then 1 else 0.
Proof. unfold open_of. rewrite filter_cons. case_decide; cbn; lia. Qed.

Lemma open_of_without k j conns :
  j ∈ conns -> open_of k (without j conns) = open_of k conns - if decide (j = k) then 1 else 0.
Proof.
  induction conns as [|i conns IH]; [by intros ?%not_elem_of_nil|]. cbn [without]. intros Hin. rewrite open_of_cons.
  destruct (decide (i = j)) as [->|Hne]; [lia|]. rewrite open_of_cons, IH; [lia|]. apply elem_of_cons in Hin as [->|]; done.
Qed.

Lemma open_of_nonneg k conns : 0 <= open_of k conns.
Proof. unfold open_of. lia. Qed.

Section Healthy.
Context `{Build, HalfLib, HalfNum, Fs}.
Context {F D : Type} `{!ArrayDataset D, !ArrayFile F D, !Backends F D}.
#[local] Abbreviation Service := (Service F D).
Context (s : Settings) (Htyped : config_typed (server_config s)).
Local Notation config := (server_config s).
Implicit Types (sv : Service) (conns : list bytes) (r : SessionRegistry F).

(** A session as the server files it. *)
Definition filed conns (k : bytes) (x : Session F) : Prop :=
  id x = k /\ length k = 16%nat /\ length (token x) = 16%nat /\ data_conns x = open_of k conns /\
  data_conns x <= granted_streams x <= max_streams_per_session (limits config).

Definition sessions_filed r conns : Prop := forall k x, sessions r !! k = Some x -> filed conns k x.

Record healthy (n : Z) (st : Service * list bytes) : Prop := {
  hl_ok : service_ok n st.1;
  hl_filed : sessions_filed (sv_sessions st.1) st.2;
  hl_size : Z.of_nat (size (sessions (sv_sessions st.1))) <= max_sessions (limits config);
  hl_config : sv_config st.1 = config /\ s_config (sv_sessions st.1) = config /\ t_config (sv_transfers st.1) = config;
  hl_paths : PathPolicy.new (roots config) = Ok (sv_paths st.1);
}.

(** *** Registries with no more sessions *)

Lemma size_within r r' : (forall k, is_Some (sessions r' !! k) -> is_Some (sessions r !! k)) -> (size (sessions r') <= size (sessions r))%nat.
Proof.
  intros Hsub. rewrite <- !size_dom. apply subseteq_size. intros k. rewrite !elem_of_dom. apply Hsub.
Qed.

(** A step that leaves the plans, the configuration and the roots, and every session where
    it was filed. *)
Lemma healthy_sessions n sv conns r conns' :
  healthy n (sv, conns) -> s_config r = s_config (sv_sessions sv) -> sessions_filed r conns' ->
  (forall k, is_Some (sessions r !! k) -> is_Some (sessions (sv_sessions sv) !! k)) ->
  healthy n (ControlService.with_sessions sv r, conns').
Proof.
  intros [[Hf Hp Hr] Hfl Hs (Hc1 & Hc2 & Hc3) Hpp] Hc Hfl' Hsub. cbn [fst snd] in *. split; cbn; try done.
  - split; [|done..]. intros k x Hk. by destruct (Hfl' k x Hk).
  - pose proof (size_within (sv_sessions sv) r Hsub). lia.
  - by rewrite Hc.
Qed.

Lemma room_fewer n (t t' : TransferRegistry D) :
  room n t -> next_id t' = next_id t -> (forall i, is_Some (entries t' !! i) -> is_Some (entries t !! i)) -> room n t'.
Proof. intros (Hr1 & Hr2 & Hr3) Hn Hsub. unfold room. rewrite Hn. split; [done|]. split; [done|]. intros i Hi. by apply Hr3, Hsub. Qed.

(** A step of the plan table that makes no plan. *)
Lemma healthy_plans n sv conns t :
  healthy n (sv, conns) -> plans_ok t -> next_id t = next_id (sv_transfers sv) -> t_config t = t_config (sv_transfers sv) ->
  (forall i, is_Some (entries t !! i) -> is_Some (entries (sv_transfers sv) !! i)) ->
  healthy n (ControlService.with_transfers sv t, conns).
Proof.
  intros [[Hf Hp Hr] Hfl Hs (Hc1 & Hc2 & Hc3) Hpp] Hok Hn Hc Hsub. cbn [fst snd] in *. split; cbn; try done; [|by rewrite Hc].
  split; [done|done|]. by eapply room_fewer.
Qed.

Lemma fetch_keeps (t : TransferRegistry D) i ticket k now :
  let t' := (TransferRegistry.fetch t i ticket k now).2 in
  next_id t' = next_id t /\ t_config t' = t_config t /\ forall j, is_Some (entries t' !! j) -> is_Some (entries t !! j).
Proof.
  cbv zeta. unfold TransferRegistry.fetch. destruct (entries t !! i) as [e|] eqn:He; [|done].
  destruct (TransferEntry.is_expired _ _ _); cbn [snd].
  - unfold TransferRegistry.remove. rewrite He. cbn. split; [done|]. split; [done|]. intros j [x Hx]. apply lookup_delete_Some in Hx as [_ Hx]. by eexists.
  - destruct (_ || _); [done|]. cbn. split; [done|]. split; [done|]. intros j [x Hx]. apply lookup_insert_Some in Hx as [[<- _]|[_ Hx]]; by eexists.
Qed.

(** *** Each activity *)

Lemma calls_healthy n sv conns c : 0 <= n -> healthy (n + cost c) (sv, conns) -> healthy n ((serve sv c).1, conns).
Proof.
  intros Hn [Hok Hfl Hs (Hc1 & Hc2 & Hc3) Hpp]. cbn [fst snd] in *. destruct (serve_conducts n sv c Hn Hok) as [Hok' [_ _ [Hd1 Hd2] Hown [Hd3 Hd4]]].
  split; cbn [fst snd]; try done.
  - intros k x (x0 & Hx0 & [= Hi Ht Hg Hdc])%Hown. destruct (Hfl k x0 Hx0) as (? & ? & ? & ? & ?). unfold filed. rewrite Hi, Ht, Hg, Hdc. done.
  - pose proof (size_within (sv_sessions sv) (sv_sessions (serve sv c).1)) as Hsz. etrans; [|exact Hs]. apply Nat2Z.inj_le, Hsz.
    intros k [x (x0 & Hx0 & _)%Hown]. by eexists.
  - by rewrite Hd1, Hd3, Hd4.
  - by rewrite Hd2.
Qed.

Lemma connects_healthy n sv conns rq now rid rtok :
  healthy n (sv, conns) -> config_valid config -> fits (sv, conns) (Connects rq now rid rtok) ->
  healthy n ((ControlService.connect sv rq now rid rtok).1, conns).
Proof.
  intros Hh Hv (Hq & Hid & Htok). unfold ControlService.connect. destruct (negb _); [done|].
  assert (ControlService.with_sessions sv (sv_sessions sv) = sv) as Hsame by (by destruct sv).
  unfold SessionRegistry.create_at, SessionRegistry.create_test, SessionRegistry.new_session. destruct Hh as [[Hf Hp Hr] Hfl Hs (Hc1 & Hc2 & Hc3) Hpp]. cbn [fst snd] in *.
  rewrite Hc2. destruct (Z.leb_spec (max_sessions (limits config)) (Z.of_nat (size (sessions (sv_sessions sv))))).
  { cbn [mbind result_bind sbind fst]. by rewrite Hsame. }
  destruct rid as [k| |]; cbn [mbind result_bind]; [|cbn [sbind fst]; by rewrite Hsame..].
  destruct rtok as [t| |]; cbn [mbind result_bind]; [|cbn [sbind fst]; by rewrite Hsame..]. cbn [sbind fst].
  destruct (Hid k eq_refl) as (Hlk & Hfresh & Hno). specialize (Htok t eq_refl).
  assert (open_of k conns = 0) as Hzero.
  { unfold open_of. assert (filter (fun j => j = k) conns = []) as ->; [|done].
    apply elem_of_nil_inv. intros j. rewrite list_elem_of_filter. by intros [-> ?]. }
  split; cbn; try done.
  - split; [|done..]. intros j x. cbn. rewrite lookup_insert_Some. intros [[<- <-]|[_ Hj]]; [done|by apply Hf].
  - intros j x. cbn. rewrite lookup_insert_Some. intros [[<- <-]|[_ Hj]]; [|by apply Hfl].
    unfold filed. cbn. rewrite Hzero. do 4 (split; [done|]). unfold SessionRegistry.granted. rewrite Hc2. destruct Hv, Htyped.
    unfold is_u32, DEFAULT_STREAMS in *. destruct (Z.eqb_spec (cq_streams rq) 0); lia.
  - rewrite map_size_insert, Hfresh. lia.
Qed.

Lemma filed_touch conns k x now : filed conns k x -> filed conns k (Session.touch x now).
Proof. done. Qed.

Lemma greets_healthy n sv conns hello now :
  healthy n (sv, conns) -> healthy n (perform (sv, conns) (Greets hello now)).
Proof.
  intros Hh. pose proof (hl_filed _ _ Hh) as Hfl. cbn [fst snd] in Hfl. cbn [perform]. unfold check_hello.
  assert (forall r, r = sv_sessions sv -> healthy n (ControlService.with_sessions sv r, conns)) as Hsame.
  { intros r ->. by apply (healthy_sessions n sv conns). }
  destruct (Hello.decode hello) as [h| |]; [|by apply Hsame..]. destruct (negb (hello_version h =? _)); [by apply Hsame|].
  unfold SessionRegistry.get_at. destruct (negb (length _ =? 16)%nat); [by apply Hsame|].
  set (k := session_id h). destruct (sessions (sv_sessions sv) !! k) as [x|] eqn:Hk; [|by apply Hsame].
  pose proof (Hfl k x Hk) as Hx. destruct (Session.is_expired _ _ _).
  { apply (healthy_sessions n sv conns); try done; cbn.
    - intros j y. cbn. intros [_ Hj]%lookup_delete_Some. by apply Hfl.
    - intros j [y Hj]. apply lookup_delete_Some in Hj as [_ Hj]. by eexists. }
  assert (healthy n (ControlService.with_sessions sv (SessionRegistry.with_sessions (sv_sessions sv) (<[k := Session.touch x now]> (sessions (sv_sessions sv)))), conns)) as Ht.
  { apply (healthy_sessions n sv conns); try done; cbn.
    - intros j y. cbn. rewrite lookup_insert_Some. intros [[<- <-]|[_ Hj]]; [done|by apply Hfl].
    - intros j [y Hj]. apply lookup_insert_Some in Hj as [[<- _]|[_ Hj]]; by eexists. }
  destruct (negb (constant_time_eq _ _)); [done|]. destruct Hx as (Hid & Hlk & Htok & Hdc & Hle). pose proof (open_of_nonneg k conns).
  unfold Session.open_data_conn. cbn [granted_streams data_conns Session.touch].
  rewrite Session.open_alone_spec; [|lia|destruct Htyped; unfold is_u32 in *; lia].
  destruct (Z.leb_spec (granted_streams x) (data_conns x)) as [|Hlt]; [done|].
  apply (healthy_sessions n sv conns); try done; cbn.
  - intros j y. cbn. rewrite Hid. rewrite insert_insert_eq, lookup_insert_Some. unfold filed. rewrite open_of_cons.
    intros [[<- <-]|[Hne Hj]]; cbn; [|rewrite decide_False by done; rewrite Z.add_0_r; by apply Hfl].
    rewrite decide_True by done. split_and!; try done; lia.
  - rewrite Hid. intros j [y Hj]. apply lookup_insert_Some in Hj as [[<- _]|[_ Hj]]; [by eexists|].
    apply lookup_insert_Some in Hj as [[<- _]|[_ Hj]]; by eexists.
Qed.

Lemma touches_healthy n sv conns k now :
  healthy n (sv, conns) -> healthy n (perform (sv, conns) (Touches k now)).
Proof.
  intros Hh. pose proof (hl_filed _ _ Hh) as Hfl. cbn [fst snd] in Hfl. cbn [perform]. unfold SessionRegistry.touch.
  apply (healthy_sessions n sv conns); try done; cbn.
  - intros j y. cbn. rewrite lookup_alter_Some. intros [(<- & x & Hx & ->)|[_ Hj]]; [by apply filed_touch, Hfl|by apply Hfl].
  - intros j [y Hj]. apply lookup_alter_Some in Hj as [(<- & x & Hx & _)|[_ Hj]]; by eexists.
Qed.

Lemma hangs_up_healthy n sv conns k :
  healthy n (sv, conns) -> k ∈ conns -> healthy n (perform (sv, conns) (HangsUp k)).
Proof.
  intros Hh Hin. pose proof (hl_filed _ _ Hh) as Hfl. cbn [fst snd] in Hfl. cbn [perform]. apply (healthy_sessions n sv conns); try done; cbn.
  - intros j y. cbn. rewrite lookup_alter_Some. unfold filed. rewrite open_of_without by done. intros [(<- & x & Hx & ->)|[Hne Hj]].
    + destruct (Hfl k x Hx) as (? & ? & ? & Hdc & Hle). cbn. rewrite decide_True by done.
      pose proof (open_of_nonneg k (without k conns)) as Hpos. rewrite open_of_without, decide_True in Hpos by done.
      unfold u32. rewrite Z.mod_small; [split_and!; try done; lia|]. destruct Htyped. unfold is_u32 in *. lia.
    + rewrite decide_False by done. rewrite Z.sub_0_r. by apply Hfl.
  - intros j [y Hj]. apply lookup_alter_Some in Hj as [(<- & x & Hx & _)|[_ Hj]]; by eexists.
Qed.

(** What a turn of the sweep leaves: the sessions that were used within the idle timeout,
    and of their plans those used within theirs. *)
Lemma sweep_leaves n sv conns now now' :
  healthy n (sv, conns) ->
  let sv' := (sweep sv now now').2 in
  healthy n (sv', conns) /\
  (forall k x, sessions (sv_sessions sv') !! k = Some x <->
     sessions (sv_sessions sv) !! k = Some x /\ Session.is_expired x now (SessionRegistry.idle_timeout_ms (sv_sessions sv)) = false) /\
  (forall i e, entries (sv_transfers sv') !! i = Some e <->
     entries (sv_transfers sv) !! i = Some e /\ TransferEntry.is_expired e now' (TransferRegistry.ttl_ms (sv_transfers sv)) = false /\
     is_Some (sessions (sv_sessions sv') !! te_session e)).
Proof.
  intros Hh. unfold sweep.
  assert (forall k x, sessions (SessionRegistry.sweep_expired_at (sv_sessions sv) now).2 !! k = Some x <->
     sessions (sv_sessions sv) !! k = Some x /\ Session.is_expired x now (SessionRegistry.idle_timeout_ms (sv_sessions sv)) = false) as Hs.
  { intros k x. split.
    - intros Hk. cbn in Hk. by apply map_lookup_filter_Some in Hk.
    - intros [Hk He]. by rewrite (lookup_sweep _ _ _ _ Hk), He. }
  assert (s_config (SessionRegistry.sweep_expired_at (sv_sessions sv) now).2 = s_config (sv_sessions sv)) as Hc by done.
  destruct (SessionRegistry.sweep_expired_at (sv_sessions sv) now) as [dropped r]. cbn [snd] in Hs, Hc.
  assert (healthy n (ControlService.with_sessions sv r, conns)) as Hr.
  { apply (healthy_sessions n sv conns); try done.
    - intros k x [Hk _]%Hs. by apply (hl_filed _ _ Hh).
    - intros k [x [Hk _]%Hs]. by eexists. }
  destruct (sweep_spec (sv_transfers sv) now' (SessionRegistry.contains r) (so_plans _ _ (hl_ok _ _ Hh))) as [Hpl Hent].
  assert (next_id (TransferRegistry.sweep_at (sv_transfers sv) now' (SessionRegistry.contains r)).2 = next_id (sv_transfers sv) /\
    t_config (TransferRegistry.sweep_at (sv_transfers sv) now' (SessionRegistry.contains r)).2 = t_config (sv_transfers sv)) as [Hn Htc] by done.
  destruct (TransferRegistry.sweep_at (sv_transfers sv) now' (SessionRegistry.contains r)) as [stale t]. cbn [snd] in *. split; [|split].
  - apply (healthy_plans n (ControlService.with_sessions sv r)); try done. intros i [e [Hi _]%Hent]. by eexists.
  - exact Hs.
  - intros i e. cbn [sv_transfers sv_sessions ControlService.with_transfers ControlService.with_sessions].
    rewrite Hent. unfold kept, SessionRegistry.contains. by rewrite bool_decide_eq_true.
Qed.

Lemma perform_healthy n st a :
  config_valid config -> 0 <= n -> healthy (n + activity_cost a) st -> fits st a -> healthy n (perform st a).
Proof.
  intros Hv Hn Hh Hf. destruct st as [sv conns], a as [c|rq now rid rtok|hello now|k now|i ticket k now|e now|k|now now']; cbn [activity_cost] in Hh;
    rewrite ?Z.add_0_r in Hh.
  - by apply calls_healthy.
  - by apply connects_healthy.
  - by apply greets_healthy.
  - by apply touches_healthy.
  - cbn [perform]. destruct (fetch_keeps (sv_transfers sv) i ticket k now) as (Hn1 & Hc & Hsub).
    apply (healthy_plans n sv conns); try done. apply fetch_ok, Hh.
  - cbn [perform]. apply (healthy_plans n sv conns); try done; [by apply touched_ok, Hh|].
    intros j [y Hj]. cbn in Hj. apply lookup_alter_Some in Hj as [(_ & x & Hx & _)|[_ Hj]]; by eexists.
  - by apply hangs_up_healthy.
  - by apply (sweep_leaves n sv conns now now').
Qed.

Lemma serves_healthy n st : serves s n st -> config_valid config /\ healthy n st.
Proof.
  induction 1 as [data data_port control sv Hbind|n st a _ [Hv IH] Hn Hf]; [|split; [done|by apply perform_healthy]].
  unfold bind in Hbind. apply bind_ok in Hbind as ([] & Hval & Hbind). apply bind_ok in Hbind as (paths & Hpaths & Hbind).
  apply bind_ok in Hbind as (u0 & _ & Hbind). apply bind_ok in Hbind as (port & _ & Hbind). apply bind_ok in Hbind as (u & _ & [= <-]).
  assert (config_valid config) as Hv by (by apply (proj2 validate_exact config Htyped)). split; [done|]. split; try done.
  - apply service_started; [unfold two32; lia|done|]. intros k x. cbn. by rewrite lookup_empty.
  - cbn. rewrite map_size_empty. destruct Hv. lia.
Qed.

(** A running server keeps within its limits and its tables agree.  Started with any
    configuration that starts, and through whatever calls, connections, fetches and sweeps
    follow, while fewer than 2^32 plans have been prepared: there are at most
    [max_sessions] sessions, each filed under its own identifier and granted no more streams
    than the server allows one; a session counts exactly its data connections that are open,
    never more than it was granted; every plan is filed under its own identifier and is listed
    once among its session's, of which there are at most [max_transfers_per_session]; and the
    data roots and the configuration are those it was started with. *)
Theorem server_consistent n sv conns :
  serves s n (sv, conns) ->
  Z.of_nat (size (sessions (sv_sessions sv))) <= max_sessions (limits config) /\
  (forall k x, sessions (sv_sessions sv) !! k = Some x ->
     id x = k /\ data_conns x = open_of k conns /\ data_conns x <= granted_streams x <= max_streams_per_session (limits config)) /\
  (forall i e, entries (sv_transfers sv) !! i = Some e ->
     te_request_id e = i /\ exists ids, by_session (sv_transfers sv) !! te_session e = Some ids /\ i ∈ ids) /\
  (forall k ids, by_session (sv_transfers sv) !! k = Some ids ->
     NoDup ids /\ zlen ids <= max_transfers_per_session (limits config) /\
     forall i, i ∈ ids -> exists e, entries (sv_transfers sv) !! i = Some e /\ te_session e = k) /\
  sv_config sv = config /\ PathPolicy.new (roots config) = Ok (sv_paths sv).
Proof.
  intros [_ [Hok Hfl Hs (Hc1 & Hc2 & Hc3) Hpp]]%serves_healthy. cbn [fst snd] in *. pose proof (so_plans _ _ Hok) as Hpl.
  split; [done|]. split; [intros k x Hx; by destruct (Hfl k x Hx) as (? & _ & _ & ? & ?)|]. split; [|split; [|done]].
  - intros i e He. split; [by apply (po_id _ Hpl)|]. apply (po_index _ Hpl). by exists e.
  - intros k ids Hids. destruct (po_ids _ Hpl k ids Hids) as [Hnd Hcap]. unfold cap in Hcap. rewrite Hc3 in Hcap.
    split; [done|]. split; [done|]. intros i Hi. apply (po_index _ Hpl). by exists ids.
Qed.

(** C27: the sweep takes what went idle and nothing else.  A turn of it leaves exactly the
    sessions used within the idle timeout, and of the plans exactly those used within their
    own whose session is left, so no plan outlives its session. *)
Theorem idle_collected n sv conns now now' :
  serves s n (sv, conns) ->
  let sv' := (sweep sv now now').2 in
  (forall k x, sessions (sv_sessions sv') !! k = Some x <->
     sessions (sv_sessions sv) !! k = Some x /\
     saturating_sub now (last_seen_ms x) <= SessionRegistry.idle_timeout_ms (sv_sessions sv)) /\
  (forall i e, entries (sv_transfers sv') !! i = Some e <->
     entries (sv_transfers sv) !! i = Some e /\
     saturating_sub now' (te_last_used_ms e) <= TransferRegistry.ttl_ms (sv_transfers sv) /\
     is_Some (sessions (sv_sessions sv') !! te_session e)).
Proof.
  intros [_ Hh]%serves_healthy. destruct (sweep_leaves n sv conns now now' Hh) as (_ & Hs & He). cbv zeta in *.
  unfold Session.is_expired, TransferEntry.is_expired in *. setoid_rewrite Z.ltb_ge in Hs. setoid_rewrite Z.ltb_ge in He. done.
Qed.
End Healthy.

(** ** At a concrete input *)

#[local] Existing Instance demo_build.
#[local] Existing Instance demo_half.
#[local] Existing Instance demo_half_num.
#[local] Existing Instance demo_fs.

Definition demo_settings : Settings :=
  {| control_addr := "0.0.0.0:50051"; data_addr := "0.0.0.0:50052"; advertise_host := ""; server_config := demo_config; tcp := {| sndbuf := 0; congestion := "" |} |}.
Definition demo_started : Service NullFile NullDataset :=
  default demo_service match bind demo_settings (fun _ => Ok tt) (Ok 50052) (Ok tt) with Ok sv => Some sv | _ => None end.
Definition demo_connects : Activity (D := NullDataset) :=
  Connects {| cq_version := SERVER_PROTOCOL_VERSION; cq_streams := 2; cq_client := "demo" |} 5 (Ok (demo_id 3)) (Ok (demo_id 4)).
Definition demo_greets : Activity (D := NullDataset) := Greets (Hello.encode (Hello.new (demo_id 3) (demo_id 4))) 6.
Definition demo_state : Service NullFile NullDataset * list bytes := perform (perform (demo_started, []) demo_connects) demo_greets.

Lemma demo_serves : serves demo_settings (two32 - 2) demo_state.
Proof.
  unfold demo_state. apply (serves_on _ (two32 - 2)); [apply (serves_on _ (two32 - 2))| |]; try (unfold two32; lia); try exact I.
  - apply (serves_start _ (fun _ => Ok tt) (Ok 50052) (Ok tt)). vm_compute. reflexivity.
  - split; [by vm_compute|]. split.
    + intros k [= <-]. split; [reflexivity|]. split; [vm_compute; reflexivity|]. by intros ?%not_elem_of_nil.
    + by intros t [= <-].
Qed.

Lemma demo_settings_typed : config_typed (server_config demo_settings).
Proof. split; vm_compute; split; congruence. Qed.

Lemma server_consistent_witness :
  Z.of_nat (size (sessions (sv_sessions demo_state.1))) = 1 /\ Z.of_nat (size (sessions (sv_sessions demo_state.1))) <= 2 /\
  demo_state.2 = [demo_id 3].
Proof.
  split; [vm_compute; reflexivity|]. split; [|vm_compute; reflexivity].
  exact (proj1 (server_consistent demo_settings demo_settings_typed (two32 - 2) demo_state.1 demo_state.2 demo_serves)).
Defined.

Lemma idle_collected_witness : sessions (sv_sessions (sweep demo_state.1 2000 2000).2) !! demo_id 3 = None.
Proof.
  apply eq_None_not_Some. intros [x Hx].
  apply (proj1 (idle_collected demo_settings demo_settings_typed (two32 - 2) demo_state.1 demo_state.2 2000 2000 demo_serves)) in Hx as [Hx He].
  vm_compute in Hx. injection Hx as <-. vm_compute in He. by apply He.
Defined.
