(* ===== verification/Regions.v ===== *)
(** The server between its locks: [aex-server]'s [session.rs], [transfer.rs], [control.rs]
    and [dataplane.rs] again, an RPC, a HELLO, a FETCH and the sweep each taken apart into
    its locked regions and atomic operations, which those of other calls come between.

    A task is in one call at a time, and [Call] is how far it is in it.  What a call does
    between two regions touches nothing shared, so any region a call may enter next is open
    to it: a call of [Server.serve] is one way through, which [RegionsAlone] proves. *)
From stdpp Require Import strings gmap relations.
From S2P Require Import Prelude Errors Dtype Bytes Quality Handshake Selection Cast Layout Text Backend Convert Config Paths Session Transfer Reduce DataPlane Control ControlSpec Listener Server.

(** What the calls share: the service; the sessions and the plans that its tables no longer
    list, which whoever still holds one goes on using; the sessions of the data connections
    that were counted in and are open; and those of the connections that were counted in and
    are gone without being counted out. *)
Record Shared (F D : Type) : Type := {
  service : Service F D;
  dropped : gmap bytes (Session F);
  shelf : gmap Z (TransferEntry D);
  open_conns : list bytes;
  lost : list bytes;
}.
Arguments service {F D}. Arguments dropped {F D}. Arguments shelf {F D}. Arguments open_conns {F D}. Arguments lost {F D}.

(** How far a task is in its call.  A session or a plan it holds is named by its
    identifier, which no other ever has. *)
Inductive Call : Type :=
  | Idle
  (** [create_at], past the limit. *)
  | Creating (client : string) (streams now : Z)
  (** [get_at]: found; found expired, about to be removed; found live, about to be marked. *)
  | Found (k : bytes)
  | Stale (k : bytes)
  | Fresh (k : bytes) (now : Z)
  (** A handler that has its session; with a file handle taken; with a request identifier taken. *)
  | Using (k : bytes)
  | Filing (k : bytes) (handle : Z)
  | Reserved (k : bytes) (i : Z)
  (** [disconnect], the session removed and its plans not yet. *)
  | Leaving (k : bytes)
  (** [fetch]: found; found expired, about to be removed; granted, about to be marked. *)
  | Holding (i : Z)
  | Lapsed (i : Z)
  | Due (i now : Z).

(** A locked region or an atomic operation, with what the clock, the operating system's
    random source and the request say in it. *)
Inductive Region (F D : Type) : Type :=
  | Tests (client : string) (streams now : Z)
  | Makes (random_id random_token : result ServerError bytes)
  | Finds (k : bytes)
  | Judges (now : Z)
  | Drops
  | Marks
  | TakesHandle
  | PutsFile (file : F)
  | ClosesFile (handle : Z)
  | OpensConn (presented : bytes)
  | Warns
  | Reserves
  | Registers (d : D) (l : SelectionLayout) (now : Z) (ticket : result ServerError bytes)
  | Removes
  | Forgets
  | Returns
  | TouchesSession (k : bytes) (now : Z)
  | ClosesConn (k : bytes)
  | LosesConn (k : bytes)
  | Seeks (i : Z)
  | JudgesPlan (ticket session : bytes) (now : Z)
  | DropsPlan
  | MarksPlan
  | TouchesPlan (i now : Z)
  | SweepsSessions (now : Z)
  | SweepsPlans (now : Z) (keeps : Z -> bytes -> bool) (live : bytes -> bool).
Arguments Tests {F D}. Arguments Makes {F D}. Arguments Finds {F D}. Arguments Judges {F D}. Arguments Drops {F D}.
Arguments Marks {F D}. Arguments TakesHandle {F D}. Arguments PutsFile {F D}. Arguments ClosesFile {F D}.
Arguments OpensConn {F D}. Arguments Warns {F D}. Arguments Reserves {F D}. Arguments Registers {F D}.
Arguments Removes {F D}. Arguments Forgets {F D}. Arguments Returns {F D}. Arguments TouchesSession {F D}.
Arguments ClosesConn {F D}. Arguments LosesConn {F D}.
Arguments Seeks {F D}. Arguments JudgesPlan {F D}. Arguments DropsPlan {F D}. Arguments MarksPlan {F D}.
Arguments TouchesPlan {F D}. Arguments SweepsSessions {F D}. Arguments SweepsPlans {F D}.

Module Regions.
Section Ops.
Context {F D : Type}.
#[local] Abbreviation Service := (Service F D).
#[local] Abbreviation Shared := (Shared F D).
#[local] Abbreviation Region := (Region F D).
Implicit Types (w : Shared) (r : SessionRegistry F) (t : TransferRegistry D).

Definition sessions_of w : SessionRegistry F := sv_sessions (service w).
Definition plans w : TransferRegistry D := sv_transfers (service w).

(** The session table written: what it no longer lists is dropped. *)
Definition set_sessions w r : Shared :=
  {| service := ControlService.with_sessions (service w) r;
     dropped := (sessions (sessions_of w) ∖ sessions r) ∪ dropped w;
     shelf := shelf w; open_conns := open_conns w; lost := lost w |}.

(** The plan table written: what it no longer lists is on the shelf. *)
Definition set_plans w t : Shared :=
  {| service := ControlService.with_transfers (service w) t; dropped := dropped w;
     shelf := (entries (plans w) ∖ entries t) ∪ shelf w; open_conns := open_conns w; lost := lost w |}.

Definition set_conns w (conns : list bytes) : Shared :=
  {| service := service w; dropped := dropped w; shelf := shelf w; open_conns := conns; lost := lost w |}.

(** A connection's thread returns past [close_data_conn]: READY could not be written after the
    connection was counted in, or the thread panicked. *)
Definition lose_conn w (k : bytes) : Shared :=
  {| service := service w; dropped := dropped w; shelf := shelf w;
     open_conns := Server.without k (open_conns w); lost := k :: lost w |}.

(** A session, listed or not, and what its holders do to it. *)
Definition session_at w (k : bytes) : option (Session F) :=
  match sessions (sessions_of w) !! k with Some x => Some x | None => dropped w !! k end.

Definition on_session w (k : bytes) (f : Session F -> Session F) : Shared :=
  {| service := ControlService.with_sessions (service w)
       (SessionRegistry.with_sessions (sessions_of w) (alter f k (sessions (sessions_of w))));
     dropped := alter f k (dropped w); shelf := shelf w; open_conns := open_conns w; lost := lost w |}.

Definition plan_at w (i : Z) : option (TransferEntry D) :=
  match entries (plans w) !! i with Some e => Some e | None => shelf w !! i end.

Definition on_plan w (i : Z) (f : TransferEntry D -> TransferEntry D) : Shared :=
  {| service := ControlService.with_transfers (service w)
       (TransferRegistry.with_plans (plans w) (alter f i (entries (plans w))) (by_session (plans w)));
     dropped := dropped w; shelf := alter f i (shelf w); open_conns := open_conns w; lost := lost w |}.

Definition with_files (x : Session F) (fs : FileRegistry F) : Session F :=
  {| id := id x; token := token x; granted_streams := granted_streams x; client_name := client_name x;
     s_files := fs; data_conns := data_conns x; last_seen_ms := last_seen_ms x |}.

(** A region on the sessions run by a task that is [c] far: what is shared after it, and how
    far the task is then.  [None] where a call never comes to this region from there. *)
Definition session_act w (c : Call) (a : Region) : option (Shared * Call) :=
  match a, c with
  | Tests client streams now, Idle =>
      Some (w, match SessionRegistry.create_test (sessions_of w) with Ok _ => Creating client streams now | _ => Idle end)
  | Makes random_id random_token, Creating client streams now =>
      Some (match SessionRegistry.new_session (sessions_of w) client streams now random_id random_token with
            | Ok x => set_sessions w (SessionRegistry.create_insert (sessions_of w) x)
            | _ => w
            end, Idle)
  | Finds k, Idle => Some (w, match sessions (sessions_of w) !! k with Some _ => Found k | None => Idle end)
  | Judges now, Found k =>
      x ← session_at w k;
      Some (w, if Session.is_expired x now (SessionRegistry.idle_timeout_ms (sessions_of w)) then Stale k else Fresh k now)
  | Drops, Stale k =>
      Some (set_sessions w (SessionRegistry.with_sessions (sessions_of w) (delete k (sessions (sessions_of w)))), Idle)
  | Marks, Fresh k now => Some (on_session w k (fun x => Session.touch x now), Using k)
  | TakesHandle, Using k =>
      x ← session_at w k;
      let '(handle, fs) := FileRegistry.take_handle (s_files x) in
      Some (on_session w k (fun x => with_files x fs), Filing k handle)
  | PutsFile file, Filing k handle =>
      Some (on_session w k (fun x => with_files x (FileRegistry.put (s_files x) handle file)), Using k)
  | ClosesFile handle, Using k =>
      x ← session_at w k;
      Some (match FileRegistry.remove (s_files x) handle with
            | Ok fs => on_session w k (fun x => with_files x fs)
            | _ => w
            end, Using k)
  | OpensConn presented, Using k =>
      x ← session_at w k;
      Some (if constant_time_eq (token x) presented then
              match Session.open_data_conn x with
              | Ok x => set_conns (on_session w k (fun _ => x)) (k :: open_conns w)
              | _ => w
              end
            else w, Idle)
  | Warns, Using k =>
      Some ({| service := ControlService.with_warned (service w) true; dropped := dropped w; shelf := shelf w;
               open_conns := open_conns w; lost := lost w |}, Using k)
  | Removes, Using k =>
      Some (set_sessions w (SessionRegistry.with_sessions (sessions_of w) (delete k (sessions (sessions_of w)))), Leaving k)
  | Returns, Using _ => Some (w, Idle)
  | TouchesSession k now, Idle =>
      Some (set_sessions w (SessionRegistry.touch (sessions_of w) k now), Idle)
  | ClosesConn k, Idle =>
      Some (set_conns (on_session w k Session.close_data_conn) (Server.without k (open_conns w)), Idle)
  | LosesConn k, Idle => Some (lose_conn w k, Idle)
  | SweepsSessions now, Idle =>
      Some (set_sessions w (SessionRegistry.sweep_expired_at (sessions_of w) now).2, Idle)
  | _, _ => None
  end.

(** A region on the plans. *)
Definition plan_act w (c : Call) (a : Region) : option (Shared * Call) :=
  match a, c with
  | Reserves, Using k =>
      let '(i, t) := TransferRegistry.next_request_id (plans w) in Some (set_plans w t, Reserved k i)
  | Registers d l now ticket, Reserved k i =>
      Some (set_plans w (TransferRegistry.register (plans w) i k d l now ticket).2, Using k)
  | Forgets, Leaving k => Some (set_plans w (TransferRegistry.remove_session (plans w) k).2, Idle)
  | Seeks i, Idle => Some (w, match entries (plans w) !! i with Some _ => Holding i | None => Idle end)
  | JudgesPlan ticket session now, Holding i =>
      e ← plan_at w i;
      Some (w, if TransferEntry.is_expired e now (TransferRegistry.ttl_ms (plans w)) then Lapsed i
               else if negb (constant_time_eq (te_ticket e) ticket) || negb (bool_decide (te_session e = session)) then Idle
               else Due i now)
  | DropsPlan, Lapsed i => Some (set_plans w (TransferRegistry.remove (plans w) i), Idle)
  | MarksPlan, Due i now => Some (on_plan w i (fun e => TransferEntry.touch e now), Idle)
  | TouchesPlan i now, Idle => Some (on_plan w i (fun e => TransferEntry.touch e now), Idle)
  | SweepsPlans now keeps live, Idle =>
      Some (set_plans w (TransferRegistry.sweep_answers (plans w) now keeps live).2, Idle)
  | _, _ => None
  end.

Definition act w (c : Call) (a : Region) : option (Shared * Call) :=
  match a with
  | Reserves | Registers _ _ _ _ | Forgets | Seeks _ | JudgesPlan _ _ _ | DropsPlan | MarksPlan | TouchesPlan _ _
  | SweepsPlans _ _ _ => plan_act w c a
  | _ => session_act w c a
  end.

(** How many tasks are between the two regions of [create_at]. *)
Definition is_creating (c : Call) : Z := match c with Creating _ _ _ => 1 | _ => 0 end.
Definition creating (calls : list Call) : Z := total is_creating calls.

(** What the regions rely on.  Nothing is awaited in [create_at], so no more calls are in it
    than the runtime has [workers]; an identifier drawn for a session is sixteen bytes and no
    session ever had it; fewer than 2^32 plans are prepared; a connection that ends was
    open; and a session the sweep finds gone stays gone, for identifiers are not drawn
    again: one still listed when the sweep ends was so whenever it asked. *)
Definition admissible (workers : Z) w (calls : list Call) (a : Region) : Prop :=
  match a with
  | Tests _ streams _ => is_u32 streams /\ creating calls < workers
  | Makes random_id random_token =>
      match random_id with Ok k => length k = 16%nat /\ session_at w k = None | _ => True end /\
      match random_token with Ok tok => length tok = 16%nat | _ => True end
  | Reserves => next_id (plans w) + 1 < two32
  | ClosesConn k | LosesConn k => k ∈ open_conns w
  | SweepsPlans _ keeps live =>
      forall k, is_Some (sessions (sessions_of w) !! k) -> live k = true /\ forall i, keeps i k = true
  | _ => True
  end.

(** One task runs one region of its call. *)
Inductive moves (workers : Z) : Shared * list Call -> Shared * list Call -> Prop :=
  | moves_one w calls (i : nat) c a w' c' :
      calls !! i = Some c -> admissible workers w calls a -> act w c a = Some (w', c') ->
      moves workers (w, calls) (w', <[i := c']> calls).

Definition started (sv : Service) : Shared := {| service := sv; dropped := ∅; shelf := ∅; open_conns := []; lost := [] |}.
End Ops.
End Regions.
