(* ===== verification/RegionsSpec.v ===== *)
(** What holds of a running server between any two regions of its calls, however they
    interleave: [Regions.moves]. *)
From stdpp Require Import strings gmap relations.
From S2P Require Import Prelude Errors Dtype Bytes Quality Handshake Selection Cast Layout Text Backend Null Convert Config Paths Session Transfer Reduce ReduceNumpy LayoutSpec Reader DataPlane Control ControlSpec ControlServes Listener Server ServerSpec Regions.

Import Regions.

(** ** The plan table *)

Section Plans.
Context {D : Type}.
Implicit Types (t : TransferRegistry D) (e : TransferEntry D) (listed known : bytes -> Prop).
Import TransferRegistry.

(** What holds of the plans when [known] sessions have ever been and [listed] ones are.  A
    plan of a session no longer listed need not be indexed: the sweep asks which sessions
    are live twice, and one that goes in between leaves its plans to the next sweep. *)
Record plans_sound listed known t : Prop := {
  ps_id i e : entries t !! i = Some e -> te_request_id e = i /\ 0 < i < next_id t /\ known (te_session e);
  ps_listed k ids : by_session t !! k = Some ids -> NoDup ids /\ zlen ids <= cap t;
  ps_owned k ids i : by_session t !! k = Some ids -> i ∈ ids -> exists e, entries t !! i = Some e /\ te_session e = k;
  ps_index i e : entries t !! i = Some e -> listed (te_session e) -> exists ids, by_session t !! te_session e = Some ids /\ i ∈ ids;
  ps_next : 0 < next_id t < two32;
  ps_cap : 0 < cap t;
}.

Lemma plans_sound_new listed known config :
  config_valid config -> plans_sound listed known (new (D := D) config).
Proof. intros Hv. split; cbn; try (intros * H; by rewrite lookup_empty in H); [unfold two32; lia|apply Hv]. Qed.

(** Sessions come and go: one listed now was so before or is new. *)
Lemma plans_sound_evolve (listed known listed' known' : bytes -> Prop) t :
  (forall k, known k -> known' k) -> (forall k, known k -> listed' k -> listed k) ->
  plans_sound listed known t -> plans_sound listed' known' t.
Proof.
  intros Hk Hl [Hid Hls Hown Hidx Hn Hc]. split; [|done..| |done|done].
  - intros i e He. destruct (Hid i e He) as (? & ? & ?). auto.
  - intros i e He Hle. apply Hidx; [done|]. apply Hl; [|done]. by apply (Hid i e).
Qed.

(** Fewer plans, in both maps, and none listed that is not there. *)
Lemma plans_sound_restrict listed known t es bs :
  plans_sound listed known t ->
  (forall i e, es !! i = Some e -> exists e0, entries t !! i = Some e0 /\ te_request_id e = te_request_id e0 /\ te_session e = te_session e0) ->
  (forall k ids', bs !! k = Some ids' -> exists ids, by_session t !! k = Some ids /\ ids' `sublist_of` ids /\ forall i, i ∈ ids' -> is_Some (es !! i)) ->
  (forall i e ids, es !! i = Some e -> listed (te_session e) -> by_session t !! te_session e = Some ids -> i ∈ ids ->
     exists ids', bs !! te_session e = Some ids' /\ i ∈ ids') ->
  plans_sound listed known (with_plans t es bs).
Proof.
  intros [Hid Hls Hown Hidx Hn Hc] He Hb Hi. split; cbn; try done.
  - intros i e Hie. destruct (He i e Hie) as (e0 & H0 & -> & ->). by apply Hid.
  - intros k ids' (ids & Hids & Hsub & _)%Hb. destruct (Hls k ids Hids) as [Hnd Hl].
    split; [by eapply sublist_NoDup|]. apply sublist_length in Hsub. unfold cap in *. cbn. lia.
  - intros k ids' i (ids & Hids & Hsub & Hin)%Hb Hi'. destruct (Hin i Hi') as [e Hie]. exists e. split; [done|].
    destruct (He i e Hie) as (e0 & H0 & _ & ->). destruct (Hown k ids i Hids) as (e1 & H1 & <-); [by eapply elem_of_sublist|]. congruence.
  - intros i e Hie Hle. destruct (He i e Hie) as (e0 & H0 & _ & Hs). destruct (Hidx i e0 H0) as (ids & Hids & Hin); [by rewrite <- Hs|].
    rewrite <- Hs in Hids. by apply (Hi i e ids).
Qed.

Lemma remove_sound listed known t i : plans_sound listed known t -> plans_sound listed known (remove t i).
Proof.
  intros Hok. unfold remove. destruct (entries t !! i) as [e|] eqn:Hi; [|done]. apply plans_sound_restrict; [done|..].
  - intros j e' [_ Hj]%lookup_delete_Some. eauto.
  - intros k ids'. rewrite lookup_alter. case_decide as Hk; [subst k|]; intros Hids'.
    + destruct (by_session t !! te_session e) as [ids|] eqn:Hids; [|done]. cbn in Hids'. injection Hids' as <-.
      exists ids. split; [done|]. split; [apply sublist_filter|]. intros j [Hne Hj]%list_elem_of_filter.
      rewrite lookup_delete_ne by congruence. destruct (ps_owned _ _ _ Hok _ _ _ Hids Hj) as (e' & ? & _). by eexists.
    + exists ids'. split; [done|]. split; [done|]. intros j Hj. destruct (ps_owned _ _ _ Hok _ _ _ Hids' Hj) as (e' & He' & Hs).
      rewrite lookup_delete_ne; [by eexists|]. intros ->. congruence.
  - intros j e' ids [Hne Hj]%lookup_delete_Some _ Hids Hin. rewrite lookup_alter. case_decide as Hs; [|eauto].
    rewrite Hs, Hids. cbn. eexists. split; [done|]. by apply list_elem_of_filter.
Qed.

Lemma touched_sound listed known t i now :
  plans_sound listed known t ->
  plans_sound listed known (with_plans t (alter (fun e => TransferEntry.touch e now) i (entries t)) (by_session t)).
Proof.
  intros Hok. assert (forall j, is_Some (alter (fun e => TransferEntry.touch e now) i (entries t) !! j) <-> is_Some (entries t !! j)) as Hsame.
  { intros j. rewrite lookup_alter. case_decide; [subst|done]. by rewrite fmap_is_Some. }
  apply plans_sound_restrict; [done|..].
  - intros j e. rewrite lookup_alter. case_decide; [subst|by eauto]. destruct (entries t !! j) as [e0|]; [|done]. intros [= <-]. eauto.
  - intros k ids Hids. exists ids. split; [done|]. split; [done|]. intros j Hj. apply Hsame.
    destruct (ps_owned _ _ _ Hok _ _ _ Hids Hj) as (e' & ? & _). by eexists.
  - eauto.
Qed.

Lemma remove_session_sound listed known t k :
  ~ listed k -> plans_sound listed known t -> plans_sound listed known (remove_session t k).2.
Proof.
  intros Hl Hok. unfold remove_session. destruct (by_session t !! k) as [ids|] eqn:Hk; [|done]. apply plans_sound_restrict; [done|..].
  - intros i e. rewrite lookup_foldl_delete. case_decide; [done|eauto].
  - intros k' ids' [Hne Hids']%lookup_delete_Some. exists ids'. split; [done|]. split; [done|]. intros i Hi.
    destruct (ps_owned _ _ _ Hok _ _ _ Hids' Hi) as (e & He & Hs). rewrite lookup_foldl_delete, decide_False; [by eexists|].
    intros Hin. destruct (ps_owned _ _ _ Hok _ _ _ Hk Hin) as (e' & He' & Hs'). congruence.
  - intros i e ids' _ Hle Hids Hin. exists ids'. rewrite lookup_delete_ne; [done|]. intros Hke. apply Hl. by rewrite Hke.
Qed.

Lemma sweep_sound listed known t now keeps live :
  (forall k, listed k -> live k = true) ->
  plans_sound listed known t -> plans_sound listed known (sweep_answers t now keeps live).2.
Proof.
  intros Hlive Hok. unfold sweep_answers. cbn [snd]. set (es := filter _ (entries t)).
  assert (forall i e, es !! i = Some e -> entries t !! i = Some e) as Hes by (by intros i e [? _]%map_lookup_filter_Some).
  apply plans_sound_restrict; [done|by eauto|..].
  - intros k ids' (ids & Hids' & [Hids _]%map_lookup_filter_Some)%lookup_omap_Some. cbn zeta in Hids'. case_decide; [done|].
    injection Hids' as <-. exists ids. split; [done|]. split; [apply sublist_filter|]. by intros i [Hi _]%list_elem_of_filter.
  - intros i e ids He Hle Hids Hin. assert (i ∈ filter (fun id => is_Some (es !! id)) ids) as Hf by (apply list_elem_of_filter; eauto).
    eexists. split; [|exact Hf]. apply lookup_omap_Some. exists ids. cbn zeta. split.
    + rewrite decide_False; [done|]. intros Hn. rewrite Hn in Hf. by apply elem_of_nil in Hf.
    + apply map_lookup_filter_Some. eauto.
Qed.

(** A plan put in under an identifier taken for it. *)
Lemma register_sound listed known t i k d l now ticket :
  plans_sound listed known t -> known k -> 0 < i < next_id t -> entries t !! i = None ->
  let t' := (register t i k d l now ticket).2 in
  plans_sound listed known t' /\ next_id t' = next_id t /\ t_config t' = t_config t /\
  forall j, is_Some (entries t' !! j) -> is_Some (entries t !! j) \/ j = i.
Proof.
  intros Hok Hk Hi Hfree. cbv zeta. unfold register. destruct ticket as [ticket| |]; [|by auto..].
  fold (cap t). set (ids := filter _ (default [] (by_session t !! k))).
  assert (forall j, j ∈ ids -> exists e, entries t !! j = Some e /\ te_session e = k) as Hown.
  { intros j [_ Hj]%list_elem_of_filter. destruct (by_session t !! k) as [ids0|] eqn:Hids; [|by apply elem_of_nil in Hj].
    by apply (ps_owned _ _ _ Hok k ids0). }
  assert (NoDup ids) as Hnd.
  { apply NoDup_filter. destruct (by_session t !! k) as [ids0|] eqn:Hids; [by eapply ps_listed|constructor]. }
  destruct (evict_spec (length ids) (cap t) (entries t) ids) as (es & kept & gone & -> & Hperm & Hlen & Hes & _);
    [apply Hok|done|done|by apply Forall_forall; intros j (? & ? & _)%Hown; eexists|].
  cbn [snd]. set (e := {| te_request_id := i |}).
  assert (forall j, j ∈ ids <-> j ∈ gone \/ j ∈ kept) as Hsplit by (intros j; rewrite Hperm; apply elem_of_app).
  assert (NoDup (gone ++ kept)) as (_ & Hdisj & Hndk)%NoDup_app by (by rewrite <- Hperm).
  assert (i ∉ kept) as Hni by (intros Hin; destruct (Hown i) as (? & ? & _); [apply Hsplit; by right|congruence]).
  assert (forall j, <[i := e]> es !! j = if decide (j = i) then Some e else if decide (j ∈ gone) then None else entries t !! j) as Hent.
  { intros j. case_decide as Hj; [subst; apply lookup_insert_eq|]. rewrite lookup_insert_ne by congruence. apply Hes. }
  split; [|split; [done|split; [done|]]].
  2: { intros j. cbn. rewrite Hent. repeat case_decide; [by right|by intros [? ?]|by left]. }
  split; unfold cap; cbn [with_plans entries by_session next_id t_config]; fold (cap t); try apply Hok.
  - intros j e'. rewrite Hent. case_decide; [by intros [= <-]; subst|]. case_decide; [done|]. apply Hok.
  - intros k' ids'. rewrite lookup_insert. case_decide; [|by apply (ps_listed _ _ _ Hok)]. intros [= <-]. split.
    + apply NoDup_app. split; [done|]. split; [|apply NoDup_singleton]. by intros j Hj ->%list_elem_of_singleton.
    + rewrite length_app. cbn. pose proof (ps_cap _ _ _ Hok). lia.
  - intros k' ids' j. rewrite lookup_insert, Hent. case_decide as Hkk.
    + subst k'. intros [= <-] [Hj|Hj%list_elem_of_singleton]%elem_of_app; [|subst; rewrite decide_True by done; eauto].
      rewrite decide_False by congruence. rewrite decide_False by (intros Hg; by apply (Hdisj j)). apply Hown, Hsplit. by right.
    + intros Hids Hj. destruct (ps_owned _ _ _ Hok _ _ _ Hids Hj) as (e' & He' & Hs). exists e'. rewrite decide_False by congruence.
      rewrite decide_False; [done|]. intros Hg. destruct (Hown j) as (e'' & ? & ?); [apply Hsplit; by left|]. congruence.
  - intros j e'. rewrite Hent, lookup_insert. case_decide as Hji.
    + subst. intros [= <-] _. rewrite decide_True by done. eexists. split; [done|]. apply elem_of_app. right. by left.
    + case_decide as Hg; [done|]. intros He' Hle. destruct (ps_index _ _ _ Hok j e' He' Hle) as (ids' & Hids & Hin).
      case_decide as Hs; [|eauto]. eexists. split; [done|]. apply elem_of_app. left.
      assert (j ∈ ids) as [|]%Hsplit; [|done..]. apply list_elem_of_filter. split; [by eexists|]. by rewrite Hs, Hids.
Qed.
End Plans.

(** ** What a task may change for the others *)

Section Shared.
Context `{Build, HalfLib, HalfNum, Fs}.
Context {F D : Type} `{!ArrayDataset D, !ArrayFile F D, !Backends F D}.
#[local] Abbreviation Shared := (Shared F D).
#[local] Abbreviation Region := (Region F D).
Implicit Types (w : Shared) (k : bytes).

Definition known w k : Prop := is_Some (session_at w k).
Definition listed w k : Prop := is_Some (sessions (sessions_of w) !! k).

Lemma listed_known w k : listed w k -> known w k.
Proof. unfold listed, known, session_at. intros [x ->]. by eexists. Qed.

(** The request identifier a call has taken. *)
Definition taken (c : Call) : option Z := match c with Reserved _ i => Some i | _ => None end.

(** What a task relies on, wherever it is in its call. *)
Definition call_sound w (c : Call) : Prop :=
  match c with
  | Creating _ streams _ => is_u32 streams
  | Found k | Stale k | Fresh k _ | Using k | Filing k _ => known w k
  | Leaving k => known w k /\ ~ listed w k
  | Reserved k i => known w k /\ 0 < i < next_id (plans w) /\ entries (plans w) !! i = None
  | _ => True
  end.

(** One region of a task that had [own] taken: no session is forgotten, none comes back, and
    no plan appears but its own. *)
Record evolves (own : option Z) w w' : Prop := {
  ev_known k : known w k -> known w' k;
  ev_listed k : known w k -> listed w' k -> listed w k;
  ev_next : next_id (plans w) <= next_id (plans w');
  ev_entries i : is_Some (entries (plans w') !! i) -> is_Some (entries (plans w) !! i) \/ own = Some i;
  ev_config : sv_config (service w') = sv_config (service w) /\ sv_paths (service w') = sv_paths (service w) /\
              s_config (sessions_of w') = s_config (sessions_of w) /\ t_config (plans w') = t_config (plans w);
}.

Lemma evolves_refl own w : evolves own w w.
Proof. by split; auto. Qed.

Lemma call_evolves own w w' c : evolves own w w' -> taken c = None \/ taken c <> own -> call_sound w c -> call_sound w' c.
Proof.
  intros [Hk Hl Hn He _] Ht. destruct c; cbn in *; auto.
  - intros (? & ? & Hfree). split; [auto|]. split; [lia|]. apply eq_None_not_Some. intros [Hi| ->]%He; [|by destruct Ht].
    rewrite Hfree in Hi. by destruct Hi.
  - intros [? Hnl]. auto.
Qed.

(** *** The session table *)

Lemma session_at_set w r k :
  session_at (set_sessions w r) k = match sessions r !! k with Some x => Some x | None => session_at w k end.
Proof.
  unfold session_at, set_sessions. cbn. destruct (sessions r !! k) eqn:Hr; [done|].
  rewrite lookup_union, lookup_difference, Hr. unfold sessions_of. destruct (sessions _ !! k); by destruct (dropped w !! k).
Qed.

Lemma session_at_on w k f j :
  session_at (on_session w k f) j = if decide (k = j) then f <$> session_at w j else session_at w j.
Proof.
  unfold session_at, on_session. cbn. rewrite !lookup_alter. case_decide; [subst|done].
  by destruct (sessions (sessions_of w) !! j).
Qed.

Lemma listed_on w k f j : listed (on_session w k f) j <-> listed w j.
Proof. unfold listed. cbn. rewrite lookup_alter. case_decide; [subst|done]. by rewrite fmap_is_Some. Qed.

(** A region that touches the sessions only: their table shrinks, or one of them is changed. *)
Lemma evolves_shrink own w r :
  s_config r = s_config (sessions_of w) -> (forall k x, sessions r !! k = Some x -> sessions (sessions_of w) !! k = Some x) ->
  evolves own w (set_sessions w r) /\ forall k, session_at (set_sessions w r) k = session_at w k.
Proof.
  intros Hc Hsub. assert (forall k, session_at (set_sessions w r) k = session_at w k) as Hat.
  { intros k. rewrite session_at_set. destruct (sessions r !! k) as [x|] eqn:Hk; [|done]. unfold session_at. by rewrite (Hsub k x Hk). }
  split; [|done]. split; auto; try reflexivity.
  - intros k. unfold known. by rewrite Hat.
  - intros k _ [x Hx]. eexists. by apply Hsub.
Qed.

Lemma evolves_on own w k f : evolves own w (on_session w k f).
Proof.
  split; auto; try reflexivity.
  - intros j. unfold known. rewrite session_at_on. case_decide; [|done]. by rewrite fmap_is_Some.
  - intros j _. apply listed_on.
Qed.

Lemma evolves_conns own w w' conns : evolves own w w' -> evolves own w (set_conns w' conns).
Proof. intros []. by split. Qed.

(** *** The plan table *)

Lemma evolves_plans own w t :
  next_id (plans w) <= next_id t -> t_config t = t_config (plans w) ->
  (forall i, is_Some (entries t !! i) -> is_Some (entries (plans w) !! i) \/ own = Some i) -> evolves own w (set_plans w t).
Proof. intros Hn Hc He. by split. Qed.

(** ** What holds between any two regions *)

Context (s : Settings) (Htyped : config_typed (server_config s)) (workers : Z).
Local Notation config := (server_config s).

(** Every session that is or was, with [n] calls past the limit and not yet done. *)
Record sessions_sound (n : Z) w : Prop := {
  ss_filed k x : session_at w k = Some x -> filed s (open_conns w ++ lost w) k x;
  ss_conns k : k ∈ open_conns w ++ lost w -> known w k;
  ss_size : Z.of_nat (size (sessions (sessions_of w))) + n <= max_sessions (limits config) + workers - 1;
  ss_config : s_config (sessions_of w) = config;
}.

Lemma sessions_sound_fewer n n' w : n' <= n -> sessions_sound n w -> sessions_sound n' w.
Proof. intros Hn [Hf Hc Hs Hcf]. split; try done. lia. Qed.

Lemma sessions_sound_shrink n w r :
  s_config r = s_config (sessions_of w) -> (forall k x, sessions r !! k = Some x -> sessions (sessions_of w) !! k = Some x) ->
  sessions_sound n w -> sessions_sound n (set_sessions w r).
Proof.
  intros Hc Hsub [Hf Hcn Hs Hcf]. destruct (evolves_shrink None w r Hc Hsub) as [_ Hat]. split.
  - intros k x. rewrite Hat. apply Hf.
  - intros k Hk. unfold known. rewrite Hat. by apply Hcn.
  - pose proof (size_within (sessions_of w) r) as Hsz. cbn. enough (size (sessions r) <= size (sessions (sessions_of w)))%nat by lia.
    apply Hsz. intros k [x Hx]. eexists. by apply Hsub.
  - cbn. by rewrite Hc.
Qed.

Lemma sessions_sound_on n w k f conns :
  (forall j x, session_at w j = Some x -> filed s (open_conns w ++ lost w) j x ->
     filed s (conns ++ lost w) j (if decide (k = j) then f x else x)) ->
  (forall j, j ∈ conns ++ lost w -> known w j) ->
  sessions_sound n w -> sessions_sound n (set_conns (on_session w k f) conns).
Proof.
  intros Hff Hcc [Hf Hcn Hs Hcf].
  assert (forall j, session_at (set_conns (on_session w k f) conns) j = if decide (k = j) then f <$> session_at w j else session_at w j) as Hat
    by (intros j; apply session_at_on).
  split; [| |cbn|done].
  - intros j x. rewrite Hat. destruct (session_at w j) as [x0|] eqn:Hj; [|by case_decide].
    specialize (Hff j x0 Hj (Hf j x0 Hj)). case_decide; by intros [= <-].
  - intros j Hj. unfold known. rewrite Hat. case_decide; [|by apply Hcc]. rewrite fmap_is_Some. by apply Hcc.
  - rewrite <- size_dom, dom_alter_L, size_dom. exact Hs.
Qed.

(** A change that leaves a session where it was filed. *)
Lemma sessions_sound_kept n w k f :
  (forall x, credentials (f x) = credentials x) -> sessions_sound n w -> sessions_sound n (on_session w k f).
Proof.
  intros Hf Hs. apply (sessions_sound_on n w k f (open_conns w)); [|apply Hs|done].
  intros j x _ Hx. case_decide; [|done]. specialize (Hf x). injection Hf as H1' H2' H3' H4'.
  unfold filed in *. by rewrite H1', H2', H3', H4'.
Qed.

Lemma sessions_sound_made n w x :
  sessions_sound (n + 1) w -> session_at w (id x) = None -> filed s [] (id x) x ->
  sessions_sound n (set_sessions w (SessionRegistry.create_insert (sessions_of w) x)) /\
  evolves None w (set_sessions w (SessionRegistry.create_insert (sessions_of w) x)).
Proof.
  intros [Hf Hcn Hs Hcf] Hfresh Hx.
  assert (forall k, session_at (set_sessions w (SessionRegistry.create_insert (sessions_of w) x)) k =
                    if decide (k = id x) then Some x else session_at w k) as Hat.
  { intros k. rewrite session_at_set. cbn. rewrite lookup_insert. repeat case_decide; try congruence.
    unfold session_at. by destruct (sessions _ !! k). }
  split.
  - split; [| |cbn|done].
    + intros k y. rewrite Hat. case_decide as Hk; [subst k|by apply Hf]. intros [= <-]. unfold filed in *. cbn [open_conns lost set_sessions].
      assert (open_of (id x) (open_conns w ++ lost w) = 0) as ->; [|done].
      unfold open_of. assert (filter (fun j => j = id x) (open_conns w ++ lost w) = []) as ->; [|done].
      apply elem_of_nil_inv. intros j [-> [y Hj]%Hcn]%list_elem_of_filter. congruence.
    + intros k Hk. unfold known. rewrite Hat. case_decide; [by eexists|]. by apply Hcn.
    + rewrite map_size_insert. destruct (sessions (sessions_of w) !! id x); unfold Datatypes.id; lia.
  - split; auto; try reflexivity.
    + intros k. unfold known. rewrite Hat. case_decide; [by eexists|done].
    + intros k [y Hk]. unfold listed. cbn. rewrite lookup_insert. case_decide; [|done]. subst. congruence.
Qed.

Definition plans_hold w : Prop := plans_sound (listed w) (known w) (plans w).

(** What a region leaves for its own task and the others. *)
Record outcome (n : Z) w (c : Call) w' (c' : Call) : Prop := {
  oc_sessions : sessions_sound (n - is_creating c + is_creating c') w';
  oc_plans : plans_hold w';
  oc_evolves : evolves (taken c) w w';
  oc_call : call_sound w' c';
  oc_taken i : taken c' = Some i -> i = next_id (plans w) /\ next_id (plans w) < next_id (plans w');
}.

Lemma plans_hold_evolves own w w' : plans w' = plans w -> evolves own w w' -> plans_hold w -> plans_hold w'.
Proof. unfold plans_hold. intros -> [Hk Hl _ _ _]. by apply plans_sound_evolve. Qed.

(** A region that only looks. *)
Lemma outcome_same n w c c' :
  sessions_sound n w -> plans_hold w -> is_creating c' <= is_creating c -> taken c' = None -> call_sound w c' -> outcome n w c w c'.
Proof.
  intros Hs Hp Ha Ht Hc. split; try done; [|apply evolves_refl|by rewrite Ht]. eapply sessions_sound_fewer; [|exact Hs]. lia.
Qed.

(** A region on the sessions. *)
Lemma outcome_sessions n w c w' c' :
  is_creating c' <= is_creating c -> taken c' = None -> plans w' = plans w -> plans_hold w ->
  sessions_sound n w' -> evolves (taken c) w w' -> call_sound w' c' -> outcome n w c w' c'.
Proof.
  intros Ha Ht Hpl Hp Hs He Hc. split; try done; [|by eapply plans_hold_evolves|by rewrite Ht].
  eapply sessions_sound_fewer; [|exact Hs]. lia.
Qed.

(** A region on the plans. *)
Lemma outcome_plans n w c w' c' :
  is_creating c' <= is_creating c -> sessions_of w' = sessions_of w -> dropped w' = dropped w -> open_conns w' = open_conns w -> lost w' = lost w ->
  sv_config (service w') = sv_config (service w) -> sv_paths (service w') = sv_paths (service w) ->
  next_id (plans w) <= next_id (plans w') -> t_config (plans w') = t_config (plans w) ->
  (forall i, is_Some (entries (plans w') !! i) -> is_Some (entries (plans w) !! i) \/ taken c = Some i) ->
  plans_sound (listed w) (known w) (plans w') -> sessions_sound n w -> call_sound w' c' ->
  (forall i, taken c' = Some i -> i = next_id (plans w) /\ next_id (plans w) < next_id (plans w')) -> outcome n w c w' c'.
Proof.
  intros Ha Hs Hd Ho Hlo Hc1 Hc2 Hn Hc He Hp Hss Hc' Ht.
  assert (forall k, session_at w' k = session_at w k) as Hat by (intros k; unfold session_at; by rewrite Hs, Hd).
  assert (forall k, known w' k <-> known w k) as Hk by (intros k; unfold known; by rewrite Hat).
  assert (forall k, listed w' k <-> listed w k) as Hl by (intros k; unfold listed; by rewrite Hs).
  split; try done.
  - eapply (sessions_sound_fewer n); [lia|]. destruct Hss as [Hf Hcn Hsz Hcf]. split.
    + intros k x. rewrite Hat, Ho, Hlo. apply Hf.
    + intros k. rewrite Ho, Hlo, Hk. apply Hcn.
    + by rewrite Hs.
    + by rewrite Hs.
  - eapply plans_sound_evolve; [| |exact Hp]; intros k; rewrite ?Hk, ?Hl; auto.
  - split; try done; [intros k; by rewrite Hk|intros k; by rewrite Hl|]. by rewrite Hs.
Qed.

Lemma next_request_id_small (t : TransferRegistry D) :
  0 < next_id t -> next_id t + 1 < two32 -> TransferRegistry.next_request_id t =
  (next_id t, {| entries := entries t; by_session := by_session t; next_id := next_id t + 1; t_config := t_config t |}).
Proof.
  intros H1' H2'. unfold TransferRegistry.next_request_id. destruct (Z.eqb_spec (next_id t) 0); [lia|].
  unfold u32. by rewrite Z.mod_small by lia.
Qed.

(** *** The regions of the session table *)

Lemma made_outcome n w client streams now rid rtok calls :
  config_valid config -> is_u32 streams -> admissible workers w calls (Makes (F := F) (D := D) rid rtok) ->
  sessions_sound n w -> plans_hold w ->
  outcome n w (Creating client streams now)
    (match SessionRegistry.new_session (sessions_of w) client streams now rid rtok with
     | Ok x => set_sessions w (SessionRegistry.create_insert (sessions_of w) x) | _ => w end) Idle.
Proof.
  intros Hv Hq [Hid Htok] Hs Hp.
  assert (outcome n w (Creating client streams now) w Idle) as Hsame by (by apply outcome_same).
  unfold SessionRegistry.new_session. destruct rid as [k| |]; cbn [mbind result_bind]; [|done..].
  destruct rtok as [tok| |]; cbn [mbind result_bind]; [|done..].
  destruct Hid as [Hlk Hfresh].
  set (x := {| id := k |}). destruct (sessions_sound_made (n - 1) w x) as [Hs' He].
  - by replace (n - 1 + 1) with n by lia.
  - done.
  - unfold filed. subst x. cbn. do 4 (split; [done|]). unfold SessionRegistry.granted. rewrite (ss_config _ _ Hs). destruct Hv, Htyped.
    unfold is_u32, DEFAULT_STREAMS in *. destruct (Z.eqb_spec streams 0); lia.
  - split; [|by apply (plans_hold_evolves None w)|done..]. eapply sessions_sound_fewer; [|exact Hs']. cbn. lia.
Qed.

Lemma opens_outcome n w k presented x :
  known w k -> session_at w k = Some x -> sessions_sound n w -> plans_hold w ->
  outcome n w (Using k)
    (if constant_time_eq (token x) presented then
       match Session.open_data_conn x with
       | Ok x => set_conns (on_session w k (fun _ => x)) (k :: open_conns w) | _ => w end
     else w) Idle.
Proof.
  intros Hk Hx Hs Hp. assert (outcome n w (Using k) w Idle) as Hsame by (by apply outcome_same).
  destruct (constant_time_eq _ _); [|done]. destruct (ss_filed _ _ Hs k x Hx) as (Hid & Hlk & Htok & Hdc & Hle).
  pose proof (open_of_nonneg k (open_conns w ++ lost w)). unfold Session.open_data_conn.
  rewrite Session.open_alone_spec; [|lia|destruct Htyped; unfold is_u32 in *; lia].
  destruct (Z.leb_spec (granted_streams x) (data_conns x)) as [|Hlt]; [done|].
  match goal with |- outcome _ _ _ (set_conns (on_session w k ?f) ?cs) _ => assert (sessions_sound n (set_conns (on_session w k f) cs)) end.
  { apply sessions_sound_on; [| |done].
    - intros j y Hj Hy. unfold filed in *. rewrite <- app_comm_cons, open_of_cons. case_decide as Hkj; [|by rewrite Z.add_0_r].
      subst j. assert (y = x) as -> by congruence. cbn. split_and!; try done; lia.
    - rewrite <- app_comm_cons. intros j [->|Hj]%elem_of_cons; [done|]. by apply (ss_conns _ _ Hs). }
  apply outcome_sessions; try done. apply evolves_conns, evolves_on.
Qed.

Lemma without_subset k (l : list bytes) j : j ∈ Server.without k l -> j ∈ l.
Proof.
  induction l as [|i l IH]; [done|]. cbn. case_decide; [by right|]. intros [->|?]%elem_of_cons; [by left|right; auto].
Qed.

Lemma open_of_app k l l' : open_of k (l ++ l') = open_of k l + open_of k l'.
Proof. unfold open_of. rewrite filter_app, length_app. lia. Qed.

Lemma closes_outcome n w k :
  k ∈ open_conns w -> sessions_sound n w -> plans_hold w ->
  outcome n w Idle (set_conns (on_session w k Session.close_data_conn) (Server.without k (open_conns w))) Idle.
Proof.
  intros Hin Hs Hp.
  apply outcome_sessions; try done; [|apply evolves_conns, evolves_on]. apply sessions_sound_on; [| |done].
  - intros j x Hj (Hid & Hlk & Htok & Hdc & Hle). unfold filed. rewrite open_of_app in Hdc |- *. rewrite open_of_without by done. clear Hj.
    case_decide as Hkj; [|rewrite Z.sub_0_r; tauto]. rewrite <- Hkj in *. cbn.
    pose proof (open_of_nonneg k (Server.without k (open_conns w))) as Hpos. rewrite open_of_without, decide_True in Hpos by done.
    pose proof (open_of_nonneg k (lost w)).
    unfold u32. rewrite Z.mod_small; [split_and!; try done; lia|]. destruct Htyped. unfold is_u32 in *. lia.
  - intros j Hj. apply (ss_conns _ _ Hs). apply elem_of_app in Hj as [Hj%without_subset|Hj]; apply elem_of_app; auto.
Qed.

(** A connection that is gone without being counted out stays counted. *)
Lemma loses_outcome n w k :
  k ∈ open_conns w -> sessions_sound n w -> plans_hold w -> outcome n w Idle (lose_conn w k) Idle.
Proof.
  intros Hin Hs Hp. assert (forall j, open_of j (open_conns (lose_conn w k) ++ lost (lose_conn w k)) = open_of j (open_conns w ++ lost w)) as Hsame.
  { intros j. cbn. rewrite !open_of_app, open_of_cons, open_of_without by done. case_decide; lia. }
  apply outcome_sessions; try done; [|by split; auto]. destruct Hs as [Hf Hcn Hsz Hcf]. split; try done.
  - intros j x Hj. specialize (Hf j x Hj). unfold filed in *. by rewrite Hsame.
  - intros j Hj. apply Hcn. cbn in Hj. apply elem_of_app in Hj as [Hj%without_subset|[->|Hj]%elem_of_cons]; apply elem_of_app; auto.
Qed.

(** Activity on a data connection, which only a session that is listed notices. *)
Lemma touch_outcome n w k now :
  sessions_sound n w -> plans_hold w -> outcome n w Idle (set_sessions w (SessionRegistry.touch (sessions_of w) k now)) Idle.
Proof.
  intros Hs Hp.
  assert (forall j, session_at (set_sessions w (SessionRegistry.touch (sessions_of w) k now)) j =
    session_at (on_session w k (fun x => Session.touch x now)) j \/
    session_at (set_sessions w (SessionRegistry.touch (sessions_of w) k now)) j = session_at w j) as Hat.
  { intros j. rewrite session_at_set, session_at_on. cbn. rewrite lookup_alter. case_decide; [subst|].
    - destruct (sessions (sessions_of w) !! j) eqn:Hj; [left|by right]. cbn. unfold session_at. by rewrite Hj.
    - right. unfold session_at. by destruct (sessions _ !! j). }
  pose proof (sessions_sound_kept n w k (fun x => Session.touch x now) (fun _ => eq_refl) Hs) as [Hf Hcn Hsz Hcf].
  apply outcome_sessions; try done.
  - split; [| |exact Hsz|exact Hcf].
    + intros j x. destruct (Hat j) as [-> | ->]; [apply Hf|apply Hs].
    + intros j Hj. unfold known. destruct (Hat j) as [-> | ->]; [by apply Hcn|by apply Hs].
  - split; auto; try reflexivity.
    + intros j Hj. unfold known. destruct (Hat j) as [-> | ->]; [by apply (evolves_on None)|done].
    + intros j _. unfold listed. cbn. rewrite lookup_alter. case_decide; [subst|done]. by rewrite fmap_is_Some.
Qed.

Lemma session_region n w c a w' c' :
  match a with
  | Judges _ | Drops | Marks | TakesHandle | PutsFile _ | ClosesFile _ | Warns | Removes | Returns | Finds _ | TouchesSession _ _ | SweepsSessions _ => True
  | _ => False
  end ->
  sessions_sound n w -> plans_hold w -> call_sound w c -> act w c a = Some (w', c') -> outcome n w c w' c'.
Proof.
  intros Ha Hs Hp Hc Hact.
  assert (forall k r c0 c1, s_config r = s_config (sessions_of w) -> (forall j x, sessions r !! j = Some x -> sessions (sessions_of w) !! j = Some x) ->
    taken c1 = None -> is_creating c1 <= is_creating c0 -> (c1 = Idle \/ c1 = Leaving k /\ known w k /\ sessions r !! k = None) ->
    outcome n w c0 (set_sessions w r) c1) as Hshrink.
  { intros k r c0 c1 Hcf Hsub Ht Had Hc1. destruct (evolves_shrink (taken c0) w r Hcf Hsub) as [He Hat].
    apply outcome_sessions; try done; [by apply sessions_sound_shrink|]. destruct Hc1 as [->|(-> & Hk & Hr)]; [done|].
    cbn. unfold known, listed. cbn. rewrite Hat, Hr. split; [done|]. by intros [? ?]. }
  assert (forall k f c1, (forall x, credentials (f x) = credentials x) -> taken c1 = None -> is_creating c1 <= is_creating c ->
    call_sound w c1 -> outcome n w c (on_session w k f) c1) as Hon.
  { intros k f c1 Hf Ht Had Hc1. apply outcome_sessions; try done; [by apply sessions_sound_kept|apply evolves_on|].
    eapply call_evolves; [apply (evolves_on None)|by left|done]. }
  assert (forall k j x, sessions (SessionRegistry.with_sessions (sessions_of w) (delete k (sessions (sessions_of w)))) !! j = Some x ->
    sessions (sessions_of w) !! j = Some x) as Hdel by (intros k j x Hj; cbn in Hj; by apply lookup_delete_Some in Hj as [_ Hj]).
  assert (forall c1, taken c1 = None -> is_creating c1 <= is_creating c -> call_sound w c1 -> outcome n w c w c1) as Hsame
    by (intros; by apply outcome_same).
  destruct a, c; try done; cbn in Hact, Hc; try (injection Hact as <- <-; auto; fail).
  - injection Hact as <- <-. apply Hsame; destruct (sessions (sessions_of w) !! k) eqn:Hk; try done. apply listed_known. by eexists.
  - destruct (session_at w k) as [x|]; [|done]. injection Hact as <- <-. by destruct (Session.is_expired _ _ _); apply Hsame.
  - injection Hact as <- <-. apply (Hshrink k); try done; [apply Hdel|by left].
  - injection Hact as <- <-. by apply Hon.
  - destruct (session_at w k) as [x|]; [|done]. injection Hact as <- <-. by apply Hon.
  - injection Hact as <- <-. by apply Hon.
  - destruct (session_at w k) as [x|]; [|done]. injection Hact as <- <-. destruct (FileRegistry.remove _ _); [by apply Hon|by apply Hsame..].
  - injection Hact as <- <-. apply outcome_sessions; try done; [destruct Hs; by split|by split; auto].
  - injection Hact as <- <-. apply (Hshrink k); try done; [apply Hdel|]. right.
    split; [done|]. split; [done|]. apply lookup_delete_eq.
  - injection Hact as <- <-. by apply Hsame.
  - injection Hact as <- <-. by apply touch_outcome.
  - injection Hact as <- <-. apply (Hshrink []); try done; [|by left]. intros j x Hj. cbn in Hj. by apply map_lookup_filter_Some in Hj as [? _].
Qed.

Lemma plan_region n w calls c a w' c' :
  match a with
  | Reserves | Registers _ _ _ _ | Forgets | Seeks _ | JudgesPlan _ _ _ | DropsPlan | MarksPlan | TouchesPlan _ _ | SweepsPlans _ _ _ => True
  | _ => False
  end ->
  admissible workers w calls a -> sessions_sound n w -> plans_hold w -> call_sound w c -> act w c a = Some (w', c') -> outcome n w c w' c'.
Proof.
  intros Ha Hadm Hs Hp Hc Hact.
  assert (forall c1, taken c1 = None -> is_creating c1 <= is_creating c -> call_sound w c1 -> outcome n w c w c1) as Hsame
    by (intros; by apply outcome_same).
  assert (forall t c1, next_id t = next_id (plans w) -> t_config t = t_config (plans w) -> (forall i, is_Some (entries t !! i) -> is_Some (entries (plans w) !! i)) ->
    plans_sound (listed w) (known w) t -> c1 = Idle -> outcome n w c (set_plans w t) c1) as Hset.
  { intros t c1 Hn Hcf He Hpl ->. apply outcome_plans; try done; [by destruct c|cbn; lia|auto]. }
  assert (forall i now, outcome n w c (on_plan w i (fun e => TransferEntry.touch e now)) Idle) as Htouch.
  { intros i now. apply outcome_plans; try done; [by destruct c| |by apply touched_sound].
    intros j. cbn. rewrite lookup_alter. case_decide; [subst|by left]. rewrite fmap_is_Some. by left. }
  destruct a, c; try done; cbn in Hact, Hc, Hadm; try (injection Hact as <- <-; auto; fail).
  - rewrite next_request_id_small in Hact by (done || apply Hp). injection Hact as <- <-.
    destruct Hp as [Hid Hls Hown Hidx Hn Hcap]. apply outcome_plans; try done; cbn; try lia; [by left| | |].
    + split; cbn; try done; [|lia]. intros i e He. destruct (Hid i e He) as (? & ? & ?). split; [done|]. split; [lia|done].
    + split; [done|]. split; [lia|]. apply eq_None_not_Some. intros [e He]. destruct (Hid _ e He) as (_ & ? & _). lia.
    + intros i [= <-]. lia.
  - injection Hact as <- <-. destruct Hc as (Hk & Hi & Hfree).
    destruct (register_sound (listed w) (known w) (plans w) i k d l now ticket Hp Hk Hi Hfree) as (Hpl & Hn & Hcf & He).
    apply outcome_plans; try done; [by apply Z.eq_le_incl|]. intros j [?| ->]%He; [by left|by right].
  - injection Hact as <- <-. destruct Hc as [_ Hnl].
    apply Hset; try done; [..|by apply remove_session_sound]; unfold TransferRegistry.remove_session; destruct (by_session (plans w) !! k) as [ids|]; try done.
    intros i [e He]. cbn in He. rewrite lookup_foldl_delete in He. case_decide; [done|]. by eexists.
  - injection Hact as <- <-. by destruct (entries (plans w) !! i); apply Hsame.
  - destruct (plan_at w i) as [e|]; [|done]. injection Hact as <- <-.
    destruct (TransferEntry.is_expired _ _ _); [by apply Hsame|]. by destruct (_ || _); apply Hsame.
  - injection Hact as <- <-.
    apply Hset; try done; [..|by apply remove_sound]; unfold TransferRegistry.remove; destruct (entries (plans w) !! i) as [e|]; try done.
    intros j [e' He']. cbn in He'. apply lookup_delete_Some in He' as [_ He']. by eexists.
  - injection Hact as <- <-. apply Hset; try done; [|by apply sweep_sound; [intros k Hk; apply Hadm|]].
    intros i [e He]. cbn in He. apply map_lookup_filter_Some in He as [He _]. by eexists.
Qed.

Lemma act_outcome w calls c a w' c' :
  config_valid config -> admissible workers w calls a -> sessions_sound (creating calls) w -> plans_hold w -> call_sound w c ->
  act w c a = Some (w', c') -> outcome (creating calls) w c w' c'.
Proof.
  intros Hv Hadm Hs Hp Hc Hact.
  destruct a; try (eapply session_region; [| | | |exact Hact]; [exact I|done..]); try (eapply plan_region; [|exact Hadm| | | |exact Hact]; [exact I|done..]);
    destruct c; try done; cbn in Hact, Hc, Hadm.
  - injection Hact as <- <-. unfold SessionRegistry.create_test. rewrite (ss_config _ _ Hs). destruct Hadm as [Hq Hn].
    destruct (Z.leb_spec (max_sessions (limits config)) (Z.of_nat (size (sessions (sessions_of w))))); [by apply outcome_same|].
    split; try done; [|apply evolves_refl]. destruct Hs as [Hf Hcn Hsz Hcf]. split; try done. cbn. lia.
  - injection Hact as <- <-. by apply (made_outcome _ _ _ _ _ _ _ calls).
  - destruct (session_at w k) as [x|] eqn:Hx; [|done]. injection Hact as <- <-. by apply opens_outcome.
  - injection Hact as <- <-. by apply closes_outcome.
  - injection Hact as <- <-. by apply loses_outcome.
Qed.

(** Between any two regions. *)
Record sound w (calls : list Call) : Prop := {
  sd_sessions : sessions_sound (creating calls) w;
  sd_plans : plans_hold w;
  sd_calls i c : calls !! i = Some c -> call_sound w c;
  sd_taken i j c c' n : calls !! i = Some c -> calls !! j = Some c' -> taken c = Some n -> taken c' = Some n -> i = j;
  sd_config : sv_config (service w) = config /\ PathPolicy.new (roots config) = Ok (sv_paths (service w)) /\ t_config (plans w) = config;
}.

Lemma taken_next w c i : call_sound w c -> taken c = Some i -> i < next_id (plans w).
Proof. destruct c; try done. cbn. intros (_ & ? & _) [= <-]. lia. Qed.

Lemma moves_sound st st' : config_valid config -> moves workers st st' -> sound st.1 st.2 -> sound st'.1 st'.2.
Proof.
  intros Hv Hm [Hs Hp Hc Ht (Hc1 & Hc2 & Hc3)]. destruct Hm as [w calls i c a w' c' Hi Hadm Hact]. cbn [fst snd] in *.
  destruct (act_outcome w calls c a w' c' Hv Hadm Hs Hp (Hc i c Hi) Hact) as [Hs' Hp' He Hc' Ht']. split; try done.
  - unfold creating. by rewrite (total_insert _ calls i c c').
  - intros j d. rewrite list_lookup_insert_Some. intros [(<- & <- & _)|[Hne Hj]]; [done|]. apply (call_evolves (taken c) w); [done| |by eapply Hc].
    destruct (taken d) as [n|] eqn:Hd; [right|by left]. intros Heq. apply Hne. by apply (Ht i j c d n).
  - assert (forall j d n, calls !! j = Some d -> taken d = Some n -> taken c' <> Some n) as Hnew.
    { intros j d n Hj Hd Hn. destruct (Ht' n Hn) as [-> _]. pose proof (taken_next w d _ (Hc j d Hj) Hd). lia. }
    intros j k d e n. rewrite !list_lookup_insert_Some. intros [(<- & <- & _)|[Hnj Hj]] [(<- & <- & _)|[Hnk Hk]] Hd Hd2;
      [done|by destruct (Hnew k e n)|by destruct (Hnew j d n)|by apply (Ht j k d e n)].
  - destruct (ev_config _ _ _ He) as (-> & -> & _ & ->). done.
Qed.

Lemma started_sound sv data data_port control tasks :
  1 <= workers -> Server.bind s data data_port control = Ok sv -> config_valid config /\ sound (started sv) (replicate tasks Idle).
Proof.
  intros Hw Hbind. unfold Server.bind in Hbind. apply bind_ok in Hbind as ([] & Hval & Hbind). apply bind_ok in Hbind as (paths & Hpaths & Hbind).
  apply bind_ok in Hbind as (u0 & _ & Hbind). apply bind_ok in Hbind as (port & _ & Hbind). apply bind_ok in Hbind as (u & _ & [= <-]).
  assert (config_valid config) as Hv by (by apply (proj2 validate_exact config Htyped)). split; [done|].
  assert (forall i c, replicate tasks Idle !! i = Some c -> c = Idle) as Hidle by (by intros i c [? _]%lookup_replicate).
  assert (forall n, creating (replicate n Idle) = 0) as Hcr by (induction n; done).
  split.
  - rewrite Hcr. split; try done; cbn; [by intros k ?%not_elem_of_nil|]. rewrite map_size_empty. destruct Hv. lia.
  - by apply plans_sound_new.
  - by intros i c ->%Hidle.
  - intros i j c c' n ->%Hidle. done.
  - done.
Qed.

Lemma reached_sound sv data data_port control tasks w calls :
  1 <= workers -> Server.bind s data data_port control = Ok sv ->
  rtc (moves workers) (started sv, replicate tasks Idle) (w, calls) -> sound w calls.
Proof.
  intros Hw Hbind Hr. destruct (started_sound sv data data_port control tasks Hw Hbind) as [Hv Hs].
  change (sound (w, calls).1 (w, calls).2). change (sound (started sv, replicate tasks Idle).1 (started sv, replicate tasks Idle).2) in Hs.
  induction Hr as [st|st1 st2 st3 Hm _ IH]; [done|]. apply IH. by eapply moves_sound.
Qed.

(** C10: the server's tables stay sound however its calls interleave.  Started with any
    configuration that starts, with any number of calls at once that lose the processor between
    any two locked regions or atomic operations, and while fewer than 2^32 plans are prepared:
    the sessions are at most [max_sessions] and one more for every other thread that may be in
    [create_at], which tests the limit under one lock and inserts under another; every session,
    one that was dropped too while a connection still uses it, counts exactly the data
    connections counted in and not out, which are those still open and those lost, READY
    having failed to be written or the thread having panicked, and never more than it was
    granted; every plan is under its own identifier; what a session lists are its own plans,
    each once, at most [max_transfers_per_session]; and every plan of a session that is still
    there is listed. *)
Theorem regions_consistent sv data data_port control tasks w calls :
  1 <= workers -> Server.bind s data data_port control = Ok sv ->
  rtc (moves workers) (started sv, replicate tasks Idle) (w, calls) ->
  let r := sv_sessions (service w) in let t := sv_transfers (service w) in
  Z.of_nat (size (sessions r)) + creating calls <= max_sessions (limits config) + workers - 1 /\
  (forall k x, session_at w k = Some x ->
     id x = k /\ data_conns x = open_of k (open_conns w) + open_of k (lost w) /\ data_conns x <= granted_streams x <= max_streams_per_session (limits config)) /\
  (forall i e, entries t !! i = Some e -> te_request_id e = i /\ 0 < i /\
     (is_Some (sessions r !! te_session e) -> exists ids, by_session t !! te_session e = Some ids /\ i ∈ ids)) /\
  (forall k ids, by_session t !! k = Some ids -> NoDup ids /\ zlen ids <= max_transfers_per_session (limits config) /\
     forall i, i ∈ ids -> exists e, entries t !! i = Some e /\ te_session e = k) /\
  sv_config (service w) = config /\ PathPolicy.new (roots config) = Ok (sv_paths (service w)).
Proof.
  intros Hw Hbind Hr. destruct (reached_sound sv data data_port control tasks w calls Hw Hbind Hr) as [Hs Hp _ _ (Hc1 & Hc2 & Hc3)].
  cbv zeta. split; [apply (ss_size _ _ Hs)|]. split; [|split; [|split; [|done]]].
  - intros k x Hx. destruct (ss_filed _ _ Hs k x Hx) as (? & _ & _ & Hdc & ?). by rewrite open_of_app in Hdc.
  - intros i e He. destruct (ps_id _ _ _ Hp i e He) as (? & [? _] & _). split; [done|]. split; [done|]. by apply (ps_index _ _ _ Hp).
  - intros k ids Hids. destruct (ps_listed _ _ _ Hp k ids Hids) as [Hnd Hcap]. unfold cap in Hcap. rewrite Hc3 in Hcap.
    split; [done|]. split; [done|]. intros i Hi. by apply (ps_owned _ _ _ Hp k ids).
Qed.
End Shared.

(** ** Two threads past the limit

    A server of at most two sessions with two workers: both pass the test when there is one
    session, and there are three. *)

#[local] Existing Instance demo_build.
#[local] Existing Instance demo_half.
#[local] Existing Instance demo_half_num.
#[local] Existing Instance demo_fs.

(** The regions as they come, each with its task; [None] when one cannot. *)
Fixpoint interleaved {F D} (st : Shared F D * list Call) (turns : list (nat * Region F D)) : option (Shared F D * list Call) :=
  match turns with
  | [] => Some st
  | (i, a) :: turns =>
      c ← st.2 !! i;
      '(w, c') ← act st.1 c a;
      interleaved (w, <[i := c']> st.2) turns
  end.

(** Every one may. *)
Fixpoint allowed {F D} (workers : Z) (st : Shared F D * list Call) (turns : list (nat * Region F D)) : Prop :=
  match turns with
  | [] => True
  | (i, a) :: turns =>
      admissible workers st.1 st.2 a /\
      match c ← st.2 !! i; act st.1 c a with
      | Some (w, c') => allowed workers (w, <[i := c']> st.2) turns
      | None => True
      end
  end.

Lemma interleaved_moves {F D} workers (st st' : Shared F D * list Call) turns :
  interleaved st turns = Some st' -> allowed workers st turns -> rtc (moves workers) st st'.
Proof.
  revert st. induction turns as [|[i a] turns IH]; intros [w calls]; cbn; [by intros [= <-]|].
  destruct (calls !! i) as [c|] eqn:Hi; [|done]. cbn. destruct (act w c a) as [[w' c']|] eqn:Ha; [|done]. cbn.
  intros Ht [Hadm Hal]. eapply rtc_l; [by eapply moves_one|]. by apply IH.
Qed.

Definition demo_turns : list (nat * Region NullFile NullDataset) :=
  [(0%nat, Tests "a" 1 5); (0%nat, Makes (Ok (demo_id 3)) (Ok (demo_id 4)));
   (0%nat, Tests "b" 1 6); (1%nat, Tests "c" 1 7);
   (0%nat, Makes (Ok (demo_id 5)) (Ok (demo_id 6))); (1%nat, Makes (Ok (demo_id 7)) (Ok (demo_id 8)))].
Definition demo_shared : Shared NullFile NullDataset * list Call :=
  default (started demo_started, []) (interleaved (started demo_started, replicate 2 Idle) demo_turns).

Lemma demo_shared_reached : rtc (moves 2) (started demo_started, replicate 2 Idle) demo_shared.
Proof.
  apply (interleaved_moves 2 _ _ demo_turns); [vm_compute; reflexivity|]. vm_compute. repeat split; congruence.
Qed.

Lemma demo_bound : Server.bind demo_settings (fun _ => Ok tt) (Ok 50052) (Ok tt) = Ok demo_started.
Proof. vm_compute. reflexivity. Qed.

Lemma regions_consistent_witness :
  Z.of_nat (size (sessions (sv_sessions (service demo_shared.1)))) = 3 /\ max_sessions (limits demo_config) = 2 /\
  Z.of_nat (size (sessions (sv_sessions (service demo_shared.1)))) + 0 <= 2 + 2 - 1.
Proof.
  split; [vm_compute; reflexivity|]. split; [reflexivity|].
  exact (proj1 (regions_consistent demo_settings demo_settings_typed 2 demo_started (fun _ => Ok tt) (Ok 50052) (Ok tt) 2
    demo_shared.1 demo_shared.2 ltac:(lia) demo_bound demo_shared_reached)).
Defined.

(** One lock is over the plans and the index, but the sweep asks under it, twice, about
    sessions that are under another.  A session that is disconnected between the two keeps a
    plan that its index no longer names, so that [remove_session] finds nothing to drop: the
    plan is there, and answers a fetch, until the next sweep. *)
Definition demo_orphan_turns : list (nat * Region NullFile NullDataset) :=
  [(0%nat, Tests "a" 1 5); (0%nat, Makes (Ok (demo_id 3)) (Ok (demo_id 4)));
   (0%nat, Finds (demo_id 3)); (0%nat, Judges 5); (0%nat, Marks); (0%nat, Reserves);
   (0%nat, Registers Reader.demo_null demo_plan_layout 5 (Ok (demo_ticket 9))); (0%nat, Removes);
   (1%nat, SweepsPlans 6 (fun _ _ => true) (fun _ => false)); (0%nat, Forgets)].

Theorem sweep_can_orphan :
  exists w calls, rtc (moves 2) (started demo_started, replicate 2 Idle) (w, calls) /\
    sessions (sessions_of w) !! demo_id 3 = None /\ by_session (plans w) !! demo_id 3 = None /\
    exists e, (TransferRegistry.fetch (plans w) 1 (demo_ticket 9) (demo_id 3) 7).1 = Ok e /\ te_session e = demo_id 3.
Proof.
  destruct (interleaved (started demo_started, replicate 2 Idle) demo_orphan_turns) as [[w calls]|] eqn:Hi; [|by vm_compute in Hi].
  exists w, calls. split; [|by vm_compute in Hi; injection Hi as <- <-; vm_compute; eauto].
  apply (interleaved_moves 2 _ _ demo_orphan_turns Hi). vm_compute. repeat split; try congruence; by match goal with Hk : exists _, _ |- _ => destruct Hk end.
Qed.
