(* ===== verification/RegionsAlone.v ===== *)
(** A call of [Server.serve], or any other activity of [Server.perform], is one way through
    the regions: run by one task with no other in between, they leave what [perform] says. *)
From stdpp Require Import strings gmap relations.
From S2P Require Import Prelude Errors Dtype Bytes Quality Handshake Selection Cast Layout Text Backend Null Convert Config Paths Session Transfer Reduce ReduceNumpy LayoutSpec Reader DataPlane Control ControlSpec ControlServes Listener Server ServerSpec Regions RegionsSpec.

Import Regions ControlService.

Section Alone.
Context `{Build, HalfLib, HalfNum, Fs}.
Context {F D : Type} `{!ArrayDataset D, !ArrayFile F D, !Backends F D}.
#[local] Abbreviation Shared := (Shared F D).
#[local] Abbreviation Service := (Service F D).
Implicit Types (w : Shared) (k : bytes).

(** One task alone, on one worker. *)
Definition reaches w (c : Call) w' (c' : Call) : Prop := rtc (moves 1) (w, [c]) (w', [c']).

Lemma reaches_refl w c : reaches w c w c.
Proof. apply rtc_refl. Qed.

Lemma reaches_trans w1 c1 w2 c2 w3 c3 : reaches w1 c1 w2 c2 -> reaches w2 c2 w3 c3 -> reaches w1 c1 w3 c3.
Proof. unfold reaches. intros. by etrans. Qed.

Lemma reaches_region w c a w' c' : admissible 1 w [c] a -> act w c a = Some (w', c') -> reaches w c w' c'.
Proof. intros Hadm Hact. apply rtc_once. by apply (moves_one 1 w [c] 0 c a). Qed.

(** One more region in front. *)
Lemma reaches_then w c a w1 c1 w' c' :
  admissible 1 w [c] a -> act w c a = Some (w1, c1) -> reaches w1 c1 w' c' -> reaches w c w' c'.
Proof. intros Hadm Hact. apply reaches_trans. by eapply reaches_region. Qed.

(** ** Part of a handler

    From [c] to [c'] when it answers, with what is then known of the answer; back to [Idle]
    when it fails. *)

Definition runs {E A} w (c : Call) (r : Service * result E A) (c' : Call) (P : A -> Shared -> Prop) : Prop :=
  exists w', service w' = r.1 /\ open_conns w' = open_conns w /\
    match r.2 with Ok a => reaches w c w' c' /\ P a w' | _ => reaches w c w' Idle end.

(** A whole one. *)
Definition completes w (sv : Service) (conns : list bytes) : Prop :=
  exists w', service w' = sv /\ open_conns w' = conns /\ reaches w Idle w' Idle.

Lemma runs_bind {E A B} w c (m : Service * result E A) (f : Service -> A -> Service * result E B) c1 c2 P Q :
  runs w c m c1 P -> (forall a w1, P a w1 -> runs w1 c1 (f (service w1) a) c2 Q) -> runs w c (sbind m f) c2 Q.
Proof.
  intros (w1 & Hs1 & Ho1 & Hm) Hf. destruct m as [sv [a|e|]]; cbn [sbind fst snd] in *.
  - destruct Hm as [Hr HP]. destruct (Hf a w1 HP) as (w2 & Hs2 & Ho2 & Hr2). rewrite Hs1 in *.
    exists w2. split; [done|]. split; [congruence|]. destruct (f sv a).2; [destruct Hr2 as [Hr2 ?]; split; [|done]|..];
      by eapply reaches_trans.
  - by exists w1.
  - by exists w1.
Qed.

(** What a handler works out without touching anything shared. *)
Lemma runs_pure {E A} w k (r : result E A) (P : A -> Shared -> Prop) :
  (forall a, r = Ok a -> P a w) -> runs w (Using k) (service w, r) (Using k) P.
Proof.
  intros HP. exists w. split; [done|]. split; [done|]. cbn. destruct r; [split; [apply reaches_refl|by apply HP]|..];
    by eapply (reaches_region w _ Returns).
Qed.

Lemma runs_completes {E A} w (r : Service * result E A) k P : runs w Idle r (Using k) P -> completes w r.1 (open_conns w).
Proof.
  intros (w' & Hs & Ho & Hr). exists w'. split; [done|]. split; [done|].
  destruct r.2; [destruct Hr as [Hr _]; eapply reaches_trans; [exact Hr|]; by eapply (reaches_region w' _ Returns)|done..].
Qed.

Lemma completes_refl w : completes w (service w) (open_conns w).
Proof. exists w. split; [done|]. split; [done|]. apply reaches_refl. Qed.

Lemma completes_trans w w1 c sv conns : reaches w Idle w1 Idle -> open_conns w1 = c -> completes w1 sv conns -> completes w sv conns.
Proof. intros Hr _ (w' & ? & ? & ?). exists w'. split; [done|]. split; [done|]. by eapply reaches_trans. Qed.

(** ** The session *)

(** The task has the session [x], which is listed. *)
Definition has k (x : Session F) w : Prop := sessions (sessions_of w) !! k = Some x /\ id x = k.

Lemma has_at k x w : has k x w -> session_at w k = Some x.
Proof. intros [Hx _]. unfold session_at. by rewrite Hx. Qed.

Lemma alter_insert_sessions (m : gmap bytes (Session F)) k x f : m !! k = Some x -> alter f k m = <[k := f x]> m.
Proof.
  intros Hk. apply map_eq. intros j. rewrite lookup_alter, lookup_insert. case_decide; [|done]. subst. by rewrite Hk.
Qed.

Lemma service_same (sv : Service) : with_sessions sv (sv_sessions sv) = sv.
Proof. by destruct sv. Qed.

Definition filed_right w : Prop := forall k x, sessions (sessions_of w) !! k = Some x -> id x = k.

Lemma session_of_runs w k now :
  filed_right w -> runs w Idle (session_of (service w) k now) (Using k) (fun x w' => has k x w' /\ plans w' = plans w).
Proof.
  intros Hf. unfold session_of, SessionRegistry.get_at. fold (sessions_of w).
  assert (forall e : ServerError, runs w Idle (with_sessions (service w) (sessions_of w), Err (A := Session F) e) (Using k) (fun x w' => has k x w' /\ plans w' = plans w)) as Hno.
  { intros e. exists w. cbn. split; [by rewrite service_same|]. split; [done|]. apply reaches_refl. }
  destruct (negb _); [apply Hno|]. destruct (sessions (sessions_of w) !! k) as [x|] eqn:Hk; [|apply Hno].
  assert (act w Idle (Finds k) = Some (w, Found k)) as H1' by (cbn; by rewrite Hk).
  assert (session_at w k = Some x) as Hat by (unfold session_at; by rewrite Hk).
  destruct (Session.is_expired x now (SessionRegistry.idle_timeout_ms (sessions_of w))) eqn:He.
  - eexists (set_sessions w _). split; [done|]. split; [done|]. cbn [snd].
    eapply reaches_then; [|exact H1'|]; [done|]. eapply (reaches_then _ _ (Judges now)); [done|cbn; rewrite Hat; cbn; by rewrite He|].
    by eapply (reaches_region _ _ Drops).
  - exists (on_session w k (fun x => Session.touch x now)). split; [|split; [done|]]; cbn [fst snd].
    + unfold on_session. cbn [service]. by rewrite (alter_insert_sessions _ k x).
    + split; [|split; [split; [|exact (Hf k x Hk)]|done]].
      * eapply reaches_then; [|exact H1'|]; [done|]. eapply (reaches_then _ _ (Judges now)); [done|cbn; rewrite Hat; cbn; by rewrite He|].
        by eapply (reaches_region _ _ Marks).
      * cbn. by rewrite lookup_alter_eq, Hk.
Qed.

(** ** The files *)

Lemma put_files_same w k x f fs :
  has k x w -> (forall y, f y = with_files y fs) -> service (on_session w k f) = put_files (service w) k fs.
Proof.
  intros [Hx _] Hf. unfold put_files, on_session. cbn [service]. do 2 f_equal. fold (sessions_of w).
  rewrite !(alter_insert_sessions _ k x) by done. by rewrite Hf.
Qed.

Lemma insert_file_runs w k x file : has k x w -> runs w (Using k) (insert_file (service w) x file) (Using k) (fun _ _ => True).
Proof.
  intros Hx. unfold insert_file, FileRegistry.insert. cbn [FileRegistry.take_handle].
  set (h := next_handle (s_files x)). set (fs := {| files := files (s_files x) |}).
  set (w1 := on_session w k (fun x => with_files x fs)).
  assert (has k (with_files x fs) w1) as Hx1 by (split; [cbn; destruct Hx as [Hx _]; by rewrite lookup_alter_eq, Hx|apply Hx]).
  exists (on_session w1 k (fun x => with_files x (FileRegistry.put (s_files x) h file))). split; [|split; [done|]]; cbn [fst snd].
  - destruct Hx as [Hx Hid]. unfold put_files, Session.get_id. rewrite Hid. subst w1. unfold on_session. cbn. f_equal. f_equal.
    rewrite (alter_insert_sessions (sessions (sessions_of w)) k x) by done.
    rewrite (alter_insert_sessions _ k (with_files x fs)) by apply lookup_insert_eq. rewrite insert_insert_eq.
    by rewrite (alter_insert_sessions _ k x).
  - split; [|done]. eapply (reaches_then _ _ TakesHandle); [done|cbn; by rewrite (has_at k x w Hx)|].
    by eapply (reaches_region _ _ (PutsFile file)).
Qed.

Lemma close_file_runs w rq now :
  filed_right w -> runs w Idle (close_file (service w) rq now) (Using (cf_session rq)) (fun _ _ => True).
Proof.
  intros Hf. eapply runs_bind; [by apply session_of_runs|]. cbn beta. intros x w1 [Hx _].
  eapply (runs_bind _ _ _ _ _ _ (fun fs w' => w' = w1 /\ FileRegistry.remove (s_files x) (cf_handle rq) = Ok fs)); [by apply runs_pure|].
  cbn beta. intros fs w2 [-> Hfs]. pose proof (proj2 Hx) as Hid. unfold Session.get_id. rewrite Hid.
  exists (on_session w1 (cf_session rq) (fun x => with_files x fs)). split; [by eapply put_files_same|]. split; [done|]. cbn. split; [|done].
  eapply (reaches_region _ _ (ClosesFile (cf_handle rq))); [done|]. cbn. rewrite (has_at _ x w1 Hx). cbn. by rewrite Hfs.
Qed.

Lemma open_runs w rq now : filed_right w -> runs w Idle (open (service w) rq now) (Using (of_session rq)) (fun _ _ => True).
Proof.
  intros Hf. unfold open. eapply runs_bind; [by apply session_of_runs|]. cbn beta. intros x w1 [Hx _].
  assert (forall {A} (r : result ServerError A) (f : Service -> A -> Service * result ServerError Z),
    (forall a, runs w1 (Using (of_session rq)) (f (service w1) a) (Using (of_session rq)) (fun _ _ => True)) ->
    runs w1 (Using (of_session rq)) (sbind (pure_step (service w1) r) f) (Using (of_session rq)) (fun _ _ => True)) as Hpure.
  { intros A r f Hr. eapply (runs_bind _ _ _ _ _ _ (fun _ w' => w' = w1)); [by apply runs_pure|]. intros a ? ->. apply Hr. }
  destruct (eq_ignore_ascii_case _ _).
  { destruct (negb _); [by apply runs_pure|]. apply Hpure. intros file. by apply insert_file_runs. }
  cbv zeta. case_decide; repeat (apply Hpure; intro); by apply insert_file_runs.
Qed.

(** ** The plans *)

Lemma check_cache_runs w k d streams :
  exists w', service w' = (check_decode_cache (service w) d streams).2 /\ open_conns w' = open_conns w /\
    reaches w (Using k) w' (Using k) /\ plans w' = plans w.
Proof.
  unfold check_decode_cache. destruct (decoded_chunk_bytes d) as [chunk_bytes|]; [destruct (_ <? _)|].
  2, 3: exists w; repeat split; apply reaches_refl.
  eexists {| service := with_warned (service w) true; dropped := dropped w; shelf := shelf w; open_conns := open_conns w; lost := lost w |}.
  repeat split. by eapply (reaches_region w _ Warns).
Qed.

Lemma insert_at_runs w k d l now ticket :
  next_id (plans w) + 1 < two32 ->
  exists w', service w' = with_transfers (service w) (TransferRegistry.insert_at (plans w) k d l now ticket).2 /\
    open_conns w' = open_conns w /\ reaches w (Using k) w' (Using k).
Proof.
  intros Hn. unfold TransferRegistry.insert_at. destruct (TransferRegistry.next_request_id (plans w)) as [i t] eqn:Ht.
  exists (set_plans (set_plans w t) (TransferRegistry.register t i k d l now ticket).2). split; [done|]. split; [done|].
  eapply (reaches_then _ _ Reserves); [done|cbn; by rewrite Ht|]. by eapply (reaches_region _ _ (Registers d l now ticket)).
Qed.

Lemma prepare_runs n w budget k rq m :
  service_ok n (service w) -> 1 <= n -> completes w (prepare (service w, budget) k rq m).1.1 (open_conns w).
Proof.
  intros [Hf _ (Hn1 & Hn2 & _)] Hn. unfold prepare.
  destruct (session_of_runs w k (m_lookup m) Hf) as (w1 & Hs1 & Ho1 & H1').
  destruct (session_of (service w) k (m_lookup m)) as [sv1 [x|e|]]; cbn [sbind fst snd] in *; [|by exists w1..].
  destruct H1' as [Hr [Hx Hp1]]. subst sv1. unfold pure_step.
  destruct (resolve_selection (service w1) x rq) as [[[d applied] l]| |]; cbn [sbind fst snd].
  2, 3: exists w1; split; [done|]; split; [done|]; eapply reaches_trans; [exact Hr|]; by eapply (reaches_region w1 _ Returns).
  destruct (check_cache_runs w1 k d (granted_streams x)) as (w2 & Hs2 & Ho2 & Hr2 & Hp2).
  destruct (check_decode_cache (service w1) d (granted_streams x)) as [warned sv2]. cbn [snd] in Hs2. subst sv2.
  destruct (_ && _).
  - assert (completes w (service w2) (open_conns w)) as Hdone.
    { exists w2. split; [done|]. split; [congruence|]. eapply reaches_trans; [exact Hr|]. eapply reaches_trans; [exact Hr2|].
      by eapply (reaches_region w2 _ Returns). }
    by destruct (map_err SCore _).
  - destruct (insert_at_runs w2 k d l (m_insert m) (m_ticket m)) as (w3 & Hs3 & Ho3 & Hr3).
    { rewrite Hp2, Hp1. unfold plans. lia. }
    assert (completes w (service w3) (open_conns w)) as Hdone.
    { exists w3. split; [done|]. split; [congruence|]. eapply reaches_trans; [exact Hr|]. eapply reaches_trans; [exact Hr2|].
      eapply reaches_trans; [exact Hr3|]. by eapply (reaches_region w3 _ Returns). }
    destruct Hx as [_ Hid]. unfold Session.get_id. rewrite Hid. rewrite Hs3 in Hdone. unfold plans in Hdone.
    by destruct (TransferRegistry.insert_at _ _ _ _ _ _) as [[e|e|] t].
Qed.

Lemma prepare_each_runs n w budget k rqs :
  service_ok (n + zlen rqs) (service w) -> 0 <= n -> completes w (prepare_each (service w, budget) k rqs).1.1 (open_conns w).
Proof.
  intros Hok Hn. revert w budget Hok. induction rqs as [|[rq m] rqs IH]; intros w budget Hok; cbn [prepare_each]; [apply completes_refl|].
  destruct (prepare_runs (n + zlen ((rq, m) :: rqs)) w budget k rq m Hok ltac:(cbn; lia)) as (w1 & Hs1 & Ho1 & Hr1).
  pose proof (prepare_conducts (n + zlen ((rq, m) :: rqs)) (service w, budget) k rq m ltac:(cbn; lia) Hok) as (Hok1 & _).
  destruct (prepare (service w, budget) k rq m) as [[sv1 b] plan]. cbn [fst] in *. subst sv1.
  replace (n + zlen ((rq, m) :: rqs) - 1) with (n + zlen rqs) in Hok1 by (cbn; lia). specialize (IH w1 b Hok1). rewrite Ho1 in IH.
  destruct plan; cbn [sbind]; [| |by exists w1].
  all: destruct (prepare_each (service w1, b) k rqs) as [st [?| |]]; cbn [sbind fst] in *;
    destruct IH as (w2 & ? & ? & ?); exists w2; (split; [done|]); (split; [done|]); by eapply reaches_trans.
Qed.

Lemma disconnect_runs w k now : filed_right w -> completes w (disconnect (service w) k now).1 (open_conns w).
Proof.
  intros Hf. destruct (session_of_runs w k now Hf) as (w1 & Hs1 & Ho1 & H1').
  unfold disconnect, SessionRegistry.remove. unfold session_of in *.
  destruct (SessionRegistry.get_at _ _ _) as [[x|e|] r]; cbn [sbind fst snd] in *; [|by exists w1..].
  destruct H1' as [Hr [[Hx Hid] Hp]]. unfold Session.get_id. rewrite Hid.
  set (w2 := set_sessions w1 (SessionRegistry.with_sessions (sessions_of w1) (delete k (sessions (sessions_of w1))))).
  exists (set_plans w2 (TransferRegistry.remove_session (plans w2) k).2). split; [|split; [done|]].
  - unfold w2, set_plans, set_sessions, plans, sessions_of. cbn. rewrite Hs1. cbn. by destruct (TransferRegistry.remove_session _ _).
  - eapply reaches_trans; [exact Hr|]. eapply (reaches_then _ _ Removes); [done..|]. by eapply (reaches_region w2 _ Forgets).
Qed.

(** ** Every call *)

Lemma serve_completes n w c :
  0 <= n -> service_ok (n + cost c) (service w) -> completes w (serve (service w) c).1 (open_conns w).
Proof.
  intros Hn Hok. pose proof (so_filed _ _ Hok) as Hf. change (filed_right w) in Hf.
  assert (forall k now, runs w Idle (session_of (service w) k now) (Using k) (fun x w' => has k x w' /\ plans w' = plans w)) as Hof
    by (intros; by apply session_of_runs).
  assert (forall k now handle, runs w Idle (file_of (service w) k handle now) (Using k) (fun _ _ => True)) as Hfile.
  { intros k now handle. eapply runs_bind; [apply Hof|]. intros. by apply runs_pure. }
  destruct c as [k now|rq now|rq now|rq now|rq now|rq m|k rqs now|rq now]; cbn [serve status fst cost] in *.
  - by apply disconnect_runs.
  - eapply runs_completes, (open_runs w rq now Hf).
  - eapply runs_completes, (close_file_runs w rq now Hf).
  - eapply (runs_completes w (ControlService.get_item (service w) rq now) _ (fun _ _ => True)), runs_bind; [apply Hfile|]. intros. by apply runs_pure.
  - eapply (runs_completes w (ControlService.list_children (service w) rq now) _ (fun _ _ => True)), runs_bind; [apply Hfile|]. intros. by apply runs_pure.
  - unfold prepare_selection. pose proof (prepare_runs (n + 1) w (two64 - 1) (ps_session rq) rq m Hok ltac:(lia)) as Hp.
    by destruct (prepare _ _ _ _) as [[sv b] plan].
  - unfold prepare_selections. destruct (Hof k now) as (w1 & Hs1 & Ho1 & H1').
    pose proof (session_of_conducts k (n + zlen rqs) (service w) now Hok) as (Hok1 & _).
    destruct (session_of (service w) k now) as [sv1 [x|e|]]; cbn [sbind fst snd] in *; [|by exists w1..]. subst sv1.
    pose proof (prepare_each_runs n w1 (grpc_max_message_bytes (limits (sv_config (service w1))) / 2) k rqs Hok1 Hn) as Hp. rewrite Ho1 in Hp.
    destruct (prepare_each _ _ _) as [[sv b] rs]. cbn [fst] in *. eapply completes_trans; [|done|exact Hp].
    destruct H1' as [Hr _]. eapply reaches_trans; [exact Hr|]. by eapply (reaches_region w1 _ Returns).
  - unfold apply_function. destruct (Hof (af_session rq) now) as (w1 & Hs1 & Ho1 & H1').
    unfold status. destruct (session_of (service w) (af_session rq) now) as [sv1 [x|e|]]; cbn [sbind fst snd map_err] in *; [|by exists w1..].
    subst sv1. exists w1. split; [done|]. split; [done|]. destruct H1' as [Hr _]. eapply reaches_trans; [exact Hr|].
    by eapply (reaches_region w1 _ Returns).
Qed.

(** ** Connections, fetches and the sweep *)

Lemma connect_completes w rq now rid rtok :
  is_u32 (cq_streams rq) -> admissible 1 w [] (Makes (F := F) (D := D) rid rtok) ->
  completes w (connect (service w) rq now rid rtok).1 (open_conns w).
Proof.
  intros Hq Hadm. unfold connect. destruct (negb _); [apply completes_refl|]. unfold SessionRegistry.create_at. fold (sessions_of w).
  assert (act w Idle (Tests (cq_client rq) (cq_streams rq) now) =
    Some (w, match SessionRegistry.create_test (sessions_of w) with Ok _ => Creating (cq_client rq) (cq_streams rq) now | _ => Idle end)) as Ht by done.
  destruct (SessionRegistry.create_test (sessions_of w)); cbn [mbind result_bind sbind fst].
  2, 3: rewrite service_same; apply completes_refl.
  eexists. split; [|split; [|eapply reaches_then; [|exact Ht|by eapply (reaches_region _ _ (Makes rid rtok))]; done]].
  - destruct (SessionRegistry.new_session _ _ _ _ _ _); cbn [sbind fst]; [done|by rewrite service_same..].
  - by destruct (SessionRegistry.new_session _ _ _ _ _ _).
Qed.

Lemma greets_completes w hello now :
  filed_right w ->
  let st := Server.perform (service w, open_conns w) (Server.Greets hello now) in completes w st.1 st.2.
Proof.
  intros Hf. cbn [Server.perform]. unfold check_hello. fold (sessions_of w).
  assert (completes w (with_sessions (service w) (sessions_of w)) (open_conns w)) as Hsame by (rewrite service_same; apply completes_refl).
  destruct (Hello.decode hello) as [h| |]; [|done..]. destruct (negb (hello_version h =? _)); [done|].
  destruct (session_of_runs w (session_id h) now Hf) as (w1 & Hs1 & Ho1 & H1'). unfold session_of in *.
  change (sv_sessions (service w)) with (sessions_of w) in *.
  destruct (SessionRegistry.get_at (sessions_of w) (session_id h) now) as [[x|e|] r] eqn:Hg; cbn [fst snd] in *; [|by exists w1..].
  destruct H1' as [Hr [Hx _]]. pose proof (has_at _ _ _ Hx) as Hat. destruct Hx as [Hx Hid].
  assert (sessions_of w1 = r) as Hr1 by (unfold sessions_of; by rewrite Hs1).
  assert (forall w', act w1 (Using (session_id h)) (OpensConn (session_token h)) = Some (w', Idle) -> reaches w Idle w' Idle) as Hopen.
  { intros w' Ha. eapply reaches_trans; [exact Hr|]. by apply (reaches_region w1 _ (OpensConn (session_token h))). }
  cbn [act session_act] in Hopen. rewrite Hat in Hopen. cbn [mbind option_bind] in Hopen.
  destruct (constant_time_eq _ _); cbn [negb] in *; [|exists w1; auto].
  destruct (Session.open_data_conn x) as [x'| |] eqn:Ho; cbn [fst snd]; [|exists w1; auto..].
  assert (id x' = session_id h) as Hid'.
  { unfold Session.open_data_conn in Ho. destruct (Session.open_alone _ _ _ _) as [[]]; try done. by injection Ho as <-. }
  eexists. split; [|split; [|by apply Hopen]]; cbn [service set_conns on_session open_conns]; [|by rewrite Hid', Ho1].
  rewrite Hs1, Hr1. rewrite Hr1 in Hx. rewrite (alter_insert_sessions _ _ x) by done.
  unfold SessionRegistry.create_insert. by rewrite Hid'.
Qed.

Lemma fetch_completes w i ticket session now :
  completes w (with_transfers (service w) (TransferRegistry.fetch (plans w) i ticket session now).2) (open_conns w).
Proof.
  assert (completes w (with_transfers (service w) (plans w)) (open_conns w)) as Hsame.
  { assert (with_transfers (service w) (plans w) = service w) as -> by (unfold plans; by destruct (service w)). apply completes_refl. }
  unfold TransferRegistry.fetch. destruct (entries (plans w) !! i) as [e|] eqn:Hi; [|done].
  assert (act w Idle (Seeks i) = Some (w, Holding i)) as H1' by (cbn; by rewrite Hi).
  assert (forall c, act w (Holding i) (JudgesPlan ticket session now) = Some (w, c) -> reaches w Idle w c) as H2'.
  { intros c Hc. eapply reaches_then; [|exact H1'|]; [done|]. by eapply (reaches_region w _ (JudgesPlan ticket session now)). }
  cbn [act plan_act] in H2'. unfold plan_at in H2'. rewrite Hi in H2'. cbn [mbind option_bind] in H2'.
  destruct (TransferEntry.is_expired _ _ _); [|destruct (_ || _); [done|]]; cbn [snd].
  - eexists (set_plans w _). split; [done|]. split; [done|]. eapply reaches_trans; [by apply H2'|]. by eapply (reaches_region w _ DropsPlan).
  - eexists (on_plan w i (fun e => TransferEntry.touch e now)). split; [|split; [done|]].
    + unfold on_plan. cbn [service]. by rewrite insert_touched.
    + eapply reaches_trans; [by apply H2'|]. by eapply (reaches_region w _ MarksPlan).
Qed.

Lemma one_region w a w' : admissible 1 w [Idle] a -> act w Idle a = Some (w', Idle) -> completes w (service w') (open_conns w').
Proof. intros Hadm Hact. exists w'. split; [done|]. split; [done|]. by eapply reaches_region. Qed.

Lemma sweep_completes w now now' : completes w (Server.sweep (service w) now now').2 (open_conns w).
Proof.
  unfold Server.sweep. change (sv_sessions (service w)) with (sessions_of w). change (sv_transfers (service w)) with (plans w).
  set (w1 := set_sessions w (SessionRegistry.sweep_expired_at (sessions_of w) now).2).
  set (live := SessionRegistry.contains (SessionRegistry.sweep_expired_at (sessions_of w) now).2).
  exists (set_plans w1 (TransferRegistry.sweep_answers (plans w1) now' (fun _ => live) live).2). split; [done|]. split; [done|].
  eapply (reaches_then _ _ (SweepsSessions now)); [done..|]. eapply (reaches_region w1 _ (SweepsPlans now' (fun _ => live) live)); [|done].
  assert (forall k, is_Some (sessions (sessions_of w1) !! k) -> live k = true) as Hl by (intros k Hk; by apply bool_decide_eq_true).
  intros k Hk. split; [by apply Hl|]. intros _. by apply Hl.
Qed.

(** C11: the server of [Server.serves] is the server between its locks with nothing in
    between.  Whatever an activity does there in one step, a call of the control plane, with
    every element of its batch, a new session, a HELLO, a fetch, a connection's end, a turn of
    the sweep, one task alone does here region by region, and leaves the same tables and the
    same connections.  So what holds between any two regions of any interleaving,
    [regions_consistent], is about the handlers themselves. *)
Theorem calls_are_regions n w a :
  0 <= n -> service_ok (n + Server.activity_cost a) (service w) -> Server.fits (service w, open_conns w) a ->
  match a with Server.Connects _ _ random_id random_token => admissible 1 w [] (Makes (F := F) (D := D) random_id random_token) | _ => True end ->
  exists w', rtc (moves 1) (w, [Idle]) (w', [Idle]) /\ (service w', open_conns w') = Server.perform (service w, open_conns w) a.
Proof.
  intros Hn Hok Hfits Hadm.
  assert (completes w (Server.perform (service w, open_conns w) a).1 (Server.perform (service w, open_conns w) a).2) as (w' & Hs & Ho & Hr).
  2: { exists w'. split; [exact Hr|]. rewrite Hs, Ho. by destruct (Server.perform _ _). }
  pose proof (so_filed _ _ Hok) as Hf. change (filed_right w) in Hf.
  destruct a as [c|rq now rid rtok|hello now|k now|i ticket k now|e now|k|now now']; cbn [Server.activity_cost] in Hok.
  - by apply (serve_completes n).
  - apply connect_completes; [apply Hfits|done].
  - by apply greets_completes.
  - by apply (one_region w (TouchesSession k now) (set_sessions w (SessionRegistry.touch (sessions_of w) k now))).
  - apply fetch_completes.
  - by apply (one_region w (TouchesPlan (te_request_id e) now) (on_plan w (te_request_id e) (fun e => TransferEntry.touch e now))).
  - by apply (one_region w (ClosesConn k) (set_conns (on_session w k Session.close_data_conn) (Server.without k (open_conns w)))).
  - apply sweep_completes.
Qed.
End Alone.

(** ** A session that is disconnected *)

#[local] Existing Instance demo_build.
#[local] Existing Instance demo_half.
#[local] Existing Instance demo_half_num.
#[local] Existing Instance demo_fs.

Lemma demo_shared_ok : service_ok 0 (service demo_shared.1).
Proof.
  assert (sv_transfers (service demo_shared.1) = TransferRegistry.new demo_config) as Ht by (vm_compute; reflexivity).
  destruct (service_started (F := NullFile) (D := NullDataset) 0 (SessionRegistry.new demo_config) (sv_paths demo_started) demo_config "" 0)
    as [_ Hp Hr]; [unfold two32; lia|apply demo_config_valid|by intros k x Hk; cbn in Hk; rewrite lookup_empty in Hk|].
  split; rewrite ?Ht; [|exact Hp|exact Hr]. intros k x Hk.
  apply (ss_filed _ _ _ _ (sd_sessions _ _ _ _ (reached_sound demo_settings demo_settings_typed 2 demo_started (fun _ => Ok tt) (Ok 50052) (Ok tt) 2
    demo_shared.1 demo_shared.2 ltac:(lia) demo_bound demo_shared_reached)) k x).
  unfold session_at, sessions_of. by rewrite Hk.
Qed.

Lemma calls_are_regions_witness :
  exists w', rtc (moves 1) (demo_shared.1, [Idle]) (w', [Idle]) /\ sessions (sv_sessions (service w')) !! demo_id 5 = None.
Proof.
  destruct (calls_are_regions 0 demo_shared.1 (Server.Answers (RDisconnect (demo_id 5) 8)) ltac:(lia) demo_shared_ok I I) as (w' & Hr & Hw).
  exists w'. split; [exact Hr|]. change (service w') with (service w', open_conns w').1. rewrite Hw. vm_compute. reflexivity.
Defined.
