(* ===== verification/Pool.v ===== *)
(** The client's connection pool: [aex-client/src/pool.rs].  The threads of one transfer
    share a queue of chunks; each is a state machine whose steps are the regions the code
    runs under the lock and its calls on the network, whose outcomes are the events.  A
    region that ends in [notify_all] wakes the sleepers in the same step. *)
From S2P Require Import Prelude Errors Dtype Bytes Quality Codec Frame Handshake Scatter.

(** A range of the logical byte stream still to be fetched. *)
Record Chunk : Type := { part : nat; c_offset : Z; c_len : Z; attempts : Z }.

(** A chunk that has been asked for on a connection; it holds its claim on the buffer. *)
Record InFlight : Type := { chunk : Chunk; received : Z }.

(** What the threads of one transfer share. *)
Record State : Type := {
  queue : list Chunk;
  remaining : Z;
  live : Z;
  retries : Z;
  error : option ClientError;
  last_conn_error : option ClientError;
}.

Record FetchSpec : Type := { credit : Z; max_retries : Z }.

(** A plan's share of a batch, with what its buffer holds. *)
Record Part : Type := { pt_request_id : Z; pt_ticket : bytes; pt_dst : bytes }.

(** Where a thread is in [drive] and [step]: about to top up, asking for the chunks it
    took, reading a frame, waiting for the others; handing back what a broken connection
    had in flight, ending the transfer, rebuilding its connection, leaving. *)
Inductive Phase : Type :=
  | Topping
  | Asking (fresh : list Chunk)
  | Reading
  | Asleep
  | Breaking (e : ClientError) (exhausted : bool)
  | Failing (e : ClientError) (keep : bool)
  | Disconnected
  | Reconnecting
  | Leaving (e : option ClientError)
  | Gone.

Record Thread : Type := { phase : Phase; flight : list InFlight }.

Record Transfer : Type := {
  spec : FetchSpec;
  parts : list Part;
  state : State;
  threads : list Thread;
  wire_bytes : Z;
}.

(** ** One connection *)

Module DataConn.
Section Conn.
Context `{Build, CodecLib}.

(** Read one data frame into its place in the chunk starting at [offset], whose bytes
    are [dst]; [payload] is what the frame carries. *)
Definition receive_data (header : FrameHeader) (request : Z) (offset_ : Z) (dst payload : bytes)
    : result ClientError bytes :=
  if negb (request_id header =? request) then Err CProtocol
  else if negb (Codec.is_supported (codec header)) then Err CProtocol
  else
    let sane := if bool_decide (codec header = Raw) then wire_len header =? logical_len header
                else wire_len header <? logical_len header in
    if negb sane then Err CProtocol
    else
      match (start ← checked_sub (offset header) offset_;
             end_ ← checked_add start (logical_len header);
             if end_ <=? zlen dst then Some start else None) with
      | None => Err CProtocol
      | Some start =>
          if bool_decide (codec header = Raw) then splice_checked start payload dst
          else
            place ← slice_checked start (logical_len header) dst;
            expanded ← map_err (fun _ => CProtocol) (decompress_into (codec header) payload place);
            splice_checked start expanded dst
      end.

Definition receive_error (payload : bytes) : result ClientError ClientError :=
  error ← map_err ClientError.from_wire (ErrorPayload.decode payload);
  Ok (CData (payload_class error)).

(** What the server's READY says. *)
Definition check_ready (b : bytes) : result ClientError unit :=
  ready ← map_err ClientError.from_wire (Ready.decode b);
  if negb (Ready.is_accepted ready) then Err (CData (status ready)) else Ok tt.
End Conn.
End DataConn.

(** ** The shared state *)

Module Pool.
Definition with_queue (st : State) (q : list Chunk) : State :=
  {| queue := q; remaining := remaining st; live := live st; retries := retries st; error := error st;
     last_conn_error := last_conn_error st |}.

(** Put a chunk back at the front of the queue, counting it against its retries if
    [charge]; false once it has used them up. *)
Definition retry (sp : FetchSpec) (c : Chunk) (charge : bool) (st : State) : bool * State :=
  let c := {| part := part c; c_offset := c_offset c; c_len := c_len c;
              attempts := u32 (attempts c + (if charge then 1 else 0)) |} in
  if max_retries sp <? attempts c then (false, st)
  else (true, {| queue := c :: queue st; remaining := remaining st; live := live st; retries := u32 (retries st + 1);
                 error := error st; last_conn_error := last_conn_error st |}).

(** Chunks that were taken off the queue but never asked for. *)
Definition give_back (cs : list Chunk) (st : State) : State := with_queue st (cs ++ queue st).

(** The first error is the one reported. *)
Definition fail (e : ClientError) (st : State) : State :=
  {| queue := queue st; remaining := remaining st; live := live st; retries := retries st;
     error := Some (default e (error st)); last_conn_error := last_conn_error st |}.

Definition complete (st : State) : State :=
  {| queue := queue st; remaining := remaining st - 1; live := live st; retries := retries st; error := error st;
     last_conn_error := last_conn_error st |}.

Definition leave (e : option ClientError) (st : State) : State :=
  {| queue := queue st; remaining := remaining st; live := live st - 1; retries := retries st; error := error st;
     last_conn_error := match e with Some _ => e | None => last_conn_error st end |}.

(** The locked region at the head of [step]. *)
Inductive Topped : Type :=
  | Fresh (fresh : list Chunk) (st : State)
  | Finished
  | Unaccounted
  | Wait.

Definition top_up (sp : FetchSpec) (st : State) (flight : list InFlight) : Topped :=
  let room := (Z.to_nat (Z.max (credit sp) 1) - length flight)%nat in
  let fresh := match error st with None => take room (queue st) | Some _ => [] end in
  let rest := match error st with None => drop room (queue st) | Some _ => queue st end in
  match flight, fresh with
  | [], [] =>
      if bool_decide (error st <> None) || (remaining st =? 0) then Finished
      else if live st =? 1 then Unaccounted
      else Wait
  | _, _ => Fresh fresh (with_queue st rest)
  end.

(** What [drive] does with the error of a step. *)
Definition on_error (e : ClientError) (flight : list InFlight) : Thread :=
  match e with
  | CIo _ => {| phase := Breaking e false; flight := flight |}
  | _ => {| phase := Failing e false; flight := [] |}
  end.

Definition wake (t : Thread) : Thread :=
  match phase t with Asleep => {| phase := Topping; flight := flight t |} | _ => t end.

(** The ranges of part [p] that are claimed: those of the chunks in flight. *)
Definition claims (ts : list Thread) (p : nat) : list range :=
  ts ≫= (fun t => flight t ≫= (fun f =>
    if decide (part (chunk f) = p) then [(c_offset (chunk f), c_offset (chunk f) + c_len (chunk f))] else [])).

(** What the network does. *)
Inductive Event : Type :=
  | Tick
  | Sent (r : result ErrorKind unit)
  | Frame (header : FrameHeader) (payload : bytes) (pong : result ErrorKind unit)
  | Torn (start : Z) (junk : bytes) (kind : ErrorKind)
  | ReadFailed (e : WireError)
  | Reconnected (r : result ClientError unit)
  | Wake.

Section Act.
Context `{Build, CodecLib}.

(** Thread [i] becomes [t], the shared state [st], and with [notify] the sleepers wake. *)
Definition update (w : Transfer) (i : nat) (t : Thread) (st : State) (notify : bool) : Transfer :=
  let ts := <[i := t]> (threads w) in
  {| spec := spec w; parts := parts w; state := st; threads := if notify then wake <$> ts else ts;
     wire_bytes := wire_bytes w |}.

Definition with_dst (p : Part) (dst : bytes) : Part :=
  {| pt_request_id := pt_request_id p; pt_ticket := pt_ticket p; pt_dst := dst |}.

(** The buffer of part [p] becomes [dst], [wire] bytes having been read for it. *)
Definition with_buffer (w : Transfer) (p : nat) (dst : bytes) (wire : Z) : Transfer :=
  {| spec := spec w; parts := alter (fun q => with_dst q dst) p (parts w); state := state w; threads := threads w;
     wire_bytes := wire_bytes w +w wire |}.

(** Claim the chunk's range and ask for it. *)
Definition ask (w : Transfer) (i : nat) (t : Thread) (c : Chunk) (rest : list Chunk) (sent : result ErrorKind unit)
    : option Transfer :=
  p ← parts w !! part c;
  let refused e fl := update w i (on_error e fl) (give_back rest (state w)) (match rest with [] => false | _ => true end) in
  match ScatterBuffer.claim {| buffer_len := zlen (pt_dst p); claimed := claims (threads w) (part c) |} (c_offset c) (c_len c) with
  | Ok _ =>
      let fl := flight t ++ [{| chunk := c; received := 0 |}] in
      match sent with
      | Ok _ => Some (update w i {| phase := Asking rest; flight := fl |} (state w) false)
      | Err k => Some (refused (CIo k) fl)
      | Panic => None
      end
  | Err e => Some (refused (ClientError.from_wire e) (flight t))
  | Panic => None
  end.

(** A data frame, for the oldest fetch outstanding. *)
Definition on_data (w : Transfer) (i : nat) (header : FrameHeader) (payload : bytes) (front : InFlight)
    (others : list InFlight) : option Transfer :=
  let c := chunk front in
  p ← parts w !! part c;
  match DataConn.receive_data header (pt_request_id p) (c_offset c) (slice (c_offset c) (c_len c) (pt_dst p)) payload with
  | Ok b =>
      let w := with_buffer w (part c) (splice (c_offset c) b (pt_dst p)) (wire_len header) in
      let got := received front +w logical_len header in
      if c_len c <=? got
      then Some (update w i {| phase := Topping; flight := others |} (complete (state w)) (remaining (state w) =? 1))
      else Some (update w i {| phase := Topping; flight := {| chunk := c; received := got |} :: others |} (state w) false)
  | Err e => Some (update w i (on_error e (front :: others)) (state w) false)
  | Panic => None
  end.

(** An error frame: about the connection, or about the oldest fetch. *)
Definition on_error_frame (w : Transfer) (i : nat) (header : FrameHeader) (payload : bytes) (front : InFlight)
    (others : list InFlight) : option Transfer :=
  match DataConn.receive_error payload with
  | Err e => Some (update w i (on_error e (front :: others)) (state w) false)
  | Panic => None
  | Ok e =>
      if request_id header =? 0 then Some (update w i (on_error e (front :: others)) (state w) false)
      else
        let c := chunk front in
        p ← parts w !! part c;
        if negb (request_id header =? pt_request_id p) || negb (offset header =? c_offset c)
        then Some (update w i (on_error CProtocol others) (state w) false)
        else
          let '(again, st) := if ClientError.is_retryable e then retry (spec w) c true (state w) else (false, state w) in
          if again then Some (update w i {| phase := Topping; flight := others |} st true)
          else Some (update w i {| phase := Failing e true; flight := others |} st false)
  end.

(** One step of thread [i]; [None] when the event is not one it can meet there. *)
Definition act (w : Transfer) (i : nat) (ev : Event) : option Transfer :=
  t ← threads w !! i;
  match phase t, ev with
  | Topping, Tick =>
      match top_up (spec w) (state w) (flight t) with
      | Fresh fresh st => Some (update w i {| phase := Asking fresh; flight := flight t |} st false)
      | Finished => Some (update w i {| phase := Leaving None; flight := flight t |} (state w) false)
      | Unaccounted => Some (update w i (on_error CProtocol (flight t)) (state w) false)
      | Wait => Some (update w i {| phase := Asleep; flight := flight t |} (state w) false)
      end
  | Asleep, Wake => Some (update w i {| phase := Topping; flight := flight t |} (state w) false)
  | Asking [], Tick => Some (update w i {| phase := Reading; flight := flight t |} (state w) false)
  | Asking (c :: rest), Sent r => ask w i t c rest r
  | Reading, Frame header payload pong =>
      match frame_type header with
      | Data => '(front, others) ← match flight t with f :: fs => Some (f, fs) | [] => None end;
                on_data w i header payload front others
      | Error => '(front, others) ← match flight t with f :: fs => Some (f, fs) | [] => None end;
                 on_error_frame w i header payload front others
      | Ping =>
          match pong with
          | Ok _ => Some (update w i {| phase := Topping; flight := flight t |} (state w) false)
          | Err k => Some (update w i (on_error (CIo k) (flight t)) (state w) false)
          | Panic => None
          end
      | Pong => Some (update w i {| phase := Topping; flight := flight t |} (state w) false)
      | Fetch => Some (update w i (on_error CProtocol (flight t)) (state w) false)
      end
  | Reading, Torn start junk k =>
      (* the connection broke inside a frame's payload: part of its place is overwritten *)
      '(front, others) ← match flight t with f :: fs => Some (f, fs) | [] => None end;
      p ← parts w !! part (chunk front);
      if decide (0 <= start /\ start + zlen junk <= c_len (chunk front))
      then Some (update (with_buffer w (part (chunk front)) (splice (c_offset (chunk front) + start) junk (pt_dst p)) 0)
                   i (on_error (CIo k) (flight t)) (state w) false)
      else None
  | Reading, ReadFailed e => Some (update w i (on_error (ClientError.from_wire e) (flight t)) (state w) false)
  | Breaking e exhausted, Tick =>
      match last (flight t) with
      | Some f =>
          let fl := take (length (flight t) - 1) (flight t) in
          let '(again, st) := retry (spec w) (chunk f) (bool_decide (fl = [])) (state w) in
          Some (update w i {| phase := Breaking e (exhausted || negb again); flight := fl |} st again)
      | None =>
          Some (update w i {| phase := if exhausted then Failing e false else Disconnected; flight := [] |} (state w) false)
      end
  | Failing e keep, Tick =>
      Some (update w i {| phase := if keep then Topping else Disconnected; flight := flight t |} (fail e (state w)) true)
  | Disconnected, Tick =>
      Some (update w i {| phase := match error (state w) with Some _ => Leaving None | None => Reconnecting end;
                          flight := flight t |} (state w) false)
  | Reconnecting, Reconnected r =>
      match r with
      | Ok _ => Some (update w i {| phase := Topping; flight := flight t |} (state w) false)
      | Err e => Some (update w i {| phase := Leaving (Some e); flight := flight t |} (state w) false)
      | Panic => None
      end
  | Leaving e, Tick => Some (update w i {| phase := Gone; flight := flight t |} (leave e (state w)) true)
  | _, _ => None
  end.
End Act.

(** What a slot of the pool comes to at the start of a transfer: a thread with the
    connection it holds, one whose connection broke in an earlier transfer, or no thread
    at all because none could be started. *)
Inductive Slot : Type := Held | Broken | Unspawned (kind : ErrorKind).

Definition spawn (s : Slot) : Thread :=
  {| phase := match s with Held => Topping | Broken => Disconnected | Unspawned k => Leaving (Some (CIo k)) end;
     flight := [] |}.

(** The transfer [fetch] starts on the pool's slots, and its answer once the threads are
    done: how often a chunk was fetched again. *)
Definition start (sp : FetchSpec) (ps : list Part) (chunks : list (list (Z * Z))) (slots : list Slot) : Transfer :=
  let queue := concat (imap (fun p cs => (fun '(offset, len) =>
    {| part := p; c_offset := offset; c_len := len; attempts := 0 |}) <$> cs) chunks) in
  let used := take (length queue) slots in
  {| spec := sp; parts := ps;
     state := {| queue := queue; remaining := zlen queue; live := zlen used; retries := 0; error := None;
                 last_conn_error := None |};
     threads := spawn <$> used;
     wire_bytes := 0 |}.

Definition finished (w : Transfer) : bool := forallb (fun t => match phase t with Gone => true | _ => false end) (threads w).

Definition answer (w : Transfer) : result ClientError Z :=
  match threads w, error (state w) with
  | [], _ => Ok 0
  | _, Some e => Err e
  | _, None =>
      if 0 <? remaining (state w) then Err (default (CData ClassTransient) (last_conn_error (state w)))
      else Ok (retries (state w))
  end.
End Pool.
