(* ===== verification/PoolSpec.v ===== *)
(** What the pool's threads cannot do to one another, whatever the network does: lose a
    chunk, sleep through the end, write over each other's bytes. *)
From stdpp Require Import relations.
From S2P Require Import Prelude Errors Dtype Bytes Quality Codec Frame Scatter Pool.
Import Pool.

(** What makes a chunk the chunk it is, retries aside. *)
Abbreviation Key := (nat * Z * Z)%type.
Definition key (c : Chunk) : Key := (part c, c_offset c, c_len c).

(** Two chunks of one part share no byte. *)
Definition apart (k1 k2 : Key) : Prop :=
  k1.1.1 = k2.1.1 -> k1.1.2 + k1.2 <= k2.1.2 \/ k2.1.2 + k2.2 <= k1.1.2.

Lemma apart_sym k1 k2 : apart k1 k2 -> apart k2 k1.
Proof. unfold apart. intros H He. destruct H; [by symmetry|by right|by left]. Qed.

Lemma apart_perm l k : l ≡ₚ k -> ForallOrdPairs apart l -> ForallOrdPairs apart k.
Proof.
  induction 1 as [|x l k Hp IH|x y l|l k m Hp1 IH1 Hp2 IH2]; intros Ha; [done|..].
  - inversion Ha as [|?? Hx Hl]; subst. constructor; [by rewrite <- Hp|by apply IH].
  - inversion Ha as [|?? Hx Hl]; subst. inversion Hl as [|?? Hy Hl']; subst.
    apply Forall_cons in Hx as [Hxy Hx]. constructor; [constructor; [by apply apart_sym|done]|by constructor].
  - by apply IH2, IH1.
Qed.

(** The chunks a thread holds. *)
Definition fresh_of (t : Thread) : list Chunk := match phase t with Asking cs => cs | _ => [] end.
Definition held_keys (t : Thread) : list Key := (key ∘ chunk <$> flight t) ++ (key <$> fresh_of t).

(** A thread that has given a chunk up and is about to end the transfer. *)
Definition doomed (t : Thread) : bool :=
  match phase t with Failing _ _ | Breaking _ true => true | _ => false end.

Definition alive (t : Thread) : nat := match phase t with Gone => 0 | _ => 1 end.
Definition live_count (ts : list Thread) : Z := Z.of_nat (sum_list_with alive ts).

(** Every phase holds chunks only where the code does. *)
Definition phase_ok (t : Thread) : Prop :=
  match phase t with
  | Topping | Breaking _ _ => True
  | Asking fresh => flight t <> [] \/ fresh <> []
  | Reading => flight t <> []
  | Failing _ keep => keep = false -> flight t = []
  | _ => flight t = []
  end.

(** A thread that left though its connection could be rebuilt. *)
Definition left_early (t : Thread) : Prop := phase t = Gone \/ phase t = Leaving None.

(** Nothing for an idle thread to do but wait, and nothing for any thread to do. *)
Definition calm (st : State) : Prop := queue st = [] /\ error st = None /\ remaining st <> 0.
Definition over (st : State) : Prop := error st <> None \/ remaining st = 0.

(** The chunks of a transfer: none is empty, none leaves its buffer, no two meet. *)
Record chunks_ok (all : list Key) (sizes : list Z) : Prop := {
  ck_apart : ForallOrdPairs apart all;
  ck_inside : Forall (fun k : Key => 0 <= k.1.2 /\ 0 < k.2 /\
    exists n, sizes !! k.1.1 = Some n /\ k.1.2 + k.2 <= n < two64) all;
}.

(** Every chunk is complete, still to come, or lost to an error that ends the transfer. *)
Record pool_ok (all : list Key) (sizes : list Z) (w : Transfer) (done lost : list Key) : Prop := {
  pk_keys : done ++ (key <$> queue (state w)) ++ (threads w ≫= held_keys) ++ lost ≡ₚ all;
  pk_remaining : remaining (state w) = zlen all - zlen done;
  pk_lost : error (state w) = None -> Forall (fun t => doomed t = false) (threads w) -> lost = [];
  pk_live : live (state w) = live_count (threads w);
  pk_sleep : Forall (fun t => phase t = Asleep -> calm (state w)) (threads w);
  pk_phase : Forall phase_ok (threads w);
  pk_left : last_conn_error (state w) = None -> Forall (fun t => left_early t -> over (state w)) (threads w);
  pk_sizes : (fun p => zlen (pt_dst p)) <$> parts w = sizes;
}.

(** The first [n] bytes of the chunk [k] are the stream's. *)
Definition received_ok (streams : list bytes) (ps : list Part) (k : Key) (n : Z) : Prop :=
  exists p s, ps !! k.1.1 = Some p /\ streams !! k.1.1 = Some s /\
    slice k.1.2 n (pt_dst p) = slice k.1.2 n s.

Definition flight_ok (streams : list bytes) (ps : list Part) (f : InFlight) : Prop :=
  0 <= received f <= c_len (chunk f) /\ received_ok streams ps (key (chunk f)) (received f).

(** What the buffers hold of the streams. *)
Record data_ok (streams : list bytes) (w : Transfer) (done : list Key) : Prop := {
  dk_flight : Forall (fun t => Forall (flight_ok streams (parts w)) (flight t)) (threads w);
  dk_done : Forall (fun k => received_ok streams (parts w) k k.2) done;
}.

(** ** Replacing one thread *)

Lemma insert_delete_perm (ts : list Thread) i t t' :
  ts !! i = Some t -> <[i := t']> ts ≡ₚ t' :: delete i ts.
Proof.
  intros Hi. rewrite insert_take_drop by (by eapply lookup_lt_Some). rewrite delete_take_drop.
  by rewrite Permutation_middle.
Qed.

Lemma elem_of_delete (ts : list Thread) i j u : ts !! j = Some u -> j <> i -> u ∈ delete i ts.
Proof.
  intros Hj Hne. rewrite delete_take_drop. apply elem_of_app. destruct (decide (j < i)%nat) as [Hlt|Hge].
  - left. apply list_elem_of_lookup. exists j. by rewrite lookup_take_lt.
  - right. apply list_elem_of_lookup. exists (j - S i)%nat. rewrite lookup_drop. rewrite <- Hj. f_equal. lia.
Qed.

Lemma held_wake t : held_keys (wake t) = held_keys t.
Proof. unfold held_keys, wake, fresh_of. by destruct (phase t) eqn:Hp; rewrite ?Hp. Qed.
Lemma flight_wake t : flight (wake t) = flight t.
Proof. unfold wake. by destruct (phase t). Qed.
Lemma doomed_wake t : doomed (wake t) = doomed t.
Proof. unfold doomed, wake. by destruct (phase t) eqn:Hp; rewrite ?Hp. Qed.
Lemma alive_wake t : alive (wake t) = alive t.
Proof. unfold alive, wake. by destruct (phase t) eqn:Hp; rewrite ?Hp. Qed.
Lemma phase_wake t : phase_ok t -> phase_ok (wake t).
Proof. unfold phase_ok, wake. by destruct (phase t) eqn:Hp; rewrite ?Hp. Qed.
Lemma left_wake t : left_early (wake t) <-> left_early t.
Proof. unfold left_early, wake. destruct (phase t) eqn:Hp; cbn; rewrite ?Hp; naive_solver. Qed.
Lemma awake_wake t : phase (wake t) <> Asleep.
Proof. unfold wake. by destruct (phase t) eqn:Hp; rewrite ?Hp. Qed.

(** The threads after a step, asleep or woken. *)
Definition after (notify : bool) (ts : list Thread) : list Thread := if notify then wake <$> ts else ts.

#[export] Instance after_perm notify : Proper ((≡ₚ) ==> (≡ₚ)) (after notify).
Proof. intros l k Hlk. destruct notify; [by apply fmap_Permutation|done]. Qed.

Lemma after_held notify ts : after notify ts ≫= held_keys = ts ≫= held_keys.
Proof. destruct notify; [|done]. induction ts as [|t ts IH]; [done|]. cbn in *. by rewrite held_wake, IH. Qed.
Lemma after_live notify ts : live_count (after notify ts) = live_count ts.
Proof.
  destruct notify; [|done]. unfold live_count. f_equal. induction ts as [|t ts IH]; [done|]. cbn in *. by rewrite alive_wake, IH.
Qed.
Lemma after_forall notify (P : Thread -> Prop) ts : (forall t, P (wake t) <-> P t) -> Forall P (after notify ts) <-> Forall P ts.
Proof.
  intros Hw. destruct notify; [|done]. cbn. rewrite Forall_fmap.
  split; intros Hf; (eapply Forall_impl; [exact Hf|]); intros t; cbn; apply Hw.
Qed.

Section Steps.
Context (all : list Key) (sizes : list Z).
Local Notation pool_ok := (pool_ok all sizes).

(** What a step that replaces thread [i] and the shared state, buffers apart, must mind. *)
Lemma update_ok w i t t' st' notify done lost done' lost' :
  pool_ok w done lost -> threads w !! i = Some t ->
  done' ++ (key <$> queue st') ++ held_keys t' ++ lost'
    ≡ₚ done ++ (key <$> queue (state w)) ++ held_keys t ++ lost ->
  remaining st' + zlen done' = remaining (state w) + zlen done ->
  (error st' = None -> doomed t' = false -> lost' = lost /\ error (state w) = None /\ doomed t = false) ->
  live st' + Z.of_nat (alive t) = live (state w) + Z.of_nat (alive t') ->
  notify = true \/ ((calm (state w) -> calm st') /\ (phase t' = Asleep -> calm st')) ->
  phase_ok t' ->
  (last_conn_error st' = None -> last_conn_error (state w) = None /\ (over (state w) -> over st') /\
                                 (left_early t' -> left_early t \/ over st')) ->
  pool_ok (update w i t' st' notify) done' lost'.
Proof.
  intros [Hk Hr Hl Hv Hs Hp He Hz] Hi Hkeys Hrem Hlost Hlive Hsleep Hphase Hleft.
  pose proof (delete_Permutation _ _ _ Hi) as Hd. pose proof (insert_delete_perm _ i t t' Hi) as Hd'.
  assert (threads (update w i t' st' notify) ≡ₚ after notify (t' :: delete i (threads w))) as Hts.
  { unfold update. cbn [threads]. rewrite <- Hd'. by destruct notify. }
  set (others := delete i (threads w)) in *. rewrite Hd in Hk, Hl, Hs, Hp, He.
  assert (live_count (threads w) = live_count (t :: others)) as Hlc by (unfold live_count; by rewrite Hd).
  rewrite Hlc in Hv. clear Hlc Hd Hd'. apply Forall_cons in Hs as [Hst Hs]. apply Forall_cons in Hp as [Hpt Hp].
  split; change (state (update w i t' st' notify)) with st'; [|lia|..].
  - rewrite Hts, after_held. cbn in Hk |- *. rewrite <- Hk.
    transitivity ((done' ++ (key <$> queue st') ++ held_keys t' ++ lost') ++ (others ≫= held_keys)); [solve_Permutation|].
    rewrite Hkeys. solve_Permutation.
  - intros Herr Hdoom. rewrite Hts in Hdoom. apply after_forall in Hdoom; [|intros; by rewrite doomed_wake].
    apply Forall_cons in Hdoom as [Hdt Hdo]. destruct (Hlost Herr Hdt) as (-> & Herr' & Hdt'). apply Hl; [done|].
    by constructor.
  - change (live st' = live_count (threads (update w i t' st' notify))).
    assert (live_count (threads (update w i t' st' notify)) = live_count (t' :: others)) as ->.
    { rewrite <- (after_live notify (t' :: others)). unfold live_count. by rewrite Hts. }
    unfold live_count in *. cbn in Hv |- *. lia.
  - rewrite Hts. destruct notify.
    + cbn [after]. apply Forall_fmap, Forall_true. intros u Hu. by apply awake_wake in Hu.
    + destruct Hsleep as [?|[Hc Hst']]; [done|]. constructor; [done|]. eapply Forall_impl; [exact Hs|]. naive_solver.
  - rewrite Hts. destruct notify; [|by constructor]. apply Forall_fmap. constructor; [by apply phase_wake|].
    eapply Forall_impl; [exact Hp|]. apply phase_wake.
  - intros Hlast. destruct (Hleft Hlast) as (Hlast' & Hover & Hmine). rewrite Hts. specialize (He Hlast').
    apply after_forall; [intros; by rewrite left_wake|]. apply Forall_cons in He as [Het He].
    constructor; [naive_solver|]. eapply Forall_impl; [exact He|]. naive_solver.
  - done.
Qed.

(** A step that moves nothing but the thread. *)
Lemma quiet_ok w i t t' notify done lost :
  pool_ok w done lost -> threads w !! i = Some t ->
  held_keys t' ≡ₚ held_keys t -> alive t' = alive t -> phase_ok t' ->
  (doomed t' = false -> doomed t = false) ->
  (phase t' = Asleep -> calm (state w)) -> (left_early t' -> left_early t \/ over (state w)) ->
  pool_ok (update w i t' (state w) notify) done lost.
Proof.
  intros Hok Hi Hh Ha Hp Hd Hs Hl. eapply update_ok; [done..|by rewrite Hh|done| |lia| |done|]; naive_solver.
Qed.

(** A step that gives a connection up: the chunks in flight go back, or are lost and the
    transfer with them. *)
Lemma on_error_ok w i t e fl q notify dropped done lost :
  pool_ok w done lost -> threads w !! i = Some t -> doomed t = false -> alive t = 1%nat ->
  (key <$> q) ++ (key ∘ chunk <$> fl) ++ dropped ≡ₚ (key <$> queue (state w)) ++ held_keys t ->
  (dropped <> [] -> forall k, e <> CIo k) -> q = queue (state w) \/ notify = true ->
  exists lost', pool_ok (update w i (on_error e fl) (with_queue (state w) q) notify) done lost'.
Proof.
  intros Hok Hi Hd Ha Hk Hdrop Hq.
  assert (notify = true \/ ((calm (state w) -> calm (with_queue (state w) q)) /\
    (phase (on_error e fl) = Asleep -> calm (with_queue (state w) q)))) as Hsl.
  { destruct Hq as [->|?]; [right|by left]. split; [done|]. by destruct e. }
  assert ((exists k, e = CIo k) \/ forall k, e <> CIo k) as [[k ->]|He] by (destruct e; naive_solver).
  - exists lost. assert (dropped = []) as ->.
    { destruct dropped; [done|]. exfalso. by eapply Hdrop. }
    rewrite app_nil_r in Hk.
    eapply update_ok; [done|done| |done| |cbn; lia|done|done|]; [|naive_solver|].
    + unfold held_keys at 1. cbn [on_error flight fresh_of phase fmap list_fmap with_queue queue]. rewrite app_nil_r.
      rewrite (app_assoc (key <$> q)), Hk. by rewrite <- !app_assoc.
    + unfold left_early, over. cbn. naive_solver.
  - exists (dropped ++ (key ∘ chunk <$> fl) ++ lost).
    assert (on_error e fl = {| phase := Failing e false; flight := [] |}) as Hoe by (destruct e; try done; by edestruct He).
    rewrite Hoe in *. eapply update_ok; [done|done| |done| |cbn; lia|done|done|]; [|done|].
    + cbn [held_keys flight fresh_of phase fmap list_fmap with_queue queue app].
      transitivity (done ++ ((key <$> q) ++ (key ∘ chunk <$> fl) ++ dropped) ++ lost); [solve_Permutation|].
      rewrite Hk. by rewrite <- !app_assoc.
    + unfold left_early, over. cbn. naive_solver.
Qed.

(** ** Who may write where *)

Lemma apart_held w done lost i t k ks :
  chunks_ok all sizes -> pool_ok w done lost -> threads w !! i = Some t -> held_keys t ≡ₚ k :: ks ->
  Forall (apart k) (ks ++ done ++ (delete i (threads w) ≫= held_keys)) /\ k ∈ all.
Proof.
  intros Hc Hok Hi Hh. pose proof (pk_keys _ _ _ _ _ Hok) as Hk. rewrite (delete_Permutation _ _ _ Hi) in Hk.
  cbn [mbind list_bind] in Hk. fold (mbind held_keys (delete i (threads w))) in Hk. rewrite Hh in Hk.
  assert (all ≡ₚ k :: (ks ++ done ++ (delete i (threads w) ≫= held_keys)) ++ (key <$> queue (state w)) ++ lost) as Hp.
  { rewrite <- Hk. unfold mbind. solve_Permutation. }
  split; [|rewrite Hp; by left].
  pose proof (apart_perm _ _ Hp (ck_apart _ _ Hc)) as Ha. inversion Ha as [|?? Hf _]; subst.
  by apply Forall_app in Hf as [Hf _].
Qed.

Lemma inside_all (k : Key) : chunks_ok all sizes -> k ∈ all ->
  0 <= k.1.2 /\ 0 < k.2 /\ exists n, sizes !! k.1.1 = Some n /\ k.1.2 + k.2 <= n < two64.
Proof. intros Hc Hin. pose proof (ck_inside _ _ Hc) as Hf. rewrite Forall_forall in Hf. by apply Hf. Qed.

(** A write inside a buffer changes neither its length nor what the keys say. *)
Lemma buffer_ok w p q dst n done lost :
  pool_ok w done lost -> parts w !! p = Some q -> zlen dst = zlen (pt_dst q) ->
  pool_ok (with_buffer w p dst n) done lost.
Proof.
  intros [Hk Hr Hl Hv Hs Hp He Hz] Hq Hlen. split; try done. unfold with_buffer. cbn [parts]. rewrite <- Hz.
  apply list_eq. intros j. rewrite !list_lookup_fmap. destruct (decide (j = p)) as [->|Hne].
  - rewrite list_lookup_alter_eq, Hq. cbn. by rewrite Hlen.
  - by rewrite list_lookup_alter_ne.
Qed.

Context (streams : list bytes).

Lemma received_write (ps : list Part) (p : nat) q at_ b (k : Key) n :
  ps !! p = Some q -> 0 <= at_ -> at_ + zlen b <= zlen (pt_dst q) -> 0 <= k.1.2 -> 0 <= n ->
  (k.1.1 = p -> k.1.2 + n <= at_ \/ at_ + zlen b <= k.1.2) ->
  received_ok streams ps k n ->
  received_ok streams (alter (fun q => with_dst q (splice at_ b (pt_dst q))) p ps) k n.
Proof.
  intros Hq Ha Hb Hk Hn Hap (r & s & Hr & Hs & Hsl). destruct (decide (k.1.1 = p)) as [He|Hne].
  - assert (r = q) as -> by congruence. exists (with_dst q (splice at_ b (pt_dst q))), s.
    split; [by rewrite He, list_lookup_alter_eq, Hq|]. split; [done|]. cbn [pt_dst with_dst].
    rewrite <- Hsl. apply slice_splice_apart; auto.
  - exists r, s. by rewrite list_lookup_alter_ne.
Qed.

Lemma alter_with_dst (ps : list Part) (p : nat) q at_ b : ps !! p = Some q ->
  alter (fun q' => with_dst q' (splice at_ b (pt_dst q))) p ps
  = alter (fun q => with_dst q (splice at_ b (pt_dst q))) p ps.
Proof.
  intros Hq. apply list_eq. intros j. destruct (decide (j = p)) as [->|Hne].
  - by rewrite !list_lookup_alter_eq, Hq.
  - by rewrite !list_lookup_alter_ne.
Qed.

(** A write at the chunk a thread is receiving, past what it has received, touches no other
    chunk and nothing received before. *)
Lemma buffer_data w i t f fs q b start n done lost :
  chunks_ok all sizes -> pool_ok w done lost -> data_ok streams w done ->
  threads w !! i = Some t -> flight t = f :: fs -> parts w !! part (chunk f) = Some q ->
  received f <= start -> start + zlen b <= c_len (chunk f) ->
  data_ok streams (with_buffer w (part (chunk f)) (splice (c_offset (chunk f) + start) b (pt_dst q)) n) done.
Proof.
  intros Hc Hok [Hfl Hdone] Hi Hf Hq Hstart Hb.
  destruct (apart_held w done lost i t (key (chunk f)) ((key ∘ chunk <$> fs) ++ (key <$> fresh_of t)) Hc Hok Hi) as [Hap Hin].
  { unfold held_keys. by rewrite Hf. }
  apply Forall_app in Hap as [Hfs Hap]. apply Forall_app in Hfs as [Hfs _]. apply Forall_app in Hap as [Hdn Hot].
  destruct (inside_all _ Hc Hin) as (Ho & Hl & m & Hm & Hml). cbn in Ho, Hl, Hm, Hml.
  assert (zlen (pt_dst q) = m) as Hqm.
  { rewrite <- (pk_sizes _ _ _ _ _ Hok), list_lookup_fmap, Hq in Hm. by injection Hm. }
  rewrite (delete_Permutation _ _ _ Hi) in Hfl. apply Forall_cons in Hfl as [Hft Hfo]. rewrite Hf in Hft.
  apply Forall_cons in Hft as [[Hr Hrec] Hft].
  assert (forall k n, 0 <= n <= k.2 -> 0 <= k.1.2 -> apart (key (chunk f)) k -> received_ok streams (parts w) k n ->
    received_ok streams (parts (with_buffer w (part (chunk f)) (splice (c_offset (chunk f) + start) b (pt_dst q)) 0)) k n) as Hkeep.
  { intros k j Hj Hk Hap Hrk. unfold with_buffer. cbn [parts]. rewrite alter_with_dst by done.
    eapply received_write; [done|lia|lia|done|lia| |done]. intros He. destruct Hap as [Ha|Ha]; cbn in *; [by symmetry|right|left]; lia. }
  assert (forall k, k ∈ all -> 0 <= k.1.2) as Hpos by (intros k Hk; by destruct (inside_all k Hc Hk)).
  assert (forall k, k ∈ done -> k ∈ all) as Hda.
  { intros k Hk. rewrite <- (pk_keys _ _ _ _ _ Hok). set_solver. }
  assert (forall j u g, threads w !! j = Some u -> g ∈ flight u -> key (chunk g) ∈ all) as Hua.
  { intros j u g Hu Hg. rewrite <- (pk_keys _ _ _ _ _ Hok). rewrite !elem_of_app. right. right. left.
    apply list_elem_of_bind. exists u. split; [|by eapply list_elem_of_lookup_2].
    apply elem_of_app. left. apply list_elem_of_fmap. by exists g. }
  split.
  - change (threads (with_buffer _ _ _ _)) with (threads w). rewrite (delete_Permutation _ _ _ Hi).
    constructor; [rewrite Hf; constructor|].
    + split; [done|]. cbn [parts with_buffer]. rewrite alter_with_dst by done.
      eapply received_write; [done|lia|lia|done|lia| |done]. cbn. lia.
    + rewrite Forall_forall in Hft; rewrite Forall_forall in Hfs. apply Forall_forall. intros g Hg. destruct (Hft g Hg) as [Hgr Hgo]. split; [done|].
      apply (Hkeep (key (chunk g))); [done| |apply Hfs; apply list_elem_of_fmap; by exists g|done].
      apply Hpos, (Hua i t); [done|]. rewrite Hf. by right.
    + rewrite Forall_forall in Hfo; rewrite Forall_forall in Hot. apply Forall_forall. intros u Hu. specialize (Hfo u Hu). rewrite Forall_forall in Hfo. apply Forall_forall.
      intros g Hg. destruct (Hfo g Hg) as [Hgr Hgo]. split; [done|].
      assert (key (chunk g) ∈ held_keys u) as Hgu by (apply elem_of_app; left; apply list_elem_of_fmap; by exists g).
      apply (Hkeep (key (chunk g))); [done| |apply Hot; apply list_elem_of_bind; by exists u|done].
      apply list_elem_of_delete_inv in Hu as Hu'. apply list_elem_of_lookup in Hu' as [j Hj]. by apply Hpos, (Hua j u).
  - rewrite Forall_forall in Hdone; rewrite Forall_forall in Hdn. apply Forall_forall. intros k Hk. apply Hkeep; [|by apply Hpos, Hda|by apply Hdn|by apply Hdone].
    destruct (inside_all k Hc (Hda k Hk)) as (_ & ? & _). lia.
Qed.

Lemma data_update w i t' st' notify done done' :
  data_ok streams w done -> Forall (flight_ok streams (parts w)) (flight t') ->
  Forall (fun k => received_ok streams (parts w) k k.2) done' ->
  data_ok streams (update w i t' st' notify) done'.
Proof.
  intros [Hf _] Ht Hd. split; [|done]. unfold update. cbn [threads parts].
  apply (after_forall notify (fun t => Forall (flight_ok streams (parts w)) (flight t))); [intros; by rewrite flight_wake|].
  by apply (Forall_insert (fun t => Forall (flight_ok streams (parts w)) (flight t))).
Qed.

Lemma flights_ok w i t done :
  data_ok streams w done -> threads w !! i = Some t -> Forall (flight_ok streams (parts w)) (flight t).
Proof. intros [Hf _] Hi. rewrite Forall_forall in Hf. apply Hf. by eapply list_elem_of_lookup_2. Qed.

(** A step leads to a state as sound as the one it leaves, contents included if [P]. *)
Definition keeps (P : Prop) (w w' : Transfer) (done : list Key) : Prop :=
  exists done' lost', pool_ok w' done' lost' /\ (P -> data_ok streams w done -> data_ok streams w' done').

Lemma quiet_keeps P w i t t' notify done lost :
  pool_ok w done lost -> threads w !! i = Some t ->
  held_keys t' ≡ₚ held_keys t -> flight t' = flight t -> alive t' = alive t -> phase_ok t' ->
  (doomed t' = false -> doomed t = false) ->
  (phase t' = Asleep -> calm (state w)) -> (left_early t' -> left_early t \/ over (state w)) ->
  keeps P w (update w i t' (state w) notify) done.
Proof.
  intros Hok Hi Hh Hf Ha Hp Hd Hs Hl. exists done, lost. split; [by eapply quiet_ok|].
  intros _ Hdata. eapply data_update; [done| |by destruct Hdata]. rewrite Hf. by eapply flights_ok.
Qed.

Lemma on_error_keeps P w i t e fl q notify dropped done lost :
  pool_ok w done lost -> threads w !! i = Some t -> doomed t = false -> alive t = 1%nat ->
  (key <$> q) ++ (key ∘ chunk <$> fl) ++ dropped ≡ₚ (key <$> queue (state w)) ++ held_keys t ->
  (dropped <> [] -> forall k, e <> CIo k) -> q = queue (state w) \/ notify = true ->
  (P -> data_ok streams w done -> Forall (flight_ok streams (parts w)) fl) ->
  keeps P w (update w i (on_error e fl) (with_queue (state w) q) notify) done.
Proof.
  intros Hok Hi Hd Ha Hk Hdrop Hq Hfl.
  destruct (on_error_ok w i t e fl q notify dropped done lost) as [lost' Hok']; try done.
  exists done, lost'. split; [done|]. intros HP Hdata. eapply data_update; [done| |by destruct Hdata].
  destruct e; cbn; try constructor; by apply Hfl.
Qed.

(** The common case: the error leaves what is in flight, and the queue, as they are. *)
Lemma step_error_keeps P w i t e notify done lost :
  pool_ok w done lost -> threads w !! i = Some t -> doomed t = false -> alive t = 1%nat -> fresh_of t = [] ->
  keeps P w (update w i (on_error e (flight t)) (state w) notify) done.
Proof.
  intros Hok Hi Hd Ha Hf. replace (state w) with (with_queue (state w) (queue (state w))) by (by destruct (state w)).
  eapply (on_error_keeps P w i t e (flight t) _ notify []); [done..| |done|by left|].
  - unfold held_keys. by rewrite Hf, !app_nil_r.
  - intros _ Hdata. by eapply flights_ok.
Qed.

(** ** The handlers *)

Lemma top_up_spec sp st fl :
  match top_up sp st fl with
  | Fresh fresh st' => exists rest, queue st = fresh ++ rest /\ st' = with_queue st rest /\ (fl <> [] \/ fresh <> [])
  | Finished => fl = [] /\ over st
  | Unaccounted => fl = [] /\ calm st /\ live st = 1
  | Wait => fl = [] /\ calm st
  end.
Proof.
  unfold top_up, calm, over. set (room := (_ - _)%nat).
  destruct (error st) as [e|] eqn:He.
  - destruct fl as [|f fl]; [by split; [|left]|]. exists (queue st). split; [done|]. split; [done|]. by left.
  - destruct fl as [|f fl].
    + assert (take room (queue st) = [] -> queue st = []) as Hnil.
      { assert (0 < room)%nat by (unfold room; cbn; lia). clearbody room. by destruct (queue st), room; cbn; try lia. }
      destruct (take room (queue st)) as [|c cs] eqn:Ht.
      * rewrite bool_decide_eq_false_2 by naive_solver. cbn [orb].
        destruct (remaining st =? 0) eqn:Hr; [split; [done|]; right; lia|apply Z.eqb_neq in Hr].
        specialize (Hnil eq_refl). destruct (Z.eqb_spec (live st) 1); destruct (Z.eqb_spec (remaining st) 0); naive_solver.
      * exists (drop room (queue st)). rewrite <- Ht, take_drop. split; [done|]. split; [done|]. right. by rewrite Ht.
    + exists (drop room (queue st)). rewrite take_drop. split; [done|]. split; [done|]. by left.
Qed.

Lemma top_up_keeps P w i t w' done lost :
  pool_ok w done lost -> threads w !! i = Some t -> phase t = Topping ->
  match top_up (spec w) (state w) (flight t) with
  | Fresh fresh st => Some (update w i {| phase := Asking fresh; flight := flight t |} st false)
  | Finished => Some (update w i {| phase := Leaving None; flight := flight t |} (state w) false)
  | Unaccounted => Some (update w i (on_error CProtocol (flight t)) (state w) false)
  | Wait => Some (update w i {| phase := Asleep; flight := flight t |} (state w) false)
  end = Some w' -> keeps P w w' done.
Proof.
  intros Hok Hi Hp. pose proof (top_up_spec (spec w) (state w) (flight t)) as Hs.
  assert (held_keys t = (key ∘ chunk <$> flight t) ++ []) as Hh by (unfold held_keys, fresh_of; by rewrite Hp).
  assert (alive t = 1%nat) as Ha by (unfold alive; by rewrite Hp).
  assert (doomed t = false) as Hd by (unfold doomed; by rewrite Hp).
  destruct (top_up _ _ _) as [fresh st| | |]; intros [= <-].
  - destruct Hs as (rest & Hq & -> & Hne). exists done, lost. split.
    + eapply update_ok; [done|done| |done|done|cbn; lia| |done|].
      * rewrite Hq, Hh. unfold held_keys at 1. cbn [flight fresh_of phase with_queue queue]. rewrite fmap_app. solve_Permutation.
      * right. split; [|done]. unfold calm. cbn. intros (Hnil & ? & ?). rewrite Hq in Hnil. by apply app_nil in Hnil as [_ ->].
      * unfold left_early, over. cbn. naive_solver.
    + intros _ Hdata. eapply data_update; [done|by apply (flights_ok w i t done)|by destruct Hdata].
  - destruct Hs as [Hf Ho]. eapply quiet_keeps; try done; [by rewrite Hh|by right].
  - apply (step_error_keeps P w i t CProtocol false done lost); try done. unfold fresh_of. by rewrite Hp.
  - destruct Hs as [Hf Hcalm]. eapply quiet_keeps; try done; [by rewrite Hh|unfold left_early; naive_solver].
Qed.

Context (Hchunks : chunks_ok all sizes) (Hstreams : sizes = (fun s : bytes => zlen s) <$> streams).

Lemma held_part w done lost i t k ks :
  pool_ok w done lost -> threads w !! i = Some t -> held_keys t ≡ₚ k :: ks ->
  0 <= k.1.2 /\ 0 < k.2 /\ exists p s, parts w !! k.1.1 = Some p /\ streams !! k.1.1 = Some s /\
    zlen (pt_dst p) = zlen s /\ k.1.2 + k.2 <= zlen s < two64.
Proof.
  intros Hok Hi Hh. destruct (apart_held w done lost i t k ks Hchunks Hok Hi Hh) as [_ Hin].
  destruct (inside_all k Hchunks Hin) as (Ho & Hl & n & Hn & Hb). split; [done|]. split; [done|].
  pose proof (pk_sizes _ _ _ _ _ Hok) as Hsz. rewrite <- Hsz, list_lookup_fmap in Hn.
  destruct (parts w !! k.1.1) as [p|] eqn:Hp; [|done]. injection Hn as Hn. exists p.
  assert (sizes !! k.1.1 = Some n) as Hn' by (by rewrite <- Hsz, list_lookup_fmap, Hp, <- Hn).
  rewrite Hstreams, list_lookup_fmap in Hn'. destruct (streams !! k.1.1) as [s|]; [|done]. injection Hn' as Hn'.
  exists s. repeat split; try done; lia.
Qed.

(** The claim on the buffer of a chunk that was taken off the queue is always granted. *)
Lemma claim_granted w done lost i t c rest :
  pool_ok w done lost -> threads w !! i = Some t -> phase t = Asking (c :: rest) ->
  exists p, parts w !! part c = Some p /\
    is_ok (ScatterBuffer.claim {| buffer_len := zlen (pt_dst p); claimed := claims (threads w) (part c) |}
             (c_offset c) (c_len c)).
Proof.
  intros Hok Hi Hp.
  assert (held_keys t ≡ₚ key c :: (key ∘ chunk <$> flight t) ++ (key <$> rest)) as Hh.
  { unfold held_keys, fresh_of. rewrite Hp. cbn. by rewrite <- Permutation_middle. }
  destruct (held_part w done lost i t _ _ Hok Hi Hh) as (Ho & Hl & p & s & Hpart & _ & Hps & Hb).
  destruct (apart_held w done lost i t _ _ Hchunks Hok Hi Hh) as [Hap _]. exists p. split; [done|].
  cbn in Ho, Hl, Hb. unfold ScatterBuffer.claim, checked_add. rewrite decide_True by lia. cbn [mbind option_bind buffer_len].
  rewrite (proj2 (Z.leb_le _ _)) by lia. cbn [claimed].
  destruct ((0 <? c_len c) && _) eqn:Hov; [|by eexists]. exfalso.
  apply andb_true_iff in Hov as [_ Hov]. apply existsb_exists in Hov as (r & Hr & Hov).
  apply list_elem_of_In in Hr. unfold claims in Hr. apply list_elem_of_bind in Hr as (u & Hr & Hu).
  apply list_elem_of_bind in Hr as (f & Hr & Hf). destruct (decide (part (chunk f) = part c)) as [He|]; [|by apply not_elem_of_nil in Hr].
  apply list_elem_of_singleton in Hr as ->.
  assert (apart (key c) (key (chunk f))) as Ha.
  { rewrite Forall_forall in Hap. apply Hap. rewrite (delete_Permutation _ _ _ Hi) in Hu.
    assert (key (chunk f) ∈ key ∘ chunk <$> flight u) as Hin by (apply list_elem_of_fmap; by exists f).
    apply elem_of_cons in Hu as [->|Hu]; rewrite !elem_of_app; [naive_solver|].
    right. right. apply list_elem_of_bind. exists u. split; [apply elem_of_app; by left|done]. }
  unfold apart, ScatterBuffer.overlaps in *. cbn in *. symmetry in He. specialize (Ha He). lia.
Qed.

Lemma ask_keeps P w i t c rest sent w' done lost :
  pool_ok w done lost -> threads w !! i = Some t -> phase t = Asking (c :: rest) ->
  ask w i t c rest sent = Some w' -> keeps P w w' done.
Proof.
  intros Hok Hi Hp. destruct (claim_granted w done lost i t c rest Hok Hi Hp) as (p & Hpart & cl & Hcl).
  assert (held_keys t ≡ₚ key c :: (key ∘ chunk <$> flight t) ++ (key <$> rest)) as Hh.
  { unfold held_keys, fresh_of. rewrite Hp. cbn. by rewrite <- Permutation_middle. }
  destruct (held_part w done lost i t _ _ Hok Hi Hh) as (Ho & Hl & p' & s & Hpart' & Hs & Hps & Hb).
  assert (data_ok streams w done -> Forall (flight_ok streams (parts w)) (flight t ++ [{| chunk := c; received := 0 |}])) as Hfl.
  { intros Hdata. apply Forall_app. split; [by eapply flights_ok|]. constructor; [|done]. split; [cbn in *; lia|].
    exists p', s. cbn in *. by rewrite !slice_nil. }
  assert (alive t = 1%nat /\ doomed t = false) as [Ha Hd] by (unfold alive, doomed; by rewrite Hp).
  unfold ask. rewrite Hpart. cbn [mbind option_bind]. rewrite Hcl.
  destruct sent as [[]|k|]; intros [= <-].
  - exists done, lost. split.
    + eapply update_ok; [done|done| |done|done|cbn; lia|by right| |].
      * rewrite Hh. unfold held_keys. cbn. rewrite fmap_app. cbn. solve_Permutation.
      * left. cbn. by intros [_ ?]%app_nil.
      * unfold left_early, over. cbn. naive_solver.
    + intros _ Hdata. eapply data_update; [done|by apply Hfl|by destruct Hdata].
  - apply (on_error_keeps P w i t (CIo k) (flight t ++ [{| chunk := c; received := 0 |}]) (rest ++ queue (state w))
      _ [] done lost); try done.
    + rewrite Hh, !fmap_app. cbn. solve_Permutation.
    + destruct rest; [by left|by right].
Qed.

(** ** Frames *)

Context `{Build, CodecLib}.

(** A data frame as the server sends it for the oldest fetch: the next bytes of the chunk,
    raw or as a block that expands to them. *)
Definition honest_data (f : InFlight) (header : FrameHeader) (payload : bytes) : Prop :=
  offset header = c_offset (chunk f) + received f /\ 0 <= logical_len header /\
  received f + logical_len header <= c_len (chunk f) /\ zlen payload = wire_len header /\
  exists s, streams !! part (chunk f) = Some s /\
    let piece := slice (offset header) (logical_len header) s in
    if decide (codec header = Raw) then payload = piece
    else forall place e, zlen place = logical_len header -> decompress_into (codec header) payload place = Ok e -> e = piece.

(** What [receive_data] accepts lands inside the chunk's place. *)
Lemma receive_data_ok header request off dst payload b :
  DataConn.receive_data header request off dst payload = Ok b -> 0 <= off ->
  exists start pl, start = offset header - off /\ 0 <= start /\ start + zlen pl <= zlen dst /\ b = splice start pl dst /\
    start + logical_len header <= zlen dst /\
    if decide (codec header = Raw) then pl = payload
    else decompress_into (codec header) payload (slice start (logical_len header) dst) = Ok pl.
Proof.
  unfold DataConn.receive_data. intros Hr Hoff. destruct (negb _); [done|]. destruct (negb _); [done|].
  destruct (negb _); [done|]. destruct (_ ≫= _) as [start|] eqn:Hst; [|done].
  apply bind_Some in Hst as (st & Hsub & Hst). apply checked_sub_some in Hsub as [-> Hge].
  apply bind_Some in Hst as (en & Hadd & Hst). apply checked_add_some in Hadd as [-> _].
  destruct (Z.leb_spec (offset header - off + logical_len header) (zlen dst)); [|done]. injection Hst as <-.
  exists (offset header - off). destruct (decide (codec header = Raw)) as [Hc|Hc].
  - rewrite bool_decide_eq_true_2 in Hr by done. unfold splice_checked in Hr. destruct (decide _) as [Hd|]; [|done].
    injection Hr as <-. exists payload. repeat split; try done; lia.
  - rewrite bool_decide_eq_false_2 in Hr by done. apply bind_ok in Hr as (place & Hpl & Hr).
    apply bind_ok in Hr as (e & He & Hr). unfold slice_checked in Hpl. destruct (decide _); [|done]. injection Hpl as <-.
    unfold splice_checked in Hr. destruct (decide _) as [Hd|]; [|done]. injection Hr as <-. exists e.
    split_and!; try lia; try done. by destruct (decompress_into _ _ _); cbn in He; simplify_eq.
Qed.

(** The thread goes on receiving the chunk, or completes it. *)
Lemma received_keeps (P : Prop) w0 w i t f others got done lost :
  pool_ok w done lost -> threads w !! i = Some t -> phase t = Reading -> flight t = f :: others ->
  (P -> data_ok streams w0 done -> data_ok streams w done /\
     flight_ok streams (parts w) {| chunk := chunk f; received := got |}) ->
  keeps P w0
    (if c_len (chunk f) <=? got
     then update w i {| phase := Topping; flight := others |} (complete (state w)) (remaining (state w) =? 1)
     else update w i {| phase := Topping; flight := {| chunk := chunk f; received := got |} :: others |} (state w) false)
    done.
Proof.
  intros Hok Hi Hp Hf Hdata.
  assert (held_keys t = key (chunk f) :: (key ∘ chunk <$> others)) as Hh.
  { unfold held_keys, fresh_of. rewrite Hp, Hf. cbn. by rewrite app_nil_r. }
  assert (alive t = 1%nat /\ doomed t = false) as [Ha Hd] by (unfold alive, doomed; by rewrite Hp).
  destruct (c_len (chunk f) <=? got) eqn:Hgot.
  - exists (key (chunk f) :: done), lost. split.
    + eapply update_ok; [done|done| |cbn; lia|done|cbn; lia| |done|].
      * rewrite Hh. unfold held_keys. cbn. rewrite app_nil_r. solve_Permutation.
      * destruct (remaining (state w) =? 1) eqn:Hr; [by left|right]. apply Z.eqb_neq in Hr. split; [|done].
        unfold calm. cbn. intros (? & ? & ?). repeat split; try done. lia.
      * intros Hl. cbn in Hl. split; [done|]. split; [|unfold left_early; cbn; naive_solver].
        intros [He|Hz]; [by left|]. exfalso. pose proof (pk_remaining _ _ _ _ _ Hok) as Hrem.
        pose proof (Permutation_length (pk_keys _ _ _ _ _ Hok)) as Hlen.
        rewrite (delete_Permutation _ _ _ Hi) in Hlen. rewrite !length_app in Hlen. cbn in Hlen. rewrite length_app, Hh in Hlen.
        cbn in Hlen. lia.
    + intros HP Hd0. destruct (Hdata HP Hd0) as [Hdw [Hr Hrec]]. cbn in Hr. apply Z.leb_le in Hgot.
      eapply data_update; [done| |].
      * pose proof (flights_ok _ _ _ _ Hdw Hi) as Hfl. rewrite Hf in Hfl. by apply Forall_cons in Hfl as [_ ?].
      * constructor; [|by destruct Hdw]. cbn in Hrec |- *. by replace (c_len (chunk f)) with got by lia.
  - exists done, lost. split.
    + eapply quiet_ok; try done; [|unfold left_early; naive_solver]. rewrite Hh. unfold held_keys. cbn. by rewrite app_nil_r.
    + intros HP Hd0. destruct (Hdata HP Hd0) as [Hdw Hrec]. eapply data_update; [done| |by destruct Hdw].
      pose proof (flights_ok _ _ _ _ Hdw Hi) as Hfl. rewrite Hf in Hfl. apply Forall_cons in Hfl as [_ ?]. by constructor.
Qed.

Lemma with_buffer_lookup w p q dst n : parts w !! p = Some q -> parts (with_buffer w p dst n) !! p = Some (with_dst q dst).
Proof. intros Hq. unfold with_buffer. cbn [parts]. by rewrite list_lookup_alter_eq, Hq. Qed.

(** What an honest frame writes is the stream's next bytes. *)
Lemma frame_received w f q s header payload b pl n :
  honest_data f header payload -> flight_ok streams (parts w) f ->
  parts w !! part (chunk f) = Some q -> streams !! part (chunk f) = Some s -> zlen (pt_dst q) = zlen s ->
  0 <= c_offset (chunk f) -> c_offset (chunk f) + c_len (chunk f) <= zlen s < two64 -> zlen pl = logical_len header ->
  pl = slice (offset header) (logical_len header) s ->
  b = splice (c_offset (chunk f) + received f) pl (pt_dst q) ->
  flight_ok streams (parts (with_buffer w (part (chunk f)) b n))
    {| chunk := chunk f; received := received f +w logical_len header |}.
Proof.
  intros (Ho & Hl & Hle & _) [Hr (q' & s' & Hq' & Hs' & Hrec)] Hq Hs Hsz Hc Hb Hpl Hpls ->.
  cbn in Hq', Hs'. assert (q' = q) as -> by congruence. assert (s' = s) as -> by congruence.
  rewrite wadd_small by (unfold is_u64; lia). split; [cbn; lia|].
  eexists _, s. split; [by apply with_buffer_lookup|]. split; [done|]. cbn [pt_dst with_dst key received chunk fst snd].
  rewrite !slice_split by lia. cbn. f_equal.
  - rewrite slice_splice_apart by lia. done.
  - rewrite Ho in *. rewrite <- Hpl at 1. by rewrite slice_splice_same by lia.
Qed.

Lemma on_data_keeps w i t f others header payload w' done lost :
  pool_ok w done lost -> threads w !! i = Some t -> phase t = Reading -> flight t = f :: others ->
  on_data w i header payload f others = Some w' -> keeps (honest_data f header payload) w w' done.
Proof.
  intros Hok Hi Hp Hf.
  assert (held_keys t = key (chunk f) :: (key ∘ chunk <$> others)) as Hh.
  { unfold held_keys, fresh_of. rewrite Hp, Hf. cbn. by rewrite app_nil_r. }
  destruct (held_part w done lost i t (key (chunk f)) (key ∘ chunk <$> others) Hok Hi ltac:(by rewrite Hh))
    as (Ho & Hl & q & s & Hq & Hs & Hsz & Hb).
  cbn in Ho, Hl, Hq, Hs, Hb. unfold on_data. rewrite Hq. cbn [mbind option_bind].
  destruct (DataConn.receive_data _ _ _ _ _) as [b|e|] eqn:Hrcv; [| |done].
  - destruct (receive_data_ok _ _ _ _ _ _ Hrcv Ho) as (start & pl & Hst & Hst0 & Hpl & -> & Hll & Hcase).
    rewrite length_slice in Hpl, Hll by lia. rewrite splice_slice by lia. intros Hw.
    assert (zlen (splice (c_offset (chunk f) + start) pl (pt_dst q)) = zlen (pt_dst q)) as Hlen
      by (rewrite length_splice by lia; done).
    pose proof (buffer_ok w _ q _ (wire_len header) done lost Hok Hq Hlen) as Hok1.
    set (w1 := with_buffer _ _ _ _) in *.
    assert (keeps (honest_data f header payload) w
      (if c_len (chunk f) <=? received f +w logical_len header
       then update w1 i {| phase := Topping; flight := others |} (complete (state w1)) (remaining (state w1) =? 1)
       else update w1 i {| phase := Topping; flight := {| chunk := chunk f; received := received f +w logical_len header |} :: others |}
              (state w1) false) done) as Hk; [|by destruct (_ <=? _); injection Hw as <-].
    eapply (received_keeps _ w w1 i t f others); try done.
    intros Hhon Hdata. pose proof Hhon as (Hho & Hhl & Hhle & Hwl & s' & Hs' & Hhp). assert (s' = s) as -> by congruence.
    assert (start = received f) as -> by lia.
    assert (pl = slice (offset header) (logical_len header) s) as Hpls.
    { cbn zeta in Hhp. destruct (decide (codec header = Raw)); [by subst|]. eapply Hhp; [|done].
      apply length_slice; [lia|lia|]. rewrite length_slice by lia. lia. }
    assert (flight_ok streams (parts w) f) as Hfo.
    { pose proof (flights_ok _ _ _ _ Hdata Hi) as Hfl. rewrite Hf in Hfl. by apply Forall_cons in Hfl as [? _]. }
    assert (zlen pl = logical_len header) as Hpll by (rewrite Hpls; apply length_slice; lia).
    split; [by eapply (buffer_data w i t f others q pl (received f)); try done; lia|].
    by eapply frame_received.
  - intros [= <-]. rewrite <- Hf. eapply step_error_keeps; try done; [unfold doomed|unfold alive|unfold fresh_of]; by rewrite Hp.
Qed.

Lemma retry_spec sp c charge st :
  match retry sp c charge st with
  | (true, st') => exists c', key c' = key c /\ queue st' = c' :: queue st /\ remaining st' = remaining st /\
                     live st' = live st /\ error st' = error st /\ last_conn_error st' = last_conn_error st
  | (false, st') => st' = st
  end.
Proof. unfold retry. destruct (_ <? _); [done|]. eexists. split; cycle 1; [split; [reflexivity|done]|reflexivity]. Qed.

(** What a thread keeps in flight is still received as far as it says. *)
Lemma subflight_ok w i t rest keepers done :
  data_ok streams w done -> threads w !! i = Some t -> flight t ≡ₚ rest ++ keepers ->
  Forall (flight_ok streams (parts w)) keepers.
Proof.
  intros Hdata Hi Hr. pose proof (flights_ok _ _ _ _ Hdata Hi) as Hfl. rewrite Hr in Hfl. by apply Forall_app in Hfl as [_ ?].
Qed.

(** A chunk is given up, by a thread that is about to end the transfer. *)
Lemma lose_keeps P w i t t' c rest done lost :
  pool_ok w done lost -> threads w !! i = Some t -> doomed t' = true -> alive t = alive t' ->
  held_keys t ≡ₚ key c :: held_keys t' -> phase_ok t' -> flight t ≡ₚ rest ++ flight t' ->
  keeps P w (update w i t' (state w) false) done.
Proof.
  intros Hok Hi Hd Ha Hh Hp Hrest. exists done, (key c :: lost).
  assert (phase t' <> Asleep /\ ~ left_early t') as [Hs Hl].
  { unfold doomed, left_early in *. destruct (phase t'); naive_solver. }
  split.
  - eapply update_ok; [done|done| |done|intros; congruence|by rewrite Ha|right; naive_solver|done|naive_solver].
    rewrite Hh. solve_Permutation.
  - intros _ Hdata. eapply data_update; [done| |by destruct Hdata]. by eapply subflight_ok.
Qed.

(** A chunk a server's error ended, or a broken connection gave back, is queued again. *)
Lemma requeue_keeps P w i t t' c charge rest st done lost :
  retry (spec w) c charge (state w) = (true, st) ->
  pool_ok w done lost -> threads w !! i = Some t -> doomed t = false \/ doomed t' = true -> alive t = alive t' ->
  held_keys t ≡ₚ key c :: held_keys t' -> phase_ok t' -> ~ left_early t' -> flight t ≡ₚ rest ++ flight t' ->
  keeps P w (update w i t' st true) done.
Proof.
  intros Hr Hok Hi Hd Ha Hh Hp Hle Hrest. pose proof (retry_spec (spec w) c charge (state w)) as Hs. rewrite Hr in Hs.
  destruct Hs as (c' & Hc' & Hq & Hrem & Hlive & He & Hlc). exists done, lost. split.
  - eapply update_ok; [done|done| |lia| |lia|by left|done|].
    + rewrite Hh, Hq. cbn. rewrite Hc'. solve_Permutation.
    + rewrite He. destruct Hd as [?|Hdt]; [done|]. intros _ ?. congruence.
    + rewrite Hlc. unfold over. rewrite He, Hrem. naive_solver.
  - intros _ Hdata. eapply data_update; [done| |by destruct Hdata]. by eapply subflight_ok.
Qed.

Lemma on_error_frame_keeps P w i t f others header payload w' done lost :
  pool_ok w done lost -> threads w !! i = Some t -> phase t = Reading -> flight t = f :: others ->
  on_error_frame w i header payload f others = Some w' -> keeps P w w' done.
Proof.
  intros Hok Hi Hp Hf.
  assert (held_keys t = key (chunk f) :: (key ∘ chunk <$> others)) as Hh.
  { unfold held_keys, fresh_of. rewrite Hp, Hf. cbn. by rewrite app_nil_r. }
  assert (alive t = 1%nat /\ doomed t = false /\ fresh_of t = []) as (Ha & Hd & Hfr) by (unfold alive, doomed, fresh_of; by rewrite Hp).
  assert (forall t', fresh_of t' = [] -> flight t' = others -> held_keys t ≡ₚ key (chunk f) :: held_keys t') as Hheld.
  { intros t' Hf1 Hf2. rewrite Hh. unfold held_keys. by rewrite Hf1, Hf2, app_nil_r. }
  unfold on_error_frame. destruct (DataConn.receive_error payload) as [e|e|]; [| |done].
  - destruct (_ =? 0); [intros [= <-]; rewrite <- Hf; by eapply step_error_keeps|].
    destruct (parts w !! part (chunk f)) as [p|]; [|done]. cbn [mbind option_bind].
    destruct (negb _ || negb _).
    + intros Hw. injection Hw as <-. replace (state w) with (with_queue (state w) (queue (state w))) by (by destruct (state w)).
      apply (on_error_keeps P w i t CProtocol others (queue (state w)) false [key (chunk f)] done lost); try done; [|by left|].
      * rewrite Hh. solve_Permutation.
      * intros _ Hdata. apply (subflight_ok w i t [f] others done); [done..|by rewrite Hf].
    + assert (keeps P w (update w i {| phase := Failing e true; flight := others |} (state w) false) done) as Hlose.
      { apply (lose_keeps P w i t _ (chunk f) [f] done lost); try done; [by apply Hheld|by rewrite Hf]. }
      destruct (ClientError.is_retryable e); [|by intros Hw; injection Hw as <-].
      pose proof (retry_spec (spec w) (chunk f) true (state w)) as Hs.
      destruct (retry _ _ _ _) as [[] st] eqn:Hr; intros Hw; injection Hw as <-; [|by subst st].
      apply (requeue_keeps P w i t _ (chunk f) true [f] st done lost); try done; [by left|by apply Hheld| |by rewrite Hf].
      by intros [?|?].
  - intros [= <-]. rewrite <- Hf. by eapply step_error_keeps.
Qed.

(** ** Broken connections *)

Lemma breaking_keeps P w i t e exhausted w' done lost :
  pool_ok w done lost -> threads w !! i = Some t -> phase t = Breaking e exhausted ->
  match last (flight t) with
  | Some f =>
      let fl := take (length (flight t) - 1) (flight t) in
      let '(again, st) := retry (spec w) (chunk f) (bool_decide (fl = [])) (state w) in
      Some (update w i {| phase := Breaking e (exhausted || negb again); flight := fl |} st again)
  | None => Some (update w i {| phase := if exhausted then Failing e false else Disconnected; flight := [] |} (state w) false)
  end = Some w' -> keeps P w w' done.
Proof.
  intros Hok Hi Hp. destruct (last (flight t)) as [f|] eqn:Hlast.
  - apply last_Some in Hlast as [fl Hf]. rewrite Hf, length_app, Nat.add_sub, take_app_length. cbn zeta.
    assert (forall b, held_keys t ≡ₚ key (chunk f) :: held_keys {| phase := Breaking e b; flight := fl |}) as Hh.
    { intros b. unfold held_keys, fresh_of. rewrite Hp, Hf, fmap_app. cbn. solve_Permutation. }
    assert (flight t ≡ₚ [f] ++ fl) as Hfp by (by rewrite Hf, Permutation_app_comm).
    pose proof (retry_spec (spec w) (chunk f) (bool_decide (fl = [])) (state w)) as Hs.
    destruct (retry _ _ _ _) as [[] st] eqn:Hr; intros Hw; injection Hw as <-.
    + eapply requeue_keeps; [done|done|done| |unfold alive; by rewrite Hp|apply Hh|done|by intros [?|?]|done].
      unfold doomed. rewrite Hp. cbn. destruct exhausted; [by right|by left].
    + subst st. eapply lose_keeps; [done|done| |unfold alive; by rewrite Hp|apply Hh|done|done].
      unfold doomed. cbn. by rewrite orb_true_r.
  - apply last_None in Hlast as Hf. intros Hw. injection Hw as <-.
    eapply quiet_keeps; try done; destruct exhausted; try done;
      unfold held_keys, fresh_of, alive, doomed, left_early; rewrite ?Hp, ?Hf; naive_solver.
Qed.

(** ** Every step *)

(** What the event may carry of the stream: data frames are honest, and a payload cut off
    midway lands where it was meant to. *)
Definition honest (w : Transfer) (i : nat) (ev : Event) : Prop :=
  forall t f others, threads w !! i = Some t -> flight t = f :: others ->
    match ev with
    | Frame header payload _ => frame_type header = Data -> honest_data f header payload
    | Torn start _ _ => received f <= start
    | _ => True
    end.

Lemma reading_keeps w i t ev w' done lost :
  pool_ok w done lost -> threads w !! i = Some t -> phase t = Reading -> act w i ev = Some w' ->
  keeps (honest w i ev) w w' done.
Proof.
  intros Hok Hi Hp. unfold act. rewrite Hi. cbn [mbind option_bind]. rewrite Hp.
  assert (alive t = 1%nat /\ doomed t = false /\ fresh_of t = []) as (Ha & Hd & Hfr) by (unfold alive, doomed, fresh_of; by rewrite Hp).
  assert (flight t <> []) as Hne.
  { pose proof (pk_phase _ _ _ _ _ Hok) as Hph. rewrite Forall_forall in Hph.
    specialize (Hph t ltac:(by eapply list_elem_of_lookup_2)). unfold phase_ok in Hph. by rewrite Hp in Hph. }
  assert (keeps (honest w i ev) w (update w i {| phase := Topping; flight := flight t |} (state w) false) done) as Hagain.
  { eapply quiet_keeps; try done; [unfold held_keys; by rewrite Hfr|unfold left_early; naive_solver]. }
  assert (forall e, keeps (honest w i ev) w (update w i (on_error e (flight t)) (state w) false) done) as Herr.
  { intros e. by eapply step_error_keeps. }
  destruct ev as [| |header payload pong|start junk k|e| |]; try done.
  - destruct (frame_type header) eqn:Hft.
    + intros Hw. injection Hw as <-. exact (Herr CProtocol).
    + destruct (flight t) as [|f others] eqn:Hf; [done|]. cbn [mbind option_bind]. intros Hw.
      destruct (on_data_keeps w i t f others header payload w' done lost Hok Hi Hp Hf Hw) as (d & l & Hok' & Hdata).
      exists d, l. split; [done|]. intros Hhon. apply Hdata. by apply (Hhon t f others).
    + destruct (flight t) as [|f others] eqn:Hf; [done|]. cbn [mbind option_bind]. intros Hw.
      by eapply on_error_frame_keeps.
    + destruct pong as [[]|k|]; intros Hw; [injection Hw as <-; exact Hagain|injection Hw as <-; exact (Herr (CIo k))|done].
    + intros Hw. injection Hw as <-. exact Hagain.
  - destruct (flight t) as [|f others] eqn:Hf; [done|]. cbn [mbind option_bind].
    destruct (parts w !! part (chunk f)) as [q|] eqn:Hq; [|done]. cbn [mbind option_bind].
    destruct (decide _) as [Hin|]; [|done]. intros Hw. injection Hw as <-. rewrite <- Hf.
    assert (held_keys t = key (chunk f) :: (key ∘ chunk <$> others)) as Hh.
    { unfold held_keys. rewrite Hfr, Hf. cbn. by rewrite app_nil_r. }
    destruct (held_part w done lost i t (key (chunk f)) (key ∘ chunk <$> others) Hok Hi ltac:(by rewrite Hh))
      as (Ho & Hl & q' & s & Hq' & _ & Hsz & Hb). cbn in Ho, Hl, Hq', Hb. assert (q' = q) as -> by congruence.
    pose proof (buffer_ok w _ q (splice (c_offset (chunk f) + start) junk (pt_dst q)) 0 done lost Hok Hq) as Hok1.
    rewrite length_splice in Hok1 by lia. specialize (Hok1 eq_refl).
    set (w1 := with_buffer _ _ _ _) in *.
    destruct (step_error_keeps (honest w i (Torn start junk k)) w1 i t (CIo k) false done lost) as (d & l & Hok' & Hdata); try done.
    exists d, l. split; [done|]. intros Hhon Hd0. apply Hdata; [done|].
    specialize (Hhon t f others Hi Hf). cbn in Hhon. by eapply buffer_data; try done; lia.
  - intros Hw. injection Hw as <-. exact (Herr (ClientError.from_wire e)).
Qed.

Lemma ending_keeps w i t ev w' done lost :
  pool_ok w done lost -> threads w !! i = Some t ->
  match phase t with Failing _ _ | Disconnected | Reconnecting | Leaving _ => True | _ => False end ->
  act w i ev = Some w' -> keeps (honest w i ev) w w' done.
Proof.
  intros Hok Hi Hph. unfold act. rewrite Hi. cbn [mbind option_bind].
  pose proof (pk_phase _ _ _ _ _ Hok) as Hpo. rewrite Forall_forall in Hpo.
  specialize (Hpo t ltac:(by eapply list_elem_of_lookup_2)). unfold phase_ok in Hpo.
  assert (forall st' t' notify lost', pool_ok (update w i t' st' notify) done lost' -> flight t' = flight t ->
    keeps (honest w i ev) w (update w i t' st' notify) done) as Hsame.
  { intros st' t' notify lost' Hok' Hf. exists done, lost'. split; [done|]. intros _ Hd.
    eapply data_update; [done| |by destruct Hd]. rewrite Hf. by eapply flights_ok. }
  destruct (phase t) as [| | | | |e keep| | |e|] eqn:Hp; try done; destruct ev as [| | | | |r|]; try done; intros Hw.
  - injection Hw as <-. eapply Hsame; [|done]. eapply update_ok; [done|done| |done|done| |by left| |].
    + unfold held_keys, fresh_of. rewrite Hp. destruct keep; reflexivity.
    + unfold alive. rewrite Hp. by destruct keep.
    + unfold phase_ok. cbn. destruct keep; [done|]. by apply Hpo.
    + intros Hl. split; [done|]. assert (over (fail e (state w))) by (by left). naive_solver.
  - injection Hw as <-. eapply quiet_keeps; try done; destruct (error (state w)) eqn:He; try done;
      unfold held_keys, fresh_of, alive, doomed, left_early, over; rewrite ?Hp, ?He; done || naive_solver.
  - destruct r as [[]|e|]; [| |done]; injection Hw as <-; eapply quiet_keeps; try done;
      unfold held_keys, fresh_of, alive, doomed, left_early; rewrite ?Hp; done || naive_solver.
  - injection Hw as <-. eapply Hsame; [|done]. eapply update_ok; [done|done| |done| | |by left|done|].
    + unfold held_keys, fresh_of. by rewrite Hp.
    + cbn. intros. split; [done|]. split; [done|]. unfold doomed. by rewrite Hp.
    + unfold alive. rewrite Hp. cbn. lia.
    + destruct e as [e|]; [done|]. cbn. intros ->. split; [done|]. split; [done|]. intros _. left. by right.
Qed.

Theorem act_keeps w i ev w' done lost :
  pool_ok w done lost -> act w i ev = Some w' -> keeps (honest w i ev) w w' done.
Proof.
  intros Hok Hact. pose proof Hact as Hact'. unfold act in Hact. apply bind_Some in Hact as (t & Hi & Hact).
  destruct (phase t) as [|fresh| | |e b|e k| | |e|] eqn:Hp.
  - destruct ev; try done. by eapply top_up_keeps.
  - destruct fresh as [|c rest], ev; try done; [|by eapply ask_keeps]. injection Hact as <-.
    pose proof (pk_phase _ _ _ _ _ Hok) as Hpo. rewrite Forall_forall in Hpo.
    specialize (Hpo t ltac:(by eapply list_elem_of_lookup_2)). unfold phase_ok in Hpo. rewrite Hp in Hpo.
    eapply quiet_keeps; try done; unfold held_keys, fresh_of, alive, doomed, left_early, phase_ok; rewrite ?Hp; done || naive_solver.
  - by eapply reading_keeps.
  - destruct ev; try done. injection Hact as <-.
    eapply quiet_keeps; try done; unfold held_keys, fresh_of, alive, doomed, left_early; rewrite ?Hp; done || naive_solver.
  - destruct ev; try done. by eapply breaking_keeps.
  - eapply ending_keeps; try done. by rewrite Hp.
  - eapply ending_keeps; try done. by rewrite Hp.
  - eapply ending_keeps; try done. by rewrite Hp.
  - eapply ending_keeps; try done. by rewrite Hp.
  - by destruct ev.
Qed.
End Steps.
