(* ===== verification/PoolCorrect.v ===== *)
(** What a transfer on the pool comes to: [DataPool::fetch] from its first step to its
    answer, over every interleaving of its threads and everything the network may do. *)
From S2P Require Import Prelude Errors Dtype Bytes Quality Codec Frame Reader Scatter Pool PoolSpec.
Import Pool.

(** The states a transfer may reach, the events satisfying [good]. *)
Inductive reach `{Build, CodecLib} (good : Transfer -> nat -> Event -> Prop) (w0 : Transfer) : Transfer -> Prop :=
  | reach_start : reach good w0 w0
  | reach_step w i ev w' : reach good w0 w -> good w i ev -> act w i ev = Some w' -> reach good w0 w'.

(** ** The chunks of a transfer *)

(** Each part's chunks follow one another from the first byte of its buffer to the last. *)
Definition cut_whole (p : Part) (cs : list (Z * Z)) : Prop :=
  zlen (pt_dst p) < two64 /\ exists c, Reader.consecutive c 0 (zlen (pt_dst p)) cs.

Fixpoint part_keys (n : nat) (chunks : list (list (Z * Z))) : list Key :=
  match chunks with
  | [] => []
  | cs :: chunks' => ((fun '(o, l) => (n, o, l)) <$> cs) ++ part_keys (S n) chunks'
  end.

Lemma start_keys sp ps chunks slots : key <$> queue (state (start sp ps chunks slots)) = part_keys 0 chunks.
Proof.
  unfold start. cbn [state queue].
  assert (forall n, key <$> concat (imap (fun p cs => (fun '(offset, len) =>
    {| part := n + p; c_offset := offset; c_len := len; attempts := 0 |}) <$> cs) chunks) = part_keys n chunks) as H.
  { induction chunks as [|cs chunks IH]; intros n; [done|]. cbn [imap concat part_keys]. rewrite fmap_app. f_equal.
    - rewrite <- list_fmap_compose. apply list_fmap_ext. intros _ [o l] _. cbn. by rewrite Nat.add_0_r.
    - rewrite <- (IH (S n)). f_equal. f_equal. apply imap_ext. intros p cs' _. cbn. apply list_fmap_ext.
      intros _ [o l] _. f_equal. lia. }
  apply (H 0%nat).
Qed.

Lemma consecutive_inside c off len cs :
  Reader.consecutive c off len cs -> Forall (fun '(o, l) => off <= o /\ 0 < l /\ o + l <= off + len) cs.
Proof.
  revert off len. induction cs as [|[o l] cs IH]; intros off len; cbn; [by constructor|]. intros (-> & ? & ? & Hc).
  constructor; [lia|]. eapply Forall_impl; [by apply IH|]. intros [o' l']. lia.
Qed.

(** Every byte is in a chunk. *)
Lemma consecutive_covers c off len cs j :
  Reader.consecutive c off len cs -> off <= j < off + len -> exists o l, (o, l) ∈ cs /\ o <= j < o + l.
Proof.
  revert off len. induction cs as [|[o l] cs IH]; intros off len; cbn; [lia|]. intros (-> & ? & ? & Hc) Hj.
  destruct (decide (j < off + l)) as [Hlt|Hge]; [exists off, l; split; [by left|lia]|].
  destruct (IH (off + l) (len - l) Hc ltac:(lia)) as (o & l' & Hin & Ho). exists o, l'. split; [by right|done].
Qed.

Lemma ordered_pairs_app {A} (R : A -> A -> Prop) l k :
  ForallOrdPairs R l -> ForallOrdPairs R k -> Forall (fun x => Forall (R x) k) l -> ForallOrdPairs R (l ++ k).
Proof.
  intros Hl Hk. induction Hl as [|x l Hx Hl IH]; intros Hc; [done|]. apply Forall_cons in Hc as [Hxk Hc].
  cbn. constructor; [by apply Forall_app|by apply IH].
Qed.

Lemma part_keys_from n chunks : Forall (fun k : Key => (n <= k.1.1)%nat) (part_keys n chunks).
Proof.
  revert n. induction chunks as [|cs chunks IH]; intros n; cbn; [done|]. apply Forall_app. split.
  - apply Forall_fmap, Forall_true. intros [o l]. cbn. lia.
  - eapply Forall_impl; [apply IH|]. cbn. lia.
Qed.

Lemma part_keys_apart n ps chunks : Forall2 cut_whole ps chunks -> ForallOrdPairs apart (part_keys n chunks).
Proof.
  intros Hc. revert n. induction Hc as [|p cs ps chunks [_ [c Hcut]] _ IH]; intros n; cbn; [constructor|].
  apply ordered_pairs_app; [|apply IH|].
  - revert Hcut. generalize 0 (zlen (pt_dst p)). induction cs as [|[o l] cs IHcs]; intros off len Hcut; cbn; [constructor|].
    cbn in Hcut. destruct Hcut as (-> & ? & ? & Hcut). constructor; [|by eapply IHcs].
    apply Forall_fmap. eapply Forall_impl; [by eapply consecutive_inside|]. intros [o' l'] ?. unfold apart. cbn. lia.
  - apply Forall_fmap, Forall_true. intros [o l]. cbn. eapply Forall_impl; [apply part_keys_from|].
    intros k Hk He. cbn in *. lia.
Qed.

Lemma part_keys_elem n chunks p cs o l : chunks !! p = Some cs -> (o, l) ∈ cs -> ((n + p)%nat, o, l) ∈ part_keys n chunks.
Proof.
  revert n p. induction chunks as [|cs' chunks IH]; intros n p Hp Hin; [done|]. destruct p as [|p]; cbn in *; apply elem_of_app.
  - left. injection Hp as ->. apply list_elem_of_fmap. exists (o, l). by rewrite Nat.add_0_r.
  - right. replace (n + S p)%nat with (S n + p)%nat by lia. by apply IH.
Qed.

Lemma start_chunks_ok ps chunks :
  Forall2 cut_whole ps chunks -> chunks_ok (part_keys 0 chunks) ((fun p => zlen (pt_dst p)) <$> ps).
Proof.
  intros Hc. split; [by eapply part_keys_apart|].
  assert (forall n, Forall (fun k : Key => 0 <= k.1.2 /\ 0 < k.2 /\ exists m,
    ((fun p => zlen (pt_dst p)) <$> ps) !! (k.1.1 - n)%nat = Some m /\ k.1.2 + k.2 <= m < two64) (part_keys n chunks)) as H.
  { induction Hc as [|p cs ps chunks [Hlen [c Hcut]] _ IH]; intros n; cbn; [done|]. apply Forall_app. split.
    - apply Forall_fmap. eapply Forall_impl; [by eapply consecutive_inside|]. intros [o l] ?. cbn.
      split; [lia|]. split; [lia|]. exists (zlen (pt_dst p)). rewrite Nat.sub_diag. split; [done|lia].
    - pose proof (part_keys_from (S n) chunks) as Hn. rewrite Forall_forall in Hn. specialize (IH (S n)).
      rewrite Forall_forall in IH |- *. intros k Hk. destruct (IH k Hk) as (? & ? & m & Hm & ?). split; [done|]. split; [done|].
      exists m. split; [|done]. specialize (Hn k Hk). replace (k.1.1 - n)%nat with (S (k.1.1 - S n)) by lia. done. }
  eapply Forall_impl; [apply (H 0%nat)|]. intros k. cbn beta. rewrite Nat.sub_0_r. done.
Qed.

(** ** What every reachable state keeps *)

Section Reached.
Context `{Build, CodecLib}.
Context (sp : FetchSpec) (ps : list Part) (chunks : list (list (Z * Z))) (slots : list Slot).
Context (Hcut : Forall2 cut_whole ps chunks).
Local Notation all := (part_keys 0 chunks).
Local Notation sizes := ((fun p : Part => zlen (pt_dst p)) <$> ps).
Local Notation w0 := (start sp ps chunks slots).

Lemma start_threads (P : Thread -> Prop) : (forall s, P (spawn s)) -> Forall P (threads w0).
Proof. intros HP. unfold start. cbn [threads]. by apply Forall_fmap, Forall_true. Qed.

Lemma start_ok : pool_ok all sizes w0 [] [].
Proof.
  split; try done; try (apply start_threads; by intros []).
  - rewrite (start_keys sp ps chunks slots), app_nil_l, app_nil_r.
    assert ((threads w0 ≫= held_keys) = []) as ->; [|by rewrite app_nil_r].
    unfold start. cbn [threads]. induction (take _ slots) as [|s used IH]; [done|]. cbn. by destruct s.
  - rewrite <- (start_keys sp ps chunks slots), length_fmap. unfold start. cbn. lia.
  - unfold live_count, start. cbn [state live threads]. generalize (take (length (concat (imap (fun p cs => (fun '(offset, len) =>
      {| part := p; c_offset := offset; c_len := len; attempts := 0 |}) <$> cs) chunks))) slots).
    intros used. induction used as [|s used IH]; [done|]. cbn in *. destruct s; cbn; lia.
  - intros _. apply start_threads. intros [| |k]; unfold left_early; cbn; naive_solver.
Qed.

Lemma reach_ok good streams w :
  Forall2 (fun (p : Part) (s : bytes) => zlen (pt_dst p) = zlen s) ps streams -> reach good w0 w ->
  exists done lost, pool_ok all sizes w done lost /\
    ((forall w i ev, good w i ev -> honest streams w i ev) -> data_ok streams w done).
Proof.
  intros Hs Hr. assert (sizes = (fun s : bytes => zlen s) <$> streams) as Hsz.
  { clear -Hs. induction Hs as [|p s ps' ss Hps _ IH]; [done|]. cbn. by rewrite Hps, IH. }
  induction Hr as [|w i ev w' _ IH Hg Hact].
  - exists [], []. split; [apply start_ok|]. intros _. split; [|done]. apply (start_threads (fun t => Forall (flight_ok streams (parts w0)) (flight t))). intros s. constructor.
  - destruct IH as (done & lost & Hok & Hdata).
    destruct (act_keeps _ _ streams (start_chunks_ok _ _ Hcut) Hsz w i ev w' done lost Hok Hact) as (done' & lost' & Hok' & Hd).
    exists done', lost'. split; [done|]. intros Hgood. apply Hd; [by apply Hgood|by apply Hdata].
Qed.

(** Any server, any network. *)
Lemma reach_pool_ok good w : reach good w0 w -> exists done lost, pool_ok all sizes w done lost.
Proof.
  intros Hr. assert (Forall2 (fun (p : Part) (s : bytes) => zlen (pt_dst p) = zlen s) ps (pt_dst <$> ps)) as Hs
    by (clear; induction ps as [|p l IH]; by constructor).
  destruct (reach_ok good _ w Hs Hr) as (d & l & Hok & _). by exists d, l.
Qed.

(** *** The end *)

Lemma finished_gone w : finished w = true -> Forall (fun t => phase t = Gone) (threads w).
Proof.
  unfold finished. intros Hf. apply Forall_forall. intros t Ht. rewrite forallb_forall in Hf.
  specialize (Hf t ltac:(by apply list_elem_of_In)). by destruct (phase t).
Qed.

Lemma idle_holds w done lost :
  pool_ok all sizes w done lost -> Forall (fun t => phase t = Gone \/ phase t = Asleep \/ (phase t = Topping /\ flight t = [])) (threads w) ->
  (threads w ≫= held_keys) = [] /\ Forall (fun t => doomed t = false) (threads w).
Proof.
  intros Hok Hi. pose proof (pk_phase _ _ _ _ _ Hok) as Hp. induction (threads w) as [|t ts IH]; [done|].
  apply Forall_cons in Hi as [Ht Hi]. apply Forall_cons in Hp as [Hpt Hp]. destruct (IH Hi Hp) as [Hh Hd]. cbn.
  change (list_bind _ _ held_keys ts) with (ts ≫= held_keys). rewrite Hh. unfold phase_ok in Hpt.
  split; [|constructor; [|done]]; unfold held_keys, fresh_of, doomed; destruct Ht as [Ht|[Ht|[Ht Hf]]]; rewrite Ht in *; rewrite ?Hpt, ?Hf; done.
Qed.

(** Once nothing is in flight and nothing failed, what is left is on the queue. *)
Lemma idle_remaining w done lost :
  pool_ok all sizes w done lost -> Forall (fun t => phase t = Gone \/ phase t = Asleep \/ (phase t = Topping /\ flight t = [])) (threads w) ->
  error (state w) = None -> lost = [] /\ remaining (state w) = zlen (queue (state w)).
Proof.
  intros Hok Hi He. destruct (idle_holds w done lost Hok Hi) as [Hh Hd]. pose proof (pk_lost _ _ _ _ _ Hok He Hd) as ->.
  split; [done|]. pose proof (Permutation_length (pk_keys _ _ _ _ _ Hok)) as Hl. rewrite Hh, !length_app, length_fmap in Hl.
  cbn in Hl. pose proof (pk_remaining _ _ _ _ _ Hok). lia.
Qed.

Lemma ordered_pairs_sublist {A} (R : A -> A -> Prop) l k : sublist l k -> ForallOrdPairs R k -> ForallOrdPairs R l.
Proof.
  induction 1 as [|x l k Hs IH|x l k Hs IH]; intros Hk; [done| |]; inversion Hk as [|?? Hx Hk']; subst; [|by apply IH].
  constructor; [|by apply IH]. rewrite Forall_forall in Hx |- *. intros y Hy. apply Hx. by eapply elem_of_sublist.
Qed.

(** The claims on a part are the ranges of the keys in flight that are of it. *)
Lemma claims_keys ts p :
  claims ts p = (fun k : Key => (k.1.2, k.1.2 + k.2)) <$>
    filter (fun k : Key => k.1.1 = p) (ts ≫= (fun t => key ∘ chunk <$> flight t)).
Proof.
  unfold claims. induction ts as [|t ts IH]; [done|]. cbn. rewrite filter_app, fmap_app. f_equal; [|exact IH].
  induction (flight t) as [|f fl IHf]; [done|]. cbn.
  destruct (decide (part (chunk f) = p)); cbn; by rewrite IHf.
Qed.

Lemma claims_apart w done lost p :
  pool_ok all sizes w done lost ->
  ForallOrdPairs (fun r1 r2 : range => r1.2 <= r2.1 \/ r2.2 <= r1.1) (claims (threads w) p).
Proof.
  intros Hok.
  assert (ForallOrdPairs apart (threads w ≫= (fun t => key ∘ chunk <$> flight t))) as Ha.
  { eapply (ordered_pairs_sublist _ _ ((threads w ≫= held_keys) ++ done ++ (key <$> queue (state w)) ++ lost)).
    - apply sublist_inserts_r. induction (threads w) as [|t ts IH]; [done|]. cbn. apply sublist_app; [|exact IH].
      by apply sublist_inserts_r.
    - eapply apart_perm; [|exact (part_keys_apart 0 ps chunks Hcut)]. rewrite <- (pk_keys _ _ _ _ _ Hok). solve_Permutation. }
  rewrite claims_keys. induction Ha as [|k l Hk Hl IH]; [constructor|]. rewrite filter_cons.
  destruct (decide (k.1.1 = p)) as [He|]; [|done]. cbn. constructor; [|done]. apply Forall_fmap, Forall_forall.
  intros k' [He' Hk']%list_elem_of_filter. rewrite Forall_forall in Hk. specialize (Hk k' Hk'). unfold apart in Hk. cbn.
  rewrite He, He' in Hk. by apply Hk.
Qed.

Lemma idle_queue w done lost :
  pool_ok all sizes w done lost -> Forall (fun t => phase t = Gone \/ phase t = Asleep) (threads w) ->
  finished w = true.
Proof.
  intros Hok Hi. destruct (forallb_forall (fun t => match phase t with Gone => true | _ => false end) (threads w)) as [_ Hf].
  unfold finished. apply Hf. intros t Ht. apply list_elem_of_In in Ht. rewrite Forall_forall in Hi.
  destruct (Hi t Ht) as [->|Hp]; [done|]. exfalso.
  pose proof (pk_sleep _ _ _ _ _ Hok) as Hs. rewrite Forall_forall in Hs. destruct (Hs t Ht Hp) as (Hq & He & Hr).
  destruct (idle_remaining w done lost Hok) as [_ Hrem]; [|done|rewrite Hq in Hrem; done].
  apply Forall_forall. intros u Hu. destruct (Hi u Hu); auto.
Qed.

(** Until the transfer has ended, a thread is awake. *)
Lemma idle_or_awake w done lost :
  pool_ok all sizes w done lost -> finished w = true \/ Exists (fun t => phase t <> Gone /\ phase t <> Asleep) (threads w).
Proof.
  intros Hok.
  assert (forall t, Decision (phase t = Gone \/ phase t = Asleep)) as Hdec.
  { intros t. destruct (phase t); (left; by auto) || (right; naive_solver). }
  destruct (decide (Forall (fun t => phase t = Gone \/ phase t = Asleep) (threads w))) as [Hf|Hf].
  - left. by eapply idle_queue.
  - right. apply not_Forall_Exists in Hf; [|apply _]. eapply Exists_impl; [exact Hf|]. cbn. tauto.
Qed.

(** The transfer is never found with chunks that nobody has. *)
Lemma never_unaccounted w done lost i t :
  pool_ok all sizes w done lost -> threads w !! i = Some t -> phase t = Topping ->
  top_up (spec w) (state w) (flight t) <> Unaccounted.
Proof.
  intros Hok Hi Hp Hu. pose proof (top_up_spec (spec w) (state w) (flight t)) as Hs. rewrite Hu in Hs.
  destruct Hs as (Hf & (Hq & He & Hr) & Hl). pose proof (pk_live _ _ _ _ _ Hok) as Hlive. unfold live_count in Hlive.
  rewrite (delete_Permutation _ _ _ Hi) in Hlive. cbn in Hlive. unfold alive at 1 in Hlive. rewrite Hp in Hlive.
  assert (Forall (fun t => phase t = Gone) (delete i (threads w))) as Hg.
  { assert (sum_list_with alive (delete i (threads w)) = 0%nat) as Hz by lia. clear -Hz.
    induction (delete i (threads w)) as [|u us IH]; [done|]. cbn in Hz. constructor; [|apply IH; lia].
    unfold alive in Hz at 1. destruct (phase u); done || lia. }
  destruct (idle_remaining w done lost Hok) as [_ Hrem]; [|done|rewrite Hq in Hrem; done].
  rewrite (delete_Permutation _ _ _ Hi). constructor; [by right; right|]. eapply Forall_impl; [exact Hg|]. auto.
Qed.
End Reached.

(** What the network, and a thread's own call, may answer a thread where it is: a payload is
    read whole, and a block that expands fills the place it is expanded into. *)
Definition meets `{Build, CodecLib} (ph : Phase) (ev : Event) : Prop :=
  match ph, ev with
  | Asking (_ :: _), Sent r => r <> Panic
  | Reading, Frame header payload pong =>
      pong <> Panic /\ zlen payload = wire_len header /\ 0 <= logical_len header /\
      (codec header <> Raw -> forall place, zlen place = logical_len header ->
         match decompress_into (codec header) payload place with Ok e => zlen e = logical_len header | Err _ => True | Panic => False end)
  | Reading, ReadFailed _ => True
  | Reconnecting, Reconnected r => r <> Panic
  | Asleep, Wake => True
  | (Topping | Asking [] | Breaking _ _ | Failing _ _ | Disconnected | Leaving _), Tick => True
  | _, _ => False
  end.

Section Outcomes.
Context `{Build, CodecLib}.

Lemma receive_data_total header request off dst payload :
  zlen payload = wire_len header -> 0 <= off -> 0 <= logical_len header ->
  (codec header <> Raw -> forall place, zlen place = logical_len header ->
     match decompress_into (codec header) payload place with Ok e => zlen e = logical_len header | Err _ => True | Panic => False end) ->
  DataConn.receive_data header request off dst payload <> Panic.
Proof.
  intros Hw Ho Hl Hd. unfold DataConn.receive_data. destruct (negb _); [done|]. destruct (negb _); [done|].
  destruct (negb _) eqn:Hsane; [done|]. apply negb_false_iff in Hsane.
  destruct (_ ≫= _) as [start|] eqn:Hst; [|done].
  apply bind_Some in Hst as (st & Hsub & Hst). apply checked_sub_some in Hsub as [-> Hge].
  apply bind_Some in Hst as (en & Hadd & Hst). apply checked_add_some in Hadd as [-> _].
  destruct (Z.leb_spec (offset header - off + logical_len header) (zlen dst)); [|done]. injection Hst as <-.
  destruct (decide (codec header = Raw)) as [Hc|Hc].
  - rewrite bool_decide_eq_true_2 in Hsane |- * by done. apply Z.eqb_eq in Hsane. by rewrite splice_ok by lia.
  - rewrite bool_decide_eq_false_2 by done. rewrite slice_ok by lia. cbn [mbind result_bind].
    specialize (Hd Hc (slice (offset header - off) (logical_len header) dst)). rewrite length_slice in Hd by lia.
    specialize (Hd eq_refl). destruct (decompress_into _ _ _); cbn; [by rewrite splice_ok by lia|done|done].
Qed.

Lemma receive_error_total payload : DataConn.receive_error payload <> Panic.
Proof. unfold DataConn.receive_error, ErrorPayload.decode. by destruct payload. Qed.

Section Transfers.
Context (sp : FetchSpec) (ps : list Part) (chunks : list (list (Z * Z))) (slots : list Slot).
Context (Hcut : Forall2 cut_whole ps chunks).
Local Notation all := (part_keys 0 chunks).
Local Notation sizes := ((fun p : Part => zlen (pt_dst p)) <$> ps).
Local Notation w0 := (start sp ps chunks slots).

Lemma own_sizes : sizes = (fun s : bytes => zlen s) <$> (pt_dst <$> ps).
Proof. by rewrite <- list_fmap_compose. Qed.

Lemma front_part w done lost i t f others :
  pool_ok all sizes w done lost -> threads w !! i = Some t -> flight t = f :: others ->
  0 <= c_offset (chunk f) /\ exists p, parts w !! part (chunk f) = Some p.
Proof.
  intros Hok Hi Hf.
  destruct (held_part all sizes (pt_dst <$> ps) (start_chunks_ok _ _ Hcut) own_sizes w done lost i t (key (chunk f))
    ((key ∘ chunk <$> others) ++ (key <$> fresh_of t)) Hok Hi) as (? & _ & p & _ & ? & _).
  - unfold held_keys. by rewrite Hf.
  - split; [done|by exists p].
Qed.

(** Every event a thread can meet takes it further: nothing panics. *)
Lemma act_total w done lost i t ev :
  pool_ok all sizes w done lost -> threads w !! i = Some t -> meets (phase t) ev -> is_Some (act w i ev).
Proof.
  intros Hok Hi Hm. unfold act. rewrite Hi. cbn [mbind option_bind].
  pose proof (pk_phase _ _ _ _ _ Hok) as Hpo. rewrite Forall_forall in Hpo.
  specialize (Hpo t ltac:(by eapply list_elem_of_lookup_2)). unfold phase_ok in Hpo.
  destruct (phase t) as [|fresh| | |e b|e k| | |e|] eqn:Hp.
  - destruct ev; try done. destruct (top_up _ _ _); by eexists.
  - destruct fresh as [|c rest]; destruct ev as [|r| | | | |]; try done.
    destruct (claim_granted all sizes (pt_dst <$> ps) (start_chunks_ok _ _ Hcut) own_sizes w done lost i t c rest Hok Hi Hp)
      as (p & Hpart & cl & Hcl).
    unfold ask. rewrite Hpart. cbn [mbind option_bind]. rewrite Hcl. by destruct r.
  - destruct (flight t) as [|f others] eqn:Hf; [by destruct Hpo|].
    destruct (front_part w done lost i t f others Hok Hi Hf) as (Ho & p & Hpart).
    destruct ev as [| |header payload pong| | | |]; try done. destruct Hm as (Hpong & Hw & Hl & Hd). cbn [mbind option_bind].
    destruct (frame_type header); [done| | |by destruct pong|done].
    + unfold on_data. rewrite Hpart. cbn [mbind option_bind].
      pose proof (receive_data_total header (pt_request_id p) (c_offset (chunk f))
        (slice (c_offset (chunk f)) (c_len (chunk f)) (pt_dst p)) payload Hw Ho Hl Hd) as Hr.
      destruct (DataConn.receive_data _ _ _ _ _); [destruct (_ <=? _); by eexists|by eexists|done].
    + unfold on_error_frame. pose proof (receive_error_total payload) as Hr.
      destruct (DataConn.receive_error payload) as [e|e|]; [|by eexists|done]. destruct (_ =? 0); [by eexists|].
      rewrite Hpart. cbn [mbind option_bind]. destruct (negb _ || negb _); [by eexists|].
      destruct (if ClientError.is_retryable e then _ else _) as [[] st]; by eexists.
  - by destruct ev.
  - destruct ev; try done. destruct (last (flight t)); [|by eexists]. cbn zeta. destruct (retry _ _ _ _) as [[] st]; by eexists.
  - by destruct ev.
  - by destruct ev.
  - destruct ev as [| | | | |r|]; try done. by destruct r.
  - by destruct ev.
  - done.
Qed.
End Transfers.

Lemma update_length w i t st notify : length (threads (update w i t st notify)) = length (threads w).
Proof. unfold update. cbn [threads]. destruct notify; by rewrite ?length_fmap, length_insert. Qed.

Lemma act_length w i ev w' : act w i ev = Some w' -> length (threads w') = length (threads w).
Proof.
  unfold act, ask, on_data, on_error_frame. intros Hact. repeat (case_match; simplify_option_eq); try done;
    cbn; repeat case_match; by rewrite ?length_fmap, ?length_insert.
Qed.

Lemma reach_length good w0 w : reach good w0 w -> length (threads w) = length (threads w0).
Proof. induction 1 as [|w i ev w' _ IH _ Hact]; [done|]. rewrite <- IH. by eapply act_length. Qed.

(** Once every chunk is done, every buffer is its stream. *)
Lemma all_received ps chunks streams w done lost :
  Forall2 cut_whole ps chunks -> Forall2 (fun (p : Part) (s : bytes) => zlen (pt_dst p) = zlen s) ps streams ->
  pool_ok (part_keys 0 chunks) ((fun p => zlen (pt_dst p)) <$> ps) w done lost -> data_ok streams w done ->
  (forall k, k ∈ part_keys 0 chunks -> k ∈ done) -> pt_dst <$> parts w = streams.
Proof.
  intros Hcut Hs Hok [_ Hdone] Hall. rewrite Forall_forall in Hdone. pose proof (pk_sizes _ _ _ _ _ Hok) as Hsz.
  apply list_eq. intros p. rewrite list_lookup_fmap. apply (f_equal (fun l => l !! p)) in Hsz.
  rewrite !list_lookup_fmap in Hsz.
  destruct (ps !! p) as [q0|] eqn:Hq0; destruct (parts w !! p) as [q|] eqn:Hq; cbn in Hsz; try done; cbn.
  - destruct (Forall2_lookup_l _ _ _ _ _ Hs Hq0) as (s & Hs' & Hlen). destruct (Forall2_lookup_l _ _ _ _ _ Hcut Hq0) as (cs & Hcs & _ & c & Hc).
    rewrite Hs'. f_equal. injection Hsz as Hsz. apply list_eq_same_length with (length s); [done|lia|].
    intros j x y Hj Hx Hy. destruct (consecutive_covers c 0 (zlen (pt_dst q0)) cs (Z.of_nat j) Hc ltac:(lia)) as (o & l & Hin & Ho).
    destruct (Hdone (p, o, l)) as (q' & s' & Hq' & Hs'' & Hsl); [by apply Hall, (part_keys_elem 0 chunks p cs)|]. cbn in Hq', Hs'', Hsl.
    assert (q' = q) as -> by congruence. assert (s' = s) as -> by congruence.
    pose proof (consecutive_inside _ _ _ _ Hc) as Hins. rewrite Forall_forall in Hins. specialize (Hins _ Hin). cbn in Hins.
    apply (f_equal (fun l => l !! (Z.to_nat (Z.of_nat j - o)))) in Hsl. rewrite !lookup_slice in Hsl by lia.
    replace (Z.to_nat o + Z.to_nat (Z.of_nat j - o))%nat with j in Hsl by lia. congruence.
  - symmetry. apply lookup_ge_None_2. apply lookup_ge_None_1 in Hq0. apply Forall2_length in Hs. lia.
Qed.

(** C5: no transfer hangs and no thread panics, whatever the server sends and whichever
    connections break.  At every point every event that can meet a thread takes it further
    (a data or error frame always finds a fetch outstanding, a claim its range free), and
    unless all threads have left, one of them is not asleep. *)
Theorem pool_never_stuck sp ps chunks slots w :
  Forall2 cut_whole ps chunks -> reach (fun _ _ _ => True) (start sp ps chunks slots) w ->
  (forall i t ev, threads w !! i = Some t -> meets (phase t) ev -> is_Some (act w i ev)) /\
  (finished w = true \/ Exists (fun t => phase t <> Gone /\ phase t <> Asleep) (threads w)).
Proof.
  intros Hcut Hr. destruct (reach_pool_ok sp ps chunks slots Hcut _ w Hr) as (done_ & lost & Hok).
  split; [intros i t ev; by eapply act_total|].
  by apply (idle_or_awake ps chunks w done_ lost).
Qed.

(** C25: what the threads share stays consistent at every point of every transfer.  A
    claim on the buffer is granted whenever it is made, the claims alive on a part share no
    byte, no thread reads without a fetch outstanding, and the last thread left never finds
    chunks unaccounted for. *)
Theorem pool_consistent sp ps chunks slots w :
  Forall2 cut_whole ps chunks -> reach (fun _ _ _ => True) (start sp ps chunks slots) w ->
  (forall i t c rest, threads w !! i = Some t -> phase t = Asking (c :: rest) ->
     exists p, parts w !! part c = Some p /\
       is_ok (ScatterBuffer.claim {| buffer_len := zlen (pt_dst p); claimed := claims (threads w) (part c) |} (c_offset c) (c_len c))) /\
  (forall p, ForallOrdPairs (fun r1 r2 : range => r1.2 <= r2.1 \/ r2.2 <= r1.1) (claims (threads w) p)) /\
  (forall i t, threads w !! i = Some t -> phase t = Reading -> flight t <> []) /\
  (forall i t, threads w !! i = Some t -> phase t = Topping -> top_up (spec w) (state w) (flight t) <> Unaccounted).
Proof.
  intros Hcut Hr. destruct (reach_pool_ok sp ps chunks slots Hcut _ w Hr) as (done_ & lost & Hok).
  split; [|split; [|split]].
  - intros i t c rest Hi Hp. by eapply (claim_granted _ _ _ (start_chunks_ok _ _ Hcut) (own_sizes ps)).
  - intros p. by eapply claims_apart.
  - intros i t Hi Hp. pose proof (pk_phase _ _ _ _ _ Hok) as Hpo. rewrite Forall_forall in Hpo.
    specialize (Hpo t ltac:(by eapply list_elem_of_lookup_2)). unfold phase_ok in Hpo. by rewrite Hp in Hpo.
  - intros i t. by eapply never_unaccounted.
Qed.

(** A transfer that answers [Ok] has every byte. *)
Lemma ok_has_all sp ps chunks slots streams w retried :
  Forall2 cut_whole ps chunks -> Forall2 (fun (p : Part) (s : bytes) => zlen (pt_dst p) = zlen s) ps streams ->
  slots <> [] -> reach (honest streams) (start sp ps chunks slots) w -> finished w = true -> answer w = Ok retried ->
  pt_dst <$> parts w = streams.
Proof.
  intros Hcut Hs Hslots Hr Hfin Hans.
  destruct (reach_ok sp ps chunks slots Hcut _ streams w Hs Hr) as (d & lost & Hok & Hdata). specialize (Hdata ltac:(done)).
  assert (Forall (fun t => phase t = Gone) (threads w)) as Hgone by (by apply finished_gone).
  eapply all_received; [done..|]. intros k Hk.
  assert (error (state w) = None /\ remaining (state w) <= 0) as [He Hrem].
  { unfold answer in Hans. destruct (threads w) as [|t ts] eqn:Hth.
    - exfalso. apply reach_length in Hr. rewrite Hth in Hr. rewrite <- (start_keys sp ps chunks slots) in Hk.
      unfold start in Hr, Hk. cbn [threads state queue] in Hr, Hk. rewrite length_fmap, length_take in Hr.
      apply list_elem_of_fmap in Hk as (c & _ & Hc). destruct slots, (concat _); try done. by apply not_elem_of_nil in Hc.
    - destruct (error (state w)); [done|]. split; [done|]. destruct (0 <? remaining (state w)) eqn:Hrem; [done|lia]. }
  destruct (idle_holds ps chunks w d lost Hok) as [Hh _]; [eapply Forall_impl; [done|]; auto|].
  destruct (idle_remaining ps chunks w d lost Hok) as [-> Hq]; [eapply Forall_impl; [done|]; auto|done|].
  rewrite <- (pk_keys _ _ _ _ _ Hok), Hh in Hk. destruct (queue (state w)); [|cbn in Hq; lia]. cbn in Hk.
  by rewrite app_nil_r in Hk.
Qed.

(** C3: a transfer that answers [Ok] has delivered every byte.  Over any number of
    parts, connections and interleavings, with connections breaking inside frames and
    chunks fetched again, provided the data frames that do arrive carry the bytes of the
    stream they are about, an [Ok] means every buffer holds its stream, whole. *)
Theorem pool_delivers sp ps chunks slots streams w retried :
  Forall2 cut_whole ps chunks -> Forall2 (fun (p : Part) (s : bytes) => zlen (pt_dst p) = zlen s) ps streams ->
  slots <> [] -> reach (honest streams) (start sp ps chunks slots) w -> finished w = true -> answer w = Ok retried ->
  pt_dst <$> parts w = streams.
Proof. apply ok_has_all. Qed.

(** A transfer fails for a reason it was given.  An error answered is the one that
    ended the transfer or the last that kept a connection from being rebuilt, so chunks are
    never left over silently; the answer's own "every data connection was lost" is never
    reached. *)
Theorem pool_fails_for_a_reason sp ps chunks slots w e :
  Forall2 cut_whole ps chunks -> reach (fun _ _ _ => True) (start sp ps chunks slots) w -> finished w = true -> answer w = Err e ->
  error (state w) = Some e \/ (error (state w) = None /\ last_conn_error (state w) = Some e).
Proof.
  intros Hcut Hr Hfin Hans. destruct (reach_pool_ok sp ps chunks slots Hcut _ w Hr) as (d & lost & Hok).
  unfold answer in Hans. apply finished_gone in Hfin. pose proof (pk_left _ _ _ _ _ Hok) as Hleft.
  destruct (threads w) as [|t ts]; [done|]. destruct (error (state w)) as [e'|] eqn:He; [left; congruence|right].
  split; [done|]. destruct (last_conn_error (state w)) as [e'|]; [destruct (_ <? _); by simplify_eq/=|].
  exfalso. apply Forall_cons in Hfin as [Hg _]. specialize (Hleft eq_refl). apply Forall_cons in Hleft as [Hl _].
  destruct (Hl ltac:(by left)) as [?|Hz]; [done|]. by rewrite Hz in Hans.
Qed.

(** *** A run, event by event *)

Fixpoint run (w : Transfer) (evs : list (nat * Event)) : option Transfer :=
  match evs with [] => Some w | (i, ev) :: evs' => w' ← act w i ev; run w' evs' end.

Fixpoint good_run (good : Transfer -> nat -> Event -> Prop) (w : Transfer) (evs : list (nat * Event)) : Prop :=
  match evs with
  | [] => True
  | (i, ev) :: evs' => good w i ev /\ match act w i ev with Some w' => good_run good w' evs' | None => False end
  end.

Lemma run_reach good w0 w evs w' : reach good w0 w -> run w evs = Some w' -> good_run good w evs -> reach good w0 w'.
Proof.
  revert w. induction evs as [|[i ev] evs IH]; intros w Hr Hrun Hg; cbn in *; [by simplify_eq|].
  destruct Hg as [Hgood Hg]. apply bind_Some in Hrun as (w1 & Hact & Hrun). rewrite Hact in Hg.
  apply (IH w1); [by eapply reach_step|done|done].
Qed.

(** Only what carries data has to be honest. *)
Lemma quiet_run streams w evs w' :
  Forall (fun '(_, ev) => match ev with Frame _ _ _ | Torn _ _ _ => False | _ => True end) evs ->
  run w evs = Some w' -> good_run (honest streams) w evs.
Proof.
  intros Hq. revert w. induction Hq as [|[i ev] evs Hev _ IH]; intros w Hrun; [done|]. cbn in *.
  apply bind_Some in Hrun as (w1 & Hact & Hrun). rewrite Hact. split; [|by apply IH]. intros t f others _ _. by destruct ev.
Qed.

Lemma any_run w evs w' : run w evs = Some w' -> good_run (fun _ _ _ => True) w evs.
Proof.
  revert w. induction evs as [|[i ev] evs IH]; intros w Hrun; [done|]. cbn in *.
  apply bind_Some in Hrun as (w1 & Hact & Hrun). rewrite Hact. split; [done|]. by apply IH.
Qed.
End Outcomes.

(** A transfer of one chunk whose connection breaks after two bytes and is rebuilt. *)
Definition demo_sp : FetchSpec := {| credit := 2; max_retries := 3 |}.
Definition demo_part : Part := {| pt_request_id := 7; pt_ticket := []; pt_dst := [0; 0; 0; 0] |}.
Definition demo_start : Transfer := start demo_sp [demo_part] [[(0, 4)]] [Held].
Definition ask_events : list (nat * Event) := (0%nat,.) <$> [Tick; Sent (Ok tt); Tick].
Definition repair_events : list (nat * Event) := (0%nat,.) <$> [Tick; Tick; Tick; Reconnected (Ok tt)] ++ [Tick; Sent (Ok tt); Tick].
Definition end_events : list (nat * Event) := (0%nat,.) <$> [Tick; Tick].
Definition lost_events : list (nat * Event) :=
  (0%nat,.) <$> [Tick; Sent (Err KTimedOut); Tick; Tick; Tick; Reconnected (Err (CData ClassTransient)); Tick].

Lemma demo_cut : Forall2 cut_whole [demo_part] [[(0, 4)]].
Proof. repeat constructor. by exists 4. Qed.

Section Witnesses.
#[local] Existing Instance demo_lib.
#[local] Instance demo_build : Build := {| feature_sz := true; feature_zfp := false |}.

Definition demo_reading : Transfer := Eval vm_compute in default demo_start (run demo_start ask_events).
Definition demo_torn : Transfer := Eval vm_compute in default demo_start (act demo_reading 0 (Torn 0 [9; 9] KTimedOut)).
Definition demo_again : Transfer := Eval vm_compute in default demo_start (run demo_torn repair_events).
Definition demo_got : Transfer := Eval vm_compute in
  default demo_start (act demo_again 0 (Frame (FrameHeader.data 7 0 4) [1; 2; 3; 4] (Ok tt))).
Definition demo_end : Transfer := Eval vm_compute in default demo_start (run demo_got end_events).
Definition demo_lost : Transfer := Eval vm_compute in default demo_start (run demo_start lost_events).

Lemma demo_reach : reach (honest [[1; 2; 3; 4]]) demo_start demo_end.
Proof.
  assert (forall w w' evs, reach (honest [[1; 2; 3; 4]]) demo_start w -> run w evs = Some w' ->
    Forall (fun '(_, ev) => match ev with Frame _ _ _ | Torn _ _ _ => False | _ => True end) evs ->
    reach (honest [[1; 2; 3; 4]]) demo_start w') as Hrun.
  { intros w w' evs Hr He Hq. eapply run_reach; [done..|by eapply quiet_run]. }
  assert (reach (honest [[1; 2; 3; 4]]) demo_start demo_reading) as H1.
  { apply (Hrun demo_start _ ask_events); [constructor|by vm_compute|by repeat constructor]. }
  assert (reach (honest [[1; 2; 3; 4]]) demo_start demo_torn) as H2.
  { apply (reach_step _ _ demo_reading 0%nat (Torn 0 [9; 9] KTimedOut)); [done| |by vm_compute].
    intros t f others [= <-] [= <- <-]. cbn. lia. }
  assert (reach (honest [[1; 2; 3; 4]]) demo_start demo_again) as H3.
  { apply (Hrun demo_torn _ repair_events); [done|by vm_compute|by repeat constructor]. }
  assert (reach (honest [[1; 2; 3; 4]]) demo_start demo_got) as H4.
  { apply (reach_step _ _ demo_again 0%nat (Frame (FrameHeader.data 7 0 4) [1; 2; 3; 4] (Ok tt))); [done| |by vm_compute].
    intros t f others [= <-] [= <- <-]. unfold honest_data. cbn. intros _. split; [done|]. split; [lia|]. split; [lia|]. split; [done|].
    by exists [1; 2; 3; 4]. }
  apply (Hrun demo_got _ end_events); [done|by vm_compute|by repeat constructor].
Qed.

Lemma demo_reach_any w evs : run demo_start evs = Some w -> reach (fun _ _ _ => True) demo_start w.
Proof. intros Hr. eapply run_reach; [constructor|exact Hr|by eapply any_run]. Qed.

Lemma pool_delivers_witness : answer demo_end = Ok 1 /\ pt_dst <$> parts demo_end = [[1; 2; 3; 4]].
Proof.
  split; [reflexivity|].
  refine (pool_delivers demo_sp [demo_part] [[(0, 4)]] [Held] [[1; 2; 3; 4]] demo_end 1 demo_cut _ _ demo_reach _ _);
    [by constructor|done|reflexivity|reflexivity].
Defined.

Lemma pool_never_stuck_witness : is_Some (act demo_reading 0 (ReadFailed (WIo KTimedOut))).
Proof.
  refine (proj1 (pool_never_stuck demo_sp [demo_part] [[(0, 4)]] [Held] demo_reading demo_cut
    (demo_reach_any demo_reading ask_events ltac:(vm_compute; reflexivity))) 0%nat
    {| phase := Reading; flight := [{| chunk := {| part := 0; c_offset := 0; c_len := 4; attempts := 0 |}; received := 0 |}] |}
    _ _ _); [reflexivity|exact I].
Defined.

Lemma pool_consistent_witness : claims (threads demo_reading) 0 = [(0, 4)] /\
  ForallOrdPairs (fun r1 r2 : range => r1.2 <= r2.1 \/ r2.2 <= r1.1) (claims (threads demo_reading) 0).
Proof.
  split; [reflexivity|].
  exact (proj1 (proj2 (pool_consistent demo_sp [demo_part] [[(0, 4)]] [Held] demo_reading demo_cut
    (demo_reach_any demo_reading ask_events ltac:(vm_compute; reflexivity)))) 0%nat).
Defined.

(** The connection cannot be rebuilt. *)
Lemma pool_fails_for_a_reason_witness : answer demo_lost = Err (CData ClassTransient) /\
  last_conn_error (state demo_lost) = Some (CData ClassTransient).
Proof.
  split; [reflexivity|].
  destruct (pool_fails_for_a_reason demo_sp [demo_part] [[(0, 4)]] [Held] demo_lost (CData ClassTransient) demo_cut
    (demo_reach_any demo_lost lost_events ltac:(vm_compute; reflexivity)) eq_refl eq_refl) as [H|[_ H]];
    [discriminate H|exact H].
Defined.
End Witnesses.
