(* ===== verification/PoolEnds.v ===== *)
(** A transfer ends: every step of its threads uses up an allowance made of the bytes still
    to come, the retries left and the states the threads have to go through, but for the
    steps that bring nothing, of which a server or the scheduler may put in any number. *)
From S2P Require Import Prelude Errors Dtype Bytes Quality Codec Frame Scatter Pool PoolSpec PoolCorrect.
Import Pool.

(** ** The allowance *)

Section Allowance.
(** The retries a chunk has, the fetches a connection may have outstanding, the threads. *)
Context (retries_ credit_ n : Z).

(** What a byte may cost, and what a break may. *)
Definition per_byte : Z := n + 3.
Definition per_break : Z := 3 * n + 8 + credit_ * (n + 2).

(** What is left for a chunk: every fetch of it that may still fail, and its bytes. *)
Definition due (c : Chunk) : Z :=
  (retries_ + 1 - attempts c) * (per_break + c_len c * per_byte) + c_len c * per_byte + 1.

(** One asked for; what has been received of the oldest counts. *)
Definition asked (f : InFlight) : Z := due (chunk f) - 1.
Definition outstanding (fl : list InFlight) : Z :=
  match fl with [] => 0 | f :: _ => total asked fl - received f * per_byte end.

(** Those a broken connection hands back, the oldest charged. *)
Definition handed_back (fl : list InFlight) : Z :=
  match fl with
  | [] => 0
  | f :: _ => total (fun g => asked g + (n + 2)) fl - (per_break + c_len (chunk f) * per_byte)
  end.

Definition phase_due (t : Thread) : Z :=
  match phase t with
  | Topping => n + 3
  | Asking fresh => 2 + total due fresh
  | Reading => 1
  | Asleep => n + 2
  | Breaking _ _ => 2 * n + 7
  | Failing _ _ => 2 * n + 6
  | Disconnected => n + 5
  | Reconnecting => n + 4
  | Leaving _ => n + 1
  | Gone => 0
  end.

Definition thread_due (t : Thread) : Z :=
  phase_due t + match phase t with Breaking _ _ => handed_back (flight t) | _ => outstanding (flight t) end.

Definition left_due (w : Transfer) : Z := total due (queue (state w)) + total thread_due (threads w).

(** *** What keeps the accounts in order *)

Definition chunk_tame (c : Chunk) : Prop := 0 <= attempts c <= retries_ /\ 0 <= c_len c /\ 2 * c_len c < two64.
Definition flight_tame (f : InFlight) : Prop := chunk_tame (chunk f) /\ 0 <= received f <= c_len (chunk f).
Definition thread_tame (t : Thread) : Prop :=
  Forall flight_tame (flight t) /\ Forall chunk_tame (fresh_of t) /\ zlen (flight t) + zlen (fresh_of t) <= credit_.

Record tame (w : Transfer) : Prop := {
  tm_spec : max_retries (spec w) = retries_ /\ Z.max (credit (spec w)) 1 = credit_;
  tm_queue : Forall chunk_tame (queue (state w));
  tm_threads : Forall thread_tame (threads w);
  tm_count : zlen (threads w) = n;
}.

Context (Hretries : 0 <= retries_ /\ retries_ + 1 < two32) (Hcredit : 1 <= credit_) (Hn : 0 <= n).

Lemma due_pos c : chunk_tame c -> 1 <= due c.
Proof. intros (Ha & Hl & _). unfold due, per_break, per_byte. nia. Qed.

Lemma asked_nonneg f : flight_tame f -> per_break + c_len (chunk f) * per_byte + received f * per_byte <= asked f.
Proof.
  intros [(Ha & Hl & _) Hr]. unfold asked, due. set (b := per_break + c_len (chunk f) * per_byte).
  assert (0 <= per_byte /\ 0 <= b) as [? ?] by (unfold b, per_break, per_byte; nia). nia.
Qed.

Lemma total_asked fl : Forall flight_tame fl -> 0 <= total asked fl.
Proof.
  intros Hf. apply total_nonneg. eapply Forall_impl; [exact Hf|]. intros f Hft. pose proof (asked_nonneg f Hft).
  destruct Hft as [(_ & Hl & _) Hr]. unfold per_break, per_byte in *. nia.
Qed.

Lemma outstanding_nonneg fl : Forall flight_tame fl -> 0 <= outstanding fl.
Proof.
  intros Hf. destruct fl as [|f fl]; [done|]. apply Forall_cons in Hf as [Hft Hf]. unfold outstanding. rewrite total_cons.
  pose proof (total_asked fl Hf). pose proof (asked_nonneg f Hft). destruct Hft as [(_ & Hl & _) _].
  unfold per_break, per_byte in *. nia.
Qed.

Lemma outstanding_le fl : Forall flight_tame fl -> outstanding fl <= total asked fl.
Proof.
  intros Hf. destruct fl as [|f fl]; [done|]. apply Forall_cons in Hf as [[_ Hr] _]. unfold outstanding, per_byte. nia.
Qed.

(** What one fetch brings leaves the rest at most as they were. *)
Lemma outstanding_rest f fl :
  Forall flight_tame (f :: fl) -> outstanding fl + per_break + c_len (chunk f) * per_byte <= outstanding (f :: fl).
Proof.
  intros [Hft Hf]%Forall_cons. pose proof (asked_nonneg f Hft). unfold outstanding at 2. rewrite total_cons.
  pose proof (outstanding_le fl Hf). lia.
Qed.

(** A break can be paid for. *)
Lemma handed_back_paid f fl :
  Forall flight_tame (f :: fl) -> zlen (f :: fl) <= credit_ ->
  handed_back (f :: fl) + 3 * n + 8 <= outstanding (f :: fl).
Proof.
  intros [[_ Hr] _]%Forall_cons Hlen. unfold handed_back, outstanding. rewrite total_shift.
  assert (received f * per_byte <= c_len (chunk f) * per_byte) by (unfold per_byte; nia).
  assert ((n + 2) * zlen (f :: fl) <= credit_ * (n + 2)) by nia. unfold per_break. lia.
Qed.

Lemma handed_back_nonneg fl : Forall flight_tame fl -> 0 <= handed_back fl.
Proof.
  intros Hf. destruct fl as [|f fl]; [done|]. unfold handed_back. rewrite total_shift, total_cons.
  apply Forall_cons in Hf as [Hft Hf]. pose proof (total_asked fl Hf). pose proof (asked_nonneg f Hft). destruct Hft as [_ Hr].
  unfold per_byte in *. nia.
Qed.

Lemma thread_due_nonneg t : thread_tame t -> 0 <= thread_due t.
Proof.
  intros (Hf & Hfr & _). unfold thread_due. pose proof (outstanding_nonneg _ Hf). pose proof (handed_back_nonneg _ Hf).
  unfold phase_due, fresh_of in *. destruct (phase t); try lia.
  assert (0 <= total due fresh); [|lia]. apply total_nonneg. eapply Forall_impl; [exact Hfr|]. intros c Hc. pose proof (due_pos c Hc). lia.
Qed.

Lemma left_due_nonneg w : tame w -> 0 <= left_due w.
Proof.
  intros [_ Hq Ht _]. unfold left_due.
  assert (0 <= total due (queue (state w)) /\ 0 <= total thread_due (threads w)); [|lia]. split; apply total_nonneg.
  - eapply Forall_impl; [exact Hq|]. intros c Hc. pose proof (due_pos c Hc). lia.
  - eapply Forall_impl; [exact Ht|]. apply thread_due_nonneg.
Qed.
End Allowance.

(** ** One step *)

(** A step that brings nothing: a wake-up, a ping or its answer, an empty data frame. *)
Definition brings_nothing (ev : Event) : bool :=
  match ev with
  | Wake => true
  | Frame header _ _ =>
      match frame_type header with Ping | Pong => true | Data => logical_len header =? 0 | _ => false end
  | _ => false
  end.

(** A frame's header, as it is decoded. *)
Definition decoded (ev : Event) : Prop := match ev with Frame header _ _ => 0 <= logical_len header | _ => True end.

Section Steps.
Context `{Build, CodecLib}.
Context (retries_ credit_ n : Z) (Hretries : 0 <= retries_ /\ retries_ + 1 < two32) (Hcredit : 1 <= credit_) (Hn : 0 <= n).
Local Notation due := (due retries_ credit_ n).
Local Notation outstanding := (outstanding retries_ credit_ n).
Local Notation handed_back := (handed_back retries_ credit_ n).
Local Notation thread_due := (thread_due retries_ credit_ n).
Local Notation left_due := (left_due retries_ credit_ n).
Local Notation chunk_tame := (chunk_tame retries_).
Local Notation flight_tame := (flight_tame retries_).
Local Notation thread_tame := (thread_tame retries_ credit_).
Local Notation tame := (tame retries_ credit_ n).

Lemma due_wake t : thread_due (wake t) <= thread_due t + 1.
Proof. unfold thread_due, phase_due, wake. destruct (phase t) eqn:Hp; cbn; rewrite ?Hp; lia. Qed.

Lemma tame_wake t : thread_tame (wake t) <-> thread_tame t.
Proof. unfold thread_tame, fresh_of, wake. by destruct (phase t) eqn:Hp; cbn; rewrite ?Hp. Qed.

(** The allowance pays for the step of [w] in which thread [i], which was [t], is replaced. *)
Definition pays (idle : bool) (w : Transfer) (t : Thread) (i : nat) (w' : Transfer) : Prop :=
  exists v t' st notify, w' = update v i t' st notify /\ threads v = threads w /\ spec v = spec w /\
    Forall chunk_tame (queue st) /\ thread_tame t' /\
    thread_due t' + total due (queue st) + (if notify then n else 0) + 1
      <= thread_due t + total due (queue (state w)) + (if idle then n + 3 else 0).

Lemma pays_ok idle w t i w' :
  tame w -> threads w !! i = Some t -> pays idle w t i w' ->
  tame w' /\ left_due w' + 1 <= left_due w + (if idle then n + 3 else 0).
Proof.
  intros [Hsp Hq Ht Hc] Hi (v & t' & st & notify & -> & Hv & Hs & Hq' & Ht' & Hle). split.
  - split; cbn [spec state threads update]; rewrite ?Hv, ?Hs; [done|done| |].
    + apply (after_forall notify thread_tame); [intros; apply tame_wake|]. by apply Forall_insert.
    + rewrite <- Hc. destruct notify; by rewrite ?length_fmap, length_insert.
  - unfold left_due, update. cbn [state threads]. rewrite Hv.
    assert (total thread_due (<[i:=t']> (threads w)) = total thread_due (threads w) - thread_due t + thread_due t') as Hins
      by (by apply total_insert).
    destruct notify; [|rewrite Hins; lia].
    assert (total thread_due (wake <$> <[i:=t']> (threads w)) <= total thread_due (<[i:=t']> (threads w)) + 1 * zlen (<[i:=t']> (threads w))) as Hw.
    { rewrite <- total_shift. generalize (<[i:=t']> (threads w)) as l. intros l.
      induction l as [|u l IH]; [done|]. rewrite fmap_cons, !total_cons. pose proof (due_wake u). lia. }
    rewrite length_insert, Hc in Hw. lia.
Qed.

(** *** Errors *)

Lemma on_error_tame e fl : Forall flight_tame fl -> zlen fl <= credit_ -> thread_tame (on_error e fl).
Proof. intros Hf Hl. unfold thread_tame. destruct e; cbn; (split; [by auto|split; [constructor|lia]]). Qed.

Lemma failing_due e fl : (forall k, e <> CIo k) -> thread_due (on_error e fl) = 2 * n + 6.
Proof. intros He. destruct e; solve [by destruct (He _ eq_refl)|unfold thread_due; cbn; lia]. Qed.

Lemma on_error_due e f fl :
  Forall flight_tame (f :: fl) -> zlen (f :: fl) <= credit_ ->
  thread_due (on_error e (f :: fl)) + n + 1 <= outstanding (f :: fl).
Proof.
  intros Hf Hl. pose proof (handed_back_paid retries_ credit_ n Hn f fl Hf Hl).
  pose proof (handed_back_nonneg retries_ credit_ n Hcredit Hn (f :: fl) Hf).
  destruct e; cbn [on_error]; unfold thread_due, phase_due; cbn [phase flight]; try change (outstanding []) with 0; lia.
Qed.

Lemma error_pays w v t i e f fl q notify :
  threads v = threads w -> spec v = spec w -> Forall chunk_tame q ->
  Forall flight_tame (f :: fl) -> zlen (f :: fl) <= credit_ ->
  outstanding (f :: fl) + total due q <= thread_due t + total due (queue (state w)) ->
  pays false w t i (update v i (on_error e (f :: fl)) (with_queue (state w) q) notify).
Proof.
  intros Hv Hs Hq Hf Hl Hle. exists v, (on_error e (f :: fl)), (with_queue (state w) q), notify.
  split; [done|]. split; [done|]. split; [done|]. split; [done|]. split; [by apply on_error_tame|].
  pose proof (on_error_due e f fl Hf Hl). cbn [with_queue queue]. destruct notify; lia.
Qed.

Lemma same_queue (st : State) : with_queue st (queue st) = st.
Proof. by destruct st. Qed.

(** The thread goes on reading, its connection as it was. *)
Lemma reading_due t : phase t = Reading -> thread_due t = 1 + outstanding (flight t).
Proof. intros Hp. unfold thread_due, phase_due. by rewrite Hp. Qed.

Lemma tame_parts t : thread_tame t -> Forall flight_tame (flight t) /\ zlen (flight t) <= credit_.
Proof. intros (Hf & _ & Hl). split; [done|lia]. Qed.

(** A failed fetch goes back on the queue, charged. *)
Lemma retry_due sp c charge st :
  max_retries sp = retries_ -> chunk_tame c -> Forall chunk_tame (queue st) ->
  match retry sp c charge st with
  | (true, st') =>
      Forall chunk_tame (queue st') /\
      total due (queue st') = total due (queue st) + due c - (if charge then per_break credit_ n + c_len c * per_byte n else 0)
  | (false, st') => st' = st
  end.
Proof.
  intros Hm (Ha & Hl) Hq. unfold retry. cbn [attempts]. rewrite Hm.
  assert (u32 (attempts c + (if charge then 1 else 0)) = attempts c + (if charge then 1 else 0)) as ->.
  { unfold u32. apply Z.mod_small. destruct charge; lia. }
  destruct (Z.ltb_spec retries_ (attempts c + (if charge then 1 else 0))) as [|Hle]; [done|]. cbn [queue]. split.
  - constructor; [|done]. split; cbn; [|done]. destruct charge; lia.
  - rewrite total_cons. unfold due, PoolEnds.due. cbn [attempts c_len]. destruct charge; lia.
Qed.


(** A step that changes the thread only. *)
Lemma thread_pays (idle : bool) w t i t' (notify : bool) :
  tame w -> thread_tame t' ->
  thread_due t' + (if notify then n else 0) + 1 <= thread_due t + (if idle then n + 3 else 0) ->
  pays idle w t i (update w i t' (state w) notify).
Proof.
  intros Htm Ht Hle. exists w, t', (state w), notify. split; [done|]. split; [done|]. split; [done|].
  split; [apply (tm_queue _ _ _ w Htm)|]. split; [done|lia].
Qed.

Lemma reading_error_pays w v t i e f fl :
  tame w -> threads w !! i = Some t -> threads v = threads w -> spec v = spec w -> state v = state w ->
  phase t = Reading -> flight t = f :: fl -> pays false w t i (update v i (on_error e (f :: fl)) (state w) false).
Proof.
  intros Htm Hi Hv Hs Hst Hp Hf. rewrite <- (same_queue (state w)).
  pose proof (tm_threads _ _ _ w Htm) as Ht. rewrite Forall_forall in Ht.
  destruct (tame_parts t) as [Hfl Hl]; [by apply Ht, list_elem_of_lookup_2 with i|]. rewrite Hf in Hfl, Hl.
  eapply error_pays; try done; [apply (tm_queue _ _ _ w Htm)|]. rewrite (reading_due t Hp), Hf. lia.
Qed.

Lemma outstanding_snoc fl c :
  outstanding (fl ++ [{| chunk := c; received := 0 |}]) = outstanding fl + due c - 1.
Proof.
  unfold PoolEnds.outstanding. destruct fl as [|f fl]; cbn [app].
  - rewrite total_cons. unfold asked. cbn [chunk received total foldr]. lia.
  - rewrite !total_cons, total_app, total_cons. unfold asked at 3. cbn [chunk total foldr]. lia.
Qed.

(** *** Each step *)

Lemma top_up_pays w t i w' :
  tame w -> threads w !! i = Some t -> phase t = Topping -> top_up (spec w) (state w) (flight t) <> Unaccounted ->
  match top_up (spec w) (state w) (flight t) with
  | Fresh fresh st => Some (update w i {| phase := Asking fresh; flight := flight t |} st false)
  | Finished => Some (update w i {| phase := Leaving None; flight := flight t |} (state w) false)
  | Unaccounted => Some (update w i (on_error CProtocol (flight t)) (state w) false)
  | Wait => Some (update w i {| phase := Asleep; flight := flight t |} (state w) false)
  end = Some w' -> pays false w t i w'.
Proof.
  intros Htm Hi Hp Hu. pose proof (tm_threads _ _ _ w Htm) as Ht. rewrite Forall_forall in Ht.
  specialize (Ht t ltac:(by eapply list_elem_of_lookup_2)). destruct (tame_parts t Ht) as [Hfl Hl].
  assert (thread_due t = n + 3 + outstanding (flight t)) as Hdue by (unfold thread_due, phase_due; by rewrite Hp).
  pose proof (top_up_spec (spec w) (state w) (flight t)) as Hs.
  destruct (top_up (spec w) (state w) (flight t)) as [fresh st| | |] eqn:Htop; [| |done|]; intros [= <-].
  - destruct Hs as (rest & Hq & -> & _). pose proof (tm_queue _ _ _ w Htm) as Hqt. rewrite Hq in Hqt. apply Forall_app in Hqt as [Hft Hrt].
    exists w, {| phase := Asking fresh; flight := flight t |}, (with_queue (state w) rest), false.
    split; [done|]. split; [done|]. split; [done|]. split; [done|].
    assert (zlen (flight t) + zlen fresh <= credit_) as Hroom.
    { unfold top_up in Htop. destruct (tm_spec _ _ _ w Htm) as [_ Hcr]. rewrite Hcr in Htop. destruct (error (state w)).
      - assert (fresh = []) as -> by (destruct (flight t), (queue (state w)); cbn in Htop; repeat case_match; congruence). cbn. lia.
      - assert (fresh = take (Z.to_nat credit_ - length (flight t)) (queue (state w))) as -> by (repeat case_match; congruence).
        rewrite length_take. lia. }
    split; [done|]. rewrite Hdue, Hq, total_app. unfold thread_due, phase_due. cbn [phase flight with_queue queue]. lia.
  - apply thread_pays; [done| |]; [split; [done|split; [constructor|cbn; lia]]|]. rewrite Hdue.
    unfold thread_due, phase_due. cbn [phase flight]. lia.
  - apply thread_pays; [done| |]; [split; [done|split; [constructor|cbn; lia]]|]. rewrite Hdue.
    unfold thread_due, phase_due. cbn [phase flight]. lia.
Qed.

Lemma ask_pays w t i c rest sent w' :
  tame w -> threads w !! i = Some t -> phase t = Asking (c :: rest) ->
  (exists p, parts w !! part c = Some p /\
    is_ok (ScatterBuffer.claim {| buffer_len := zlen (pt_dst p); claimed := claims (threads w) (part c) |} (c_offset c) (c_len c))) ->
  ask w i t c rest sent = Some w' -> pays false w t i w'.
Proof.
  intros Htm Hi Hp (p & Hpart & cl & Hcl). pose proof (tm_threads _ _ _ w Htm) as Ht. rewrite Forall_forall in Ht.
  specialize (Ht t ltac:(by eapply list_elem_of_lookup_2)). destruct Ht as (Hfl & Hfr & Hl). unfold fresh_of in Hfr, Hl. rewrite Hp in Hfr, Hl.
  apply Forall_cons in Hfr as [Hc Hfr]. cbn [length] in Hl.
  assert (thread_due t = 2 + due c + total due rest + outstanding (flight t)) as Hdue.
  { unfold thread_due, phase_due. rewrite Hp, total_cons. lia. }
  assert (Forall flight_tame (flight t ++ [{| chunk := c; received := 0 |}])) as Hfl'.
  { apply Forall_app. split; [done|]. constructor; [|done]. split; [done|]. destruct Hc as (_ & ? & _). cbn. lia. }
  assert (zlen (flight t ++ [{| chunk := c; received := 0 |}]) = zlen (flight t) + 1) as Hlen by (rewrite length_app; cbn; lia).
  unfold ask. rewrite Hpart. cbn [mbind option_bind]. rewrite Hcl. destruct sent as [[]|k|]; intros [= <-].
  - apply thread_pays; [done|split; [done|split; [done|cbn [flight fresh_of phase]; lia]]|].
    rewrite Hdue. unfold thread_due, phase_due. cbn [phase flight]. rewrite outstanding_snoc. lia.
  - pose proof (outstanding_snoc (flight t) c) as Hsn. destruct (flight t ++ [_]) as [|f fl] eqn:Hfl2; [by destruct (flight t)|].
    apply (error_pays w w t i (CIo k) f fl (rest ++ queue (state w))); try done; [|lia|].
    + apply Forall_app. split; [done|apply (tm_queue _ _ _ w Htm)].
    + rewrite Hdue, total_app. lia.
Qed.


(** What [receive_data] accepts ends inside the chunk. *)
Lemma data_ends header request off dst payload b :
  DataConn.receive_data header request off dst payload = Ok b -> 0 <= off -> logical_len header <= zlen dst.
Proof.
  intros Hr Ho. destruct (receive_data_ok [] [] [] ltac:(by split; constructor) eq_refl _ _ _ _ _ _ Hr Ho)
    as (start & pl & _ & Hs & _ & _ & He & _). lia.
Qed.

(** What a data frame brings, it brings once: the count of a chunk's bytes goes up. *)
Lemma on_data_pays w t i header payload f others w' p :
  tame w -> threads w !! i = Some t -> phase t = Reading -> flight t = f :: others ->
  parts w !! part (chunk f) = Some p -> 0 <= c_offset (chunk f) -> c_offset (chunk f) + c_len (chunk f) <= zlen (pt_dst p) ->
  0 <= logical_len header -> on_data w i header payload f others = Some w' ->
  pays (logical_len header =? 0) w t i w'.
Proof.
  intros Htm Hi Hp Hf Hpart Ho Hin Hll. pose proof (tm_threads _ _ _ w Htm) as Ht. rewrite Forall_forall in Ht.
  destruct (tame_parts t) as [Hfl Hl]; [by apply Ht, list_elem_of_lookup_2 with i|]. rewrite Hf in Hfl, Hl.
  pose proof (reading_due t Hp) as Hdue. rewrite Hf in Hdue. pose proof (outstanding_rest retries_ credit_ n Hcredit Hn f others Hfl) as Hrest.
  pose proof Hfl as Hall. apply Forall_cons in Hfl as [[(Ha & Hcl & Hsmall) Hr] Hoth].
  unfold on_data. rewrite Hpart. cbn [mbind option_bind].
  destruct (DataConn.receive_data _ _ _ _ _) as [b|e|] eqn:Hrd; [| |done].
  - apply data_ends in Hrd as Hend; [|done]. rewrite length_slice in Hend by lia.
    assert (received f +w logical_len header = received f + logical_len header) as ->
      by (apply wadd_small; unfold is_u64; lia).
    set (v := with_buffer _ _ _ _). destruct (Z.leb_spec (c_len (chunk f)) (received f + logical_len header)) as [|Hmore]; intros [= <-].
    + exists v, {| phase := Topping; flight := others |}, (complete (state w)), (remaining (state w) =? 1).
      split; [done|]. split; [done|]. split; [done|]. split; [apply (tm_queue _ _ _ w Htm)|]. split; [split; [done|split; [constructor|cbn in *; lia]]|].
      rewrite Hdue. unfold thread_due, phase_due. cbn [phase flight complete queue]. unfold per_break, per_byte in Hrest.
      destruct (remaining (state w) =? 1), (logical_len header =? 0); nia.
    + exists v, {| phase := Topping; flight := {| chunk := chunk f; received := received f + logical_len header |} :: others |}, (state w), false.
      split; [done|]. split; [done|]. split; [done|]. split; [apply (tm_queue _ _ _ w Htm)|].
      split; [split; [constructor; [|done]|split; [constructor|cbn in *; lia]]|].
      { split; [done|cbn; lia]. }
      rewrite Hdue. unfold thread_due, phase_due, PoolEnds.outstanding. cbn [phase flight received]. rewrite !total_cons.
      unfold asked at 1 3. cbn [chunk]. unfold per_byte. destruct (Z.eqb_spec (logical_len header) 0); nia.
  - intros [= <-]. assert (pays false w t i (update w i (on_error e (f :: others)) (state w) false)) as Hpay
      by (eapply reading_error_pays; done).
    destruct (logical_len header =? 0); [|done]. destruct Hpay as (v & t' & st & nt & ? & ? & ? & ? & ? & ?).
    exists v, t', st, nt. split_and!; try done; lia.
Qed.

Lemma retry_pays w t i t' c again st :
  tame w -> threads w !! i = Some t -> chunk_tame c -> thread_tame t' ->
  retry (spec w) c true (state w) = (again, st) ->
  thread_due t' + n + 1 <= thread_due t - due c + per_break credit_ n + c_len c * per_byte n ->
  again = true -> pays false w t i (update w i t' st true).
Proof.
  intros Htm Hi Hc Ht' Hr Hle ->.
  pose proof (retry_due (spec w) c true (state w) (proj1 (tm_spec _ _ _ w Htm)) Hc (tm_queue _ _ _ w Htm)) as Hd. rewrite Hr in Hd. destruct Hd as [Hq Hd].
  exists w, t', st, true. split_and!; try done. lia.
Qed.

Lemma on_error_frame_pays w t i header payload f others w' :
  tame w -> threads w !! i = Some t -> phase t = Reading -> flight t = f :: others ->
  on_error_frame w i header payload f others = Some w' -> pays false w t i w'.
Proof.
  intros Htm Hi Hp Hf. pose proof (tm_threads _ _ _ w Htm) as Ht. rewrite Forall_forall in Ht.
  destruct (tame_parts t) as [Hfl Hl]; [by apply Ht, list_elem_of_lookup_2 with i|]. rewrite Hf in Hfl, Hl.
  pose proof (reading_due t Hp) as Hdue. rewrite Hf in Hdue. pose proof (outstanding_rest retries_ credit_ n Hcredit Hn f others Hfl) as Hrest.
  pose proof Hfl as Hall. apply Forall_cons in Hfl as [[Hc Hr] Hoth]. pose proof (outstanding_nonneg retries_ credit_ n Hcredit Hn others Hoth).
  assert (0 <= c_len (chunk f) * per_byte n) by (destruct Hc as (_ & ? & _); unfold per_byte; nia). cbn [length] in Hl.
  assert (thread_tame {| phase := Topping; flight := others |} /\ forall e, thread_tame {| phase := Failing e true; flight := others |}) as [Htt Htf]
    by (split; [|intros e]; (split; [done|split; [constructor|cbn; lia]])).
  assert (forall e, pays false w t i (update w i {| phase := Failing e true; flight := others |} (state w) false)) as Hfail.
  { intros e. apply thread_pays; [done|done|]. rewrite Hdue. unfold thread_due, phase_due. cbn [phase flight]. unfold per_break in *. nia. }
  unfold on_error_frame. destruct (DataConn.receive_error payload) as [e|e|]; [| |done].
  2: { intros [= <-]. by eapply reading_error_pays. }
  destruct (request_id header =? 0); [intros [= <-]; by eapply reading_error_pays|].
  destruct (parts w !! part (chunk f)) as [p|]; [|done]. cbn [mbind option_bind]. destruct (negb _ || negb _).
  - intros [= <-]. apply thread_pays; [done|apply (on_error_tame CProtocol others); [done|lia]|]. pose proof (failing_due CProtocol others ltac:(done)) as Hfd. rewrite Hdue. unfold on_error in *. unfold per_break in *. nia.
  - destruct (ClientError.is_retryable e); [|intros [= <-]; apply Hfail].
    destruct (retry (spec w) (chunk f) true (state w)) as [again st] eqn:Hr'. destruct again; intros [= <-].
    + eapply (retry_pays w t i _ (chunk f)); try done. rewrite Hdue. pose proof (outstanding_le retries_ credit_ n Hn others Hoth).
      unfold thread_due, phase_due. cbn [phase flight]. unfold PoolEnds.outstanding at 2. rewrite total_cons. unfold asked at 1.
      unfold per_break, per_byte in *. nia.
    + pose proof (retry_due (spec w) (chunk f) true (state w) (proj1 (tm_spec _ _ _ w Htm)) Hc (tm_queue _ _ _ w Htm)) as Hd.
      rewrite Hr' in Hd. subst st. apply Hfail.
Qed.


Lemma handed_back_snoc fl f :
  handed_back (fl ++ [f]) =
  handed_back fl + asked retries_ credit_ n f + (n + 2) - (if bool_decide (fl = []) then per_break credit_ n + c_len (chunk f) * per_byte n else 0).
Proof.
  unfold PoolEnds.handed_back. destruct fl as [|g fl]; cbn [app].
  - rewrite bool_decide_eq_true_2 by done. rewrite total_cons. cbn [total foldr]. lia.
  - rewrite bool_decide_eq_false_2 by done. rewrite !total_cons, total_app, total_cons. cbn [total foldr]. lia.
Qed.

Lemma breaking_due t e b : phase t = Breaking e b -> thread_due t = 2 * n + 7 + handed_back (flight t).
Proof. intros Hp. unfold thread_due, phase_due. by rewrite Hp. Qed.

Lemma breaking_pays w t i e exhausted w' :
  tame w -> threads w !! i = Some t -> phase t = Breaking e exhausted ->
  match last (flight t) with
  | Some f =>
      let fl := take (length (flight t) - 1) (flight t) in
      let '(again, st) := retry (spec w) (chunk f) (bool_decide (fl = [])) (state w) in
      Some (update w i {| phase := Breaking e (exhausted || negb again); flight := fl |} st again)
  | None => Some (update w i {| phase := if exhausted then Failing e false else Disconnected; flight := [] |} (state w) false)
  end = Some w' -> pays false w t i w'.
Proof.
  intros Htm Hi Hp. pose proof (tm_threads _ _ _ w Htm) as Ht. rewrite Forall_forall in Ht.
  destruct (tame_parts t) as [Hfl Hl]; [by apply Ht, list_elem_of_lookup_2 with i|].
  pose proof (breaking_due t e exhausted Hp) as Hdue. destruct (last (flight t)) as [f|] eqn:Hlast.
  - apply last_Some in Hlast as [fl Hf]. rewrite Hf in *. rewrite length_app, Nat.add_sub, take_app_length. cbv zeta.
    rewrite handed_back_snoc in Hdue. apply Forall_app in Hfl as [Hfl Hft]. apply Forall_cons in Hft as [Hft _]. pose proof Hft as [Hc Hrec].
    pose proof (asked_nonneg retries_ credit_ n Hcredit Hn f Hft) as Has.
    assert (0 <= per_break credit_ n + c_len (chunk f) * per_byte n /\ 0 <= received f * per_byte n) as [? ?]
      by (destruct Hc as (_ & ? & _); unfold per_break, per_byte; nia).
    rewrite length_app in Hl. cbn [length] in Hl.
    pose proof (retry_due (spec w) (chunk f) (bool_decide (fl = [])) (state w) (proj1 (tm_spec _ _ _ w Htm)) Hc (tm_queue _ _ _ w Htm)) as Hd.
    assert (forall b, thread_tame {| phase := Breaking e b; flight := fl |} /\
      thread_due {| phase := Breaking e b; flight := fl |} = 2 * n + 7 + handed_back fl) as Hb.
    { intros b. split; [|exact (breaking_due {| phase := Breaking e b; flight := fl |} e b eq_refl)]. split; [done|split; [constructor|cbn; lia]]. }
    destruct (retry _ _ _ _) as [[] st]; intros Hw; injection Hw as <-; cbn [negb]; destruct (Hb (exhausted || false)) as [Htf Htd];
      destruct (Hb (exhausted || true)) as [Htf' Htd'].
    + destruct Hd as [Hq Hd]. eexists w, _, st, true. do 3 (split; [done|]). split; [done|]. split; [done|].
      rewrite Htd, Hdue, Hd. unfold asked. destruct (bool_decide _); lia.
    + subst st. apply thread_pays; [done|done|]. rewrite Htd', Hdue. destruct (bool_decide _); lia.
  - apply last_None in Hlast as Hf. intros Hw. injection Hw as <-. rewrite Hf in Hdue. cbn [PoolEnds.handed_back] in Hdue.
    apply thread_pays; [done|split; [constructor|split; [by destruct exhausted|cbn; destruct exhausted; cbn; lia]]|].
    rewrite Hdue. unfold thread_due, phase_due. destruct exhausted; cbn; lia.
Qed.

(** Every other step of a thread that holds nothing new. *)
Lemma moves_pays (idle : bool) w t i ph st (notify : bool) :
  tame w -> threads w !! i = Some t -> queue st = queue (state w) -> match phase t, ph with Breaking _ _, _ | _, (Breaking _ _ | Asking (_ :: _)) => False | _, _ => True end ->
  phase_due retries_ credit_ n {| phase := ph; flight := flight t |} + (if notify then n else 0) + 1
    <= phase_due retries_ credit_ n t + (if idle then n + 3 else 0) ->
  pays idle w t i (update w i {| phase := ph; flight := flight t |} st notify).
Proof.
  intros Htm Hi Hq Hph Hle. pose proof (tm_threads _ _ _ w Htm) as Ht. rewrite Forall_forall in Ht.
  destruct (tame_parts t) as [Hfl Hl]; [by apply Ht, list_elem_of_lookup_2 with i|].
  assert (fresh_of {| phase := ph; flight := flight t |} = []) as Hfr by (destruct (phase t), ph as [|[]| | | | | | | |]; done).
  eexists w, _, st, notify. do 3 (split; [done|]). rewrite Hq. split; [apply (tm_queue _ _ _ w Htm)|].
  split; [split; [done|rewrite Hfr; split; [constructor|cbn; lia]]|].
  unfold thread_due in *. cbn [phase flight] in *. destruct (phase t), ph; try done; lia.
Qed.

(** Every step of every thread is paid for. *)
Lemma act_pays ps chunks w done lost i t ev w' :
  Forall2 cut_whole ps chunks -> pool_ok (part_keys 0 chunks) ((fun p => zlen (pt_dst p)) <$> ps) w done lost ->
  tame w -> decoded ev -> threads w !! i = Some t -> act w i ev = Some w' -> pays (brings_nothing ev) w t i w'.
Proof.
  intros Hcut Hok Htm Hev Hi. unfold act. rewrite Hi. cbn [mbind option_bind].
  pose proof (start_chunks_ok _ _ Hcut) as Hch. pose proof (own_sizes ps) as Hsz.
  destruct (phase t) as [|fresh| | |e b|e k| | |e|] eqn:Hp.
  - destruct ev; try done. apply (top_up_pays w t i w' Htm Hi Hp). by eapply never_unaccounted.
  - destruct fresh as [|c rest]; destruct ev as [|r| | | | |]; try done.
    + intros [= <-]. apply (moves_pays false w t i Reading); [done..|by rewrite Hp|]. unfold phase_due. rewrite Hp. cbn. lia.
    + apply (ask_pays w t i c rest r w' Htm Hi Hp). by eapply (claim_granted _ _ _ Hch Hsz).
  - destruct ev as [| |header payload pong|at_ junk k|e| |]; try done.
    + destruct (flight t) as [|f others] eqn:Hf.
      { pose proof (pk_phase _ _ _ _ _ Hok) as Hpo. rewrite Forall_forall in Hpo.
        specialize (Hpo t ltac:(by eapply list_elem_of_lookup_2)). unfold phase_ok in Hpo. by rewrite Hp in Hpo. }
      assert (forall e, pays false w t i (update w i (on_error e (f :: others)) (state w) false)) as Herr
        by (intros e; by eapply reading_error_pays).
      assert (pays true w t i (update w i {| phase := Topping; flight := f :: others |} (state w) false)) as Hidle.
      { rewrite <- Hf. apply (moves_pays true w t i Topping); [done..|by rewrite Hp|]. unfold phase_due. rewrite Hp. cbn. lia. }
      unfold brings_nothing. cbn [mbind option_bind]. destruct (frame_type header).
      * intros [= <-]. exact (Herr CProtocol).
      * destruct (held_part _ _ _ Hch Hsz w done lost i t (key (chunk f)) ((key ∘ chunk <$> others) ++ (key <$> fresh_of t)) Hok Hi)
          as (Ho & Hl & p & s & Hpart & _ & Hps & Hb); [unfold held_keys; by rewrite Hf|].
        apply (on_data_pays w t i header payload f others w' p); try done. cbn in Hb. lia.
      * apply on_error_frame_pays; done.
      * destruct pong; [intros [= <-]; exact Hidle| |done]. intros [= <-].
        destruct (Herr (CIo e)) as (v & t' & st & nt & ? & ? & ? & ? & ? & ?). exists v, t', st, nt. split_and!; try done; lia.
      * intros [= <-]. exact Hidle.
    + intros Hact. destruct (flight t) as [|f others] eqn:Hf; [done|]. cbn [mbind option_bind] in Hact.
      destruct (parts w !! part (chunk f)) as [p|]; [|done]. cbn [mbind option_bind] in Hact. destruct (decide _); [|done]. injection Hact as <-.
      by apply (reading_error_pays w _ t i (CIo k) f others).
    + intros [= <-]. destruct (flight t) as [|f others] eqn:Hf; [|by apply (reading_error_pays w w t i (ClientError.from_wire e) f others)].
      pose proof (pk_phase _ _ _ _ _ Hok) as Hpo. rewrite Forall_forall in Hpo.
      specialize (Hpo t ltac:(by eapply list_elem_of_lookup_2)). unfold phase_ok in Hpo. by rewrite Hp in Hpo.
  - destruct ev; try done. intros [= <-]. apply (moves_pays true w t i Topping); [done..|by rewrite Hp|]. unfold phase_due. rewrite Hp. cbn. lia.
  - destruct ev; try done. by apply breaking_pays.
  - destruct ev; try done. intros [= <-]. apply (moves_pays false w t i); [done..|rewrite Hp; by destruct k|].
    unfold phase_due. rewrite Hp. destruct k; cbn; lia.
  - destruct ev; try done. intros [= <-]. apply (moves_pays false w t i); [done..|rewrite Hp; by destruct (error (state w))|].
    unfold phase_due. rewrite Hp. destruct (error (state w)); cbn; lia.
  - destruct ev as [| | | | |r|]; try done. destruct r as [u|e|]; [| |done]; intros [= <-]; apply (moves_pays false w t i); try done;
      unfold phase_due; rewrite Hp; cbn; try done; lia.
  - destruct ev; try done. intros [= <-]. apply (moves_pays false w t i Gone); [done..|by rewrite Hp|].
    unfold phase_due. rewrite Hp. cbn. lia.
  - done.
Qed.

(** A run uses the allowance up. *)
Lemma run_pays ps chunks evs w w' done lost :
  Forall2 cut_whole ps chunks -> pool_ok (part_keys 0 chunks) ((fun p => zlen (pt_dst p)) <$> ps) w done lost ->
  tame w -> Forall (fun '(_, ev) => decoded ev) evs -> run w evs = Some w' ->
  tame w' /\ left_due w' + zlen evs <= left_due w + (n + 3) * zlen (filter (fun e => brings_nothing e.2 = true) evs).
Proof.
  intros Hcut. revert w done lost. induction evs as [|[i ev] evs IH]; intros w done lost Hok Htm Hev; cbn [run].
  { intros [= <-]. split; [done|]. cbn. lia. }
  apply Forall_cons in Hev as [Hd Hev]. destruct (act w i ev) as [v|] eqn:Hact; [|done]. cbn [mbind option_bind]. intros Hrun.
  assert (exists t, threads w !! i = Some t) as [t Hi] by (unfold act in Hact; destruct (threads w !! i) as [t|]; [by exists t|done]).
  destruct (pays_ok _ w t i v Htm Hi (act_pays ps chunks w done lost i t ev v Hcut Hok Htm Hd Hi Hact)) as [Hv Hle].
  destruct (act_keeps _ _ (pt_dst <$> ps) (start_chunks_ok _ _ Hcut) (own_sizes ps) w i ev v done lost Hok Hact) as (d & l & Hok' & _).
  destruct (IH v d l Hok' Hv Hev Hrun) as [Hw' Hle']. split; [done|]. rewrite filter_cons. cbn [length].
  destruct (brings_nothing ev) eqn:Hb; cbn [snd]; [rewrite decide_True by done|rewrite decide_False by (cbn; congruence)]; cbn [length]; lia.
Qed.
End Steps.

(** ** Property *)

(** The steps a transfer of [chunks] may take on [n] threads. *)
Definition allowance (sp : FetchSpec) (n : Z) (chunks : list (list (Z * Z))) : Z :=
  let fetch := fun len : Z => per_break (Z.max (credit sp) 1) n + len * per_byte n in
  n * (n + 5) + total (fun '(_, len) => (max_retries sp + 1) * fetch len + len * per_byte n + 1) (concat chunks).

Section Ends.
Context `{Build, CodecLib}.

Lemma start_tame sp ps chunks slots :
  Forall2 cut_whole ps chunks -> Forall (fun p => 2 * zlen (pt_dst p) < two64) ps -> 0 <= max_retries sp ->
  let w := start sp ps chunks slots in
  tame (max_retries sp) (Z.max (credit sp) 1) (zlen (threads w)) w /\
  left_due (max_retries sp) (Z.max (credit sp) 1) (zlen (threads w)) w <= allowance sp (zlen (threads w)) chunks.
Proof.
  intros Hcut Hsmall Hr w. set (n := zlen (threads w)). split.
  - split; [done| | |done].
    + unfold w, start. cbn [state queue]. apply Forall_concat. apply Forall_lookup. intros p cs. rewrite list_lookup_imap, fmap_Some.
      intros (l & Hl & ->). apply Forall_fmap. destruct (Forall2_lookup_r _ _ _ _ _ Hcut Hl) as (q & Hq & _ & c & Hc).
      rewrite Forall_lookup in Hsmall. specialize (Hsmall p q Hq). cbn in Hsmall.
      eapply Forall_impl; [by eapply consecutive_inside|]. intros [o len] Hin. split; cbn; lia.
    + apply start_threads. intros []; (split; [constructor|split; [constructor|cbn; lia]]).
  - unfold left_due, allowance. assert (total (thread_due (max_retries sp) (Z.max (credit sp) 1) n) (threads w) <= n * (n + 5)) as Ht.
    { assert (Forall (fun t => thread_due (max_retries sp) (Z.max (credit sp) 1) n t <= n + 5) (threads w)) as Hall
        by (apply start_threads; intros []; unfold thread_due, phase_due; cbn; lia).
      change (n * (n + 5)) with (zlen (threads w) * (n + 5)). clearbody n. clear -Hall.
      induction Hall as [|t ts Ht _ IH]; [done|]. rewrite total_cons. cbn [length]. rewrite Nat2Z.inj_succ, Z.mul_succ_l. lia. }
    assert (forall m, total (due (max_retries sp) (Z.max (credit sp) 1) n) (concat (imap (fun p cs => (fun '(offset, len) =>
      {| part := m + p; c_offset := offset; c_len := len; attempts := 0 |}) <$> cs) chunks)) =
      total (fun '(_, len) => (max_retries sp + 1) * (per_break (Z.max (credit sp) 1) n + len * per_byte n) + len * per_byte n + 1) (concat chunks)) as Hq.
    { clearbody n. clear. induction chunks as [|cs chunks IH]; intros m; [done|]. cbn [imap concat]. rewrite !total_app. f_equal.
      - induction cs as [|[o len] cs IHc]; [done|]. rewrite fmap_cons, !total_cons, IHc. unfold due. cbn. lia.
      - rewrite <- (IH (S m)). f_equal. f_equal. apply imap_ext. intros p cs' _. cbn. apply list_fmap_ext. intros _ [o l] _. f_equal. lia. }
    specialize (Hq 0%nat). unfold w at 1, start. cbn [state queue]. cbn [Nat.add] in Hq. rewrite Hq. lia.
Qed.

(** C6: every transfer ends.  However its threads interleave, whatever the server sends
    and whichever connections break, a run has at most [allowance] steps that bring anything
    (a bound in the bytes, the chunks, the retries, the credit and the threads), and [n + 3]
    for each that brings nothing: a wake-up, a ping, an empty frame.  Until the transfer has
    ended one of its threads is awake. *)
Theorem transfer_ends sp ps chunks slots evs w :
  Forall2 cut_whole ps chunks -> Forall (fun p => 2 * zlen (pt_dst p) < two64) ps ->
  0 <= max_retries sp -> max_retries sp + 1 < two32 ->
  Forall (fun '(_, ev) => decoded ev) evs -> run (start sp ps chunks slots) evs = Some w ->
  let n := zlen (threads w) in
  zlen evs <= allowance sp n chunks + (n + 3) * zlen (filter (fun e => brings_nothing e.2 = true) evs) /\
  (finished w = true \/ Exists (fun t => phase t <> Gone /\ phase t <> Asleep) (threads w)).
Proof.
  intros Hcut Hsmall Hr Hr32 Hev Hrun n. destruct (start_tame sp ps chunks slots Hcut Hsmall Hr) as [Htm Hdue].
  pose proof (run_reach (fun _ _ _ => True) _ _ evs w (reach_start _ _) Hrun (any_run _ _ _ Hrun)) as Hreach.
  pose proof (reach_length _ _ _ Hreach) as Hlen. rewrite <- Hlen in Htm, Hdue. fold n in Htm, Hdue.
  destruct (run_pays (max_retries sp) (Z.max (credit sp) 1) n ltac:(lia) ltac:(lia) ltac:(lia) ps chunks evs _ w [] [] Hcut
    (start_ok sp ps chunks slots) Htm Hev Hrun) as [Hw Hle].
  pose proof (left_due_nonneg (max_retries sp) (Z.max (credit sp) 1) n ltac:(lia) ltac:(lia) w Hw). split; [lia|].
  destruct (reach_pool_ok sp ps chunks slots Hcut _ w Hreach) as (d & l & Hok). by apply (idle_or_awake ps chunks w d l).
Qed.
End Ends.

(** ** At a concrete input *)

#[local] Existing Instance demo_build.
#[local] Existing Instance demo_lib.

(** A fetch asked for, answered with a ping, and cut off. *)
Definition demo_cut_off : list (nat * Event) :=
  ask_events ++ ((0%nat,.) <$> [Frame (FrameHeader.bare Ping) [] (Ok tt); Tick; Tick; ReadFailed (WIo KTimedOut)]).

Lemma transfer_ends_witness :
  zlen demo_cut_off = 7 /\ zlen demo_cut_off <= allowance demo_sp 1 [[(0, 4)]] + 4 * 1 /\
  exists w, run demo_start demo_cut_off = Some w /\ (finished w = true \/ Exists (fun t => phase t <> Gone /\ phase t <> Asleep) (threads w)).
Proof.
  destruct (run demo_start demo_cut_off) as [w|] eqn:Hrun; [|vm_compute in Hrun; discriminate Hrun].
  assert (Forall (fun '(_, ev) => decoded ev) demo_cut_off) as Hev by (repeat constructor; vm_compute; congruence).
  destruct (transfer_ends demo_sp [demo_part] [[(0, 4)]] [Held] demo_cut_off w demo_cut ltac:(repeat constructor)
    ltac:(vm_compute; congruence) ltac:(reflexivity) Hev Hrun) as [Hle Hawake].
  assert (zlen (threads w) = 1) as Hn.
  { assert (Some (zlen (threads w)) = Some 1) as [= Hn]; [|exact Hn].
    change (Some (zlen (threads w))) with ((fun v => zlen (threads v)) <$> Some w). rewrite <- Hrun. vm_compute. reflexivity. }
  rewrite Hn in Hle. split; [reflexivity|]. split; [exact Hle|]. exists w. split; [reflexivity|exact Hawake].
Defined.
