(* ===== verification/Endpoint.v ===== *)
(** Where the data plane is, from [aex-client/src/client.rs]: [host:port] taken apart, and
    the brackets a URI puts around an IPv6 address taken off.  What is an address is what
    [IpAddr]'s parser in the standard library accepts. *)
From Stdlib Require Import Ascii.
From stdpp Require Import strings.
From S2P Require Import Prelude Errors Text.

(** ** [core::net]'s parser, as a recogniser: the characters left over *)

Module IpAddr.
Definition hex_digit (c : ascii) : option Z :=
  let n := Z.of_N (N_of_ascii c) in
  if (48 <=? n) && (n <=? 57) then Some (n - 48)
  else if (97 <=? n) && (n <=? 102) then Some (n - 87)
  else if (65 <=? n) && (n <=? 70) then Some (n - 55) else None.

(** The digits at the front of [s]: their value, how many there are, and the rest. *)
Fixpoint digits (radix : Z) (to_digit : ascii -> option Z) (acc : Z) (n : nat) (s : list ascii) : Z * nat * list ascii :=
  match s with
  | c :: s' => match to_digit c with Some d => digits radix to_digit (acc * radix + d) (S n) s' | None => (acc, n, s) end
  | [] => (acc, n, [])
  end.

(** [read_number]: at most [max_digits] digits, of a value under [bound]. *)
Definition read_number (radix : Z) (to_digit : ascii -> option Z) (max_digits : nat) (allow_zero_prefix : bool) (bound : Z)
    (s : list ascii) : option (list ascii) :=
  let '(value, n, rest) := digits radix to_digit 0 0 s in
  if (max_digits <? n)%nat || (n =? 0)%nat then None
  else if negb allow_zero_prefix && bool_decide (head s = Some "0"%char) && (1 <? n)%nat then None
  else if value <? bound then Some rest else None.

Definition read_char (c : ascii) (s : list ascii) : option (list ascii) :=
  match s with c' :: s' => if Ascii.eqb c' c then Some s' else None | [] => None end.

(** [read_separator]: the separator comes before every item but the first. *)
Definition read_separator (sep : ascii) (index : nat) (inner : list ascii -> option (list ascii)) (s : list ascii)
    : option (list ascii) :=
  match index with O => inner s | S _ => s ← read_char sep s; inner s end.

Definition octet : list ascii -> option (list ascii) := read_number 10 digit 3 false 256.
Definition read_ipv4_addr (s : list ascii) : option (list ascii) :=
  s ← read_separator "." 0 octet s; s ← read_separator "." 1 octet s; s ← read_separator "." 2 octet s; read_separator "." 3 octet s.

Definition group : list ascii -> option (list ascii) := read_number 16 hex_digit 4 true 65536.

(** [read_groups] from the [i]th on, [left] of them still to come: how many were read,
    whether they end in an IPv4 address, and the rest. *)
Fixpoint read_groups (left i : nat) (s : list ascii) : nat * bool * list ascii :=
  match left with
  | O => (i, false, s)
  | S left' =>
      match (match left' with O => None | S _ => read_separator ":" i read_ipv4_addr s end) with
      | Some rest => (i + 2, true, rest)%nat
      | None =>
          match read_separator ":" i group s with
          | Some rest => read_groups left' (S i) rest
          | None => (i, false, s)
          end
      end
  end.

Definition read_ipv6_addr (s : list ascii) : option (list ascii) :=
  let '(head_size, head_ipv4, rest) := read_groups 8 0 s in
  if (head_size =? 8)%nat then Some rest
  else if head_ipv4 then None
  else
    rest ← read_char ":" rest; rest ← read_char ":" rest;
    let '(_, _, rest) := read_groups (8 - (head_size + 1)) 0 rest in Some rest.

(** [s.parse::<IpAddr>().is_ok()]. *)
Definition parses (s : list ascii) : bool :=
  match (match read_ipv4_addr s with Some rest => Some rest | None => read_ipv6_addr s end) with
  | Some [] => true
  | _ => false
  end.
End IpAddr.

(** ** Endpoints *)

(** [str::rsplit_once]. *)
Definition rsplit_once (sep : ascii) (s : list ascii) : option (list ascii * list ascii) :=
  '(after, before) ← split_once sep (reverse s); Some (reverse before, reverse after).

(** [strip_prefix('\[')], then [strip_suffix('\]')]. *)
Definition unbracketed (host : list ascii) : option (list ascii) :=
  match host with
  | c :: h =>
      if Ascii.eqb c "["
      then match reverse h with c' :: h' => if Ascii.eqb c' "]" then Some (reverse h') else None | [] => None end
      else None
  | [] => None
  end.

Definition strip_brackets (host : list ascii) : list ascii :=
  match unbracketed host with Some h => if IpAddr.parses h then h else host | None => host end.

(** [v.parse()] into an unsigned integer of values under [bound]. *)
Definition parse_below (bound : Z) (v : list ascii) : option Z :=
  n ← parse_u64 v; if n <? bound then Some n else None.

(** Split [host:port], accepting [\[v6\]:port] too. *)
Definition parse_endpoint (endpoint : string) : result ClientError (string * Z) :=
  ok_or CBadRequest
    ('(host, port) ← rsplit_once ":" (String.list_ascii_of_string endpoint);
     port ← parse_below 65536 port;
     let host := strip_brackets host in
     if decide (host = []) then None else Some (String.string_of_list_ascii host, port)).

(** ** What is taken apart *)

Example loopback : IpAddr.parses (String.list_ascii_of_string "::1") = true. Proof. reflexivity. Qed.
Example mapped : IpAddr.parses (String.list_ascii_of_string "::ffff:127.0.0.1") = true. Proof. reflexivity. Qed.
Example whole : IpAddr.parses (String.list_ascii_of_string "2001:db8:0:0:0:0:2:1") = true. Proof. reflexivity. Qed.
Example no_zero_prefix : IpAddr.parses (String.list_ascii_of_string "127.0.0.01") = false. Proof. reflexivity. Qed.
Example too_many : IpAddr.parses (String.list_ascii_of_string "1:2:3:4:5:6:7:8:9") = false. Proof. reflexivity. Qed.
Example v4_first : IpAddr.parses (String.list_ascii_of_string "1.2.3.4::") = false. Proof. reflexivity. Qed.

Lemma split_once_absent sep s : sep ∉ s -> split_once sep s = None.
Proof.
  induction s as [|c s IH]; intros Hn; [done|]. cbn. apply not_elem_of_cons in Hn as [Hc Hn].
  destruct (Ascii.eqb_spec c sep); [congruence|]. by rewrite IH.
Qed.

Lemma split_once_first sep before after : sep ∉ before -> split_once sep (before ++ sep :: after) = Some (before, after).
Proof.
  induction before as [|c before IH]; intros Hn; cbn; [by rewrite Ascii.eqb_refl|]. apply not_elem_of_cons in Hn as [Hc Hn].
  destruct (Ascii.eqb_spec c sep); [congruence|]. by rewrite IH.
Qed.

Lemma rsplit_once_last sep before after : sep ∉ after -> rsplit_once sep (before ++ sep :: after) = Some (before, after).
Proof.
  intros Hn. unfold rsplit_once. rewrite reverse_app, reverse_cons, <- app_assoc. cbn [app].
  rewrite split_once_first by (by rewrite elem_of_reverse). cbn [mbind option_bind]. by rewrite !reverse_involutive.
Qed.

Lemma unbracketed_spec host h : unbracketed host = Some h <-> host = "["%char :: h ++ ["]"%char].
Proof.
  unfold unbracketed. split.
  - destruct host as [|c host]; [done|]. destruct (Ascii.eqb_spec c "["%char) as [->|]; [|done].
    destruct (reverse host) as [|c' h'] eqn:Hr; [done|]. destruct (Ascii.eqb_spec c' "]"%char) as [->|]; [|done].
    intros [= <-]. f_equal. apply (f_equal reverse) in Hr. by rewrite reverse_involutive, reverse_cons in Hr.
  - intros ->. cbn [app]. rewrite Ascii.eqb_refl.
    assert (reverse (h ++ ["]"%char]) = "]"%char :: reverse h) as -> by (rewrite reverse_app; reflexivity).
    rewrite Ascii.eqb_refl. by rewrite (reverse_involutive h).
Qed.

(** The host and the port a URI's authority or a user's setting names are what comes
    out, whatever colons the host holds: an IPv6 address in brackets comes out without
    them, any other host as it is, and an endpoint without a host or without a port under
    2^16 is refused. *)
Theorem endpoint_taken_apart host port :
  ":"%char ∉ port ->
  parse_endpoint (String.string_of_list_ascii (host ++ ":"%char :: port)) =
  match parse_below 65536 port with
  | Some p =>
      if decide (host = []) then Err CBadRequest
      else Ok (String.string_of_list_ascii
                 (match unbracketed host with Some h => if IpAddr.parses h then h else host | None => host end), p)
  | None => Err CBadRequest
  end.
Proof.
  intros Hp. unfold parse_endpoint. rewrite String.list_ascii_of_string_of_list_ascii, rsplit_once_last by done.
  cbn [mbind option_bind]. destruct (parse_below 65536 port) as [p|]; [|done]. cbn [mbind option_bind]. fold (strip_brackets host).
  destruct (decide (strip_brackets host = [])) as [He|He].
  - assert (host = []) as ->; [|done]. unfold strip_brackets in He. destruct (unbracketed host) as [h|] eqn:Hu; [|done].
    destruct (IpAddr.parses h) eqn:Hip; [|done]. subst h. discriminate Hip.
  - rewrite decide_False; [done|]. by intros ->.
Qed.

Lemma endpoint_taken_apart_witness :
  parse_endpoint "[::1]:50052" = Ok ("::1"%string, 50052) /\ parse_endpoint "localhost:70000" = Err CBadRequest.
Proof.
  split.
  - refine (eq_trans (endpoint_taken_apart (String.list_ascii_of_string "[::1]") (String.list_ascii_of_string "50052") _) _);
      [apply (bool_decide_unpack _); vm_compute; exact I|vm_compute; reflexivity].
  - refine (eq_trans (endpoint_taken_apart (String.list_ascii_of_string "localhost") (String.list_ascii_of_string "70000") _) _);
      [apply (bool_decide_unpack _); vm_compute; exact I|vm_compute; reflexivity].
Defined.
