(* ===== verification/Client.v ===== *)
(** The client's calls: [aex-client/src/client.rs], [aex-client/src/config.rs] and the results
    of [aex-client/src/transfer.rs].  The server at the other end of both planes is an
    interface; a buffer the caller lends is what it holds, before and after. *)
From Stdlib Require Import Ascii.
From stdpp Require Import strings.
From S2P Require Import Prelude Errors Dtype Bytes Quality Selection Text Backend Handshake Convert Reduce Reader Plan Pool Endpoint Control.

Module Client.

(** ** Configuration *)

Definition DEFAULT_STREAMS : Z := 8.
Definition DEFAULT_CREDIT : Z := 16.
Definition CLIENT_PROTOCOL_VERSION : Z := PROTOCOL_VERSION.

(** Timeouts are milliseconds. *)
Record ClientConfig : Type := {
  streams : Z;
  client_name : string;
  connect_timeout : Z;
  max_message_bytes : Z;
  chunk_bytes : Z;
  credit : Z;
  max_retries : Z;
  data_endpoint : option string;
}.

(** The defaults; the name is the program's. *)
Definition default_config (name : string) : ClientConfig :=
  {| streams := DEFAULT_STREAMS; client_name := name; connect_timeout := 10 * 1000;
     max_message_bytes := 4 * 1024 * 1024; chunk_bytes := 0; credit := DEFAULT_CREDIT; max_retries := 3;
     data_endpoint := None |}.

(** The environment's settings over [config]; what does not parse is ignored. *)
Definition with_env (config : ClientConfig) (lookup : string -> option string) : ClientConfig :=
  let number name bound old := default old (v ← lookup name; parse_below bound (String.list_ascii_of_string v)) in
  {| streams := number "AEX_STREAMS"%string two32 (streams config);
     client_name := default (client_name config) (lookup "AEX_CLIENT_NAME"%string);
     connect_timeout := number "AEX_CONNECT_TIMEOUT_MS"%string two64 (connect_timeout config);
     max_message_bytes := number "AEX_MAX_MESSAGE_BYTES"%string two64 (max_message_bytes config);
     chunk_bytes := number "AEX_CHUNK_BYTES"%string two64 (chunk_bytes config);
     credit := number "AEX_CREDIT"%string two32 (credit config);
     max_retries := number "AEX_MAX_RETRIES"%string two32 (max_retries config);
     data_endpoint := match lookup "AEX_DATA_ENDPOINT"%string with Some e => Some e | None => data_endpoint config end |}.

(** ** What a caller names and gets *)

(** A selection of a dataset, and how it should be encoded. *)
Record Selection : Type := { handle : Z; name : string; indices : list Index; quality : QualitySpec }.
Definition exact (handle : Z) (name : string) (indices : list Index) : Selection :=
  {| handle := handle; name := name; indices := indices; quality := QualitySpec.exact |}.

(** A keyword argument of a reduction; a double is its bits. *)
Inductive FunctionArg : Type :=
  | ANone
  | ABool (b : bool)
  | AInt (i : Z)
  | AFloat (bits : Z)
  | AInts (v : list Z).
Definition arg_to_proto (arg : FunctionArg) : option ArgValue :=
  Some match arg with
       | ANone => NoneValue true
       | ABool b => BoolValue b
       | AInt i => IntValue i
       | AFloat f => FloatValue f
       | AInts v => TupleInt v
       end.

Record DatasetInfo : Type := { d_dtype : DType; d_shape : list Z; d_attrs : list (string * AttrValue) }.
Inductive Item : Type := Dataset (info : DatasetInfo) | Group (attrs : list (string * AttrValue)).

(** A product of 64-bit lengths. *)
Definition num_elements (info : DatasetInfo) : Z := foldl wmul 1 (d_shape info).

Record SessionInfo : Type := {
  si_id : bytes;
  si_token : bytes;
  si_data_endpoint : string * Z;
  si_granted_streams : Z;
  si_protocol_version : Z;
  si_default_chunk_bytes : Z;
  si_max_fetch_bytes : Z;
  si_supported_codecs : Z;
  si_supported_encodings : Z;
  si_max_fancy_indices : Z;
}.

(** How a transfer went, but for how long it took. *)
Record TransferResult : Type := {
  tr_bytes : Z;
  tr_wire_bytes : Z;
  tr_chunks : Z;
  tr_streams : Z;
  tr_retries : Z;
  tr_inline : bool;
}.

(** A nanosecond's clock; [cs_rtt] is the fastest call seen. *)
Record ClientStats : Type := { cs_bytes : Z; cs_elapsed : Z; cs_chunks : Z; cs_retries : Z; cs_streams : Z; cs_rtt : Z }.
Definition stats_add (s : ClientStats) (transfer : TransferResult) (elapsed : Z) : ClientStats :=
  {| cs_bytes := cs_bytes s +w tr_bytes transfer; cs_elapsed := cs_elapsed s + elapsed;
     cs_chunks := cs_chunks s +w tr_chunks transfer; cs_retries := cs_retries s +w tr_retries transfer;
     cs_streams := cs_streams s; cs_rtt := cs_rtt s |}.

Record ArrayData : Type := { a_dtype : DType; a_shape : list Z; a_bytes : bytes; a_transfer : TransferResult }.

(** ** Messages as they arrive, where any part may be missing *)

Record ItemMessage : Type := {
  m_name : string;
  m_data : option ItemData;
  m_attrs : list (string * option AttributeValue);
}.

Definition attr_from_proto (attr : string * option AttributeValue) : result ClientError (string * AttrValue) :=
  let '(name, value) := attr in
  value ← ok_or CProtocol value;
  match value with
  | AttrText text => Ok (name, AText text)
  | AttrArray dtype shape data =>
      dtype ← map_err (fun _ => CProtocol) (DType.from_i32 dtype);
      shape ← shape_from_proto shape;
      if negb (zlen data =? nbytes shape dtype) then Err CProtocol
      else Ok (name, AArray dtype shape data)
  end.

Definition item_from_proto (item : ItemMessage) : result ClientError (string * Item) :=
  data ← ok_or CProtocol (m_data item);
  attrs ← mapM attr_from_proto (m_attrs item);
  match data with
  | IGroup => Ok (m_name item, Group attrs)
  | IDataset dtype shape =>
      dtype ← map_err (fun _ => CProtocol) (DType.from_i32 dtype);
      shape ← shape_from_proto shape;
      Ok (m_name item, Dataset {| d_dtype := dtype; d_shape := shape; d_attrs := attrs |})
  end.

Definition as_16_bytes (b : bytes) : result ClientError bytes := if zlen b =? 16 then Ok b else Err CProtocol.

(** ** Asking *)

Section Ask.
Context `{Build}.

(** The most of [quality] this build could expand if it arrived. *)
Definition expandable (quality : QualitySpec) : QualitySpec :=
  if Encoding.is_supported (encoding quality) && Codec.is_supported (QualitySpec.codec quality) then quality
  else QualitySpec.exact.

(** The wire form of a selection; a batch leaves the session out. *)
Definition prepare_request (session_id : bytes) (s : Selection) : PrepareSelectionRequest :=
  {| ps_session := session_id; ps_handle := handle s; ps_name := name s; ps_indices := indices_to_proto (indices s);
     ps_quality := Some (quality_to_proto (expandable (quality s)));
     ps_codec := Codec.as_u32 (QualitySpec.codec (expandable (quality s))) |}.
End Ask.

(** ** The server, seen from here *)

(** What a transfer over the data plane came to. *)
Record Fetched : Type := { ft_streams : Z; ft_retries : Z; ft_wire_bytes : Z }.

(** The calls a client makes on the network in the state [W] of everything beyond it: each
    RPC with how long it took, and [DataPool::fetch], which hands back the buffers. *)
Class Remote (W : Type) := {
  rpc_connect : W -> ConnectRequest -> W * Z * result Code ConnectReply;
  (** [DataPool::connect]: the endpoint, the session's identifier and token, the connections. *)
  pool_connect : W -> string * Z -> bytes -> bytes -> Z -> W * result ClientError unit;
  rpc_open_file : W -> OpenFileRequest -> W * Z * result Code Z;
  rpc_close_file : W -> CloseFileRequest -> W * Z * result Code unit;
  rpc_get_item : W -> ItemRequest -> W * Z * result Code ItemMessage;
  rpc_list_children : W -> ItemRequest -> W * Z * result Code (list ItemMessage);
  rpc_prepare_selection : W -> PrepareSelectionRequest -> W * Z * result Code TransferPlan;
  rpc_prepare_selections : W -> bytes -> list PrepareSelectionRequest -> W * Z * result Code (list (option TransferPlanOrError));
  rpc_apply_function : W -> ApplyFunctionRequest -> W * Z * result Code ApplyFunctionReply;
  rpc_disconnect : W -> bytes -> W * Z * result Code unit;
  pool_fetch : W -> FetchSpec -> list Part -> list (list (Z * Z)) -> W * (result ClientError Fetched * list bytes);
}.

(** What of a client never changes: its session, its configuration, its connections. *)
Record Setup : Type := { session : SessionInfo; config : ClientConfig; pool_streams : Z }.

(** What the server grants, taken apart before any data connection is made. *)
Definition session_info (config : ClientConfig) (control_host : string) (reply : ConnectReply) : result ClientError SessionInfo :=
  if negb (cr_version reply =? CLIENT_PROTOCOL_VERSION) then Err CProtocol
  else
    '(host, port) ← ok_or CProtocol (head (cr_endpoints reply));
    port ← (if port <? 65536 then Ok port else Err CProtocol);
    endpoint ← match data_endpoint config with
               | Some pinned => parse_endpoint pinned
               | None =>
                   if decide (host = ""%string)
                   then Ok (String.string_of_list_ascii (strip_brackets (String.list_ascii_of_string control_host)), port)
                   else Ok (host, port)
               end;
    _ ← as_16_bytes (cr_session_id reply);
    _ ← as_16_bytes (cr_session_token reply);
    Ok {| si_id := cr_session_id reply; si_token := cr_session_token reply; si_data_endpoint := endpoint;
          si_granted_streams := cr_granted_streams reply; si_protocol_version := cr_version reply;
          si_default_chunk_bytes := cr_default_chunk_bytes reply; si_max_fetch_bytes := cr_max_fetch_bytes reply;
          si_supported_codecs := cr_supported_codecs reply; si_supported_encodings := cr_supported_encodings reply;
          si_max_fancy_indices := DEFAULT_MAX_FANCY_INDICES |}.

(** Open a session and its data connections; [control_host] is the host of the url. *)
Definition connect `{Remote W} (config : ClientConfig) (control_host : string) (w : W)
    : W * result ClientError (Setup * ClientStats) :=
  let '(w, rtt, reply) := rpc_connect w
    {| cq_version := CLIENT_PROTOCOL_VERSION; cq_streams := streams config; cq_client := client_name config |} in
  sbind (w, map_err ClientError.from_status reply) (fun w reply =>
  sbind (w, session_info config control_host reply) (fun w session =>
  let held := Z.max (si_granted_streams session) 1 in
  sbind (pool_connect w (si_data_endpoint session) (si_id session) (si_token session) held) (fun w _ =>
  (w, Ok ({| session := session; config := config; pool_streams := held |},
          {| cs_bytes := 0; cs_elapsed := 0; cs_chunks := 0; cs_retries := 0; cs_streams := held; cs_rtt := rtt |}))))).

Section Calls.
Context `{Build}.
Context {W : Type} `{!Remote W}.
Context (c : Setup).

(** The world and the totals a client keeps. *)
Record State : Type := { world : W; stats : ClientStats }.

(** Run one RPC to completion; only an answer counts towards the round trip. *)
Definition call {A} (st : State) (rpc : W -> W * Z * result Code A) : State * result ClientError A :=
  let '(w, took, answer) := rpc (world st) in
  match answer with
  | Ok a =>
      ({| world := w;
          stats := {| cs_bytes := cs_bytes (stats st); cs_elapsed := cs_elapsed (stats st); cs_chunks := cs_chunks (stats st);
                      cs_retries := cs_retries (stats st); cs_streams := cs_streams (stats st);
                      cs_rtt := Z.min (cs_rtt (stats st)) took |} |}, Ok a)
  | Err code => ({| world := w; stats := stats st |}, Err (ClientError.from_status code))
  | Panic => ({| world := w; stats := stats st |}, Panic)
  end.

Definition open_as (st : State) (path format : string) : State * result ClientError Z :=
  call st (fun w => rpc_open_file w {| of_session := si_id (session c); of_path := path; of_format := format |}).
Definition open (st : State) (path : string) : State * result ClientError Z := open_as st path "".
Definition close (st : State) (handle : Z) : State * result ClientError unit :=
  call st (fun w => rpc_close_file w {| cf_session := si_id (session c); cf_handle := handle |}).

Definition get_item (st : State) (handle : Z) (name : string) : State * result ClientError Item :=
  sbind (call st (fun w => rpc_get_item w {| iq_session := si_id (session c); iq_handle := handle; iq_name := name |}))
    (fun st reply => (st, snd <$> item_from_proto reply)).

Definition list_children (st : State) (handle : Z) (name : string) : State * result ClientError (list (string * Item)) :=
  sbind (call st (fun w => rpc_list_children w {| iq_session := si_id (session c); iq_handle := handle; iq_name := name |}))
    (fun st reply => (st, mapM item_from_proto reply)).

(** [check_fancy_limit(..).map_err(BadRequest)]. *)
Definition check_selection (s : Selection) : result ClientError unit :=
  map_err (fun _ => CBadRequest) (check_fancy_limit (indices s) (si_max_fancy_indices (session c))).

Definition prepare_selection (st : State) (s : Selection) : State * result ClientError Plan :=
  sbind (pure_step st (check_selection s)) (fun st _ =>
  sbind (call st (fun w => rpc_prepare_selection w (prepare_request (si_id (session c)) s))) (fun st reply =>
  (st, Plan.from_proto reply (quality s)))).

Definition prepare (st : State) (handle : Z) (name : string) (indices : list Index) : State * result ClientError Plan :=
  prepare_selection st (exact handle name indices).

(** Pair the replies up with the selections that were sent, [locals] holding the ones
    that were not. *)
Fixpoint pair_up (locals : list (result ClientError unit)) (selections : list Selection)
    (replies : list (option TransferPlanOrError)) : result ClientError (list (result ClientError Plan)) :=
  match locals, selections with
  | Err e :: locals, _ :: selections => rest ← pair_up locals selections replies; Ok (Err e :: rest)
  | Panic :: _, _ :: _ => Panic
  | Ok _ :: locals, s :: selections =>
      first ← match head replies with
              | Some (Some (PPlan plan)) => Ok (Plan.from_proto plan (quality s))
              | Some (Some (PError klass)) =>
                  Ok (Err (CData (ErrorClass.from_u8 (if (0 <=? klass) && (klass <? 256) then klass else 255))))
              | _ => Err CProtocol
              end;
      rest ← pair_up locals selections (tail replies);
      Ok (first :: rest)
  | _, _ => Ok []
  end.

(** Several selections in one round trip, each with an answer of its own. *)
Definition prepare_many (st : State) (selections : list Selection) : State * result ClientError (list (result ClientError Plan)) :=
  let locals := check_selection <$> selections in
  let requests := prepare_request [] <$> filter (fun s => check_selection s = Ok tt) selections in
  sbind (call st (fun w => rpc_prepare_selections w (si_id (session c)) requests)) (fun st replies =>
  (st, pair_up locals selections replies)).

(** Reduce a selection on the server. *)
Definition apply_function (st : State) (s : Selection) (function : string) (kwargs : list (string * FunctionArg))
    : State * result ClientError Reduced :=
  sbind (pure_step st (check_selection s)) (fun st _ =>
  sbind (call st (fun w => rpc_apply_function w
    {| af_session := si_id (session c); af_handle := handle s; af_name := name s; af_function := function;
       af_kwargs := (fun '(name, value) => (name, arg_to_proto value)) <$> kwargs;
       af_indices := indices_to_proto (indices s) |})) (fun st reply =>
  (st,
   dtype ← map_err (fun _ => CProtocol) (DType.from_i32 (ar_dtype reply));
   shape ← shape_from_proto (ar_shape reply);
   if negb (zlen (ar_data reply) =? nbytes shape dtype) then Err CProtocol
   else Ok {| r_dtype := dtype; r_shape := shape; r_data := ar_data reply |}))).

Definition disconnect (st : State) : State * result ClientError unit :=
  call st (fun w => rpc_disconnect w (si_id (session c))).

(** ** Filling buffers *)

(** [dst.copy_from_slice(src)]. *)
Definition copy_from_slice (src dst : bytes) : result ClientError bytes := if zlen src =? zlen dst then Ok src else Panic.

Definition sum_u64 (l : list Z) : Z := foldl wadd 0 l.

(** How much one fetch asks for. *)
Definition fetch_bytes (total_bytes : Z) : Z :=
  Plan.chunk_bytes (chunk_bytes (config c)) (si_default_chunk_bytes (session c)) (si_max_fetch_bytes (session c))
    (pool_streams c) total_bytes.

(** The parts of one fetch: the buffers in order, each under the next plan of [remote]
    when that plan is for it. *)
Fixpoint parts_of (i : nat) (dsts : list bytes) (remote : list (nat * Plan)) : list Part :=
  match dsts, remote with
  | dst :: dsts, (at_, plan) :: rest =>
      if (at_ =? i)%nat
      then {| pt_request_id := plan_request_id plan; pt_ticket := plan_ticket plan; pt_dst := dst |} :: parts_of (S i) dsts rest
      else parts_of (S i) dsts remote
  | _, _ => []
  end.

(** What the fetch left in those buffers. *)
Fixpoint put_back (i : nat) (dsts : list bytes) (remote : list (nat * Plan)) (filled : list bytes) : list bytes :=
  match dsts, remote, filled with
  | dst :: dsts', (at_, _) :: rest, b :: filled' =>
      if (at_ =? i)%nat then b :: put_back (S i) dsts' rest filled' else dst :: put_back (S i) dsts' remote filled
  | _, _, _ => dsts
  end.

(** Plans answered inline go straight into their buffers; the others are left for the
    data plane, by position. *)
Fixpoint take_inline (i : nat) (plans : list Plan) (dsts : list bytes) : result ClientError (list bytes * list (nat * Plan)) :=
  match plans, dsts with
  | plan :: plans, dst :: dsts =>
      if Plan.is_inline plan then
        dst ← copy_from_slice (inline_data plan) dst;
        '(dsts, remote) ← take_inline (S i) plans dsts;
        Ok (dst :: dsts, remote)
      else
        '(dsts, remote) ← take_inline (S i) plans dsts;
        Ok (dst :: dsts, (i, plan) :: remote)
  | _, _ => Ok (dsts, [])
  end.

(** The loop over the plans prepared again. *)
Fixpoint take_fresh (remote : list (nat * Plan)) (fresh : list (result ClientError Plan)) (dsts : list bytes)
    : list bytes * result ClientError (list (nat * Plan)) :=
  match remote, fresh with
  | (i, old) :: remote, plan :: fresh =>
      match plan with
      | Ok plan =>
          if negb (plan_total_bytes plan =? plan_total_bytes old) then (dsts, Err CBadRequest)
          else if Plan.is_inline plan then
            match dst ← ok_or CBadRequest (dsts !! i); copy_from_slice (inline_data plan) dst with
            | Ok b => take_fresh remote fresh (<[i := b]> dsts)
            | _ => (dsts, Panic)
            end
          else
            sbind (take_fresh remote fresh dsts) (fun dsts still => (dsts, Ok ((i, plan) :: still)))
      | Err e => (dsts, Err e)
      | Panic => (dsts, Panic)
      end
  | _, _ => (dsts, Ok [])
  end.

(** [while !remote.is_empty()]; the answer is the fetch that ended it, if any did, with
    the retries and the chunks of that turn. *)
Fixpoint fill_loop (fuel : nat) (chunk : Z) (selections : list Selection) (st : State * list bytes) (remote : list (nat * Plan))
    (retries chunks : Z) : (State * list bytes) * result ClientError (Fetched * Z * Z) :=
  match remote, fuel with
  | [], _ => (st, Ok ({| ft_streams := 0; ft_retries := 0; ft_wire_bytes := 0 |}, retries, chunks))
  | _, O => (st, Panic)
  | _, S fuel =>
      let '(st, dsts) := st in
      let parts := parts_of 0 dsts remote in
      let cut := (fun '(_, plan) => Plan.chunks plan chunk) <$> remote in
      let chunks := u32 (foldr (fun cs n => zlen cs + n) 0 cut) in
      let '(w, (answer, filled)) := pool_fetch (world st) {| Pool.credit := credit (config c); Pool.max_retries := max_retries (config c) |} parts cut in
      let st := {| world := w; stats := stats st |} in
      let dsts := put_back 0 dsts remote filled in
      match answer with
      | Ok fetched => ((st, dsts), Ok (fetched, retries, chunks))
      | Err e =>
          if ClientError.needs_reprepare e && (retries =? 0) then
            let again := omap (fun '(i, plan) =>
              s ← selections !! i;
              Some {| handle := handle s; name := name s; indices := indices s; quality := requested_quality plan |}) remote in
            let '(st, fresh) := prepare_many st again in
            sbind ((st, dsts), fresh) (fun '(st, dsts) fresh =>
            let '(dsts, still) := take_fresh remote fresh dsts in
            sbind ((st, dsts), still) (fun st still =>
            fill_loop fuel chunk selections st still 1 chunks))
          else ((st, dsts), Err e)
      | Panic => ((st, dsts), Panic)
      end
  end.

(** Turns enough: plans are prepared again once. *)
Definition FILL_TURNS : nat := 2.

Definition fill_batch (st : State) (plans : list Plan) (selections : list Selection) (dsts : list bytes)
    : (State * list bytes) * result ClientError TransferResult :=
  if negb (length plans =? length selections)%nat || negb (length plans =? length dsts)%nat then ((st, dsts), Err CBadRequest)
  else if negb (forallb (fun '(plan, dst) => plan_total_bytes plan =? zlen dst) (zip plans dsts)) then ((st, dsts), Err CBadRequest)
  else
    sbind (pure_step (st, dsts) (take_inline 0 plans dsts)) (fun '(st, _) '(dsts, remote) =>
    let chunk := fetch_bytes (sum_u64 ((fun '(_, plan) => plan_total_bytes plan) <$> remote)) in
    sbind (fill_loop FILL_TURNS chunk selections (st, dsts) remote 0 0) (fun st '(fetched, retries, chunks) =>
    (st, Ok {| tr_bytes := sum_u64 (plan_total_bytes <$> plans); tr_wire_bytes := ft_wire_bytes fetched; tr_chunks := chunks;
               tr_streams := ft_streams fetched; tr_retries := u32 (retries + ft_retries fetched);
               tr_inline := bool_decide (remote = []) |}))).

(** Fill each buffer from its plan; [elapsed] is how long that took. *)
Definition fill_many (st : State) (plans : list Plan) (selections : list Selection) (dsts : list bytes) (elapsed : Z)
    : (State * list bytes) * result ClientError TransferResult :=
  sbind (fill_batch st plans selections dsts) (fun '(st, dsts) result =>
  (({| world := world st; stats := stats_add (stats st) result elapsed |}, dsts), Ok result)).

Definition fill (st : State) (plan : Plan) (s : Selection) (dst : bytes) (elapsed : Z)
    : (State * bytes) * result ClientError TransferResult :=
  let '((st, dsts), result) := fill_many st [plan] [exact (handle s) (name s) (indices s)] [dst] elapsed in
  ((st, default dst (head dsts)), result).

Definition read_selection_into (st : State) (handle : Z) (name : string) (indices : list Index) (dst : bytes) (elapsed : Z)
    : (State * bytes) * result ClientError TransferResult :=
  let '(st, plan) := prepare st handle name indices in
  sbind ((st, dst), plan) (fun '(st, dst) plan => fill st plan (exact handle name indices) dst elapsed).

Definition read_selection (st : State) (handle : Z) (name : string) (indices : list Index) (elapsed : Z)
    : State * result ClientError ArrayData :=
  sbind (prepare st handle name indices) (fun st plan =>
  let dst := replicate (Z.to_nat (plan_total_bytes plan)) 0 in
  let '((st, b), transfer) := fill st plan (exact handle name indices) dst elapsed in
  sbind (st, transfer) (fun st transfer =>
  (st, Ok {| a_dtype := plan_dtype plan; a_shape := plan_shape plan; a_bytes := b; a_transfer := transfer |}))).

(** The element types a buffer of elements may have; its elements are its bytes. *)
Definition ELEMENTS : list DType := [Int8; Int16; Int32; Int64; Uint8; Uint16; Uint32; Uint64; Float32; Float64].
Definition read_selection_as (dtype : DType) (st : State) (handle : Z) (name : string) (indices : list Index) (elapsed : Z)
    : State * result ClientError ArrayData :=
  sbind (prepare st handle name indices) (fun st plan =>
  if negb (bool_decide (plan_dtype plan = dtype)) then (st, Err CBadRequest)
  else
    let dst := replicate (Z.to_nat (plan_total_bytes plan)) 0 in
    let '((st, b), transfer) := fill st plan (exact handle name indices) dst elapsed in
    sbind (st, transfer) (fun st transfer =>
    (st, Ok {| a_dtype := dtype; a_shape := plan_shape plan; a_bytes := b; a_transfer := transfer |}))).
End Calls.

End Client.
