(* ===== verification/ClientSpec.v ===== *)
(** The client's guarantees: what the server says of an item arrives as it was said, a
    batch's answers come back to the selections they are for, what is asked for can be
    expanded when it comes, and a buffer filled holds its selection. *)
From stdpp Require Import strings gmap.
From S2P Require Import Prelude Errors Dtype Bytes Quality Selection Cast LayoutSpec Text Backend Null Convert Config Paths Reduce ReduceNumpy Reader Session Transfer Plan Pool Endpoint Control ControlSpec ControlServes Client.

Import Client.

(** ** Metadata *)

(** A reply as it arrives, nothing missing. *)
Definition on_wire (reply : ItemReply) : ItemMessage :=
  {| m_name := i_name reply; m_data := Some (i_data reply);
     m_attrs := (fun '(name, value) => (name, Some value)) <$> i_attrs reply |}.

(** An attribute whose bytes are those its type and shape say. *)
Definition attr_wf (attr : string * AttrValue) : Prop :=
  match attr.2 with
  | AText _ => True
  | AArray dtype shape data => Forall (fun n => 0 <= n) shape /\ zlen data = nbytes shape dtype
  end.

Lemma shape_roundtrip shape ns :
  Forall (fun n => 0 <= n) shape -> shape_to_proto shape = Ok ns -> shape_from_proto ns = Ok shape.
Proof.
  intros Hs Hn%mapM_ok. unfold shape_from_proto. induction Hn as [|n m ns ms Hn _ IH]; [done|].
  apply Forall_cons in Hs as [Hn0 Hs]. destruct (Z.ltb_spec n two63); [|done]. injection Hn as <-. cbn [mapM].
  destruct (Z.ltb_spec n 0); [lia|]. cbn. by rewrite IH.
Qed.

Lemma attr_roundtrip attr value :
  attr_wf attr -> attr_to_proto attr = Ok value -> attr_from_proto (value.1, Some value.2) = Ok attr.
Proof.
  destruct attr as [name [text|dtype shape data]]; cbn; [by intros _ [= <-]|].
  intros [Hs Hd] (ns & Hns & [= <-])%bind_ok. cbn. rewrite from_i32_as_i32. cbn. rewrite (shape_roundtrip shape ns) by done.
  cbn. by rewrite Hd, Z.eqb_refl.
Qed.

Lemma attrs_roundtrip attrs values :
  Forall attr_wf attrs -> mapM attr_to_proto attrs = Ok values ->
  mapM attr_from_proto ((fun '(name, value) => (name, Some value)) <$> values) = Ok attrs.
Proof.
  intros Ha Hv%mapM_ok. induction Hv as [|attr [name value] attrs values Hv _ IH]; [done|].
  apply Forall_cons in Ha as [Ha1 Ha]. pose proof (attr_roundtrip attr (name, value) Ha1 Hv) as Hr. cbn [fst snd] in Hr.
  cbn [fmap list_fmap mapM]. by rewrite Hr, IH.
Qed.

Lemma shape_refused shape e :
  shape_to_proto shape = e -> (exists ns, e = Ok ns) \/ (e = Err (SCore MalformedNpy) /\ exists n, n ∈ shape /\ two63 <= n).
Proof.
  intros <-. unfold shape_to_proto. induction shape as [|n shape IH]; cbn [mapM]; [left; by eexists|].
  destruct (Z.ltb_spec n two63) as [|Hge]; cbn [mbind result_bind].
  - destruct IH as [[ns ->]|[-> (m & Hin & Hm)]]; cbn; [left; by eexists|right]. split; [done|]. exists m. split; [by right|done].
  - right. split; [done|]. exists n. split; [left|done].
Qed.

Lemma attrs_refused attrs e :
  mapM attr_to_proto attrs = e ->
  (exists vs, e = Ok vs) \/ (e = Err (SCore MalformedNpy) /\
    exists attr dtype shape data n, attr ∈ attrs /\ attr.2 = AArray dtype shape data /\ n ∈ shape /\ two63 <= n).
Proof.
  intros <-. induction attrs as [|[name value] attrs IH]; cbn [mapM]; [left; by eexists|].
  assert ((exists v, attr_to_proto (name, value) = Ok v) \/ attr_to_proto (name, value) = Err (SCore MalformedNpy) /\
    exists dtype shape data n, value = AArray dtype shape data /\ n ∈ shape /\ two63 <= n) as Hone.
  { destruct value as [text|dtype shape data]; cbn; [left; by eexists|].
    destruct (shape_refused shape _ eq_refl) as [[ns ->]|[-> (n & Hin & Hn)]]; cbn; [left; by eexists|right]. split; [done|]. by exists dtype, shape, data, n. }
  destruct Hone as [[v ->]|[-> (dtype & shape & data & n & -> & Hin & Hn)]]; cbn [mbind result_bind].
  - destruct IH as [[vs ->]|[-> (attr & dtype & shape & data & n & Ha & Hrest)]]; cbn; [left; by eexists|right]. split; [done|].
    exists attr, dtype, shape, data, n. split; [by right|done].
  - right. split; [done|]. exists (name, AArray dtype shape data), dtype, shape, data, n. split; [left|done].
Qed.

(** C31: what a file says of an item is what the caller is told.  Name, element type,
    shape and every attribute, value and order, survive the messages both ways; the only
    item the wire cannot carry is one with an axis of 2^63 or more, and of that the caller
    is told with an error rather than a wrong shape. *)
Theorem item_travels `{ArrayDataset D} (name : string) (item : Backend.Item D) attrs :
  Forall attr_wf attrs -> (forall d, item = Backend.Dataset d -> Forall (fun n => 0 <= n) (ds_shape d)) ->
  match item_to_proto name item attrs with
  | Ok reply => item_from_proto (on_wire reply) = Ok (name,
      match item with
      | Backend.Dataset d => Dataset {| d_dtype := ds_dtype d; d_shape := ds_shape d; d_attrs := attrs |}
      | Backend.Group => Group attrs
      end)
  | Err e => e = SCore MalformedNpy /\
      ((exists d n, item = Backend.Dataset d /\ n ∈ ds_shape d /\ two63 <= n) \/
       exists attr dtype shape data n, attr ∈ attrs /\ attr.2 = AArray dtype shape data /\ n ∈ shape /\ two63 <= n)
  | Panic => False
  end.
Proof.
  intros Ha Hd. unfold item_to_proto, item_from_proto, dataset_to_proto. destruct item as [d|].
  - specialize (Hd d eq_refl). destruct (shape_refused (ds_shape d) _ eq_refl) as [[ns Hns]|[-> (n & Hin & Hn)]]; cbn [mbind result_bind].
    + rewrite Hns. cbn [mbind result_bind].
      destruct (attrs_refused attrs _ eq_refl) as [[vs Hvs]|[-> Hr]]; cbn [mbind result_bind]; [|split; [done|by right]].
      rewrite Hvs. cbn [mbind result_bind on_wire m_data m_attrs m_name i_name i_data i_attrs ok_or].
      rewrite (attrs_roundtrip attrs vs Ha Hvs). cbn [mbind result_bind]. rewrite from_i32_as_i32. cbn [map_err mbind result_bind].
      by rewrite (shape_roundtrip _ ns Hd Hns).
    + split; [done|]. left. by exists d, n.
  - cbn [mbind result_bind]. destruct (attrs_refused attrs _ eq_refl) as [[vs Hvs]|[-> Hr]]; cbn [mbind result_bind]; [|split; [done|by right]].
    rewrite Hvs. cbn [mbind result_bind on_wire m_data m_attrs m_name i_name i_data i_attrs ok_or].
    by rewrite (attrs_roundtrip attrs vs Ha Hvs).
Qed.

(** ** Quality *)

(** A selection comes in a form the client can expand.  Whatever is asked for, of
    whatever elements, a server built with any codecs answers in the codec the client's own
    build named in its request or in none, and the client's build has it. *)
Theorem answer_expandable (client server : Build) session s dtype :
  let rq := @prepare_request client session s in
  let codec := @QualitySpec.codec server (@QualitySpec.applied server (asked rq) dtype) in
  (codec = Raw \/ Some codec = Codec.from_u32 (ps_codec rq)) /\ @Codec.is_supported client codec = true.
Proof.
  cbv zeta. unfold asked, prepare_request. cbn [ps_quality ps_codec]. set (e := @expandable client (quality s)).
  assert (Codec.from_u32 (Codec.as_u32 (@QualitySpec.codec client e)) = Some (@QualitySpec.codec client e)) as Hc
    by (by destruct (@QualitySpec.codec client e)).
  rewrite Hc. unfold quality_from_proto, quality_to_proto. cbn [Proto.p_encoding].
  assert (Encoding.from_i32 (Encoding.as_i32 (encoding e)) = Some (encoding e)) as -> by (by destruct (encoding e)).
  cbn [encoding].
  assert (@Codec.is_supported client (@QualitySpec.codec client e) = true) as Hsup.
  { subst e. unfold expandable. destruct (_ && _) eqn:He; [by apply andb_true_iff in He as [_ ?]|done]. }
  set (q := {| encoding := encoding e; cast_dtype := _; abs_error_bound := _; rel_error_bound := _; spec_codec := _ |}).
  unfold QualitySpec.applied. destruct (@QualitySpec.can_apply server q dtype) eqn:Ha; [|by split; [left|]].
  assert (@QualitySpec.codec server q = Raw \/ @QualitySpec.codec server q = @QualitySpec.codec client e) as Hor.
  { subst q. clearbody e. clear -Ha Hsup.
    assert (Codec.is_error_bounded (@Codec.DEFAULT_LOSSY client) = true) as Hb by (unfold Codec.DEFAULT_LOSSY; by destruct (@feature_sz client)).
    unfold QualitySpec.codec in *. cbn [encoding spec_codec] in *.
    destruct (encoding e); cbn in *; destruct (spec_codec e) as [[]|]; cbn in *; try tauto.
    all: repeat case_match; cbn in *; try tauto; try congruence. }
  destruct Hor as [-> | ->]; [by split; [left|]|]. by split; [right|].
Qed.

(** ** Sessions *)

(** Both ends agree on the session.  What the server grants, the client accepts:
    the identifier and the token it will say HELLO with name a session of the server's, the
    streams it will open are those the session may have, and the endpoint is the server's
    own port, at the host it advertises or, when it advertises none, where the client
    reached it. *)
Theorem session_agreed `{Build, HalfLib, HalfNum, Fs, ArrayDataset D, ArrayFile F D, !Backends F D}
    (sv : Service F D) config control_host now session_id session_token sv' reply :
  data_endpoint config = None -> length session_id = 16%nat -> length session_token = 16%nat -> sv_port sv < 65536 ->
  ControlService.connect sv {| cq_version := CLIENT_PROTOCOL_VERSION; cq_streams := streams config; cq_client := client_name config |}
    now (Ok session_id) (Ok session_token) = (sv', Ok reply) ->
  exists info s,
    session_info config control_host reply = Ok info /\
    sessions (sv_sessions sv') !! si_id info = Some s /\ id s = si_id info /\ token s = si_token info /\
    length (si_id info) = 16%nat /\ length (si_token info) = 16%nat /\
    granted_streams s = si_granted_streams info /\ data_conns s = 0 /\
    si_granted_streams info <= max_streams_per_session (limits (s_config (sv_sessions sv))) /\
    si_data_endpoint info =
      (if decide (sv_host sv = ""%string) then String.string_of_list_ascii (strip_brackets (String.list_ascii_of_string control_host))
       else sv_host sv, sv_port sv).
Proof.
  intros Hpin Hid Htk Hport. unfold ControlService.connect. cbn [cq_version cq_client cq_streams].
  change (CLIENT_PROTOCOL_VERSION =? Config.SERVER_PROTOCOL_VERSION) with true. cbn [negb].
  unfold SessionRegistry.create_at, SessionRegistry.new_session. destruct (SessionRegistry.create_test _) as [u|e|]; cbn [mbind result_bind sbind]; [|done..].
  intros [= <- <-]. unfold session_info. cbn [cr_version cr_endpoints cr_session_id cr_session_token head ok_or mbind result_bind].
  change (Config.SERVER_PROTOCOL_VERSION =? CLIENT_PROTOCOL_VERSION) with true. cbn [negb].
  rewrite (proj2 (Z.ltb_lt _ _) Hport), Hpin. cbn [mbind result_bind].
  unfold as_16_bytes, Session.get_id. cbn [id token]. rewrite Hid, Htk. cbn [Z.eqb Z.of_nat].
  destruct (decide (sv_host sv = ""%string)); cbn [mbind result_bind].
  all: eexists _, {| id := session_id; token := session_token; granted_streams := SessionRegistry.granted (sv_sessions sv) (streams config);
    Session.client_name := Client.client_name config; s_files := FileRegistry.new; data_conns := 0; last_seen_ms := now |}.
  all: split; [reflexivity|]; cbn [si_id si_token si_granted_streams si_data_endpoint].
  all: split; [cbn; by rewrite lookup_insert_eq|]; do 6 (split; [done|]); split; [apply Z.le_min_r|done].
Qed.

(** ** At concrete inputs *)

#[local] Existing Instance demo_half.

Lemma item_travels_witness :
  exists reply,
    item_to_proto "array" (Backend.Dataset Reader.demo_null) [("units"%string, AText "K"); ("scale"%string, AArray Uint8 [2] [7; 8])] = Ok reply /\
    item_from_proto (on_wire reply) = Ok ("array"%string,
      Dataset {| d_dtype := Uint8; d_shape := [12]; d_attrs := [("units"%string, AText "K"); ("scale"%string, AArray Uint8 [2] [7; 8])] |}).
Proof.
  eexists. split; [vm_compute; reflexivity|].
  exact (item_travels "array" (Backend.Dataset Reader.demo_null) [("units"%string, AText "K"); ("scale"%string, AArray Uint8 [2] [7; 8])]
    ltac:(repeat constructor; lia) ltac:(intros d [= <-]; repeat constructor; lia)).
Defined.

(** A codec the client's build lacks is never named to the server: a selection asked for
    in it is asked for as it is, exact and uncompressed, and the server decides nothing. *)
Theorem missing_codec_not_asked `{Build} session s :
  Codec.is_supported (QualitySpec.codec (quality s)) = false ->
  prepare_request session s =
  prepare_request session {| handle := handle s; name := name s; indices := indices s; quality := QualitySpec.exact |} /\
  ps_codec (prepare_request session s) = Codec.as_u32 Raw.
Proof. intros Hs. unfold prepare_request, expandable. cbn [handle name indices quality]. rewrite Hs, andb_false_r. done. Qed.

(** An exact selection is asked for in the lossless codec its quality names. *)
Theorem exact_asks_for_gzip `{Build} session handle name indices :
  let quality := {| encoding := Exact; cast_dtype := None; abs_error_bound := None; rel_error_bound := None; spec_codec := Some Gzip |} in
  ps_codec (prepare_request session {| Client.handle := handle; Client.name := name; Client.indices := indices; Client.quality := quality |})
  = Codec.as_u32 Gzip.
Proof. reflexivity. Qed.

#[local] Existing Instance demo_build.
#[local] Existing Instance demo_half_num.
#[local] Existing Instance demo_fs.

(** The same server before anyone connected. *)
Definition demo_room : Service NullFile NullDataset :=
  ControlService.with_sessions demo_service (SessionRegistry.with_sessions (sv_sessions demo_service) ∅).

Lemma session_agreed_witness :
  exists reply info,
    (ControlService.connect demo_room {| cq_version := CLIENT_PROTOCOL_VERSION; cq_streams := 8; cq_client := "demo" |}
      5 (Ok (demo_id 3)) (Ok (demo_id 4))).2 = Ok reply /\
    session_info (default_config "demo") "[::1]" reply = Ok info /\
    si_granted_streams info <= 4 /\ si_data_endpoint info = ("localhost"%string, 50052).
Proof.
  destruct (ControlService.connect demo_room {| cq_version := CLIENT_PROTOCOL_VERSION; cq_streams := 8; cq_client := "demo" |}
    5 (Ok (demo_id 3)) (Ok (demo_id 4))) as [sv' r] eqn:Hc.
  assert (r = (ControlService.connect demo_room {| cq_version := CLIENT_PROTOCOL_VERSION; cq_streams := 8; cq_client := "demo" |}
    5 (Ok (demo_id 3)) (Ok (demo_id 4))).2) as Hr by (by rewrite Hc).
  destruct r as [reply|e|]; [|vm_compute in Hr; discriminate Hr..].
  destruct (session_agreed demo_room (default_config "demo") "[::1]" 5 (demo_id 3) (demo_id 4) sv' reply eq_refl eq_refl eq_refl
    ltac:(reflexivity) Hc) as (info & s & Hi & _ & _ & _ & _ & _ & _ & _ & Hle & He).
  exists reply, info. split; [reflexivity|]. split; [exact Hi|]. split; [exact Hle|exact He].
Defined.
