(* ===== verification/Connect.v ===== *)
(** Opening the client's data connections: the first half of [aex-client/src/pool.rs].
    Resolving names and connecting sockets are arguments, as is what the server writes
    back; what is sent is what [Handshake.v] encodes. *)
From stdpp Require Import strings gmap.
From S2P Require Import Prelude Errors Dtype Bytes Quality Codec Frame Handshake Selection Cast Text Backend Null Convert Config Paths Session Transfer Reduce ReduceNumpy LayoutSpec Reader DataPlane Control ControlSpec ControlServes Pool Endpoint Client ClientSpec.

(** ** One connection *)

Module Connect.
Section One.
Context {A C : Type}.

(** What a client says first: HELLO with the session's identifier and token. *)
Definition hello_of (session_id session_token : bytes) : bytes := Hello.encode (Hello.new session_id session_token).

(** [DataConn::handshake]: [sent] is what writing HELLO came to, [answered] what the server
    writes before it hangs up, if it does. *)
Definition handshake (sent : result ErrorKind unit) (answered : bytes) : result ClientError unit :=
  _ ← map_err CIo sent;
  '(b, _) ← map_err CIo (Frame.read_exact READY_LEN answered);
  DataConn.check_ready b.

(** The first address that can be connected to. *)
Fixpoint find_connected (dial : A -> result ErrorKind C) (addrs : list A) : option C :=
  match addrs with
  | [] => None
  | addr :: addrs' => match dial addr with Ok stream => Some stream | _ => find_connected dial addrs' end
  end.

(** [DataConn::connect]: [resolved] is what the data endpoint resolves to, [configure] what
    setting the socket's options comes to, [shake] the handshake. *)
Definition connect (resolved : result ErrorKind (list A)) (dial : A -> result ErrorKind C) (configure : C -> result ErrorKind unit)
    (shake : C -> result ClientError unit) : result ClientError C :=
  addrs ← map_err (fun _ => CBadRequest) resolved;
  stream ← ok_or (CData ClassTransient) (find_connected dial addrs);
  _ ← map_err CIo (configure stream);
  _ ← shake stream;
  Ok stream.

(** [DataPool::connect]: every connection at once, and the first that failed, in order. *)
Definition connect_all (open : nat -> result ClientError C) (streams : Z) : result ClientError (list C) :=
  mapM open (seq 0 (Z.to_nat (Z.max streams 1))).

(** [DataPool::reconnect]: the outcome, and the milliseconds slept before each attempt but
    the first. *)
Fixpoint reconnect_loop (left : nat) (attempt : nat) (open : nat -> result ClientError C) : result ClientError C * list Z :=
  match open attempt with
  | Err e =>
      if ClientError.is_retryable e then
        match left with
        | S left' =>
            let '(r, waits) := reconnect_loop left' (S attempt) open in (r, 50 * Z.of_nat (S attempt) :: waits)
        | O => (Err e, [])
        end
      else (Err e, [])
  | r => (r, [])
  end.
Definition reconnect (attempts : Z) (open : nat -> result ClientError C) : result ClientError C * list Z :=
  reconnect_loop (Z.to_nat attempts) 0 open.
End One.
End Connect.

Import Connect.

(** ** Both ends of the handshake *)

(** READY as [greet] writes it. *)
Definition ready_for {F} (res : result ServerError (Session F)) : bytes :=
  Ready.encode match res with Err e => Ready.refused (ServerError.class e) | _ => Ready.accepted end.

(** What the client makes of an answer. *)
Definition taken {F} (res : result ServerError (Session F)) : result ClientError unit :=
  match res with Err e => Err (CData (ServerError.class e)) | _ => Ok tt end.

Lemma handshake_ready `{Build, CodecLib} {F} (res : result ServerError (Session F)) rest :
  handshake (Ok tt) (ready_for res ++ rest) = taken res.
Proof.
  assert (forall r, ready_wf r -> handshake (Ok tt) (Ready.encode r ++ rest) =
    (if Ready.is_accepted r then Ok tt else Err (CData (status r)))) as Hr.
  { intros r Hwf. unfold handshake. cbn [map_err mbind result_bind]. unfold Frame.read_exact. pose proof (length_ready_encode r) as Hl.
    rewrite decide_True by (rewrite length_app; lia). cbn [map_err mbind result_bind].
    assert (slice 0 READY_LEN (Ready.encode r ++ rest) = Ready.encode r) as -> by (rewrite slice_app_l, <- Hl; [apply slice_all|lia..]).
    unfold DataConn.check_ready. rewrite ready_decode_encode by done. cbn [map_err mbind result_bind]. by destruct (Ready.is_accepted r). }
  unfold ready_for, taken. rewrite Hr by (by destruct res; repeat split). destruct res as [x|e|]; [done| |done].
  unfold Ready.is_accepted. cbn [status Ready.refused]. rewrite bool_decide_false; [done|]. apply server_class_not_ok.
Qed.

Section Admission.
Context `{Build, CodecLib, Display}.
Context {F D : Type} `{!ArrayDataset D}.
Implicit Type r : SessionRegistry F.
Context (t : TransferRegistry D) (reader : FetchReader).

(** A connection just accepted, HELLO on its way. *)
Definition greeting (hello : bytes) r : World (F := F) (D := D) :=
  {| conn := {| events := [Got hello]; writes := []; out := [] |}; w_sessions := r; w_transfers := t; w_reader := reader |}.

(** What the server writes to one connection after the other, each with the same HELLO. *)
Fixpoint answers (hello : bytes) (now : Z) (n : nat) r : list bytes * SessionRegistry F :=
  match n with
  | O => ([], r)
  | S n' =>
      let w := (DataPlane.handshake (greeting hello r) now).2 in
      let '(rest, r) := answers hello now n' (w_sessions w) in (out (conn w) :: rest, r)
  end.

(** The handshake is [check_hello] and READY for its outcome. *)
Lemma greeted hello r now :
  zlen hello = HELLO_LEN ->
  let w := (DataPlane.handshake (greeting hello r) now).2 in
  out (conn w) = ready_for (check_hello hello r now).1 /\ w_sessions w = (check_hello hello r now).2.
Proof.
  intros Hl. destruct (read_full_loop_spec (Z.to_nat HELLO_LEN) [] [Got hello]) as (es & Hr & _);
    assert (arriving [Got hello] = hello) as Harr by (by destruct hello; [|cbn; rewrite app_nil_r]); rewrite ?Harr in *; cbn [length]; try lia.
  cbv zeta. unfold DataPlane.handshake, read_full, greeting. cbn [conn events writes out]. rewrite Hr. cbn [app length].
  rewrite Nat.sub_0_r, take_ge by lia. cbn [w_sessions with_conn]. destruct (check_hello hello r now) as [res r'].
  unfold greet, ready_for. by destruct res.
Qed.

(** A HELLO with a live session's token, a stream of the grant left or not. *)
Lemma check_hello_live r k x now :
  sessions r !! k = Some x -> id x = k -> is_id k -> is_id (token x) -> 0 <= data_conns x -> is_u32 (granted_streams x) ->
  Session.is_expired x now (SessionRegistry.idle_timeout_ms r) = false ->
  check_hello (hello_of k (token x)) r now =
  let y := Session.touch x now in
  if granted_streams x <=? data_conns x then (Err SExhausted, SessionRegistry.with_sessions r (<[k := y]> (sessions r)))
  else
    let z := {| id := id y; token := token y; granted_streams := granted_streams y; client_name := client_name y; s_files := s_files y;
                data_conns := data_conns x + 1; last_seen_ms := last_seen_ms y |} in
    (Ok z, SessionRegistry.with_sessions r (<[k := z]> (<[k := y]> (sessions r)))).
Proof.
  intros Hk Hid Hkid Htok Hdc Hg He. unfold check_hello, hello_of. rewrite hello_decode_encode.
  2: { split; [by vm_compute|]. split; [by vm_compute|]. by split. }
  cbn [hello_version Hello.new session_id session_token]. change (PROTOCOL_VERSION =? PROTOCOL_VERSION) with true. cbn [negb].
  unfold SessionRegistry.get_at. rewrite (proj1 Hkid). cbn [Nat.eqb negb]. rewrite Hk, He.
  rewrite (proj2 (constant_time_eq_spec _ _ eq_refl) eq_refl). cbn [negb]. unfold Session.open_data_conn.
  cbn [granted_streams data_conns Session.touch]. rewrite Session.open_alone_spec by done.
  destruct (granted_streams x <=? data_conns x); [done|]. unfold SessionRegistry.create_insert. cbn. by rewrite Hid.
Qed.

(** As many connections as the grant has streams left are admitted. *)
Lemma answers_granted n r k x now :
  sessions r !! k = Some x -> id x = k -> is_id k -> is_id (token x) -> 0 <= data_conns x -> is_u32 (granted_streams x) ->
  0 <= SessionRegistry.idle_timeout_ms r -> Session.is_expired x now (SessionRegistry.idle_timeout_ms r) = false ->
  data_conns x + Z.of_nat n <= granted_streams x ->
  let '(bs, r') := answers (hello_of k (token x)) now n r in
  bs = replicate n (Ready.encode Ready.accepted) /\
  (data_conns x + Z.of_nat n = granted_streams x ->
   (answers (hello_of k (token x)) now 1 r').1 = [Ready.encode (Ready.refused (ServerError.class SExhausted))]).
Proof.
  assert (is_id k -> is_id (token x) -> zlen (hello_of k (token x)) = HELLO_LEN) as Hlen.
  { intros Hkid Htok. apply length_hello_encode. split; [by vm_compute|]. split; [by vm_compute|]. by split. }
  revert r x Hlen. induction n as [|n IH]; intros r x Hlen Hk Hid Hkid Htok Hdc Hg Ht He Hle.
  { cbn [answers]. split; [done|]. intros Heq. destruct (greeted (hello_of k (token x)) r now (Hlen Hkid Htok)) as [-> _].
    rewrite (check_hello_live r k x) by done. by rewrite (proj2 (Z.leb_le _ _)) by lia. }
  change (answers (hello_of k (token x)) now (S n) r) with (
    let w := (DataPlane.handshake (greeting (hello_of k (token x)) r) now).2 in
    let '(rest, r) := answers (hello_of k (token x)) now n (w_sessions w) in (out (conn w) :: rest, r)). cbv zeta.
  destruct (greeted (hello_of k (token x)) r now (Hlen Hkid Htok)) as [-> ->].
  rewrite (check_hello_live r k x) by done. cbv zeta. rewrite (proj2 (Z.leb_gt _ _)) by lia. cbn [fst snd].
  set (z := {| id := id (Session.touch x now) |}). set (r1 := SessionRegistry.with_sessions r _).
  specialize (IH r1 z). change (token z) with (token x) in IH. destruct (answers (hello_of k (token x)) now n r1) as [rs r'].
  destruct IH as (-> & Hmore); try done.
  - cbn. by rewrite lookup_insert_eq.
  - cbn. lia.
  - unfold Session.is_expired. cbn. apply Z.ltb_ge. unfold saturating_sub. change (SessionRegistry.idle_timeout_ms r1) with (SessionRegistry.idle_timeout_ms r). lia.
  - cbn. lia.
  - split; [done|]. intros Heq. apply Hmore. cbn. lia.
Qed.
End Admission.

Import Client.

(** ** Properties *)

(** C32: every stream the server grants, the client gets.  Whatever a client asks for
    when it connects, a server with room answers with a session whose identifier and token,
    said in HELLO on as many connections as were granted, are accepted on each, so the pool
    opens them all; one more connection would be refused, and the client told why. *)
Theorem pool_admitted `{Build, HalfLib, HalfNum, Fs, CodecLib, Display, ArrayDataset D, ArrayFile F D, !Backends F D}
    (sv : Service F D) config control_host now session_id session_token sv' reply now' t reader :
  data_endpoint config = None -> is_id session_id -> is_id session_token -> sv_port sv < 65536 ->
  is_u32 (streams config) -> 0 < max_streams_per_session (limits (s_config (sv_sessions sv))) < two32 ->
  0 <= SessionRegistry.idle_timeout_ms (sv_sessions sv) -> saturating_sub now' now <= SessionRegistry.idle_timeout_ms (sv_sessions sv) ->
  ControlService.connect sv {| cq_version := CLIENT_PROTOCOL_VERSION; cq_streams := streams config; cq_client := client_name config |}
    now (Ok session_id) (Ok session_token) = (sv', Ok reply) ->
  exists info,
    session_info config control_host reply = Ok info /\ 1 <= si_granted_streams info /\
    let hello := hello_of (si_id info) (si_token info) in
    let '(ready, r) := answers (D := D) t reader hello now' (Z.to_nat (si_granted_streams info)) (sv_sessions sv') in
    connect_all (fun i => handshake (Ok tt) (default [] (ready !! i))) (si_granted_streams info)
      = Ok (replicate (Z.to_nat (si_granted_streams info)) tt) /\
    handshake (Ok tt) (concat (answers (D := D) t reader hello now' 1 r).1) = Err (CData (ServerError.class SExhausted)).
Proof.
  intros Hpin Hid Htk Hport Hq Hmax Htime Hnow Hc.
  destruct (session_agreed sv config control_host now session_id session_token sv' reply Hpin (proj1 Hid) (proj1 Htk) Hport Hc)
    as (info & x & Hi & Hx & Hxid & Hxtk & _ & _ & Hg & Hdc & Hle & _).
  assert (si_id info = session_id /\ si_token info = session_token /\ 1 <= granted_streams x /\ last_seen_ms x = now /\
    SessionRegistry.idle_timeout_ms (sv_sessions sv') = SessionRegistry.idle_timeout_ms (sv_sessions sv)) as (Hiid & Hitk & Hone & Hseen & Hidle).
  { revert Hc Hi Hx. unfold ControlService.connect. cbn [cq_version cq_client cq_streams].
    change (CLIENT_PROTOCOL_VERSION =? Config.SERVER_PROTOCOL_VERSION) with true. cbn [negb]. unfold SessionRegistry.create_at, SessionRegistry.new_session.
    destruct (SessionRegistry.create_test _) as [u|e|]; cbn [mbind result_bind sbind]; [|done..].
    intros [= <- <-]. unfold session_info. cbn [cr_version cr_endpoints cr_session_id cr_session_token head ok_or mbind result_bind].
    intros (p & _ & (en & _ & (_ & _ & (_ & _ & [= <-])%bind_ok)%bind_ok)%bind_ok)%bind_ok. cbn. rewrite lookup_insert_eq. intros [= <-].
    split; [done|]. split; [done|]. split; [|done]. cbn. unfold SessionRegistry.granted, Config.DEFAULT_STREAMS.
    unfold is_u32 in Hq. destruct (Z.eqb_spec (streams config) 0); lia. }
  exists info. split; [done|]. rewrite <- Hg. split; [done|]. cbv zeta. rewrite <- Hxtk.
  pose proof (answers_granted t reader (Z.to_nat (granted_streams x)) (sv_sessions sv') (si_id info) x now' Hx Hxid) as Hans.
  rewrite Hidle in Hans. destruct (answers t reader _ _ _ _) as [ready r]. destruct Hans as [-> Hmore].
  - by rewrite Hiid.
  - by rewrite Hxtk, Hitk.
  - lia.
  - unfold is_u32. lia.
  - done.
  - unfold Session.is_expired. apply Z.ltb_ge. by rewrite Hseen.
  - lia.
  - assert (forall m, handshake (Ok tt) (ready_for (F := F) m) = taken m) as Hready.
    { intros m. rewrite <- (app_nil_r (ready_for m)). apply handshake_ready. }
    split.
    + unfold connect_all. rewrite Z.max_l by lia. generalize (Z.to_nat (granted_streams x)) as n. clear -Hready. intros n.
      assert (forall start m, (start + m <= n)%nat ->
        mapM (fun i => handshake (Ok tt) (default [] (replicate n (Ready.encode Ready.accepted) !! i))) (seq start m) = Ok (replicate m tt)) as Hall.
      { intros start m. revert start. induction m as [|m IH]; intros start Hm; [done|]. cbn [seq mapM].
        rewrite lookup_replicate_2 by lia. change (default [] (Some (Ready.encode Ready.accepted))) with (ready_for (F := F) Panic). rewrite (Hready Panic).
        cbn [taken mbind result_bind]. by rewrite IH by lia. }
      by apply Hall.
    + rewrite Hmore by lia. cbn [concat]. rewrite app_nil_r. apply (Hready (Err SExhausted)).
Qed.

(** Rebuilding a connection ends.  It tries as often as it may and once more at the
    most, waits 50 ms longer before each attempt than before the last, and answers with the
    first outcome that is a connection or an error not worth another try, or else with the
    last. *)
Theorem reconnect_ends {C} attempts (open : nat -> result ClientError C) :
  0 <= attempts ->
  let '(answer, waits) := reconnect attempts open in
  exists n, answer = open n /\ Z.of_nat n <= attempts /\
    (forall i, (i < n)%nat -> exists e, open i = Err e /\ ClientError.is_retryable e = true) /\
    (Z.of_nat n = attempts \/ forall e, open n = Err e -> ClientError.is_retryable e = false) /\
    waits = (fun i => 50 * Z.of_nat i) <$> seq 1 n.
Proof.
  intros Ha. unfold reconnect.
  assert (forall left start,
    let '(answer, waits) := reconnect_loop left start open in
    exists n, answer = open (start + n)%nat /\ (n <= left)%nat /\
      (forall i, (i < n)%nat -> exists e, open (start + i)%nat = Err e /\ ClientError.is_retryable e = true) /\
      (n = left \/ forall e, open (start + n)%nat = Err e -> ClientError.is_retryable e = false) /\
      waits = (fun i => 50 * Z.of_nat i) <$> seq (S start) n) as Hloop.
  { assert (forall start left (r : result ClientError C), open start = r -> (left = 0%nat \/ forall e, r = Err e -> ClientError.is_retryable e = false) ->
      exists n, r = open (start + n)%nat /\ (n <= left)%nat /\
        (forall i, (i < n)%nat -> exists e, open (start + i)%nat = Err e /\ ClientError.is_retryable e = true) /\
        (n = left \/ forall e, open (start + n)%nat = Err e -> ClientError.is_retryable e = false) /\
        [] = (fun i => 50 * Z.of_nat i) <$> seq (S start) n) as Hstop.
    { intros start left r Hr Hend. exists 0%nat. rewrite Nat.add_0_r, Hr. split; [done|]. split; [lia|]. split; [lia|].
      split; [|done]. destruct Hend as [->|]; [by left|by right]. }
    induction left as [|left IH]; intros start; cbn [reconnect_loop]; destruct (open start) as [c|e|] eqn:Ho;
      try (by apply Hstop; [done|right]); destruct (ClientError.is_retryable e) eqn:He.
    - apply Hstop; [done|by left].
    - apply Hstop; [done|by left].
    - specialize (IH (S start)). destruct (reconnect_loop left (S start) open) as [r waits].
      destruct IH as (n & -> & Hn & Hall & Hend & ->). exists (S n). rewrite Nat.add_succ_r. split; [done|]. split; [lia|]. split.
      + intros [|i] Hi; [rewrite Nat.add_0_r; by exists e|]. rewrite Nat.add_succ_r. apply Hall. lia.
      + split; [|done]. destruct Hend as [->|Hend]; [by left|by right].
    - apply Hstop; [done|]. right. by intros e' [= <-]. }
  specialize (Hloop (Z.to_nat attempts) 0%nat). destruct (reconnect_loop _ _ _) as [answer waits].
  destruct Hloop as (n & Hr & Hn & Hall & Hend & Hw). exists n. split; [done|]. split; [lia|]. split; [done|]. split; [|done].
  destruct Hend as [->|]; [left; lia|by right].
Qed.

(** ** At concrete inputs *)

Definition demo_opens (n : nat) : result ClientError Z := match n with O | S O => Err (CData ClassTransient) | _ => Ok 7 end.

Lemma reconnect_ends_witness : exists n, (reconnect 5 demo_opens).1 = demo_opens n /\ Z.of_nat n <= 5 /\ (reconnect 5 demo_opens).2 = [50; 100].
Proof.
  pose proof (reconnect_ends 5 demo_opens ltac:(lia)) as Hr.
  assert ((reconnect 5 demo_opens).2 = [50; 100]) as Hw by (vm_compute; reflexivity).
  destruct (reconnect 5 demo_opens) as [answer waits]. destruct Hr as (n & Ha & Hn & _). exists n. split; [exact Ha|]. split; [exact Hn|exact Hw].
Defined.

#[local] Existing Instance demo_build.
#[local] Existing Instance demo_half.
#[local] Existing Instance demo_half_num.
#[local] Existing Instance demo_fs.
#[local] Existing Instance demo_lib.
#[local] Instance demo_display : Display := {| show_server _ := []; show_core _ := []; show_wire _ := [] |}.

Lemma pool_admitted_witness :
  exists reply info,
    (ControlService.connect demo_room {| cq_version := CLIENT_PROTOCOL_VERSION; cq_streams := 8; cq_client := "demo" |}
      5 (Ok (demo_id 3)) (Ok (demo_id 4))).2 = Ok reply /\
    session_info (default_config "demo") "[::1]" reply = Ok info /\ 1 <= si_granted_streams info.
Proof.
  destruct (ControlService.connect demo_room {| cq_version := CLIENT_PROTOCOL_VERSION; cq_streams := 8; cq_client := "demo" |}
    5 (Ok (demo_id 3)) (Ok (demo_id 4))) as [sv' r] eqn:Hc.
  assert (r = (ControlService.connect demo_room {| cq_version := CLIENT_PROTOCOL_VERSION; cq_streams := 8; cq_client := "demo" |}
    5 (Ok (demo_id 3)) (Ok (demo_id 4))).2) as Hr by (by rewrite Hc).
  destruct r as [reply|e|]; [|vm_compute in Hr; discriminate Hr..].
  assert (forall n, 0 <= n < 256 -> is_id (demo_id n)) as Hids.
  { intros n Hn. split; [reflexivity|]. unfold demo_id. apply Forall_replicate. exact Hn. }
  destruct (pool_admitted demo_room (default_config "demo") "[::1]" 5 (demo_id 3) (demo_id 4) sv' reply 6
    (TransferRegistry.new demo_config) (FetchReader.new 4) eq_refl (Hids 3 ltac:(lia)) (Hids 4 ltac:(lia)) eq_refl
    ltac:(vm_compute; split; congruence) ltac:(vm_compute; split; congruence) ltac:(vm_compute; congruence) ltac:(vm_compute; congruence) Hc)
    as (info & Hi & Hg & _).
  exists reply, info. split; [reflexivity|]. split; [exact Hi|exact Hg].
Defined.
