(* ===== verification/ClientFill.v ===== *)
(** Filling buffers from plans: a batch's answers are paired with its selections, and a
    transfer that succeeds leaves in every buffer the selection it is for, with plans that
    went away prepared again, once. *)
From stdpp Require Import strings.
From S2P Require Import Prelude Errors Dtype Bytes Quality Selection Convert Reader Plan Pool PoolCorrect Control Client.

Import Client.

(** The bytes a reply brings or names. *)
Definition reply_bytes (stream : Z -> bytes -> bytes) (plan : TransferPlan) : bytes :=
  if tp_request_id plan =? 0 then tp_inline_data plan else stream (tp_request_id plan) (tp_ticket plan).

(** What the network promises.  [stream] is the bytes a plan of the data plane names, and
    [truth] says which bytes are an answer to a request for a selection: a fetch keeps the
    buffers' lengths and, when it answers [Ok], has filled each with the stream its plan
    names; a plan answered to a request brings or names bytes that are an answer to that
    request, and says how many; and an RPC returns. *)
Class Honest (W : Type) `{Remote W} (stream : Z -> bytes -> bytes) (truth : PrepareSelectionRequest -> bytes -> Prop) : Prop := {
  fetch_keeps w sp ps cs w' answer filled :
    pool_fetch w sp ps cs = (w', (answer, filled)) -> answer <> Panic /\ Forall2 (fun p b => zlen b = zlen (pt_dst p)) ps filled;
  fetch_fills w sp ps cs w' fetched filled :
    Forall2 cut_whole ps cs -> Forall (fun p => zlen (pt_dst p) = zlen (stream (pt_request_id p) (pt_ticket p))) ps ->
    pool_fetch w sp ps cs = (w', (Ok fetched, filled)) ->
    filled = (fun p => stream (pt_request_id p) (pt_ticket p)) <$> ps;
  plans_true w id rqs w' took replies k rq plan :
    rpc_prepare_selections w id rqs = (w', took, Ok replies) -> rqs !! k = Some rq -> replies !! k = Some (Some (PPlan plan)) ->
    truth rq (reply_bytes stream plan) /\ (tp_request_id plan <> 0 -> tp_total_bytes plan = zlen (reply_bytes stream plan));
  rpc_returns w id rqs : (rpc_prepare_selections w id rqs).2 <> Panic;
}.

Section Fill.
Context `{Build}.
Context {W : Type} `{!Remote W} (c : Setup).
Implicit Types (st : State (W := W)) (p q : Plan).

(** ** Batches *)

(** What a reply makes of the selection it answers. *)
Definition answer_of (s : Selection) (reply : option (option TransferPlanOrError)) : result ClientError Plan :=
  match reply with
  | Some (Some (PPlan plan)) => Plan.from_proto plan (quality s)
  | Some (Some (PError klass)) => Err (CData (ErrorClass.from_u8 (if (0 <=? klass) && (klass <? 256) then klass else 255)))
  | _ => Err CProtocol
  end.

Definition sendable (s : Selection) : Prop := check_selection c s = Ok tt.
#[export] Instance sendable_dec s : Decision (sendable s) := _.

Definition sent (selections : list Selection) : list PrepareSelectionRequest :=
  prepare_request [] <$> filter sendable selections.

(** Where in the call the [i]th selection is, if it is sent. *)
Definition sent_at (selections : list Selection) (i : nat) : nat := length (filter sendable (take i selections)).

Lemma check_selection_cases s : check_selection c s = Ok tt \/ check_selection c s = Err CBadRequest.
Proof.
  unfold check_selection. assert (forall l m, check_fancy_limit l m = Ok tt \/ check_fancy_limit l m = Err BadSelection) as Hc.
  { intros l m. induction l as [|i l IH]; [by left|]. destruct i; try done. cbn. unfold check_fancy_len. destruct (_ <? _); [by right|]. done. }
  destruct (Hc (indices s) (si_max_fancy_indices (session c))) as [-> | ->]; [by left|by right].
Qed.

Lemma pair_up_spec selections replies results :
  pair_up (check_selection c <$> selections) selections replies = Ok results ->
  length results = length selections /\
  forall i s, selections !! i = Some s ->
    results !! i = Some (if decide (sendable s) then answer_of s (replies !! sent_at selections i) else Err CBadRequest) /\
    (sendable s -> exists reply, replies !! sent_at selections i = Some (Some reply)).
Proof.
  revert replies results. induction selections as [|s selections IH]; intros replies results; cbn [fmap list_fmap pair_up].
  { intros [= <-]. split; [done|]. by intros i s Hs. }
  unfold sent_at. destruct (check_selection_cases s) as [Hs|Hs]; rewrite Hs; cbn [mbind result_bind].
  - intros (first & Hfirst & (rest & Hrest & [= <-])%bind_ok)%bind_ok. destruct (IH _ _ Hrest) as [Hlen Hall].
    split; [cbn; lia|]. assert (sendable s) as Hsend by done. intros [|i] s'.
    + intros [= <-]. cbn [take filter list_filter length lookup list_lookup]. rewrite decide_True by done.
      destruct replies as [|[[plan|klass]|] replies]; cbn [head] in Hfirst; try done; injection Hfirst as <-; cbn; eauto.
    + intros Hi. specialize (Hall i s' Hi). cbn [take]. rewrite filter_cons_True by done. cbn [length].
      change ((first :: rest) !! S i) with (rest !! i). unfold sent_at in Hall.
      assert (forall n, replies !! S n = tail replies !! n) as Ht by (intros n; by destruct replies). by rewrite Ht.
  - intros (rest & Hrest & [= <-])%bind_ok. destruct (IH _ _ Hrest) as [Hlen Hall].
    split; [cbn; lia|]. assert (~ sendable s) as Hsend by (unfold sendable; congruence). intros [|i] s'.
    + intros [= <-]. cbn [lookup list_lookup]. by rewrite decide_False.
    + intros Hi. specialize (Hall i s' Hi). cbn [take]. rewrite filter_cons_False by done. done.
Qed.

Lemma sent_lookup selections i s :
  selections !! i = Some s -> sendable s -> sent selections !! sent_at selections i = Some (prepare_request [] s).
Proof.
  intros Hi Hs. unfold sent, sent_at. rewrite list_lookup_fmap.
  assert (filter sendable selections = filter sendable (take i selections) ++ s :: filter sendable (drop (S i) selections)) as ->.
  { rewrite <- (take_drop_middle _ _ _ Hi) at 1. by rewrite filter_app, filter_cons_True. }
  by rewrite lookup_app_r, Nat.sub_diag.
Qed.

Lemma prepare_many_spec st selections st' results :
  prepare_many c st selections = (st', Ok results) ->
  exists w' took replies,
    rpc_prepare_selections (world st) (si_id (session c)) (sent selections) = (w', took, Ok replies) /\ world st' = w' /\
    length results = length selections /\
    forall i s, selections !! i = Some s ->
      results !! i = Some (if decide (sendable s) then answer_of s (replies !! sent_at selections i) else Err CBadRequest) /\
      (sendable s -> sent selections !! sent_at selections i = Some (prepare_request [] s) /\
         exists reply, replies !! sent_at selections i = Some (Some reply)).
Proof.
  unfold prepare_many, call. change (prepare_request [] <$> filter _ selections) with (sent selections).
  destruct (rpc_prepare_selections (world st) (si_id (session c)) (sent selections)) as [[w took] [replies| |]] eqn:Hrpc; cbn [sbind]; [|done..].
  intros [= <- Hp]. apply pair_up_spec in Hp as [Hlen Hall]. exists w, took, replies. split; [done|]. split; [done|]. split; [done|].
  intros i s Hi. destruct (Hall i s Hi) as [Hr Hrep]. split; [done|]. intros Hs. split; [by apply sent_lookup|by apply Hrep].
Qed.

(** A batch answers each selection with its own answer.  One round trip carries
    the selections the client lets through, in order, and the i-th of what comes back is
    the answer to the i-th selection: the plan made of the reply to its request, the class
    of the error the server gave it, or, if it was never sent, a bad request; too few
    replies make no batch at all. *)
Theorem batch_paired st selections st' results :
  prepare_many c st selections = (st', Ok results) ->
  exists w' took replies,
    rpc_prepare_selections (world st) (si_id (session c)) (sent selections) = (w', took, Ok replies) /\ world st' = w' /\
    length results = length selections /\
    forall i s, selections !! i = Some s ->
      results !! i = Some (if decide (sendable s) then answer_of s (replies !! sent_at selections i) else Err CBadRequest) /\
      (sendable s -> sent selections !! sent_at selections i = Some (prepare_request [] s) /\
         exists reply, replies !! sent_at selections i = Some (Some reply)).
Proof. apply prepare_many_spec. Qed.

(** ** Buffers *)

Context (stream : Z -> bytes -> bytes) (truth : PrepareSelectionRequest -> bytes -> Prop) `{!Honest W stream truth}.

(** The bytes of a plan: its own, or the stream it names. *)
Definition plan_bytes p : bytes := if Plan.is_inline p then inline_data p else stream (plan_request_id p) (plan_ticket p).

Definition true_plan p : Prop := plan_total_bytes p = zlen (plan_bytes p) /\ plan_total_bytes p < two64.

(** The request that a plan stands for: its selection, in the quality it was asked for. *)
Definition request_of (s : Selection) p : PrepareSelectionRequest :=
  prepare_request [] {| handle := handle s; name := name s; indices := indices s; quality := requested_quality p |}.

(** The plans [cur] bring or name answers to the selections from the [i]th on. *)
Definition answering (selections : list Selection) (i : nat) (cur : list Plan) : Prop :=
  forall j s p, selections !! (i + j)%nat = Some s -> cur !! j = Some p -> truth (request_of s p) (plan_bytes p).

Lemma answering_cons selections i p cur :
  answering selections i (p :: cur) <->
  (forall s, selections !! i = Some s -> truth (request_of s p) (plan_bytes p)) /\ answering selections (S i) cur.
Proof.
  split.
  - intros Ha. split; [intros s Hs; apply (Ha 0%nat); [by rewrite Nat.add_0_r|done]|].
    intros j s q Hs Hq. apply (Ha (S j)); [by rewrite Nat.add_succ_r|done].
  - intros [Hp Ha] [|j] s q Hs Hq; [rewrite Nat.add_0_r in Hs; injection Hq as <-; by apply Hp|].
    apply (Ha j); [by rewrite Nat.add_succ_r in Hs|done].
Qed.

(** A plan in the place of another: as many bytes, asked for in the same quality. *)
Definition replaced p q : Prop :=
  plan_total_bytes q = plan_total_bytes p /\ requested_quality q = requested_quality p.

(** A buffer during the loop: filled from its plan, or still to be fetched. *)
Inductive slot : Plan -> option Plan -> bytes -> Prop :=
  | slot_done p : true_plan p -> slot p None (plan_bytes p)
  | slot_left p dst : true_plan p -> Plan.is_inline p = false -> zlen dst = plan_total_bytes p -> slot p (Some p) dst.

(** The plans left, by position. *)
Fixpoint positions (i : nat) (marks : list (option Plan)) : list (nat * Plan) :=
  match marks with
  | [] => []
  | None :: marks => positions (S i) marks
  | Some p :: marks => (i, p) :: positions (S i) marks
  end.

Lemma positions_from i j p marks : (j, p) ∈ positions i marks -> (i <= j)%nat.
Proof.
  revert i. induction marks as [|[q|] marks IH]; intros i; cbn [positions]; [by intros ?%elem_of_nil| |].
  - intros [[= -> _]|Hin]%elem_of_cons; [done|]. apply IH in Hin. lia.
  - intros Hin%IH. lia.
Qed.

(** The parts of the marked buffers. *)
Fixpoint marked (dsts : list bytes) (marks : list (option Plan)) : list Part :=
  match dsts, marks with
  | dst :: dsts, Some p :: marks =>
      {| pt_request_id := plan_request_id p; pt_ticket := plan_ticket p; pt_dst := dst |} :: marked dsts marks
  | _ :: dsts, None :: marks => marked dsts marks
  | _, _ => []
  end.

Lemma parts_of_marked i dsts marks : length marks = length dsts -> parts_of i dsts (positions i marks) = marked dsts marks.
Proof.
  revert i marks. induction dsts as [|dst dsts IH]; intros i [|[p|] marks]; try done; intros [= Hl]; cbn [positions parts_of marked].
  - by rewrite Nat.eqb_refl, IH.
  - destruct (positions (S i) marks) as [|[j q] rest] eqn:Hp.
    + rewrite <- (IH (S i)) by done. rewrite Hp. by destruct dsts.
    + pose proof (positions_from (S i) j q marks ltac:(rewrite Hp; left)). destruct (Nat.eqb_spec j i); [lia|].
      by rewrite <- Hp, IH.
Qed.

(** The marked buffers filled from [filled], the others as they are. *)
Fixpoint merged (dsts : list bytes) (marks : list (option Plan)) (filled : list bytes) : list bytes :=
  match dsts, marks, filled with
  | dst :: dsts, Some _ :: marks, b :: filled => b :: merged dsts marks filled
  | dst :: dsts, None :: marks, _ => dst :: merged dsts marks filled
  | _, _, _ => dsts
  end.

Lemma put_back_merged i dsts marks filled :
  length marks = length dsts -> put_back i dsts (positions i marks) filled = merged dsts marks filled.
Proof.
  revert i marks filled. induction dsts as [|dst dsts IH]; intros i [|[p|] marks] filled; try done; intros [= Hl]; cbn [positions put_back merged].
  - destruct filled as [|b filled]; [done|]. by rewrite Nat.eqb_refl, IH.
  - destruct (positions (S i) marks) as [|[j q] rest] eqn:Hp.
    + rewrite <- (IH (S i) marks) by done. rewrite Hp. by destruct dsts, filled.
    + pose proof (positions_from (S i) j q marks ltac:(rewrite Hp; left)).
      rewrite <- (IH (S i) marks) by done. rewrite Hp. destruct filled as [|b filled]; [by destruct dsts|].
      destruct (Nat.eqb_spec j i); [lia|done].
Qed.

Lemma from_proto_spec plan requested p :
  Plan.from_proto plan requested = Ok p ->
  requested_quality p = requested /\ plan_request_id p = tp_request_id plan /\ plan_total_bytes p = tp_total_bytes plan /\
  plan_total_bytes p < two64 /\ (tp_request_id plan <> 0 -> plan_ticket p = tp_ticket plan) /\
  (Plan.is_inline p = true -> zlen (inline_data p) = plan_total_bytes p) /\ inline_data p = tp_inline_data plan.
Proof.
  unfold Plan.from_proto. intros (dt & _ & (shape & _ & (ticket & Ht & (u & Hc & [= <-])%bind_ok)%bind_ok)%bind_ok)%bind_ok. cbn.
  unfold Plan.check in Hc. cbn [plan_shape plan_dtype plan_total_bytes inline_data] in Hc.
  destruct (Z.eqb_spec (nbytes shape dt) (tp_total_bytes plan)) as [Hn|]; cbn [negb] in Hc; [|done].
  split; [done|]. split; [done|]. split; [done|]. split; [|split].
  - rewrite <- Hn. unfold nbytes. assert (forall l a, a < two64 -> foldl saturating_mul a l < two64) as Hb.
    { induction l as [|x l IH]; intros a Ha; [done|]. apply IH. unfold saturating_mul. lia. }
    apply Hb. by destruct dt.
  - intros Hz. destruct (Z.eqb_spec (tp_request_id plan) 0); [done|]. destruct (_ =? _); [by injection Ht as <-|done].
  - split; [|done]. intros Hi. rewrite Hi in Hc. cbn [andb] in Hc. destruct (Z.eqb_spec (zlen (tp_inline_data plan)) (tp_total_bytes plan)); done.
Qed.

Lemma from_proto_returns plan requested : Plan.from_proto plan requested <> Panic.
Proof.
  unfold Plan.from_proto, DType.from_i32. destruct (snd <$> _) as [dt|]; [|done]. cbn [ok_or map_err mbind result_bind].
  assert (forall ns, shape_from_proto ns <> Panic) as Hs.
  { intros ns. unfold shape_from_proto. induction ns as [|n ns IH]; [done|]. cbn [mapM]. destruct (_ <? 0); [done|]. cbn.
    by destruct (mapM _ ns). }
  specialize (Hs (tp_shape plan)). destruct (shape_from_proto _); [|done..]. cbn [mbind result_bind].
  destruct (_ =? 0); [|destruct (_ =? _); [|done]]; cbn [mbind result_bind]; unfold Plan.check; repeat destruct (negb _); try done;
    by destruct (_ && _).
Qed.

(** *** One turn of the loop *)

Lemma slot_true p m b : slot p m b -> true_plan p.
Proof. by destruct 1. Qed.

Lemma slots_lengths cur marks dsts : Forall3 slot cur marks dsts -> length cur = length dsts /\ length marks = length dsts.
Proof. induction 1; cbn; lia. Qed.

Lemma slots_sizes cur marks dsts : Forall3 slot cur marks dsts -> (fun b => zlen b) <$> dsts = plan_total_bytes <$> cur.
Proof.
  induction 1 as [|p m b cur marks dsts Hs _ IH]; [done|]. cbn [fmap list_fmap]. rewrite IH. f_equal.
  destruct Hs as [p [Ht _]|]; lia.
Qed.

Lemma marked_streams cur marks dsts :
  Forall3 slot cur marks dsts -> Forall (fun pt => zlen (pt_dst pt) = zlen (stream (pt_request_id pt) (pt_ticket pt))) (marked dsts marks).
Proof.
  induction 1 as [|p m b cur marks dsts Hs _ IH]; [constructor|]. destruct Hs as [p _|p dst [Ht _] Hi Hl]; cbn [marked]; [done|].
  constructor; [|done]. cbn. rewrite Hl, Ht. unfold plan_bytes. by rewrite Hi.
Qed.

Lemma marked_cut chunk i cur marks dsts :
  1 <= chunk -> Forall3 slot cur marks dsts ->
  Forall2 cut_whole (marked dsts marks) ((fun '(_, p) => Plan.chunks p chunk) <$> positions i marks).
Proof.
  intros Hc Hf. revert i. induction Hf as [|p m b cur marks dsts Hs _ IH]; intros i; [constructor|].
  destruct Hs as [p _|p dst [Ht Hlt] Hi Hl]; cbn [marked positions fmap list_fmap]; [done|].
  constructor; [|done]. unfold cut_whole. cbn [pt_dst]. rewrite Hl. split; [done|]. exists chunk. apply chunks_consecutive; lia.
Qed.

Lemma merged_filled cur marks dsts :
  Forall3 slot cur marks dsts ->
  merged dsts marks ((fun pt => stream (pt_request_id pt) (pt_ticket pt)) <$> marked dsts marks) = plan_bytes <$> cur.
Proof.
  induction 1 as [|p m b cur marks dsts Hs _ IH]; [done|]. destruct Hs as [p _|p dst _ Hi Hl]; cbn [marked merged fmap list_fmap].
  - by rewrite IH.
  - rewrite IH. f_equal. unfold plan_bytes. by rewrite Hi.
Qed.

Lemma merged_slots cur marks dsts filled :
  Forall3 slot cur marks dsts -> Forall2 (fun pt b => zlen b = zlen (pt_dst pt)) (marked dsts marks) filled ->
  Forall3 slot cur marks (merged dsts marks filled).
Proof.
  intros Hf. revert filled. induction Hf as [|p m b cur marks dsts Hs _ IH]; intros filled; [constructor|].
  destruct Hs as [p Ht|p dst Ht Hi Hl]; cbn [marked merged].
  - intros Hfill. constructor; [by constructor|by apply IH].
  - intros Hfill. inversion Hfill as [|? b' ? filled' Hb Hrest]; subst. constructor; [|by apply IH].
    constructor; [done|done|]. cbn in Hb. lia.
Qed.

(** *** Plans prepared again *)

Section Again.
Context (selections : list Selection).

(** What a plan prepared again in the place of another is like. *)
Definition fresh_for (old : nat * Plan) (r : result ClientError Plan) : Prop :=
  r <> Panic /\ forall q, r = Ok q -> requested_quality q = requested_quality old.2 /\ plan_total_bytes q < two64 /\
    (Plan.is_inline q = true -> zlen (inline_data q) = plan_total_bytes q) /\
    (Plan.is_inline q = false -> plan_total_bytes q = zlen (stream (plan_request_id q) (plan_ticket q))) /\
    forall s, selections !! old.1 = Some s -> truth (request_of s q) (plan_bytes q).

Lemma fresh_true old r q : fresh_for old r -> r = Ok q -> true_plan q.
Proof.
  intros [_ Hf] Hq. destruct (Hf q Hq) as (_ & Hlt & Hin & Hout & _). split; [|done]. unfold plan_bytes.
  destruct (Plan.is_inline q); [by rewrite Hin|by apply Hout].
Qed.

Lemma insert_middle (pre : list bytes) b b' post : <[length pre := b']> (pre ++ b :: post) = pre ++ b' :: post.
Proof. rewrite insert_app_r_alt by done. by rewrite Nat.sub_diag. Qed.

(** What the loop over the fresh plans leaves, from position [i] on. *)
Definition settles (i : nat) (cur : list Plan) (dsts dsts' : list bytes) (r : result ClientError (list (nat * Plan))) : Prop :=
  r <> Panic /\ (fun b => zlen b) <$> dsts' = (fun b => zlen b) <$> dsts /\
  forall still, r = Ok still -> exists cur' marks',
    still = positions i marks' /\ Forall3 slot cur' marks' dsts' /\ Forall2 replaced cur cur' /\ answering selections i cur'.

Lemma settles_stop i cur dsts e : settles i cur dsts dsts (Err e).
Proof. done. Qed.

Lemma settles_done i cur dsts dsts' r p q b b' :
  settles (S i) cur dsts dsts' r -> slot q None b' -> zlen b' = zlen b -> replaced p q ->
  (forall s, selections !! i = Some s -> truth (request_of s q) (plan_bytes q)) ->
  settles i (p :: cur) (b :: dsts) (b' :: dsts') r.
Proof.
  intros (Hp & Hl & Hok) Hs Hb Hr Ha. split; [done|]. split; [cbn; by rewrite Hb, Hl|]. intros still Hst.
  destruct (Hok still Hst) as (cur' & marks' & -> & ? & ? & ?). exists (q :: cur'), (None :: marks'). rewrite answering_cons.
  split; [done|]. split; [by constructor|]. split; [by constructor|done].
Qed.

Lemma settles_left i cur dsts dsts' r p q b :
  settles (S i) cur dsts dsts' r -> slot q (Some q) b -> replaced p q ->
  (forall s, selections !! i = Some s -> truth (request_of s q) (plan_bytes q)) ->
  settles i (p :: cur) (b :: dsts) (b :: dsts') ((fun still => (i, q) :: still) <$> r).
Proof.
  intros (Hp & Hl & Hok) Hs Hr Ha. split; [by destruct r|]. split; [cbn; by rewrite Hl|]. intros still Hst.
  destruct r as [still'|e|]; [|done..]. injection Hst as <-.
  destruct (Hok still' eq_refl) as (cur' & marks' & -> & ? & ? & ?). exists (q :: cur'), (Some q :: marks'). rewrite answering_cons.
  split; [done|]. split; [by constructor|]. split; [by constructor|done].
Qed.

Lemma take_fresh_spec marks pre cur dsts fresh :
  Forall3 slot cur marks dsts -> answering selections (length pre) cur -> Forall2 fresh_for (positions (length pre) marks) fresh ->
  exists dsts' r,
    take_fresh (positions (length pre) marks) fresh (pre ++ dsts) = (pre ++ dsts', r) /\ settles (length pre) cur dsts dsts' r.
Proof.
  intros Hf. revert pre fresh. induction Hf as [|p m b cur marks dsts Hs Hf IH]; intros pre fresh Hans Hfresh; cbn [positions] in *.
  { exists [], (Ok []). split; [by destruct fresh|]. split; [done|]. split; [done|]. intros still [= <-]. exists [], [].
    split; [done|]. split; [constructor|]. split; [constructor|done]. }
  apply answering_cons in Hans as [Hap Hans].
  assert (forall b', length (pre ++ [b']) = S (length pre)) as Hpl by (intros; rewrite length_app; cbn; lia).
  assert (forall b', pre ++ b' :: dsts = (pre ++ [b']) ++ dsts) as Happ by (intros; by rewrite <- app_assoc).
  destruct Hs as [p Ht|p dst Ht Hi Hl].
  - specialize (IH (pre ++ [plan_bytes p]) fresh). rewrite Hpl, <- Happ in IH. destruct (IH Hans Hfresh) as (dsts' & r & -> & Hset).
    exists (plan_bytes p :: dsts'), r. split; [by rewrite <- app_assoc|]. eapply settles_done; [done|by constructor|done|done|done].
  - inversion Hfresh as [|? a ? fresh' Ha Hrest]; subst. cbn [take_fresh]. destruct a as [q|e|]; [| |by destruct Ha].
    2: { exists (dst :: dsts), (Err e). split; [done|apply settles_stop]. }
    pose proof (fresh_true _ _ q Ha eq_refl) as Hq. destruct Ha as [_ Ha]. destruct (Ha q eq_refl) as (Hrq & _ & Hin & _ & Htr). cbn [fst snd] in Hrq, Htr.
    destruct (Z.eqb_spec (plan_total_bytes q) (plan_total_bytes p)) as [Heq|]; cbn [negb]; [|by exists (dst :: dsts), (Err CBadRequest)].
    assert (replaced p q) as Hrep by done. destruct (Plan.is_inline q) eqn:Hiq.
    + rewrite list_lookup_middle by done. cbn [ok_or mbind result_bind]. unfold copy_from_slice.
      rewrite (Hin eq_refl), Hl, Heq, Z.eqb_refl, insert_middle.
      specialize (IH (pre ++ [inline_data q]) fresh'). rewrite Hpl, <- Happ in IH. destruct (IH Hans Hrest) as (dsts' & r & -> & Hset).
      exists (inline_data q :: dsts'), r. split; [by rewrite <- app_assoc|].
      assert (inline_data q = plan_bytes q) as Hb by (unfold plan_bytes; by rewrite Hiq).
      eapply settles_done; [done|rewrite Hb; by constructor|rewrite (Hin eq_refl); lia|done|done].
    + specialize (IH (pre ++ [dst]) fresh'). rewrite Hpl, <- Happ in IH. destruct (IH Hans Hrest) as (dsts' & r & -> & Hset).
      exists (dst :: dsts'), ((fun still => (length pre, q) :: still) <$> r). split; [rewrite <- app_assoc; by destruct r|].
      eapply settles_left; [done|by constructor; [| |lia]|done|done].
Qed.

(** The selections of the plans left, each with the quality its plan was asked for. *)
Definition again (remote : list (nat * Plan)) : list Selection :=
  omap (fun '(i, plan) =>
    s ← selections !! i;
    Some {| handle := handle s; name := name s; indices := indices s; quality := requested_quality plan |}) remote.

Lemma again_selections remote :
  Forall (fun '(i, _) => is_Some (selections !! i)) remote ->
  Forall2 (fun '(i, p) (s : Selection) => quality s = requested_quality p /\
    forall s0 q, selections !! i = Some s0 -> requested_quality q = requested_quality p -> prepare_request [] s = request_of s0 q)
    remote (again remote).
Proof.
  induction 1 as [|[i p] remote [s Hs] _ IH]; [constructor|]. unfold again in *. cbn [omap list_omap]. rewrite Hs. cbn.
  constructor; [|done]. split; [done|]. intros s0 q Hs0 Hq. rewrite Hs in Hs0. injection Hs0 as <-. unfold request_of. by rewrite Hq.
Qed.

Lemma answer_fresh w id rqs w' took replies k s old reply :
  rpc_prepare_selections w id rqs = (w', took, Ok replies) -> replies !! k = Some reply -> rqs !! k = Some (prepare_request [] s) ->
  quality s = requested_quality old.2 ->
  (forall s0 q, selections !! old.1 = Some s0 -> requested_quality q = requested_quality old.2 -> prepare_request [] s = request_of s0 q) ->
  fresh_for old (answer_of s (Some reply)).
Proof.
  intros Hrpc Hrep Hrq Hq Hreq. destruct reply as [[plan|klass]|]; cbn [answer_of]; [|by split..]. split; [apply from_proto_returns|].
  intros q Hp. destruct (from_proto_spec _ _ _ Hp) as (Hrqq & Hid & Htot & Hlt & Htk & Hinl & Hin). split; [congruence|]. split; [done|].
  destruct (plans_true _ _ _ _ _ _ _ _ _ Hrpc Hrq Hrep) as [Htr Hlen].
  assert (plan_bytes q = reply_bytes stream plan) as Hb.
  { unfold plan_bytes, reply_bytes, Plan.is_inline. rewrite Hid. destruct (Z.eqb_spec (tp_request_id plan) 0); [done|]. by rewrite Htk. }
  split; [done|]. split.
  - intros Hni. unfold plan_bytes in Hb. rewrite Hni in Hb. rewrite Hb, Htot. apply Hlen. unfold Plan.is_inline in Hni.
    apply Z.eqb_neq in Hni. congruence.
  - intros s0 Hs0. rewrite Hb, <- (Hreq s0 q Hs0 ltac:(congruence)). done.
Qed.

Lemma prepare_again st st' remote fresh :
  Forall (fun '(i, _) => is_Some (selections !! i)) remote ->
  prepare_many c st (again remote) = (st', Ok fresh) -> Forall2 fresh_for remote fresh.
Proof.
  intros Hsome Hp. pose proof (again_selections remote Hsome) as Hq.
  destruct (prepare_many_spec _ _ _ _ Hp) as (w' & took & replies & Hrpc & _ & Hlen & Hall).
  apply Forall2_same_length_lookup_2; [by rewrite Hlen, (Forall2_length _ _ _ Hq)|]. intros k old r Hold Hr.
  destruct (Forall2_lookup_l _ _ _ _ _ Hq Hold) as (s & Hs & Hqs). destruct old as [i p]. destruct Hqs as [Hqs Hreq].
  destruct (Hall k s Hs) as [Hres Hsent]. rewrite Hr in Hres. injection Hres as ->. case_decide as Hsd; [|by split].
  destruct (Hsent Hsd) as (Hrq & reply & Hrep). rewrite Hrep. by eapply answer_fresh.
Qed.
End Again.

Lemma prepare_many_returns st selections : (prepare_many c st selections).2 <> Panic.
Proof.
  unfold prepare_many, call. pose proof (rpc_returns (world st) (si_id (session c)) (prepare_request [] <$> filter sendable selections)) as Hr.
  change (filter (fun s => check_selection c s = Ok tt) selections) with (filter sendable selections).
  destruct (rpc_prepare_selections _ _ _) as [[w took] [replies| |]]; cbn in *; [|done..].
  clear Hr. revert replies. induction selections as [|s selections IH]; intros replies; [done|]. cbn [fmap list_fmap pair_up].
  destruct (check_selection_cases s) as [-> | ->].
  - destruct (head replies) as [[[plan|]|]|]; cbn [mbind result_bind]; try done; by destruct (pair_up _ _ _) eqn:Hp; cbn; [| |destruct (IH (tail replies))].
  - cbn. by destruct (pair_up _ _ _) eqn:Hp; cbn; [| |destruct (IH replies)].
Qed.

(** *** The loop *)

Lemma none_left i cur marks dsts : Forall3 slot cur marks dsts -> positions i marks = [] -> dsts = plan_bytes <$> cur.
Proof.
  intros Hf. revert i. induction Hf as [|p m b cur marks dsts Hs _ IH]; intros i; [done|]. destruct Hs as [p _|p dst _ _ _]; cbn [positions]; [|done].
  intros Hp. cbn. by rewrite (IH (S i) Hp).
Qed.

Lemma positions_known i cur marks dsts (selections : list Selection) :
  Forall3 slot cur marks dsts -> (i + length cur <= length selections)%nat ->
  Forall (fun '(j, _) => is_Some (selections !! j)) (positions i marks).
Proof.
  intros Hf. revert i. induction Hf as [|p [q|] b cur marks dsts _ _ IH]; intros i; cbn [length positions]; intros Hl; [constructor| |].
  - constructor; [apply lookup_lt_is_Some; lia|apply IH; lia].
  - apply IH. lia.
Qed.

Lemma replaced_refl cur : Forall2 replaced cur cur.
Proof. induction cur; by constructor. Qed.

Lemma replaced_trans l1 l2 l3 : Forall2 replaced l1 l2 -> Forall2 replaced l2 l3 -> Forall2 replaced l1 l3.
Proof.
  intros H12. revert l3. induction H12 as [|p q l l' [Ht Hq] _ IH]; intros l3 H23; inversion H23 as [|? r ? l'' [Ht' Hq'] Hrest]; subst; constructor; [|by apply IH].
  split; congruence.
Qed.

(** What the loop ends with. *)
Definition filled (selections : list Selection) (cur : list Plan) (marks : list (option Plan)) (w w' : W) (dsts dsts' : list bytes)
    {A} (r : result ClientError A) : Prop :=
  r <> Panic /\ (fun b => zlen b) <$> dsts' = (fun b => zlen b) <$> dsts /\
  forall x, r = Ok x -> exists cur', Forall2 replaced cur cur' /\ answering selections 0 cur' /\ dsts' = plan_bytes <$> cur' /\
    (positions 0 marks = [] -> cur' = cur /\ w' = w).

Lemma fill_loop_fills fuel chunk selections st dsts cur marks retries chunks :
  1 <= chunk -> length selections = length cur -> Forall3 slot cur marks dsts -> answering selections 0 cur ->
  (retries = 0 /\ (2 <= fuel)%nat) \/ (retries = 1 /\ (1 <= fuel)%nat) ->
  let '((st', dsts'), r) := fill_loop c fuel chunk selections (st, dsts) (positions 0 marks) retries chunks in
  filled selections cur marks (world st) (world st') dsts dsts' r.
Proof.
  intros Hc Hsel. revert st dsts cur marks retries chunks Hsel. induction fuel as [|fuel IH]; intros st dsts cur marks retries chunks Hsel Hf Hans Hfuel; [lia|].
  destruct (positions 0 marks) as [|left rest] eqn:Hpos.
  { cbn [fill_loop]. split; [done|]. split; [done|]. intros x _. exists cur. split; [apply replaced_refl|]. split; [done|].
    split; [by eapply none_left|done]. }
  cbn [fill_loop]. rewrite <- Hpos. destruct (slots_lengths _ _ _ Hf) as [Hlc Hlm]. rewrite parts_of_marked by done.
  destruct (pool_fetch _ _ _ _) as [w [answer got]] eqn:Hfetch. rewrite put_back_merged by done.
  destruct (fetch_keeps _ _ _ _ _ _ _ Hfetch) as [Hnp Hgot]. pose proof (merged_slots _ _ _ _ Hf Hgot) as Hf'.
  assert ((fun b => zlen b) <$> merged dsts marks got = (fun b => zlen b) <$> dsts) as Hlens
    by (by rewrite (slots_sizes _ _ _ Hf'), (slots_sizes _ _ _ Hf)).
  destruct answer as [fetched|e|]; [| |done].
  - split; [done|]. split; [done|]. intros x _. exists cur. split; [apply replaced_refl|]. split; [done|]. split; [|by rewrite Hpos].
    rewrite (fetch_fills _ _ _ _ _ _ _ (marked_cut chunk 0 _ _ _ Hc Hf) (marked_streams _ _ _ Hf) Hfetch). by apply merged_filled.
  - destruct (ClientError.needs_reprepare e && (retries =? 0)) eqn:Hre; [|by split].
    apply andb_true_iff in Hre as [_ ->%Z.eqb_eq]. destruct Hfuel as [[_ Hfuel]|[? _]]; [|lia].
    fold (again selections (positions 0 marks)).
    pose proof (prepare_many_returns {| world := w; stats := stats st |} (again selections (positions 0 marks))) as Hret.
    destruct (prepare_many c _ _) as [st1 [fresh|e'|]] eqn:Hprep; cbn [sbind snd] in *; [|by split|done].
    apply (prepare_again selections) in Hprep; [|by apply (positions_known 0 cur marks dsts); [|rewrite Hsel]].
    destruct (take_fresh_spec selections marks [] cur (merged dsts marks got) fresh Hf' Hans Hprep) as (dsts1 & r & Htake & Hnpr & Hl1 & Hok).
    cbn [app length] in Htake. rewrite Htake. destruct r as [still|e'|]; cbn [sbind]; [| |done].
    2: { split; [done|]. split; [by rewrite Hl1|done]. }
    destruct (Hok still eq_refl) as (cur' & marks' & -> & Hf1 & Hrep & Hans1).
    specialize (IH st1 dsts1 cur' marks' 1 (u32 (foldr (fun cs n => zlen cs + n) 0 ((fun '(_, plan) => Plan.chunks plan chunk) <$> positions 0 marks)))
      ltac:(by rewrite Hsel, (Forall2_length _ _ _ Hrep)) Hf1 Hans1 ltac:(right; split; [done|lia])).
    destruct (fill_loop _ _ _ _ _ _ _ _) as [[st2 dsts2] r]. destruct IH as (Hnp2 & Hl2 & Hok2). split; [done|]. split; [by rewrite Hl2, Hl1|].
    intros x Hx. destruct (Hok2 x Hx) as (cur2 & Hrep2 & Hans2 & Hd2 & _). exists cur2.
    split; [by eapply replaced_trans|]. split; [done|]. by rewrite Hpos.
Qed.

(** *** The whole *)

Lemma take_inline_spec i plans dsts :
  Forall true_plan plans -> Forall2 (fun p (b : bytes) => plan_total_bytes p = zlen b) plans dsts ->
  exists dsts' marks, take_inline i plans dsts = Ok (dsts', positions i marks) /\ Forall3 slot plans marks dsts' /\
    (fun b => zlen b) <$> dsts' = (fun b => zlen b) <$> dsts.
Proof.
  intros Ht Hf. revert i. induction Hf as [|p b plans dsts Hb _ IH]; intros i; cbn [take_inline].
  { exists [], []. split; [done|]. by split; [constructor|]. }
  apply Forall_cons in Ht as [Hp Ht]. destruct (IH Ht (S i)) as (dsts' & marks & -> & Hs & Hl). destruct (Plan.is_inline p) eqn:Hi.
  - assert (inline_data p = plan_bytes p) as Hin by (unfold plan_bytes; by rewrite Hi).
    assert (zlen (inline_data p) = zlen b) as Hlen by (rewrite Hin; destruct Hp; lia).
    unfold copy_from_slice. rewrite Hlen, Z.eqb_refl. cbn [mbind result_bind]. exists (inline_data p :: dsts'), (None :: marks).
    split; [done|]. split; [|cbn; by rewrite Hl, Hlen]. constructor; [|done]. rewrite Hin. by constructor.
  - exists (b :: dsts'), (Some p :: marks). split; [done|]. split; [constructor; [by constructor|done]|cbn; by rewrite Hl].
Qed.

(** What makes a batch: as many plans as selections and buffers, each buffer its plan's
    length. *)
Definition matched (plans : list Plan) (selections : list Selection) (dsts : list bytes) : Prop :=
  length plans = length selections /\ Forall2 (fun p (b : bytes) => plan_total_bytes p = zlen b) plans dsts.
#[export] Instance matched_dec plans selections dsts : Decision (matched plans selections dsts) := _.

Lemma matched_checks plans selections dsts :
  (negb (length plans =? length selections)%nat || negb (length plans =? length dsts)%nat)
  || negb (forallb (fun '(plan, dst) => plan_total_bytes plan =? zlen dst) (zip plans dsts))
  = negb (bool_decide (matched plans selections dsts)).
Proof.
  apply eq_true_iff_eq. rewrite !orb_true_iff, !negb_true_iff, bool_decide_eq_false, !Nat.eqb_neq.
  assert (length plans = length dsts -> Forall2 (fun p (b : bytes) => plan_total_bytes p = zlen b) plans dsts <->
    forallb (fun '(plan, dst) => plan_total_bytes plan =? zlen dst) (zip plans dsts) = true) as Hz.
  { revert dsts. induction plans as [|p plans IH]; intros [|b dsts]; try done; intros [= Hl]; cbn.
    rewrite andb_true_iff, Z.eqb_eq, <- (IH dsts Hl). split; [by inversion 1|]. intros [? ?]. by constructor. }
  unfold matched. destruct (decide (length plans = length dsts)) as [Hl|Hl].
  - specialize (Hz Hl). destruct (forallb _ _); split; intuition congruence.
  - split; [|by intuition]. intros _ [_ Hf%Forall2_length]. done.
Qed.

Lemma answers_held selections plans plans' :
  length plans = length selections -> Forall2 replaced plans plans' -> answering selections 0 plans' ->
  Forall3 (fun s p b => truth (request_of s p) b) selections plans (plan_bytes <$> plans').
Proof.
  intros Hl Hrep. revert selections Hl. induction Hrep as [|p q plans plans' [_ Hq] _ IH]; intros [|s selections] Hl Ha; try done; [constructor|].
  cbn [fmap list_fmap]. constructor.
  - specialize (Ha 0%nat s q eq_refl eq_refl). unfold request_of in *. by rewrite <- Hq.
  - apply IH; [by injection Hl|]. intros j s' q' Hs' Hq'. apply (Ha (S j) s' q' Hs' Hq').
Qed.

(** What a batch ends with. *)
Lemma fill_batch_spec st plans selections dsts :
  Forall true_plan plans -> answering selections 0 plans -> 0 <= chunk_bytes (config c) -> 0 < si_max_fetch_bytes (session c) ->
  let '((st', dsts'), r) := fill_batch c st plans selections dsts in
  if decide (matched plans selections dsts) then
    r <> Panic /\ (fun b => zlen b) <$> dsts' = (fun b => zlen b) <$> dsts /\
    forall res, r = Ok res ->
      Forall3 (fun s p b => truth (request_of s p) b) selections plans dsts' /\
      (tr_inline res = true -> dsts' = plan_bytes <$> plans /\ world st' = world st)
  else r = Err CBadRequest /\ st' = st /\ dsts' = dsts.
Proof.
  intros Ht Hans Hcb Hmf. unfold fill_batch. pose proof (matched_checks plans selections dsts) as Hm.
  destruct (negb _ || negb _) eqn:H1; cbn [orb] in Hm.
  { symmetry in Hm. apply negb_true_iff, bool_decide_eq_false in Hm. cbv beta iota. by rewrite decide_False. }
  destruct (negb (forallb _ _)) eqn:H2; cbn [orb] in Hm; symmetry in Hm.
  { apply negb_true_iff, bool_decide_eq_false in Hm. cbv beta iota. by rewrite decide_False. }
  apply negb_false_iff, bool_decide_eq_true in Hm. pose proof Hm as [Hlen Hf].
  destruct (take_inline_spec 0 plans dsts Ht Hf) as (dsts1 & marks & -> & Hs & Hl). cbn [pure_step sbind].
  pose proof (chunk_bytes_range (chunk_bytes (config c)) (si_default_chunk_bytes (session c)) (si_max_fetch_bytes (session c)) (pool_streams c)
    (sum_u64 ((fun '(_, plan) => plan_total_bytes plan) <$> positions 0 marks)) Hcb Hmf) as [Hc _].
  fold (fetch_bytes c (sum_u64 ((fun '(_, plan) => plan_total_bytes plan) <$> positions 0 marks))) in Hc.
  pose proof (fill_loop_fills FILL_TURNS _ selections st dsts1 plans marks 0 0 Hc ltac:(done) Hs Hans ltac:(left; split; [done|unfold FILL_TURNS; lia])) as Hloop.
  destruct (fill_loop _ _ _ _ _ _ _ _) as [[st2 dsts2] r]. destruct Hloop as (Hnp & Hl2 & Hok).
  destruct r as [[[fetched retries] chunks]|e|]; cbn [sbind]; [| |done]; cbv beta iota; rewrite decide_True by done.
  - split; [done|]. split; [by rewrite Hl2|]. intros res [= <-]. destruct (Hok _ eq_refl) as (plans' & Hrep & Hans' & -> & Hin).
    split; [by apply answers_held|]. cbn [tr_inline]. intros Hi%bool_decide_eq_true. by destruct (Hin Hi) as [-> ->].
  - split; [done|]. by rewrite Hl2.
Qed.

(** C8: a buffer filled holds its selection.  A batch that does not match its buffers is
    refused with nothing touched.  Any other ends, without a panic, and with every buffer as
    long as it was.  If it ends well, and the plans it began with bring or name answers to
    their selections, each buffer holds an answer to its own selection, in the quality its
    plan was asked for: the bytes of its plan, or, where that was gone, of the one prepared
    again in its place, at most once; and a batch whose plans all came inline holds their
    bytes and costs the network nothing.  Which bytes answer a request, and which bytes a plan
    names, is the server's to say ([truth] and [stream], whose laws are [Honest]); that a
    refused plan is prepared again for the right selection, in the right quality, and put in
    the right buffer is the client's. *)
Theorem fill_delivers st plans selections dsts :
  Forall true_plan plans -> answering selections 0 plans -> 0 <= chunk_bytes (config c) -> 0 < si_max_fetch_bytes (session c) ->
  let '((st', dsts'), r) := fill_batch c st plans selections dsts in
  if decide (matched plans selections dsts) then
    r <> Panic /\ (fun b => zlen b) <$> dsts' = (fun b => zlen b) <$> dsts /\
    forall res, r = Ok res ->
      Forall3 (fun s p b => truth (request_of s p) b) selections plans dsts' /\
      (tr_inline res = true -> dsts' = plan_bytes <$> plans /\ world st' = world st)
  else r = Err CBadRequest /\ st' = st /\ dsts' = dsts.
Proof. apply fill_batch_spec. Qed.
End Fill.

(** ** At concrete inputs *)

(** *** A server that has lost the first plan and answers another *)

Definition demo_stream (id : Z) (ticket : bytes) : bytes := [2; 2; 2].
Definition demo_truth (rq : PrepareSelectionRequest) (b : bytes) : Prop := b = if decide (ps_name rq = "a"%string) then [4; 5] else [2; 2; 2].
Definition demo_fresh : TransferPlan :=
  {| tp_request_id := 2; tp_ticket := replicate 16 9; tp_dtype := DType.as_i32 Uint8; tp_shape := [3]; tp_total_bytes := 3;
     tp_codec := 0; tp_applied_quality := None; tp_inline_data := [] |}.
Definition demo_small : TransferPlan :=
  {| tp_request_id := 0; tp_ticket := []; tp_dtype := DType.as_i32 Uint8; tp_shape := [2]; tp_total_bytes := 2;
     tp_codec := 0; tp_applied_quality := None; tp_inline_data := [4; 5] |}.

(** The world counts the fetches. *)
#[local] Instance demo_remote : Remote nat := {|
  rpc_connect w _ := (w, 5, Err CodeUnavailable);
  pool_connect w _ _ _ _ := (w, Ok tt);
  rpc_open_file w _ := (w, 5, Ok 1);
  rpc_close_file w _ := (w, 5, Ok tt);
  rpc_get_item w _ := (w, 5, Err CodeNotFound);
  rpc_list_children w _ := (w, 5, Err CodeNotFound);
  rpc_prepare_selection w _ := (w, 5, Ok demo_fresh);
  rpc_prepare_selections w _ rqs := (w, 5, 
    Ok ((fun rq => Some (PPlan (if decide (ps_name rq = "a"%string) then demo_small else demo_fresh))) <$> rqs));
  rpc_apply_function w _ := (w, 5, Err CodeNotFound);
  rpc_disconnect w _ := (w, 5, Ok tt);
  pool_fetch w _ ps _ :=
    match w with
    | O => (1%nat, (Err (CData ClassPlan), pt_dst <$> ps))
    | S _ =>
        (S w, (Ok {| ft_streams := 1; ft_retries := 0; ft_wire_bytes := 3 |},
               if decide (Forall (fun p => zlen (pt_dst p) = zlen (demo_stream (pt_request_id p) (pt_ticket p))) ps)
               then (fun p => demo_stream (pt_request_id p) (pt_ticket p)) <$> ps else pt_dst <$> ps))
    end |}.

#[local] Instance demo_honest : Honest nat demo_stream demo_truth.
Proof.
  assert (forall ps : list Part, Forall2 (fun p b => zlen b = zlen (pt_dst p)) ps (pt_dst <$> ps)) as Hsame
    by (intros ps; induction ps; by constructor).
  split.
  - intros [|w] sp ps cs w' answer filled; cbn; [intros [= <- <- <-]; by split|]. intros [= <- <- <-]. split; [done|].
    case_decide as Hf; [|done]. induction Hf as [|p ps Hp _ IH]; cbn; constructor; [by symmetry|done].
  - intros [|w] sp ps cs w' fetched filled _ Hf; cbn; [done|]. intros [= <- <- <-]. by rewrite decide_True.
  - intros w id rqs w' took replies k rq plan [= <- <- <-] Hrq. rewrite list_lookup_fmap, Hrq. intros [= <-].
    unfold demo_truth. by case_decide.
  - done.
Qed.

Definition demo_setup : Setup :=
  {| session := {| si_id := replicate 16 7; si_token := replicate 16 8; si_data_endpoint := ("localhost"%string, 50052);
                   si_granted_streams := 1; si_protocol_version := CLIENT_PROTOCOL_VERSION; si_default_chunk_bytes := 2;
                   si_max_fetch_bytes := 2; si_supported_codecs := 0; si_supported_encodings := 0; si_max_fancy_indices := 2 |};
     config := default_config "demo"; pool_streams := 1 |}.
Definition demo_state : State :=
  {| world := 0%nat; stats := {| cs_bytes := 0; cs_elapsed := 0; cs_chunks := 0; cs_retries := 0; cs_streams := 1; cs_rtt := 9 |} |}.
Definition demo_lost : Plan :=
  {| plan_request_id := 1; plan_ticket := replicate 16 9; plan_dtype := Uint8; plan_shape := [3]; plan_total_bytes := 3;
     applied_quality := QualitySpec.exact; requested_quality := QualitySpec.exact; inline_data := [] |}.
Definition demo_inline : Plan :=
  {| plan_request_id := 0; plan_ticket := []; plan_dtype := Uint8; plan_shape := [2]; plan_total_bytes := 2;
     applied_quality := QualitySpec.exact; requested_quality := QualitySpec.exact; inline_data := [4; 5] |}.

#[local] Existing Instance LayoutSpec.demo_build.

Lemma fill_delivers_witness :
  let r := fill_batch demo_setup demo_state [demo_inline; demo_lost] [exact 1 "a" []; exact 1 "b" [Fancy [0; 1]]] [[0; 0]; [0; 0; 0]] in
  r.1.2 = [[4; 5]; [2; 2; 2]] /\
  Forall3 (fun s p b => demo_truth (request_of s p) b) [exact 1 "a" []; exact 1 "b" [Fancy [0; 1]]] [demo_inline; demo_lost] r.1.2.
Proof.
  cbv zeta. split; [vm_compute; reflexivity|].
  assert (answering demo_stream demo_truth [exact 1 "a" []; exact 1 "b" [Fancy [0; 1]]] 0 [demo_inline; demo_lost]) as Hans.
  { intros [|[|j]] s p Hs Hp; cbn in Hs, Hp; simplify_eq; vm_compute; reflexivity. }
  pose proof (fill_delivers demo_setup demo_stream demo_truth demo_state [demo_inline; demo_lost] [exact 1 "a" []; exact 1 "b" [Fancy [0; 1]]]
    [[0; 0]; [0; 0; 0]] ltac:(by repeat constructor) Hans ltac:(vm_compute; discriminate) ltac:(reflexivity)) as Hd.
  destruct (fill_batch _ _ _ _ _) as [[st' dsts'] r] eqn:Hr. cbn [fst snd].
  rewrite decide_True in Hd by (split; [reflexivity|by repeat constructor]). destruct Hd as (_ & _ & Hok).
  assert (r = (fill_batch demo_setup demo_state [demo_inline; demo_lost] [exact 1 "a" []; exact 1 "b" [Fancy [0; 1]]] [[0; 0]; [0; 0; 0]]).2)
    as Hres by (by rewrite Hr).
  vm_compute in Hres. exact (proj1 (Hok _ Hres)).
Defined.

(** One of the three is too large to send, and the others' replies still find them. *)
Lemma batch_paired_witness :
  exists st' results,
    prepare_many demo_setup demo_state [exact 1 "a" []; exact 1 "b" [Fancy [0; 1; 2]]; exact 1 "c" []] = (st', Ok results) /\
    results !! 1%nat = Some (Err CBadRequest) /\ results !! 2%nat = Some (Plan.from_proto demo_fresh QualitySpec.exact).
Proof.
  eexists _, _. split; [vm_compute; reflexivity|].
  match goal with |- ?r !! 1%nat = _ /\ _ => assert (exists st', prepare_many demo_setup demo_state
    [exact 1 "a" []; exact 1 "b" [Fancy [0; 1; 2]]; exact 1 "c" []] = (st', Ok r)) as [st' Hp] by (eexists; vm_compute; reflexivity) end.
  destruct (batch_paired _ _ _ _ _ Hp) as (w' & took & replies & Hrpc & _ & _ & Hall).
  vm_compute in Hrpc. injection Hrpc as _ _ <-.
  split.
  - etrans; [exact (proj1 (Hall 1%nat _ eq_refl))|]. by rewrite decide_False.
  - etrans; [exact (proj1 (Hall 2%nat _ eq_refl))|]. vm_compute. reflexivity.
Defined.
