(* ===== verification/Python.v ===== *)
(** The Python bindings: [aex-py/src/lib.rs].  The objects a call hands over are the values
    PyO3 can tell apart; numpy's arrays are what the bindings ask of them, with the bytes
    they hold.  A released GIL lets other threads in between the calls, not inside one. *)
From Stdlib Require Import Ascii.
From stdpp Require Import strings.
From S2P Require Import Prelude Errors Dtype Bytes Quality Selection Text Backend Convert Reduce Plan Pool Control Client.

Module Python.

(** ** Objects *)

(** An integer is any that answers [__index__]; a double is its bits; an array of the kind
    PyO3 reads as [PyReadonlyArray1<i64>] is its elements. *)
Inductive Object : Type :=
  | PNone
  | PEllipsis
  | PBool (b : bool)
  | PInt (z : Z)
  | PFloat (bits : Z)
  | PStr (s : string)
  | PTuple (l : list Object)
  | PSlice (start stop step : Object)
  | PInt64s (l : list Z)
  | POther.

(** What a call raises: an exception of [aex.errors] with its class, a [TypeError], or
    whatever the conversion of one object raised. *)
Inductive PyErr : Type :=
  | AexErr (kind : string) (class : ErrorClass)
  | TypeErr
  | ConversionErr.

(** What PyO3 and CPython make of an object as a double. *)
Class PyFloats := { extract_f64 : Object -> option Z }.

Definition extract_i64 (o : Object) : option Z :=
  match o with
  | PInt z => if (- two63 <=? z) && (z <? two63) then Some z else None
  | PBool b => Some (if b then 1 else 0)
  | _ => None
  end.
Definition extract_option_i64 (o : Object) : option (option Z) :=
  match o with PNone => Some None | _ => Some <$> extract_i64 o end.
Definition extract_string (o : Object) : option string := match o with PStr s => Some s | _ => None end.

(** ** Errors *)

Definition exception_for (class : ErrorClass) : string :=
  match class with
  | ClassProtocol => "AexProtocolError"
  | ClassAuth => "AexConnectionError"
  | ClassRequest => "AexValueError"
  | _ => "AexTransferError"
  end.

Definition class_name (class : ErrorClass) : string :=
  match class with
  | ClassOk => "OK"
  | ClassProtocol => "PROTOCOL"
  | ClassAuth => "AUTH"
  | ClassPlan => "PLAN"
  | ClassRequest => "REQUEST"
  | ClassTransient => "TRANSIENT"
  | ClassPermanent => "PERMANENT"
  end.

(** Raise a client error as the [aex.errors] exception for its class. *)
Definition to_py (err : ClientError) : PyErr :=
  match err with
  | CServer class CodeNotFound => AexErr "AexNotFoundError" class
  | CServer class _ | CData class => AexErr (exception_for class) class
  | CTransport | CIo _ => AexErr "AexConnectionError" ClassTransient
  | CProtocol => AexErr "AexProtocolError" ClassProtocol
  | CBadRequest => AexErr "AexValueError" ClassRequest
  end.

Definition core_error (err : AexError) : PyErr := AexErr (exception_for (AexError.class err)) (AexError.class err).
Definition value_error : PyErr := AexErr "AexValueError" ClassRequest.

(** ** Keys and arguments *)

Definition index_from_py (entry : Object) : result PyErr Index :=
  match entry with
  | PNone => Ok NewAxis
  | PEllipsis => Ok Ellipsis
  | PSlice start stop step =>
      start ← ok_or ConversionErr (extract_option_i64 start);
      stop ← ok_or ConversionErr (extract_option_i64 stop);
      step ← ok_or ConversionErr (extract_option_i64 step);
      Ok (Slice start stop step)
  | PInt64s l => Ok (Fancy l)
  | _ => single ← ok_or TypeErr (extract_i64 entry); Ok (Single single)
  end.
Definition indices_from_py (key : list Object) : result PyErr (list Index) := mapM index_from_py key.

(** Python's bool is an int, so it is tried first. *)
Definition function_arg (value : Object) : result PyErr Client.FunctionArg :=
  match value with
  | PNone => Ok Client.ANone
  | PBool b => Ok (Client.ABool b)
  | _ =>
      match extract_i64 value, value with
      | Some i, _ => Ok (Client.AInt i)
      | None, PFloat f => Ok (Client.AFloat f)
      | None, PTuple t => ints ← mapM (fun o => ok_or ConversionErr (extract_i64 o)) t; Ok (Client.AInts ints)
      | None, _ => Err TypeErr
      end
  end.

(** ** Quality *)

Definition codec_from_name (name : string) : result PyErr Codec :=
  if decide (name = "gzip") then Ok Gzip
  else if decide (name = "sz") then Ok Sz
  else if decide (name = "zfp") then Ok Zfp
  else Err value_error.

Definition codec_name (codec : Codec) : string :=
  match codec with Raw => "raw" | Gzip => "gzip" | Sz => "sz" | Zfp => "zfp" end.

(** A dict, its entries in the order they were put in. *)
Abbreviation Dict := (list (string * Object)).
Fixpoint dict_get (d : Dict) (key : string) : option Object :=
  match d with
  | (k, value) :: d' => if String.eqb k key then Some value else dict_get d' key
  | [] => None
  end.

Section Quality.
Context `{Build, PyFloats, DType.TypeStrLib}.

(** An optional entry through a conversion that may raise. *)
Definition entry {A} (d : Dict) (key : string) (read : Object -> result PyErr A) : result PyErr (option A) :=
  match dict_get d key with None => Ok None | Some o => a ← read o; Ok (Some a) end.

(** A quality request: at most one of [dtype] or [abs_error] and [rel_error], and a codec. *)
Definition quality_from_py (quality : option Dict) : result PyErr QualitySpec :=
  match quality with
  | None => Ok QualitySpec.exact
  | Some d =>
      spec ←
        match dict_get d "dtype" with
        | Some dtype =>
            descr ← ok_or ConversionErr (extract_string dtype);
            t ← map_err (fun _ => value_error) (DType.from_descr descr);
            Ok {| encoding := DtypeCast; cast_dtype := Some t; abs_error_bound := None; rel_error_bound := None; spec_codec := None |}
        | None =>
            abs ← entry d "abs_error" (fun o => ok_or ConversionErr (extract_f64 o));
            rel ← entry d "rel_error" (fun o => ok_or ConversionErr (extract_f64 o));
            Ok {| encoding := if bool_decide (is_Some abs \/ is_Some rel) then ErrorBound else Exact;
                  cast_dtype := None; abs_error_bound := abs; rel_error_bound := rel; spec_codec := None |}
        end;
      codec ← entry d "codec" (fun o => name ← ok_or ConversionErr (extract_string o); codec_from_name name);
      Ok {| encoding := encoding spec; cast_dtype := cast_dtype spec; abs_error_bound := abs_error_bound spec;
            rel_error_bound := rel_error_bound spec; spec_codec := codec |}
  end.

Definition float_or_none (bound : option Z) : Object := match bound with Some bits => PFloat bits | None => PNone end.

Definition quality_to_py (spec : QualitySpec) : Dict :=
  [("encoding", PStr match encoding spec with Exact => "exact" | DtypeCast => "dtype_cast" | ErrorBound => "error_bound" end)]%string
  ++ match encoding spec with
     | Exact => []
     | DtypeCast => [("dtype"%string, match cast_dtype spec with Some t => PStr (DType.descr t) | None => PNone end)]
     | ErrorBound => [("abs_error"%string, float_or_none (abs_error_bound spec)); ("rel_error"%string, float_or_none (rel_error_bound spec))]
     end
  ++ [("codec"%string, PStr (codec_name (QualitySpec.codec spec)))].
End Quality.

(** ** Items *)

(** Text as a [str], numbers as [(descr, shape, bytes)]. *)
Inductive Attr : Type := AttrStr (text : string) | AttrNumbers (descr : string) (shape : list Z) (data : bytes).
Fixpoint set_item {A} (d : list (string * A)) (key : string) (value : A) : list (string * A) :=
  match d with
  | (k, v) :: d' => if String.eqb k key then (k, value) :: d' else (k, v) :: set_item d' key value
  | [] => [(key, value)]
  end.
Definition attrs_to_py (attrs : list (string * AttrValue)) : list (string * Attr) :=
  fold_left (fun dict '(name, value) =>
    set_item dict name match value with
                       | AText text => AttrStr text
                       | AArray dtype shape data => AttrNumbers (DType.descr dtype) shape data
                       end) attrs [].
Definition item_to_py (item : Client.Item) : option (string * list Z) * list (string * Attr) :=
  match item with
  | Client.Dataset info => (Some (DType.descr (Client.d_dtype info), Client.d_shape info), attrs_to_py (Client.d_attrs info))
  | Client.Group attrs => (None, attrs_to_py attrs)
  end.

(** ** Output arrays *)

(** [writable] says whether numpy's borrow checking lets the bindings write. *)
Record Array : Type := {
  c_contiguous : bool;
  big_endian : bool;
  elements : Z;
  itemsize : Z;
  element_type : option DType;
  writable : bool;
  held : bytes;
}.

(** Refuse a buffer the transfer cannot write straight into. *)
Definition check_buffer (plan : Plan) (out : Array) : result PyErr unit :=
  if negb (c_contiguous out) then Err value_error
  else if big_endian out then Err value_error
  else if negb (elements out *w itemsize out =? plan_total_bytes plan) then Err value_error
  else Ok tt.

(** The borrows of one array after the other. *)
Definition borrow (dtype : DType) (outs : list Array) : result PyErr (list bytes) :=
  mapM (fun out =>
    if negb (bool_decide (element_type out = Some dtype)) then Err value_error
    else if negb (writable out) then Err value_error
    else Ok (held out)) outs.

Definition selections (handle : Z) (name : string) (indices : list (list Index)) : list Client.Selection :=
  (fun indices => Client.exact handle name indices) <$> indices.

(** ** The client *)

Section Calls.
Context `{Build, PyFloats, DType.TypeStrLib}.
Context {W : Type} `{!Client.Remote W}.

(** The client while it is open. *)
Record State : Type := { inner : option Client.Setup; client_state : Client.State (W := W) }.

Definition closed : PyErr := AexErr "AexConnectionError" ClassAuth.
Definition get (st : State) : result PyErr Client.Setup := ok_or closed (inner st).

(** What the server did to the elements of a plan. *)
Definition plan_quality (plan : Plan) : Dict := quality_to_py (applied_quality plan).

(** Connect to a URL whose host is [control_host]: the settings are the defaults with the
    environment, which [lookup] reads, over them. *)
Definition new (lookup : string -> option string) (name control_host : string) (w : W) : W * result PyErr State :=
  let '(w, made) := Client.connect (Client.with_env (Client.default_config name) lookup) control_host w in
  (w, map_err to_py ((fun '(c, totals) => {| inner := Some c; client_state := {| Client.world := w; Client.stats := totals |} |}) <$> made)).

(** Run [f] on the client. *)
Definition call {A} (st : State) (f : Client.Setup -> Client.State -> Client.State * result ClientError A) : State * result PyErr A :=
  match get st with
  | Ok c => let '(s, r) := f c (client_state st) in ({| inner := inner st; client_state := s |}, map_err to_py r)
  | Err e => (st, Err e)
  | Panic => (st, Panic)
  end.

Definition open (st : State) (path : string) : State * result PyErr Z := call st (fun c s => Client.open c s path).
Definition close_file (st : State) (handle : Z) : State * result PyErr unit := call st (fun c s => Client.close c s handle).
Definition get_item (st : State) (handle : Z) (name : string) : State * result PyErr (option (string * list Z) * list (string * Attr)) :=
  let '(st, item) := call st (fun c s => Client.get_item c s handle name) in (st, item_to_py <$> item).
Definition list_children (st : State) (handle : Z) (name : string)
    : State * result PyErr (list (string * (option (string * list Z) * list (string * Attr)))) :=
  let '(st, children) := call st (fun c s => Client.list_children c s handle name) in
  (st, (fun children : list (string * Client.Item) => (fun '(name, item) => (name, item_to_py item)) <$> children) <$> children).

(** The conversions come before the client is asked for. *)
Definition prepare (st : State) (handle : Z) (name : string) (key : list Object) (quality : option Dict) : State * result PyErr Plan :=
  sbind (pure_step st (indices_from_py key)) (fun st indices =>
  sbind (pure_step st (quality_from_py quality)) (fun st quality =>
  call st (fun c s => Client.prepare_selection c s
    {| Client.handle := handle; Client.name := name; Client.indices := indices; Client.quality := quality |}))).

Definition prepare_many (st : State) (handle : Z) (name : string) (keys : list (list Object)) : State * result PyErr (list (result PyErr Plan)) :=
  sbind (pure_step st (mapM indices_from_py keys)) (fun st indices =>
  let '(st, results) := call st (fun c s => Client.prepare_many c s (selections handle name indices)) in
  (st, (fun results : list (result ClientError Plan) => map_err to_py <$> results) <$> results)).

(** Transfer plans of one dataset into their buffers as one batch. *)
Definition fill_many (st : State) (plans : list Plan) (handle : Z) (name : string) (keys : list (list Object)) (outs : list Array)
    (elapsed : Z) : (State * list bytes) * result PyErr unit :=
  let before := held <$> outs in
  let stop {A} (e : result PyErr A) := ((st, before), (fun _ => tt) <$> e) in
  match mapM indices_from_py keys with
  | Ok indices =>
      if negb (length plans =? length outs)%nat || negb (length plans =? length indices)%nat then stop (Err (A := unit) value_error)
      else
        match plans with
        | [] => stop (Ok tt)
        | first :: _ =>
            match mapM (fun '(plan, out) =>
                    if negb (bool_decide (plan_dtype plan = plan_dtype first)) then Err value_error else check_buffer plan out)
                  (zip plans outs) with
            | Ok _ =>
                match get st with
                | Ok c =>
                    match borrow (plan_dtype first) outs with
                    | Ok dsts =>
                        let '((s, after), r) := Client.fill_many c (client_state st) plans (selections handle name indices) dsts elapsed in
                        (({| inner := inner st; client_state := s |}, after), (fun _ => tt) <$> map_err to_py r)
                    | e => stop e
                    end
                | e => stop e
                end
            | e => stop e
            end
        end
  | e => stop e
  end.

Definition fill (st : State) (plan : Plan) (handle : Z) (name : string) (key : list Object) (out : Array) (elapsed : Z)
    : (State * list bytes) * result PyErr unit :=
  fill_many st [plan] handle name [key] [out] elapsed.

Definition apply_function (st : State) (handle : Z) (name : string) (key : list Object) (function : string) (kwargs : list (string * Object))
    : State * result PyErr (string * list Z * bytes) :=
  sbind (pure_step st (indices_from_py key)) (fun st indices =>
  sbind (pure_step st (mapM (fun '(k, v) => a ← function_arg v; Ok (k, a)) kwargs)) (fun st kwargs =>
  let '(st, reduced) := call st (fun c s => Client.apply_function c s (Client.exact handle name indices) function kwargs) in
  (st, (fun r => (DType.descr (r_dtype r), r_shape r, r_data r)) <$> reduced))).

(** The totals over every transfer, as the client keeps them. *)
Definition stats (st : State) : result PyErr Client.ClientStats := (fun _ => Client.stats (client_state st)) <$> get st.

(** End the session; [shared] says another thread is still inside the client, whose
    session is then left to expire. *)
Definition disconnect (st : State) (shared : bool) : State * result PyErr unit :=
  match inner st with
  | Some c =>
      if shared then ({| inner := None; client_state := client_state st |}, Ok tt)
      else
        let '(s, r) := Client.disconnect c (client_state st) in
        ({| inner := None; client_state := s |}, map_err to_py r)
  | None => (st, Ok tt)
  end.

(** What a selection would yield, worked out as the server does. *)
Definition resolve (shape : list Z) (dtype : string) (key : list Object) : result PyErr (string * list Z) :=
  dtype ← map_err core_error (DType.from_descr dtype);
  indices ← indices_from_py key;
  resolved ← map_err core_error (Selection.resolve shape indices);
  Ok (DType.descr dtype, out_shape resolved).
End Calls.

End Python.
