(* ===== verification/PythonSpec.v ===== *)
(** What the Python bindings promise: an array filled holds its selection, and nothing is
    written through a buffer that does not fit. *)
From stdpp Require Import strings.
From S2P Require Import Prelude Errors Dtype Bytes Quality Selection Text Backend Convert Reduce Plan Pool Control Client ClientFill Python.

Import Python.

Section Arrays.
Context `{Build}.
Context {W : Type} `{!Client.Remote W}.
Context (stream : Z -> bytes -> bytes) (truth : PrepareSelectionRequest -> bytes -> Prop) `{!Honest W stream truth}.
Implicit Type st : State (W := W).

(** An array whose bytes are its elements'. *)
Definition array_wf (out : Array) : Prop := zlen (held out) = elements out * itemsize out /\ zlen (held out) < two64.

(** An array a plan can be transferred into. *)
Definition fits (dtype : DType) (plan : Plan) (out : Array) : Prop :=
  plan_dtype plan = dtype /\ element_type out = Some dtype /\ c_contiguous out = true /\ big_endian out = false /\
  writable out = true /\ plan_total_bytes plan = zlen (held out).
#[export] Instance fits_dec dtype plan out : Decision (fits dtype plan out) := _.

Lemma check_buffer_spec plan out :
  array_wf out ->
  check_buffer plan out =
  if decide (c_contiguous out = true /\ big_endian out = false /\ plan_total_bytes plan = zlen (held out)) then Ok tt else Err value_error.
Proof.
  intros [Hl Hlt]. unfold check_buffer. destruct (c_contiguous out); cbn [negb]; [|by rewrite decide_False by (by intros [? _])].
  destruct (big_endian out); [by rewrite decide_False by (by intros (_ & ? & _))|]. unfold wmul. rewrite u64_id by (unfold is_u64; lia).
  rewrite <- Hl. destruct (Z.eqb_spec (zlen (held out)) (plan_total_bytes plan)); cbn [negb]; [by rewrite decide_True|].
  rewrite decide_False; [done|]. intros (_ & _ & ?). congruence.
Qed.

Lemma check_batch dtype plans outs :
  length plans = length outs -> Forall array_wf outs ->
  match mapM (fun '(plan, out) => if negb (bool_decide (plan_dtype plan = dtype)) then Err value_error else check_buffer plan out) (zip plans outs) with
  | Ok _ => Forall2 (fun plan out => plan_dtype plan = dtype /\ c_contiguous out = true /\ big_endian out = false /\
              plan_total_bytes plan = zlen (held out)) plans outs
  | Err e => e = value_error /\ ~ Forall2 (fits dtype) plans outs
  | Panic => False
  end.
Proof.
  intros Hl Hwf. revert plans Hl. induction Hwf as [|out outs Hout _ IH]; intros [|plan plans]; try done; [by constructor|].
  intros [= Hl]; cbn [zip zip_with mapM]. specialize (IH plans Hl). rewrite check_buffer_spec by done. case_bool_decide as Hd; cbn [negb].
  2: { split; [done|]. by intros [(? & _) _]%Forall2_cons. }
  case_decide as Hc; cbn [mbind result_bind].
  - destruct (mapM _ _) as [us|e|]; cbn [mbind result_bind]; [| |done].
    + constructor; [|done]. by destruct Hc as (? & ? & ?).
    + destruct IH as [-> Hn]. split; [done|]. by intros [_ ?]%Forall2_cons.
  - split; [done|]. intros [(_ & _ & ? & ? & _ & ?) _]%Forall2_cons. by apply Hc.
Qed.

Lemma borrow_spec dtype outs :
  match borrow dtype outs with
  | Ok dsts => dsts = held <$> outs /\ Forall (fun out => element_type out = Some dtype /\ writable out = true) outs
  | Err e => e = value_error /\ ~ Forall (fun out => element_type out = Some dtype /\ writable out = true) outs
  | Panic => False
  end.
Proof.
  unfold borrow. induction outs as [|out outs IH]; cbn [mapM]; [done|]. case_bool_decide as Ht; cbn [negb mbind result_bind].
  2: { split; [done|]. by intros [[? _] _]%Forall_cons. }
  destruct (writable out) eqn:Hw; cbn [negb mbind result_bind].
  2: { split; [done|]. intros [[_ ?] _]%Forall_cons. congruence. }
  destruct (mapM _ outs) as [dsts|e|]; cbn [mbind result_bind]; [|destruct IH as [-> Hn]|done].
  - destruct IH as [-> Hall]. split; [done|]. by constructor.
  - split; [done|]. by intros [_ ?]%Forall_cons.
Qed.

Lemma indices_returns keys : mapM indices_from_py keys <> Panic.
Proof.
  assert (forall o, index_from_py o <> Panic) as H1.
  { unfold index_from_py, ok_or, mbind, result_bind. intros o. by repeat case_match. }
  assert (forall key, indices_from_py key <> Panic) as H2.
  { unfold indices_from_py. induction key as [|o key IH]; [done|]. cbn [mapM]. specialize (H1 o). destruct (index_from_py o); [|done..]. cbn.
    by destruct (mapM _ key). }
  induction keys as [|key keys IH]; [done|]. cbn [mapM]. specialize (H2 key). destruct (indices_from_py key); [|done..]. cbn.
  by destruct (mapM _ keys).
Qed.

(** What a batch of arrays is asked to be: a key and an array for every plan, the plans of
    one element type, each array fit for its plan. *)
Definition batch_fits (plans : list Plan) (keys : list (list Object)) (outs : list Array) : Prop :=
  length keys = length plans /\ exists dtype, Forall2 (fits dtype) plans outs.

(** C33: an array filled holds its selection, and no other memory is written.  A batch
    with a key that is no selection, or with an array that is not C-contiguous,
    little-endian, writable, of the plan's element type and exactly as large as the
    selection, raises and leaves every array and the client as they were.  Any other fills
    whole arrays only: none changes its length, and, if the plans bring or name answers to the
    keys' selections, once the call returns each array holds an answer to the selection its
    own key makes, in the quality its plan was asked for, what answers a request being the
    server's to say ([truth], [Honest]). *)
Theorem arrays_filled st c plans handle name keys outs elapsed :
  inner st = Some c -> Forall (true_plan stream) plans -> Forall array_wf outs ->
  (forall indices, mapM indices_from_py keys = Ok indices -> answering stream truth (selections handle name indices) 0 plans) ->
  0 <= Client.chunk_bytes (Client.config c) -> 0 < Client.si_max_fetch_bytes (Client.session c) ->
  let '((st', after), r) := fill_many st plans handle name keys outs elapsed in
  r <> Panic /\ inner st' = inner st /\ (fun b => zlen b) <$> after = (fun out => zlen (held out)) <$> outs /\
  (r = Ok tt -> exists indices, mapM indices_from_py keys = Ok indices /\
     Forall3 (fun s p b => truth (request_of s p) b) (selections handle name indices) plans after) /\
  (~ batch_fits plans keys outs \/ (forall indices, mapM indices_from_py keys <> Ok indices) ->
   r <> Ok tt /\ after = held <$> outs /\ st' = st).
Proof.
  intros Hc Ht Hwf Hans Hcb Hmf. unfold fill_many. pose proof (indices_returns keys) as Hnp.
  assert ((fun b => zlen b) <$> (held <$> outs) = (fun out => zlen (held out)) <$> outs) as Hheld by (by rewrite <- list_fmap_compose).
  destruct (mapM indices_from_py keys) as [indices|e|] eqn:Hk; [| |done]; cbn [fmap result_fmap]; [|by split_and!].
  apply mapM_ok, Forall2_length in Hk. destruct (negb _ || negb _) eqn:Hlen; cbv beta iota; [by split_and!|].
  apply orb_false_iff in Hlen as [Hl1%negb_false_iff%Nat.eqb_eq Hl2%negb_false_iff%Nat.eqb_eq].
  destruct plans as [|first plans].
  { destruct outs; [|done]. split; [done|]. split; [done|]. split; [done|]. split.
    { intros _. exists indices. split; [done|]. apply Nat.eqb_eq in Hl2 || idtac. by destruct indices; [constructor|cbn in Hl2]. }
    intros [Hn|Hn]; [|by destruct (Hn indices)]. destruct Hn. split; [by rewrite Hk|]. exists Bool. constructor. }
  pose proof (check_batch (plan_dtype first) (first :: plans) outs Hl1 Hwf) as Hcheck.
  destruct (mapM _ (zip _ _)) as [us|e|]; cbn [fmap result_fmap]; [| |done]; cbv beta iota.
  2: { by split_and!. }
  unfold get. rewrite Hc. cbn [ok_or]. pose proof (borrow_spec (plan_dtype first) outs) as Hborrow.
  destruct (borrow _ outs) as [dsts|e|]; cbn [fmap result_fmap]; [| |done]; cbv beta iota.
  2: { by split_and!. }
  destruct Hborrow as [-> Htypes]. unfold Client.fill_many.
  pose proof (fill_batch_spec c stream truth (client_state st) (first :: plans) (selections handle name indices) (held <$> outs) Ht (Hans _ eq_refl) Hcb Hmf) as Hfill.
  destruct (Client.fill_batch _ _ _ _ _) as [[s after] r].
  assert (matched (first :: plans) (selections handle name indices) (held <$> outs)) as Hm.
  { split; [unfold selections; rewrite length_fmap; congruence|]. apply Forall2_fmap_r. eapply Forall2_impl; [done|]. by intros ?? (_ & _ & _ & ?). }
  rewrite decide_True in Hfill by done. destruct Hfill as (Hnpr & Hlens & Hok).
  assert (batch_fits (first :: plans) keys outs) as Hfits.
  { split; [congruence|]. exists (plan_dtype first). clear -Hcheck Htypes. revert Htypes. induction Hcheck; intros Htypes; [constructor|].
    apply Forall_cons in Htypes as [[? ?] ?]. constructor; [|by auto]. unfold fits. naive_solver. }
  rewrite Hheld in Hlens. destruct r as [res|e|]; cbn [sbind fmap result_fmap map_err]; [| |done]; cbv beta iota.
  - split; [done|]. split; [done|]. split; [done|]. split; [|intros [[]|Hn]; [done|by destruct (Hn indices)]]. intros _.
    exists indices. split; [done|]. by apply (Hok res).
  - split; [done|]. split; [done|]. split; [done|]. split; [done|intros [[]|Hn]; [done|by destruct (Hn indices)]].
Qed.
End Arrays.

(** ** Quality, in and out *)

Section Quality.
Context `{Build, PyFloats, DType.TypeStrLib}.

(** What the conversions outside the crate are relied on for. *)
Context (Hdescr : forall t, DType.from_descr (DType.descr t) = Ok t) (Hfloat : forall bits, extract_f64 (PFloat bits) = Some bits).

(** A quality that can be said in a request: its element type is there if it casts, both
    its bounds are if it bounds the error, and some codec carries it. *)
Definition sayable (q : QualitySpec) : Prop :=
  QualitySpec.codec q <> Raw /\
  match encoding q with
  | Exact => True
  | DtypeCast => is_Some (cast_dtype q)
  | ErrorBound => is_Some (abs_error_bound q) /\ is_Some (rel_error_bound q)
  end.

(** What the bindings report of a plan's quality can be asked for again, when it can be
    said at all. *)
Theorem quality_read_back q :
  sayable q ->
  quality_from_py (Some (quality_to_py q)) =
  Ok {| encoding := encoding q;
        cast_dtype := if decide (encoding q = DtypeCast) then cast_dtype q else None;
        abs_error_bound := if decide (encoding q = ErrorBound) then abs_error_bound q else None;
        rel_error_bound := if decide (encoding q = ErrorBound) then rel_error_bound q else None;
        spec_codec := Some (QualitySpec.codec q) |}.
Proof.
  intros [Hc Hs]. assert (codec_from_name (codec_name (QualitySpec.codec q)) = Ok (QualitySpec.codec q)) as Hcodec
    by (by destruct (QualitySpec.codec q)).
  unfold quality_to_py, quality_from_py, entry. set (name := codec_name _) in *. clearbody name.
  destruct (encoding q) eqn:He; cbn.
  - by rewrite Hcodec.
  - destruct Hs as [t Ht]. rewrite Ht. cbn. rewrite Hdescr. cbn. by rewrite Hcodec.
  - destruct Hs as [[a Ha] [b Hb]]. rewrite Ha, Hb. cbn. rewrite !Hfloat. cbn. by rewrite Hcodec.
Qed.
End Quality.

(** What most plans report cannot be asked for: the dict of a lossless, uncompressed
    transfer names the codec [raw], which a request may not. *)
Theorem plain_quality_not_read_back `{Build, PyFloats, DType.TypeStrLib} :
  quality_from_py (Some (quality_to_py QualitySpec.exact)) = Err value_error.
Proof. reflexivity. Qed.

(** ** At concrete inputs *)

#[local] Existing Instance LayoutSpec.demo_build.
#[local] Existing Instance demo_remote.
#[local] Existing Instance demo_honest.

Definition demo_client : State := {| inner := Some demo_setup; client_state := demo_state |}.
Definition demo_array (b : bytes) (writable : bool) : Array :=
  {| c_contiguous := true; big_endian := false; elements := zlen b; itemsize := 1; element_type := Some Uint8;
     writable := writable; held := b |}.

(** The plan the server has lost is prepared again; a read-only array is refused. *)
Lemma arrays_filled_witness :
  (exists st' after, fill_many demo_client [demo_lost] 1 "b" [[PInt 3]] [demo_array [0; 0; 0] true] 7 = ((st', after), Ok tt) /\
     Forall3 (fun s p b => demo_truth (request_of s p) b) [Client.exact 1 "b" [Single 3]] [demo_lost] after) /\
  (fill_many demo_client [demo_lost] 1 "b" [[PInt 3]] [demo_array [0; 0; 0] false] 7).1.2 = [[0; 0; 0]].
Proof.
  assert (forall indices, mapM indices_from_py [[PInt 3]] = Ok indices ->
    answering demo_stream demo_truth (selections 1 "b" indices) 0 [demo_lost]) as Hans.
  { intros indices Hi. vm_compute in Hi. injection Hi as <-. intros [|j] s p Hs Hp; cbn in Hs, Hp; simplify_eq; vm_compute; reflexivity. }
  split.
  - pose proof (arrays_filled demo_stream demo_truth demo_client demo_setup [demo_lost] 1 "b" [[PInt 3]] [demo_array [0; 0; 0] true] 7 eq_refl
      ltac:(by repeat constructor) ltac:(by repeat constructor) Hans ltac:(vm_compute; discriminate) ltac:(reflexivity)) as Hf.
    destruct (fill_many demo_client [demo_lost] 1 "b" [[PInt 3]] [demo_array [0; 0; 0] true] 7) as [[st' after] r] eqn:Hr.
    pose proof (f_equal snd Hr) as Hr2. vm_compute in Hr2. subst r. exists st', after. split; [reflexivity|].
    destruct Hf as (_ & _ & _ & Hok & _). destruct (Hok eq_refl) as (indices & Hi & Hf). vm_compute in Hi. injection Hi as <-. exact Hf.
  - pose proof (arrays_filled demo_stream demo_truth demo_client demo_setup [demo_lost] 1 "b" [[PInt 3]] [demo_array [0; 0; 0] false] 7 eq_refl
      ltac:(by repeat constructor) ltac:(by repeat constructor) Hans ltac:(vm_compute; discriminate) ltac:(reflexivity)) as Hf.
    destruct (fill_many demo_client [demo_lost] 1 "b" [[PInt 3]] [demo_array [0; 0; 0] false] 7) as [[st' after] r]. cbn [fst snd].
    destruct Hf as (_ & _ & _ & _ & Hno). apply Hno. left. intros [_ (dtype & Hd)]. inversion Hd as [|???? (_ & _ & _ & _ & Hw & _)]. discriminate Hw.
Defined.
