(* ===== verification/System.v ===== *)
(** The two ends of a transfer together: the client's pool, its connections, and the server
    behind them.  A connection carries requests one way and bytes the other; each end does
    with them what its own file says it does. *)
From stdpp Require Import gmap.
From S2P Require Import Prelude Errors Dtype Bytes Quality Frame Selection Cast Codec Layout LayoutSpec Backend Config Session Transfer Reader DataPlane Pool PoolSpec PoolCorrect.
Import Pool.

(** A connection: the requests still to be served, the bytes on their way back, what the
    server's thread reads with, and whether it has hung up. *)
Record Link : Type := { up : list (FrameHeader * bytes); down : bytes; server : FetchReader; hung : bool }.

(** A transfer's threads, each with its connection. *)
Record Site : Type := { pool : Transfer; links : list Link }.

Definition idle (buffer : Z) (l : Link) : Prop :=
  up l = [] /\ down l = [] /\ buffer_len (server l) = buffer /\ hung l = false.

(** What the client asks for a chunk with. *)
Definition fetch_frame (p : Part) (c : Chunk) : FrameHeader * bytes :=
  (FrameHeader.fetch (pt_request_id p) (c_offset c) (c_len c), pt_ticket p).

(** A request goes out on a link. *)
Definition asked_on (l : Link) (request : FrameHeader * bytes) : Link :=
  {| up := up l ++ [request]; down := down l; server := server l; hung := hung l |}.

(** What the client has read of a link is gone. *)
Definition read_off (l : Link) (rest : bytes) : Link :=
  {| up := up l; down := rest; server := server l; hung := hung l |}.

(** What a part is to be filled with. *)
Record Source (D : Type) : Type := { so_dataset : D; so_layout : SelectionLayout; so_stream : bytes }.
Arguments so_dataset {D}. Arguments so_layout {D}. Arguments so_stream {D}.

Section System.
Context `{Build, HalfLib, CodecLib, Display}.
Context {F D : Type} `{!ArrayDataset D, !Served D}.
Context (config : ServerConfig) (session : bytes) (ps : list Part) (srcs : list (Source D)).
Local Notation buffer := (read_buffer_bytes (transfer config)).

(** The plan table answers the parts' tickets, if at all, with the plans they were issued
    for; whatever else becomes of it. *)
Definition vouched (t : TransferRegistry D) : Prop :=
  forall k p src e, ps !! k = Some p -> srcs !! k = Some src ->
    entries t !! pt_request_id p = Some e -> te_session e = session -> constant_time_eq (te_ticket e) (pt_ticket p) = true ->
    te_dataset e = so_dataset src /\ te_layout e = so_layout src.

(** What happens without the connection, or breaks it. *)
Definition offline (ev : Event) : Prop :=
  match ev with Tick | Wake | Sent (Err _) | ReadFailed _ | Reconnected (Err _) => True | _ => False end.
#[export] Instance offline_dec ev : Decision (offline ev).
Proof. destruct ev as [|[]| | | |[]|]; cbn; apply _. Defined.

(** One step of either end, on connection [i].  The server's thread meets whatever the plan
    table is by then; the frame it serves has been taken off the connection, its payload
    is still there to be read. *)
Inductive step (i : nat) : Site -> Site -> Prop :=
  | step_offline s ev w' :
      offline ev -> act (pool s) i ev = Some w' -> step i s {| pool := w'; links := links s |}
  | step_ask s t c rest p l w' :
      threads (pool s) !! i = Some t -> phase t = Asking (c :: rest) -> parts (pool s) !! part c = Some p -> links s !! i = Some l ->
      act (pool s) i (Sent (Ok tt)) = Some w' ->
      step i s {| pool := w'; links := <[i := asked_on l (fetch_frame p c)]> (links s) |}
  | step_serve s l header payload rest (w : World (F := F) (D := D)) now res w' :
      links s !! i = Some l -> hung l = false -> up l = (header, payload) :: rest ->
      conn w = {| events := [Got payload]; writes := []; out := [] |} -> w_reader w = server l -> vouched (w_transfers w) ->
      handle_frame config w header session now = (res, w') ->
      step i s {| pool := pool s; links := <[i :=
        {| up := rest; down := down l ++ out (conn w'); server := w_reader w';
           hung := match res with Ok Continue => false | _ => true end |}]> (links s) |}
  | step_read s l header payload rest pong w' :
      links s !! i = Some l -> read_frame_header (down l) = Ok (header, payload ++ rest) -> zlen payload = wire_len header ->
      act (pool s) i (Frame header payload pong) = Some w' ->
      step i s {| pool := w'; links := <[i := read_off l rest]> (links s) |}
  | step_torn s t f others l header rest junk kind w' :
      threads (pool s) !! i = Some t -> flight t = f :: others -> links s !! i = Some l ->
      read_frame_header (down l) = Ok (header, rest) -> frame_type header = Data ->
      act (pool s) i (Torn (offset header - c_offset (chunk f)) junk kind) = Some w' ->
      step i s {| pool := w'; links := links s |}
  | step_reconnect s l w' :
      idle buffer l -> act (pool s) i (Reconnected (Ok tt)) = Some w' ->
      step i s {| pool := w'; links := <[i := l]> (links s) |}.

Inductive runs (s0 : Site) : Site -> Prop :=
  | runs_start : runs s0 s0
  | runs_step s i s' : runs s0 s -> step i s s' -> runs s0 s'.
End System.

(** ** What a step does to the threads *)

Section Moves.
Context `{Build, CodecLib}.
Implicit Types (w : Transfer) (t : Thread).

(** A thread whose connection is in use. *)
Definition wired (t : Thread) : Prop :=
  match phase t with Topping | Asking _ | Reading | Asleep | Failing _ true => True | _ => False end.

(** Thread [i] becomes [t']; the others at most wake. *)
Definition moves w (i : nat) t' w' : Prop :=
  exists notify : bool, threads w' = (if notify then fmap wake else fun ts => ts) (<[i := t']> (threads w)) /\
  (fun p => (pt_request_id p, pt_ticket p)) <$> parts w' = (fun p => (pt_request_id p, pt_ticket p)) <$> parts w.

Lemma wake_flight t : flight (wake t) = flight t /\ (wired (wake t) -> wired t).
Proof. destruct t as [[] fl]; done. Qed.

Lemma moves_lookup w i t t' w' j u' :
  threads w !! i = Some t -> moves w i t' w' -> threads w' !! j = Some u' ->
  exists u, (if decide (j = i) then u = t' else threads w !! j = Some u) /\ flight u' = flight u /\ (wired u' -> wired u).
Proof.
  intros Hi (notify & Hts & _) Hj. rewrite Hts in Hj.
  assert (exists u, <[i := t']> (threads w) !! j = Some u /\ flight u' = flight u /\ (wired u' -> wired u)) as (u & Hu & Hr).
  { destruct notify; [|by exists u']. rewrite list_lookup_fmap in Hj. destruct (<[i := t']> (threads w) !! j) as [u|]; [|done].
    injection Hj as <-. exists u. split; [done|]. apply wake_flight. }
  exists u. split; [|done]. destruct (decide (j = i)) as [->|Hne].
  - rewrite list_lookup_insert_eq in Hu by (by eapply lookup_lt_Some). by injection Hu as <-.
  - by rewrite list_lookup_insert_ne in Hu.
Qed.

Lemma update_moves w i t' st notify : moves w i t' (update w i t' st notify).
Proof. exists notify. split. { unfold update. cbn [threads]. destruct notify; reflexivity. } reflexivity. Qed.

Lemma with_buffer_names w p dst n :
  (fun q => (pt_request_id q, pt_ticket q)) <$> parts (with_buffer w p dst n) = (fun q => (pt_request_id q, pt_ticket q)) <$> parts w.
Proof.
  unfold with_buffer. cbn [parts]. generalize (parts w). induction p as [|p IH]; intros [|q qs]; try done. cbn. by rewrite IH.
Qed.

Lemma buffer_moves w p dst n i t' st notify : moves w i t' (update (with_buffer w p dst n) i t' st notify).
Proof. exists notify. split; [by destruct notify|]. by rewrite <- (with_buffer_names w p dst n). Qed.

Lemma on_error_unwired e fl : ~ wired (on_error e fl).
Proof. intros Hw. by destruct e; cbn in Hw. Qed.

(** What a thread goes from and to. *)
Definition follows t (ev : Event) t' : Prop :=
  match ev with
  | Sent (Ok _) =>
      exists c rest, phase t = Asking (c :: rest) /\
        (wired t' -> flight t' = flight t ++ [{| chunk := c; received := 0 |}])
  | Frame header _ _ =>
      phase t = Reading /\
      (wired t' ->
       match frame_type header, flight t with
       | Data, f :: others =>
           let got := received f +w logical_len header in
           flight t' = if c_len (chunk f) <=? got then others else {| chunk := chunk f; received := got |} :: others
       | Error, f :: others => flight t' = others
       | (Ping | Pong), fl => flight t' = fl
       | _, _ => False
       end)
  | Torn _ _ _ => phase t = Reading /\ ~ wired t'
  | Reconnected (Ok _) => phase t = Reconnecting /\ flight t' = flight t
  | _ => wired t' -> wired t /\ flight t' = flight t
  end.

Lemma on_error_stays fl e (P : Prop) : wired (on_error e fl) -> P.
Proof. intros Hw. by destruct (on_error_unwired e fl). Qed.
Lemma moved w i t ev t' st notify : follows t ev t' -> exists t1, moves w i t1 (update w i t' st notify) /\ follows t ev t1.
Proof. intros Hf. exists t'. split; [apply update_moves|done]. Qed.

Lemma ask_follows w i t c rest r w' :
  threads w !! i = Some t -> phase t = Asking (c :: rest) -> ask w i t c rest r = Some w' ->
  exists t', moves w i t' w' /\ follows t (Sent r) t'.
Proof.
  intros Hi Hp. unfold ask. intros (p & _ & Hact)%bind_Some.
  assert (forall e fl, follows t (Sent r) (on_error e fl)) as Hf.
  { intros e fl. destruct r; cbn; [|by apply on_error_stays..]. exists c, rest. split; [done|]. apply on_error_stays. }
  destruct (Scatter.ScatterBuffer.claim _ _ _) as [b|e|]; [|injection Hact as <-; eapply moved; (exact (Hf _ _) || exact (Hf (CIo _) _) || exact (Hf CProtocol []))|done].
  destruct r as [[]|k|]; [|injection Hact as <-; eapply moved; (exact (Hf _ _) || exact (Hf (CIo _) _) || exact (Hf CProtocol []))|done]. injection Hact as <-.
  eexists. split; [apply update_moves|]. by exists c, rest.
Qed.

Lemma data_follows w i t header payload pong f others w' :
  phase t = Reading -> flight t = f :: others -> frame_type header = Data ->
  on_data w i header payload f others = Some w' -> exists t', moves w i t' w' /\ follows t (Frame header payload pong) t'.
Proof.
  intros Hp Hfl Hd. unfold on_data. intros (p & _ & Hact)%bind_Some.
  destruct (DataConn.receive_data _ _ _ _ _) as [b|e|]; [| |done].
  - destruct (c_len (chunk f) <=? received f +w logical_len header) eqn:Hdone; injection Hact as <-;
      (eexists; split; [apply buffer_moves|]; split; [done|]; intros _; rewrite Hd, Hfl; cbv zeta; by rewrite Hdone).
  - injection Hact as <-. eexists. split; [apply update_moves|]. split; [done|]. apply on_error_stays.
Qed.

Lemma error_follows w i t header payload pong f others w' :
  phase t = Reading -> flight t = f :: others -> frame_type header = Error ->
  on_error_frame w i header payload f others = Some w' -> exists t', moves w i t' w' /\ follows t (Frame header payload pong) t'.
Proof.
  intros Hp Hfl Hd. unfold on_error_frame.
  assert (forall e fl, follows t (Frame header payload pong) (on_error e fl)) as Hf.
  { intros e fl. split; [done|]. apply on_error_stays. }
  assert (forall t', flight t' = others -> follows t (Frame header payload pong) t') as Hrest.
  { intros t' Ht. split; [done|]. intros _. by rewrite Hd, Hfl. }
  destruct (DataConn.receive_error payload) as [e|e|]; [|intros [= <-]; eapply moved; (exact (Hf _ _) || exact (Hf (CIo _) _) || exact (Hf CProtocol []))|done].
  destruct (_ =? 0); [intros [= <-]; eapply moved; (exact (Hf _ _) || exact (Hf (CIo _) _) || exact (Hf CProtocol []))|]. intros (p & _ & Hact)%bind_Some. destruct (negb _ || negb _); [injection Hact as <-; eapply moved; (exact (Hf _ _) || exact (Hf CProtocol []))|].
  destruct (if ClientError.is_retryable e then _ else _) as [[] st]; injection Hact as <-; (eexists; split; [apply update_moves|by apply Hrest]).
Qed.

Lemma act_follows w i ev w' :
  act w i ev = Some w' -> exists t t', threads w !! i = Some t /\ moves w i t' w' /\ follows t ev t'.
Proof.
  unfold act. intros (t & Hi & Hact)%bind_Some. exists t.
  enough (exists t', moves w i t' w' /\ follows t ev t') as (t' & Hm & Hf) by (by exists t').
  assert (forall e fl (P : Prop), wired (on_error e fl) -> P) as Herr by (intros e fl P Hw; by destruct (on_error_unwired e fl)).
  assert (forall t' st notify, follows t ev t' -> Some (update w i t' st notify) = Some w' -> exists t', moves w i t' w' /\ follows t ev t') as Hup.
  { intros t' st notify Hf [= <-]. by apply moved. }
  destruct (phase t) eqn:Hp, ev as [|r|header payload pong|start junk k|e'|r|]; try done; try (by destruct fresh).
  - destruct (top_up _ _ _); refine (Hup _ _ _ _ Hact); cbn [follows]; (exact (Herr CProtocol _ _) || (unfold wired; by rewrite Hp)).
  - destruct fresh; [|done]. refine (Hup _ _ _ _ Hact). cbn [follows]. unfold wired. by rewrite Hp.
  - destruct fresh as [|c rest]; [done|]. by eapply ask_follows.
  - destruct (frame_type header) eqn:Hd.
    + refine (Hup _ _ _ _ Hact). split; [done|]. apply (Herr CProtocol).
    + destruct (flight t) as [|f others] eqn:Hf; [done|]. by eapply data_follows.
    + destruct (flight t) as [|f others] eqn:Hf; [done|]. by eapply error_follows.
    + destruct pong as [|k|]; [| |done]; refine (Hup _ _ _ _ Hact); (split; [done|]); [by rewrite Hd|apply (Herr (CIo k))].
    + refine (Hup _ _ _ _ Hact). split; [done|]. by rewrite Hd.
  - destruct (flight t) as [|f others]; [done|]. cbn [mbind option_bind] in Hact. apply bind_Some in Hact as (p & _ & Hact).
    destruct (decide _); [|done]. injection Hact as <-. eexists. split; [apply buffer_moves|]. split; [done|]. by intros Hw.
  - refine (Hup _ _ _ _ Hact). cbn [follows]. apply Herr.
  - refine (Hup _ _ _ _ Hact). cbn [follows]. unfold wired. by rewrite Hp.
  - destruct (last (flight t)); [|by destruct exhausted; refine (Hup _ _ _ _ Hact)].
    cbv zeta in Hact. destruct (retry _ _ _ _) as [again st]. by refine (Hup _ _ _ _ Hact).
  - destruct keep; refine (Hup _ _ _ _ Hact); cbn [follows]; unfold wired; by rewrite ?Hp.
  - destruct (error (state w)); by refine (Hup _ _ _ _ Hact).
  - destruct r; [| |done]; by refine (Hup _ _ _ _ Hact).
  - by refine (Hup _ _ _ _ Hact).
Qed.
End Moves.

(** ** What the server writes is what the client may read *)

Lemma eps_lossless `{Build} q : QualitySpec.codec q = Gzip -> QualitySpec.eps q = None.
Proof.
  unfold QualitySpec.eps. case_bool_decide as He; [|done]. unfold QualitySpec.codec. rewrite He.
  unfold Codec.DEFAULT_LOSSY. destruct (spec_codec q) as [[]|]; cbn; by destruct feature_sz.
Qed.

Section Frames.
Context `{Build, HalfLib, CodecLib, Display}.
Context {F D : Type} `{!ArrayDataset D, !Served D}.
Context {close : DType -> Z -> bytes -> bytes -> Prop} `{!CodecLaws close}.

(** A source is a selection of a dataset, carried as it is or through the lossless codec. *)
Record sound (src : Source D) : Prop := {
  sd_open : ds_open (so_dataset src);
  sd_selected : exists indices q r, Forall index_wf indices /\ layout (so_dataset src) indices q = Ok (so_layout src) /\
    Selection.resolve (ds_shape (so_dataset src)) indices = Ok r /\
    so_stream src = logical_stream (contents (so_dataset src)) (ds_shape (so_dataset src)) (ds_dtype (so_dataset src))
                      (l_dtype (so_layout src)) r;
  sd_size : 2 * total_bytes (so_layout src) < two64;
  sd_len : zlen (so_stream src) = total_bytes (so_layout src);
  sd_lossless : QualitySpec.codec (l_quality (so_layout src)) = Raw \/ QualitySpec.codec (l_quality (so_layout src)) = Gzip;
}.

Lemma sound_shape src : sound src -> Forall (fun d => 0 <= d) (l_out_shape (so_layout src)).
Proof.
  intros [Hop (indices & q & r & Hi & Hl & Hr & _) _ _ _]. destruct (layout_resolve_inv _ _ _ _ _ Hl) as (r' & Hr' & -> & _).
  rewrite Hr in Hr'. injection Hr' as <-. by apply (resolved_ok (ds_shape (so_dataset src)) indices r (served_shape _ Hop)).
Qed.

(** A frame that carries a piece of a source is one the client may take for the oldest
    chunk it waits for. *)
Lemma carries_honest streams f id src at_ n h payload :
  sound src -> is_u32 id -> streams !! part (chunk f) = Some (so_stream src) ->
  at_ = c_offset (chunk f) + received f -> 0 <= at_ -> 0 < n -> received f + n <= c_len (chunk f) -> at_ + n <= zlen (so_stream src) ->
  carries id (so_layout src) (so_stream src) (at_, n) (h, payload) ->
  frame_type h = Data /\ header_wf h /\ wire_len h = zlen payload /\ offset h = at_ /\ logical_len h = n /\
  honest_data streams f h payload.
Proof.
  intros Hsrc Hid Hst -> Ho Hn Hc Hle Hcar.
  assert (zlen (slice (c_offset (chunk f) + received f) n (so_stream src)) = n) as Hpl by (apply length_slice; lia).
  assert (zlen (so_stream src) < two64) as Hlt.
  { pose proof (sd_size _ Hsrc). pose proof (sd_len _ Hsrc). lia. }
  destruct Hcar as [[= -> ->]|(spec & packed & Hraw & Hblock & Hpack & [= -> ->])].
  - split; [done|]. split.
    { unfold header_wf, is_u8, is_u64. cbn. split_and!; done || lia. }
    do 3 (split; [done || by symmetry|]). unfold honest_data. cbn. do 4 (split; [done || lia|]).
    exists (so_stream src). by split.
  - destruct (sd_lossless _ Hsrc) as [?|Hgz]; [done|]. rewrite Hgz in *.
    unfold SelectionLayout.block in Hblock. rewrite bool_decide_false, eps_lossless in Hblock by (by rewrite ?Hgz). cbn [default] in Hblock.
    destruct (BlockSpec.for_range _ _ _ _ _) as [spec'| |] eqn:Hfor; try done. injection Hblock as ->. rewrite <- Hpl in Hfor.
    assert (forall buf, zlen buf = n -> zlen packed < n /\
      exists v, decompress_into Gzip packed buf = Ok v /\ v = slice (c_offset (chunk f) + received f) n (so_stream src)) as Hback.
    { intros buf Hbuf. assert (zlen (slice (c_offset (chunk f) + received f) n (so_stream src)) < two64) as Hs64 by lia.
      pose proof (compress_roundtrip close Gzip _ _ F64.zero _ _ spec [] packed buf (sound_shape _ Hsrc)
        Hs64 ltac:(done) eq_refl eq_refl Hfor Hpack ltac:(lia)) as [Hlp Hv]. rewrite Hpl in Hlp. by split. }
    destruct (Hback (replicate (Z.to_nat n) 0)) as [Hlp _]; [rewrite length_replicate; lia|].
    split; [done|]. split.
    { unfold header_wf, is_u8, is_u64. cbn. split_and!; done || lia. }
    do 3 (split; [done|]). unfold honest_data. cbn. do 4 (split; [done || lia|]). exists (so_stream src). split; [done|].
    intros place e Hplace He. destruct (Hback place Hplace) as [_ (v & Hv & ->)]. rewrite He in Hv. by injection Hv.
Qed.
End Frames.

(** ** Serving a request *)

Section Serving.
Context `{Build, HalfLib, CodecLib, Display}.
Context {F D : Type} `{!ArrayDataset D, !Served D}.
Context {close : DType -> Z -> bytes -> bytes -> Prop} `{!CodecLaws close}.
Context (config : ServerConfig) (session : bytes) (ps : list Part) (srcs : list (Source D)).
Local Notation buffer := (read_buffer_bytes (transfer config)).
Context (Hshort : forall e, zlen (show_server e) < two32) (Hbuffer : 0 < buffer).

Lemma serve_loop_buffer {St E} (send : St -> Z -> bytes -> St * result E unit) fuel r (d : D) l offset len st asked :
  buffer_len (FetchReader.reader (FetchReader.serve_loop send fuel r d l offset len st asked)) = buffer_len r.
Proof.
  revert r offset len st asked. induction fuel as [|fuel IH]; intros r offset len st asked; cbn [FetchReader.serve_loop]; [by destruct (0 <? len)|].
  destruct (0 <? len); [|done]. destruct (FetchReader.hint l offset r) as [hs r1] eqn:Hh.
  assert (buffer_len r1 = buffer_len r) as Hr by (unfold FetchReader.hint in Hh; destruct (_ <? _); by injection Hh as <- <-).
  destruct (ds_read_range _ _ _ _); [|done..]. destruct (send st offset _) as [st1 []]; [rewrite IH|..]; done.
Qed.

Lemma refuse_reader (w : World (F := F) (D := D)) fetch class message disposition :
  w_reader (refuse w fetch class message disposition).2 = w_reader w.
Proof. unfold refuse. by destruct (send_error _ _ _ _). Qed.

(** Serving a frame leaves the reader's buffer as long as it was. *)
Lemma handle_frame_buffer (w : World (F := F) (D := D)) header now :
  buffer_len (w_reader (handle_frame config w header session now).2) = buffer_len (w_reader w).
Proof.
  unfold handle_frame. destruct (frame_type header); try (by rewrite refuse_reader); try done; [|by destruct (send_frame _ _ _)].
  unfold handle_fetch. destruct (negb _); [by rewrite refuse_reader|].
  destruct (read_full _ _) as [[[[] ticket]|e|] c]; try done. cbv zeta. destruct (_ <? _); [by rewrite refuse_reader|].
  destruct (TransferRegistry.fetch _ _ _ _ _) as [[e|e|] t]; [|by rewrite refuse_reader|done].
  destruct (SelectionLayout.check_range _ _ _); [|by rewrite refuse_reader|done]. destruct (negb _ && _); [by rewrite refuse_reader|].
  match goal with |- context [FetchReader.serve ?send ?r ?e ?o ?n ?st] => set (oc := FetchReader.serve send r e o n st) end.
  assert (buffer_len (FetchReader.reader oc) = buffer_len (w_reader w)) as Hb.
  { unfold oc, FetchReader.serve. rewrite serve_loop_buffer. by destruct (_ && _). }
  destruct (FetchReader.answer oc) as [[]| |]; try done. by rewrite refuse_reader.
Qed.

Lemma read_ticket ticket :
  zlen ticket = TICKET_LEN -> exists c, read_full TICKET_LEN {| events := [Got ticket]; writes := []; out := [] |} = (Ok (true, ticket), c) /\
    writes c = [] /\ out c = [].
Proof.
  intros Ht. assert (length ticket = Z.to_nat TICKET_LEN) as Hl by lia.
  assert (arriving [Got ticket] = ticket) as Harr by (by destruct ticket; [|cbn; rewrite app_nil_r]).
  destruct (read_full_loop_spec (Z.to_nat TICKET_LEN) [] [Got ticket]) as (es & Hr & _); rewrite ?Harr; cbn [length]; try lia.
  unfold read_full. cbn [events]. rewrite Hr, Harr. eexists. cbn [app length writes out]. rewrite Nat.sub_0_r, <- Hl, firstn_all. by split_and!.
Qed.

(** What a request in flight comes back as: the rest of its chunk, in frames, or one
    error. *)
Inductive answers (f : InFlight) : list (FrameHeader * bytes) -> Prop :=
  | answers_data p src pieces frames :
      ps !! part (chunk f) = Some p -> srcs !! part (chunk f) = Some src -> 0 <= received f -> frames <> [] ->
      Reader.consecutive buffer (c_offset (chunk f) + received f) (c_len (chunk f) - received f) pieces ->
      Forall2 (carries (pt_request_id p) (so_layout src) (so_stream src)) pieces frames -> answers f frames
  | answers_error h payload : frame_type h = Error -> header_wf h -> wire_len h = zlen payload -> answers f [(h, payload)].

(** A chunk the server may be asked for. *)
Record askable (p : Part) (src : Source D) (c : Chunk) : Prop := {
  ak_part : ps !! part c = Some p;
  ak_source : srcs !! part c = Some src;
  ak_range : 0 <= c_offset c /\ 0 < c_len c /\ c_offset c + c_len c <= zlen (so_stream src);
  ak_size : c_len c <= max_fetch_bytes (transfer config);
  ak_encodable : encodable (so_layout src) buffer (c_offset c) (c_len c);
}.

Lemma serve_answers (w : World (F := F) (D := D)) p src c now res w' :
  askable p src c -> sound src -> is_u32 (pt_request_id p) -> zlen (pt_ticket p) = TICKET_LEN ->
  conn w = {| events := [Got (pt_ticket p)]; writes := []; out := [] |} -> buffer_len (w_reader w) = buffer ->
  vouched session ps srcs (w_transfers w) ->
  handle_frame config w (FrameHeader.fetch (pt_request_id p) (c_offset c) (c_len c)) session now = (res, w') ->
  exists frames, answers {| chunk := c; received := 0 |} frames /\ out (conn w') = concat (uncurry frame_bytes <$> frames).
Proof.
  intros [Hp Hs Hrange Hmax Henc] Hsrc Hid Hlen Hconn Hb Hv Hhandle.
  destruct (read_ticket _ Hlen) as (cn & Hread & Hwr & Hout). rewrite <- Hconn in Hread.
  set (header := FrameHeader.fetch _ _ _) in *.
  destruct (TransferRegistry.fetch (w_transfers w) (request_id header) (pt_ticket p) session now) as [[e|e|] t] eqn:Hfetch.
  - assert (te_dataset e = so_dataset src /\ te_layout e = so_layout src) as [Hd Hl].
    { revert Hfetch. unfold TransferRegistry.fetch. cbn [request_id header FrameHeader.fetch]. destruct (entries _ !! _) as [e0|] eqn:He; [|done].
      destruct (TransferEntry.is_expired _ _ _); [done|]. destruct (constant_time_eq _ _) eqn:Htk; [|done]. cbn [negb orb].
      case_bool_decide as Hse; [|done]. intros [= <- _]. cbn. by apply (Hv (part c) p src e0). }
    destruct Hsrc as [Hop (indices & q & r & Hi & Hlay & Hr & Hst) Hsize Hslen Hless] eqn:Hsrc0. clear Hsrc0.
    destruct (fetch_spec w config header session now (pt_ticket p) cn (so_dataset src) indices q (so_layout src) r e t)
      as (pieces & frames & w1 & Hok & Hcons & Hcar & How); try done; cbn [header FrameHeader.fetch logical_len offset]; rewrite ?Hb; try lia; try done.
    rewrite Hok in Hhandle. injection Hhandle as <- <-. exists frames. split.
    + apply (answers_data {| chunk := c; received := 0 |} p src pieces); try done; cbn; rewrite ?Z.add_0_r, ?Z.sub_0_r.
      * intros ->. inversion Hcar; subst. cbn in Hcons. lia.
      * by rewrite Hb in Hcons.
      * by rewrite Hst.
    + by rewrite How, Hout.
  - assert (exists class disposition, handle_frame config w header session now =
      refuse (with_transfers (with_conn w cn) t) (Some header) class (show_server e) disposition) as (class & disposition & Heq).
    { unfold handle_frame, handle_fetch. cbn [frame_type header FrameHeader.fetch wire_len]. change (TICKET_LEN =? TICKET_LEN) with true. cbn [negb].
      rewrite Hread. cbv zeta. cbn [logical_len FrameHeader.fetch]. rewrite (proj2 (Z.ltb_ge _ _)) by done. cbn [w_transfers with_conn].
      rewrite Hfetch. eauto. }
    rewrite Heq in Hhandle. unfold refuse, send_error, send_frame in Hhandle. cbn [conn with_transfers with_conn] in Hhandle.
    rewrite write_all_ok in Hhandle by done. injection Hhandle as <- <-.
    eexists [(_, _)]. split; [|cbn [conn with_conn out]; rewrite Hout; cbn [fmap list_fmap concat uncurry app]; by rewrite app_nil_r]. apply answers_error; [done| |done].
    unfold header_wf, is_u8, is_u64. cbn. specialize (Hshort e). pose proof (sd_size _ Hsrc). pose proof (sd_len _ Hsrc).
    split_and!; done || lia.
  - exfalso. revert Hfetch. unfold TransferRegistry.fetch. destruct (entries _ !! _); [|done]. destruct (TransferEntry.is_expired _ _ _); [done|].
    by destruct (_ || _).
Qed.
End Serving.

(** ** The two ends in step *)

Section Together.
Context `{Build, HalfLib, CodecLib, Display}.
Context {F D : Type} `{!ArrayDataset D, !Served D}.
Context {close : DType -> Z -> bytes -> bytes -> Prop} `{!CodecLaws close}.
Context (config : ServerConfig) (session : bytes) (ps : list Part) (srcs : list (Source D)).
Context (sp : FetchSpec) (chunks : list (list (Z * Z))) (slots : list Slot).
Local Notation buffer := (read_buffer_bytes (transfer config)).
Local Notation streams := (so_stream <$> srcs).
Local Notation w0 := (start sp ps chunks slots).
Local Notation names := (fmap (fun p => (pt_request_id p, pt_ticket p))).
Local Notation answers := (answers config ps srcs).
Local Notation askable := (askable config ps srcs).

(** What a part and its source have in common. *)
Record paired (p : Part) (src : Source D) : Prop := {
  pr_sound : sound src;
  pr_id : is_u32 (pt_request_id p);
  pr_ticket : zlen (pt_ticket p) = TICKET_LEN;
  pr_len : zlen (pt_dst p) = zlen (so_stream src);
}.

(** What the client has cut is what the server accepts in one fetch. *)
Definition fetchable (src : Source D) (cs : list (Z * Z)) : Prop :=
  Forall (fun '(o, n) => n <= max_fetch_bytes (transfer config) /\ encodable (so_layout src) buffer o n) cs.

Context (Hshort : forall e, zlen (show_server e) < two32) (Hbuffer : 0 < buffer).
Context (Hpairs : Forall2 paired ps srcs) (Hcut : Forall2 cut_whole ps chunks) (Hask : Forall2 fetchable srcs chunks).

Definition asks (f : InFlight) (request : FrameHeader * bytes) : Prop :=
  received f = 0 /\ exists p, ps !! part (chunk f) = Some p /\ request = fetch_frame p (chunk f).

(** A connection carries the answers to the first of the chunks in flight, and the
    requests for the others, unless the server has hung up. *)
Definition linked (fl : list InFlight) (l : Link) : Prop :=
  exists fa fp groups, fl = fa ++ fp /\ Forall2 answers fa groups /\ down l = concat (uncurry frame_bytes <$> concat groups) /\
    (hung l = false -> Forall2 asks fp (up l)) /\ buffer_len (server l) = buffer.

Record site_ok (s : Site) : Prop := {
  st_reach : reach (honest streams) w0 (pool s);
  st_names : names (parts (pool s)) = names ps;
  st_links : (length (threads (pool s)) <= length (links s))%nat;
  st_linked : forall i t, threads (pool s) !! i = Some t -> wired t -> exists l, links s !! i = Some l /\ linked (flight t) l;
}.

Lemma part_keys_inv n (k : Key) : k ∈ part_keys n chunks -> exists cs, chunks !! (k.1.1 - n)%nat = Some cs /\ (k.1.2, k.2) ∈ cs /\ (n <= k.1.1)%nat.
Proof.
  clear. revert n. induction chunks as [|cs chunks' IH]; intros n; cbn; [by intros ?%not_elem_of_nil|].
  intros [([o l] & -> & Hin)%list_elem_of_fmap|Hin]%elem_of_app.
  - exists cs. cbn. by rewrite Nat.sub_diag.
  - destruct (IH (S n) Hin) as (cs' & Hcs & Hin' & Hle). exists cs'. replace (k.1.1 - n)%nat with (S (k.1.1 - S n)) by lia. split; [done|]. split; [done|lia].
Qed.

Lemma key_askable c : key c ∈ part_keys 0 chunks -> exists p src, askable p src c /\ paired p src.
Proof.
  intros Hk. pose proof (ck_inside _ _ (start_chunks_ok ps chunks Hcut)) as Hin. rewrite Forall_forall in Hin.
  destruct (Hin _ Hk) as (Ho & Hl & n & Hn & Hend & _). cbn in Ho, Hl, Hn, Hend.
  apply list_lookup_fmap_Some in Hn as (p & -> & Hp). destruct (Forall2_lookup_l _ _ _ _ _ Hpairs Hp) as (src & Hsrc & Hpair).
  destruct (part_keys_inv 0 (key c) Hk) as (cs & Hcs & Hel & _). cbn in Hcs, Hel. rewrite Nat.sub_0_r in Hcs.
  pose proof (Forall2_lookup_lr _ _ _ _ _ _ Hask Hsrc Hcs) as Hf. unfold fetchable in Hf. rewrite Forall_forall in Hf.
  destruct (Hf _ Hel) as [Hsz Henc]. exists p, src. split; [|done]. split; try done. rewrite <- (pr_len _ _ Hpair). lia.
Qed.

(** A chunk in flight or about to be asked for is one of the transfer's. *)
Lemma held_askable s i t c :
  site_ok s -> threads (pool s) !! i = Some t -> c ∈ (chunk <$> flight t) ++ fresh_of t -> exists p src, askable p src c /\ paired p src.
Proof.
  intros Hok Hi Hc. apply key_askable. destruct (reach_pool_ok sp ps chunks slots Hcut _ _ (st_reach _ Hok)) as (d & lost & Hp).
  rewrite <- (pk_keys _ _ _ _ _ Hp). do 2 (apply elem_of_app; right). apply elem_of_app. left.
  apply list_elem_of_bind. exists t. split; [|by eapply list_elem_of_lookup_2]. unfold held_keys.
  rewrite list_fmap_compose, <- fmap_app. by apply list_elem_of_fmap_2.
Qed.

(** The frame the client reads next is the first of the answers to its oldest request. *)
Lemma front_frame fl l header tail :
  (forall f, f ∈ fl -> exists p src, askable p src (chunk f) /\ paired p src) -> linked fl l ->
  read_frame_header (down l) = Ok (header, tail) ->
  exists f fa fp payload g gs,
    fl = f :: fa ++ fp /\ answers f ((header, payload) :: g) /\ Forall2 answers fa gs /\
    tail = payload ++ concat (uncurry frame_bytes <$> g ++ concat gs) /\ wire_len header = zlen payload /\
    (hung l = false -> Forall2 asks fp (up l)) /\ buffer_len (server l) = buffer /\
    match frame_type header with
    | Data => honest_data streams f header payload /\ 0 <= received f /\
        (received f + logical_len header = c_len (chunk f) -> g = []) /\ 0 < logical_len header /\
        (received f + logical_len header <> c_len (chunk f) -> answers {| chunk := chunk f; received := received f + logical_len header |} g)
    | Error => g = []
    | _ => False
    end.
Proof.
  intros Hall (fa & fp & groups & -> & Hfa & Hdown & Hup & Hb) Hread.
  destruct Hfa as [|f g0 fa gs Hf Hfa]; [by rewrite Hdown in Hread|].
  destruct (Hall f) as (p & src & Hask' & [Hsrc Hid Htk Hlen]); [left|].
  assert (exists h payload g, g0 = (h, payload) :: g /\ header_wf h /\ wire_len h = zlen payload /\
    match frame_type h with
    | Data => honest_data streams f h payload /\ 0 <= received f /\ (received f + logical_len h = c_len (chunk f) -> g = []) /\ 0 < logical_len h /\
        (received f + logical_len h <> c_len (chunk f) -> answers {| chunk := chunk f; received := received f + logical_len h |} g)
    | Error => g = []
    | _ => False
    end) as (h & payload & g & -> & Hwf & Hwl & Hcase).
  { destruct Hf as [p' src' pieces frames Hp Hs Hr0 Hne Hcons Hcar|h payload Ht Hwf Hwl].
    2: { exists h, payload, []. split; [done|]. split; [done|]. split; [done|]. by rewrite Ht. }
    rewrite (ak_part _ _ _ _ _ _ Hask') in Hp. injection Hp as <-. rewrite (ak_source _ _ _ _ _ _ Hask') in Hs. injection Hs as <-.
    destruct Hcar as [|[at_ n] [h payload] pieces frames Hcar Hrest]; [done|]. cbn [Reader.consecutive] in Hcons.
    destruct Hcons as (-> & Hn & Hnl & Hcons). destruct (ak_range _ _ _ _ _ _ Hask') as (Ho & Hl & Hend).
    destruct (carries_honest streams f (pt_request_id p) src (c_offset (chunk f) + received f) n h payload) as (Hty & Hwf & Hwl & Hoff & Hll & Hhon);
      try done; try lia.
    { by rewrite list_lookup_fmap, (ak_source _ _ _ _ _ _ Hask'). }
    exists h, payload, frames. split; [done|]. split; [done|]. split; [done|]. rewrite Hty, Hll. split; [done|]. split; [done|]. split.
    { intros Heq. destruct Hrest as [|[at2 n2] ? ? ? ? _]; [done|]. cbn in Hcons. lia. }
    split; [lia|]. intros Hneq. apply (answers_data _ _ _ _ p src pieces); cbn; try done; try lia.
    - apply Hask'.
    - apply Hask'.
    - intros ->. inversion Hrest; subst. cbn in Hcons. lia.
    - by replace (c_offset (chunk f) + (received f + n)) with (c_offset (chunk f) + received f + n) by lia;
        replace (c_len (chunk f) - (received f + n)) with (c_len (chunk f) - received f - n) by lia. }
  assert (header = h /\ tail = payload ++ concat (uncurry frame_bytes <$> g ++ concat gs)) as [-> ->].
  { rewrite Hdown in Hread. cbn [concat] in Hread. rewrite <- app_comm_cons, fmap_cons in Hread. cbn [concat uncurry] in Hread.
    unfold frame_bytes at 1 in Hread. rewrite <- app_assoc, read_written_header in Hread by done. by injection Hread as <- <-. }
  exists f, fa, fp, payload, g, gs. by split_and!.
Qed.

Lemma names_lookup s p q k :
  site_ok s -> parts (pool s) !! k = Some q -> ps !! k = Some p -> pt_request_id q = pt_request_id p /\ pt_ticket q = pt_ticket p.
Proof.
  intros Hok Hq Hp. pose proof (f_equal (lookup k) (st_names _ Hok)) as Hn. rewrite !list_lookup_fmap, Hq, Hp in Hn. by injection Hn.
Qed.

(** A step of thread [i] is one the invariant survives when its own connection does. *)
Lemma act_keeps_site s i ev w' ls' :
  site_ok s -> act (pool s) i ev = Some w' -> length ls' = length (links s) -> (forall j, j <> i -> ls' !! j = links s !! j) ->
  (forall t t', threads (pool s) !! i = Some t -> follows t ev t' ->
     honest streams (pool s) i ev /\ (wired t' -> exists l', ls' !! i = Some l' /\ linked (flight t') l')) ->
  site_ok {| pool := w'; links := ls' |}.
Proof.
  intros Hok Hact Hlen Hls Hown. destruct (act_follows _ _ _ _ Hact) as (t & t' & Hi & Hmoves & Hf).
  destruct (Hown t t' Hi Hf) as [Hhon Hlinked]. split; cbn [pool links].
  - eapply reach_step; [apply Hok|exact Hhon|exact Hact].
  - destruct Hmoves as (_ & _ & Hn). by rewrite Hn, (st_names _ Hok).
  - rewrite (act_length _ _ _ _ Hact), Hlen. apply Hok.
  - intros j u' Hj Hw. destruct (moves_lookup _ _ _ _ _ _ _ Hi Hmoves Hj) as (u & Hu & -> & Hwu). specialize (Hwu Hw).
    destruct (decide (j = i)) as [->|Hne]; [subst u; by apply Hlinked|]. rewrite Hls by done. by apply (st_linked _ Hok).
Qed.

Lemma in_flight_askable s i t f :
  site_ok s -> threads (pool s) !! i = Some t -> f ∈ flight t -> exists p src, askable p src (chunk f) /\ paired p src.
Proof.
  intros Hok Hi Hf. eapply held_askable; [done..|]. apply elem_of_app. left. by apply list_elem_of_fmap_2.
Qed.

Lemma set_link s i l l' j : links s !! i = Some l -> length (<[i := l']> (links s)) = length (links s) /\
  (j <> i -> <[i := l']> (links s) !! j = links s !! j) /\ <[i := l']> (links s) !! i = Some l'.
Proof.
  intros Hl. split; [apply length_insert|]. split; [intros; by apply list_lookup_insert_ne|].
  apply list_lookup_insert_eq. by eapply lookup_lt_Some.
Qed.

Lemma offline_site s i ev w' :
  site_ok s -> offline ev -> act (pool s) i ev = Some w' -> site_ok {| pool := w'; links := links s |}.
Proof.
  intros Hok Hoff Hact. eapply act_keeps_site; try done. intros t t' Hi Hf. split.
  - intros u f others _ _. by destruct ev.
  - intros Hw. destruct ev as [|[]|?|?|?|[]|]; try done; destruct (Hf Hw) as [Hwt ->]; by apply (st_linked _ Hok).
Qed.

Lemma ask_site s i t c rest p l w' :
  site_ok s -> threads (pool s) !! i = Some t -> phase t = Asking (c :: rest) -> parts (pool s) !! part c = Some p ->
  links s !! i = Some l -> act (pool s) i (Sent (Ok tt)) = Some w' ->
  site_ok {| pool := w'; links := <[i := asked_on l (fetch_frame p c)]> (links s) |}.
Proof.
  intros Hok Hi Hp Hpart Hl Hact. pose proof (set_link s i l (asked_on l (fetch_frame p c))) as Hset.
  eapply act_keeps_site; try done; [by apply (Hset 0%nat)|by intros j; apply Hset|].
  intros t1 t' Hi1 (c1 & rest1 & Hp1 & Hfl). rewrite Hi in Hi1. injection Hi1 as <-. rewrite Hp in Hp1. injection Hp1 as <- <-.
  split; [by intros u f others|]. intros Hw. rewrite (Hfl Hw). eexists. split; [by apply (Hset 0%nat)|].
  destruct (st_linked _ Hok i t Hi) as (l1 & Hl1 & fa & fp & gs & -> & Hfa & Hd & Hup & Hb); [unfold wired; by rewrite Hp|].
  rewrite Hl in Hl1. injection Hl1 as <-. exists fa, (fp ++ [{| chunk := c; received := 0 |}]), gs. cbn [asked_on down hung up server].
  split; [by rewrite app_assoc|]. do 2 (split; [done|]). split; [|done]. intros Hh. apply Forall2_app; [by apply Hup|].
  constructor; [|done]. split; [done|]. cbn [chunk].
  destruct (held_askable s i t c Hok Hi) as (p0 & src & Hask0 & _); [apply elem_of_app; right; unfold fresh_of; rewrite Hp; left|].
  exists p0. split; [apply Hask0|]. destruct (names_lookup s p0 p _ Hok Hpart (ak_part _ _ _ _ _ _ Hask0)) as [Hid Htk].
  unfold fetch_frame. by rewrite Hid, Htk.
Qed.

Lemma serve_site s i l header payload rest (w : World (F := F) (D := D)) now res w' :
  site_ok s -> links s !! i = Some l -> hung l = false -> up l = (header, payload) :: rest ->
  conn w = {| events := [Got payload]; writes := []; out := [] |} -> w_reader w = server l -> vouched session ps srcs (w_transfers w) ->
  handle_frame config w header session now = (res, w') ->
  site_ok {| pool := pool s; links := <[i := {| up := rest; down := down l ++ out (conn w'); server := w_reader w';
    hung := match res with Ok Continue => false | _ => true end |}]> (links s) |}.
Proof.
  intros Hok Hl Hh Hup Hconn Hr Hv Hhandle. split; cbn [pool links]; [apply Hok|apply Hok|rewrite length_insert; apply Hok|].
  intros j t Hj Hw. destruct (st_linked _ Hok j t Hj Hw) as (l1 & Hl1 & Hlinked).
  destruct (decide (j = i)) as [->|Hne]; [|exists l1; by rewrite list_lookup_insert_ne].
  rewrite Hl in Hl1. injection Hl1 as <-. destruct Hlinked as (fa & fp & gs & Hfl & Hfa & Hd & Hups & Hb).
  specialize (Hups Hh). rewrite Hup in Hups. destruct fp as [|f fp]; [by inversion Hups|].
  apply Forall2_cons in Hups as [[Hr0 (p & Hp & [= -> ->])] Hups].
  destruct (in_flight_askable s i t f Hok Hj) as (p1 & src & Hask1 & [Hsrc Hid Htk Hlen]); [rewrite Hfl; apply elem_of_app; right; left|].
  rewrite (ak_part _ _ _ _ _ _ Hask1) in Hp. injection Hp as <-. rewrite <- Hr in Hb.
  destruct (serve_answers config session ps srcs Hshort Hbuffer w p1 src (chunk f) now res w') as (frames & Hans & Hout); try done.
  eexists. split; [apply list_lookup_insert_eq; by eapply lookup_lt_Some|].
  exists (fa ++ [f]), fp, (gs ++ [frames]). cbn [down hung up server]. split; [by rewrite <- app_assoc|]. split.
  { apply Forall2_app; [done|]. constructor; [|done]. destruct f as [c n]. cbn in Hr0, Hans. by subst n. }
  split; [by rewrite concat_app, fmap_app, concat_app, Hd, Hout; cbn [concat]; rewrite app_nil_r|]. split; [done|].
  rewrite <- Hb. pose proof (handle_frame_buffer config session w (FrameHeader.fetch (pt_request_id p1) (c_offset (chunk f)) (c_len (chunk f))) now) as Hbuf.
  by rewrite Hhandle in Hbuf.
Qed.

Lemma read_site s i l header payload rest pong w' :
  site_ok s -> links s !! i = Some l -> read_frame_header (down l) = Ok (header, payload ++ rest) -> zlen payload = wire_len header ->
  act (pool s) i (Frame header payload pong) = Some w' -> site_ok {| pool := w'; links := <[i := read_off l rest]> (links s) |}.
Proof.
  intros Hok Hl Hread Hlen Hact. pose proof (set_link s i l (read_off l rest)) as Hset.
  eapply act_keeps_site; try done; [by apply (Hset 0%nat)|by intros j; apply Hset|].
  intros t t' Hi [Hp Hf]. destruct (st_linked _ Hok i t Hi) as (l1 & Hl1 & Hlinked); [unfold wired; by rewrite Hp|].
  rewrite Hl in Hl1. injection Hl1 as <-.
  destruct (front_frame (flight t) l header (payload ++ rest) (fun f => in_flight_askable s i t f Hok Hi) Hlinked Hread)
    as (f & fa & fp & payload1 & g & gs & Hfl & Hans & Hfa & Htail & Hwl & Hup & Hb & Hcase).
  apply app_inj_1 in Htail as [<- ->]; [|lia].
  split.
  - intros u f1 others Hu Hfl1 Hd. rewrite Hi in Hu. injection Hu as <-. rewrite Hfl in Hfl1. injection Hfl1 as <- _.
    rewrite Hd in Hcase. apply Hcase.
  - intros Hw. specialize (Hf Hw). rewrite Hfl in Hf. eexists. split; [by apply (Hset 0%nat)|].
    destruct (frame_type header); try done.
    + destruct Hcase as ((_ & _ & Hle & _) & Hr0 & Hend & Hpos & Hmore). cbv zeta in Hf.
      destruct (in_flight_askable s i t f Hok Hi) as (p & src & Hask1 & [Hsrc _ _ _]); [rewrite Hfl; left|].
      pose proof (ak_range _ _ _ _ _ _ Hask1) as (Ho & _ & Hlast). pose proof (sd_size _ Hsrc). pose proof (sd_len _ Hsrc).
      unfold wadd in Hf. rewrite u64_id in Hf by (unfold is_u64; lia). destruct (Z.leb_spec (c_len (chunk f)) (received f + logical_len header)).
      * rewrite Hf. rewrite Hend by lia. by exists fa, fp, gs.
      * rewrite Hf. eexists (_ :: fa), fp, (g :: gs). split; [done|]. split; [|done]. constructor; [|done]. apply Hmore. lia.
    + subst g. rewrite Hf. by exists fa, fp, gs.
Qed.

Lemma torn_site s i t f others l header rest junk kind w' :
  site_ok s -> threads (pool s) !! i = Some t -> flight t = f :: others -> links s !! i = Some l ->
  read_frame_header (down l) = Ok (header, rest) -> frame_type header = Data ->
  act (pool s) i (Torn (offset header - c_offset (chunk f)) junk kind) = Some w' -> site_ok {| pool := w'; links := links s |}.
Proof.
  intros Hok Hi Hfl Hl Hread Hd Hact. eapply act_keeps_site; try done. intros t1 t' Hi1 [Hp Hno]. rewrite Hi in Hi1. injection Hi1 as <-.
  split; [|by intros Hw; destruct (Hno Hw)]. intros u f1 others1 Hu Hfl1. rewrite Hi in Hu. injection Hu as <-. rewrite Hfl in Hfl1. injection Hfl1 as <- _.
  destruct (st_linked _ Hok i t Hi) as (l1 & Hl1 & Hlinked); [unfold wired; by rewrite Hp|]. rewrite Hl in Hl1. injection Hl1 as <-.
  destruct (front_frame (flight t) l header rest (fun f => in_flight_askable s i t f Hok Hi) Hlinked Hread)
    as (f1 & fa & fp & payload1 & g & gs & Hfl1 & _ & _ & _ & _ & _ & _ & Hcase).
  rewrite Hfl in Hfl1. injection Hfl1 as <- _. rewrite Hd in Hcase. destruct Hcase as ((Hoff & _) & _). lia.
Qed.

Lemma reconnect_site s i l w' :
  site_ok s -> idle buffer l -> act (pool s) i (Reconnected (Ok tt)) = Some w' -> site_ok {| pool := w'; links := <[i := l]> (links s) |}.
Proof.
  intros Hok (Hup & Hd & Hb & Hh) Hact. eapply act_keeps_site; try done; [apply length_insert|by intros; apply list_lookup_insert_ne|].
  intros t t' Hi [Hp Hfl]. split; [by intros u f others|]. intros _.
  destruct (reach_pool_ok sp ps chunks slots Hcut _ _ (st_reach _ Hok)) as (d & lost & Hpool).
  pose proof (pk_phase _ _ _ _ _ Hpool) as Hph. rewrite Forall_forall in Hph. specialize (Hph t ltac:(by eapply list_elem_of_lookup_2)).
  unfold phase_ok in Hph. rewrite Hp in Hph. rewrite Hfl, Hph. exists l. split.
  { apply list_lookup_insert_eq. apply lookup_lt_Some in Hi. pose proof (st_links _ Hok). lia. }
  exists [], [], []. rewrite Hup, Hd. by split_and!.
Qed.

Lemma start_site ls : length ls = length slots -> Forall (idle buffer) ls -> site_ok {| pool := w0; links := ls |}.
Proof.
  intros Hlen Hidle. split; cbn [pool links]; [constructor|done| |].
  - unfold start. cbn [threads]. rewrite length_fmap, length_take. lia.
  - intros i t Hi Hw. unfold start in Hi. cbn [threads] in Hi. apply list_lookup_fmap_Some in Hi as (slot & -> & Hslot).
    apply lookup_take_Some in Hslot as [Hslot _]. apply lookup_lt_Some in Hslot. rewrite <- Hlen in Hslot.
    destruct (lookup_lt_is_Some_2 ls i Hslot) as [l Hl]. exists l. split; [done|].
    rewrite Forall_forall in Hidle. destruct (Hidle l ltac:(by eapply list_elem_of_lookup_2)) as (Hup & Hd & Hb & Hh).
    exists [], [], []. rewrite Hup, Hd. by destruct slot.
Qed.

(** Both ends stay in step. *)
Lemma runs_site ls s :
  length ls = length slots -> Forall (idle buffer) ls -> runs (F := F) config session ps srcs {| pool := w0; links := ls |} s -> site_ok s.
Proof.
  intros Hlen Hidle. induction 1 as [|s i s' _ Hok Hstep]; [by apply start_site|]. destruct Hstep.
  - by eapply offline_site.
  - by eapply ask_site.
  - by eapply serve_site.
  - by eapply read_site.
  - by eapply torn_site.
  - by eapply reconnect_site.
Qed.

(** A transfer that answers [Ok] has filled every part with its source. *)
Lemma system_delivers ls s retried :
  length ls = length slots -> Forall (idle buffer) ls -> slots <> [] -> runs (F := F) config session ps srcs {| pool := w0; links := ls |} s ->
  finished (pool s) = true -> answer (pool s) = Ok retried -> pt_dst <$> parts (pool s) = streams.
Proof.
  intros Hlen Hidle Hslots Hruns Hfin Hans. apply (ok_has_all sp ps chunks slots streams (pool s) retried); try done.
  - apply Forall2_fmap_r. eapply Forall2_impl; [exact Hpairs|]. intros p src Hp. by apply Hp.
  - by apply (st_reach _ (runs_site ls s Hlen Hidle Hruns)).
Qed.
End Together.
