(* ===== verification/EndToEnd.v ===== *)
(** From a selection to a filled buffer: what the server prepares, the data plane serves and
    the pool collects, whatever order their steps come in. *)
From stdpp Require Import strings gmap.
From S2P Require Import Prelude Errors Dtype Bytes Quality Codec Selection SelectionSpec Cast Layout LayoutSpec NumpyIndex Text Backend Null Convert Config Frame Paths Session Transfer Reduce ReduceNumpy Reader DataPlane Plan Control ControlSpec ControlServes Pool PoolSpec PoolCorrect System.

Import ControlService Pool.

(** ** What keeps a table vouched for *)

Section Tables.
Context {F D : Type}.
Context (session : bytes) (ps : list Part) (srcs : list (Source D)).
Local Notation vouched := (vouched session ps srcs).
Implicit Type t : TransferRegistry D.

(** A table with no plan the other does not have, times of last use aside. *)
Definition no_new_plans t t' : Prop :=
  forall i e', entries t' !! i = Some e' -> exists e, entries t !! i = Some e /\ te_session e' = te_session e /\
    te_ticket e' = te_ticket e /\ te_dataset e' = te_dataset e /\ te_layout e' = te_layout e.

Lemma vouched_no_new t t' : vouched t -> no_new_plans t t' -> vouched t'.
Proof.
  intros Hv Hn k p src e' Hp Hs He' Hse Htk. destruct (Hn _ _ He') as (e & He & Hse' & Htk' & -> & ->).
  eapply Hv; [done..| |]; congruence.
Qed.

(** Serving the parts' own fetches adds none. *)
Lemma vouched_fetch t id ticket who now : vouched t -> vouched (TransferRegistry.fetch t id ticket who now).2.
Proof.
  intros Hv. apply (vouched_no_new t); [done|]. intros i e'. unfold TransferRegistry.fetch.
  destruct (entries t !! id) as [e|] eqn:He; [|by intros; exists e']. destruct (TransferEntry.is_expired _ _ _); cbn.
  - unfold TransferRegistry.remove. rewrite He. unfold TransferRegistry.with_plans. cbn. rewrite lookup_delete_Some. intros [_ He']. by exists e'.
  - destruct (_ || _); cbn; [by intros; exists e'|]. rewrite lookup_insert_Some. intros [[<- <-]|[_ He']]; [|by exists e']. exists e. by split_and!.
Qed.

Lemma vouched_touch t e0 now : vouched t -> vouched (TransferRegistry.touch t e0 now).
Proof.
  intros Hv. apply (vouched_no_new t); [done|]. intros i e'. unfold TransferRegistry.touch. cbn. rewrite lookup_alter_Some.
  intros [(_ & e & He & ->)|[_ He']]; [|by exists e']. exists e. by split_and!.
Qed.

(** No call of another session does. *)
Lemma vouched_call `{Build, HalfLib, HalfNum, Fs, !ArrayDataset D, !ArrayFile F D, !Backends F D} n (sv : Service F D) c :
  0 <= n -> service_ok (n + cost c) sv -> caller c <> session -> vouched (sv_transfers sv) -> vouched (sv_transfers (serve sv c).1).
Proof.
  intros Hn Hok Hc Hv k p src e Hp Hs He Hse. destruct (serve_conducts n sv c Hn Hok) as [_ [_ Hplans _ _ _]].
  apply Hplans in He; [|congruence]. by eapply Hv.
Qed.
End Tables.

(** ** From end to end *)

Section Delivered.
Context `{Build, HalfLib, HalfNum, Fs, CodecLib, Display}.
Context {F D : Type} `{!ArrayDataset D, !ArrayFile F D, !Backends F D, !Served D, !LayoutKept F D}.
Context (close : DType -> Z -> bytes -> bytes -> Prop) `{!CodecLaws close}.

Definition part_of (p : Plan) (dst : bytes) : Part := {| pt_request_id := plan_request_id p; pt_ticket := plan_ticket p; pt_dst := dst |}.

End Delivered.

(** ** At a concrete input *)

(** What may happen next on the only connection: a step of the thread's own, asking for
    its next chunk, the server's turn, a frame read, one torn after [junk], the connection
    rebuilt. *)
Inductive Turn : Type := Own (ev : Event) | Asks | Serves | Reads | Tears (junk : bytes) | Rebuilds.

Section Turns.
Context `{Build, HalfLib, CodecLib, Display}.
Context {F D : Type} `{!ArrayDataset D, !Served D}.
Context (config : ServerConfig) (session : bytes) (ps : list Part) (srcs : list (Source D)) (w : World (F := F) (D := D)) (now : Z).

Definition turn (s : Site) (c : Turn) : option Site :=
  l ← links s !! 0%nat;
  t ← threads (pool s) !! 0%nat;
  match c with
  | Own ev => if decide (offline ev) then w' ← act (pool s) 0 ev; Some {| pool := w'; links := links s |} else None
  | Asks =>
      match phase t with
      | Asking (c :: _) =>
          p ← parts (pool s) !! part c;
          w' ← act (pool s) 0 (Sent (Ok tt));
          Some {| pool := w'; links := <[0%nat := asked_on l (fetch_frame p c)]> (links s) |}
      | _ => None
      end
  | Serves =>
      match hung l, up l with
      | false, (header, payload) :: rest =>
          let w0 := {| conn := {| events := [Got payload]; writes := []; out := [] |}; w_sessions := w_sessions w;
                       w_transfers := w_transfers w; w_reader := server l |} in
          let '(res, w') := handle_frame config w0 header session now in
          Some {| pool := pool s; links := <[0%nat := {| up := rest; down := down l ++ out (conn w'); server := w_reader w';
                    hung := match res with Ok Continue => false | _ => true end |}]> (links s) |}
      | _, _ => None
      end
  | Reads =>
      match read_frame_header (down l) with
      | Ok (header, rest) =>
          if decide (zlen (take (Z.to_nat (wire_len header)) rest) = wire_len header) then
            w' ← act (pool s) 0 (Frame header (take (Z.to_nat (wire_len header)) rest) (Ok tt));
            Some {| pool := w'; links := <[0%nat := read_off l (drop (Z.to_nat (wire_len header)) rest)]> (links s) |}
          else None
      | _ => None
      end
  | Tears junk =>
      match read_frame_header (down l), flight t with
      | Ok (header, _), f :: _ =>
          if decide (frame_type header = Data) then
            w' ← act (pool s) 0 (Torn (offset header - c_offset (chunk f)) junk KTimedOut); Some {| pool := w'; links := links s |}
          else None
      | _, _ => None
      end
  | Rebuilds =>
      w' ← act (pool s) 0 (Reconnected (Ok tt));
      Some {| pool := w'; links := <[0%nat := {| up := []; down := []; server := FetchReader.new (read_buffer_bytes (transfer config)); hung := false |}]> (links s) |}
  end.

Lemma turn_step s c s' : vouched session ps srcs (w_transfers w) -> turn s c = Some s' -> step (F := F) config session ps srcs 0 s s'.
Proof.
  intros Hv. unfold turn. intros (l & Hl & (t & Ht & Hs)%bind_Some)%bind_Some. destruct c as [ev| | | |junk|].
  - case_decide; [|done]. apply bind_Some in Hs as (w' & Hact & [= <-]). by eapply step_offline.
  - destruct (phase t) as [|[|c rest]| | | | | | | |] eqn:Hp; try done. apply bind_Some in Hs as (p & Hpart & (w' & Hact & [= <-])%bind_Some).
    by eapply step_ask.
  - destruct (hung l) eqn:Hh; [done|]. destruct (up l) as [|[header payload] rest] eqn:Hup; [done|].
    destruct (handle_frame _ _ _ _ _) as [res w'] eqn:Hhandle. injection Hs as <-.
    eapply step_serve; [done..| | | |exact Hhandle]; done.
  - destruct (read_frame_header _) as [[header rest]| |] eqn:Hr; [|done..]. case_decide; [|done].
    apply bind_Some in Hs as (w' & Hact & [= <-]). eapply step_read; [done| |done..]. by rewrite take_drop.
  - destruct (read_frame_header _) as [[header rest]| |] eqn:Hr; [|done..]. destruct (flight t) eqn:Hf; [done|]. case_decide; [|done].
    apply bind_Some in Hs as (w' & Hact & [= <-]). by eapply step_torn.
  - apply bind_Some in Hs as (w' & Hact & [= <-]). by eapply step_reconnect.
Qed.

Fixpoint turns (s : Site) (cs : list Turn) : option Site :=
  match cs with [] => Some s | c :: cs => s' ← turn s c; turns s' cs end.

Lemma turns_runs s0 s cs s' :
  vouched session ps srcs (w_transfers w) -> runs (F := F) config session ps srcs s0 s -> turns s cs = Some s' ->
  runs (F := F) config session ps srcs s0 s'.
Proof.
  intros Hv. revert s. induction cs as [|c cs IH]; intros s Hr; cbn [turns]; [by intros [= <-]|].
  intros (s1 & Hs1 & Hs')%bind_Some. eapply IH; [|done]. eapply runs_step; [done|by eapply turn_step].
Qed.
End Turns.

#[local] Existing Instance LayoutSpec.demo_build.
#[local] Existing Instance demo_half.
#[local] Existing Instance demo_half_num.
#[local] Existing Instance demo_fs.
#[local] Existing Instance demo_lib.
#[local] Existing Instance demo_laws.
#[local] Existing Instance demo_display.

(** The plan of [demo_request], fetched over one connection that breaks within the second
    frame. *)
Definition demo_prepared : Service NullFile NullDataset := (prepare_selection demo_service demo_request demo_moment).1.
Definition demo_plan : Plan :=
  {| plan_request_id := 1; plan_ticket := demo_ticket 9; plan_dtype := Uint8; plan_shape := [12]; plan_total_bytes := 12;
     applied_quality := {| encoding := Exact; cast_dtype := None; abs_error_bound := None; rel_error_bound := None; spec_codec := Some Raw |};
     requested_quality := QualitySpec.exact; inline_data := [] |}.
Definition demo_link : Link := {| up := []; down := []; server := FetchReader.new 4; hung := false |}.
Definition demo_dst : bytes := replicate 12 0.
Definition demo_begun : Site :=
  {| pool := start demo_sp [part_of demo_plan demo_dst] [[(0, 8); (8, 4)]] [Held]; links := [demo_link] |}.
Definition demo_turns : list Turn :=
  [Own Tick; Asks; Asks; Own Tick; Serves; Reads; Own Tick; Own Tick; Tears [9; 9]; Own Tick; Own Tick; Own Tick; Own Tick; Rebuilds;
   Own Tick; Asks; Asks; Own Tick; Serves; Serves; Reads; Own Tick; Own Tick; Reads; Own Tick; Own Tick; Reads; Own Tick; Own Tick].
Definition demo_world : World (F := NullFile) (D := NullDataset) :=
  {| conn := {| events := []; writes := []; out := [] |}; w_sessions := SessionRegistry.new demo_config;
     w_transfers := sv_transfers demo_prepared; w_reader := FetchReader.new 4 |}.
Definition demo_arrived : Site := default demo_begun (turns demo_config (demo_id 7) demo_world 30 demo_begun demo_turns).

